(* ===== verification/_CoqProject ===== *)
-Q . S2P
Prelude.v
Errors.v
FixedMath.v
Root.v
LiquidityTree.v
LiquidityTreeFacts.v
LiquidityTreeInv.v
LiquidityTreeSpec.v
Collections.v
Interfaces.v
ReferenceEnv.v
Balances.v
NodeManager.v
NodeManagerInv.v
NodeRewards.v
NodePayouts.v
NodeWorker.v
NodeDemo.v
EthAssetRegistry.v
PalletConfig.v
MerkleTree.v
SummaryRpc.v
EthEvents.v
EthEventsFacts.v
EthService.v
EthServiceFacts.v
RootService.v
DisputeQueue.v
Market.v
MarketEncoding.v
Authorized.v
GlobalDisputes.v
GlobalDisputesInv.v
GlobalDisputesRuns.v
GlobalDisputesDemo.v
MultiCurrency.v
Fees.v
OrderBook.v
OrderBookInv.v
HybridRouter.v
HybridRouterInv.v
RouterDemo.v
CompleteSets.v
NeoMath.v
NeoReference.v
NeoSwaps.v
NeoSwapsInv.v
NeoSwapsRuns.v
NeoDemo.v
PredictionMarkets.v
PmCalls.v
PmInv.v
PmSchedule.v
PmLife.v
PmMoves.v
PmRuns.v
PmHook.v
PmRedeem.v
PmDemo.v
CourtTypes.v
CourtPool.v
CourtSelection.v
CourtVoting.v
CourtInv.v
CourtSpec.v
CourtDraw.v
CourtRuling.v
CourtStakes.v
CourtDemo.v
Disputes.v
DisputesDemo.v
Watchtower.v
WatchtowerQueue.v
WatchtowerInv.v
WatchtowerLife.v
WatchtowerVotes.v
SummaryWatchtower.v
RuntimeOrigins.v
WatchtowerDemo.v
ProxyConfig.v
