(* ===== verification/Prelude.v ===== *)
(** * Truth Network node: a verification library

    The Truth Network is a Substrate chain with prediction markets.  Its runtime
    ([src/runtime]) puts together the pallets under [src/pallets]; its node
    ([src/node]) runs the runtime, watches Ethereum and serves roots of block
    ranges.  This library translates the pallets, the arithmetic they rest on and
    the services of the node into Rocq and proves what makes them correct.  Paths
    below are relative to [src/]; a comment at the top of each file names the
    sources it translates, and definitions keep the source's names (with a prefix
    where two pallets use the same one).

    ** The program and its model

    Arithmetic and data.
    - [FixedMath]: [primitives/prediction-market/src/math] (checked operations and
      fixed-point products and quotients); [Root]: preimages by bisection.
    - [LiquidityTree] with [LiquidityTreeFacts], [LiquidityTreeInv],
      [LiquidityTreeSpec]: the segment tree of neo-swaps that keeps the shares and
      lazily distributed fees of liquidity providers.
    - [Collections]: binary search, ordered maps and bounded vectors of the Rust
      standard library.  [Interfaces], [Balances], [MultiCurrency]: what the
      pallets ask of the currencies, randomness, per-things and the queue of
      resolutions, as classes of operations with classes of laws; [ReferenceEnv]
      and the ends of these files have instances.
    - [Market], [MarketEncoding]: the market record, market-commons, and the size
      of markets in storage.

    Markets and trading.
    - [PredictionMarkets], [PmCalls]: the pallet [pallets/prediction-markets]
      (bonds, queues of markets to be closed, creation, reports, disputes, early
      closes, redemption, every call, the hook); [DisputeQueue], [CompleteSets]:
      its queue of resolutions and its complete sets.
    - [OrderBook], [HybridRouter]: orders with named reserves, and the router that
      splits a trade between the book and an automated market maker, which is an
      interface.  [Fees]: the fees of the runtime.
    - [NeoMath], [NeoReference], [NeoSwaps]: the automated market maker; it
      implements the interface of the router.

    Disputes.
    - [CourtTypes], [CourtPool], [CourtSelection], [CourtVoting]: the court (pool
      of jurors, random draws, votes, appeals, stakes).
    - [GlobalDisputes], [Authorized]: votes of token holders, and an authority.
    - [Disputes]: prediction-markets with the three mechanisms in place of its
      interface to them.

    The network.
    - [Watchtower], [SummaryWatchtower], [RuntimeOrigins]: proposals and votes of
      watchtowers, the summaries behind their hooks with the off-chain worker, and
      the runtime's guards.
    - [NodeManager], [NodeWorker]: registered nodes, heartbeats, rewards, and the
      off-chain worker; the runtime's [NodesInterface], from which the watchtower
      takes its voting weights.
    - [EthAssetRegistry], [PalletConfig], [ProxyConfig]: registered assets, fees,
      and the calls a relayer may hand in.
    - [MerkleTree], [SummaryRpc]: roots, inclusion proofs and the RPC server of
      [node]; [EthEvents]: the handler that votes on Ethereum events;
      [EthService], [RootService]: the service for transactions, queries and
      roots, and the way of a root to the watchtower's worker.

    ** How code is translated

    A call is a function of the storage monad [ST E S A := S -> Result E A * S]: it
    reads and writes a record of the pallet's storage items and returns a value or
    a [DispatchError].  Writes made before an error stay, as in Rust, unless the
    call is [transactional] (dispatched calls are).  The pallet's [Config] is a
    class; runtime constants are its fields.  Integers are [Z] with their width
    written out: [checked_add w], [saturating_add w], [wrapping_add w].  Accounts
    are numbers in their order.  Maps are [gmap]s; where the code depends on the
    order of iteration the order is a parameter or the list is kept sorted.  A
    Rust panic is an error value.  Events are a list in the state, or left out
    where nothing depends on them; weights and log lines are left out.

    Loops are structural recursion over the list they go through, or over the
    number of rounds the source gives them.  Where they are not, there is fuel:
    binary search (the length of the list), the levels of a Merkle tree (the
    number of nodes), the decimal digits of a number (twenty, enough for 64
    bits), the characters of a text (its bytes).  The lemmas on these functions
    show that the fuel is not used up before the loop ends.

    Code that is not in the repository is never made up.  Currencies, signatures,
    hashes, SCALE and hexadecimal codecs, random numbers, [exp] and [ln], the
    Ethereum node, the runtime API, the keystore and the transaction pool are
    parameters; laws that a theorem needs of them are hypotheses, and the demo
    files satisfy them with concrete functions.

    ** What is proved

    Markets: the reserves cover the unsettled bonds of all markets, those of an
    early close while the market is proposed or active; markets only move along
    their life cycle, and the hook closes exactly the markets that are due ([PmInv],
    [PmSchedule], [PmLife], [PmMoves], [PmRuns], [PmHook]); redemptions burn the
    tokens and pay at most their worth, and scalar payouts add up to a whole
    ([PmRedeem]).  Trading: the reserves of the order book are what its open orders
    offer, less what router fills took that failed softly ([OrderBookInv]); a trade
    of the router is a chain of fills and swaps that add up with the rest to the
    amount traded ([HybridRouterInv]); pools are backed up to dust and to sells that
    failed softly, and joining and exiting earns nothing ([NeoSwapsInv],
    [NeoSwapsRuns]); the liquidity tree keeps its invariant, its fees are covered,
    its total is the sum of the shares, and joining and exiting do what they say
    ([LiquidityTreeSpec]).  The losses are counted along the runs: the leak of the
    order book by asset and account, the debits and burnt sets of neo-swaps by
    pool; where they are zero the statements are exact.
    Disputes: the invariant of the court, the winner of a round, commit and reveal,
    conservation of stakes ([CourtInv], [CourtSpec], [CourtDraw], [CourtRuling],
    [CourtStakes]); the plurality wins a global dispute and votes stay locked
    ([GlobalDisputesInv], [GlobalDisputesRuns]); which outcome a disputed market
    gets, and that a market handed from court to a global dispute is stuck
    ([Disputes]).  Network: the invariant of the watchtower, its ring queue is
    a FIFO, proposals move forward ([WatchtowerInv], [WatchtowerQueue],
    [WatchtowerLife], [WatchtowerVotes]); voting weights add up ([NodeManagerInv]),
    nodes are paid exactly once ([NodeRewards]), payouts are bounded and complete
    ([NodePayouts]), the worker's heartbeats are accepted unless a new reward period
    starts first ([NodeWorker]).  Node:
    inclusion proofs verify ([MerkleTree]) against the roots that are served
    ([SummaryRpc], [RootService], [EthServiceFacts]); transactions are reported
    once and votes have grounds ([EthEventsFacts]); nonces are
    consecutive ([EthServiceFacts]).

    Invariants are proved for every state a run reaches; a run is an inductive
    relation whose steps are all calls of the pallet whatever their result, its
    hooks, the calls of other pallets into it, and arbitrary changes of the shared
    state by others as far as documented.  Theorems about success come with the
    conditions of success.  Some theorems show where the code does not do what it
    means to: a failure that is swallowed without undoing its writes ([RouterDemo],
    [NeoSwapsRuns]), a disputed market that cannot be resolved ([Disputes]), a payout
    that gets stuck ([NodeDemo]), confirmations that wrap around
    ([EthServiceFacts]), addresses taken from another asset ([EthAssetRegistry]).

    The files [*Demo] and the ends of smaller files run the models on concrete
    inputs: every property with hypotheses is applied to an input that has them.
    The generic part of this file has four small logics for code in the storage
    monad: [triple] for invariants of successful runs, [keeps] for relations every
    run respects, [raises] for the errors a run may end with, and [run_step] for
    the symbolic execution of a call that succeeded.

    ** Not modelled

    The assembly of the runtime ([construct_runtime!], pallet configurations,
    runtime API implementations, the conversion of weights to fees) and of the node
    ([node/src]: networking, consensus, command line, chain specifications with
    their keys; [node/avn-key-subcommand]) is glue around libraries and data.
    Weights, benchmarks, mocks, tests and fuzz targets are not part of the running
    program.  SCALE encodings are modelled only as far as the size of markets goes.
    Pallets of other repositories that the runtime includes (AVN, Ethereum events,
    tokens, NFTs, summaries) appear only through what the code here uses of them.
    Concurrency within the node is reduced to the locks it takes: a request or an
    off-chain worker that finds a lock taken fails or stops. *)

From stdpp Require Export base gmap list strings numbers sorting.
From Stdlib Require Export ZArith Lia.

#[global] Open Scope Z_scope.
#[export] Set Warnings "-clear-no-such-hyp".
#[global] Set Default Goal Selector "!".

(** Account identifiers, ordered as the 256-bit numbers they are. *)
Abbreviation AccountId := N.

(** ** Results *)

(** Rust's [Result]: a value or an error. *)
Inductive Result (E A : Type) : Type :=
| Ok (a : A)
| Err (e : E).
Arguments Ok {E A} a.
Arguments Err {E A} e.

#[global] Instance result_ret E : MRet (Result E) := fun A a => Ok a.
#[global] Instance result_bind E : MBind (Result E) := fun A B f m =>
  match m with Ok a => f a | Err e => Err e end.
#[global] Instance result_fmap E : FMap (Result E) := fun A B f m =>
  match m with Ok a => Ok (f a) | Err e => Err e end.

(** [Option::ok_or]. *)
Definition ok_or {E A} (o : option A) (e : E) : Result E A :=
  match o with Some a => Ok a | None => Err e end.

(** [frame_support::ensure!]. *)
Definition ensure {E} (b : bool) (e : E) : Result E unit :=
  if b then Ok tt else Err e.

(** [Result::map_err]. *)
Definition map_err {E F A} (f : E -> F) (r : Result E A) : Result F A :=
  match r with Ok a => Ok a | Err e => Err (f e) end.

Definition is_ok {E A} (r : Result E A) : bool :=
  match r with Ok _ => true | Err _ => false end.

(** ** Origins *)

(** [frame_system::RawOrigin]. *)
Inductive Origin := Root | Signed (who : AccountId) | NoOrigin.

(** ** The storage monad

    A call of a pallet reads and writes the storage [S] and ends in a
    [Result].  As in the runtime, the writes done before an error stay in the
    storage until an enclosing [transactional] undoes them. *)
Definition ST (E S A : Type) : Type := S -> Result E A * S.

#[global] Instance st_ret E S : MRet (ST E S) := fun A a s => (Ok a, s).
#[global] Instance st_bind E S : MBind (ST E S) := fun A B f m s =>
  match m s with
  | (Ok a, s1) => f a s1
  | (Err e, s1) => (Err e, s1)
  end.

Section StorageOps.
Context {E S : Type}.

Definition get : ST E S S := fun s => (Ok s, s).
Definition gets {A} (f : S -> A) : ST E S A := fun s => (Ok (f s), s).
Definition modify (f : S -> S) : ST E S unit := fun s => (Ok tt, f s).
Definition fail {A} (e : E) : ST E S A := fun s => (Err e, s).
Definition lift {A} (r : Result E A) : ST E S A := fun s => (r, s).

(** The [#[transactional]] attribute, and the layer every dispatched call
    runs in: an error undoes the writes. *)
Definition transactional {A} (m : ST E S A) : ST E S A := fun s =>
  match m s with
  | (Ok a, s1) => (Ok a, s1)
  | (Err e, _) => (Err e, s)
  end.

(** [for x in xs { f(x)?; }] *)
Fixpoint for_each {A} (xs : list A) (f : A -> ST E S unit) : ST E S unit :=
  match xs with
  | [] => mret tt
  | x :: xs => f x ;; for_each xs f
  end.

(** Run a call and hand its result over as a value: [match f() { ... }]. *)
Definition attempt {F A} (m : ST F S A) : ST E S (Result F A) := fun s =>
  let '(r, s1) := m s in (Ok r, s1).

(** The state after a call, whatever its result. *)
Definition exec {A} (m : ST E S A) (s : S) : S := snd (m s).
End StorageOps.

(** A small program logic: [triple P m Q] when [m], run from a state in [P],
    either fails or ends with a result and a state in [Q]. *)
Definition triple {E S A} (P : S -> Prop) (m : ST E S A) (Q : A -> S -> Prop) : Prop :=
  forall s a s', P s -> m s = (Ok a, s') -> Q a s'.

Lemma bind_ok {E S A B} (m : ST E S A) (f : A -> ST E S B) s b s' :
  (m ≫= f) s = (Ok b, s') ->
  exists a s1, m s = (Ok a, s1) /\ f a s1 = (Ok b, s').
Proof. unfold mbind, st_bind. destruct (m s) as [[a|e] s1]; naive_solver. Qed.

Lemma result_bind_ok {E A B} (m : Result E A) (f : A -> Result E B) b :
  m ≫= f = Ok b -> exists a, m = Ok a /\ f a = Ok b.
Proof. destruct m; naive_solver. Qed.

(** The error of a chain of [?]s comes from one of them. *)
Lemma result_bind_err {E A B} (m : Result E A) (f : A -> Result E B) e :
  m ≫= f = Err e -> m = Err e \/ exists a, m = Ok a /\ f a = Err e.
Proof. destruct m; cbn; [right; eauto|left; congruence]. Qed.

Lemma ok_or_err {E A} (o : option A) (e e' : E) : ok_or o e = Err e' -> e' = e.
Proof. destruct o; cbn; congruence. Qed.

Lemma ensure_ok {E} b (e : E) u : ensure b e = Ok u -> b = true.
Proof. destruct b; done. Qed.

Lemma ok_or_ok {E A} (o : option A) (e : E) a : ok_or o e = Ok a -> o = Some a.
Proof. destruct o; naive_solver. Qed.

Lemma map_err_ok {E F A} (f : E -> F) (r : Result E A) a :
  map_err f r = Ok a -> r = Ok a.
Proof. destruct r; naive_solver. Qed.

Lemma lift_ok {E S A} (r : Result E A) (s : S) a s' :
  lift r s = (Ok a, s') -> r = Ok a /\ s' = s.
Proof. unfold lift. naive_solver. Qed.

Lemma get_ok {E S} (s a s' : S) : @get E S s = (Ok a, s') -> a = s /\ s' = s.
Proof. unfold get. naive_solver. Qed.
Lemma gets_ok {E S A} (f : S -> A) (s : S) a s' :
  @gets E S A f s = (Ok a, s') -> a = f s /\ s' = s.
Proof. unfold gets. naive_solver. Qed.
Lemma modify_ok {E S} f (s : S) a s' : @modify E S f s = (Ok a, s') -> a = tt /\ s' = f s.
Proof. unfold modify. naive_solver. Qed.
Lemma mret_ok {E S A} (x : A) (s : S) a s' :
  (mret x : ST E S A) s = (Ok a, s') -> a = x /\ s' = s.
Proof. unfold mret, st_ret. naive_solver. Qed.

(** A run that evaluates to a success. *)
Lemma exec_ok {E S} (m : ST E S unit) (s : S) : is_ok (m s).1 = true -> m s = (Ok tt, exec m s).
Proof. unfold exec. by destruct (m s) as [[[]|] s1]. Qed.
Lemma exec_result {E S A} (m : ST E S A) (s : S) r : (m s).1 = r -> m s = (r, exec m s).
Proof. unfold exec. intros <-. by destruct (m s). Qed.

(** Where the error of a sequence of calls comes from. *)
Lemma bind_err {E S A B} (m : ST E S A) (f : A -> ST E S B) s e s' :
  (m ≫= f) s = (Err e, s') ->
  m s = (Err e, s') \/ exists a s1, m s = (Ok a, s1) /\ f a s1 = (Err e, s').
Proof.
  unfold mbind, st_bind. destruct (m s) as [[a|e'] s1]; [right; eauto|left; congruence].
Qed.
Lemma lift_err {E S A} (r : Result E A) (s s' : S) e :
  lift r s = (Err e, s') -> r = Err e /\ s' = s.
Proof. unfold lift. intros [= -> ->]. done. Qed.
Lemma ensure_err {E} b (e e' : E) : ensure b e = Err e' -> e' = e.
Proof. destruct b; cbn; congruence. Qed.
Lemma transactional_err_inv {E S A} (m : ST E S A) s e s' :
  transactional m s = (Err e, s') -> exists s1, m s = (Err e, s1).
Proof. unfold transactional. destruct (m s) as [[?|?] ?]; [done|]. intros [= -> _]. eauto. Qed.

Lemma transactional_ok {E S A} (m : ST E S A) s a s' :
  transactional m s = (Ok a, s') -> m s = (Ok a, s').
Proof. unfold transactional. destruct (m s) as [[?|?] ?]; naive_solver. Qed.

(** An error leaves the storage as it was. *)
Lemma transactional_err {E S A} (m : ST E S A) s e s' :
  transactional m s = (Err e, s') -> s' = s.
Proof. unfold transactional. destruct (m s) as [[?|?] ?]; naive_solver. Qed.

Lemma attempt_ok {E F S A} (m : ST F S A) (s s' : S) r :
  @attempt E S F A m s = (Ok r, s') -> m s = (r, s').
Proof. unfold attempt. destruct (m s). congruence. Qed.

Lemma triple_bind {E S A B} P (m : ST E S A) Q (f : A -> ST E S B) R :
  triple P m Q -> (forall a, triple (Q a) (f a) R) -> triple P (m ≫= f) R.
Proof. intros Hm Hf s b s' HP (a & s1 & H1 & H2)%bind_ok. eapply Hf, H2. eauto. Qed.

Lemma triple_transactional {E S A} P (m : ST E S A) Q :
  triple P m Q -> triple P (transactional m) Q.
Proof. intros Hm s a s' HP Hr%transactional_ok. by eapply Hm. Qed.

(** A step that reads or checks and writes nothing. *)
Lemma triple_lift {E S A} (P : S -> Prop) (r : Result E A) : triple P (lift r) (fun _ => P).
Proof. intros s a s' HP [_ ->]%lift_ok. done. Qed.
Lemma triple_mret {E S A} (P : S -> Prop) (x : A) : triple P (mret x : ST E S A) (fun _ => P).
Proof. intros s a s' HP [_ ->]%mret_ok. done. Qed.
Lemma triple_fail {E S A} (P : S -> Prop) (e : E) Q : triple P (fail e : ST E S A) Q.
Proof. intros s a s' HP Hr. discriminate Hr. Qed.
Lemma triple_gets {E S A} (P : S -> Prop) (f : S -> A) :
  triple P (gets f : ST E S A) (fun _ => P).
Proof. intros s a s' HP [_ ->]%gets_ok. done. Qed.
Lemma triple_get {E S} (P : S -> Prop) : triple P (get : ST E S S) (fun _ => P).
Proof. intros s a s' HP [_ ->]%get_ok. done. Qed.
Lemma triple_modify {E S} (P : S -> Prop) (f : S -> S) Q :
  (forall s, P s -> Q tt (f s)) -> triple P (modify f : ST E S unit) Q.
Proof. intros Hf s [] s' HP [_ ->]%modify_ok. by apply Hf. Qed.

Lemma triple_for_each {E S A} (I : S -> Prop) (xs : list A) (f : A -> ST E S unit) :
  (forall x, x ∈ xs -> triple I (f x) (fun _ => I)) ->
  triple I (for_each xs f) (fun _ => I).
Proof.
  induction xs as [|x xs IH]; intros Hf; simpl.
  - intros s a s' HI H. unfold mret, st_ret in H. by simplify_eq.
  - eapply triple_bind; [apply Hf; left|]. intros ?. apply IH.
    intros y Hy. apply Hf. by right.
Qed.

(** What a run changes whatever its result, and what a failing run changes. *)
Definition keeps {E S A} (R : S -> S -> Prop) (m : ST E S A) : Prop :=
  forall s, R s (snd (m s)).
Definition keeps_err {E S A} (R : S -> S -> Prop) (m : ST E S A) : Prop :=
  forall s e s', m s = (Err e, s') -> R s s'.

Section Keeps.
Context {E S : Type} (R : S -> S -> Prop) `{!Reflexive R, !Transitive R}.

Lemma keeps_lift {A} (r : Result E A) : keeps R (lift r).
Proof. intros s. reflexivity. Qed.
Lemma keeps_get : keeps R (get : ST E S S).
Proof. intros s. reflexivity. Qed.
Lemma keeps_gets {A} (f : S -> A) : keeps R (gets f : ST E S A).
Proof. intros s. reflexivity. Qed.
Lemma keeps_fail {A} (e : E) : keeps R (fail e : ST E S A).
Proof. intros s. reflexivity. Qed.
Lemma keeps_mret {A} (x : A) : keeps R (mret x : ST E S A).
Proof. intros s. reflexivity. Qed.
Lemma keeps_bind {A B} (m : ST E S A) (f : A -> ST E S B) :
  keeps R m -> (forall a, keeps R (f a)) -> keeps R (m ≫= f).
Proof.
  intros Hm Hf s. unfold mbind, st_bind. specialize (Hm s).
  destruct (m s) as [[a|e] s1]; cbn in *; [|done]. etransitivity; [done|]. apply Hf.
Qed.
Lemma keeps_err_bind {A B} (m : ST E S A) (f : A -> ST E S B) :
  keeps R m -> (forall a, keeps_err R (f a)) -> keeps_err R (m ≫= f).
Proof.
  intros Hm Hf s e s' [Hr|(a & s1 & H1 & H2)]%bind_err.
  - specialize (Hm s). by rewrite Hr in Hm.
  - specialize (Hm s). rewrite H1 in Hm. etransitivity; [done|]. by eapply Hf.
Qed.
Lemma keeps_keeps_err {A} (m : ST E S A) : keeps R m -> keeps_err R m.
Proof. intros Hm s e s' Hr. specialize (Hm s). by rewrite Hr in Hm. Qed.
Lemma keeps_ok {A} (m : ST E S A) s r s' : keeps R m -> m s = (r, s') -> R s s'.
Proof. intros Hm Hr. specialize (Hm s). by rewrite Hr in Hm. Qed.
End Keeps.

Create HintDb keeps.
#[export] Hint Resolve keeps_lift keeps_get keeps_gets keeps_fail keeps_mret : keeps.
Ltac keeps_tac :=
  repeat match goal with
    | |- forall _, _ => intro
    | |- keeps_err _ (_ ≫= _) => refine (keeps_err_bind _ _ _ _ _)
    | |- keeps _ (_ ≫= _) => refine (keeps_bind _ _ _ _ _)
    | |- keeps _ (match _ with _ => _ end) => case_match
    | |- keeps _ _ => solve [auto with keeps typeclass_instances]
    end.

(** Which errors a computation may end with: a closed class of them. *)
Definition raises {E A} (P : E -> Prop) (r : Result E A) : Prop := forall e, r = Err e -> P e.
Definition st_raises {E S A} (P : E -> Prop) (m : ST E S A) : Prop := forall s e s', m s = (Err e, s') -> P e.

Section Raises.
Context {E S : Type} (P : E -> Prop).

Lemma raises_ok {A} (x : A) : raises P (Ok x).
Proof. by intros e [=]. Qed.
Lemma raises_ok_or {A} (o : option A) (e : E) : P e -> raises P (ok_or o e).
Proof. by intros He e' ->%ok_or_err. Qed.
Lemma raises_ensure b (e : E) : P e -> raises P (ensure b e).
Proof. by intros He e' ->%ensure_err. Qed.
Lemma raises_bind {A B} (m : Result E A) (f : A -> Result E B) :
  raises P m -> (forall a, raises P (f a)) -> raises P (m ≫= f).
Proof. intros Hm Hf e [He|(a & _ & He)]%result_bind_err; [by apply Hm|by eapply Hf]. Qed.
Lemma st_raises_lift {A} (r : Result E A) : raises P r -> st_raises (S := S) P (lift r).
Proof. intros Hr s e s' [He _]%lift_err. by apply Hr. Qed.
Lemma st_raises_get : st_raises P (get : ST E S S).
Proof. intros s e s' Hr. discriminate Hr. Qed.
Lemma st_raises_modify (f : S -> S) : st_raises P (modify f : ST E S unit).
Proof. intros s e s' Hr. discriminate Hr. Qed.
Lemma st_raises_mret {A} (x : A) : st_raises P (mret x : ST E S A).
Proof. intros s e s' Hr. discriminate Hr. Qed.
Lemma st_raises_bind {A B} (m : ST E S A) (f : A -> ST E S B) :
  st_raises P m -> (forall a, st_raises P (f a)) -> st_raises P (m ≫= f).
Proof. intros Hm Hf s e s' [He|(a & s1 & _ & He)]%bind_err; [by eapply Hm|by eapply Hf]. Qed.
Lemma st_raises_for_each {A} (xs : list A) (f : A -> ST E S unit) :
  (forall x, st_raises P (f x)) -> st_raises P (for_each xs f).
Proof. intros Hf. induction xs as [|x xs IH]; cbn; [apply st_raises_mret|]. by apply st_raises_bind. Qed.
End Raises.

Create HintDb raises.
#[export] Hint Resolve raises_ok st_raises_get st_raises_modify st_raises_mret : raises.
(** Walks a computation down to the errors it names. *)
Ltac raises_tac :=
  repeat match goal with
    | |- forall _, _ => intro
    | |- raises _ (ok_or _ _) => apply raises_ok_or
    | |- raises _ (ensure _ _) => apply raises_ensure
    | |- raises _ (_ ≫= _) => apply raises_bind
    | |- st_raises _ (lift _) => apply st_raises_lift
    | |- st_raises _ (_ ≫= _) => apply st_raises_bind
    | |- st_raises _ (for_each _ _) => apply st_raises_for_each
    | |- raises _ (if _ then _ else _) => case_match
    | |- raises _ _ => solve [auto with raises]
    | |- st_raises _ (match _ with _ => _ end) => case_match
    | |- st_raises _ _ => solve [auto with raises]
    end.

(** Symbolic execution of a call that succeeded: every [?] on the way becomes
    a hypothesis that its operand was [Ok]. *)
Ltac run_step H :=
  match type of H with
  | (_ ≫= _) _ = (Ok _, _) =>
      let a := fresh "a" in let s := fresh "s" in let H1 := fresh "H" in
      apply bind_ok in H as (a & s & H1 & H); run_step H1; try run_step H
  | _ ≫= _ = Ok _ =>
      let a := fresh "a" in let H1 := fresh "H" in
      apply result_bind_ok in H as (a & H1 & H); run_step H1; try run_step H
  | lift _ _ = (Ok _, _) =>
      apply lift_ok in H as [H ->]; try run_step H
  | gets _ _ = (Ok _, _) => apply gets_ok in H as [-> ->]
  | get _ = (Ok _, _) => apply get_ok in H as [-> ->]
  | modify _ _ = (Ok _, _) => apply modify_ok in H as [-> ->]
  | fail _ _ = (Ok _, _) => discriminate H
  | mret _ _ = (Ok ?a, _) => apply mret_ok in H as [H ->]; first [is_var a; subst a | idtac]
  | Ok _ = Ok _ => injection H as ?; subst
  | Err _ = Ok _ => discriminate H
  | (Ok _, _) = (Ok _, _) => injection H as ? ?; subst
  | (Err _, _) = (Ok _, _) => discriminate H
  | ensure _ _ = Ok _ => apply ensure_ok in H
  | ok_or _ _ = Ok _ => apply ok_or_ok in H
  | map_err _ _ = Ok _ => apply map_err_ok in H; try run_step H
  | _ => idtac
  end.

Lemma if_some_eq {A} (b : bool) (x y : A) :
  (if b then Some x else None) = Some y -> y = x.
Proof. destruct b; congruence. Qed.

(** ** Unsigned integers of a given width

    A [w]-bit unsigned integer is a [Z] between [0] and [umax w]; the checked
    and saturating operations of the Rust primitives are written out. *)
Section UInt.
Variable w : Z.

Definition umax : Z := 2 ^ w - 1.
Definition fits (x : Z) : Prop := 0 <= x <= umax.
Definition fitsb (x : Z) : bool := (0 <=? x) && (x <=? umax).

Definition checked_add (a b : Z) : option Z := if a + b <=? umax then Some (a + b) else None.
Definition checked_sub (a b : Z) : option Z := if b <=? a then Some (a - b) else None.
Definition checked_mul (a b : Z) : option Z := if a * b <=? umax then Some (a * b) else None.
Definition checked_div (a b : Z) : option Z := if b =? 0 then None else Some (a / b).
Definition checked_rem (a b : Z) : option Z := if b =? 0 then None else Some (a mod b).

Definition saturating_add (a b : Z) : Z := Z.min (a + b) umax.
Definition saturating_sub (a b : Z) : Z := Z.max (a - b) 0.
Definition saturating_mul (a b : Z) : Z := Z.min (a * b) umax.
Definition saturating_pow (a n : Z) : Z := Z.min (a ^ n) umax.
(** [saturated_into] this width. *)
Definition saturated_into (a : Z) : Z := Z.min a umax.
(** [wrapping_add]. *)
Definition wrapping_add (a b : Z) : Z := (a + b) mod (2 ^ w).
End UInt.

Lemma umax_32 : umax 32 = 4294967295.
Proof. reflexivity. Qed.
Lemma umax_128 : umax 128 = 340282366920938463463374607431768211455.
Proof. reflexivity. Qed.

Lemma fitsb_spec w x : fitsb w x = true <-> fits w x.
Proof. unfold fitsb, fits. rewrite andb_true_iff, !Z.leb_le. lia. Qed.

Ltac checked_some :=
  case_match; rewrite ?Z.leb_le, ?Z.leb_gt, ?Z.eqb_eq, ?Z.eqb_neq in *;
  split; intros; destruct_and?; simplify_eq; try split; lia.

Lemma checked_add_some w a b c :
  checked_add w a b = Some c <-> c = a + b /\ a + b <= umax w.
Proof. unfold checked_add. checked_some. Qed.
Lemma checked_sub_some a b c : checked_sub a b = Some c <-> c = a - b /\ b <= a.
Proof. unfold checked_sub. checked_some. Qed.
Lemma checked_mul_some w a b c :
  checked_mul w a b = Some c <-> c = a * b /\ a * b <= umax w.
Proof. unfold checked_mul. checked_some. Qed.
Lemma checked_div_some a b c : checked_div a b = Some c <-> c = a / b /\ b <> 0.
Proof. unfold checked_div. checked_some. Qed.
Lemma checked_rem_some a b c : checked_rem a b = Some c <-> c = a mod b /\ b <> 0.
Proof. unfold checked_rem. checked_some. Qed.

(** ** Sums *)

(** The sum of [f] over a list, in [Z]. *)
Definition zsum {A} (f : A -> Z) (l : list A) : Z := foldr (fun x acc => f x + acc) 0 l.

Lemma zsum_nil {A} (f : A -> Z) : zsum f [] = 0.
Proof. done. Qed.
Lemma zsum_cons {A} (f : A -> Z) x l : zsum f (x :: l) = f x + zsum f l.
Proof. done. Qed.
Lemma zsum_app {A} (f : A -> Z) l1 l2 : zsum f (l1 ++ l2) = zsum f l1 + zsum f l2.
Proof. induction l1 as [|x l1 IH]; simpl; [done|]. rewrite IH. lia. Qed.
Lemma zsum_perm {A} (f : A -> Z) l1 l2 : l1 ≡ₚ l2 -> zsum f l1 = zsum f l2.
Proof. induction 1; simpl in *; lia. Qed.
Lemma zsum_ext {A} (f g : A -> Z) l : (forall x, x ∈ l -> f x = g x) -> zsum f l = zsum g l.
Proof.
  induction l as [|x l IH]; intros H; simpl; [done|].
  rewrite H by left. rewrite IH; [done|]. intros y Hy. apply H. by right.
Qed.
Lemma zsum_add {A} (f g : A -> Z) l : zsum (fun x => f x + g x) l = zsum f l + zsum g l.
Proof. induction l as [|x l IH]; simpl; lia. Qed.
Lemma zsum_fmap {A B} (g : A -> B) (f : B -> Z) l : zsum f (g <$> l) = zsum (fun x => f (g x)) l.
Proof. induction l as [|x l IH]; [done|]. rewrite fmap_cons, !zsum_cons. by rewrite IH. Qed.
Lemma zsum_const_0 {A} (l : list A) : zsum (fun _ => 0) l = 0.
Proof. induction l as [|x l IH]; [done|]. by rewrite zsum_cons, IH. Qed.
Lemma zsum_nonneg {A} (f : A -> Z) l : Forall (fun x => 0 <= f x) l -> 0 <= zsum f l.
Proof. induction 1; simpl; lia. Qed.
Lemma zsum_le {A} (f g : A -> Z) l : Forall (fun x => f x <= g x) l -> zsum f l <= zsum g l.
Proof. induction 1; simpl; lia. Qed.

(** Replacing one element changes the sum by the difference. *)
Lemma zsum_insert {A} (f : A -> Z) (l : list A) i x y :
  l !! i = Some x -> zsum f (<[i := y]> l) = zsum f l - f x + f y.
Proof.
  revert i. induction l as [|z l IH]; intros [|i] H; simplify_eq/=; [lia|].
  rewrite (IH _ H). lia.
Qed.

Lemma zsum_lookup_le {A} (f : A -> Z) (l : list A) i x :
  Forall (fun x => 0 <= f x) l -> l !! i = Some x -> f x <= zsum f l.
Proof.
  intros Hl. revert i. induction Hl as [|z l Hz Hl IH]; intros [|i] H; simplify_eq/=.
  - pose proof (zsum_nonneg f l Hl). lia.
  - specialize (IH _ H). lia.
Qed.

Lemma list_fmap_delete {A B} (f : A -> B) (i : nat) (l : list A) :
  f <$> delete i l = delete i (f <$> l).
Proof. revert i. induction l as [|x l IH]; intros [|i]; simpl; [done..|]. by f_equal. Qed.

Lemma list_sublist_fmap {A B} (f : A -> B) (l1 l2 : list A) :
  sublist l1 l2 -> sublist (f <$> l1) (f <$> l2).
Proof. induction 1; simpl; by constructor. Qed.

(** The sum of the values of a map. *)
Definition map_sum {K} `{Countable K} (m : gmap K Z) : Z := zsum snd (map_to_list m).

Lemma map_sum_empty {K} `{Countable K} : map_sum (K := K) ∅ = 0.
Proof. unfold map_sum. by rewrite map_to_list_empty. Qed.

Lemma map_sum_insert_new {K} `{Countable K} (m : gmap K Z) k v :
  m !! k = None -> map_sum (<[k := v]> m) = v + map_sum m.
Proof. intros Hk. unfold map_sum. by rewrite (zsum_perm _ _ _ (map_to_list_insert m k v Hk)). Qed.

Lemma map_sum_insert {K} `{Countable K} (m : gmap K Z) k v :
  map_sum (<[k := v]> m) = map_sum m - default 0 (m !! k) + v.
Proof.
  destruct (m !! k) as [x|] eqn:Hk; cbn.
  - rewrite <- (insert_delete_eq m k v), map_sum_insert_new by apply lookup_delete_eq.
    assert (Hm : map_sum m = x + map_sum (delete k m)).
    { rewrite <- (insert_delete_id m k x) at 1 by done.
      by rewrite map_sum_insert_new by apply lookup_delete_eq. }
    lia.
  - rewrite map_sum_insert_new by done. lia.
Qed.

Lemma map_sum_lookup {K} `{Countable K} (m : gmap K Z) k :
  map_Forall (fun _ v => 0 <= v) m -> 0 <= default 0 (m !! k) <= map_sum m.
Proof.
  intros Hm. assert (Hn : forall m' : gmap K Z, map_Forall (fun _ v => 0 <= v) m' -> 0 <= map_sum m').
  { intros m' Hm'. apply zsum_nonneg, Forall_forall. intros [k' v] Hin%elem_of_map_to_list. by eapply Hm'. }
  destruct (m !! k) as [x|] eqn:Hk; cbn; [|split; [lia|by apply Hn]].
  assert (Hd : map_sum m = x + map_sum (delete k m)).
  { rewrite <- (insert_delete_id m k x) at 1 by done.
    by rewrite map_sum_insert_new by apply lookup_delete_eq. }
  assert (0 <= x) by (by apply (Hm k)).
  assert (0 <= map_sum (delete k m)) by (by apply Hn, map_Forall_delete). lia.
Qed.

Lemma map_sum_delete {K} `{Countable K} (m : gmap K Z) k :
  map_sum (delete k m) = map_sum m - default 0 (m !! k).
Proof.
  destruct (m !! k) as [x|] eqn:Hk; cbn.
  - rewrite <- (insert_delete_id m k x Hk) at 2.
    rewrite map_sum_insert_new by apply lookup_delete_eq. lia.
  - rewrite delete_id by done. lia.
Qed.
