(* ===== verification/Errors.v ===== *)
(** * Errors

    [sp_runtime::DispatchError] and the error enumerations of the pallets, as
    one sum: a pallet's error travels through other pallets with its tag. *)

From S2P Require Import Prelude.

(** [sp_arithmetic::ArithmeticError]. *)
Inductive ArithmeticError := Underflow | Overflow | DivisionByZero.

(** [StorageOverflowError] of the liquidity tree. *)
Inductive StorageOverflowError := Nodes | AccountToIndex | AbandonedNodes.

(** [LiquidityTreeError]. *)
Inductive LiquidityTreeError :=
| AccountNotFound
| NodeNotFound
| UnwithdrawnFees
| TreeIsFull
| InsufficientStake
| MaxIterationsReached
| StorageOverflow (e : StorageOverflowError).

(** The errors of neo-swaps. *)
Inductive NumericalLimitsError :=
| SpotPriceTooLow
| SpotPriceSlippedTooLow
| MaxAmountExceeded
| MinAmountNotMet.
Inductive NeoSwapsError :=
| AssetCountAboveMax
| AmountInAboveMax
| AmountOutBelowMin
| AssetNotFound
| DuplicatePool
| IncorrectAssetCount
| IncorrectVecLen
| InsufficientPoolShares
| LiquidityTooLow
| InvalidSpotPrices
| InvalidTradingMechanism
| MarketNotActive
| MathError
| NotAllowed
| NotImplemented
| NumericalLimits (e : NumericalLimitsError)
| OutstandingFees
| PoolNotFound
| SpotPriceAboveMax
| SpotPriceBelowMin
| SwapFeeAboveMax
| SwapFeeBelowMin
| NeoUnexpected
| ZeroAmount
| NeoLiquidityTreeError (e : LiquidityTreeError)
| MinRelativeLiquidityThresholdViolated
| NarrowingConversion
| NeoSenderIsNotSigner
| NeoUnauthorizedSignedTransaction
| NeoSignedTransactionExpired
| EarlyExitFeeAccountNotSet
| AdditionalSwapFeeNotSet
| SenderNotMarketAdmin.

(** The errors of market-commons. *)
Inductive MarketCommonsError :=
| MarketDoesNotExist
| MarketPoolDoesNotExist
| NoMarketHasBeenCreated
| NoReport
| PoolAlreadyExists
| IncompleteMarketBuilder.

(** The errors of court, with the "unexpected" ones nested. *)
Inductive UnexpectedError := BinarySearchByKeyFailed | InflationPeriodIsZero.
Inductive CourtError :=
| JurorDoesNotExist
| MarketDoesNotHaveCourtMechanism
| MarketIsNotDisputed
| CallerIsNotACourtParticipant
| VoteAlreadyRevealed
| CommitmentHashMismatch
| CourtNotFound
| NotInVotingPeriod
| NotInAggregationPeriod
| MaxAppealsReached
| NotInAppealPeriod
| InvalidVoteState
| BelowMinJurorStake
| MaxCourtParticipantsReached
| AlreadyPreparedExit
| JurorNotDrawn
| JurorDidNotVote
| VoteAlreadyDenounced
| CallerDenouncedItself
| CourtNotClosed
| CourtAlreadyReassigned
| NotEnoughJurorsAndDelegatorsStake
| MarketReportNotFound
| MaxCourtIdReached
| AmountExceedsBalance
| AmountBelowLastJoin
| AmountBelowLowestJuror
| CourtParticipantTwiceInPool
| CallerNotInSelectedDraws
| AppealBondExceedsBalance
| PrematureExit
| PrepareExitAtNotPresent
| MaxDelegationsReached
| JurorDelegated
| SelfDelegationNotAllowed
| IdenticalDelegationsNotAllowed
| NoDelegations
| DelegatedToInvalidJuror
| MarketIdToCourtIdNotFound
| CourtIdToMarketIdNotFound
| InvalidVoteItemForOutcomeCourt
| InvalidVoteItemForBinaryCourt
| AppealedVoteItemIsNoOutcome
| WinnerVoteItemIsNoOutcome
| OutcomeMismatch
| VoteItemIsNoOutcome
| Unexpected (e : UnexpectedError)
| InflationExceedsMaxYearlyInflation.

(** The errors of prediction-markets. *)
Inductive PredictionMarketsError :=
| CannotDisputeSameOutcome
| EditorNotCreator
| EditReasonLengthExceedsMaxEditReasonLen
| InsufficientFundsInMarketAccount
| InsufficientShareBalance
| InvalidMultihash
| InvalidMarketType
| PmInvalidScoringRule
| NotEnoughBalance
| MarketAlreadyReported
| MarketDurationTooLong
| MarketEditRequestAlreadyInProgress
| MarketEditNotRequested
| PmMarketIsNotActive
| MarketIsNotClosed
| MarketIsNotCollectingSubsidy
| MarketIsNotProposed
| MarketIsNotReported
| PmMarketIsNotDisputed
| MarketIsNotResolved
| MarketStartTooSoon
| MarketStartTooLate
| MarketDisputeMechanismNotFailed
| MissingBond
| NotEnoughCategories
| NoWinningBalance
| PmOutcomeMismatch
| RejectReasonLengthExceedsMaxRejectReasonLen
| ReporterNotOracle
| StorageOverflowPM
| TooManyCategories
| InvalidDisputeMechanism
| InvalidMarketStatus
| UnexpectedNoneInPostInfo
| PmZeroAmount
| InvalidMarketPeriod
| InvalidOutcomeRange
| NotAllowedToReportYet
| DisputeDurationSmallerThanMinDisputeDuration
| OracleDurationSmallerThanMinOracleDuration
| DisputeDurationGreaterThanMaxDisputeDuration
| GracePeriodGreaterThanMaxGracePeriod
| OracleDurationGreaterThanMaxOracleDuration
| WeightsLenMustEqualAssetsLen
| InvalidBaseAsset
| UnregisteredForeignAsset
| GlobalDisputeExistsAlready
| NoDisputeMechanism
| NonZeroDisputePeriodOnTrustedMarket
| FeeTooHigh
| InvalidResolutionMechanism
| RequesterNotCreator
| EarlyCloseRequestTooLate
| InvalidEarlyCloseState
| NoEarlyCloseScheduled
| OnlyAuthorizedCanScheduleEarlyClose
| CallerNotMarketCreator
| MarketIsNotTrusted
| NotAllowedForBlockBasedMarkets
| MarketNotInCloseTimeFrameList
| MarketPeriodEndNotAlreadyReachedYet
| TransactionNotSupported
| InvalidNonce
| PmSenderIsNotSigner
| NotForeignAsset
| UnauthorizedSignedWithdrawTransaction
| UnauthorizedSignedReportTransaction
| UnauthorizedSignedCreateMarketTransaction
| UnauthorizedSignedRedeemTransaction
| MarketAdminNotSet
| PmSenderNotMarketAdmin
| InvalidMarketCreator
| UnauthorizedSignedTransferTransaction
| VaultAccountNotSet
| WinningsFeeAccountNotSet
| AdditionalSwapFeeAccountNotSet
| MarketCanBeDisputed
| OracleReportingWindowNotExpired.

(** The errors of watchtower and of summary-watchtower. *)
Inductive WatchtowerError :=
| InvalidTitle
| InvalidInlinePayload
| InvalidUri
| InvalidProposal
| InvalidProposalSource
| DuplicateExternalRef
| DuplicateProposal
| InnerProposalQueueFull
| QueueCorruptState
| QueueEmpty
| SignedTransactionExpired
| SenderIsNotSigner
| UnauthorizedSignedTransaction
| ProposalNotFound
| UnauthorizedVoter
| ProposalNotActive
| AlreadyVoted
| VoterSigningKeyNotFound
| UnauthorizedUnsignedTransaction
| ProposalVotingPeriodNotEnded
| VotingPeriodTooShort
| CorruptedState
| InvalidProposalForUnsignedVote
| AdminAccountNotSet.
Inductive SummaryWatchtowerError :=
| InvalidSummaryProposal
| ExternalPayloadNotSupported
| FailedToAcquireOcwDbLock.

(** The errors of order-book. *)
Inductive OrderBookError :=
| NotOrderCreator
| OrderDoesNotExist
| MarketIsNotActive
| InvalidScoringRule
| AmountTooHighForOrder
| InvalidOutcomeAsset
| PartialFillNearFullFillNotAllowed
| MarketBaseAssetNotPresent
| BelowMinimumBalance.

(** The errors of hybrid-router. *)
Inductive HybridRouterError :=
| AmountIsZero
| PriceLimitTooHigh
| OrderPriceAboveMaxPrice
| OrderPriceBelowMinPrice
| AssetNotEqualToOrderbookMakerAsset
| AssetNotEqualToOrderbookTakerAsset
| CancelStrategyApplied
| AssetCountMismatch
| MaxOrdersExceeded
| RouterSenderIsNotSigner
| RouterTransactionNotSupported
| RouterUnauthorizedSignedTransaction.

(** The errors of global-disputes and of authorized. *)
Inductive GlobalDisputesError :=
| AmountTooLow
| InvalidGlobalDisputeStatus
| InsufficientAmount
| MaxOwnersReached
| MaxVotesReached
| NoFundsToReward
| GlobalDisputeNotFound
| OutcomeAlreadyExists
| OutcomeDoesNotExist
| GdOutcomeMismatch
| OutcomesNotFullyCleaned
| SharedPossessionRequired
| UnfinishedGlobalDispute
| AddOutcomePeriodIsOver
| NotInGdVotingPeriod
| GlobalDisputeNotDestroyed
| GlobalDisputeAlreadyExists.
Inductive AuthorizedError :=
| MarketDoesNotHaveDisputeMechanismAuthorized
| AuthorizedMarketIsNotDisputed
| AuthorizedOutcomeMismatch.

(** The errors of node-manager. *)
Inductive NodeManagerError :=
| OriginNotRegistrar
| InvalidNodePointer
| InvalidPeriodPointer
| RegistrarNotSet
| DuplicateNode
| InvalidSigningKey
| RewardPeriodInvalid
| BatchSizeInvalid
| HeartbeatPeriodInvalid
| HeartbeatPeriodZero
| InsufficientBalanceForReward
| TotalUptimeNotFound
| NodeUptimeNotFound
| NodeOwnerNotFound
| InvalidRewardPaymentRequest
| DuplicateHeartbeat
| InvalidHeartbeat
| NodeNotRegistered
| NmFailedToAcquireOcwDbLock
| RewardAmountZero
| NmSenderIsNotSigner
| NmUnauthorizedSignedTransaction
| NmSignedTransactionExpired
| HeartbeatThresholdReached
| UptimeThresholdZero
| NodeNotOwnedByOwner.

(** The errors of eth-asset-registry and of the config pallet. *)
Inductive EthAssetRegistryError :=
| EthAssetNotFound
| InvalidAssetId
| ConflictingEthAddress
| ConflictingAssetId
| InvalidAssetString
| EthAddressIsMandatory.
Inductive PalletConfigError :=
| ConfigAdminAccountNotSet
| GasFeeRecipientNotSet
| BaseGasFeeZero
| SenderNotAdmin.

(** A pallet's error with the tag of its pallet. *)
Inductive ModuleError :=
| NeoSwaps (e : NeoSwapsError)
| MarketCommonsErr (e : MarketCommonsError)
| CourtErr (e : CourtError)
| PredictionMarketsErr (e : PredictionMarketsError)
| WatchtowerErr (e : WatchtowerError)
| SummaryWatchtowerErr (e : SummaryWatchtowerError)
| OrderBookErr (e : OrderBookError)
| HybridRouterErr (e : HybridRouterError)
| GlobalDisputesErr (e : GlobalDisputesError)
| AuthorizedErr (e : AuthorizedError)
| NodeManagerErr (e : NodeManagerError)
| EthAssetRegistryErr (e : EthAssetRegistryError)
| PalletConfigErr (e : PalletConfigError).

Inductive DispatchError :=
| Arithmetic (e : ArithmeticError)
| BadOrigin
| CannotLookup
| Other (msg : string)
| Module_ (e : ModuleError)
(** Not an error value of the code: the call panicked (an index out of range). *)
| Panicked.

Abbreviation Res := (Result DispatchError).

(** [frame_system::ensure_signed]. *)
Definition ensure_signed (o : Origin) : Res AccountId :=
  match o with Signed who => Ok who | _ => Err BadOrigin end.
(** [frame_system::ensure_root] and [ensure_none]. *)
Definition ensure_root (o : Origin) : Res unit :=
  match o with Root => Ok tt | _ => Err BadOrigin end.
Definition ensure_none (o : Origin) : Res unit :=
  match o with NoOrigin => Ok tt | _ => Err BadOrigin end.
