(* ===== verification/FixedMath.v ===== *)
(** * Fixed point arithmetic

    [primitives/prediction-market/src/math]: the checked operations that end
    in a [DispatchError] (checked_ops_res.rs) and the fixed point product,
    quotient and product-quotient with their three roundings (fixed.rs).  The
    source is generic over an unsigned type [T]; here [T] is its width [w]. *)

From S2P Require Import Prelude Errors.

(** ** checked_ops_res.rs *)

Definition checked_add_res (w a b : Z) : Res Z :=
  ok_or (checked_add w a b) (Arithmetic Overflow).
Definition checked_sub_res (a b : Z) : Res Z :=
  ok_or (checked_sub a b) (Arithmetic Underflow).
Definition checked_mul_res (w a b : Z) : Res Z :=
  ok_or (checked_mul w a b) (Arithmetic Overflow).
Definition checked_div_res (a b : Z) : Res Z :=
  ok_or (checked_div a b) (Arithmetic DivisionByZero).
Definition checked_rem_res (a b : Z) : Res Z :=
  ok_or (checked_rem a b) (Arithmetic DivisionByZero).

(** ** constants.rs *)

Definition DECIMALS : Z := 10.
Definition BASE : Z := 10 ^ DECIMALS.

(** ** fixed.rs *)

Section Fixed.
Variable w : Z.

(** [PredictionMarketBase::get]: [BASE], if [T] can hold it. *)
Definition PredictionMarketBase_get : Res Z :=
  if BASE <=? umax w then Ok BASE
  else Err (Other "PredictionMarketBase failed to convert BASE to Balance").

Definition bmul (self other : Z) : Res Z :=
  prod ← checked_mul_res w self other;
  base ← PredictionMarketBase_get;
  adjustment ← checked_div_res base 2;
  prod_adjusted ← checked_add_res w prod adjustment;
  base ← PredictionMarketBase_get;
  checked_div_res prod_adjusted base.

Definition bmul_floor (self other : Z) : Res Z :=
  prod ← checked_mul_res w self other;
  base ← PredictionMarketBase_get;
  checked_div_res prod base.

Definition bmul_ceil (self other : Z) : Res Z :=
  prod ← checked_mul_res w self other;
  base ← PredictionMarketBase_get;
  adjustment ← checked_sub_res base 1;
  prod_adjusted ← checked_add_res w prod adjustment;
  base ← PredictionMarketBase_get;
  checked_div_res prod_adjusted base.

Definition bdiv (self other : Z) : Res Z :=
  base ← PredictionMarketBase_get;
  prod ← checked_mul_res w self base;
  adjustment ← checked_div_res other 2;
  prod_adjusted ← checked_add_res w prod adjustment;
  checked_div_res prod_adjusted other.

Definition bdiv_floor (self other : Z) : Res Z :=
  base ← PredictionMarketBase_get;
  prod ← checked_mul_res w self base;
  checked_div_res prod other.

Definition bdiv_ceil (self other : Z) : Res Z :=
  ensure (negb (other =? 0)) (Arithmetic DivisionByZero) ;;
  base ← PredictionMarketBase_get;
  prod ← checked_mul_res w self base;
  adjustment ← checked_sub_res other 1;
  prod_adjusted ← checked_add_res w prod adjustment;
  checked_div_res prod_adjusted other.

Definition bmul_bdiv_common (x multiplier divisor adjustment : Z) : Res Z :=
  let maybe_prod := checked_mul_res w x multiplier in
  let maybe_scaled_prod :=
    r ← maybe_prod;
    base ← PredictionMarketBase_get;
    checked_mul_res w r base in
  match maybe_scaled_prod with
  | Ok scaled_prod =>
      quot ← checked_div_res scaled_prod divisor;
      adjusted_quot ← checked_add_res w quot adjustment;
      base ← PredictionMarketBase_get;
      checked_div_res adjusted_quot base
  | Err _ =>
      let smallest := Z.min x multiplier in
      let largest := Z.max x multiplier in
      base ← PredictionMarketBase_get;
      scaled_divident ← checked_mul_res w largest base;
      quot ← checked_div_res scaled_divident divisor;
      prod ← checked_mul_res w quot smallest;
      adjusted_prod ← checked_add_res w prod adjustment;
      base ← PredictionMarketBase_get;
      checked_div_res adjusted_prod base
  end.

Definition bmul_bdiv (self multiplier divisor : Z) : Res Z :=
  base ← PredictionMarketBase_get;
  adjustment ← checked_div_res base 2;
  bmul_bdiv_common self multiplier divisor adjustment.

Definition bmul_bdiv_floor (self multiplier divisor : Z) : Res Z :=
  bmul_bdiv_common self multiplier divisor 0.

Definition bmul_bdiv_ceil (self multiplier divisor : Z) : Res Z :=
  base ← PredictionMarketBase_get;
  adjustment ← checked_sub_res base 1;
  bmul_bdiv_common self multiplier divisor adjustment.
End Fixed.

(** ** Inversion of the checked operations *)

Lemma checked_add_res_ok w a b c :
  checked_add_res w a b = Ok c <-> c = a + b /\ a + b <= umax w.
Proof.
  unfold checked_add_res. rewrite <- checked_add_some.
  destruct (checked_add w a b); naive_solver.
Qed.
Lemma checked_sub_res_ok a b c : checked_sub_res a b = Ok c <-> c = a - b /\ b <= a.
Proof.
  unfold checked_sub_res. rewrite <- checked_sub_some.
  destruct (checked_sub a b); naive_solver.
Qed.
Lemma checked_mul_res_ok w a b c :
  checked_mul_res w a b = Ok c <-> c = a * b /\ a * b <= umax w.
Proof.
  unfold checked_mul_res. rewrite <- checked_mul_some.
  destruct (checked_mul w a b); naive_solver.
Qed.
Lemma checked_div_res_ok a b c : checked_div_res a b = Ok c <-> c = a / b /\ b <> 0.
Proof.
  unfold checked_div_res. rewrite <- checked_div_some.
  destruct (checked_div a b); naive_solver.
Qed.
Lemma checked_rem_res_ok a b c : checked_rem_res a b = Ok c <-> c = a mod b /\ b <> 0.
Proof.
  unfold checked_rem_res. rewrite <- checked_rem_some.
  destruct (checked_rem a b); naive_solver.
Qed.
Lemma base_get_ok w b : PredictionMarketBase_get w = Ok b <-> b = BASE /\ BASE <= umax w.
Proof.
  unfold PredictionMarketBase_get. destruct (Z.leb_spec BASE (umax w)); split; intros;
    destruct_and?; simplify_eq; auto; lia.
Qed.

Lemma BASE_pos : 0 < BASE.
Proof. reflexivity. Qed.

(** Turns every successful checked operation in the context into its value
    and its bound. *)
Ltac checked :=
  repeat match goal with
  | H : checked_add_res _ _ _ = Ok _ |- _ => apply checked_add_res_ok in H as [-> ?]
  | H : checked_sub_res _ _ = Ok _ |- _ => apply checked_sub_res_ok in H as [-> ?]
  | H : checked_mul_res _ _ _ = Ok _ |- _ => apply checked_mul_res_ok in H as [-> ?]
  | H : checked_div_res _ _ = Ok _ |- _ => apply checked_div_res_ok in H as [-> ?]
  | H : checked_rem_res _ _ = Ok _ |- _ => apply checked_rem_res_ok in H as [-> ?]
  | H : PredictionMarketBase_get _ = Ok _ |- _ => apply base_get_ok in H as [-> ?]
  end.

(** Evaluates a chain of checked operations in the goal whose bounds are known. *)
Ltac checked_eval :=
  repeat match goal with
  | |- context [checked_mul_res ?w ?a ?b] =>
      rewrite (proj2 (checked_mul_res_ok w a b (a * b))) by (split; [done | lia]); cbn [mbind result_bind]
  | |- context [checked_add_res ?w ?a ?b] =>
      rewrite (proj2 (checked_add_res_ok w a b (a + b))) by (split; [done | lia]); cbn [mbind result_bind]
  | |- context [checked_sub_res ?a ?b] =>
      rewrite (proj2 (checked_sub_res_ok a b (a - b))) by (split; [done | lia]); cbn [mbind result_bind]
  | |- context [checked_div_res ?a ?b] =>
      rewrite (proj2 (checked_div_res_ok a b (a / b))) by (split; [done | lia]); cbn [mbind result_bind]
  | |- context [PredictionMarketBase_get ?w] =>
      rewrite (proj2 (base_get_ok w BASE)) by (split; [done | lia]); cbn [mbind result_bind]
  end.

Section FixedSpec.
Variable w : Z.

Lemma bmul_floor_ok x y r :
  bmul_floor w x y = Ok r <-> BASE <= umax w /\ x * y <= umax w /\ r = x * y / BASE.
Proof.
  pose proof BASE_pos. split.
  - unfold bmul_floor. intros H1. run_step H1. checked. auto.
  - intros (? & ? & ->). unfold bmul_floor. checked_eval. done.
Qed.

Lemma bmul_ok x y r :
  bmul w x y = Ok r <->
  BASE <= umax w /\ x * y + BASE / 2 <= umax w /\ r = (x * y + BASE / 2) / BASE.
Proof.
  pose proof BASE_pos. split.
  - unfold bmul. intros H1. run_step H1. checked. auto.
  - intros (? & ? & ->). unfold bmul. assert (0 <= BASE / 2) by done. checked_eval. done.
Qed.

Lemma bmul_ceil_ok x y r :
  bmul_ceil w x y = Ok r <->
  BASE <= umax w /\ x * y + (BASE - 1) <= umax w /\ r = (x * y + (BASE - 1)) / BASE.
Proof.
  pose proof BASE_pos. split.
  - unfold bmul_ceil. intros H1. run_step H1. checked. auto.
  - intros (? & ? & ->). unfold bmul_ceil. checked_eval. done.
Qed.

Lemma bdiv_floor_ok x y r :
  bdiv_floor w x y = Ok r <->
  BASE <= umax w /\ x * BASE <= umax w /\ y <> 0 /\ r = x * BASE / y.
Proof.
  split.
  - unfold bdiv_floor. intros H1. run_step H1. checked. auto.
  - intros (? & ? & ? & ->). unfold bdiv_floor. checked_eval. done.
Qed.

Lemma bdiv_ok x y r :
  0 <= y ->
  bdiv w x y = Ok r <->
  BASE <= umax w /\ x * BASE + y / 2 <= umax w /\ y <> 0 /\ r = (x * BASE + y / 2) / y.
Proof.
  intros Hy. assert (0 <= y / 2) by (apply Z.div_pos; lia). split.
  - unfold bdiv. intros H1. run_step H1. checked. auto.
  - intros (? & ? & ? & ->). unfold bdiv. checked_eval. done.
Qed.

Lemma bdiv_ceil_ok x y r :
  0 <= y ->
  bdiv_ceil w x y = Ok r <->
  BASE <= umax w /\ x * BASE + (y - 1) <= umax w /\ y <> 0 /\ r = (x * BASE + (y - 1)) / y.
Proof.
  intros Hy. unfold bdiv_ceil. destruct (Z.eqb_spec y 0) as [->|Hne]; simpl.
  - naive_solver.
  - split.
    + intros H1. cbn [mbind result_bind] in H1. run_step H1. checked. auto.
    + intros (? & ? & ? & ->). cbn [mbind result_bind]. checked_eval. done.
Qed.
End FixedSpec.

(** Division by a positive [d] with an adjustment rounds as announced. *)
Lemma div_floor_bracket a d : 0 < d -> d * (a / d) <= a < d * (a / d + 1).
Proof. intros. pose proof (Z.mul_div_le a d). pose proof (Z.mul_succ_div_gt a d). lia. Qed.
Lemma div_ceil_bracket a d :
  0 < d -> d * ((a + (d - 1)) / d - 1) < a <= d * ((a + (d - 1)) / d).
Proof. intros. pose proof (div_floor_bracket (a + (d - 1)) d). lia. Qed.
Lemma div_nearest_bracket a d :
  0 < d -> - d <= 2 * (d * ((a + d / 2) / d) - a) <= d.
Proof.
  intros. pose proof (div_floor_bracket (a + d / 2) d ltac:(done)).
  pose proof (div_floor_bracket d 2 ltac:(done)). lia.
Qed.

(** Fixed point multiplication rounds as its documentation says: on
    success, [bmul_floor] is the largest value not above the exact product
    [x*y/BASE], [bmul_ceil] the smallest not below it, and [bmul] is within
    half a unit of it; and the only way to fail is that the (adjusted)
    product does not fit the type. *)
Theorem fixed_mul_rounding w x y :
  BASE <= umax w ->
  (forall r, bmul_floor w x y = Ok r -> BASE * r <= x * y < BASE * (r + 1)) /\
  (forall r, bmul_ceil w x y = Ok r -> BASE * (r - 1) < x * y <= BASE * r) /\
  (forall r, bmul w x y = Ok r -> - BASE <= 2 * (BASE * r - x * y) <= BASE) /\
  (is_ok (bmul_floor w x y) = true <-> x * y <= umax w) /\
  (is_ok (bmul_ceil w x y) = true <-> x * y + (BASE - 1) <= umax w) /\
  (is_ok (bmul w x y) = true <-> x * y + BASE / 2 <= umax w).
Proof.
  intros HB. pose proof BASE_pos. repeat split.
  1,2: pose proof (div_floor_bracket (x * y) BASE); apply bmul_floor_ok in H0; naive_solver lia.
  1,2: pose proof (div_ceil_bracket (x * y) BASE); apply bmul_ceil_ok in H0; naive_solver lia.
  1,2: pose proof (div_nearest_bracket (x * y) BASE); apply bmul_ok in H0; naive_solver lia.
  - destruct (bmul_floor w x y) eqn:E; [intros _|done]. apply bmul_floor_ok in E. tauto.
  - intros. by erewrite (proj2 (bmul_floor_ok w x y _)).
  - destruct (bmul_ceil w x y) eqn:E; [intros _|done]. apply bmul_ceil_ok in E. tauto.
  - intros. by erewrite (proj2 (bmul_ceil_ok w x y _)).
  - destruct (bmul w x y) eqn:E; [intros _|done]. apply bmul_ok in E. tauto.
  - intros. by erewrite (proj2 (bmul_ok w x y _)).
Qed.

Lemma fixed_mul_rounding_witness :
  bmul 128 9999999999 5000000000 = Ok 5000000000 /\
  bmul_floor 128 9999999999 5000000000 = Ok 4999999999 /\
  is_ok (bmul_floor 128 9999999999 5000000000) = true.
Proof.
  split; [reflexivity|]. split; [reflexivity|].
  apply (fixed_mul_rounding 128 9999999999 5000000000); vm_compute; discriminate.
Defined.

(** Fixed point division rounds as its documentation says, and fails
    exactly on a zero divisor or when the (adjusted) scaled dividend does not
    fit the type. *)
Theorem fixed_div_rounding w x y :
  BASE <= umax w -> 0 <= y ->
  (forall r, bdiv_floor w x y = Ok r -> y * r <= x * BASE < y * (r + 1)) /\
  (forall r, bdiv_ceil w x y = Ok r -> y * (r - 1) < x * BASE <= y * r) /\
  (forall r, bdiv w x y = Ok r -> - y <= 2 * (y * r - x * BASE) <= y) /\
  (is_ok (bdiv_floor w x y) = true <-> y <> 0 /\ x * BASE <= umax w) /\
  (is_ok (bdiv_ceil w x y) = true <-> y <> 0 /\ x * BASE + (y - 1) <= umax w) /\
  (is_ok (bdiv w x y) = true <-> y <> 0 /\ x * BASE + y / 2 <= umax w).
Proof.
  intros HB Hy. repeat split.
  1,2: apply bdiv_floor_ok in H as (? & ? & ? & ->);
       pose proof (div_floor_bracket (x * BASE) y); lia.
  1,2: apply bdiv_ceil_ok in H as (? & ? & ? & ->); [|done];
       pose proof (div_ceil_bracket (x * BASE) y); lia.
  1,2: apply bdiv_ok in H as (? & ? & ? & ->); [|done];
       pose proof (div_nearest_bracket (x * BASE) y); lia.
  1,2: destruct (bdiv_floor w x y) eqn:E; [|done]; apply bdiv_floor_ok in E; tauto.
  - intros []. by erewrite (proj2 (bdiv_floor_ok w x y _)).
  - destruct (bdiv_ceil w x y) eqn:E; [|done]. apply bdiv_ceil_ok in E; tauto.
  - destruct (bdiv_ceil w x y) eqn:E; [|done]. apply bdiv_ceil_ok in E; tauto.
  - intros []. by erewrite (proj2 (bdiv_ceil_ok w x y _ Hy)).
  - destruct (bdiv w x y) eqn:E; [|done]. apply bdiv_ok in E; tauto.
  - destruct (bdiv w x y) eqn:E; [|done]. apply bdiv_ok in E; tauto.
  - intros []. by erewrite (proj2 (bdiv_ok w x y _ Hy)).
Qed.

Lemma fixed_div_rounding_witness :
  bdiv 128 1 3 = Ok 3333333333 /\ bdiv_ceil 128 1 3 = Ok 3333333334 /\
  is_ok (bdiv_floor 128 1 3) = true.
Proof.
  split; [reflexivity|]. split; [reflexivity|].
  apply (fixed_div_rounding 128 1 3); [vm_compute; discriminate | lia | split; [lia | vm_compute; discriminate]].
Defined.

(** ** The product-quotient *)

(** The two branches of [bmul_bdiv_common]. *)
Lemma bmul_bdiv_common_ok w x m d adj r :
  0 <= x -> 0 <= m ->
  bmul_bdiv_common w x m d adj = Ok r ->
  BASE <= umax w /\ d <> 0 /\
  ((x * m * BASE <= umax w /\ r = (x * m * BASE / d + adj) / BASE) \/
   (umax w < x * m * BASE /\
    r = (Z.max x m * BASE / d * Z.min x m + adj) / BASE)).
Proof.
  intros Hx Hm. unfold bmul_bdiv_common.
  destruct (checked_mul_res w x m) eqn:E1; cbn [mbind result_bind].
  - destruct (PredictionMarketBase_get w) eqn:E2; cbn [mbind result_bind]; [|done].
    destruct (checked_mul_res w a a0) eqn:E3; intros H.
    + run_step H. checked. naive_solver.
    + run_step H. checked. split_and!; auto. right. split; [|done].
      destruct (Z.le_gt_cases (x * m * BASE) (umax w)) as [Hle|]; [|lia].
      by rewrite (proj2 (checked_mul_res_ok w (x * m) BASE (x * m * BASE))) in E3.
  - intros H. run_step H. checked. split_and!; auto. right. split; [|done].
    destruct (Z.le_gt_cases (x * m * BASE) (umax w)) as [Hle|]; [|lia].
    assert (x * m <= umax w) by (pose proof BASE_pos; nia).
    by rewrite (proj2 (checked_mul_res_ok w x m (x * m))) in E1.
Qed.

Lemma div_mul_le_div a b d : 0 < d -> 0 <= b -> a / d * b <= a * b / d.
Proof.
  intros. apply Z.div_le_lower_bound; [done|].
  pose proof (Z.mul_div_le a d ltac:(done)). nia.
Qed.

(** The divide-first branch never exceeds the multiply-first value. *)
Lemma bmul_bdiv_common_le w x m d adj r :
  0 <= x -> 0 <= m -> 0 < d ->
  bmul_bdiv_common w x m d adj = Ok r ->
  r <= (x * m * BASE / d + adj) / BASE.
Proof.
  intros Hx Hm Hd (_ & _ & [[_ ->]|[_ ->]])%bmul_bdiv_common_ok; [done| |done|done].
  apply Z.div_le_mono; [apply BASE_pos|]. apply Z.add_le_mono_r.
  etrans; [apply div_mul_le_div; lia|].
  replace (Z.max x m * BASE * Z.min x m) with (x * m * BASE) by nia. done.
Qed.

(** ... and falls short of it by less than the smaller factor, in units of
    [1 / BASE]. *)
Lemma bmul_bdiv_common_ge w x m d adj r :
  0 <= x -> 0 <= m -> 0 < d ->
  bmul_bdiv_common w x m d adj = Ok r ->
  (x * m * BASE / d + adj - Z.min x m) / BASE <= r.
Proof.
  intros Hx Hm Hd (_ & _ & [[_ ->]|[_ ->]])%bmul_bdiv_common_ok; [|  |done|done];
    (apply Z.div_le_mono; [apply BASE_pos|]); [lia|].
  enough (x * m * BASE / d <= Z.max x m * BASE / d * Z.min x m + Z.min x m) by lia.
  replace (x * m * BASE) with (Z.max x m * BASE * Z.min x m) by nia.
  apply Z.lt_succ_r, Z.div_lt_upper_bound; [done|].
  pose proof (Z.mul_succ_div_gt (Z.max x m * BASE) d ltac:(done)). nia.
Qed.

(** Rounding [a*B/d] to a multiple of [B] after adding half of [B] is rounding
    [a/d] to the nearest integer, halves up. *)
Lemma scaled_div_add a d adj :
  0 < d -> (a * BASE / d + adj) / BASE = (a * BASE + adj * d) / (d * BASE).
Proof.
  intros. rewrite <- Z.div_add by lia. rewrite Z.div_div; [done|lia|apply BASE_pos].
Qed.

Lemma bmul_bdiv_common_exact w x m d adj :
  0 <= x -> 0 <= m -> 0 < d -> 0 <= adj <= BASE -> BASE <= umax w ->
  x * m * BASE + BASE <= umax w ->
  bmul_bdiv_common w x m d adj = Ok ((x * m * BASE / d + adj) / BASE).
Proof.
  intros Hx Hm Hd Ha HB Hb. pose proof BASE_pos.
  assert (0 <= x * m) by nia. unfold bmul_bdiv_common.
  assert (x * m <= umax w) by nia.
  assert (x * m * BASE / d <= x * m * BASE) by (apply Z.div_le_upper_bound; nia).
  checked_eval. done.
Qed.

Lemma BASE_half : 2 * (BASE / 2) = BASE.
Proof. reflexivity. Qed.

Lemma bmul_bdiv_unfold w x m d :
  BASE <= umax w -> bmul_bdiv w x m d = bmul_bdiv_common w x m d (BASE / 2).
Proof. intros. unfold bmul_bdiv. checked_eval. done. Qed.

Lemma bmul_bdiv_base w x m d r : bmul_bdiv w x m d = Ok r -> BASE <= umax w.
Proof. unfold bmul_bdiv. intros H. run_step H. by checked. Qed.

Lemma nearest_eq a d :
  0 < d -> (a * BASE / d + BASE / 2) / BASE = (2 * a + d) / (2 * d).
Proof.
  intros. rewrite scaled_div_add by done. pose proof BASE_pos.
  rewrite <- (Z.div_mul_cancel_l (2 * a + d) (2 * d) (BASE / 2)) by (lia || done).
  f_equal; pose proof BASE_half; nia.
Qed.

(** The nearest rounding is an upper bound in both branches. *)
Lemma bmul_bdiv_le w x m d r :
  0 <= x -> 0 <= m -> 0 < d -> bmul_bdiv w x m d = Ok r -> r <= (2 * (x * m) + d) / (2 * d).
Proof.
  intros Hx Hm Hd H. pose proof (bmul_bdiv_base _ _ _ _ _ H).
  rewrite bmul_bdiv_unfold in H by done. rewrite <- nearest_eq by done.
  by eapply bmul_bdiv_common_le.
Qed.

Lemma bmul_bdiv_nonneg w x m d r :
  0 <= x -> 0 <= m -> 0 < d -> bmul_bdiv w x m d = Ok r -> 0 <= r.
Proof.
  intros Hx Hm Hd H. pose proof (bmul_bdiv_base _ _ _ _ _ H).
  rewrite bmul_bdiv_unfold in H by done. pose proof BASE_pos. pose proof BASE_half.
  apply bmul_bdiv_common_ok in H as (_ & _ & [[_ ->]|[_ ->]]); [| |done..];
    apply Z.div_pos; try done; apply Z.add_nonneg_nonneg; try done.
  - apply Z.div_pos; nia.
  - apply Z.mul_nonneg_nonneg; [apply Z.div_pos; nia|lia].
Qed.

(** A share [x/d <= 1] of [m] is at most [m]. *)
Lemma bmul_bdiv_share_le w x m d r :
  0 <= x <= d -> 0 < d -> 0 <= m -> bmul_bdiv w x m d = Ok r -> r <= m.
Proof.
  intros Hx Hd Hm H. etrans; [eapply (bmul_bdiv_le w x m d); [lia..|exact H]|].
  apply Z.lt_succ_r, Z.div_lt_upper_bound; nia.
Qed.

(** The whole of [m] is [m], provided the multiply-first branch is taken. *)
Lemma bmul_bdiv_whole w m d r :
  0 < d -> 0 <= m -> d * m * BASE <= umax w -> bmul_bdiv w d m d = Ok r -> r = m.
Proof.
  intros Hd Hm Hb H. pose proof (bmul_bdiv_base _ _ _ _ _ H).
  rewrite bmul_bdiv_unfold in H by done. pose proof BASE_pos.
  apply bmul_bdiv_common_ok in H as (_ & _ & [[_ ->]|[? _]]); [|lia|lia|lia].
  rewrite nearest_eq by done. symmetry. apply Z.div_unique with d; [lia|ring].
Qed.

(** [bmul_bdiv] and [bmul_bdiv_floor] return the exact product-quotient
    [x*m/d] rounded to the nearest integer (halves up), respectively down,
    whenever the scaled product fits the type; when it does not and the
    divide-first fallback is taken, a successful [bmul_bdiv] never exceeds the
    exact rounding and falls short of it by at most [min(x,m)/BASE + 1]. *)
Theorem bmul_bdiv_rounding w x m d :
  BASE <= umax w -> 0 <= x -> 0 <= m -> 0 < d ->
  (x * m * BASE + BASE <= umax w ->
   bmul_bdiv_floor w x m d = Ok (x * m / d) /\
   bmul_bdiv w x m d = Ok ((2 * (x * m) + d) / (2 * d))) /\
  (forall r, bmul_bdiv w x m d = Ok r ->
   (2 * (x * m) + d) / (2 * d) - (Z.min x m / BASE + 1) <= r <= (2 * (x * m) + d) / (2 * d)).
Proof.
  intros HB Hx Hm Hd. pose proof BASE_pos. pose proof BASE_half. split.
  - intros Hb. unfold bmul_bdiv_floor. rewrite bmul_bdiv_unfold by done.
    rewrite !bmul_bdiv_common_exact by (done || lia). rewrite nearest_eq by done. split; [|done].
    rewrite scaled_div_add by done. rewrite Z.mul_0_l, Z.add_0_r.
    by rewrite Z.div_mul_cancel_r by lia.
  - intros r H1. split; [|by eapply bmul_bdiv_le].
    rewrite bmul_bdiv_unfold in H1 by done. apply bmul_bdiv_common_ge in H1; [|lia..].
    etrans; [|exact H1]. rewrite <- nearest_eq by done.
    set (q := x * m * BASE / d + BASE / 2). set (s := Z.min x m).
    apply Z.div_le_lower_bound; [done|].
    pose proof (Z.mul_div_le q BASE ltac:(done)).
    pose proof (Z.mul_succ_div_gt s BASE ltac:(done)). lia.
Qed.

Lemma bmul_bdiv_rounding_witness :
  bmul_bdiv 128 (7 * BASE) 3 (2 * BASE) = Ok 11 /\
  bmul_bdiv_floor 128 (7 * BASE) 3 (2 * BASE) = Ok 10.
Proof.
  destruct (bmul_bdiv_rounding 128 (7 * BASE) 3 (2 * BASE)) as [H _];
    [vm_compute; discriminate | vm_compute; discriminate | lia | reflexivity |].
  destruct H as [H1 H2]; [vm_compute; discriminate|].
  split; [rewrite H2 | rewrite H1]; reflexivity.
Defined.

(** [bmul_bdiv_ceil] is documented to round [x*m/d] up.  It does so when
    the divisor is at most [BASE] (one token); above that it drops a positive
    remainder smaller than [1/BASE], as on [1*1/(2*BASE)], for which it
    returns [0]. *)
Theorem bmul_bdiv_ceil_rounding :
  (forall w x m d,
   BASE <= umax w -> 0 <= x -> 0 <= m -> 0 < d <= BASE ->
   x * m * BASE + BASE <= umax w ->
   exists r, bmul_bdiv_ceil w x m d = Ok r /\ d * (r - 1) < x * m <= d * r) /\
  bmul_bdiv_ceil 128 1 1 (2 * BASE) = Ok 0.
Proof.
  pose proof BASE_pos. split; [|reflexivity]. intros w x m d HB Hx Hm Hd Hb.
  unfold bmul_bdiv_ceil. checked_eval. rewrite bmul_bdiv_common_exact by (done || lia).
  eexists. split; [done|]. rewrite scaled_div_add by lia.
  pose proof (Z.mul_div_le (x * m * BASE + (BASE - 1) * d) (d * BASE) ltac:(nia)) as H1.
  pose proof (Z.mul_succ_div_gt (x * m * BASE + (BASE - 1) * d) (d * BASE) ltac:(nia)) as H2.
  set (r := (x * m * BASE + (BASE - 1) * d) / (d * BASE)) in *. nia.
Qed.
