(* ===== verification/Root.v ===== *)
(** * Preimages by bisection

    [calc_preimage] of [src/primitives/prediction-market/src/math/root.rs], for
    unsigned integers of [w] bits and a function that may fail.  The [for] loop
    bounds the iterations, so the model needs no fuel of its own. *)

From S2P Require Import Prelude.

Section Root.
Context (w : Z) (f : Z -> Result string Z).

(** Return the sign of [x - y]. *)
Definition diff_sign (x y : Z) : Z := if x =? y then 0 else if y <? x then 1 else -1.

(** The signs are [i8]s between [-1] and [1], whose product does not saturate. *)
Definition is_outside_of (t x y : Z) : bool := 0 <? diff_sign x t * diff_sign y t.

Definition dist (x y : Z) : Z := if y <? x then x - y else y - x.

(** [for i in 1..=max_iterations], [n] of them left. *)
Fixpoint bisect (value tol : Z) (n : nat) (i min max fmax mid iteration_count : Z) : Result string (Z * Z) :=
  match n with
  | O => Ok (mid, iteration_count)
  | S n =>
      size ← ok_or (checked_sub max min) "Unexpected arithmetic underflow"%string;
      if size <? tol then Ok (mid, i) else
      sum ← ok_or (checked_add w max min) "Arithmetic overflow"%string;
      let mid := sum / 2 in
      fmid ← f mid;
      if fmid =? value then Ok (mid, i) else
      if is_outside_of value fmid fmax
      then bisect value tol n (i + 1) min mid fmid mid i
      else bisect value tol n (i + 1) mid max fmax mid i
  end.

Definition calc_preimage (value min max : Z) (max_iterations : nat) (tol : Z) : Result string (Z * Z) :=
  if max <=? min then Err "calc_preimage: Function domain has no volume"%string else
  fmin ← f min;
  fmax ← f max;
  if fmin =? value then Ok (min, 0)
  else if fmax =? value then Ok (max, 0)
  else if is_outside_of value fmin fmax
  then Ok (if dist fmax value <? dist fmin value then max else min, 0)
  else bisect value tol max_iterations 1 min max fmax min 0.

(** ** Correctness *)

(** [v] lies strictly between [x] and [y]. *)
Definition between (v x y : Z) : Prop := x < v < y \/ y < v < x.

Lemma outside_spec v x y : x <> v -> y <> v -> is_outside_of v x y = false <-> between v x y.
Proof.
  intros Hx Hy. unfold is_outside_of, diff_sign, between. rewrite (proj2 (Z.eqb_neq x v)), (proj2 (Z.eqb_neq y v)) by done.
  destruct (Z.ltb_spec v x), (Z.ltb_spec v y); cbn; split; intros; try done; lia.
Qed.

Context (g : Z -> Z) (a b : Z) (Hf : forall x, a <= x <= b -> f x = Ok (g x)).

(** Where the bisection ends: at a preimage, or at the edge of an interval the
    value is still crossed in, which is small. *)
Definition located (value tol x lo hi : Z) (n : nat) : Prop :=
  g x = value \/ exists lo' hi', lo <= lo' <= hi' /\ hi' <= hi /\ between value (g lo') (g hi') /\ (x = lo' \/ x = hi') /\
    (hi' - lo' < tol \/ hi' - lo' <= (hi - lo - 1) / 2 ^ Z.of_nat n + 1).

Lemma located_weaken value tol x lo hi lo1 hi1 n : lo <= lo1 -> hi1 <= hi -> 2 * (hi1 - lo1) <= hi - lo + 1 ->
  located value tol x lo1 hi1 n -> located value tol x lo hi (S n).
Proof.
  intros Hlo Hhi Hsz [?|(lo' & hi' & H1 & H2 & H3 & H4 & H5)]; [by left|right]. exists lo', hi'. split_and!; try lia; try done.
  destruct H5 as [?|H5]; [by left|right]. etransitivity; [exact H5|]. apply Z.add_le_mono_r.
  rewrite Nat2Z.inj_succ, Z.pow_succ_r, <- Z.div_div by lia. apply Z.div_le_mono; [lia|]. apply Z.div_le_lower_bound; lia.
Qed.

Lemma bisect_spec value tol n : forall i lo hi mid k, a <= lo < hi -> hi <= b -> 0 <= a -> 2 * b <= umax w ->
  between value (g lo) (g hi) -> mid = lo \/ mid = hi -> i = k + 1 ->
  exists x k', bisect value tol n i lo hi (g hi) mid k = Ok (x, k') /\ k <= k' <= k + Z.of_nat n /\ lo <= x <= hi /\
    located value tol x lo hi n.
Proof using Hf.
  induction n as [|n IH]; intros i lo hi mid k Hlo Hhi Ha Hmax Hbt Hmid ->; cbn [bisect].
  - exists mid, k. split_and!; try done; try lia. right. exists lo, hi. split_and!; try done; try lia.
    right. change (2 ^ Z.of_nat 0) with 1. rewrite Z.div_1_r. lia.
  - unfold checked_sub. rewrite (proj2 (Z.leb_le lo hi)) by lia. cbn [ok_or mbind result_bind].
    destruct (Z.ltb_spec (hi - lo) tol) as [Htol|_].
    { exists mid, (k + 1). split_and!; try done; try lia. right. exists lo, hi. split_and!; try done; try lia. }
    unfold checked_add. rewrite (proj2 (Z.leb_le (hi + lo) (umax w))) by lia. cbn [ok_or mbind result_bind].
    set (m := (hi + lo) / 2). assert (Hm : lo <= m <= hi /\ 2 * m <= hi + lo <= 2 * m + 1).
    { unfold m. pose proof (Z.div_mod (hi + lo) 2 ltac:(lia)). pose proof (Z.mod_pos_bound (hi + lo) 2 ltac:(lia)). lia. }
    rewrite Hf by lia. cbn [mbind result_bind]. destruct (Z.eqb_spec (g m) value) as [Em|Em].
    { exists m, (k + 1). split_and!; try done; try lia. by left. }
    assert (Hhv : g hi <> value) by (unfold between in Hbt; lia).
    destruct (is_outside_of value (g m) (g hi)) eqn:Ho.
    + assert (Hb1 : between value (g lo) (g m)).
      { destruct (decide (between value (g m) (g hi))) as [Hb|Hb]; [by apply outside_spec in Hb; [congruence|..]|]. unfold between in *. lia. }
      assert (lo < m) by (destruct (decide (m = lo)) as [->|]; [unfold between in Hb1; lia|lia]).
      destruct (IH (k + 1 + 1) lo m m (k + 1)) as (x & k' & -> & ? & ? & Hx); [lia..|done|auto|lia|].
      exists x, k'. split_and!; try done; try lia. eapply located_weaken; [| | |exact Hx]; lia.
    + apply outside_spec in Ho; [|done..]. assert (m < hi) by (destruct (decide (m = hi)) as [->|]; [unfold between in Ho; lia|lia]).
      destruct (IH (k + 1 + 1) m hi m (k + 1)) as (x & k' & -> & ? & ? & Hx); [lia..|done|auto|lia|].
      exists x, k'. split_and!; try done; try lia. eapply located_weaken; [| | |exact Hx]; lia.
Qed.

(** The value is not taken by [g]: all of [g] is on one side of it. *)
Definition one_side (value : Z) : Prop := (forall y, a <= y <= b -> g y < value) \/ (forall y, a <= y <= b -> value < g y).

(** C34. For a function that is defined and monotonous on the whole interval,
    whose upper end can be doubled without overflow, the search succeeds within
    its iterations, and its result is one of three.  Either it is a preimage of
    the value.  Or it is the edge of a part of the interval that is smaller than
    the tolerance, or as small as the iterations allow, across which the function
    crosses the value, and which holds every preimage there is.  Or the function
    is on one side of the value everywhere, and the result is the end of the
    interval with the nearer value. *)
Theorem preimage_found value n tol : 0 <= a < b -> 2 * b <= umax w ->
  (forall x y, a <= x <= y -> y <= b -> g x <= g y) \/ (forall x y, a <= x <= y -> y <= b -> g y <= g x) ->
  exists x k, calc_preimage value a b n tol = Ok (x, k) /\ 0 <= k <= Z.of_nat n /\ a <= x <= b /\
    (g x = value \/
     (exists lo hi, a <= lo <= hi /\ hi <= b /\ between value (g lo) (g hi) /\ (x = lo \/ x = hi) /\
        (hi - lo < tol \/ hi - lo <= (b - a - 1) / 2 ^ Z.of_nat n + 1) /\
        forall y, a <= y <= b -> g y = value -> lo <= y <= hi) \/
     one_side value /\ (x = a \/ x = b) /\ dist (g x) value <= dist (g a) value /\ dist (g x) value <= dist (g b) value).
Proof using Hf.
  intros Hab Hmax Hmono. unfold calc_preimage. rewrite (proj2 (Z.leb_gt b a)) by lia. rewrite !Hf by lia. cbn [mbind result_bind].
  destruct (Z.eqb_spec (g a) value) as [Ea|Ea]; [exists a, 0; split_and!; try lia; auto|].
  destruct (Z.eqb_spec (g b) value) as [Eb|Eb]; [exists b, 0; split_and!; try lia; auto|].
  destruct (is_outside_of value (g a) (g b)) eqn:Ho.
  - assert (Hn : ~ between value (g a) (g b)) by (rewrite <- outside_spec by done; congruence).
    exists (if dist (g b) value <? dist (g a) value then b else a), 0. split; [done|]. split; [lia|]. split; [case_match; lia|].
    right. right. split; [|split_and!; case_match; lia].
    destruct (decide (g a < value)); [left|right]; intros y Hy; unfold between in Hn; destruct Hmono as [Hm|Hm];
      pose proof (Hm a y); pose proof (Hm y b); lia.
  - apply outside_spec in Ho; [|done..]. destruct (bisect_spec value tol n 1 a b a 0) as (x & k & -> & Hk & Hx & Hl); try done; try lia.
    exists x, k. split_and!; try done; try lia. destruct Hl as [?|(lo & hi & H1 & H2 & Hb & Hxe & Hsz)]; [by left|right; left].
    exists lo, hi. split; [lia|]. split; [lia|]. split; [done|]. split; [done|]. split; [lia|]. intros y Hy Ey.
    unfold between in Hb. split; apply Z.nlt_ge; intros Hlt; destruct Hmono as [Hm|Hm];
      pose proof (Hm y lo); pose proof (Hm lo hi); pose proof (Hm hi y); lia.
Qed.
End Root.

(** The square root of 1000, in 20 steps, up to one. *)
Lemma preimage_found_witness : exists x k, calc_preimage 32 (fun x => Ok (x * x)) 1000 0 1000 20 1 = Ok (x, k) /\ Z.abs (x - 31) <= 1.
Proof.
  destruct (preimage_found 32 (fun x => Ok (x * x)) (fun x => x * x) 0 1000) with (value := 1000) (n := 20%nat) (tol := 1)
    as (x & k & Hr & _ & Hx & Hres).
  - intros x _. reflexivity.
  - lia.
  - vm_compute. discriminate.
  - left. intros x y Hx Hy. nia.
  - exists x, k. split; [exact Hr|]. change ((1000 - 0 - 1) / 2 ^ Z.of_nat 20 + 1) with 1 in Hres.
    destruct Hres as [?|[(lo & hi & Hlo & Hhi & Hb & Hxe & Hsz & _)|([Hs|Hs] & _)]]; [nia| |specialize (Hs 1000); nia|specialize (Hs 0); nia].
    unfold between in Hb. nia.
Defined.
