(* ===== verification/LiquidityTree.v ===== *)
(** * The liquidity tree of neo-swaps

    [pallets/neo-swaps/src/liquidity_tree]: a segment tree that tracks the
    liquidity shares of the providers of a pool and distributes the fees among
    them lazily.  [&mut self] methods are calls of the storage monad over the
    tree; a mutator that fails half-way leaves its writes behind, as in Rust.
    [Balance] is [u128], indices are [u32]. *)

From S2P Require Import Prelude Errors FixedMath.

(** ** Data *)

(** [Node]. *)
Record Node := mkNode {
  account : option AccountId;
  stake : Z;
  fees : Z;
  descendant_stake : Z;
  lazy_fees : Z
}.

(** [LiquidityTree]. *)
Record LiquidityTree := mkTree {
  nodes : list Node;
  account_to_index : gmap AccountId Z;
  abandoned_nodes : list Z
}.

(** [LiquidityTreeChildIndices]. *)
Record LiquidityTreeChildIndices := mkChildren { lhs : option Z; rhs : option Z }.

(** [UpdateDescendantStakeOperation]. *)
Inductive UpdateDescendantStakeOperation := Add | Sub.

(** [BenchmarkInfo]. *)
Inductive BenchmarkInfo := InPlace | Reassigned | Leaf.

#[global] Instance node_eq_dec : EqDecision Node.
Proof. solve_decision. Defined.

Definition set_account a n := mkNode a (stake n) (fees n) (descendant_stake n) (lazy_fees n).
Definition set_stake x n := mkNode (account n) x (fees n) (descendant_stake n) (lazy_fees n).
Definition set_fees x n := mkNode (account n) (stake n) x (descendant_stake n) (lazy_fees n).
Definition set_descendant_stake x n := mkNode (account n) (stake n) (fees n) x (lazy_fees n).
Definition set_lazy_fees x n := mkNode (account n) (stake n) (fees n) (descendant_stake n) x.

Definition set_nodes x t := mkTree x (account_to_index t) (abandoned_nodes t).
Definition set_account_to_index x t := mkTree (nodes t) x (abandoned_nodes t).
Definition set_abandoned_nodes x t := mkTree (nodes t) (account_to_index t) x.

(** [LiquidityTreeError::into_dispatch_error] and
    [StorageOverflowError::into_dispatch_error]. *)
Definition tree_error (e : LiquidityTreeError) : DispatchError :=
  Module_ (NeoSwaps (NeoLiquidityTreeError e)).
Definition overflow_error (e : StorageOverflowError) : DispatchError :=
  tree_error (StorageOverflow e).

(** [Node::new], [Node::total_stake], [Node::is_weak_leaf]. *)
Definition Node_new (a : AccountId) (s : Z) : Node := mkNode (Some a) s 0 0 0.
Definition total_stake (n : Node) : Res Z := checked_add_res 128 (stake n) (descendant_stake n).
Definition is_weak_leaf (n : Node) : bool := descendant_stake n =? 0.

(** ** Operations *)

Abbreviation TreeM := (ST DispatchError LiquidityTree).
Abbreviation NodeM := (ST DispatchError Node).

Section Tree.
(** [U::get()], the maximal depth of the tree. *)
Variable max_depth : Z.

(** [LiquidityTreeMaxNodes::get]. *)
Definition max_node_count : Z := saturating_sub (saturating_pow 32 2 (max_depth + 1)) 1.

(** [LiquidityTree::new]. *)
Definition LiquidityTree_new (a : AccountId) (s : Z) : Res LiquidityTree :=
  nds ← (if 1 <=? max_node_count then Ok [Node_new a s] else Err (overflow_error Nodes));
  idx ← (if 0 <? max_node_count then Ok {[a := 0]} else Err (overflow_error AccountToIndex));
  Ok (mkTree nds idx []).

Definition node_count (t : LiquidityTree) : Z := Z.of_nat (length (nodes t)).

(** [get_node] *)
Definition get_node (index : Z) : TreeM Node := fun t =>
  (ok_or (nodes t !! Z.to_nat index) (tree_error NodeNotFound), t).

(** [get_node_mut] and [mutate_node]. *)
Definition mutate_node {A} (index : Z) (mutator : NodeM A) : TreeM A := fun t =>
  match nodes t !! Z.to_nat index with
  | None => (Err (tree_error NodeNotFound), t)
  | Some n =>
      let '(r, n') := mutator n in
      (r, set_nodes (<[Z.to_nat index := n']> (nodes t)) t)
  end.

Definition map_account_to_index (who : AccountId) : TreeM Z := fun t =>
  (ok_or (account_to_index t !! who) (tree_error AccountNotFound), t).

Definition children (t : LiquidityTree) (index : Z) : Res LiquidityTreeChildIndices :=
  let calculate_child child_index :=
    if child_index <? node_count t then Some child_index else None in
  doubled ← checked_mul_res 32 index 2;
  left_child_index ← checked_add_res 32 doubled 1;
  let lhs := calculate_child left_child_index in
  right_child_index ← checked_add_res 32 left_child_index 1;
  let rhs := calculate_child right_child_index in
  Ok (mkChildren lhs rhs).

Definition parent_index (index : Z) : option Z :=
  if index =? 0 then None
  else i ← checked_sub index 1; checked_div i 2.

(** The recursion of [path_to_node], on the iterations that remain. *)
Fixpoint path_to_node_iter (remaining_iterations : nat) (index : Z) : Res (list Z) :=
  match remaining_iterations with
  | O => Err (tree_error MaxIterationsReached)
  | S remaining_iterations =>
      match parent_index index with
      | Some parent_index =>
          path ← path_to_node_iter remaining_iterations parent_index;
          Ok (path ++ [index])
      | None => Ok [0]
      end
  end.

Definition path_to_node (index : Z) (opt_iterations : option nat) : Res (list Z) :=
  default_iterations ← checked_add_res 32 max_depth 1;
  path_to_node_iter (default (Z.to_nat default_iterations) opt_iterations) index.

Definition take_last_abandoned_node_index : TreeM (option Z) := fun t =>
  match last (abandoned_nodes t) with
  | None => (Ok None, t)
  | Some i =>
      (Ok (Some i),
       set_abandoned_nodes (take (length (abandoned_nodes t) - 1) (abandoned_nodes t)) t)
  end.

Definition peek_next_free_leaf (t : LiquidityTree) : option Z :=
  if node_count t <? max_node_count then Some (node_count t) else None.

Definition update_descendant_stake_of_ancestors
    (index delta : Z) (op : UpdateDescendantStakeOperation) : TreeM unit :=
  path ← lift (path_to_node index None);
  for_each path (fun i =>
    mutate_node i (
      node ← get;
      d ← lift (match op with
                | Add => checked_add_res 128 (descendant_stake node) delta
                | Sub => checked_sub_res (descendant_stake node) delta
                end);
      modify (set_descendant_stake d))).

Definition propagate_fees (index : Z) : TreeM unit :=
  node ← get_node index;
  node_total ← lift (total_stake node);
  if node_total =? 0 then mret tt else
  (if is_weak_leaf node then
     mutate_node index (
       node ← get;
       f ← lift (checked_add_res 128 (fees node) (lazy_fees node));
       modify (set_fees f))
   else
     let node_descendant_stake := descendant_stake node in
     node_total ← lift (total_stake node);
     remaining_lazy_fees ←
       lift (bmul_bdiv 128 (descendant_stake node) (lazy_fees node) node_total);
     own_fees ← lift (checked_sub_res (lazy_fees node) remaining_lazy_fees);
     mutate_node index (
       node ← get;
       f ← lift (checked_add_res 128 (fees node) own_fees);
       modify (set_fees f)) ;;
     t ← get;
     child_indices ← lift (children t index);
     remaining_lazy_fees ←
       match lhs child_indices with
       | Some lhs_index =>
           mutate_node lhs_index (
             lhs_node ← get;
             lhs_total ← lift (total_stake lhs_node);
             child_lazy_fees ←
               lift (bmul_bdiv 128 lhs_total remaining_lazy_fees node_descendant_stake);
             f ← lift (checked_add_res 128 (lazy_fees lhs_node) child_lazy_fees);
             modify (set_lazy_fees f) ;;
             lift (checked_sub_res remaining_lazy_fees child_lazy_fees))
       | None => mret remaining_lazy_fees
       end;
     match rhs child_indices with
     | Some rhs_index =>
         mutate_node rhs_index (
           rhs_node ← get;
           f ← lift (checked_add_res 128 (lazy_fees rhs_node) remaining_lazy_fees);
           modify (set_lazy_fees f))
     | None => mret tt
     end) ;;
  mutate_node index (modify (set_lazy_fees 0)).

Definition propagate_fees_to_node (index : Z) : TreeM unit :=
  path ← lift (path_to_node index None);
  for_each path propagate_fees.

(** [self.nodes.try_push] *)
Definition try_push_node (n : Node) : TreeM unit := fun t =>
  if node_count t <? max_node_count
  then (Ok tt, set_nodes (nodes t ++ [n]) t)
  else (Err (overflow_error Nodes), t).

(** [self.account_to_index.try_insert]: the bound counts new keys only. *)
Definition try_insert_account (who : AccountId) (index : Z) : TreeM unit := fun t =>
  if (Z.of_nat (size (account_to_index t)) <? max_node_count)
     || bool_decide (is_Some (account_to_index t !! who))
  then (Ok tt, set_account_to_index (<[who := index]> (account_to_index t)) t)
  else (Err (overflow_error AccountToIndex), t).

(** [self.abandoned_nodes.try_push] *)
Definition try_push_abandoned (index : Z) : TreeM unit := fun t =>
  if Z.of_nat (length (abandoned_nodes t)) <? max_node_count
  then (Ok tt, set_abandoned_nodes (abandoned_nodes t ++ [index]) t)
  else (Err (overflow_error AbandonedNodes), t).

Definition join (who : AccountId) (stk : Z) : TreeM BenchmarkInfo :=
  t ← get;
  '(index, benchmark_info) ←
    match account_to_index t !! who with
    | Some index =>
        propagate_fees_to_node index ;;
        mutate_node index (
          node ← get;
          s ← lift (checked_add_res 128 (stake node) stk);
          modify (set_stake s)) ;;
        mret (index, InPlace)
    | None =>
        opt_abandoned ← take_last_abandoned_node_index;
        t ← get;
        '(index, benchmark_info) ←
          match opt_abandoned, peek_next_free_leaf t with
          | Some index, _ =>
              propagate_fees_to_node index ;;
              mutate_node index (
                modify (set_account (Some who)) ;;
                modify (set_stake stk) ;;
                modify (set_fees 0) ;;
                modify (set_lazy_fees 0)) ;;
              mret (index, Reassigned)
          | None, Some index =>
              match parent_index index with
              | Some parent_index => propagate_fees_to_node parent_index
              | None => mret tt
              end ;;
              try_push_node (Node_new who stk) ;;
              mret (index, Leaf)
          | None, None => fail (tree_error TreeIsFull)
          end;
        try_insert_account who index ;;
        mret (index, benchmark_info)
    end;
  match parent_index index with
  | Some parent_index => update_descendant_stake_of_ancestors parent_index stk Add
  | None => mret tt
  end ;;
  mret benchmark_info.

Definition exit (who : AccountId) (stk : Z) : TreeM unit :=
  index ← map_account_to_index who;
  propagate_fees_to_node index ;;
  new_stake ← mutate_node index (
    node ← get;
    lift (ensure (fees node =? 0) (tree_error UnwithdrawnFees)) ;;
    s ← lift (ok_or (checked_sub (stake node) stk) (tree_error InsufficientStake));
    modify (set_stake s) ;;
    mret s);
  (if new_stake =? 0 then
     mutate_node index (modify (set_account None)) ;;
     try_push_abandoned index ;;
     modify (fun t => set_account_to_index (delete who (account_to_index t)) t)
   else mret tt) ;;
  match parent_index index with
  | Some parent_index => update_descendant_stake_of_ancestors parent_index stk Sub
  | None => mret tt
  end.

Definition split (sender receiver : AccountId) (amount : Z) : TreeM unit :=
  fail (Module_ (NeoSwaps NotImplemented)).

Definition deposit_fees (amount : Z) : TreeM unit :=
  mutate_node 0 (
    root ← get;
    f ← lift (checked_add_res 128 (lazy_fees root) amount);
    modify (set_lazy_fees f)).

Definition withdraw_fees (who : AccountId) : TreeM Z :=
  index ← map_account_to_index who;
  propagate_fees_to_node index ;;
  mutate_node index (
    node ← get;
    modify (set_fees 0) ;;
    mret (fees node)).

Definition shares_of (who : AccountId) : TreeM Z :=
  index ← map_account_to_index who;
  node ← get_node index;
  mret (stake node).

Definition total_shares : TreeM Z :=
  root ← get_node 0;
  lift (total_stake root).
End Tree.
