(* ===== verification/LiquidityTreeFacts.v ===== *)
(** * The liquidity tree: paths, propagation and the tree invariant

    Lemmas on the operations of [LiquidityTree]: the path from the root to a
    node, what fee propagation may change, the effect of the walk that updates
    the descendant stakes. *)

From S2P Require Import Prelude Errors FixedMath LiquidityTree.

(** ** Paths *)

(** [is_path p z]: [p] is the list of the ancestors of [z], root first, [z]
    last, in the heap numbering where the parent of [z] is [(z - 1) / 2]. *)
Inductive is_path : list Z -> Z -> Prop :=
| is_path_root : is_path [0] 0
| is_path_step p z : 0 < z -> is_path p ((z - 1) / 2) -> is_path (p ++ [z]) z.

Lemma parent_index_spec z :
  0 <= z -> parent_index z = if z =? 0 then None else Some ((z - 1) / 2).
Proof.
  intros. unfold parent_index. destruct (Z.eqb_spec z 0); [done|].
  unfold checked_sub. destruct (Z.leb_spec 1 z); [|lia]. done.
Qed.

Lemma parent_of_child z i : 0 < z -> (z - 1) / 2 = i <-> z = 2 * i + 1 \/ z = 2 * i + 2.
Proof.
  intros. split.
  - intros <-. pose proof (Z.div_mod (z - 1) 2). pose proof (Z.mod_pos_bound (z - 1) 2). lia.
  - intros Hz. symmetry. apply Z.div_unique with (z - 1 - 2 * i); lia.
Qed.

Lemma parent_lt z : 0 < z -> 0 <= (z - 1) / 2 < z.
Proof. intros. split; [apply Z.div_pos; lia|apply Z.div_lt_upper_bound; lia]. Qed.

Lemma path_to_node_iter_ok r z p :
  0 <= z -> path_to_node_iter r z = Ok p -> is_path p z.
Proof.
  revert z p. induction r as [|r IH]; intros z p Hz; simpl; [done|].
  rewrite parent_index_spec by done. destruct (Z.eqb_spec z 0) as [->|].
  - intros [= <-]. constructor.
  - intros H. run_step H. pose proof (parent_lt z). constructor; [lia|]. apply IH; [lia|done].
Qed.

Lemma is_path_bound p z : is_path p z -> 0 <= z /\ forall y, y ∈ p -> 0 <= y <= z.
Proof.
  induction 1 as [|p z Hz H [IH0 IH]]; (split; [lia|]); intros y Hy.
  - set_solver.
  - apply elem_of_app in Hy as [Hy|Hy]; [|set_solver by lia].
    specialize (IH y Hy). pose proof (parent_lt z Hz). lia.
Qed.

Lemma is_path_nodup p z : is_path p z -> NoDup p.
Proof.
  induction 1 as [|p z Hz H IH]; [apply NoDup_singleton|].
  apply NoDup_app. split_and!; [done| |apply NoDup_singleton].
  intros y Hy. apply is_path_bound in H as [_ Hb]. specialize (Hb y Hy).
  pose proof (parent_lt z Hz). set_solver by lia.
Qed.

Lemma is_path_self p z : is_path p z -> z ∈ p.
Proof. induction 1; set_solver. Qed.

(** A path is closed under parents, and every node of it but the last has
    exactly one child on it. *)
Lemma is_path_parent p z y : is_path p z -> y ∈ p -> 0 < y -> (y - 1) / 2 ∈ p.
Proof.
  induction 1 as [|p z Hz H IH]; intros Hy Hpos; [set_solver by lia|].
  apply elem_of_app in Hy as [Hy|Hy]; [set_solver|].
  apply list_elem_of_singleton in Hy as ->. apply elem_of_app. left. by apply is_path_self.
Qed.

Lemma is_path_child p z y :
  is_path p z -> y ∈ p -> y <> z ->
  (2 * y + 1 ∈ p /\ 2 * y + 2 ∉ p) \/ (2 * y + 1 ∉ p /\ 2 * y + 2 ∈ p).
Proof.
  induction 1 as [|p z Hz H IH]; intros Hy Hne; [set_solver|].
  assert (y ∈ p) as Hyp by set_solver.
  pose proof (is_path_bound _ _ H) as [H0 Hb]. pose proof (parent_lt z Hz).
  destruct (decide (y = (z - 1) / 2)) as [->|Hyz].
  - assert (Hout : forall u, (z - 1) / 2 < u -> u ∉ p) by (intros u Hu Hin; specialize (Hb u Hin); lia).
    destruct (proj1 (parent_of_child z _ Hz) eq_refl) as [E|E]; rewrite !elem_of_app,
      !list_elem_of_singleton; [left|right]; (split; [try tauto|]).
    + right. lia.
    + intros [Hin|]; [|lia]. eapply Hout; [|exact Hin]. lia.
    + intros [Hin|]; [|lia]. eapply Hout; [|exact Hin]. lia.
    + right. lia.
  - assert (Hz1 : 2 * y + 1 <> z /\ 2 * y + 2 <> z).
    { split; intros E; apply Hyz; symmetry; apply parent_of_child; lia. }
    specialize (IH Hyp Hyz). set_solver by lia.
Qed.

(** Every node has a path, of length at most [k] when it is among the first
    [2 ^ k - 1] nodes; so the bound on the iterations is never hit. *)
Lemma path_to_node_iter_total (k : nat) z :
  0 <= z < 2 ^ Z.of_nat k - 1 -> exists p, path_to_node_iter k z = Ok p.
Proof.
  revert z. induction k as [|k IH]; intros z Hz; [simpl in Hz; lia|].
  rewrite Nat2Z.inj_succ, Z.pow_succ_r in Hz by lia. simpl.
  rewrite parent_index_spec by lia. destruct (Z.eqb_spec z 0); [eauto|].
  destruct (IH ((z - 1) / 2)) as [p ->]; [|eexists; done].
  pose proof (parent_lt z ltac:(lia)). split; [lia|].
  apply Z.div_lt_upper_bound; lia.
Qed.

(** ** Inversion of the node operations *)

Lemma mutate_node_ok {A} i (m : NodeM A) t a t' :
  mutate_node i m t = (Ok a, t') ->
  exists n n', nodes t !! Z.to_nat i = Some n /\ m n = (Ok a, n') /\
    t' = set_nodes (<[Z.to_nat i := n']> (nodes t)) t.
Proof.
  unfold mutate_node. destruct (nodes t !! Z.to_nat i) as [n|]; [|done].
  destruct (m n) as [r n'] eqn:E. intros [= -> <-]. eauto.
Qed.

Lemma get_node_ok i t n t' :
  get_node i t = (Ok n, t') -> nodes t !! Z.to_nat i = Some n /\ t' = t.
Proof. unfold get_node. intros [= H <-]. by apply ok_or_ok in H. Qed.

Lemma map_account_ok who t i t' :
  map_account_to_index who t = (Ok i, t') -> account_to_index t !! who = Some i /\ t' = t.
Proof. unfold map_account_to_index. intros [= H <-]. by apply ok_or_ok in H. Qed.

(** Runs the tree monad in a hypothesis [H : m t = (Ok a, t')]. *)
Ltac tree_run H :=
  run_step H;
  repeat match goal with
  | H : mutate_node _ _ _ = (Ok _, _) |- _ =>
      let n := fresh "n" in let n' := fresh "n'" in
      let Hn := fresh "Hn" in let Hm := fresh "Hm" in
      apply mutate_node_ok in H as (n & n' & Hn & Hm & ->); run_step Hm
  | H : get_node _ _ = (Ok _, _) |- _ => apply get_node_ok in H as [? ->]
  | H : map_account_to_index _ _ = (Ok _, _) |- _ => apply map_account_ok in H as [? ->]
  | H : total_stake _ = Ok _ |- _ => unfold total_stake in H
  end; checked.

(** ** What propagation leaves alone *)

(** The part of a node that fee propagation never touches. *)
Definition skel (n : Node) : option AccountId * Z * Z :=
  (account n, stake n, descendant_stake n).

Definition same_skel (t t' : LiquidityTree) : Prop :=
  skel <$> nodes t' = skel <$> nodes t /\
  account_to_index t' = account_to_index t /\ abandoned_nodes t' = abandoned_nodes t.

#[global] Instance same_skel_preorder : PreOrder same_skel.
Proof.
  split; [by intros t|]. intros t1 t2 t3 (H1 & H2 & H3) (H4 & H5 & H6).
  repeat split; congruence.
Qed.

Lemma skel_insert (l : list Node) i n n' :
  l !! i = Some n -> skel n' = skel n -> skel <$> <[i := n']> l = skel <$> l.
Proof.
  intros Hl Hs. rewrite list_fmap_insert, Hs. apply list_insert_id.
  by rewrite list_lookup_fmap, Hl.
Qed.

Lemma same_skel_lookup t t' i n' :
  same_skel t t' -> nodes t' !! i = Some n' ->
  exists n, nodes t !! i = Some n /\ skel n = skel n'.
Proof.
  intros (H & _) Hn. apply (f_equal (lookup i)) in H.
  rewrite !list_lookup_fmap, Hn in H. destruct (nodes t !! i) as [n|]; [|done].
  change (Some (skel n') = Some (skel n)) in H. apply (inj Some) in H. eauto.
Qed.

Lemma same_skel_sym t t' : same_skel t t' -> same_skel t' t.
Proof. intros (? & ? & ?). repeat split; congruence. Qed.

Lemma same_skel_length t t' : same_skel t t' -> length (nodes t') = length (nodes t).
Proof. intros (H & _). apply (f_equal length) in H. by rewrite !length_fmap in H. Qed.

(** ** Fees *)

(** All fields of a node are [u128] values. *)
Definition node_ok (n : Node) : Prop :=
  fits 128 (stake n) /\ fits 128 (fees n) /\ fits 128 (descendant_stake n) /\
  fits 128 (lazy_fees n).

Definition node_fees (n : Node) : Z := fees n + lazy_fees n.

(** The fees the tree holds: credited to a node, or still on their way. *)
Definition total_fees (t : LiquidityTree) : Z := zsum node_fees (nodes t).
Arguments total_fees !t /.

Lemma Forall_insert_ok (l : list Node) i n :
  Forall node_ok l -> node_ok n -> Forall node_ok (<[i := n]> l).
Proof. intros. by apply Forall_insert. Qed.

Lemma lookup_ok (l : list Node) i n : Forall node_ok l -> l !! i = Some n -> node_ok n.
Proof. intros. by eapply Forall_lookup_1. Qed.

(** [fee_delta d t t']: the step from [t] to [t'] only moves fees, keeps every
    field in range, and changes the fees held by [d]. *)
Definition fee_delta (d : Z) (t t' : LiquidityTree) : Prop :=
  same_skel t t' /\ (Forall node_ok (nodes t) -> Forall node_ok (nodes t')) /\
  total_fees t' = total_fees t + d.

Lemma fee_delta_refl t : fee_delta 0 t t.
Proof. split_and!; [reflexivity|done|lia]. Qed.

Lemma fee_delta_trans d d1 d2 t1 t2 t3 :
  fee_delta d1 t1 t2 -> fee_delta d2 t2 t3 -> d = d1 + d2 -> fee_delta d t1 t3.
Proof.
  intros (H1 & H2 & H3) (H4 & H5 & H6) ->. split_and!; [by etrans|auto|lia].
Qed.

Lemma fee_delta_update t i n n' :
  nodes t !! i = Some n -> skel n' = skel n -> (node_ok n -> node_ok n') ->
  fee_delta (node_fees n' - node_fees n) t (set_nodes (<[i := n']> (nodes t)) t).
Proof.
  intros Hn Hs Hok. split_and!.
  - split; [|done]. simpl. by eapply skel_insert.
  - intros Hl. simpl. apply Forall_insert_ok; [done|]. apply Hok. by eapply lookup_ok.
  - unfold total_fees. simpl. rewrite (zsum_insert _ _ _ n) by done. lia.
Qed.

(** Adding [x] to a node's fees or lazy fees is a change by [x]. *)
Lemma add_fees_delta t i n x :
  nodes t !! i = Some n -> 0 <= x -> fees n + x <= umax 128 ->
  fee_delta x t (set_nodes (<[i := set_fees (fees n + x) n]> (nodes t)) t).
Proof.
  intros Hn Hx Hb. replace x with (node_fees (set_fees (fees n + x) n) - node_fees n) at 1
    by (unfold node_fees; simpl; lia).
  apply fee_delta_update; [done|done|]. unfold node_ok, fits; simpl; lia.
Qed.

Lemma add_lazy_delta t i n x :
  nodes t !! i = Some n -> 0 <= x -> lazy_fees n + x <= umax 128 ->
  fee_delta x t (set_nodes (<[i := set_lazy_fees (lazy_fees n + x) n]> (nodes t)) t).
Proof.
  intros Hn Hx Hb. replace x with (node_fees (set_lazy_fees (lazy_fees n + x) n) - node_fees n) at 1
    by (unfold node_fees; simpl; lia).
  apply fee_delta_update; [done|done|]. unfold node_ok, fits; simpl; lia.
Qed.

Lemma clear_lazy_delta t i n :
  nodes t !! i = Some n ->
  fee_delta (- lazy_fees n) t (set_nodes (<[i := set_lazy_fees 0 n]> (nodes t)) t).
Proof.
  intros Hn. replace (- lazy_fees n) with (node_fees (set_lazy_fees 0 n) - node_fees n)
    by (unfold node_fees; simpl; lia).
  apply fee_delta_update; [done|done|]. unfold node_ok, fits; simpl; lia.
Qed.

Lemma children_ok t i c :
  0 <= i -> children t i = Ok c ->
  lhs c = (if 2 * i + 1 <? node_count t then Some (2 * i + 1) else None) /\
  rhs c = (if 2 * i + 2 <? node_count t then Some (2 * i + 2) else None).
Proof.
  unfold children. intros Hi H. run_step H. checked. simpl.
  replace (i * 2 + 1) with (2 * i + 1) by lia. replace (2 * i + 1 + 1) with (2 * i + 2) by lia.
  done.
Qed.

(** The child's [lazy_fees] step of [propagate_fees]: the left child takes its
    share of the remaining fees, the right child what is left. *)
Definition give_left (remaining d : Z) (o : option Z) : TreeM Z :=
  match o with
  | Some lhs_index =>
      mutate_node lhs_index (
        lhs_node ← get;
        lhs_total ← lift (total_stake lhs_node);
        child_lazy_fees ← lift (bmul_bdiv 128 lhs_total remaining d);
        f ← lift (checked_add_res 128 (lazy_fees lhs_node) child_lazy_fees);
        modify (set_lazy_fees f) ;;
        lift (checked_sub_res remaining child_lazy_fees))
  | None => mret remaining
  end.

Definition give_right (remaining : Z) (o : option Z) : TreeM unit :=
  match o with
  | Some rhs_index =>
      mutate_node rhs_index (
        rhs_node ← get;
        f ← lift (checked_add_res 128 (lazy_fees rhs_node) remaining);
        modify (set_lazy_fees f))
  | None => mret tt
  end.

(** What the tree looks like at an index a step did not touch. *)
Definition untouched (i : nat) (t t' : LiquidityTree) : Prop := nodes t' !! i = nodes t !! i.

Lemma give_left_ok rem d o t r t' i :
  0 <= rem -> 0 < d -> Forall node_ok (nodes t) ->
  (forall l, o = Some l -> Z.to_nat l <> i) ->
  give_left rem d o t = (Ok r, t') ->
  0 <= r <= rem /\ untouched i t t' /\ fee_delta (rem - r) t t' /\
  (forall l, o = Some l -> exists n, nodes t !! Z.to_nat l = Some n /\
     bmul_bdiv 128 (stake n + descendant_stake n) rem d = Ok (rem - r)) /\
  (o = None -> r = rem).
Proof.
  intros Hrem Hd Hall Hi H. destruct o as [l|]; simpl in H.
  - tree_run H. specialize (Hi l eq_refl).
    pose proof (lookup_ok _ _ _ Hall Hn) as (Hs & _ & Hds & Hlz).
    match goal with H : bmul_bdiv _ _ _ _ = Ok ?c |- _ => rename c into a1, H into Hc end.
    assert (0 <= a1) by (eapply bmul_bdiv_nonneg, Hc; unfold fits in *; lia).
    split_and!; [lia|lia|by apply list_lookup_insert_ne| | |done].
    + replace (rem - (rem - a1)) with a1 by lia. by apply add_lazy_delta.
    + intros l' [= <-]. eexists. split; [done|]. by replace (rem - (rem - a1)) with a1 by lia.
  - run_step H. split_and!; try done; try lia. rewrite Z.sub_diag. apply fee_delta_refl.
Qed.

Lemma give_right_ok rem o t u t' i :
  0 <= rem ->
  (forall r, o = Some r -> Z.to_nat r <> i) ->
  give_right rem o t = (Ok u, t') ->
  untouched i t t' /\ fee_delta (if o then rem else 0) t t'.
Proof.
  intros Hrem Hi H. destruct o as [r|]; simpl in H.
  - tree_run H. specialize (Hi r eq_refl). split; [by apply list_lookup_insert_ne|].
    by apply add_lazy_delta.
  - run_step H. split; [done|apply fee_delta_refl].
Qed.

Lemma propagate_fees_unfold index :
  propagate_fees index =
    (node ← get_node index;
     node_total ← lift (total_stake node);
     if node_total =? 0 then mret tt else
     (if is_weak_leaf node then
        mutate_node index (
          node ← get;
          f ← lift (checked_add_res 128 (fees node) (lazy_fees node));
          modify (set_fees f))
      else
        node_total ← lift (total_stake node);
        remaining ← lift (bmul_bdiv 128 (descendant_stake node) (lazy_fees node) node_total);
        own_fees ← lift (checked_sub_res (lazy_fees node) remaining);
        mutate_node index (
          node ← get;
          f ← lift (checked_add_res 128 (fees node) own_fees);
          modify (set_fees f)) ;;
        t ← get;
        c ← lift (children t index);
        remaining ← give_left remaining (descendant_stake node) (lhs c);
        give_right remaining (rhs c)) ;;
     mutate_node index (modify (set_lazy_fees 0))).
Proof. reflexivity. Qed.

Lemma mutate_add_fees_ok i (g : Node -> Z) t u t' :
  mutate_node i (
    node ← get;
    f ← lift (checked_add_res 128 (fees node) (g node));
    modify (set_fees f)) t = (Ok u, t') ->
  exists n, nodes t !! Z.to_nat i = Some n /\ fees n + g n <= umax 128 /\
    t' = set_nodes (<[Z.to_nat i := set_fees (fees n + g n) n]> (nodes t)) t.
Proof. intros H. tree_run H. eauto. Qed.

Lemma mutate_modify_ok i f t u t' :
  mutate_node i (modify f) t = (Ok u, t') ->
  exists n, nodes t !! Z.to_nat i = Some n /\
    t' = set_nodes (<[Z.to_nat i := f n]> (nodes t)) t.
Proof. intros H. tree_run H. eauto. Qed.

Lemma lookup_set_nodes t i n m :
  nodes t !! i = Some n -> nodes (set_nodes (<[i := m]> (nodes t)) t) !! i = Some m.
Proof. intros H. apply list_lookup_insert_eq. by eapply lookup_lt_Some. Qed.

(** What a step of propagation at node [n] with index [i] loses: the part of
    the remaining fees [rem] that the left child does not take when there is
    no right child. *)
Definition lost_at (t : LiquidityTree) (i : Z) (n : Node) (d : Z) : Prop :=
  node_count t <= 2 * i + 2 /\ 0 < descendant_stake n /\
  exists rem r,
    bmul_bdiv 128 (descendant_stake n) (lazy_fees n) (stake n + descendant_stake n) = Ok rem /\
    0 <= rem <= lazy_fees n /\ d = r /\
    (2 * i + 1 < node_count t ->
     exists nl, nodes t !! Z.to_nat (2 * i + 1) = Some nl /\
     bmul_bdiv 128 (stake nl + descendant_stake nl) rem (descendant_stake n) = Ok (rem - r)).

(** A step of propagation only moves fees; the fees it loses are those of
    [lost_at]. *)
Lemma propagate_fees_ok i t u t' :
  0 <= i -> Forall node_ok (nodes t) -> propagate_fees i t = (Ok u, t') ->
  exists n d,
    nodes t !! Z.to_nat i = Some n /\ fee_delta (- d) t t' /\ 0 <= d /\
    (d = 0 \/ lost_at t i n d).
Proof.
  intros Hi Hall. rewrite propagate_fees_unfold. intros H.
  apply bind_ok in H as (n & s1 & Hn & H). apply get_node_ok in Hn as [Hn ->].
  apply bind_ok in H as (tot & s2 & Htot & H). run_step Htot. unfold total_stake in Htot. checked.
  exists n. pose proof (lookup_ok _ _ _ Hall Hn) as (Hs & Hf & Hd & Hl). unfold fits in *.
  case_match eqn:Etot; rewrite ?Z.eqb_eq, ?Z.eqb_neq in Etot.
  { run_step H. exists 0. split_and!; [done|apply fee_delta_refl|lia|by left]. }
  apply bind_ok in H as (v & s3 & H & Hclear). apply mutate_modify_ok in Hclear as (m & Hm & ->).
  unfold is_weak_leaf in H. destruct (Z.eqb_spec (descendant_stake n) 0) as [Hw|Hw].
  { apply mutate_add_fees_ok in H as (n1 & Hn1 & Hb & ->). simplify_eq.
    erewrite lookup_set_nodes in Hm by done. simplify_eq. exists 0.
    split_and!; [done| |lia|by left].
    eapply fee_delta_trans; [apply (add_fees_delta t (Z.to_nat i) n (lazy_fees n)); [done|lia|done]|
      eapply clear_lazy_delta; by eapply lookup_set_nodes|simpl; lia]. }
  apply bind_ok in H as (tot & s4 & Htot & H). run_step Htot. unfold total_stake in Htot. checked.
  apply bind_ok in H as (rem & s5 & Hrem & H). run_step Hrem.
  apply bind_ok in H as (own & s6 & Hown & H). run_step Hown. checked.
  apply bind_ok in H as (v1 & s7 & Hup & H). apply mutate_add_fees_ok in Hup as (n1 & Hn1 & Hb & ->).
  simplify_eq. apply bind_ok in H as (t1 & s8 & Hget & H). run_step Hget.
  apply bind_ok in H as (c & s9 & Hc & H). run_step Hc. apply children_ok in Hc as [Hlc Hrc]; [|done].
  apply bind_ok in H as (r & s10 & Hleft & Hright).
  assert (0 <= rem) by (eapply bmul_bdiv_nonneg, Hrem; lia).
  pose proof (add_fees_delta t _ n (lazy_fees n - rem) Hn ltac:(lia) Hb) as Hd1.
  set (t1 := set_nodes (<[_ := _]> (nodes t)) t) in *.
  assert (node_count t1 = node_count t) as Hcount
    by (unfold node_count, t1; simpl; by rewrite length_insert).
  apply (give_left_ok _ _ _ _ _ _ (Z.to_nat i)) in Hleft as (Hr & Hu & Hd2 & Hl1 & Hl2);
    [|lia|lia|by apply Hd1|intros l Hl0; rewrite Hlc in Hl0; apply if_some_eq in Hl0 as ->; lia].
  apply (give_right_ok _ _ _ _ _ (Z.to_nat i)) in Hright as (Hu' & Hd3);
    [|lia|intros l Hl0; rewrite Hrc in Hl0; apply if_some_eq in Hl0 as ->; lia].
  assert (lazy_fees m = lazy_fees n) as Hm'.
  { rewrite Hu', Hu in Hm. unfold t1 in Hm. erewrite lookup_set_nodes in Hm by done. by simplify_eq. }
  assert (Hfinal : fee_delta (if rhs c then 0 else - r) t (set_nodes (<[Z.to_nat i := set_lazy_fees 0 m]> (nodes s3)) s3)).
  { eapply fee_delta_trans; [|eapply clear_lazy_delta, Hm|].
    - eapply fee_delta_trans; [|exact Hd3|done].
      eapply fee_delta_trans; [exact Hd1|exact Hd2|done].
    - rewrite Hm'. destruct (rhs c); lia. }
  rewrite Hrc, Hcount in Hfinal. destruct (Z.ltb_spec (2 * i + 2) (node_count t)).
  { exists 0. split_and!; [done..|by left]. }
  exists r. split_and!; [done|done|lia|right]. split_and!; [done|lia|].
  exists rem, r. split_and!; [done|lia|lia|done|].
  intros Hlt. destruct (Hl1 (2 * i + 1)) as (nl & Hnl & Hc').
  { rewrite Hlc, Hcount. by apply Z.ltb_lt in Hlt as ->. }
  exists nl. split; [|done]. unfold t1 in Hnl. simpl in Hnl.
  rewrite list_lookup_insert_ne in Hnl by lia. done.
Qed.

Lemma fee_delta_ok d t t' : fee_delta d t t' -> Forall node_ok (nodes t) -> Forall node_ok (nodes t').
Proof. intros (_ & H & _). done. Qed.

Lemma propagate_path_ok p t u t' :
  (forall z, z ∈ p -> 0 <= z) -> Forall node_ok (nodes t) ->
  for_each p propagate_fees t = (Ok u, t') -> exists d, 0 <= d /\ fee_delta (- d) t t'.
Proof.
  revert t. induction p as [|z p IH]; intros t Hpos Hall H; simpl in H.
  - run_step H. exists 0. split; [done|apply fee_delta_refl].
  - apply bind_ok in H as (v & t1 & H1 & H2).
    apply propagate_fees_ok in H1 as (n & d1 & _ & Hd1 & ? & _); [|set_solver|done].
    apply IH in H2 as (d2 & ? & Hd2); [|set_solver|by eapply fee_delta_ok].
    exists (d1 + d2). split; [lia|]. eapply fee_delta_trans; [done..|lia].
Qed.

Lemma path_to_node_ok D z p : 0 <= z -> path_to_node D z None = Ok p -> is_path p z.
Proof. intros Hz H. unfold path_to_node in H. run_step H. by eapply path_to_node_iter_ok. Qed.

(** Propagation to a node only moves fees, and never creates any. *)
Lemma propagate_to_node_ok D z t u t' :
  0 <= z -> Forall node_ok (nodes t) -> propagate_fees_to_node D z t = (Ok u, t') ->
  exists d, 0 <= d /\ fee_delta (- d) t t'.
Proof.
  unfold propagate_fees_to_node. intros Hz Hall H.
  apply bind_ok in H as (p & s & Hp & H). apply lift_ok in Hp as [Hp ->].
  apply path_to_node_ok in Hp; [|done]. eapply propagate_path_ok; eauto.
  intros y Hy. by apply (is_path_bound _ _ Hp).
Qed.
