(* ===== verification/LiquidityTreeInv.v ===== *)
(** * The liquidity tree: its invariant and the theorems

    The well-formedness of a tree, that every operation preserves it, and what
    the operations do to the shares and the fees. *)

From S2P Require Import Prelude Errors FixedMath LiquidityTree LiquidityTreeFacts.

(** ** Descendant stakes *)

(** The stake at and below index [i]. *)
Definition tot (t : LiquidityTree) (i : nat) : Z :=
  from_option (fun n => stake n + descendant_stake n) 0 (nodes t !! i).

(** Every node's [descendant_stake] is what its two children hold. *)
Definition desc_ok (t : LiquidityTree) : Prop :=
  forall i n, nodes t !! i = Some n ->
    descendant_stake n = tot t (2 * i + 1) + tot t (2 * i + 2).

(** Indicator of a path. *)
Definition onp (q : list Z) (z : Z) : Z := if decide (z ∈ q) then 1 else 0.

Lemma onp_app q z y : onp (q ++ [z]) y = if decide (y = z) then 1 else onp q y.
Proof.
  unfold onp. repeat case_decide; try done; exfalso; set_solver.
Qed.

(** A node has a child on the path iff it is on the path and not its end. *)
Lemma onp_children q j i :
  is_path q j -> 0 <= i ->
  onp q (2 * i + 1) + onp q (2 * i + 2) = onp q i - (if decide (i = j) then 1 else 0).
Proof.
  intros Hq Hi. pose proof (is_path_bound _ _ Hq) as [Hj Hb].
  assert (Hup : forall z, z = 2 * i + 1 \/ z = 2 * i + 2 -> z ∈ q -> i ∈ q /\ i <> j).
  { intros z Hz Hin. split.
    - rewrite <- (proj2 (parent_of_child z i ltac:(lia)) Hz). eapply is_path_parent; eauto. lia.
    - intros ->. specialize (Hb z Hin). lia. }
  pose proof (is_path_child q j i Hq). pose proof (is_path_self _ _ Hq).
  unfold onp. repeat case_decide; subst; try lia; exfalso; naive_solver.
Qed.

Lemma tot_skel t t' i : same_skel t t' -> tot t' i = tot t i.
Proof.
  intros H. unfold tot. destruct (nodes t' !! i) as [n'|] eqn:E.
  - destruct (same_skel_lookup _ _ _ _ H E) as (n & -> & Hs). unfold skel in Hs. simplify_eq/=. lia.
  - apply lookup_ge_None in E. rewrite (same_skel_length _ _ H) in E.
    apply lookup_ge_None in E. by rewrite E.
Qed.

Lemma desc_ok_skel t t' : same_skel t t' -> desc_ok t -> desc_ok t'.
Proof.
  intros H Hd i n' Hn'. destruct (same_skel_lookup _ _ _ _ H Hn') as (n & Hn & Hs).
  rewrite !(tot_skel _ _ _ H). unfold skel in Hs. simplify_eq. by rewrite <- (Hd _ _ Hn).
Qed.

(** ** The walk over the ancestors *)

Definition sgn (op : UpdateDescendantStakeOperation) : Z := match op with Add => 1 | Sub => -1 end.

Definition bump (x : Z) (n : Node) : Node := set_descendant_stake (descendant_stake n + x) n.

(** [bumped q x t t']: [t'] is [t] with the descendant stakes on [q] changed
    by [x], all of them still [u128] values. *)
Definition bumped (q : list Z) (x : Z) (t t' : LiquidityTree) : Prop :=
  account_to_index t' = account_to_index t /\ abandoned_nodes t' = abandoned_nodes t /\
  (forall i, nodes t' !! i =
     (fun n => if decide (Z.of_nat i ∈ q) then bump x n else n) <$> nodes t !! i) /\
  (forall i n, Z.of_nat i ∈ q -> nodes t !! i = Some n -> fits 128 (descendant_stake n) ->
     fits 128 (descendant_stake n + x)).

Lemma bump_one op d z t u t' :
  0 <= d -> 0 <= z ->
  mutate_node z (
    node ← get;
    d ← lift (match op with
              | Add => checked_add_res 128 (descendant_stake node) d
              | Sub => checked_sub_res (descendant_stake node) d
              end);
    modify (set_descendant_stake d)) t = (Ok u, t') ->
  exists n, nodes t !! Z.to_nat z = Some n /\
    (fits 128 (descendant_stake n) -> fits 128 (descendant_stake n + sgn op * d)) /\
    t' = set_nodes (<[Z.to_nat z := bump (sgn op * d) n]> (nodes t)) t.
Proof.
  intros Hd Hz H. apply mutate_node_ok in H as (n & n' & Hn & Hm & ->).
  exists n. run_step Hm. split; [done|]. unfold bump, fits.
  destruct op; checked; simpl; split; try lia; do 3 f_equal; lia.
Qed.

Lemma bump_path op d p t u t' :
  0 <= d -> NoDup p -> (forall z, z ∈ p -> 0 <= z) ->
  for_each p (fun i =>
    mutate_node i (
      node ← get;
      d ← lift (match op with
                | Add => checked_add_res 128 (descendant_stake node) d
                | Sub => checked_sub_res (descendant_stake node) d
                end);
      modify (set_descendant_stake d))) t = (Ok u, t') ->
  bumped p (sgn op * d) t t'.
Proof.
  intros Hd. revert t. induction p as [|z p IH]; intros t Hnd Hpos H; simpl in H.
  { run_step H. split_and!; [done..| |set_solver]. intros i. by destruct (nodes t !! i). }
  apply bind_ok in H as (v & t1 & H1 & H2). apply NoDup_cons in Hnd as [Hz Hnd].
  apply bump_one in H1 as (n & Hn & Hfit & ->); [|done|set_solver].
  destruct (IH _ Hnd ltac:(set_solver) H2) as (Ha & Hb & Hl & Hf). simpl in *.
  assert (Hz0 : 0 <= z) by set_solver. split_and!; [done..| |].
  - intros i. rewrite Hl. destruct (decide (Z.of_nat i = z)) as [<-|Hne].
    + rewrite Nat2Z.id in *. rewrite list_lookup_insert_eq by (by eapply lookup_lt_Some).
      rewrite Hn. simpl. rewrite decide_False, decide_True by set_solver. done.
    + rewrite list_lookup_insert_ne by lia. destruct (nodes t !! i); simpl; [|done].
      repeat case_decide; set_solver.
  - intros i m Hi Hm Hmf. destruct (decide (Z.of_nat i = z)) as [<-|Hne].
    + rewrite Nat2Z.id in *. naive_solver.
    + apply (Hf i); [set_solver| |done]. by rewrite list_lookup_insert_ne by lia.
Qed.

Lemma update_ancestors_ok D op j d t u t' :
  0 <= d -> 0 <= j ->
  update_descendant_stake_of_ancestors D j d op t = (Ok u, t') ->
  exists p, is_path p j /\ bumped p (sgn op * d) t t'.
Proof.
  unfold update_descendant_stake_of_ancestors. intros Hd Hj H.
  apply bind_ok in H as (p & s & Hp & H). apply lift_ok in Hp as [Hp ->].
  unfold path_to_node in Hp. run_step Hp. simpl in Hp. apply path_to_node_iter_ok in Hp; [|done].
  exists p. split; [done|]. eapply bump_path; eauto using is_path_nodup.
  intros z Hz. by apply (is_path_bound _ _ Hp).
Qed.

(** The last step of [join] and [exit]: bump the ancestors of [j], if any. *)
Lemma bump_parent_ok D op j d t u t' :
  0 <= d -> 0 <= j ->
  match parent_index j with
  | Some parent_index => update_descendant_stake_of_ancestors D parent_index d op
  | None => mret tt
  end t = (Ok u, t') ->
  exists p, is_path (p ++ [j]) j /\ bumped p (sgn op * d) t t'.
Proof.
  intros Hd Hj. rewrite parent_index_spec by done. destruct (Z.eqb_spec j 0) as [->|Hne].
  - intros H. run_step H. exists []. split; [constructor|]. split_and!; [done..| |set_solver].
    intros i. by destruct (nodes t !! i).
  - pose proof (parent_lt j ltac:(lia)). intros (p & Hp & Hb)%update_ancestors_ok; [|lia..].
    exists p. split; [|done]. constructor; [lia|done].
Qed.

(** Once the stake at [j] has moved by [x], bumping its ancestors by [x]
    makes all descendant stakes right again. *)
Lemma bumped_desc_ok q j x t0 t1 t' :
  is_path (q ++ [j]) j ->
  (forall k, tot t1 k = tot t0 k + (if decide (Z.of_nat k = j) then x else 0)) ->
  (forall i n, nodes t1 !! i = Some n ->
     descendant_stake n = tot t0 (2 * i + 1) + tot t0 (2 * i + 2)) ->
  (forall z, z ∈ q -> is_Some (nodes t1 !! Z.to_nat z)) ->
  bumped q x t1 t' ->
  desc_ok t' /\ forall k, tot t' k = tot t0 k + x * onp (q ++ [j]) (Z.of_nat k).
Proof.
  intros Hq Htot Hdesc Hex (_ & _ & Hl & _).
  assert (Hj : j ∉ q). { apply is_path_nodup, NoDup_app in Hq. set_solver. }
  assert (Hpos : forall z, z ∈ q -> 0 <= z).
  { intros z Hz. apply (is_path_bound _ _ Hq). set_solver. }
  assert (Htot' : forall k, tot t' k = tot t0 k + x * onp (q ++ [j]) (Z.of_nat k)).
  { intros k. specialize (Htot k). unfold tot in *. rewrite Hl, onp_app. unfold onp.
    destruct (nodes t1 !! k) as [n|] eqn:E; simpl in *.
    - repeat case_decide; subst; try done; unfold bump; simpl; try lia; by exfalso.
    - destruct (decide (Z.of_nat k ∈ q)) as [Hin|]; [|repeat case_decide; lia].
      destruct (Hex _ Hin) as [n Hn]. rewrite Nat2Z.id in Hn. congruence. }
  split; [|done]. intros i n' Hn'. rewrite Hl in Hn'.
  destruct (nodes t1 !! i) as [n|] eqn:E; [|done]. apply (inj Some) in Hn' as <-.
  rewrite !Htot'. specialize (Hdesc i n E).
  pose proof (onp_children _ _ (Z.of_nat i) Hq ltac:(lia)) as Hc.
  rewrite (onp_app q j (Z.of_nat i)) in Hc.
  replace (Z.of_nat (2 * i + 1)) with (2 * Z.of_nat i + 1) by lia.
  replace (Z.of_nat (2 * i + 2)) with (2 * Z.of_nat i + 2) by lia.
  apply (f_equal (Z.mul x)) in Hc. rewrite Z.mul_add_distr_l in Hc.
  assert (x * ((if decide (Z.of_nat i = j) then 1 else onp q (Z.of_nat i))
               - (if decide (Z.of_nat i = j) then 1 else 0)) = x * onp q (Z.of_nat i)) as Hx.
  { unfold onp. repeat case_decide; subst; try done; lia. }
  rewrite Hx in Hc. unfold onp in Hc at 3. clear Hx. repeat case_decide; try done; cbn [bump set_descendant_stake descendant_stake]; lia.
Qed.

(** ** Well-formed trees *)

Section WellFormed.
(** The maximal depth. *)
Variable D : Z.

(** Owners, the account index and the list of abandoned nodes agree. *)
Record accounts_ok (t : LiquidityTree) : Prop := {
  acc_size : 0 < node_count t <= max_node_count D;
  acc_nodes : Forall node_ok (nodes t);
  acc_index : forall a z, account_to_index t !! a = Some z <->
    0 <= z /\ exists n, nodes t !! Z.to_nat z = Some n /\ account n = Some a;
  acc_free : forall z, z ∈ abandoned_nodes t <->
    0 <= z /\ exists n, nodes t !! Z.to_nat z = Some n /\ account n = None;
  acc_free_nodup : NoDup (abandoned_nodes t);
  acc_free_stake : forall i n, nodes t !! i = Some n -> account n = None -> stake n = 0
}.

(** The invariant of the tree. *)
Definition wf (t : LiquidityTree) : Prop := accounts_ok t /\ desc_ok t.

Lemma owners_skel t t' z o :
  same_skel t t' ->
  (exists n, nodes t !! z = Some n /\ account n = o) <->
  (exists n, nodes t' !! z = Some n /\ account n = o).
Proof.
  intros Hs. split; intros (n & Hn & Ho).
  - destruct (same_skel_lookup _ _ _ _ (same_skel_sym _ _ Hs) Hn) as (n' & Hn' & E).
    unfold skel in E. exists n'. split; congruence.
  - destruct (same_skel_lookup _ _ _ _ Hs Hn) as (n' & Hn' & E).
    unfold skel in E. exists n'. split; congruence.
Qed.

Lemma accounts_ok_skel t t' :
  same_skel t t' -> Forall node_ok (nodes t') -> accounts_ok t -> accounts_ok t'.
Proof.
  intros Hs Hok [H1 H2 H3 H4 H5 H6]. pose proof Hs as (_ & Hi & Ha). split.
  - unfold node_count. by rewrite (same_skel_length _ _ Hs).
  - done.
  - intros a z. rewrite Hi, H3. by setoid_rewrite (owners_skel t t' (Z.to_nat z) (Some a) Hs).
  - intros z. rewrite Ha, H4. by setoid_rewrite (owners_skel t t' (Z.to_nat z) None Hs).
  - by rewrite Ha.
  - intros i n Hn Hnone. destruct (same_skel_lookup _ _ _ _ Hs Hn) as (n' & Hn' & E).
    injection E as E1 E2 E3. rewrite <- E2. eapply H6; [done|congruence].
Qed.

Lemma wf_skel t t' : same_skel t t' -> Forall node_ok (nodes t') -> wf t -> wf t'.
Proof. intros ? ? []. split; [by eapply accounts_ok_skel|by eapply desc_ok_skel]. Qed.

Lemma wf_fee_delta d t t' : fee_delta d t t' -> wf t -> wf t'.
Proof.
  intros (Hs & Hok & _) Hwf. eapply wf_skel; [done| |done]. apply Hok. apply Hwf.
Qed.

(** A bump keeps owners and stakes. *)
Lemma bumped_accounts q x t t' : bumped q x t t' -> accounts_ok t -> accounts_ok t'.
Proof.
  intros (Hi & Ha & Hl & Hf) [H1 H2 H3 H4 H5 H6].
  assert (Hown : forall z o,
    (exists n, nodes t !! z = Some n /\ account n = o) <->
    (exists n, nodes t' !! z = Some n /\ account n = o)).
  { intros z o. rewrite Hl. destruct (nodes t !! z) as [n|]; simpl; [|naive_solver].
    case_decide; naive_solver. }
  assert (Hlen : length (nodes t') = length (nodes t)).
  { apply Nat.le_antisymm; apply Nat.nlt_ge; intros Hlt;
      apply lookup_lt_is_Some_2 in Hlt as [n Hn].
    - rewrite Hl in Hn. destruct (nodes t !! _) eqn:E; [|done].
      apply lookup_lt_Some in E. lia.
    - specialize (Hl (length (nodes t'))). rewrite Hn in Hl.
      by rewrite (proj2 (lookup_ge_None (nodes t') _)) in Hl. }
  split.
  - unfold node_count. by rewrite Hlen.
  - apply Forall_lookup_2. intros i n' Hn'. rewrite Hl in Hn'.
    destruct (nodes t !! i) as [n|] eqn:E; simplify_eq/=.
    pose proof (lookup_ok _ _ _ H2 E) as Hok. case_decide; [|done].
    destruct Hok as (Ho1 & Ho2 & Ho3 & Ho4).
    specialize (Hf _ _ H E Ho3). by split_and!.
  - intros a z. rewrite Hi, H3. by setoid_rewrite (Hown (Z.to_nat z) (Some a)).
  - intros z. rewrite Ha, H4. by setoid_rewrite (Hown (Z.to_nat z) None).
  - by rewrite Ha.
  - intros i n' Hn' Hnone. rewrite Hl in Hn'.
    destruct (nodes t !! i) as [n|] eqn:E; simplify_eq/=.
    case_decide; [change (stake n = 0)|]; by eapply H6.
Qed.

(** Changing one node without changing its owner. *)
Lemma accounts_ok_update t z n n' :
  nodes t !! z = Some n -> account n' = account n -> node_ok n' ->
  (account n' = None -> stake n' = 0) ->
  accounts_ok t -> accounts_ok (set_nodes (<[z := n']> (nodes t)) t).
Proof.
  intros Hn Hacc Hok Hst [H1 H2 H3 H4 H5 H6].
  assert (Hown : forall i o,
    (exists m, nodes t !! i = Some m /\ account m = o) <->
    (exists m, <[z := n']> (nodes t) !! i = Some m /\ account m = o)).
  { intros i o. rewrite list_lookup_insert. apply lookup_lt_Some in Hn as Hlt.
    case_decide as E; [|done]. destruct E as [<- _]. rewrite Hn. naive_solver congruence. }
  split; simpl.
  - unfold node_count in *. simpl. by rewrite length_insert.
  - by apply Forall_insert_ok.
  - intros a y. rewrite H3. by setoid_rewrite (Hown (Z.to_nat y) (Some a)).
  - intros y. rewrite H4. by setoid_rewrite (Hown (Z.to_nat y) None).
  - done.
  - intros i m Hm Hnone. rewrite list_lookup_insert in Hm.
    case_decide; simplify_eq; [by apply Hst|]. by eapply H6.
Qed.

(** ** Assigning and abandoning nodes *)

Lemma lookup_insert_cases (l : list Node) z n' i m :
  <[z := n']> l !! i = Some m -> (i = z /\ m = n') \/ (i <> z /\ l !! i = Some m).
Proof.
  rewrite list_lookup_insert. case_decide as E.
  - destruct E as [<- _]. intros [= <-]. by left.
  - intros H. right. split; [|done]. intros ->. apply E. split; [done|by eapply lookup_lt_Some].
Qed.

(** An abandoned node, taken from the end of the list, gets a new owner. *)
Lemma accounts_ok_reassign t z n n' who :
  last (abandoned_nodes t) = Some z -> account_to_index t !! who = None ->
  nodes t !! Z.to_nat z = Some n -> account n' = Some who -> node_ok n' ->
  accounts_ok t ->
  accounts_ok (mkTree (<[Z.to_nat z := n']> (nodes t)) (<[who := z]> (account_to_index t))
                      (take (length (abandoned_nodes t) - 1) (abandoned_nodes t))).
Proof.
  intros Hlast Hwho Hn Hacc Hok [H1 H2 H3 H4 H5 H6].
  apply last_Some in Hlast as [l Hl]. rewrite Hl in *.
  rewrite length_app, Nat.add_sub, take_app_length. simpl.
  apply NoDup_app in H5 as (H5 & Hzl & _).
  destruct (proj1 (H4 z) ltac:(set_solver)) as (Hz & n0 & Hn0 & Hnone).
  assert (n0 = n) as -> by congruence.
  apply lookup_lt_Some in Hn as Hlt. split; simpl.
  - unfold node_count in *. simpl. by rewrite length_insert.
  - by apply Forall_insert_ok.
  - intros a y. destruct (decide (a = who)) as [->|Hne].
    + rewrite lookup_insert_eq. split.
      * intros [= <-]. split; [done|]. exists n'. by rewrite list_lookup_insert_eq.
      * intros (Hy & m & [[E _]|[_ Hm]]%lookup_insert_cases & Hm'); [f_equal; lia|].
        assert (account_to_index t !! who = Some y) by (apply H3; eauto). congruence.
    + rewrite lookup_insert_ne by done. rewrite H3. split; intros (Hy & m & Hm & Hm').
      * split; [done|]. exists m. rewrite list_lookup_insert_ne; [done|]. intros E. rewrite E in Hn. congruence.
      * apply lookup_insert_cases in Hm as [[E ->]|[_ Hm]]; [congruence|]. eauto.
  - intros y. transitivity (y ∈ l ++ [z] /\ y <> z); [set_solver|]. rewrite H4. split.
    + intros [(Hy & m & Hm & Hm') Hyz]. split; [done|]. exists m.
      rewrite list_lookup_insert_ne by lia. done.
    + intros (Hy & m & [[E ->]|[Hne Hm]]%lookup_insert_cases & Hm'); [congruence|].
      split; [eauto|]. by intros ->.
  - done.
  - intros i m [[-> ->]|[_ Hm]]%lookup_insert_cases Hm'; [congruence|by eapply H6].
Qed.

(** A new leaf. *)
Lemma accounts_ok_leaf t who stk :
  account_to_index t !! who = None -> fits 128 stk -> node_count t < max_node_count D ->
  accounts_ok t ->
  accounts_ok (mkTree (nodes t ++ [Node_new who stk])
                      (<[who := node_count t]> (account_to_index t)) (abandoned_nodes t)).
Proof.
  intros Hwho Hfit Hlt [H1 H2 H3 H4 H5 H6]. unfold node_count in *.
  assert (Hcase : forall i m, (nodes t ++ [Node_new who stk]) !! i = Some m ->
    (i = length (nodes t) /\ m = Node_new who stk) \/ nodes t !! i = Some m).
  { intros i m [Hm|[Hge Hm]]%lookup_app_Some; [by right|left].
    destruct (i - length (nodes t))%nat eqn:E; simplify_eq/=. split; [lia|done]. }
  assert (Hold : forall i m, nodes t !! i = Some m -> (nodes t ++ [Node_new who stk]) !! i = Some m)
    by (intros; by apply lookup_app_l_Some).
  split; simpl.
  - unfold node_count. simpl. rewrite length_app. simpl. lia.
  - apply Forall_app. split; [done|]. constructor; [|constructor].
    unfold node_ok, fits in *. simpl. lia.
  - intros a y. destruct (decide (a = who)) as [->|Hne].
    + rewrite lookup_insert_eq. split.
      * intros [= <-]. split; [lia|]. exists (Node_new who stk).
        rewrite Nat2Z.id, lookup_app_r, Nat.sub_diag by lia. done.
      * intros (Hy & m & [[E _]|Hm]%Hcase & Hm'); [f_equal; lia|].
        assert (account_to_index t !! who = Some y) by (apply H3; eauto). congruence.
    + rewrite lookup_insert_ne by done. rewrite H3.
      split; intros (Hy & m & Hm & Hm'); [by eauto 6|].
      apply Hcase in Hm as [[_ ->]|Hm]; [simpl in Hm'; congruence|eauto].
  - intros y. rewrite H4. split; intros (Hy & m & Hm & Hm'); [by eauto 6|].
    apply Hcase in Hm as [[_ ->]|Hm]; [simpl in Hm'; congruence|eauto].
  - done.
  - intros i m [[_ ->]|Hm]%Hcase Hm'; [simpl in Hm'; congruence|by eapply H6].
Qed.

(** The owner of a node leaves. *)
Lemma accounts_ok_abandon t z n n' who :
  account_to_index t !! who = Some z -> nodes t !! Z.to_nat z = Some n ->
  account n' = None -> stake n' = 0 -> node_ok n' -> accounts_ok t ->
  accounts_ok (mkTree (<[Z.to_nat z := n']> (nodes t)) (delete who (account_to_index t))
                      (abandoned_nodes t ++ [z])).
Proof.
  intros Hwho Hn Hacc Hst Hok [H1 H2 H3 H4 H5 H6].
  destruct (proj1 (H3 who z) Hwho) as (Hz & n0 & Hn0 & Hown).
  assert (n0 = n) as -> by congruence. apply lookup_lt_Some in Hn as Hlt. split; simpl.
  - unfold node_count in *. simpl. by rewrite length_insert.
  - by apply Forall_insert_ok.
  - intros a y. destruct (decide (a = who)) as [->|Hne].
    + rewrite lookup_delete_eq. split; [done|].
      intros (Hy & m & [[E ->]|[Hyz Hm]]%lookup_insert_cases & Hm'); [congruence|].
      assert (account_to_index t !! who = Some y) by (apply H3; eauto).
      assert (y = z) as -> by congruence. done.
    + rewrite lookup_delete_ne by done. rewrite H3. split; intros (Hy & m & Hm & Hm').
      * split; [done|]. exists m. rewrite list_lookup_insert_ne; [done|]. intros E. rewrite E in Hn. congruence.
      * apply lookup_insert_cases in Hm as [[E ->]|[_ Hm]]; [congruence|]. eauto.
  - intros y. rewrite elem_of_app, list_elem_of_singleton, H4. split.
    + intros [(Hy & m & Hm & Hm')| ->].
      * split; [done|]. exists m. rewrite list_lookup_insert_ne; [done|]. intros E. rewrite E in Hn. congruence.
      * split; [done|]. exists n'. by rewrite list_lookup_insert_eq.
    + intros (Hy & m & [[E ->]|[_ Hm]]%lookup_insert_cases & Hm'); [right; lia|eauto].
  - apply NoDup_app. split_and!; [done| |apply NoDup_singleton].
    intros y (Hy & m & Hm & Hm')%H4 ->%list_elem_of_singleton. congruence.
  - intros i m [[-> ->]|[_ Hm]]%lookup_insert_cases Hm'; [done|by eapply H6].
Qed.

(** ** One move of stake *)

(** The shares of an account, zero when it has no node. *)
Definition shares (t : LiquidityTree) (a : AccountId) : Z :=
  from_option (fun z => from_option stake 0 (nodes t !! Z.to_nat z)) 0 (account_to_index t !! a).

(** [t1] is [t0] with the stake of node [j] moved by [x], before the
    ancestors are updated. *)
Record staged (t0 t1 : LiquidityTree) (j x : Z) : Prop := {
  st_accounts : accounts_ok t1;
  st_index : 0 <= j;
  st_node : is_Some (nodes t1 !! Z.to_nat j);
  st_tot : forall k, tot t1 k = tot t0 k + (if decide (Z.of_nat k = j) then x else 0);
  st_desc : forall i n, nodes t1 !! i = Some n ->
    descendant_stake n = tot t0 (2 * i + 1) + tot t0 (2 * i + 2)
}.

Lemma is_path_zero p z : is_path p z -> 0 ∈ p.
Proof. induction 1; set_solver. Qed.

Definition view (n : Node) := (account n, stake n, fees n, lazy_fees n).

Lemma bumped_view q x t t' : bumped q x t t' -> view <$> nodes t' = view <$> nodes t.
Proof.
  intros (_ & _ & Hl & _). apply list_eq. intros i. rewrite !list_lookup_fmap, Hl.
  destruct (nodes t !! i); simpl; [|done]. by case_decide.
Qed.

Lemma bumped_fees q x t t' : bumped q x t t' -> total_fees t' = total_fees t.
Proof.
  intros H%bumped_view. unfold total_fees. revert H. generalize (nodes t), (nodes t').
  intros l l'. revert l. induction l' as [|n' l' IH]; intros [|n l] H; simplify_eq/=; [done|].
  unfold view in *. simplify_eq. rewrite (IH l) by done. unfold node_fees. congruence.
Qed.

Lemma bumped_shares q x t t' a : bumped q x t t' -> shares t' a = shares t a.
Proof.
  intros (Hi & _ & Hl & _). unfold shares. rewrite Hi.
  destruct (account_to_index t !! a) as [z|]; simpl; [|done]. rewrite Hl.
  destruct (nodes t !! _); simpl; [|done]. by case_decide.
Qed.

(** Updating the ancestors turns a staged move into a well-formed tree, in
    which the whole stake has moved by [x]. *)
Lemma finish_move t0 t1 t' j op d u :
  0 <= d -> staged t0 t1 j (sgn op * d) ->
  match parent_index j with
  | Some parent_index => update_descendant_stake_of_ancestors D parent_index d op
  | None => mret tt
  end t1 = (Ok u, t') ->
  wf t' /\ tot t' 0 = tot t0 0 + sgn op * d /\ total_fees t' = total_fees t1 /\
  account_to_index t' = account_to_index t1 /\ (forall a, shares t' a = shares t1 a).
Proof.
  intros Hd [Hacc Hj [nj Hnj] Htot Hdesc] H.
  apply bump_parent_ok in H as (q & Hq & Hb); [|done..].
  apply lookup_lt_Some in Hnj.
  destruct (bumped_desc_ok q j (sgn op * d) t0 t1 t' Hq Htot Hdesc) as [Hok Htot']; [|done|].
  { intros z Hz. apply lookup_lt_is_Some_2.
    pose proof (proj2 (is_path_bound _ _ Hq) z ltac:(set_solver)). lia. }
  split_and!.
  - split; [by eapply bumped_accounts|done].
  - rewrite Htot'. apply is_path_zero in Hq. unfold onp. rewrite decide_True by done. lia.
  - by eapply bumped_fees.
  - apply Hb.
  - intros a. by eapply bumped_shares.
Qed.

Lemma stage_update t0 tp t1 j n n' x :
  desc_ok t0 -> skel <$> nodes tp = skel <$> nodes t0 ->
  0 <= j -> nodes tp !! Z.to_nat j = Some n -> nodes t1 = <[Z.to_nat j := n']> (nodes tp) ->
  stake n' = stake n + x -> descendant_stake n' = descendant_stake n ->
  accounts_ok t1 -> staged t0 t1 j x.
Proof.
  intros Hd Hs Hj Hn E1 Est Eds Hacc.
  set (t2 := mkTree (nodes tp) (account_to_index t0) (abandoned_nodes t0)).
  assert (Hs2 : same_skel t0 t2) by done.
  assert (Hd2 : desc_ok t2) by (by eapply desc_ok_skel).
  apply lookup_lt_Some in Hn as Hlt. split; [done|done| | |].
  - rewrite E1, list_lookup_insert_eq by done. eauto.
  - intros k. rewrite <- (tot_skel _ _ _ Hs2). unfold tot. rewrite E1. simpl.
    destruct (decide (Z.of_nat k = j)) as [<-|Hne].
    + rewrite Nat2Z.id in *. rewrite list_lookup_insert_eq, Hn by done. simpl. lia.
    + rewrite list_lookup_insert_ne by lia. lia.
  - intros i m Hm. rewrite E1 in Hm. rewrite <- !(tot_skel _ _ _ Hs2).
    apply lookup_insert_cases in Hm as [[-> ->]|[_ Hm]]; [rewrite Eds|]; by apply Hd2.
Qed.

Lemma stage_leaf t0 tp t1 who stk :
  desc_ok t0 -> skel <$> nodes tp = skel <$> nodes t0 ->
  nodes t1 = nodes tp ++ [Node_new who stk] -> accounts_ok t1 ->
  staged t0 t1 (node_count tp) stk.
Proof.
  intros Hd Hs E1 Hacc.
  set (t2 := mkTree (nodes tp) (account_to_index t0) (abandoned_nodes t0)).
  assert (Hs2 : same_skel t0 t2) by done.
  assert (Hd2 : desc_ok t2) by (by eapply desc_ok_skel).
  assert (Hcase : forall k, nodes t1 !! k =
    if decide (k = length (nodes tp)) then Some (Node_new who stk) else nodes tp !! k).
  { intros k. rewrite E1. case_decide as E; [subst|].
    - by rewrite lookup_app_r, Nat.sub_diag by lia.
    - destruct (decide (k < length (nodes tp))%nat); [by rewrite lookup_app_l|].
      rewrite (proj2 (lookup_ge_None _ _)), (proj2 (lookup_ge_None _ _)); [done|lia|].
      rewrite length_app. simpl. lia. }
  assert (Htot : forall k, tot t1 k = tot t2 k + (if decide (Z.of_nat k = node_count tp) then stk else 0)).
  { intros k. unfold tot, node_count. rewrite Hcase. simpl.
    repeat case_decide; try lia. subst. simpl.
    rewrite (proj2 (lookup_ge_None (nodes tp) _)) by done. simpl. lia. }
  split; [done|unfold node_count; lia| | |].
  - rewrite Hcase. unfold node_count. rewrite Nat2Z.id, decide_True by done. eauto.
  - intros k. rewrite Htot. by rewrite (tot_skel _ _ _ Hs2).
  - intros i m Hm. rewrite Hcase in Hm. rewrite <- !(tot_skel _ _ _ Hs2).
    case_decide; [|by apply Hd2]. simplify_eq. unfold tot. simpl nodes.
    rewrite !(proj2 (lookup_ge_None (nodes tp) _)) by lia. done.
Qed.

(** ** [join] *)

(** The first part of [join]: find or make a node, and give it the stake. *)
Record placed (t t1 : LiquidityTree) (who : AccountId) (j stk : Z) : Prop := {
  pl_staged : staged t t1 j stk;
  pl_fees : total_fees t1 <= total_fees t;
  pl_index : account_to_index t1 = <[who := j]> (account_to_index t);
  pl_stake : from_option stake 0 (nodes t1 !! Z.to_nat j) = shares t who + stk;
  pl_others : forall i, i <> Z.to_nat j ->
    from_option stake 0 (nodes t1 !! i) = from_option stake 0 (nodes t !! i)
}.

Lemma stake_skel t t' i :
  skel <$> nodes t' = skel <$> nodes t ->
  from_option stake 0 (nodes t' !! i) = from_option stake 0 (nodes t !! i).
Proof.
  intros H%(f_equal (lookup i)). rewrite !list_lookup_fmap in H.
  destruct (nodes t !! i), (nodes t' !! i); simplify_eq/=; unfold skel in *; by simplify_eq.
Qed.

Lemma placed_in_place t t1 who j stk u :
  wf t -> fits 128 stk -> account_to_index t !! who = Some j ->
  (propagate_fees_to_node D j ;;
   mutate_node j (
     node ← get;
     s ← lift (checked_add_res 128 (stake node) stk);
     modify (set_stake s))) t = (Ok u, t1) ->
  placed t t1 who j stk.
Proof.
  intros [Hacc Hd] Hstk Hwho H. apply bind_ok in H as (v & tp & Hp & H).
  destruct (proj1 (acc_index _ Hacc who j) Hwho) as (Hj & n0 & Hn0 & Hown).
  apply propagate_to_node_ok in Hp as (d & Hd0 & Hp); [|done|by apply Hacc].
  pose proof Hp as ((Hs & Hi & Ha) & Hok & Hf).
  assert (Haccp : accounts_ok tp) by (eapply accounts_ok_skel; [by split_and!|by apply Hok, Hacc|done]).
  apply mutate_node_ok in H as (n & n' & Hn & Hm & ->). run_step Hm. checked.
  pose proof (lookup_ok _ _ _ (acc_nodes _ Haccp) Hn) as Hnok.
  assert (stake n = shares t who) as Hsh.
  { unfold shares. rewrite Hwho. simpl. rewrite <- (stake_skel _ _ _ Hs), Hn. done. }
  split.
  - eapply (stage_update t tp); eauto; try done.
    eapply accounts_ok_update; eauto; [|simpl; intros Hnone].
    + destruct Hnok as (? & ? & ? & ?). unfold node_ok, fits in *. simpl. lia.
    + destruct (same_skel_lookup t tp _ _ ltac:(by split_and!) Hn) as (n1 & Hn1 & E).
      injection E as E1 E2 E3. congruence.
  - unfold total_fees in *. simpl. rewrite (zsum_insert _ _ _ n) by done.
    change (node_fees (set_stake _ n)) with (node_fees n). lia.
  - simpl. rewrite Hi. by rewrite insert_id.
  - simpl. rewrite list_lookup_insert_eq by (by eapply lookup_lt_Some). simpl. lia.
  - intros i Hne. simpl. rewrite list_lookup_insert_ne by done. by apply stake_skel.
Qed.

Lemma try_insert_account_ok who j t u t' :
  try_insert_account D who j t = (Ok u, t') ->
  t' = set_account_to_index (<[who := j]> (account_to_index t)) t.
Proof. unfold try_insert_account. case_match; intros [=]; congruence. Qed.

Lemma try_push_node_ok n t u t' :
  try_push_node D n t = (Ok u, t') ->
  node_count t < max_node_count D /\ t' = set_nodes (nodes t ++ [n]) t.
Proof.
  unfold try_push_node. destruct (Z.ltb_spec (node_count t) (max_node_count D)); intros [=]; split; congruence.
Qed.

Lemma try_push_abandoned_ok j t u t' :
  try_push_abandoned D j t = (Ok u, t') ->
  t' = set_abandoned_nodes (abandoned_nodes t ++ [j]) t.
Proof. unfold try_push_abandoned. case_match; intros [=]; congruence. Qed.

Lemma take_last_ok t o t' :
  take_last_abandoned_node_index t = (Ok o, t') ->
  o = last (abandoned_nodes t) /\ nodes t' = nodes t /\
  account_to_index t' = account_to_index t /\
  abandoned_nodes t' = match o with
    | Some _ => take (length (abandoned_nodes t) - 1) (abandoned_nodes t)
    | None => abandoned_nodes t end.
Proof.
  unfold take_last_abandoned_node_index.
  destruct (last (abandoned_nodes t)); intros [= <- <-]; done.
Qed.

(** An account without a node takes over an abandoned one. *)
Lemma placed_reassigned t ta t1 t2 who z stk u v :
  wf t -> fits 128 stk -> account_to_index t !! who = None ->
  take_last_abandoned_node_index t = (Ok (Some z), ta) ->
  (propagate_fees_to_node D z ;;
   mutate_node z (
     modify (set_account (Some who)) ;; modify (set_stake stk) ;;
     modify (set_fees 0) ;; modify (set_lazy_fees 0))) ta = (Ok u, t1) ->
  try_insert_account D who z t1 = (Ok v, t2) ->
  placed t t2 who z stk.
Proof.
  intros [Hacc Hd] Hstk Hwho (Hlast & Hna & Hia & Haa)%take_last_ok H ->%try_insert_account_ok.
  simpl in Haa. symmetry in Hlast.
  assert (z ∈ abandoned_nodes t) as Hz by (apply last_Some_elem_of in Hlast; done).
  apply (acc_free _ Hacc) in Hz as (Hz & n0 & Hn0 & Hnone).
  pose proof (acc_free_stake _ Hacc _ _ Hn0 Hnone) as Hst0.
  apply bind_ok in H as (w & tp & Hp & H).
  apply propagate_to_node_ok in Hp as (d & Hd0 & Hp); [|done|rewrite Hna; by apply Hacc].
  destruct Hp as ((Hs & Hi & Ha) & Hok & Hf). rewrite Hna in Hs.
  rewrite Hna in Hok. specialize (Hok (acc_nodes _ Hacc)).
  apply mutate_node_ok in H as (n & n' & Hn & Hm & ->). run_step Hm. simpl.
  set (tq := mkTree (nodes tp) (account_to_index t) (abandoned_nodes t)).
  assert (Hsq : same_skel t tq) by done.
  assert (Haccq : accounts_ok tq) by (eapply accounts_ok_skel; done).
  destruct (same_skel_lookup t tq _ _ Hsq Hn) as (n1 & Hn1 & E). injection E as E1 E2 E3.
  assert (n1 = n0) as -> by congruence.
  pose proof (lookup_ok _ _ _ Hok Hn) as Hnok.
  split; simpl.
  - eapply (stage_update t tp); eauto; simpl; [lia|].
    unfold set_account_to_index, set_nodes. simpl.
    rewrite Hi, Hia, Ha, Haa. eapply (accounts_ok_reassign tq); eauto.
    destruct Hnok as (? & ? & ? & ?). unfold node_ok, fits in *. simpl. lia.
  - unfold total_fees in *. simpl. rewrite (zsum_insert _ _ _ n) by done. rewrite Hna in Hf.
    change (node_fees (set_lazy_fees _ _)) with 0.
    destruct Hnok as (? & ? & ? & ?). unfold fits in *.
    assert (0 <= node_fees n) by (unfold node_fees; lia). lia.
  - by rewrite Hi, Hia.
  - rewrite list_lookup_insert_eq by (by eapply lookup_lt_Some). unfold shares. by rewrite Hwho.
  - intros i Hne. rewrite list_lookup_insert_ne by done. by apply stake_skel.
Qed.

(** Or a new leaf. *)
Lemma placed_leaf t t1 t2 who z stk u v :
  wf t -> fits 128 stk -> account_to_index t !! who = None ->
  peek_next_free_leaf D t = Some z ->
  (match parent_index z with
   | Some parent_index => propagate_fees_to_node D parent_index
   | None => mret tt
   end ;;
   try_push_node D (Node_new who stk)) t = (Ok u, t1) ->
  try_insert_account D who z t1 = (Ok v, t2) ->
  placed t t2 who z stk.
Proof.
  intros [Hacc Hd] Hstk Hwho Hz H ->%try_insert_account_ok.
  apply if_some_eq in Hz as ->. apply bind_ok in H as (w & tp & Hp & H).
  assert (exists d, 0 <= d /\ fee_delta (- d) t tp) as (d & Hd0 & Hpp).
  { rewrite parent_index_spec in Hp by (unfold node_count; lia).
    destruct (Z.eqb_spec (node_count t) 0); [run_step Hp; exists 0; split; [done|apply fee_delta_refl]|].
    pose proof (parent_lt (node_count t) ltac:(unfold node_count in *; lia)).
    eapply propagate_to_node_ok; [|by apply Hacc|done]. lia. }
  pose proof Hpp as (Hsk & Hok & Hf). pose proof Hsk as (Hs & Hi & Ha).
  apply try_push_node_ok in H as [Hlt ->]. specialize (Hok (acc_nodes _ Hacc)).
  assert (node_count tp = node_count t) as Hcnt.
  { unfold node_count. by rewrite (same_skel_length _ _ Hsk). }
  assert (Haccp : accounts_ok tp) by (by eapply accounts_ok_skel).
  pose proof (accounts_ok_leaf tp who stk ltac:(congruence) Hstk Hlt Haccp) as Hacc2.
  rewrite <- Hcnt. split; simpl.
  - by eapply (stage_leaf t tp).
  - unfold total_fees in *. simpl. rewrite zsum_app. simpl. change (node_fees (Node_new who stk)) with 0. lia.
  - by rewrite Hi.
  - unfold node_count. rewrite Nat2Z.id, lookup_app_r, Nat.sub_diag by lia.
    unfold shares. rewrite Hwho. simpl. lia.
  - unfold node_count. rewrite Nat2Z.id. intros i Hne. rewrite <- (stake_skel t tp i Hs).
    destruct (decide (i < length (nodes tp))%nat); [by rewrite lookup_app_l|].
    rewrite !(proj2 (lookup_ge_None _ _)); [done|lia|]. rewrite length_app. simpl. lia.
Qed.

(** What a successful [join] or [exit] does to the shares. *)
Record shares_moved (t t' : LiquidityTree) (who : AccountId) (x : Z) : Prop := {
  sm_wf : wf t';
  sm_total : tot t' 0 = tot t 0 + x;
  sm_fees : total_fees t' <= total_fees t;
  sm_who : shares t' who = shares t who + x;
  sm_others : forall b, b <> who ->
    shares t' b = shares t b /\ account_to_index t' !! b = account_to_index t !! b
}.

Lemma placed_others t t1 who j x b :
  accounts_ok t1 -> account_to_index t1 !! who = Some j ->
  account_to_index t1 !! b = account_to_index t !! b ->
  (forall i, i <> Z.to_nat j ->
    from_option stake 0 (nodes t1 !! i) = from_option stake 0 (nodes t !! i)) ->
  x = who -> b <> x -> shares t1 b = shares t b.
Proof.
  intros Hacc Hwho Hi Hst -> Hb. unfold shares. rewrite Hi.
  destruct (account_to_index t !! b) as [z|] eqn:E; simpl; [|done]. apply Hst.
  intros Heq. pose proof (proj1 (acc_index _ Hacc _ _) Hwho) as (? & n & Hn & Hn').
  pose proof (proj1 (acc_index _ Hacc _ _) Hi) as (? & m & Hm & Hm').
  rewrite Heq in Hm. congruence.
Qed.

Lemma placed_finish t t1 t' who j stk u :
  0 <= stk -> placed t t1 who j stk ->
  match parent_index j with
  | Some parent_index => update_descendant_stake_of_ancestors D parent_index stk Add
  | None => mret tt
  end t1 = (Ok u, t') -> shares_moved t t' who stk.
Proof.
  intros Hstk [Hst Hf Hi Hs Ho] H.
  replace stk with (sgn Add * stk) in Hst by (simpl; lia).
  destruct (finish_move _ _ _ _ _ _ _ Hstk Hst H) as (Hwf & Htot & Hfees & Hidx & Hsh).
  assert (account_to_index t1 !! who = Some j) as Hwho by (rewrite Hi; apply lookup_insert_eq).
  assert (Hsame : forall b, b <> who -> account_to_index t1 !! b = account_to_index t !! b).
  { intros b Hb. rewrite Hi. by rewrite lookup_insert_ne. }
  split; [done|simpl in Htot; lia|lia| |].
  - rewrite Hsh. unfold shares at 1. rewrite Hwho. simpl. done.
  - intros b Hb. rewrite Hsh, Hidx. split; [|by apply Hsame].
    eapply placed_others; eauto. apply Hst.
Qed.

Lemma join_ok t who stk r t' :
  wf t -> fits 128 stk -> join D who stk t = (Ok r, t') ->
  shares_moved t t' who stk /\ is_Some (account_to_index t' !! who).
Proof.
  intros Hwf Hstk H. unfold join in H.
  apply bind_ok in H as (t0 & s0 & Hget & H). run_step Hget.
  apply bind_ok in H as ([j info] & t1 & Hplace & H).
  apply bind_ok in H as (u & t2 & Hfin & H). run_step H.
  assert (H0 : 0 <= stk) by apply Hstk.
  enough (Hpl : placed t t1 who j stk).
  { split; [by eapply placed_finish|].
    destruct Hpl as [Hst _ Hi _ _]. replace stk with (sgn Add * stk) in Hst by (simpl; lia).
    destruct (finish_move _ _ _ _ _ _ _ H0 Hst Hfin)
      as (_ & _ & _ & -> & _). rewrite Hi, lookup_insert_eq. eauto. }
  destruct (account_to_index t !! who) as [z|] eqn:Hwho.
  - apply bind_ok in Hplace as (u1 & s1 & Hp & Hplace).
    apply bind_ok in Hplace as (u2 & s2 & Hm & Hplace). run_step Hplace. simplify_eq.
    eapply placed_in_place; [done..|]. unfold mbind, st_bind. rewrite Hp. exact Hm.
  - apply bind_ok in Hplace as (o & ta & Htake & Hplace).
    apply bind_ok in Hplace as (t0 & s0 & Hget & Hplace). run_step Hget.
    apply bind_ok in Hplace as ([z info'] & t3 & Hnode & Hplace).
    apply bind_ok in Hplace as (u1 & s1 & Hins & Hplace). run_step Hplace. simplify_eq.
    pose proof (take_last_ok _ _ _ Htake) as (Hlast & Hna & Hia & Haa).
    destruct o as [z0|]; [|destruct (peek_next_free_leaf D ta) as [z0|] eqn:Hpeek; [|done]].
    + apply bind_ok in Hnode as (u2 & s2 & Hp & Hnode).
      apply bind_ok in Hnode as (u3 & s3 & Hm & Hnode). run_step Hnode. simplify_eq.
      eapply placed_reassigned; [done..| |done]. unfold mbind, st_bind. rewrite Hp. exact Hm.
    + assert (ta = t) as -> by (destruct ta, t; simpl in *; congruence).
      apply bind_ok in Hnode as (u2 & s2 & Hp & Hnode).
      apply bind_ok in Hnode as (u3 & s3 & Hm & Hnode). run_step Hnode. simplify_eq.
      eapply placed_leaf; [done..| |done]. unfold mbind, st_bind. rewrite Hp. exact Hm.
Qed.

(** ** [exit] *)

(** The stake leaves the node, and the node is abandoned when none is left. *)
Record removed (t t2 : LiquidityTree) (who : AccountId) (j stk : Z) : Prop := {
  rm_staged : staged t t2 j (sgn Sub * stk);
  rm_index : account_to_index t2 =
    (if decide (shares t who = stk) then delete who (account_to_index t) else account_to_index t);
  rm_stake : from_option stake 0 (nodes t2 !! Z.to_nat j) = shares t who - stk;
  rm_others : forall i, i <> Z.to_nat j ->
    from_option stake 0 (nodes t2 !! i) = from_option stake 0 (nodes t !! i)
}.

Lemma exit_removed t tp t2 who j n stk u :
  wf t -> same_skel t tp -> accounts_ok tp -> account_to_index t !! who = Some j ->
  nodes tp !! Z.to_nat j = Some n -> 0 <= stk <= stake n ->
  (if stake n - stk =? 0 then
     mutate_node j (modify (set_account None)) ;;
     try_push_abandoned D j ;;
     modify (fun t => set_account_to_index (delete who (account_to_index t)) t)
   else mret tt)
    (set_nodes (<[Z.to_nat j := set_stake (stake n - stk) n]> (nodes tp)) tp) = (Ok u, t2) ->
  removed t t2 who j stk /\ total_fees t2 = total_fees tp.
Proof.
  intros [Hacc Hd] Hsk Haccp Hwho Hn Hle H. pose proof Hsk as (Hs & Hi & Ha).
  destruct (proj1 (acc_index _ Hacc who j) Hwho) as (Hj & n0 & Hn0 & Hown).
  apply lookup_lt_Some in Hn as Hlt.
  pose proof (lookup_ok _ _ _ (acc_nodes _ Haccp) Hn) as (Ho1 & Ho2 & Ho3 & Ho4).
  assert (Hn' : node_ok (set_stake (stake n - stk) n)) by (unfold node_ok, fits in *; simpl; lia).
  assert (shares t who = stake n) as Hsh.
  { unfold shares. rewrite Hwho. simpl. rewrite <- (stake_skel _ _ _ Hs), Hn. done. }
  destruct (Z.eqb_spec (stake n - stk) 0) as [Hz|Hz].
  - apply bind_ok in H as (u3 & t3 & Hnone & H). apply mutate_modify_ok in Hnone as (m & Hm & ->).
    erewrite lookup_set_nodes in Hm by done. simplify_eq.
    apply bind_ok in H as (u4 & t4 & Hpush & H). apply try_push_abandoned_ok in Hpush as ->.
    run_step H. unfold set_account_to_index, set_abandoned_nodes, set_nodes. simpl.
    rewrite list_insert_insert_eq. split; [split|]; simpl.
    + eapply (stage_update t tp); eauto; simpl.
      eapply (accounts_ok_abandon tp); eauto; congruence.
    + rewrite decide_True by lia. by rewrite Hi.
    + rewrite list_lookup_insert_eq by done. simpl. lia.
    + intros i Hne. rewrite list_lookup_insert_ne by done. by apply stake_skel.
    + unfold total_fees. simpl. rewrite (zsum_insert _ _ _ n) by done.
      change (node_fees (set_account None _)) with (node_fees n). lia.
  - run_step H. split; [split|]; simpl.
    + eapply (stage_update t tp); eauto; simpl.
      eapply accounts_ok_update; eauto. simpl. intros Hnone.
      destruct (same_skel_lookup t tp _ _ Hsk Hn) as (n1 & Hn1 & E).
      injection E as E1 E2 E3. congruence.
    + by rewrite decide_False by lia.
    + rewrite list_lookup_insert_eq by done. simpl. lia.
    + intros i Hne. rewrite list_lookup_insert_ne by done. by apply stake_skel.
    + unfold total_fees. simpl. rewrite (zsum_insert _ _ _ n) by done.
      change (node_fees (set_stake _ n)) with (node_fees n). lia.
Qed.

Lemma removed_finish t t2 t' who j stk u :
  wf t -> 0 <= stk -> account_to_index t !! who = Some j ->
  total_fees t2 <= total_fees t -> removed t t2 who j stk ->
  match parent_index j with
  | Some parent_index => update_descendant_stake_of_ancestors D parent_index stk Sub
  | None => mret tt
  end t2 = (Ok u, t') ->
  shares_moved t t' who (- stk) /\
  (account_to_index t' !! who = None <-> shares t who = stk).
Proof.
  intros [Hacc Hd] Hstk Hwho Hf [Hst Hi Hj Ho] H.
  destruct (finish_move _ _ _ _ _ _ _ Hstk Hst H) as (Hwf & Htot & Hfees & Hidx & Hsh).
  assert (Hother : forall b, b <> who -> account_to_index t2 !! b = account_to_index t !! b).
  { intros b Hb. rewrite Hi. case_decide; [|done]. by rewrite lookup_delete_ne. }
  split; [split; [done|simpl in Htot; lia|lia| |]|].
  - rewrite Hsh. unfold shares at 1. rewrite Hi.
    case_decide; [rewrite lookup_delete_eq; simpl; lia|]. rewrite Hwho. simpl. lia.
  - intros b Hb. rewrite Hsh, Hidx. split; [|by apply Hother].
    unfold shares. rewrite Hother by done.
    destruct (account_to_index t !! b) as [z|] eqn:E; [|done].
    simpl. apply Ho. intros Heq.
    destruct (proj1 (acc_index _ Hacc b z) E) as (? & m & Hm & Hm').
    destruct (proj1 (acc_index _ Hacc who j) Hwho) as (? & m1 & Hm1 & Hm1').
    rewrite Heq in Hm. congruence.
  - rewrite Hidx, Hi. case_decide; [by rewrite lookup_delete_eq|]. split; [congruence|lia].
Qed.

Lemma exit_ok t who stk u t' :
  wf t -> fits 128 stk -> exit D who stk t = (Ok u, t') ->
  shares_moved t t' who (- stk) /\ stk <= shares t who /\
  (account_to_index t' !! who = None <-> shares t who = stk).
Proof.
  intros Hwf Hstk H. unfold exit in H.
  apply bind_ok in H as (j & s0 & Hmap & H). apply map_account_ok in Hmap as [Hwho ->].
  apply bind_ok in H as (u1 & tp & Hp & H).
  destruct (proj1 (acc_index _ (proj1 Hwf) who j) Hwho) as (Hj & n0 & Hn0 & Hown).
  apply propagate_to_node_ok in Hp as (d & Hd0 & Hp); [|done|by apply Hwf].
  pose proof Hp as (Hsk & _ & Hf).
  assert (Haccp : accounts_ok tp) by (by apply (wf_fee_delta _ _ _ Hp)).
  apply bind_ok in H as (s & t1 & Hm & H).
  apply mutate_node_ok in Hm as (n & n' & Hn & Hm & ->). run_step Hm.
  match goal with H : checked_sub _ _ = Some _ |- _ => apply checked_sub_some in H as [-> Hle] end.
  apply bind_ok in H as (u2 & t2 & Habandon & H). destruct Hstk as [Hstk _].
  apply (exit_removed t tp) in Habandon as [Hrm Hf2]; [|done..].
  assert (Hf3 : total_fees t2 <= total_fees t) by lia.
  destruct (removed_finish _ _ _ _ _ _ _ Hwf Hstk Hwho Hf3 Hrm H) as [Hmoved Hnone].
  split_and!; [done| |done]. unfold shares. rewrite Hwho. simpl.
  destruct Hsk as (Hs & _). by rewrite <- (stake_skel _ _ _ Hs), Hn.
Qed.
End WellFormed.
