(* ===== verification/LiquidityTreeSpec.v ===== *)
(** * The liquidity tree: the theorems

    Total shares, the histories of a pool, and what they never do. *)

From S2P Require Import Prelude Errors FixedMath.
From S2P Require Import LiquidityTree LiquidityTreeFacts LiquidityTreeInv.

(** ** The total is the sum of the stakes *)

Fixpoint nsum (f : nat -> Z) (n : nat) : Z :=
  match n with O => 0 | S n => nsum f n + f n end.

Lemma nsum_ext f g n : (forall k, (k < n)%nat -> f k = g k) -> nsum f n = nsum g n.
Proof. induction n as [|n IH]; intros H; simpl; [done|]. rewrite IH, H; auto with lia. Qed.

Lemma nsum_children f n :
  nsum (fun i => f (2 * i + 1)%nat + f (2 * i + 2)%nat) n = nsum f (2 * n + 1) - f 0%nat.
Proof.
  induction n as [|n IH]; [simpl; lia|].
  replace (2 * S n + 1)%nat with (S (S (2 * n + 1))) by lia. cbn [nsum]. rewrite IH.
  replace (S (2 * n + 1)) with (2 * n + 2)%nat by lia. lia.
Qed.

Lemma nsum_tail f n m : (n <= m)%nat -> (forall k, (n <= k)%nat -> f k = 0) -> nsum f m = nsum f n.
Proof. intros Hle Hz. induction Hle as [|m Hle IH]; simpl; [done|]. rewrite IH, Hz by lia. lia. Qed.

Lemma nsum_add f g n : nsum (fun k => f k + g k) n = nsum f n + nsum g n.
Proof. induction n as [|n IH]; simpl; lia. Qed.

Lemma zsum_nsum {A} (g : A -> Z) (l : list A) :
  zsum g l = nsum (fun k => from_option g 0 (l !! k)) (length l).
Proof.
  induction l as [|x l IH] using rev_ind; [done|].
  rewrite zsum_app, length_app, Nat.add_1_r. cbn [nsum].
  rewrite lookup_app_r, Nat.sub_diag by lia. simpl. rewrite IH.
  rewrite (nsum_ext _ (fun k => from_option g 0 ((l ++ [x]) !! k))); [lia|].
  intros k Hk. by rewrite lookup_app_l.
Qed.

Lemma tot_outside t k : (length (nodes t) <= k)%nat -> tot t k = 0.
Proof. intros H. unfold tot. by rewrite (proj2 (lookup_ge_None _ _)). Qed.

Lemma tot_root t : nodes t <> [] -> desc_ok t -> tot t 0 = zsum stake (nodes t).
Proof.
  intros Hne Hd. set (n := length (nodes t)).
  assert (Hn : (1 <= n)%nat) by (unfold n; destruct (nodes t); simpl; [done|lia]).
  assert (H1 : zsum descendant_stake (nodes t) = nsum (tot t) n - tot t 0).
  { rewrite zsum_nsum. fold n. rewrite <- (nsum_tail (tot t) n (2 * n + 1));
      [|lia|intros; by apply tot_outside]. rewrite <- nsum_children.
    apply nsum_ext. intros k Hk. apply lookup_lt_is_Some_2 in Hk as [m Hm].
    rewrite Hm. simpl from_option. by apply Hd. }
  assert (H2 : nsum (tot t) n = zsum stake (nodes t) + zsum descendant_stake (nodes t)).
  { rewrite <- zsum_add, zsum_nsum. done. }
  lia.
Qed.

(** Every subtree holds at most what the whole tree holds. *)
Lemma tot_le_root t k : Forall node_ok (nodes t) -> desc_ok t -> tot t k <= tot t 0.
Proof.
  intros Hok Hd.
  assert (Hnn : forall k, 0 <= tot t k).
  { intros i. unfold tot. destruct (nodes t !! i) as [n|] eqn:E; simpl; [|lia].
    destruct (lookup_ok _ _ _ Hok E) as (? & ? & ? & ?). unfold fits in *. lia. }
  induction k as [k IH] using lt_wf_ind. destruct (decide (k = 0%nat)) as [->|Hk]; [lia|].
  destruct (decide (length (nodes t) <= k)%nat) as [Hge|Hlt]; [rewrite tot_outside by done; apply Hnn|].
  set (p := ((k - 1) / 2)%nat).
  assert (Hp : (k = 2 * p + 1 \/ k = 2 * p + 2)%nat).
  { unfold p. pose proof (Nat.div_mod_eq (k - 1) 2). pose proof (Nat.mod_upper_bound (k - 1) 2). lia. }
  clearbody p. etrans; [|apply (IH p); lia].
  destruct (nodes t !! p) as [n|] eqn:E; [|apply lookup_ge_None in E; lia].
  specialize (Hd _ _ E). destruct (lookup_ok _ _ _ Hok E) as (Hs & _).
  pose proof (Hnn (2 * p + 1)%nat). pose proof (Hnn (2 * p + 2)%nat).
  unfold tot at 2. rewrite E. simpl from_option. unfold fits in *.
  destruct Hp as [-> | ->]; lia.
Qed.

Section Spec.
Variable D : Z.

Lemma wf_nonempty t : wf D t -> nodes t <> [].
Proof. intros [[Hs _ _ _ _ _] _] E. unfold node_count in Hs. rewrite E in Hs. simpl in Hs. lia. Qed.

Lemma total_shares_eq t :
  wf D t -> total_shares t = (if tot t 0 <=? umax 128 then Ok (tot t 0) else Err (Arithmetic Overflow), t).
Proof.
  intros Hwf. pose proof (wf_nonempty t Hwf) as Hne.
  unfold total_shares, tot, get_node, mbind, st_bind. change (Z.to_nat 0) with O.
  destruct (nodes t !! 0%nat) as [n|] eqn:E; [|by destruct (nodes t)].
  simpl. unfold lift, total_stake, checked_add_res, checked_add. by case_match.
Qed.

(** ** The operations on fees *)

Lemma deposit_ok t a u t' :
  wf D t -> fits 128 a -> deposit_fees a t = (Ok u, t') ->
  wf D t' /\ total_fees t' = total_fees t + a /\ tot t' 0 = tot t 0 /\
  (forall b, shares t' b = shares t b).
Proof.
  intros Hwf Ha H. unfold deposit_fees in H. tree_run H.
  match goal with H : nodes _ !! _ = Some ?m |- _ => rename m into r, H into Hr end.
  pose proof (add_lazy_delta t _ r a Hr (proj1 Ha) ltac:(done)) as Hd.
  split_and!; [by eapply wf_fee_delta|apply Hd|by apply tot_skel, Hd|].
  intros b. destruct Hd as ((Hs & Hi & _) & _). unfold shares. rewrite Hi.
  destruct (account_to_index t !! b); [|done]. by apply stake_skel.
Qed.

Lemma withdraw_ok t who x t' :
  wf D t -> withdraw_fees D who t = (Ok x, t') ->
  wf D t' /\ 0 <= x /\ x + total_fees t' <= total_fees t /\ tot t' 0 = tot t 0 /\
  (forall b, shares t' b = shares t b) /\
  (exists z n, account_to_index t' !! who = Some z /\ nodes t' !! Z.to_nat z = Some n /\ fees n = 0).
Proof.
  intros Hwf H. unfold withdraw_fees in H.
  apply bind_ok in H as (j & s & Hm & H). apply map_account_ok in Hm as [Hwho ->].
  destruct (proj1 (acc_index _ _ (proj1 Hwf) who j) Hwho) as (Hj & _).
  apply bind_ok in H as (u & tp & Hp & H).
  apply propagate_to_node_ok in Hp as (d & Hd0 & Hp); [|done|by apply Hwf].
  apply mutate_node_ok in H as (n & n' & Hn & Hm & ->). run_step Hm.
  pose proof (wf_fee_delta _ _ _ _ Hp Hwf) as Hwfp.
  destruct (lookup_ok _ _ _ (acc_nodes _ _ (proj1 Hwfp)) Hn) as (Hn1 & Hn2 & Hn3 & Hn4).
  pose proof (fee_delta_update tp _ n (set_fees 0 n) Hn eq_refl) as Hd.
  specialize (Hd ltac:(unfold node_ok, fits; simpl; lia)).
  pose proof (fee_delta_trans _ _ _ _ _ _ Hp Hd eq_refl) as Hall.
  destruct Hall as (Hsk & Hok & Hf). pose proof Hsk as (Hs & Hi & _).
  unfold fits in *. split_and!.
  - by eapply wf_fee_delta.
  - lia.
  - rewrite Hf. unfold node_fees. simpl. lia.
  - by apply tot_skel.
  - intros b. unfold shares. rewrite Hi. destruct (account_to_index t !! b); [|done]. by apply stake_skel.
  - exists j, (set_fees 0 n). simpl. rewrite list_lookup_insert_eq by (by eapply lookup_lt_Some).
    destruct Hp as ((_ & -> & _) & _). done.
Qed.

Lemma new_ok a s t :
  fits 128 s -> LiquidityTree_new D a s = Ok t ->
  wf D t /\ total_fees t = 0 /\ tot t 0 = s.
Proof.
  intros Hs H. unfold LiquidityTree_new in H. run_step H.
  do 2 case_match; simplify_eq. rewrite ?Z.leb_le in *. split_and!; [|done|unfold tot; simpl; lia].
  assert (Hl : forall i n, [Node_new a s] !! i = Some n -> i = O /\ n = Node_new a s).
  { intros [|i] n Hn; simplify_eq/=; done. }
  split; [split|]; simpl.
  - unfold node_count. simpl. lia.
  - repeat constructor; simpl; unfold fits in *; lia.
  - intros b z. destruct (decide (b = a)) as [->|Hb].
    + rewrite lookup_singleton_eq. split.
      * intros [= <-]. split; [done|]. by exists (Node_new a s).
      * intros (Hz & n & [E _]%Hl & _). f_equal. lia.
    + rewrite lookup_singleton_ne by done. split; [done|].
      intros (_ & n & [_ ->]%Hl & E). simpl in E. congruence.
  - intros z. split; [by intros ?%elem_of_nil|]. intros (_ & n & [_ ->]%Hl & E). done.
  - constructor.
  - intros i n [_ ->]%Hl E. done.
  - intros i n [-> ->]%Hl. done.
Qed.

(** ** Histories *)

(** [reachable t i o]: the tree [t] arises from a new one by successful
    operations, [i] being the sum of the fees deposited and [o] that of the
    fees withdrawn on the way. *)
Inductive reachable : LiquidityTree -> Z -> Z -> Prop :=
| reach_new a s t : fits 128 s -> LiquidityTree_new D a s = Ok t -> reachable t 0 0
| reach_join t i o who stk r t' :
    reachable t i o -> fits 128 stk -> join D who stk t = (Ok r, t') -> reachable t' i o
| reach_exit t i o who stk r t' :
    reachable t i o -> fits 128 stk -> exit D who stk t = (Ok r, t') -> reachable t' i o
| reach_deposit t i o amount r t' :
    reachable t i o -> fits 128 amount -> deposit_fees amount t = (Ok r, t') ->
    reachable t' (i + amount) o
| reach_withdraw t i o who x t' :
    reachable t i o -> withdraw_fees D who t = (Ok x, t') -> reachable t' i (o + x).

Lemma reachable_ok t i o :
  reachable t i o -> wf D t /\ o + total_fees t <= i.
Proof.
  induction 1 as [a s t Hs H|t i o who stk r t' _ [IH1 IH2] Hs H|t i o who stk r t' _ [IH1 IH2] Hs H
                 |t i o a r t' _ [IH1 IH2] Hs H|t i o who x t' _ [IH1 IH2] H].
  - apply new_ok in H as (? & ? & ?); [split; [done|lia]|done].
  - apply join_ok in H as [[? ? ? ? ?] _]; [split; [done|lia]|done..].
  - apply exit_ok in H as [[? ? ? ? ?] _]; [split; [done|lia]|done..].
  - apply deposit_ok in H as (? & ? & _); [split; [done|lia]|done..].
  - apply withdraw_ok in H as (? & ? & ? & _); [split; [done|lia]|done].
Qed.

Lemma wf_fees_nonneg t : wf D t -> 0 <= total_fees t.
Proof.
  intros [[_ Hok _ _ _ _] _]. apply zsum_nonneg. eapply Forall_impl; [done|].
  intros n (? & ? & ? & ?). unfold node_fees, fits in *. lia.
Qed.
End Spec.

(** ** Exact conservation *)

(** No part of the fees is lost on the way down as long as the scaled product
    of all shares and all fees is a [u128]. *)
Definition fees_exact (t : LiquidityTree) : Prop := tot t 0 * total_fees t * BASE <= umax 128.

Lemma lost_at_zero D t i n d :
  0 <= i -> wf D t -> fees_exact t -> nodes t !! Z.to_nat i = Some n -> lost_at t i n d -> d = 0.
Proof.
  intros Hi Hwf Hex Hn (Hcnt & Hpos & rem & r & Hrem & Hr & -> & Hleft).
  pose proof Hwf as [[_ Hok _ _ _ _] Hd].
  assert (Hlen : (length (nodes t) <= 2 * Z.to_nat i + 2)%nat) by (unfold node_count in *; lia).
  pose proof (Hd _ _ Hn) as Hds. rewrite (tot_outside t (2 * Z.to_nat i + 2)), Z.add_0_r in Hds by done.
  assert (Hlt : 2 * i + 1 < node_count t).
  { destruct (Z.lt_ge_cases (2 * i + 1) (node_count t)); [done|].
    rewrite tot_outside in Hds by (unfold node_count in *; lia). lia. }
  destruct (Hleft Hlt) as (nl & Hnl & Hc).
  replace (Z.to_nat (2 * i + 1)) with (2 * Z.to_nat i + 1)%nat in Hnl by lia.
  assert (Htl : stake nl + descendant_stake nl = descendant_stake n).
  { rewrite Hds. unfold tot. by rewrite Hnl. }
  rewrite Htl in Hc. apply bmul_bdiv_whole in Hc; [lia|done|lia|].
  pose proof (tot_le_root t (2 * Z.to_nat i + 1) Hok Hd) as Hroot. rewrite <- Hds in Hroot.
  assert (lazy_fees n <= total_fees t) as Hlz.
  { destruct (lookup_ok _ _ _ Hok Hn) as (? & Hfe & ? & ?). unfold fits in Hfe.
    transitivity (node_fees n); [unfold node_fees; lia|].
    eapply zsum_lookup_le, Hn. eapply Forall_impl; [done|].
    intros m (? & ? & ? & ?). unfold node_fees, fits in *. lia. }
  unfold fees_exact in Hex. pose proof BASE_pos. etrans; [|exact Hex].
  apply Z.mul_le_mono_nonneg_r; [lia|]. apply Z.mul_le_mono_nonneg; lia.
Qed.

Lemma propagate_path_exact D p t u t' :
  (forall z, z ∈ p -> 0 <= z) -> wf D t -> fees_exact t ->
  for_each p propagate_fees t = (Ok u, t') -> fee_delta 0 t t'.
Proof.
  revert t. induction p as [|z p IH]; intros t Hpos Hwf Hex H; simpl in H.
  - run_step H. apply fee_delta_refl.
  - apply bind_ok in H as (v & t1 & H1 & H2).
    apply propagate_fees_ok in H1 as (n & d & Hn & Hd & _ & Hlost); [|set_solver|by apply Hwf].
    assert (d = 0) as -> by (destruct Hlost; [done|eapply (lost_at_zero D t z n); [set_solver|done..]]).
    pose proof Hd as (Hsk & _ & Hf).
    eapply fee_delta_trans; [exact Hd|apply IH; [set_solver| | |exact H2]|done].
    + by eapply wf_fee_delta.
    + unfold fees_exact in *. rewrite (tot_skel _ _ _ Hsk), Hf, Z.add_0_r. done.
Qed.

Lemma propagate_to_node_exact D z t u t' :
  0 <= z -> wf D t -> fees_exact t -> propagate_fees_to_node D z t = (Ok u, t') ->
  fee_delta 0 t t'.
Proof.
  unfold propagate_fees_to_node. intros Hz Hwf Hex H.
  apply bind_ok in H as (p & s & Hp & H). apply lift_ok in Hp as [Hp ->].
  apply path_to_node_ok in Hp; [|done]. eapply propagate_path_exact; eauto.
  intros y Hy. by apply (is_path_bound _ _ Hp).
Qed.

(** ** Properties *)

(** A small pool: account 1 opens it with 10 shares, 2 joins with 30, 3 with
    20, fees of 6 are deposited. *)
Definition demo0 : LiquidityTree := mkTree [Node_new 1%N (10 * BASE)] {[1%N := 0]} [].
Definition demo1 : LiquidityTree := exec (join 1 2%N (30 * BASE)) demo0.
Definition demo2 : LiquidityTree := exec (join 1 3%N (20 * BASE)) demo1.
Definition demo_tree : LiquidityTree := exec (deposit_fees (6 * BASE)) demo2.

Lemma demo1_reachable : reachable 1 demo1 0 0.
Proof.
  eapply (reach_join 1 demo0 0 0 2%N (30 * BASE) Leaf);
    [|vm_compute; split; discriminate|vm_compute; reflexivity].
  eapply (reach_new 1 1%N (10 * BASE)); [vm_compute; split; discriminate|vm_compute; reflexivity].
Qed.

Lemma demo_reachable : reachable 1 demo_tree (6 * BASE) 0.
Proof.
  eapply (reach_deposit 1 demo2 0 0 (6 * BASE) tt);
    [|vm_compute; split; discriminate|vm_compute; reflexivity].
  eapply (reach_join 1 demo1 0 0 3%N (20 * BASE) Leaf);
    [apply demo1_reachable|vm_compute; split; discriminate|vm_compute; reflexivity].
Qed.

Lemma demo_wf : wf 1 demo_tree.
Proof. apply (reachable_ok 1 _ _ _ demo_reachable). Qed.

(** C2. Every tree that arises from a new one by successful joins, exits,
    deposits and withdrawals is well formed: it has at most the allowed number
    of nodes, every field is a [u128], every node's [descendant_stake] is the
    stake held by its two subtrees, the account index lists exactly the owned
    nodes, the abandoned list exactly the ownerless ones, once each, and those
    hold no stake. *)
Theorem tree_invariant D t i o : reachable D t i o -> wf D t.
Proof. intros H. by apply reachable_ok in H as [H _]. Qed.

Lemma tree_invariant_witness : wf 1 demo_tree /\ node_count demo_tree = 3.
Proof. split; [exact (tree_invariant 1 demo_tree (6 * BASE) 0 demo_reachable)|reflexivity]. Defined.

(** C7. The tree never pays out fees it did not receive: at any point of any
    history, the fees withdrawn so far plus the fees still held are at most
    the fees deposited. *)
Theorem tree_fee_solvency D t i o :
  reachable D t i o -> 0 <= total_fees t /\ o + total_fees t <= i.
Proof. intros H. apply reachable_ok in H as [Hwf H]. split; [by eapply wf_fees_nonneg|done]. Qed.

Lemma tree_fee_solvency_witness :
  total_fees demo_tree = 6 * BASE /\ 0 + total_fees demo_tree <= 6 * BASE.
Proof.
  split; [vm_compute; reflexivity|].
  exact (proj2 (tree_fee_solvency 1 demo_tree (6 * BASE) 0 demo_reachable)).
Defined.

(** C23. [total_shares], which only reads the root, returns the sum of the
    stakes of all nodes, or the overflow error when that sum is not a [u128]. *)
Theorem total_shares_is_sum D t :
  wf D t ->
  total_shares t =
    (if zsum stake (nodes t) <=? umax 128 then Ok (zsum stake (nodes t))
     else Err (Arithmetic Overflow), t).
Proof.
  intros Hwf. rewrite (total_shares_eq D) by done.
  rewrite tot_root; [done|by eapply wf_nonempty|apply Hwf].
Qed.

Lemma total_shares_is_sum_witness : fst (total_shares demo_tree) = Ok (60 * BASE).
Proof. rewrite (total_shares_is_sum 1 demo_tree demo_wf). vm_compute. reflexivity. Defined.

(** C13. A successful [join] keeps the tree well formed, gives exactly [stk]
    new shares to [who], leaves every other account's shares alone, raises the
    total by [stk] and creates no fees. *)
Theorem join_correct D t who stk r t' :
  wf D t -> fits 128 stk -> join D who stk t = (Ok r, t') ->
  wf D t' /\ shares t' who = shares t who + stk /\
  (forall b, b <> who -> shares t' b = shares t b) /\
  zsum stake (nodes t') = zsum stake (nodes t) + stk /\ total_fees t' <= total_fees t.
Proof.
  intros Hwf Hs H. apply join_ok in H as [[Hwf' Ht Hf Hw Ho] _]; [|done..].
  rewrite <- !tot_root by first [by eapply wf_nonempty | apply Hwf | apply Hwf'].
  split_and!; [done|done|intros; by apply Ho|done|done].
Qed.

Lemma join_correct_witness :
  shares (exec (join 1 2%N BASE) demo_tree) 2%N = 31 * BASE.
Proof.
  destruct (join_correct 1 demo_tree 2%N BASE InPlace (exec (join 1 2%N BASE) demo_tree) demo_wf)
    as (_ & H & _); [vm_compute; split; discriminate|vm_compute; reflexivity|].
  rewrite H. vm_compute. reflexivity.
Defined.

(** C14. A successful [exit] removes exactly [stk] of [who]'s shares, at most
    what it has, leaves every other account's shares alone, lowers the total by
    [stk], and abandons [who]'s node exactly when nothing is left. *)
Theorem exit_correct D t who stk u t' :
  wf D t -> fits 128 stk -> exit D who stk t = (Ok u, t') ->
  wf D t' /\ stk <= shares t who /\ shares t' who = shares t who - stk /\
  (forall b, b <> who -> shares t' b = shares t b) /\
  zsum stake (nodes t') = zsum stake (nodes t) - stk /\ total_fees t' <= total_fees t /\
  (account_to_index t' !! who = None <-> shares t who = stk).
Proof.
  intros Hwf Hs H. apply exit_ok in H as ([Hwf' Ht Hf Hw Ho] & Hle & Hnone); [|done..].
  rewrite <- !tot_root by first [by eapply wf_nonempty | apply Hwf | apply Hwf'].
  split_and!; [done|done|lia|intros; by apply Ho|lia|done|done..].
Qed.

Lemma exit_correct_witness :
  account_to_index (exec (exit 1 2%N (30 * BASE)) demo1) !! 2%N = None.
Proof.
  destruct (exit_correct 1 demo1 2%N (30 * BASE) tt (exec (exit 1 2%N (30 * BASE)) demo1)
              (proj1 (reachable_ok 1 _ _ _ demo1_reachable)))
    as (_ & _ & _ & _ & _ & _ & H); [vm_compute; split; discriminate|vm_compute; reflexivity|].
  apply H. vm_compute. reflexivity.
Defined.

(** On a well-formed tree of depth below 31, the path from the root to any
    node is found within the allowed number of iterations, so
    [MaxIterationsReached] cannot occur; the path starts at the root, ends at
    the node and follows the parent links. *)
Theorem path_to_node_total D t z :
  0 <= D < 31 -> wf D t -> 0 <= z < node_count t ->
  exists p, path_to_node D z None = Ok p /\ is_path p z.
Proof.
  intros HD [[Hs _ _ _ _ _] _] Hz. unfold path_to_node.
  assert (D + 1 <= umax 32) by (rewrite umax_32; lia). checked_eval. simpl default.
  destruct (path_to_node_iter_total (Z.to_nat (D + 1)) z) as [p Hp].
  { rewrite Z2Nat.id by lia. unfold max_node_count, saturating_sub, saturating_pow in Hs.
    pose proof (Z.pow_pos_nonneg 2 (D + 1)). lia. }
  exists p. split; [done|]. eapply path_to_node_iter_ok; [lia|done].
Qed.

Lemma path_to_node_total_witness :
  exists p, path_to_node 1 2 None = Ok p /\ is_path p 2.
Proof.
  apply (path_to_node_total 1 demo_tree 2); [lia|exact demo_wf|].
  vm_compute. split; [discriminate|reflexivity].
Defined.

(** As long as (all shares) x (all fees) x BASE fits [u128], distributing
    fees loses nothing to rounding: what a withdrawal pays out plus what the
    tree still holds is exactly what it held before. *)
Theorem withdraw_fees_exact D t who x t' :
  wf D t -> fees_exact t -> withdraw_fees D who t = (Ok x, t') ->
  x + total_fees t' = total_fees t.
Proof.
  intros Hwf Hex H. unfold withdraw_fees in H.
  apply bind_ok in H as (j & s & Hm & H). apply map_account_ok in Hm as [Hwho ->].
  destruct (proj1 (acc_index _ _ (proj1 Hwf) who j) Hwho) as (Hj & _).
  apply bind_ok in H as (u & tp & Hp & H).
  apply (propagate_to_node_exact D) in Hp as (_ & _ & Hf); [|done..].
  apply mutate_node_ok in H as (n & n' & Hn & Hm & ->). run_step Hm.
  unfold total_fees in *. simpl. rewrite (zsum_insert _ _ _ n) by done.
  unfold node_fees at 2 3. simpl. lia.
Qed.

Lemma withdraw_fees_exact_witness :
  2 * BASE + total_fees (exec (withdraw_fees 1 3%N) demo_tree) = total_fees demo_tree.
Proof.
  apply (withdraw_fees_exact 1 demo_tree 3%N); [exact demo_wf| |vm_compute; reflexivity].
  vm_compute. discriminate.
Defined.
