(* ===== verification/Collections.v ===== *)
(** * The collections of the Rust standard library the pallets use

    Total orders as a class ([Ord]); the [binary_search_by] loop of
    [core::slice]; [BTreeMap] and [BTreeSet] as association lists in key
    order, which is how the code iterates over them; [Vec::remove] and
    [Vec::insert] with their panics; the insertion and length guard of
    [BoundedVec]. *)

From S2P Require Import Prelude.

(** ** Total orders *)

Class Ord (K : Type) := cmp : K -> K -> comparison.

Class OrdLaws (K : Type) `{Ord K} := {
  cmp_eq : forall x y, cmp x y = Eq <-> x = y;
  cmp_sym : forall x y, cmp y x = CompOpp (cmp x y);
  cmp_trans : forall x y z, cmp x y = Lt -> cmp y z = Lt -> cmp x z = Lt }.

#[global] Instance ord_Z : Ord Z := Z.compare.
#[global] Instance ord_N : Ord N := N.compare.
(** [false < true]. *)
#[global] Instance ord_bool : Ord bool := fun x y =>
  match x, y with false, true => Lt | true, false => Gt | _, _ => Eq end.
(** The lexicographic order of tuples. *)
#[global] Instance ord_prod {A B} `{Ord A, Ord B} : Ord (A * B) := fun p q =>
  match cmp p.1 q.1 with Eq => cmp p.2 q.2 | c => c end.

#[global] Instance ord_laws_Z : OrdLaws Z.
Proof.
  split.
  - apply Z.compare_eq_iff.
  - intros. apply Z.compare_antisym.
  - intros x y z. unfold cmp, ord_Z. rewrite !Z.compare_lt_iff. lia.
Qed.
#[global] Instance ord_laws_N : OrdLaws N.
Proof.
  split.
  - apply N.compare_eq_iff.
  - intros. apply N.compare_antisym.
  - intros x y z. unfold cmp, ord_N. rewrite !N.compare_lt_iff. lia.
Qed.
#[global] Instance ord_laws_bool : OrdLaws bool.
Proof. split; [by intros [] []|by intros [] []|by intros [] [] []]. Qed.
#[global] Instance ord_laws_prod {A B} `{OrdLaws A, OrdLaws B} : OrdLaws (A * B).
Proof.
  split.
  - intros [a b] [a' b']. unfold cmp, ord_prod. simpl.
    destruct (cmp a a') eqn:E1; [|split; [done|]|split; [done|]].
    + apply cmp_eq in E1 as ->. rewrite cmp_eq. split; [by intros ->|by intros [= ->]].
    + intros [= -> ->]. rewrite (proj2 (cmp_eq a' a') eq_refl) in E1. done.
    + intros [= -> ->]. rewrite (proj2 (cmp_eq a' a') eq_refl) in E1. done.
  - intros [a b] [a' b']. unfold cmp, ord_prod. simpl. rewrite (cmp_sym a a').
    destruct (cmp a a'); simpl; [apply cmp_sym|done..].
  - intros [a b] [a' b'] [a'' b'']. unfold cmp, ord_prod. simpl.
    destruct (cmp a a') eqn:E1; [| |done].
    + apply cmp_eq in E1 as ->. destruct (cmp a' a''); [apply cmp_trans|done..].
    + intros _. destruct (cmp a' a'') eqn:E2; [|intros _|done].
      * apply cmp_eq in E2 as <-. by rewrite E1.
      * by rewrite (cmp_trans _ _ _ E1 E2).
Qed.

(** ** Vectors *)

(** [Vec::remove]: the item and the rest, or a panic. *)
Definition vec_remove {A} (i : nat) (l : list A) : option (A * list A) :=
  x ← l !! i; Some (x, take i l ++ drop (S i) l).

(** [Vec::insert] at an index that is at most the length. *)
Definition vec_insert {A} (i : nat) (x : A) (l : list A) : list A :=
  take i l ++ x :: drop i l.

(** [BoundedVec::try_insert] with bound [n]. *)
Definition try_insert {A} (n : Z) (i : nat) (x : A) (l : list A) : option (list A) :=
  if Z.of_nat (length l) <? n then Some (vec_insert i x l) else None.

(** [BoundedVec::try_push] with bound [n]. *)
Definition try_push {A} (n : Z) (x : A) (l : list A) : option (list A) :=
  if Z.of_nat (length l) <? n then Some (l ++ [x]) else None.

(** [BoundedVec::truncate_from]. *)
Definition truncate_from {A} (n : Z) (l : list A) : list A := take (Z.to_nat n) l.

(** ** Binary search *)

Inductive SearchResult := Found (i : nat) | NotFound (i : nat).

Section BinarySearch.
Context {A : Type} (f : A -> comparison) (l : list A).

(** The loop of [slice::binary_search_by]; every iteration shrinks
    [right - left], so [length l] iterations are enough. *)
Fixpoint binary_search_loop (fuel left right : nat) : SearchResult :=
  match fuel with
  | O => NotFound left
  | S fuel =>
      if (left <? right)%nat then
        let mid := (left + Nat.div2 (right - left))%nat in
        match l !! mid with
        | Some x =>
            match f x with
            | Lt => binary_search_loop fuel (S mid) right
            | Gt => binary_search_loop fuel left mid
            | Eq => Found mid
            end
        | None => NotFound left
        end
      else NotFound left
  end.

Definition binary_search_by : SearchResult := binary_search_loop (length l) 0 (length l).
End BinarySearch.

Definition binary_search_by_key {A K} `{Ord K} (k : K) (key : A -> K) (l : list A) : SearchResult :=
  binary_search_by (fun x => cmp (key x) k) l.

(** ** Ordered maps and sets *)

Section BTree.
Context {K V : Type} `{Ord K}.

Definition BTreeMap := list (K * V).

Fixpoint bt_get (k : K) (m : BTreeMap) : option V :=
  match m with
  | [] => None
  | (k', v) :: m => match cmp k k' with Lt => None | Eq => Some v | Gt => bt_get k m end
  end.

Fixpoint bt_insert (k : K) (v : V) (m : BTreeMap) : BTreeMap :=
  match m with
  | [] => [(k, v)]
  | (k', v') :: m' =>
      match cmp k k' with
      | Lt => (k, v) :: m
      | Eq => (k, v) :: m'
      | Gt => (k', v') :: bt_insert k v m'
      end
  end.

Definition bt_keys (m : BTreeMap) : list K := m.*1.
End BTree.
Arguments BTreeMap K V : clear implicits.
#[global] Arguments bt_keys : simpl never.

Definition bt_insert_set {K} `{Ord K} (k : K) (s : BTreeMap K unit) : BTreeMap K unit :=
  bt_insert k tt s.

(** ** Facts *)

Lemma cmp_refl {K} `{OrdLaws K} (x : K) : cmp x x = Eq.
Proof. by apply cmp_eq. Qed.
Lemma cmp_gt {K} `{OrdLaws K} (x y : K) : cmp x y = Gt <-> cmp y x = Lt.
Proof. rewrite (cmp_sym x y). destruct (cmp x y); done. Qed.
Lemma cmp_lt_ne {K} `{OrdLaws K} (x y : K) : cmp x y = Lt -> x <> y.
Proof. intros Hlt ->. by rewrite cmp_refl in Hlt. Qed.

Lemma vec_remove_some {A} i (l : list A) x l' :
  vec_remove i l = Some (x, l') -> l !! i = Some x /\ l' = delete i l.
Proof.
  unfold vec_remove. destruct (l !! i) as [y|]; cbn; [|done]. intros [= -> <-].
  by rewrite delete_take_drop.
Qed.

Lemma vec_remove_eq {A} i (l : list A) x :
  l !! i = Some x -> vec_remove i l = Some (x, delete i l).
Proof. intros Hi. unfold vec_remove. rewrite Hi. cbn. by rewrite delete_take_drop. Qed.

Lemma elem_of_vec_insert {A} i (x y : A) l :
  y ∈ vec_insert i x l <-> y = x \/ y ∈ l.
Proof.
  unfold vec_insert. rewrite elem_of_app, elem_of_cons.
  rewrite <- (take_drop i l) at 3. rewrite elem_of_app. tauto.
Qed.

Lemma length_vec_insert {A} i (x : A) l : length (vec_insert i x l) = S (length l).
Proof.
  unfold vec_insert. rewrite length_app. simpl. rewrite Nat.add_succ_r, <- length_app.
  by rewrite take_drop.
Qed.

Section BinarySearchFacts.
Context {A : Type} (f : A -> comparison) (l : list A).

(** [f] compares the items of [l] with a fixed target, and [l] ascends. *)
Definition ascending : Prop :=
  forall i j x y, (i < j)%nat -> l !! i = Some x -> l !! j = Some y ->
    (f y = Lt -> f x = Lt) /\ (f x = Gt -> f y = Gt) /\ (f x = Eq -> f y <> Lt).

Lemma binary_search_loop_found fuel left right i :
  binary_search_loop f l fuel left right = Found i -> exists x, l !! i = Some x /\ f x = Eq.
Proof.
  revert left right. induction fuel as [|fuel IH]; intros left right; simpl; [done|].
  destruct (left <? right)%nat; [|done]. destruct (l !! (left + _)%nat) as [x|] eqn:Hx; [|done].
  destruct (f x) eqn:Hf; [|apply IH..]. intros [= <-]. eauto.
Qed.

Lemma binary_search_loop_not_found fuel left right i :
  ascending -> (left <= right <= length l)%nat -> (right - left <= fuel)%nat ->
  (forall j x, (j < left)%nat -> l !! j = Some x -> f x = Lt) ->
  (forall j x, (right <= j)%nat -> l !! j = Some x -> f x = Gt) ->
  binary_search_loop f l fuel left right = NotFound i ->
  (i <= length l)%nat /\
  (forall j x, (j < i)%nat -> l !! j = Some x -> f x = Lt) /\
  (forall j x, (i <= j)%nat -> l !! j = Some x -> f x = Gt).
Proof.
  intros Hasc. revert left right.
  induction fuel as [|fuel IH]; intros left right Hlr Hfuel Hlo Hhi; simpl.
  { intros [= <-]. replace right with left in * by lia. split_and!; [lia|done..]. }
  destruct (Nat.ltb_spec left right) as [Hlt|Hge].
  2:{ intros [= <-]. replace right with left in * by lia. split_and!; [lia|done..]. }
  assert (Hd : (Nat.div2 (right - left) < right - left)%nat) by (apply Nat.lt_div2; lia).
  remember (left + Nat.div2 (right - left))%nat as mid eqn:Hmid.
  generalize dependent (Nat.div2 (right - left)). intros d Hd Hmid.
  destruct (l !! mid) as [x|] eqn:Hx.
  2:{ apply lookup_ge_None in Hx. lia. }
  destruct (f x) eqn:Hf; [done| |]; intros Hs; (eapply IH; [| | | |exact Hs]); try lia; try done.
  - intros j y Hj Hy. destruct (decide (j = mid)) as [->|Hne]; [congruence|].
    by apply (Hasc j mid y x ltac:(lia) Hy Hx).
  - intros j y Hj Hy. destruct (decide (j = mid)) as [->|Hne]; [congruence|].
    by apply (Hasc mid j x y ltac:(lia) Hx Hy).
Qed.

Lemma binary_search_by_found i :
  binary_search_by f l = Found i -> exists x, l !! i = Some x /\ f x = Eq.
Proof. apply binary_search_loop_found. Qed.

Lemma binary_search_by_not_found i :
  ascending -> binary_search_by f l = NotFound i ->
  (i <= length l)%nat /\
  (forall j x, (j < i)%nat -> l !! j = Some x -> f x = Lt) /\
  (forall j x, (i <= j)%nat -> l !! j = Some x -> f x = Gt).
Proof.
  intros Hasc Hs. eapply (binary_search_loop_not_found (length l) 0 (length l)); [done|lia|lia| |
    |exact Hs]; intros j x Hj Hx; [lia|]. apply lookup_lt_Some in Hx. lia.
Qed.
End BinarySearchFacts.

(** Lists in strictly ascending order of a key. *)
Section SortedBy.
Context {A K : Type} `{OrdLaws K} (key : A -> K).

Definition sorted_by (l : list A) : Prop :=
  StronglySorted (fun x y => cmp (key x) (key y) = Lt) l.

Lemma sorted_by_lookup l i j x y :
  sorted_by l -> (i < j)%nat -> l !! i = Some x -> l !! j = Some y ->
  cmp (key x) (key y) = Lt.
Proof.
  intros Hs. revert i j. induction Hs as [|z l Hs IH Hz]; intros [|i] [|j] Hij Hx Hy;
    simplify_eq/=; try lia.
  - rewrite Forall_lookup in Hz. by apply (Hz j).
  - eapply IH; [|done..]. lia.
Qed.

Lemma sorted_by_of_lookup l :
  (forall i j x y, (i < j)%nat -> l !! i = Some x -> l !! j = Some y ->
     cmp (key x) (key y) = Lt) -> sorted_by l.
Proof.
  unfold sorted_by. induction l as [|z l IH]; intros Hl; constructor.
  - apply IH. intros i j x y Hij. apply (Hl (S i) (S j)). lia.
  - apply Forall_lookup. intros j y Hy. apply (Hl 0%nat (S j) z y); [lia|done..].
Qed.

Lemma sorted_by_ascending l k : sorted_by l -> ascending (fun x => cmp (key x) k) l.
Proof.
  intros Hs i j x y Hij Hx Hy. pose proof (sorted_by_lookup _ _ _ _ _ Hs Hij Hx Hy) as Hlt.
  split_and!.
  - apply cmp_trans, Hlt.
  - rewrite !cmp_gt. intros Hk. eapply cmp_trans; [exact Hk|exact Hlt].
  - intros <-%cmp_eq Hk. by apply (cmp_lt_ne _ _ (cmp_trans _ _ _ Hlt Hk)).
Qed.

Lemma sorted_by_inj l i j x y :
  sorted_by l -> l !! i = Some x -> l !! j = Some y -> key x = key y -> i = j.
Proof.
  intros Hs Hx Hy Hk. destruct (Nat.lt_trichotomy i j) as [Hl|[Hl|Hl]]; [|done|].
  - apply (sorted_by_lookup _ _ _ _ _ Hs Hl Hx) in Hy. rewrite Hk, cmp_refl in Hy. done.
  - apply (sorted_by_lookup _ _ _ _ _ Hs Hl Hy) in Hx. rewrite Hk, cmp_refl in Hx. done.
Qed.

Lemma sorted_by_NoDup l : sorted_by l -> NoDup (key <$> l).
Proof.
  induction 1 as [|x l Hs IH Hx]; simpl; constructor; [|done].
  intros (y & Hk & Hy)%list_elem_of_fmap. rewrite Forall_forall in Hx.
  apply (cmp_lt_ne _ _ (Hx y Hy)), Hk.
Qed.

(** On a sorted list the search finds an item exactly when it is there. *)
Lemma search_key_found l i x :
  sorted_by l -> l !! i = Some x -> binary_search_by_key (key x) key l = Found i.
Proof.
  intros Hs Hx. unfold binary_search_by_key.
  destruct (binary_search_by _ l) as [j|j] eqn:Hb.
  - apply binary_search_by_found in Hb as (y & Hy & Hk%cmp_eq). f_equal.
    by eapply sorted_by_inj.
  - apply binary_search_by_not_found in Hb as (_ & Hlo & Hhi); [|by apply sorted_by_ascending].
    destruct (Nat.lt_ge_cases i j) as [Hl|Hl].
    + pose proof (Hlo _ _ Hl Hx) as Hc. by rewrite cmp_refl in Hc.
    + pose proof (Hhi _ _ Hl Hx) as Hc. by rewrite cmp_refl in Hc.
Qed.

Lemma search_key_found_inv l i k :
  binary_search_by_key k key l = Found i -> exists x, l !! i = Some x /\ key x = k.
Proof. intros (x & Hx & Hk%cmp_eq)%binary_search_by_found. eauto. Qed.

Lemma search_key_not_found l i k :
  sorted_by l -> binary_search_by_key k key l = NotFound i ->
  (i <= length l)%nat /\ (forall x, x ∈ l -> key x <> k).
Proof.
  intros Hs Hb. pose proof Hb as (Hi & _ & _)%binary_search_by_not_found; [|by apply sorted_by_ascending].
  split; [done|]. intros x (j & Hj)%list_elem_of_lookup <-.
  rewrite (search_key_found _ _ _ Hs Hj) in Hb. done.
Qed.

(** Inserting where an unsuccessful search points keeps the order. *)
Lemma sorted_by_insert l i x :
  sorted_by l -> binary_search_by_key (key x) key l = NotFound i ->
  sorted_by (vec_insert i x l).
Proof.
  intros Hs Hb. apply binary_search_by_not_found in Hb as (Hi & Hlo & Hhi);
    [|by apply sorted_by_ascending].
  unfold vec_insert, sorted_by. rewrite <- (take_drop i l) in Hs.
  apply StronglySorted_app_2; [|by eapply StronglySorted_app_1_l|].
  - intros y z Hy Hz. apply list_elem_of_lookup in Hy as (j & Hj).
    apply lookup_take_Some in Hj as [Hj Hji]. pose proof (Hlo _ _ Hji Hj) as Hyx.
    apply elem_of_cons in Hz as [->|Hz]; [done|].
    eapply cmp_trans; [exact Hyx|]. apply list_elem_of_lookup in Hz as (n & Hn).
    rewrite lookup_drop in Hn. apply cmp_gt, (Hhi (i + n)%nat); [lia|done].
  - constructor; [by eapply StronglySorted_app_1_r|].
    apply Forall_lookup. intros n z Hn. rewrite lookup_drop in Hn.
    apply cmp_gt, (Hhi (i + n)%nat); [lia|done].
Qed.

Lemma sorted_by_sublist l l' : sublist l' l -> sorted_by l -> sorted_by l'.
Proof.
  unfold sorted_by. intros Hsub Hs. induction Hsub as [|x l1 l2 Hsub IH|x l1 l2 Hsub IH];
    [constructor|inversion_clear Hs as [|?? Hs' Hx]..].
  - constructor; [by apply IH|]. rewrite Forall_forall in *. intros y Hy. apply Hx.
    by eapply elem_of_sublist.
  - by apply IH.
Qed.

(** Changing items without changing their keys keeps the order. *)
Lemma sorted_by_same_keys l l' : key <$> l' = key <$> l -> sorted_by l -> sorted_by l'.
Proof.
  intros Hk Hs. apply sorted_by_of_lookup. intros i j x y Hij Hx Hy.
  assert (Hg : forall n z, l' !! n = Some z -> exists z', l !! n = Some z' /\ key z' = key z).
  { intros n z Hz. assert ((key <$> l) !! n = Some (key z)) as Hn
      by (rewrite <- Hk, list_lookup_fmap, Hz; done).
    rewrite list_lookup_fmap in Hn. destruct (l !! n) as [z'|]; simplify_eq/=. eauto. }
  destruct (Hg _ _ Hx) as (x' & Hx' & <-), (Hg _ _ Hy) as (y' & Hy' & <-).
  by eapply sorted_by_lookup.
Qed.
End SortedBy.

Lemma sorted_by_fmap {A K} `{OrdLaws K} (key : A -> K) l :
  sorted_by key l <-> sorted_by id (key <$> l).
Proof.
  unfold sorted_by. induction l as [|x l IH]; simpl; [split; constructor|].
  split; inversion_clear 1 as [|?? Hs Hx]; constructor; try by apply IH.
  - by rewrite Forall_fmap.
  - by rewrite Forall_fmap in Hx.
Qed.

Section BTreeFacts.
Context {K V : Type} `{OrdLaws K}.
Implicit Types m : BTreeMap K V.

Abbreviation bt_sorted := (sorted_by (@fst K V)).

Lemma bt_get_insert k v m : bt_get k (bt_insert k v m) = Some v.
Proof.
  induction m as [|[k' v'] m IH]; simpl; [by rewrite cmp_refl|].
  destruct (cmp k k') eqn:E; simpl; [by rewrite cmp_refl..|by rewrite E].
Qed.

Lemma bt_get_insert_ne k k' v m :
  bt_sorted m -> k <> k' -> bt_get k (bt_insert k' v m) = bt_get k m.
Proof.
  intros Hs Hne. induction Hs as [|[k1 v1] m Hs IH Hk]; simpl.
  - destruct (cmp k k') eqn:E; [apply cmp_eq in E; done|done..].
  - destruct (cmp k' k1) eqn:E1; simpl.
    + apply cmp_eq in E1 as ->. destruct (cmp k k1) eqn:E; [apply cmp_eq in E; done|done..].
    + destruct (cmp k k') eqn:E; [apply cmp_eq in E; done| |done].
      by rewrite (cmp_trans _ _ _ E E1).
    + destruct (cmp k k1); [done..|]. apply IH.
Qed.

Lemma elem_of_bt_insert k v m x :
  x ∈ bt_insert k v m -> x = (k, v) \/ x ∈ m.
Proof.
  induction m as [|[k1 v1] m IH]; simpl; [rewrite list_elem_of_singleton; by left|].
  destruct (cmp k k1); rewrite !elem_of_cons; [tauto|tauto|].
  intros [->|Hx]; [tauto|]. apply IH in Hx. tauto.
Qed.

Lemma bt_insert_sorted k v m : bt_sorted m -> bt_sorted (bt_insert k v m).
Proof.
  induction 1 as [|[k1 v1] m Hs IH Hk]; simpl; [repeat constructor|].
  destruct (cmp k k1) eqn:E.
  - apply cmp_eq in E as ->. by constructor.
  - constructor; [by constructor|]. constructor; [done|].
    eapply Forall_impl; [exact Hk|]. intros y Hy. eapply cmp_trans; [exact E|exact Hy].
  - constructor; [exact IH|]. apply Forall_forall. intros y [->|Hy]%elem_of_bt_insert.
    + by apply cmp_gt.
    + rewrite Forall_forall in Hk. by apply Hk.
Qed.

Lemma bt_get_elem k v m : bt_sorted m -> bt_get k m = Some v <-> (k, v) ∈ m.
Proof.
  induction 1 as [|[k1 v1] m Hs IH Hk]; simpl; [split; [done|by intros ?%elem_of_nil]|].
  rewrite elem_of_cons, Forall_forall in *. destruct (cmp k k1) eqn:E.
  - apply cmp_eq in E as ->. split; [intros [= ->]; by left|].
    intros [[= ->]|Hin]; [done|]. apply Hk in Hin. simpl in Hin.
    by rewrite cmp_refl in Hin.
  - split; [done|]. intros [[= -> ->]|Hin]; [by rewrite cmp_refl in E|].
    apply Hk in Hin. simpl in Hin. pose proof (cmp_trans _ _ _ E Hin) as Hc.
    by rewrite cmp_refl in Hc.
  - rewrite IH. split; [by right|]. intros [[= -> ->]|?]; [by rewrite cmp_refl in E|done].
Qed.

Lemma bt_insert_insert k v v' m : bt_insert k v (bt_insert k v' m) = bt_insert k v m.
Proof.
  induction m as [|[k1 v1] m IH]; simpl; [by rewrite cmp_refl|].
  destruct (cmp k k1) eqn:E; simpl; rewrite ?cmp_refl, ?E; [done..|]. by rewrite IH.
Qed.

(** Inserting a new key makes the map one longer; replacing keeps its length. *)
Lemma length_bt_insert k v m : bt_sorted m ->
  length (bt_insert k v m) = (if bt_get k m then length m else S (length m)).
Proof.
  induction 1 as [|[k1 v1] m Hs IH Hk]; simpl; [done|].
  destruct (cmp k k1); simpl; [done..|]. rewrite IH. by destruct (bt_get k m).
Qed.

(** A sum over a map after an insertion. *)
Lemma zsum_bt_insert (f : V -> Z) k v m : bt_sorted m ->
  zsum (fun x => f x.2) (bt_insert k v m) =
  zsum (fun x => f x.2) m - from_option f 0 (bt_get k m) + f v.
Proof.
  induction 1 as [|[k1 v1] m Hs IH Hk]; simpl; [lia|].
  destruct (cmp k k1); simpl; [lia..|]. rewrite IH. lia.
Qed.
End BTreeFacts.
Abbreviation bt_sorted := (sorted_by fst).
