(* ===== verification/Interfaces.v ===== *)
(** * What the pallets ask of the code around them

    The pallets are generic over their [Config]: the currency, the randomness,
    the per-thing arithmetic and the dispute-resolution queue are associated
    types.  Each is a class of operations here, with a second class for the
    documented behaviour the proofs rely on.  The queue is implemented by
    prediction-markets ([add_auto_resolve] and [remove_auto_resolve]) and its
    instance is that code; the other three are implemented outside the
    repository, so their instances are small reference implementations that
    show the laws can hold. *)

From S2P Require Import Prelude Errors.

(** ** Relayed calls

    [Proof] of [sp_avn_common]: who signed a relayed call, for which relayer. *)
Record Proof_ := mkProof { signer : AccountId; relayer : AccountId; signature : Z }.

(** ** Currencies *)

(** [Currency], [NamedReservableCurrency] and [LockableCurrency] of
    frame_support over a ledger [L]; [held] is the sum of all accounts' funds,
    which no operation reads. *)
Class Currency (L : Type) := {
  NegativeImbalance : Type;
  zero_imbalance : NegativeImbalance;
  peek : NegativeImbalance -> Z;
  subsume : NegativeImbalance -> NegativeImbalance -> NegativeImbalance;
  split_imbalance : NegativeImbalance -> Z -> NegativeImbalance * NegativeImbalance;
  free_balance : L -> AccountId -> Z;
  total_issuance : L -> Z;
  set_lock : Z -> AccountId -> Z -> L -> L;
  remove_lock : Z -> AccountId -> L -> L;
  can_reserve : L -> AccountId -> Z -> bool;
  reserve_named : Z -> AccountId -> Z -> L -> Res L;
  (** the amount that could not be unreserved *)
  unreserve_named : Z -> AccountId -> Z -> L -> Z * L;
  slash_reserved_named : Z -> AccountId -> Z -> L -> (NegativeImbalance * Z) * L;
  slash : AccountId -> Z -> L -> (NegativeImbalance * Z) * L;
  resolve_creating : AccountId -> NegativeImbalance -> L -> L;
  (** the imbalance comes back if the account does not exist *)
  resolve_into_existing : AccountId -> NegativeImbalance -> L -> option NegativeImbalance * L;
  issue : Z -> L -> NegativeImbalance * L;
  (** [burn] returns a positive imbalance the callers drop *)
  burn : Z -> L -> L;
  drop_imbalance : NegativeImbalance -> L -> L;
  held : L -> Z }.

(** The documented behaviour, for the ledgers that satisfy the currency's own
    invariant [ok]. *)
Class CurrencyLaws (L : Type) `{Currency L} (ok : L -> Prop) := {
  peek_nonneg : forall i, 0 <= peek i;
  peek_zero : peek zero_imbalance = 0;
  peek_subsume : forall i j, peek i + peek j <= umax 128 -> peek (subsume i j) = peek i + peek j;
  split_first : forall i v, 0 <= v -> peek (split_imbalance i v).1 = Z.min (peek i) v;
  split_sum : forall i v, 0 <= v ->
    peek (split_imbalance i v).1 + peek (split_imbalance i v).2 = peek i;
  held_range : forall l, ok l -> 0 <= held l <= umax 128;
  free_balance_held : forall l a, ok l -> 0 <= free_balance l a <= held l;
  slash_missing : forall l a v, 0 <= v -> ok l -> peek (slash a v l).1.1 + (slash a v l).1.2 = v;
  slash_missing_nonneg : forall l a v, 0 <= v -> ok l -> 0 <= (slash a v l).1.2;
  slash_held : forall l a v, 0 <= v -> ok l ->
    ok (slash a v l).2 /\ held (slash a v l).2 + peek (slash a v l).1.1 = held l;
  slash_reserved_held : forall l n a v, 0 <= v -> ok l ->
    ok (slash_reserved_named n a v l).2 /\
    held (slash_reserved_named n a v l).2 + peek (slash_reserved_named n a v l).1.1 = held l;
  unreserve_held : forall l n a v, 0 <= v -> ok l ->
    ok (unreserve_named n a v l).2 /\ held (unreserve_named n a v l).2 = held l;
  resolve_creating_held : forall l a i, ok l -> held l + peek i <= umax 128 ->
    ok (resolve_creating a i l) /\ held (resolve_creating a i l) = held l + peek i }.

(** ** Per-things *)

(** The operations of [Percent], [Perbill] and [Perquintill] in use; a per-thing is its
    number of parts. *)
Class PerThings := {
  percent_mul_floor : Z -> Z -> Z;
  (** rounds down *)
  perbill_from_rational : Z -> Z -> Z;
  perbill_mul_floor : Z -> Z -> Z;
  perbill_mul_ceil : Z -> Z -> Z;
  perquintill_from_rational : Z -> Z -> Z;
  (** [*] rounds to the nearest integer *)
  perquintill_mul : Z -> Z -> Z;
  perquintill_mul_floor : Z -> Z -> Z }.

Class PerThingsLaws `{PerThings} := {
  percent_mul_floor_spec : forall p x, 0 <= p <= 100 -> 0 <= x -> percent_mul_floor p x = p * x / 100;
  perbill_from_rational_spec : forall p q, 0 <= p -> 0 <= q ->
    perbill_from_rational p q = Z.min p (Z.max q 1) * 10 ^ 9 / Z.max q 1;
  perbill_mul_floor_spec : forall p x, 0 <= p <= 10 ^ 9 -> 0 <= x ->
    perbill_mul_floor p x = p * x / 10 ^ 9;
  perbill_mul_ceil_spec : forall p x, 0 <= p <= 10 ^ 9 -> 0 <= x ->
    perbill_mul_ceil p x = (p * x + (10 ^ 9 - 1)) / 10 ^ 9;
  perquintill_from_rational_spec : forall p q, 0 <= p -> 0 <= q ->
    perquintill_from_rational p q = Z.min p (Z.max q 1) * 10 ^ 18 / Z.max q 1;
  perquintill_mul_nonneg : forall p x, 0 <= p -> 0 <= x -> 0 <= perquintill_mul p x;
  perquintill_mul_floor_spec : forall p x, 0 <= p <= 10 ^ 18 -> 0 <= x ->
    perquintill_mul_floor p x = p * x / 10 ^ 18 }.

(** ** Randomness *)

(** [Randomness::random] of a block and a subject, and the [rand] generator
    seeded with its bytes; [choose_index] is the index [SliceRandom::choose]
    picks. *)
Class RandomSource := {
  Rng : Type;
  random : Z -> Z -> list Z;
  from_seed : list Z -> Rng;
  gen_range : Z -> Z -> Rng -> Z * Rng;
  choose_index : nat -> Rng -> nat }.

Class RandomLaws `{RandomSource} := {
  gen_range_in : forall lo hi r, lo < hi -> lo <= (gen_range lo hi r).1 < hi;
  choose_index_in : forall n r, (0 < n)%nat -> (choose_index n r < n)%nat }.

(** ** The dispute-resolution queue *)

(** [DisputeResolutionApi]: the markets to be resolved at a block. *)
Class DisputeResolutionApi (R : Type) := {
  add_auto_resolve : Z -> Z -> R -> Res Z * R;
  auto_resolve_exists : Z -> Z -> R -> bool;
  remove_auto_resolve : Z -> Z -> R -> Z * R }.

(** A market is queued once it was added, other entries are left alone, and
    an error changes nothing. *)
Class DisputeResolutionLaws (R : Type) `{DisputeResolutionApi R} := {
  add_exists : forall r m b n r', add_auto_resolve m b r = (Ok n, r') ->
    auto_resolve_exists m b r' = true;
  add_other : forall r m b n r' m' b', add_auto_resolve m b r = (Ok n, r') ->
    (m', b') <> (m, b) -> auto_resolve_exists m' b' r' = auto_resolve_exists m' b' r;
  add_error : forall r m b e r', add_auto_resolve m b r = (Err e, r') -> r' = r;
  remove_other : forall r m b n r' m' b', remove_auto_resolve m b r = (n, r') ->
    (m', b') <> (m, b) -> auto_resolve_exists m' b' r' = auto_resolve_exists m' b' r }.
