(* ===== verification/ReferenceEnv.v ===== *)
(** * Reference implementations of the outside services

    A ledger of free and reserved balances, exact per-things and a small
    generator.  They satisfy the laws of [Interfaces], and the concrete runs of
    the pallets use them. *)

From S2P Require Import Prelude Errors Interfaces.

(** ** A ledger *)

Record RefLedger := mkLedger {
  rl_free : gmap AccountId Z;
  rl_reserved : gmap (Z * AccountId) Z;
  rl_locks : gmap AccountId Z;
  rl_issuance : Z }.

Definition rl_set_free a v l :=
  mkLedger (<[a := v]> (rl_free l)) (rl_reserved l) (rl_locks l) (rl_issuance l).
Definition rl_set_reserved k v l :=
  mkLedger (rl_free l) (<[k := v]> (rl_reserved l)) (rl_locks l) (rl_issuance l).
Definition rl_free_of (l : RefLedger) (a : AccountId) : Z := default 0 (rl_free l !! a).
Definition rl_reserved_of (l : RefLedger) (k : Z * AccountId) : Z := default 0 (rl_reserved l !! k).
Definition rl_held (l : RefLedger) : Z := map_sum (rl_free l) + map_sum (rl_reserved l).

#[global] Instance ref_currency : Currency RefLedger := {|
  NegativeImbalance := N;
  zero_imbalance := 0%N;
  peek := Z.of_N;
  subsume i j := (i + j)%N;
  split_imbalance i v := (N.min i (Z.to_N v), (i - N.min i (Z.to_N v))%N);
  free_balance := rl_free_of;
  total_issuance := rl_issuance;
  set_lock _ a v l := mkLedger (rl_free l) (rl_reserved l) (<[a := v]> (rl_locks l)) (rl_issuance l);
  remove_lock _ a l := mkLedger (rl_free l) (rl_reserved l) (delete a (rl_locks l)) (rl_issuance l);
  can_reserve l a v := v <=? rl_free_of l a;
  reserve_named n a v l :=
    if v <=? rl_free_of l a
    then Ok (rl_set_reserved (n, a) (rl_reserved_of l (n, a) + v)
               (rl_set_free a (rl_free_of l a - v) l))
    else Err (Other "InsufficientBalance");
  unreserve_named n a v l :=
    let x := Z.min v (rl_reserved_of l (n, a)) in
    (v - x, rl_set_free a (rl_free_of l a + x)
              (rl_set_reserved (n, a) (rl_reserved_of l (n, a) - x) l));
  slash_reserved_named n a v l :=
    let x := Z.min v (rl_reserved_of l (n, a)) in
    ((Z.to_N x, v - x), rl_set_reserved (n, a) (rl_reserved_of l (n, a) - x) l);
  slash a v l :=
    let x := Z.min v (rl_free_of l a) in
    ((Z.to_N x, v - x), rl_set_free a (rl_free_of l a - x) l);
  resolve_creating a i l := rl_set_free a (rl_free_of l a + Z.of_N i) l;
  resolve_into_existing a i l := (None, rl_set_free a (rl_free_of l a + Z.of_N i) l);
  issue v l :=
    (Z.to_N v, mkLedger (rl_free l) (rl_reserved l) (rl_locks l) (rl_issuance l + v));
  burn _ l := l;
  drop_imbalance i l :=
    mkLedger (rl_free l) (rl_reserved l) (rl_locks l) (rl_issuance l - Z.of_N i);
  held := rl_held |}.

(** Balances are unsigned and the whole supply fits a [u128]. *)
Definition rl_ok (l : RefLedger) : Prop :=
  map_Forall (fun _ v => 0 <= v) (rl_free l) /\
  map_Forall (fun _ v => 0 <= v) (rl_reserved l) /\
  rl_held l <= umax 128.

Lemma rl_set_free_ok l a v :
  rl_ok l -> 0 <= v -> rl_held l - rl_free_of l a + v <= umax 128 ->
  rl_ok (rl_set_free a v l) /\ rl_held (rl_set_free a v l) = rl_held l - rl_free_of l a + v.
Proof.
  intros (Hf & Hr & Hh) Hv Hle.
  assert (Hheld : rl_held (rl_set_free a v l) = rl_held l - rl_free_of l a + v)
    by (unfold rl_held, rl_free_of; cbn; rewrite map_sum_insert; lia).
  split; [|done]. split_and!; [by apply map_Forall_insert_2|done|]. rewrite Hheld. lia.
Qed.

Lemma rl_set_reserved_ok l k v :
  rl_ok l -> 0 <= v -> rl_held l - rl_reserved_of l k + v <= umax 128 ->
  rl_ok (rl_set_reserved k v l) /\
  rl_held (rl_set_reserved k v l) = rl_held l - rl_reserved_of l k + v.
Proof.
  intros (Hf & Hr & Hh) Hv Hle.
  assert (Hheld : rl_held (rl_set_reserved k v l) = rl_held l - rl_reserved_of l k + v)
    by (unfold rl_held, rl_reserved_of; cbn; rewrite map_sum_insert; lia).
  split; [|done]. split_and!; [done|by apply map_Forall_insert_2|]. rewrite Hheld. lia.
Qed.

Lemma rl_bounds l a k :
  rl_ok l -> 0 <= rl_free_of l a <= rl_held l /\ 0 <= rl_reserved_of l k <= rl_held l /\
    rl_held l <= umax 128.
Proof.
  intros (Hf & Hr & Hh). pose proof (map_sum_lookup _ a Hf). pose proof (map_sum_lookup _ k Hr).
  unfold rl_held, rl_free_of, rl_reserved_of in *. lia.
Qed.

#[global] Instance ref_currency_laws : CurrencyLaws RefLedger rl_ok.
Proof.
  split; cbn.
  - intros. lia.
  - done.
  - intros. lia.
  - intros. lia.
  - intros. lia.
  - intros l Hl. pose proof (rl_bounds l 0%N (0, 0%N) Hl). lia.
  - intros l a Hl. pose proof (rl_bounds l a (0, 0%N) Hl). lia.
  - intros l a v Hv Hl. pose proof (rl_bounds l a (0, 0%N) Hl). lia.
  - intros l a v Hv Hl. lia.
  - intros l a v Hv Hl. pose proof (rl_bounds l a (0, 0%N) Hl).
    destruct (rl_set_free_ok l a (rl_free_of l a - Z.min v (rl_free_of l a)) Hl) as [? ->]; [lia..|].
    split; [done|lia].
  - intros l n a v Hv Hl. pose proof (rl_bounds l a (n, a) Hl).
    destruct (rl_set_reserved_ok l (n, a)
      (rl_reserved_of l (n, a) - Z.min v (rl_reserved_of l (n, a))) Hl) as [? ->]; [lia..|].
    split; [done|lia].
  - intros l n a v Hv Hl. pose proof (rl_bounds l a (n, a) Hl).
    remember (Z.min v (rl_reserved_of l (n, a))) as x eqn:Hx.
    destruct (rl_set_reserved_ok l (n, a) (rl_reserved_of l (n, a) - x) Hl) as [Hl' Hh']; [lia..|].
    remember (rl_set_reserved (n, a) (rl_reserved_of l (n, a) - x) l) as l' eqn:El'.
    assert (Hfree : rl_free_of l' a = rl_free_of l a) by (by subst l').
    destruct (rl_set_free_ok l' a (rl_free_of l a + x) Hl') as [? Hh'']; [lia..|].
    split; [done|lia].
  - intros l a i Hl Hle. pose proof (rl_bounds l a (0, 0%N) Hl).
    destruct (rl_set_free_ok l a (rl_free_of l a + Z.of_N i) Hl) as [? ->]; [lia..|].
    split; [done|lia].
Qed.

(** ** Per-things *)

#[global] Instance ref_per_things : PerThings := {|
  percent_mul_floor p x := p * x / 100;
  perbill_from_rational p q := Z.min p (Z.max q 1) * 10 ^ 9 / Z.max q 1;
  perbill_mul_floor p x := p * x / 10 ^ 9;
  perbill_mul_ceil p x := (p * x + (10 ^ 9 - 1)) / 10 ^ 9;
  perquintill_from_rational p q := Z.min p (Z.max q 1) * 10 ^ 18 / Z.max q 1;
  perquintill_mul p x := (p * x + 10 ^ 18 / 2) / 10 ^ 18;
  perquintill_mul_floor p x := p * x / 10 ^ 18 |}.

#[global] Instance ref_per_things_laws : PerThingsLaws.
Proof.
  split; try done. intros p x Hp Hx. cbn. apply Z.div_pos; [|lia].
  apply Z.add_nonneg_nonneg; [by apply Z.mul_nonneg_nonneg|by vm_compute].
Qed.

(** ** Randomness *)

(** A linear congruential generator seeded with the nonce. *)
#[global] Instance ref_random : RandomSource := {|
  Rng := Z;
  random block nonce := [block + nonce];
  from_seed bytes := default 0 (head bytes);
  gen_range lo hi r := (lo + r mod (hi - lo), (r * 1103515245 + 12345) mod 2 ^ 31);
  choose_index n r := Z.to_nat (r mod Z.of_nat n) |}.

#[global] Instance ref_random_laws : RandomLaws.
Proof.
  split; cbn.
  - intros lo hi r Hlt. pose proof (Z.mod_pos_bound r (hi - lo)). lia.
  - intros n r Hn. pose proof (Z.mod_pos_bound r (Z.of_nat n)). lia.
Qed.
