(* ===== verification/Balances.v ===== *)
(** * The native currency with locks

    [Currency] and [LockableCurrency] of frame_support as global-disputes and
    node-manager use them, with the documented behaviour the proofs rely on, and
    a reference ledger.  Balances are [u128]; locks are always for
    [WithdrawReasons::TRANSFER]. *)

From S2P Require Import Prelude Errors.

Inductive ExistenceRequirement := KeepAlive | AllowDeath.

(** [b_locked] observes the amount of a lock by its identifier. *)
Class Balances (L : Type) := {
  b_free : L -> AccountId -> Z;
  minimum_balance : Z;
  b_transfer : AccountId -> AccountId -> Z -> ExistenceRequirement -> ST DispatchError L unit;
  b_set_lock : Z -> AccountId -> Z -> L -> L;
  b_extend_lock : Z -> AccountId -> Z -> L -> L;
  b_remove_lock : Z -> AccountId -> L -> L;
  b_locked : L -> Z -> AccountId -> Z }.

(** The free balance of [x] after [v] moved from [a] to [b]. *)
Definition moved {L} `{Balances L} (l : L) (a b : AccountId) (v : Z) (x : AccountId) : Z :=
  b_free l x - (if decide (x = a) then v else 0) + (if decide (x = b) then v else 0).

(** Behaviour for the ledgers [ok] of the currency.  A transfer that leaves the
    sender below the minimum balance removes the rest, so balances are known
    only when it does not. *)
Class BalancesLaws (L : Type) `{Balances L} (ok : L -> Prop) := {
  minimum_nonneg : 0 <= minimum_balance;
  b_free_range : forall l a, ok l -> 0 <= b_free l a <= umax 128;
  b_locked_nonneg : forall l id a, ok l -> 0 <= b_locked l id a;
  b_transfer_err : forall l a b v k e l', b_transfer a b v k l = (Err e, l') -> l' = l;
  b_transfer_ok : forall l a b v k l', ok l -> 0 <= v -> b_transfer a b v k l = (Ok tt, l') ->
    ok l' /\ (forall id x, b_locked l' id x = b_locked l id x);
  b_transfer_le : forall l a b v k l', ok l -> 0 <= v -> b_transfer a b v k l = (Ok tt, l') ->
    a <> b -> v <= b_free l a /\ (forall x, b_free l' x <= moved l a b v x);
  b_transfer_other : forall l a b v k l' x, ok l -> 0 <= v -> b_transfer a b v k l = (Ok tt, l') ->
    x <> a \/ minimum_balance <= b_free l a - v -> b_free l' x = moved l a b v x;
  b_transfer_keep_alive : forall l a b v l', ok l -> 0 < v -> a <> b ->
    b_transfer a b v KeepAlive l = (Ok tt, l') -> minimum_balance <= b_free l a - v;
  b_transfer_possible : forall l a b v k, ok l -> 0 <= v -> v <= b_free l a ->
    (forall id, b_locked l id a = 0) ->
    minimum_balance <= b_free l b + v <= umax 128 ->
    k = AllowDeath \/ minimum_balance <= b_free l a - v ->
    exists l', b_transfer a b v k l = (Ok tt, l');
  b_extend_lock_spec : forall l id a v id' x, 0 <= v ->
    b_locked (b_extend_lock id a v l) id' x =
      if decide ((id', x) = (id, a)) then Z.max (b_locked l id a) v else b_locked l id' x;
  b_set_lock_spec : forall l id a v id' x, 0 <= v ->
    b_locked (b_set_lock id a v l) id' x = if decide ((id', x) = (id, a)) then v else b_locked l id' x;
  b_remove_lock_spec : forall l id a id' x,
    b_locked (b_remove_lock id a l) id' x = if decide ((id', x) = (id, a)) then 0 else b_locked l id' x;
  b_extend_lock_keeps : forall l id a v, ok l -> 0 <= v ->
    ok (b_extend_lock id a v l) /\ forall x, b_free (b_extend_lock id a v l) x = b_free l x;
  b_set_lock_keeps : forall l id a v, ok l -> 0 <= v ->
    ok (b_set_lock id a v l) /\ forall x, b_free (b_set_lock id a v l) x = b_free l x;
  b_remove_lock_keeps : forall l id a, ok l ->
    ok (b_remove_lock id a l) /\ forall x, b_free (b_remove_lock id a l) x = b_free l x }.

(** ** A reference ledger *)

Record RefBalances := mkRefBalances {
  rb_free : gmap AccountId Z;
  rb_locks : gmap (Z * AccountId) Z }.

Definition rb_minimum : Z := 5.
Definition rb_free_of (l : RefBalances) (a : AccountId) : Z := default 0 (rb_free l !! a).
Definition rb_locked_of (l : RefBalances) (id : Z) (a : AccountId) : Z := default 0 (rb_locks l !! (id, a)).
Definition rb_set (a : AccountId) (v : Z) (l : RefBalances) : RefBalances :=
  mkRefBalances (<[a := v]> (rb_free l)) (rb_locks l).
(** The largest lock of an account. *)
Definition rb_frozen (l : RefBalances) (a : AccountId) : Z :=
  foldr (fun '((_, x), v) acc => if decide (x = a) then Z.max v acc else acc) 0 (map_to_list (rb_locks l)).

Definition rb_transfer (a b : AccountId) (v : Z) (k : ExistenceRequirement) : ST DispatchError RefBalances unit := fun l =>
  if (v =? 0) || bool_decide (a = b) then (Ok tt, l)
  else
    let rest := rb_free_of l a - v in
    let sum := rb_free_of l b + v in
    if (rest <? 0) || (rest <? rb_frozen l a) then (Err (Other "InsufficientBalance"), l)
    else if match k with KeepAlive => rest <? rb_minimum | AllowDeath => false end then (Err (Other "KeepAlive"), l)
    else if (sum <? rb_minimum) || (umax 128 <? sum) then (Err (Other "CannotCreate"), l)
    else (Ok tt, rb_set b sum (rb_set a (if rest <? rb_minimum then 0 else rest) l)).

#[global] Instance ref_balances : Balances RefBalances := {|
  b_free := rb_free_of;
  minimum_balance := rb_minimum;
  b_transfer := rb_transfer;
  b_set_lock id a v l := mkRefBalances (rb_free l) (<[(id, a) := v]> (rb_locks l));
  b_extend_lock id a v l := mkRefBalances (rb_free l) (<[(id, a) := Z.max (rb_locked_of l id a) v]> (rb_locks l));
  b_remove_lock id a l := mkRefBalances (rb_free l) (delete (id, a) (rb_locks l));
  b_locked := rb_locked_of |}.

Definition rb_ok (l : RefBalances) : Prop :=
  map_Forall (fun _ v => 0 <= v <= umax 128) (rb_free l) /\ map_Forall (fun _ v => 0 <= v) (rb_locks l).

Lemma rb_ok_range l a : rb_ok l -> 0 <= rb_free_of l a <= umax 128.
Proof.
  intros [Hl _]. unfold rb_free_of. destruct (rb_free l !! a) as [v|] eqn:Ha; [by apply (Hl a)|]. cbn. by vm_compute.
Qed.

Lemma rb_free_le l a b : map_Forall (fun _ v => v <= b) (rb_free l) -> 0 <= b -> rb_free_of l a <= b.
Proof. intros Hl Hb. unfold rb_free_of. destruct (rb_free l !! a) as [v|] eqn:Ha; [by apply (Hl a)|done]. Qed.

Lemma rb_set_free a v l x : rb_free_of (rb_set a v l) x = if decide (x = a) then v else rb_free_of l x.
Proof.
  unfold rb_free_of, rb_set. cbn. case_decide as Hx; [by rewrite Hx, lookup_insert_eq|].
  by rewrite lookup_insert_ne.
Qed.

Lemma rb_set_ok a v l : rb_ok l -> 0 <= v <= umax 128 -> rb_ok (rb_set a v l).
Proof. intros [? ?]. split; [by apply map_Forall_insert_2|done]. Qed.

Lemma rb_locked_nonneg l id a : rb_ok l -> 0 <= rb_locked_of l id a.
Proof. intros [_ Hl]. unfold rb_locked_of. destruct (rb_locks l !! (id, a)) as [v|] eqn:Ha; [by apply (Hl (id, a))|done]. Qed.

(** What a successful transfer does. *)
Lemma rb_transfer_spec a b v k l l' : rb_transfer a b v k l = (Ok tt, l') ->
  (v = 0 \/ a = b) /\ l' = l \/
  v <> 0 /\ a <> b /\ 0 <= rb_free_of l a - v /\ (k = KeepAlive -> rb_minimum <= rb_free_of l a - v) /\
  rb_minimum <= rb_free_of l b + v <= umax 128 /\
  l' = rb_set b (rb_free_of l b + v)
         (rb_set a (if rb_free_of l a - v <? rb_minimum then 0 else rb_free_of l a - v) l).
Proof.
  unfold rb_transfer. destruct (Z.eqb_spec v 0) as [->|Hv]; cbn [orb]; [intros [= <-]; auto|].
  case_bool_decide as Hab; [intros [= <-]; auto|].
  destruct (_ || _) eqn:H1; [done|]. apply orb_false_iff in H1 as [H1 _].
  destruct (match k with KeepAlive => _ | AllowDeath => _ end) eqn:H2; [done|].
  destruct (_ || _) eqn:H3; [done|]. apply orb_false_iff in H3 as [H3 H4]. intros [= <-]. right.
  split_and!; try done; try lia. intros ->. lia.
Qed.

Lemma rb_frozen_zero l a : (forall id, rb_locked_of l id a = 0) -> rb_frozen l a = 0.
Proof.
  intros Hl. unfold rb_frozen.
  assert (Hin : forall k v, (k, v) ∈ map_to_list (rb_locks l) -> k.2 = a -> v = 0).
  { intros [id x] v Hk%elem_of_map_to_list Hx. cbn in Hx. subst x. specialize (Hl id).
    unfold rb_locked_of in Hl. by rewrite Hk in Hl. }
  revert Hin. generalize (map_to_list (rb_locks l)). intros ll Hin.
  induction ll as [|[[id x] v] ll IH]; [done|]. cbn. rewrite IH by (intros; eapply Hin; [by right|done]).
  case_decide as Hx; [|done]. rewrite (Hin (id, x) v); [done|by left|done].
Qed.

#[global] Instance ref_balances_laws : BalancesLaws RefBalances rb_ok.
Proof.
  split; cbn [b_free minimum_balance b_transfer b_set_lock b_extend_lock b_remove_lock b_locked ref_balances].
  - done.
  - apply rb_ok_range.
  - apply rb_locked_nonneg.
  - intros l a b v k e l'. unfold rb_transfer. repeat case_match; congruence.
  - intros l a b v k l' Hl Hv Ht. pose proof (rb_ok_range l a Hl).
    apply rb_transfer_spec in Ht as [[_ ->]|(? & ? & ? & ? & ? & ->)]; [done|].
    split; [|done]. apply rb_set_ok; [apply rb_set_ok; [done|]|].
    + destruct (_ <? _); unfold rb_minimum in *; [by vm_compute|lia].
    + unfold rb_minimum in *. lia.
  - intros l a b v k l' Hl Hv Ht Hab. pose proof (rb_ok_range l a Hl).
    apply rb_transfer_spec in Ht as [[[->|?] ->]|(? & ? & ? & ? & ? & ->)]; [|done|].
    + split; [lia|]. intros x. unfold moved. cbn. repeat case_decide; lia.
    + split; [lia|]. intros x. unfold moved. cbn. rewrite !rb_set_free.
      unfold rb_minimum in *. repeat case_decide; subst; try done; try lia; case_match; lia.
  - intros l a b v k l' x Hl Hv Ht Hx. pose proof (rb_ok_range l a Hl).
    apply rb_transfer_spec in Ht as [[[->| ->] ->]|(? & ? & ? & ? & ? & ->)].
    + unfold moved. cbn. repeat case_decide; lia.
    + unfold moved. cbn. repeat case_decide; lia.
    + unfold moved. cbn. rewrite !rb_set_free. repeat case_decide; subst; try done; try lia.
      destruct Hx as [?|Hx]; [done|]. case_match; lia.
  - intros l a b v l' Hl Hv Hab Ht.
    apply rb_transfer_spec in Ht as [[[?|?] _]|(? & ? & ? & Hk & _)]; [lia|done|]. by apply Hk.
  - intros l a b v k Hl Hv Hle Hlock Hb Hk. unfold rb_transfer.
    destruct (_ || _) eqn:H0; [eauto|]. rewrite (rb_frozen_zero l a Hlock).
    destruct (Z.ltb_spec (rb_free_of l a - v) 0) as [?|_]; [lia|]. cbn [orb].
    assert (Hkeep : match k with KeepAlive => rb_free_of l a - v <? rb_minimum | AllowDeath => false end = false)
      by (destruct k; [destruct Hk as [?|?]; [done|lia]|done]).
    rewrite Hkeep.
    destruct (Z.ltb_spec (rb_free_of l b + v) rb_minimum) as [?|_]; [lia|].
    destruct (Z.ltb_spec (umax 128) (rb_free_of l b + v)) as [?|_]; [lia|]. cbn [orb]. eauto.
  - intros l id a v id' x Hv. unfold rb_locked_of at 1. cbn.
    case_decide as Hk; [by rewrite Hk, lookup_insert_eq|by rewrite lookup_insert_ne].
  - intros l id a v id' x Hv. unfold rb_locked_of at 1. cbn.
    case_decide as Hk; [by rewrite Hk, lookup_insert_eq|by rewrite lookup_insert_ne].
  - intros l id a id' x. unfold rb_locked_of at 1. cbn.
    case_decide as Hk; [by rewrite Hk, lookup_delete_eq|by rewrite lookup_delete_ne].
  - intros l id a v Hl Hv. pose proof (rb_locked_nonneg l id a Hl). split; [|done]. split; [apply Hl|].
    apply map_Forall_insert_2; [lia|apply Hl].
  - intros l id a v Hl Hv. split; [|done]. split; [apply Hl|]. apply map_Forall_insert_2; [done|apply Hl].
  - intros l id a Hl. split; [|done]. split; [apply Hl|]. apply map_Forall_delete, Hl.
Qed.
