(* ===== verification/NodeManager.v ===== *)
(** * The node manager: registry, heartbeats and rewards

    The pallet of [src/pallets/node-manager/src] ([lib.rs], [types.rs],
    [reward.rs], [migration.rs]): nodes are registered with an owner, show that
    they are alive with heartbeats, and at the end of a reward period a pot is
    shared out by uptime, a batch of nodes per call.  The currency, SCALE
    encoding, signatures and the multiplication of [Perbill] are parameters; so
    is the order of storage keys, from which only injectivity is needed (the key
    of [Blake2_128Concat] ends with the node itself).  Weights are left out. *)

From S2P Require Import Prelude Errors FixedMath Interfaces Balances.

(** ** Types *)

Record RewardPeriodInfo := mkPeriod { current : Z; first : Z; period_length : Z; uptime_threshold : Z }.
Definition RewardPeriodInfo_default : RewardPeriodInfo := mkPeriod 0 0 20 (umax 32).
Definition should_update (p : RewardPeriodInfo) (now : Z) : bool := period_length p <=? saturating_sub now (first p).
Definition period_update (p : RewardPeriodInfo) (now threshold : Z) : RewardPeriodInfo :=
  mkPeriod (saturating_add 64 (current p) 1) now (period_length p) threshold.

Record RewardPotInfo := mkPot { total_reward : Z; pot_threshold : Z }.
Record UptimeInfo := mkUptime { count : Z; last_reported : Z }.
Record PaymentPointer := mkPointer { ptr_period : Z; ptr_node : AccountId }.
Record NodeInfo := mkNode { node_owner : AccountId; signing_key : Z }.

Inductive NodeAdminConfig :=
| SetNodeRegistrar (registrar : AccountId)
| SetRewardPeriod (period : Z)
| SetBatchSize (size : Z)
| SetHeartbeat (period : Z)
| SetRewardAmount (amount : Z)
| SetRewardToggle (enabled : bool)
| SetMinUptimeThreshold (threshold : Z).

Inductive NmCall :=
| register_node_call (node owner : AccountId) (key : Z)
| set_admin_config_call (config : NodeAdminConfig)
| offchain_pay_nodes_call (period : Z) (author : AccountId) (sig : Z)
| offchain_submit_heartbeat_call (node : AccountId) (period heartbeat_count sig : Z)
| signed_register_node_call (proof : Proof_) (node owner : AccountId) (key block_number : Z)
| deregister_nodes_call (owner : AccountId) (nodes : list AccountId)
| signed_deregister_nodes_call (proof : Proof_) (owner : AccountId) (nodes : list AccountId) (block_number : Z).

(** What is signed: the parameters of a relayed call, a payout request or a
    heartbeat, each with its context. *)
Inductive NmPayload :=
| SignedRegister (relayer node owner : AccountId) (key block_number : Z)
| SignedDeregister (relayer owner : AccountId) (nodes : list AccountId) (number block_number : Z)
| PayoutRequest (period : Z)
| Heartbeat (heartbeat_count period : Z).

Class NmConfig := {
  NmLedger : Type;
  nm_balances :: Balances NmLedger;
  reward_pot_account : AccountId;
  NmSignedTxLifetime : Z;
  (** the number the final storage key of a node encodes *)
  node_key : AccountId -> N;
  perbill_mul : Z -> Z -> Z;
  nm_encode : NmPayload -> list Z;
  nm_verify_signature : Proof_ -> list Z -> bool;
  (** [verify] of a signer key, and [AVN::signature_is_valid] of an author *)
  signer_verify : Z -> list Z -> Z -> bool;
  avn_signature_is_valid : list Z -> AccountId -> Z -> bool }.

Inductive NmEvent :=
| NodeRegistered (owner node : AccountId)
| RewardPeriodLengthSet (period_index old_length new_length : Z)
| NewRewardPeriodStarted (index length threshold previous_period_reward : Z)
| RewardPayoutCompleted (index : Z)
| RewardPaid (period : Z) (owner node : AccountId) (amount : Z)
| ErrorPayingReward (period : Z) (node : AccountId) (amount : Z) (error : DispatchError)
| NodeRegistrarSet (new_registrar : AccountId)
| BatchSizeSet (new_size : Z)
| HeartbeatPeriodSet (new_period : Z)
| HeartbeatReceived (index : Z) (node : AccountId)
| RewardAmountSet (new_amount : Z)
| RewardToggled (enabled : bool)
| MinUptimeThresholdSet (threshold : Z)
| NodeDeregistered (owner node : AccountId).

Section NodeManager.
Context `{NmConfig}.

(** ** Storage *)

Record NmState := mkNm {
  NodeRegistry : gmap AccountId NodeInfo;
  TotalRegisteredNodes : Z;
  OwnedNodes : gset (AccountId * AccountId);
  OwnedNodesCount : gmap AccountId Z;
  NodeRegistrar : option AccountId;
  MaxBatchSize : Z;
  HeartbeatPeriod : Z;
  RewardAmount : Z;
  RewardPot : gmap Z RewardPotInfo;
  RewardPeriod : RewardPeriodInfo;
  OldestUnpaidRewardPeriodIndex : Z;
  LastPaidPointer : option PaymentPointer;
  NodeUptime : gmap Z (gmap AccountId UptimeInfo);
  TotalUptime : gmap Z Z;
  RewardEnabled : bool;
  MinUptimeThreshold : option Z;
  nm_ledger : NmLedger;
  nm_block : Z;
  nm_events : list NmEvent }.

(** One setter per storage item. *)
Definition set_NodeRegistry x s :=
  mkNm x (TotalRegisteredNodes s) (OwnedNodes s) (OwnedNodesCount s) (NodeRegistrar s) (MaxBatchSize s)
    (HeartbeatPeriod s) (RewardAmount s) (RewardPot s) (RewardPeriod s) (OldestUnpaidRewardPeriodIndex s)
    (LastPaidPointer s) (NodeUptime s) (TotalUptime s) (RewardEnabled s) (MinUptimeThreshold s) (nm_ledger s)
    (nm_block s) (nm_events s).
Definition set_TotalRegisteredNodes x s :=
  mkNm (NodeRegistry s) x (OwnedNodes s) (OwnedNodesCount s) (NodeRegistrar s) (MaxBatchSize s)
    (HeartbeatPeriod s) (RewardAmount s) (RewardPot s) (RewardPeriod s) (OldestUnpaidRewardPeriodIndex s)
    (LastPaidPointer s) (NodeUptime s) (TotalUptime s) (RewardEnabled s) (MinUptimeThreshold s) (nm_ledger s)
    (nm_block s) (nm_events s).
Definition set_OwnedNodes x s :=
  mkNm (NodeRegistry s) (TotalRegisteredNodes s) x (OwnedNodesCount s) (NodeRegistrar s) (MaxBatchSize s)
    (HeartbeatPeriod s) (RewardAmount s) (RewardPot s) (RewardPeriod s) (OldestUnpaidRewardPeriodIndex s)
    (LastPaidPointer s) (NodeUptime s) (TotalUptime s) (RewardEnabled s) (MinUptimeThreshold s) (nm_ledger s)
    (nm_block s) (nm_events s).
Definition set_OwnedNodesCount x s :=
  mkNm (NodeRegistry s) (TotalRegisteredNodes s) (OwnedNodes s) x (NodeRegistrar s) (MaxBatchSize s)
    (HeartbeatPeriod s) (RewardAmount s) (RewardPot s) (RewardPeriod s) (OldestUnpaidRewardPeriodIndex s)
    (LastPaidPointer s) (NodeUptime s) (TotalUptime s) (RewardEnabled s) (MinUptimeThreshold s) (nm_ledger s)
    (nm_block s) (nm_events s).
Definition set_NodeRegistrar x s :=
  mkNm (NodeRegistry s) (TotalRegisteredNodes s) (OwnedNodes s) (OwnedNodesCount s) x (MaxBatchSize s)
    (HeartbeatPeriod s) (RewardAmount s) (RewardPot s) (RewardPeriod s) (OldestUnpaidRewardPeriodIndex s)
    (LastPaidPointer s) (NodeUptime s) (TotalUptime s) (RewardEnabled s) (MinUptimeThreshold s) (nm_ledger s)
    (nm_block s) (nm_events s).
Definition set_MaxBatchSize x s :=
  mkNm (NodeRegistry s) (TotalRegisteredNodes s) (OwnedNodes s) (OwnedNodesCount s) (NodeRegistrar s) x
    (HeartbeatPeriod s) (RewardAmount s) (RewardPot s) (RewardPeriod s) (OldestUnpaidRewardPeriodIndex s)
    (LastPaidPointer s) (NodeUptime s) (TotalUptime s) (RewardEnabled s) (MinUptimeThreshold s) (nm_ledger s)
    (nm_block s) (nm_events s).
Definition set_HeartbeatPeriod x s :=
  mkNm (NodeRegistry s) (TotalRegisteredNodes s) (OwnedNodes s) (OwnedNodesCount s) (NodeRegistrar s)
    (MaxBatchSize s) x (RewardAmount s) (RewardPot s) (RewardPeriod s) (OldestUnpaidRewardPeriodIndex s)
    (LastPaidPointer s) (NodeUptime s) (TotalUptime s) (RewardEnabled s) (MinUptimeThreshold s) (nm_ledger s)
    (nm_block s) (nm_events s).
Definition set_RewardAmount x s :=
  mkNm (NodeRegistry s) (TotalRegisteredNodes s) (OwnedNodes s) (OwnedNodesCount s) (NodeRegistrar s)
    (MaxBatchSize s) (HeartbeatPeriod s) x (RewardPot s) (RewardPeriod s) (OldestUnpaidRewardPeriodIndex s)
    (LastPaidPointer s) (NodeUptime s) (TotalUptime s) (RewardEnabled s) (MinUptimeThreshold s) (nm_ledger s)
    (nm_block s) (nm_events s).
Definition set_RewardPot x s :=
  mkNm (NodeRegistry s) (TotalRegisteredNodes s) (OwnedNodes s) (OwnedNodesCount s) (NodeRegistrar s)
    (MaxBatchSize s) (HeartbeatPeriod s) (RewardAmount s) x (RewardPeriod s) (OldestUnpaidRewardPeriodIndex s)
    (LastPaidPointer s) (NodeUptime s) (TotalUptime s) (RewardEnabled s) (MinUptimeThreshold s) (nm_ledger s)
    (nm_block s) (nm_events s).
Definition set_RewardPeriod x s :=
  mkNm (NodeRegistry s) (TotalRegisteredNodes s) (OwnedNodes s) (OwnedNodesCount s) (NodeRegistrar s)
    (MaxBatchSize s) (HeartbeatPeriod s) (RewardAmount s) (RewardPot s) x (OldestUnpaidRewardPeriodIndex s)
    (LastPaidPointer s) (NodeUptime s) (TotalUptime s) (RewardEnabled s) (MinUptimeThreshold s) (nm_ledger s)
    (nm_block s) (nm_events s).
Definition set_OldestUnpaidRewardPeriodIndex x s :=
  mkNm (NodeRegistry s) (TotalRegisteredNodes s) (OwnedNodes s) (OwnedNodesCount s) (NodeRegistrar s)
    (MaxBatchSize s) (HeartbeatPeriod s) (RewardAmount s) (RewardPot s) (RewardPeriod s) x (LastPaidPointer s)
    (NodeUptime s) (TotalUptime s) (RewardEnabled s) (MinUptimeThreshold s) (nm_ledger s) (nm_block s)
    (nm_events s).
Definition set_LastPaidPointer x s :=
  mkNm (NodeRegistry s) (TotalRegisteredNodes s) (OwnedNodes s) (OwnedNodesCount s) (NodeRegistrar s)
    (MaxBatchSize s) (HeartbeatPeriod s) (RewardAmount s) (RewardPot s) (RewardPeriod s)
    (OldestUnpaidRewardPeriodIndex s) x (NodeUptime s) (TotalUptime s) (RewardEnabled s) (MinUptimeThreshold
    s) (nm_ledger s) (nm_block s) (nm_events s).
Definition set_NodeUptime x s :=
  mkNm (NodeRegistry s) (TotalRegisteredNodes s) (OwnedNodes s) (OwnedNodesCount s) (NodeRegistrar s)
    (MaxBatchSize s) (HeartbeatPeriod s) (RewardAmount s) (RewardPot s) (RewardPeriod s)
    (OldestUnpaidRewardPeriodIndex s) (LastPaidPointer s) x (TotalUptime s) (RewardEnabled s)
    (MinUptimeThreshold s) (nm_ledger s) (nm_block s) (nm_events s).
Definition set_TotalUptime x s :=
  mkNm (NodeRegistry s) (TotalRegisteredNodes s) (OwnedNodes s) (OwnedNodesCount s) (NodeRegistrar s)
    (MaxBatchSize s) (HeartbeatPeriod s) (RewardAmount s) (RewardPot s) (RewardPeriod s)
    (OldestUnpaidRewardPeriodIndex s) (LastPaidPointer s) (NodeUptime s) x (RewardEnabled s)
    (MinUptimeThreshold s) (nm_ledger s) (nm_block s) (nm_events s).
Definition set_RewardEnabled x s :=
  mkNm (NodeRegistry s) (TotalRegisteredNodes s) (OwnedNodes s) (OwnedNodesCount s) (NodeRegistrar s)
    (MaxBatchSize s) (HeartbeatPeriod s) (RewardAmount s) (RewardPot s) (RewardPeriod s)
    (OldestUnpaidRewardPeriodIndex s) (LastPaidPointer s) (NodeUptime s) (TotalUptime s) x (MinUptimeThreshold
    s) (nm_ledger s) (nm_block s) (nm_events s).
Definition set_MinUptimeThreshold x s :=
  mkNm (NodeRegistry s) (TotalRegisteredNodes s) (OwnedNodes s) (OwnedNodesCount s) (NodeRegistrar s)
    (MaxBatchSize s) (HeartbeatPeriod s) (RewardAmount s) (RewardPot s) (RewardPeriod s)
    (OldestUnpaidRewardPeriodIndex s) (LastPaidPointer s) (NodeUptime s) (TotalUptime s) (RewardEnabled s) x
    (nm_ledger s) (nm_block s) (nm_events s).
Definition set_nm_ledger x s :=
  mkNm (NodeRegistry s) (TotalRegisteredNodes s) (OwnedNodes s) (OwnedNodesCount s) (NodeRegistrar s)
    (MaxBatchSize s) (HeartbeatPeriod s) (RewardAmount s) (RewardPot s) (RewardPeriod s)
    (OldestUnpaidRewardPeriodIndex s) (LastPaidPointer s) (NodeUptime s) (TotalUptime s) (RewardEnabled s)
    (MinUptimeThreshold s) x (nm_block s) (nm_events s).
Definition set_nm_block x s :=
  mkNm (NodeRegistry s) (TotalRegisteredNodes s) (OwnedNodes s) (OwnedNodesCount s) (NodeRegistrar s)
    (MaxBatchSize s) (HeartbeatPeriod s) (RewardAmount s) (RewardPot s) (RewardPeriod s)
    (OldestUnpaidRewardPeriodIndex s) (LastPaidPointer s) (NodeUptime s) (TotalUptime s) (RewardEnabled s)
    (MinUptimeThreshold s) (nm_ledger s) x (nm_events s).
Definition set_nm_events x s :=
  mkNm (NodeRegistry s) (TotalRegisteredNodes s) (OwnedNodes s) (OwnedNodesCount s) (NodeRegistrar s)
    (MaxBatchSize s) (HeartbeatPeriod s) (RewardAmount s) (RewardPot s) (RewardPeriod s)
    (OldestUnpaidRewardPeriodIndex s) (LastPaidPointer s) (NodeUptime s) (TotalUptime s) (RewardEnabled s)
    (MinUptimeThreshold s) (nm_ledger s) (nm_block s) x.

Abbreviation NmM := (ST DispatchError NmState).

Definition nm_error (e : NodeManagerError) : DispatchError := Module_ (NodeManagerErr e).
Definition deposit_nm_event (e : NmEvent) : NmM unit := modify (fun s => set_nm_events (nm_events s ++ [e]) s).
Definition nm_on_ledger {A} (m : ST DispatchError NmLedger A) : NmM A := fun s =>
  let '(r, l) := m (nm_ledger s) in (r, set_nm_ledger l s).

Definition uptimes_of (p : Z) (s : NmState) : gmap AccountId UptimeInfo := default ∅ (NodeUptime s !! p).
Definition set_uptimes_of (p : Z) (us : gmap AccountId UptimeInfo) (s : NmState) : NmState :=
  set_NodeUptime (if decide (us = ∅) then delete p (NodeUptime s) else <[p := us]> (NodeUptime s)) s.
Definition total_uptime_of (p : Z) (s : NmState) : Z := default 0 (TotalUptime s !! p).
Definition owned_count (owner : AccountId) (s : NmState) : Z := default 0 (OwnedNodesCount s !! owner).

(** ** Registration *)

Definition do_register_node (node owner : AccountId) (key : Z) : NmM unit :=
  s ← get;
  lift (ensure (negb (bool_decide (is_Some (NodeRegistry s !! node)))) (nm_error DuplicateNode)) ;;
  modify (fun s => set_OwnedNodes ({[(owner, node)]} ∪ OwnedNodes s) s) ;;
  modify (fun s => set_OwnedNodesCount (<[owner := saturating_add 32 (owned_count owner s) 1]> (OwnedNodesCount s)) s) ;;
  modify (fun s => set_NodeRegistry (<[node := mkNode owner key]> (NodeRegistry s)) s) ;;
  modify (fun s => set_TotalRegisteredNodes (saturating_add 32 (TotalRegisteredNodes s) 1) s) ;;
  deposit_nm_event (NodeRegistered owner node).

Definition deregister_one (owner node : AccountId) : NmM unit :=
  s ← get;
  lift (ensure (bool_decide ((owner, node) ∈ OwnedNodes s)) (nm_error NodeNotOwnedByOwner)) ;;
  modify (fun s => set_NodeRegistry (delete node (NodeRegistry s)) s) ;;
  modify (fun s => set_OwnedNodes (OwnedNodes s ∖ {[(owner, node)]}) s) ;;
  modify (fun s => set_OwnedNodesCount (<[owner := saturating_sub (owned_count owner s) 1]> (OwnedNodesCount s)) s) ;;
  modify (fun s => set_TotalRegisteredNodes (saturating_sub (TotalRegisteredNodes s) 1) s) ;;
  deposit_nm_event (NodeDeregistered owner node).

Definition do_deregister_nodes (owner : AccountId) (nodes : list AccountId) : NmM unit :=
  for_each nodes (deregister_one owner).

Definition ensure_registrar (who : AccountId) : NmM unit :=
  s ← get;
  registrar ← lift (ok_or (NodeRegistrar s) (nm_error RegistrarNotSet));
  lift (ensure (bool_decide (who = registrar)) (nm_error OriginNotRegistrar)).

Definition register_node (origin : Origin) (node owner : AccountId) (key : Z) : NmM unit :=
  who ← lift (ensure_signed origin);
  ensure_registrar who ;;
  do_register_node node owner key.

Definition deregister_nodes (origin : Origin) (owner : AccountId) (nodes : list AccountId) : NmM unit :=
  who ← lift (ensure_signed origin);
  ensure_registrar who ;;
  do_deregister_nodes owner nodes.

Definition encode_signed_register_node_params (relayer node owner : AccountId) (key block_number : Z) : list Z :=
  nm_encode (SignedRegister relayer node owner key block_number).
Definition encode_signed_deregister_node_params (relayer owner : AccountId) (nodes : list AccountId)
    (number block_number : Z) : list Z :=
  nm_encode (SignedDeregister relayer owner nodes number block_number).

(** The checks of both relayed calls. *)
Definition nm_check_signed (origin : Origin) (proof : Proof_) (block_number : Z) (payload : list Z) : NmM unit :=
  sender ← lift (ensure_signed origin);
  lift (ensure (bool_decide (sender = signer proof)) (nm_error NmSenderIsNotSigner)) ;;
  ensure_registrar sender ;;
  s ← get;
  lift (ensure (nm_block s <? saturating_add 32 block_number NmSignedTxLifetime) (nm_error NmSignedTransactionExpired)) ;;
  lift (ensure (nm_verify_signature proof payload) (nm_error NmUnauthorizedSignedTransaction)).

Definition signed_register_node (origin : Origin) (proof : Proof_) (node owner : AccountId) (key block_number : Z) : NmM unit :=
  nm_check_signed origin proof block_number
    (encode_signed_register_node_params (relayer proof) node owner key block_number) ;;
  do_register_node node owner key.

Definition signed_deregister_nodes (origin : Origin) (proof : Proof_) (owner : AccountId) (nodes : list AccountId)
    (block_number : Z) : NmM unit :=
  nm_check_signed origin proof block_number
    (encode_signed_deregister_node_params (relayer proof) owner nodes (Z.of_nat (length nodes)) block_number) ;;
  do_deregister_nodes owner nodes.

(** What the proxy signs and checks. *)
Definition nm_encoded_call_param (call : NmCall) : option (Proof_ * list Z) :=
  match call with
  | signed_register_node_call proof node owner key block_number =>
      Some (proof, encode_signed_register_node_params (relayer proof) node owner key block_number)
  | signed_deregister_nodes_call proof owner nodes block_number =>
      Some (proof, encode_signed_deregister_node_params (relayer proof) owner nodes (Z.of_nat (length nodes)) block_number)
  | _ => None
  end.
Definition nm_signature_is_valid (call : NmCall) : bool :=
  match nm_encoded_call_param call with
  | Some (proof, payload) => nm_verify_signature proof payload
  | None => false
  end.

(** ** Administration *)

Definition get_default_threshold : Z := 330000000.

Definition set_admin_config (origin : Origin) (config : NodeAdminConfig) : NmM unit :=
  lift (ensure_root origin) ;;
  s ← get;
  match config with
  | SetNodeRegistrar registrar =>
      modify (set_NodeRegistrar (Some registrar)) ;;
      deposit_nm_event (NodeRegistrarSet registrar)
  | SetRewardPeriod period =>
      lift (ensure (HeartbeatPeriod s <? period) (nm_error RewardPeriodInvalid)) ;;
      let p := RewardPeriod s in
      modify (set_RewardPeriod (mkPeriod (current p) (first p) period (uptime_threshold p))) ;;
      deposit_nm_event (RewardPeriodLengthSet (current p) (period_length p) period)
  | SetBatchSize size =>
      lift (ensure (0 <? size) (nm_error BatchSizeInvalid)) ;;
      modify (set_MaxBatchSize size) ;;
      deposit_nm_event (BatchSizeSet size)
  | SetHeartbeat period =>
      lift (ensure (0 <? period) (nm_error HeartbeatPeriodZero)) ;;
      lift (ensure (period <? period_length (RewardPeriod s)) (nm_error HeartbeatPeriodInvalid)) ;;
      modify (set_HeartbeatPeriod period) ;;
      deposit_nm_event (HeartbeatPeriodSet period)
  | SetRewardAmount amount =>
      lift (ensure (0 <? amount) (nm_error RewardAmountZero)) ;;
      modify (set_RewardAmount amount) ;;
      deposit_nm_event (RewardAmountSet amount)
  | SetRewardToggle enabled =>
      modify (set_RewardEnabled enabled) ;;
      deposit_nm_event (RewardToggled enabled)
  | SetMinUptimeThreshold threshold =>
      lift (ensure (0 <? threshold) (nm_error UptimeThresholdZero)) ;;
      modify (set_MinUptimeThreshold (Some threshold)) ;;
      deposit_nm_event (MinUptimeThresholdSet threshold)
  end.

(** ** Heartbeats *)

(** [saturating_div] of [u32] panics for a zero divisor. *)
Definition calculate_uptime_threshold (reward_period_length : Z) (s : NmState) : Res Z :=
  let threshold := default get_default_threshold (MinUptimeThreshold s) in
  max_heartbeats ← ok_or (checked_div reward_period_length (HeartbeatPeriod s)) Panicked;
  mret (perbill_mul threshold max_heartbeats).

(** [last_reported + HeartbeatPeriod] wraps around. *)
Definition validate_heartbeats (node : AccountId) (period heartbeat_count : Z) (s : NmState) : Res unit :=
  ensure (bool_decide (is_Some (NodeRegistry s !! node))) (nm_error NodeNotRegistered) ;;
  ensure (current (RewardPeriod s) =? period) (nm_error InvalidHeartbeat) ;;
  match uptimes_of period s !! node with
  | Some info =>
      ensure (count info <? uptime_threshold (RewardPeriod s)) (nm_error HeartbeatThresholdReached) ;;
      ensure (wrapping_add 32 (last_reported info) (HeartbeatPeriod s) <? nm_block s) (nm_error DuplicateHeartbeat) ;;
      ensure (heartbeat_count =? count info) (nm_error InvalidHeartbeat)
  | None => ensure (heartbeat_count =? 0) (nm_error InvalidHeartbeat)
  end.

Definition next_uptime (o : option UptimeInfo) (now : Z) : UptimeInfo :=
  match o with
  | Some info => mkUptime (saturating_add 64 (count info) 1) now
  | None => mkUptime 1 now
  end.

Definition offchain_submit_heartbeat (origin : Origin) (node : AccountId) (period heartbeat_count : Z) : NmM unit :=
  lift (ensure_none origin) ;;
  s ← get;
  lift (validate_heartbeats node period heartbeat_count s) ;;
  let p := current (RewardPeriod s) in
  modify (set_uptimes_of p (<[node := next_uptime (uptimes_of p s !! node) (nm_block s)]> (uptimes_of p s))) ;;
  modify (fun s => set_TotalUptime (<[p := saturating_add 64 (total_uptime_of p s) 1]> (TotalUptime s)) s) ;;
  deposit_nm_event (HeartbeatReceived p node).

(** ** Rewards *)

Definition calculate_node_uptime (actual_uptime threshold : Z) : Z :=
  if threshold <=? actual_uptime then threshold else actual_uptime.

Definition calculate_reward (uptime total_uptime total_reward : Z) : Res Z :=
  bmul_bdiv 128 total_reward (saturated_into 128 uptime) (saturated_into 128 total_uptime).

Definition pay_reward (period : Z) (node : AccountId) (amount : Z) : NmM unit :=
  s ← get;
  match NodeRegistry s !! node with
  | None => deposit_nm_event (ErrorPayingReward period node amount (nm_error NodeNotRegistered))
  | Some info =>
      nm_on_ledger (b_transfer reward_pot_account (node_owner info) amount KeepAlive) ;;
      deposit_nm_event (RewardPaid period (node_owner info) node amount)
  end.

Definition remove_paid_nodes (period : Z) (nodes : list AccountId) : NmM unit :=
  modify (fun s => set_uptimes_of period (foldl (fun us n => delete n us) (uptimes_of period s) nodes) s).

Definition complete_reward_payout (period : Z) : NmM unit :=
  modify (set_OldestUnpaidRewardPeriodIndex (saturating_add 64 period 1)) ;;
  modify (set_LastPaidPointer None) ;;
  modify (fun s => set_TotalUptime (delete period (TotalUptime s)) s) ;;
  modify (fun s => set_RewardPot (delete period (RewardPot s)) s) ;;
  deposit_nm_event (RewardPayoutCompleted period).

Definition update_last_paid_pointer (period : Z) (last_node_paid : option AccountId) : NmM unit :=
  match last_node_paid with
  | Some node => modify (set_LastPaidPointer (Some (mkPointer period node)))
  | None => mret tt
  end.

Definition reward_pot_balance (s : NmState) : Z :=
  saturating_sub (b_free (nm_ledger s) reward_pot_account) minimum_balance.

(** [NodeUptime::iter_prefix], in the order of the storage keys, and
    [iter_prefix_from] a key. *)
Definition by_key (x y : AccountId * UptimeInfo) : Prop := (node_key x.1 <= node_key y.1)%N.
#[global] Instance by_key_dec : RelDecision by_key.
Proof. intros x y. unfold by_key. apply _. Defined.
Definition iter_prefix (p : Z) (s : NmState) : list (AccountId * UptimeInfo) :=
  merge_sort by_key (map_to_list (uptimes_of p s)).
Definition iter_prefix_from (p : Z) (key : N) (s : NmState) : list (AccountId * UptimeInfo) :=
  filter (fun x => (key < node_key x.1)%N) (iter_prefix p s).

Definition get_iterator_from_last_paid (oldest : Z) (ptr : PaymentPointer) (s : NmState) :
    Res (list (AccountId * UptimeInfo)) :=
  ensure (ptr_period ptr =? oldest) (nm_error InvalidPeriodPointer) ;;
  ensure (negb (bool_decide (is_Some (uptimes_of oldest s !! ptr_node ptr)))) (nm_error InvalidNodePointer) ;;
  mret (iter_prefix_from oldest (node_key (ptr_node ptr)) s).

(** One round of the payment loop. *)
Definition pay_node (period : Z) (pot : RewardPotInfo) (total_heartbeats : Z) (x : AccountId * UptimeInfo) : NmM unit :=
  let node_uptime := calculate_node_uptime (count x.2) (pot_threshold pot) in
  reward_amount ← lift (calculate_reward node_uptime total_heartbeats (total_reward pot));
  pay_reward period x.1 reward_amount.

(** The nodes this call may pay; a new payout asks for the whole reward. *)
Definition payout_iterator (oldest : Z) (pot : RewardPotInfo) (s : NmState) : Res (list (AccountId * UptimeInfo)) :=
  match LastPaidPointer s with
  | Some ptr => get_iterator_from_last_paid oldest ptr s
  | None =>
      ensure (total_reward pot <=? reward_pot_balance s) (nm_error InsufficientBalanceForReward) ;;
      mret (iter_prefix oldest s)
  end.

Definition pay_batch (oldest total_heartbeats : Z) : NmM unit :=
  s ← get;
  lift (ensure (0 <? total_heartbeats) (nm_error TotalUptimeNotFound)) ;;
  lift (ensure (negb (bool_decide (iter_prefix oldest s = []))) (nm_error NodeUptimeNotFound)) ;;
  pot ← match RewardPot s !! oldest with
        | Some pot => mret pot
        | None =>
            threshold ← lift (calculate_uptime_threshold (period_length (RewardPeriod s)) s);
            mret (mkPot (RewardAmount s) threshold)
        end;
  iter ← lift (payout_iterator oldest pot s);
  let batch := take (Z.to_nat (MaxBatchSize s)) iter in
  for_each batch (pay_node oldest pot total_heartbeats) ;;
  remove_paid_nodes oldest batch.*1 ;;
  match drop (Z.to_nat (MaxBatchSize s)) iter with
  | _ :: _ => update_last_paid_pointer oldest (last batch.*1)
  | [] => complete_reward_payout oldest
  end.

Definition offchain_pay_nodes (origin : Origin) (reward_period_index : Z) : NmM unit :=
  lift (ensure_none origin) ;;
  s ← get;
  let oldest := OldestUnpaidRewardPeriodIndex s in
  lift (ensure ((reward_period_index =? oldest) && (oldest <? current (RewardPeriod s)))
    (nm_error InvalidRewardPaymentRequest)) ;;
  let total_heartbeats := total_uptime_of oldest s in
  if (total_heartbeats =? 0) && bool_decide (iter_prefix oldest s = [])
  then complete_reward_payout oldest
  else pay_batch oldest total_heartbeats.

(** ** The hook and genesis *)

Definition nm_on_initialize (n : Z) : NmM unit :=
  s ← get;
  if negb (RewardEnabled s) then mret tt else
  let p := RewardPeriod s in
  if should_update p n then
    threshold ← lift (calculate_uptime_threshold (period_length p) s);
    let p' := period_update p n threshold in
    modify (set_RewardPeriod p') ;;
    modify (fun s => set_RewardPot (<[current p := mkPot (RewardAmount s) (uptime_threshold p)]> (RewardPot s)) s) ;;
    deposit_nm_event (NewRewardPeriodStarted (current p') (period_length p') (uptime_threshold p') (RewardAmount s))
  else mret tt.

(** The assertion and the division by the heartbeat period panic. *)
Definition nm_genesis_build (max_batch_size reward_period heartbeat_period reward_amount : Z) (l : NmLedger) : Res NmState :=
  ensure (heartbeat_period <? reward_period) Panicked ;;
  max_heartbeats ← ok_or (checked_div reward_period heartbeat_period) Panicked;
  mret (mkNm ∅ 0 ∅ ∅ None max_batch_size heartbeat_period reward_amount ∅
    (mkPeriod 0 0 reward_period (perbill_mul get_default_threshold max_heartbeats))
    0 None ∅ ∅ false (Some get_default_threshold) l 0 []).

(** ** Unsigned transactions and dispatch *)

Inductive TransactionSource := Local | InBlock | External.
Inductive NmValidity := NmValid (propagate : bool) | NmInvalidCustom (code : Z) | NmInvalidCall.
Definition ERROR_CODE_INVALID_PAY_SIGNATURE : Z := 1.
Definition ERROR_CODE_INVALID_HEARTBEAT_SIGNATURE : Z := 2.
Definition ERROR_CODE_INVALID_NODE : Z := 3.
Definition ERROR_CODE_REWARD_DISABLED : Z := 4.
Definition ERROR_CODE_INVALID_HEARTBEAT : Z := 5.

Definition nm_validate_unsigned (source : TransactionSource) (call : NmCall) (s : NmState) : NmValidity :=
  if negb (RewardEnabled s) then NmInvalidCustom ERROR_CODE_REWARD_DISABLED else
  match call with
  | offchain_pay_nodes_call period author sig =>
      match source with
      | External => NmInvalidCall
      | _ =>
          if avn_signature_is_valid (nm_encode (PayoutRequest period)) author sig then NmValid false
          else NmInvalidCustom ERROR_CODE_INVALID_PAY_SIGNATURE
      end
  | offchain_submit_heartbeat_call node period heartbeat_count sig =>
      match NodeRegistry s !! node with
      | Some info =>
          if negb (is_ok (validate_heartbeats node period heartbeat_count s))
          then NmInvalidCustom ERROR_CODE_INVALID_HEARTBEAT
          else if negb (signer_verify (signing_key info) (nm_encode (Heartbeat heartbeat_count period)) sig)
          then NmInvalidCustom ERROR_CODE_INVALID_HEARTBEAT_SIGNATURE
          else NmValid true
      | None => NmInvalidCustom ERROR_CODE_INVALID_NODE
      end
  | _ => NmInvalidCall
  end.

Definition nm_dispatch (origin : Origin) (call : NmCall) : NmM unit := transactional
  match call with
  | register_node_call node owner key => register_node origin node owner key
  | set_admin_config_call config => set_admin_config origin config
  | offchain_pay_nodes_call period _ _ => offchain_pay_nodes origin period
  | offchain_submit_heartbeat_call node period heartbeat_count _ =>
      offchain_submit_heartbeat origin node period heartbeat_count
  | signed_register_node_call proof node owner key block_number =>
      signed_register_node origin proof node owner key block_number
  | deregister_nodes_call owner nodes => deregister_nodes origin owner nodes
  | signed_deregister_nodes_call proof owner nodes block_number =>
      signed_deregister_nodes origin proof owner nodes block_number
  end.

(** ** The migration to storage version 4, and the interface for the watchtower *)

Definition populate_owned_nodes_count (s : NmState) : NmState :=
  let owned_nodes := foldr (fun (x : AccountId * AccountId) (m : gmap AccountId Z) =>
    <[x.1 := match m !! x.1 with Some c => saturating_add 32 c 1 | None => 1 end]> m) ∅ (elements (OwnedNodes s)) in
  set_OwnedNodesCount (owned_nodes ∪ OwnedNodesCount s) s.

Definition nm_is_authorized_watchtower (s : NmState) (node : AccountId) : bool :=
  bool_decide (is_Some (NodeRegistry s !! node)).
Definition nm_is_watchtower_owner (s : NmState) (who : AccountId) : bool :=
  bool_decide (filter (fun x => x.1 = who) (elements (OwnedNodes s)) <> []).
Definition nm_get_node_signing_key (s : NmState) (node : AccountId) : option Z :=
  signing_key <$> NodeRegistry s !! node.
Definition nm_get_watchtower_voting_weight (s : NmState) (owner : AccountId) : Z := owned_count owner s.
Definition nm_get_authorized_watchtowers_count (s : NmState) : Z := TotalRegisteredNodes s.

End NodeManager.
