(* ===== verification/NodeManagerInv.v ===== *)
(** * Runs of the node manager and its registry

    The reachable states: genesis, any dispatched call whatever its result, the
    hook of a block, and whatever other pallets do to the ledger and the block
    number.  The registry, the nodes by owner, their counts and the total agree
    in all of them, so the weights the watchtower asks for add up. *)

From S2P Require Import Prelude Errors FixedMath Interfaces Balances NodeManager.

Section NodeRuns.
Context `{NmConfig}.

Inductive nm_step : NmState -> NmState -> Prop :=
| nm_step_call o c r s s' : nm_dispatch o c s = (r, s') -> nm_step s s'
| nm_step_hook n s s' : nm_on_initialize n s = (Ok tt, s') -> nm_step s s'
| nm_step_env l n s : nm_step s (set_nm_block n (set_nm_ledger l s)).

(** [t0] is the uptime threshold of the first period. *)
Inductive nm_run (t0 : Z) : NmState -> Prop :=
| nm_run_genesis b rp hp ra l s : nm_genesis_build b rp hp ra l = Ok s -> uptime_threshold (RewardPeriod s) = t0 -> nm_run t0 s
| nm_run_step s s' : nm_run t0 s -> nm_step s s' -> nm_run t0 s'.

Lemma dispatch_err o c s e s' : nm_dispatch o c s = (Err e, s') -> s' = s.
Proof. apply transactional_err. Qed.
Lemma dispatch_ok o c s r s' : nm_dispatch o c s = (r, s') -> s' = s \/ r = Ok tt.
Proof.
  unfold nm_dispatch. destruct r as [[]|e]; [auto|]. intros Hr%transactional_err. auto.
Qed.

(** ** Counting events *)

Definition count_ev (f : NmEvent -> bool) (log : list NmEvent) : Z := zsum (fun e => if f e then 1 else 0) log.

Lemma count_ev_app f l1 l2 : count_ev f (l1 ++ l2) = count_ev f l1 + count_ev f l2.
Proof. apply zsum_app. Qed.
Lemma count_ev_nonneg f l : 0 <= count_ev f l.
Proof. apply zsum_nonneg, Forall_forall. intros e _. by destruct (f e). Qed.
Lemma count_ev_0 f l : Forall (fun e => f e = false) l -> count_ev f l = 0.
Proof. unfold count_ev. induction 1 as [|e l He _ IH]; [done|]. rewrite zsum_cons, He. lia. Qed.
Lemma count_ev_pos f l : 0 < count_ev f l -> exists e, e ∈ l /\ f e = true.
Proof.
  unfold count_ev. induction l as [|e l IH]; [cbn; lia|]. rewrite zsum_cons. destruct (f e) eqn:He.
  - intros _. exists e. split; [left|done].
  - intros (e' & ? & ?)%IH. exists e'. split; [by right|done].
Qed.

(** ** The registry *)

Definition is_registered (e : NmEvent) : bool := match e with NodeRegistered _ _ => true | _ => false end.
Definition nodes_of (o : AccountId) (owned : gset (AccountId * AccountId)) : gset (AccountId * AccountId) :=
  filter (fun x => x.1 = o) owned.

Record registry_inv (s : NmState) : Prop := mkRegistryInv {
  ri_owned : forall o n, (o, n) ∈ OwnedNodes s <-> node_owner <$> NodeRegistry s !! n = Some o;
  ri_count : forall o, owned_count o s = Z.of_nat (size (nodes_of o (OwnedNodes s)));
  ri_total : TotalRegisteredNodes s = Z.of_nat (size (NodeRegistry s));
  ri_sum : map_sum (OwnedNodesCount s) = TotalRegisteredNodes s;
  ri_size : size (OwnedNodes s) = size (NodeRegistry s);
  ri_log : TotalRegisteredNodes s <= count_ev is_registered (nm_events s) }.

(** A step that leaves the registry alone and registers nothing. *)
Definition same_registry (s s' : NmState) : Prop :=
  NodeRegistry s' = NodeRegistry s /\ TotalRegisteredNodes s' = TotalRegisteredNodes s /\
  OwnedNodes s' = OwnedNodes s /\ OwnedNodesCount s' = OwnedNodesCount s /\
  count_ev is_registered (nm_events s') = count_ev is_registered (nm_events s).
#[local] Instance same_registry_refl : Reflexive same_registry.
Proof. by intros s. Qed.
#[local] Instance same_registry_trans : Transitive same_registry.
Proof. intros s1 s2 s3 (?&?&?&?&?) (?&?&?&?&?). unfold same_registry. repeat split; congruence. Qed.

Lemma registry_inv_same s s' : same_registry s s' -> registry_inv s -> registry_inv s'.
Proof.
  intros (Hr & Ht & Ho & Hc & Hl) [H1 H2 H3 H4 H5 H6]. constructor; unfold owned_count in *; rewrite ?Hr, ?Ht, ?Ho, ?Hc, ?Hl; done.
Qed.

Lemma same_registry_event e : is_registered e = false -> keeps same_registry (deposit_nm_event e).
Proof.
  intros He s. repeat split. change (nm_events (snd _)) with (nm_events s ++ [e]).
  rewrite count_ev_app, (count_ev_0 _ [e]) by (by repeat constructor). lia.
Qed.
#[local] Hint Extern 1 (keeps same_registry (deposit_nm_event _)) => apply same_registry_event; reflexivity : keeps.
#[local] Hint Extern 2 (keeps same_registry (modify _)) => intros ?; repeat split : keeps.
Lemma same_registry_ledger {A} (m : ST DispatchError NmLedger A) : keeps same_registry (nm_on_ledger m).
Proof. intros s. unfold nm_on_ledger. destruct (m (nm_ledger s)). repeat split. Qed.
#[local] Hint Resolve same_registry_ledger : keeps.

Lemma same_registry_pay p pot t x : keeps same_registry (pay_node p pot t x).
Proof. unfold pay_node, pay_reward. keeps_tac. Qed.
Lemma keeps_for_each {A} (R : NmState -> NmState -> Prop) `{!Reflexive R, !Transitive R} (f : A -> ST DispatchError NmState unit) l :
  (forall x, keeps R (f x)) -> keeps R (for_each l f).
Proof. intros Hf. induction l as [|x l IH]; cbn; keeps_tac; auto. Qed.
Lemma same_registry_pay_batch p t : keeps same_registry (pay_batch p t).
Proof.
  unfold pay_batch, remove_paid_nodes, update_last_paid_pointer, complete_reward_payout. keeps_tac.
  all: apply (keeps_for_each same_registry), same_registry_pay.
Qed.
#[local] Hint Resolve same_registry_pay_batch : keeps.
Lemma same_registry_pay_nodes o p : keeps same_registry (offchain_pay_nodes o p).
Proof. unfold offchain_pay_nodes, complete_reward_payout. keeps_tac. Qed.
Lemma same_registry_heartbeat o n p c : keeps same_registry (offchain_submit_heartbeat o n p c).
Proof. unfold offchain_submit_heartbeat. keeps_tac. Qed.
Lemma same_registry_admin o c : keeps same_registry (set_admin_config o c).
Proof. unfold set_admin_config. keeps_tac. Qed.
Lemma same_registry_init n : keeps same_registry (nm_on_initialize n).
Proof. unfold nm_on_initialize. keeps_tac. Qed.

(** The states after a registration and after a deregistration. *)
Definition registered (node owner : AccountId) (key : Z) (s : NmState) : NmState :=
  set_nm_events (nm_events s ++ [NodeRegistered owner node])
    (set_TotalRegisteredNodes (saturating_add 32 (TotalRegisteredNodes s) 1)
      (set_NodeRegistry (<[node := mkNode owner key]> (NodeRegistry s))
        (set_OwnedNodesCount (<[owner := saturating_add 32 (owned_count owner s) 1]> (OwnedNodesCount s))
          (set_OwnedNodes ({[(owner, node)]} ∪ OwnedNodes s) s)))).
Definition deregistered (owner node : AccountId) (s : NmState) : NmState :=
  set_nm_events (nm_events s ++ [NodeDeregistered owner node])
    (set_TotalRegisteredNodes (saturating_sub (TotalRegisteredNodes s) 1)
      (set_OwnedNodesCount (<[owner := saturating_sub (owned_count owner s) 1]> (OwnedNodesCount s))
        (set_OwnedNodes (OwnedNodes s ∖ {[(owner, node)]})
          (set_NodeRegistry (delete node (NodeRegistry s)) s)))).

Lemma do_register_node_ok node owner key s u s' : do_register_node node owner key s = (Ok u, s') ->
  NodeRegistry s !! node = None /\ s' = registered node owner key s.
Proof.
  intros Hr. apply bind_ok in Hr as (x & s1 & [-> ->]%get_ok & Hr).
  apply bind_ok in Hr as (x & s1 & [Hn%ensure_ok ->]%lift_ok & Hr).
  assert (Hnone : NodeRegistry s !! node = None) by (apply negb_true_iff, bool_decide_eq_false in Hn; by apply eq_None_not_Some).
  injection Hr as _ <-. done.
Qed.
Lemma deregister_one_ok owner node s u s' : deregister_one owner node s = (Ok u, s') ->
  (owner, node) ∈ OwnedNodes s /\ s' = deregistered owner node s.
Proof.
  intros Hr. apply bind_ok in Hr as (x & s1 & [-> ->]%get_ok & Hr).
  apply bind_ok in Hr as (x & s1 & [Hn%ensure_ok%bool_decide_eq_true ->]%lift_ok & Hr).
  injection Hr as _ <-. done.
Qed.

Lemma nodes_of_insert (o owner node : AccountId) (X : gset (AccountId * AccountId)) : (owner, node) ∉ X ->
  Z.of_nat (size (nodes_of o ({[(owner, node)]} ∪ X))) =
    Z.of_nat (size (nodes_of o X)) + (if decide (o = owner) then 1 else 0).
Proof.
  intros Hx. unfold nodes_of. destruct (decide (o = owner)) as [->|Hne].
  - assert (E : filter (fun x => x.1 = owner) ({[(owner, node)]} ∪ X) = {[(owner, node)]} ∪ filter (fun x => x.1 = owner) X)
      by set_solver.
    rewrite E, size_union, size_singleton by set_solver. lia.
  - assert (E : filter (fun x => x.1 = o) ({[(owner, node)]} ∪ X) = filter (fun x => x.1 = o) X) by set_solver.
    rewrite E. lia.
Qed.
Lemma nodes_of_remove (o owner node : AccountId) (X : gset (AccountId * AccountId)) : (owner, node) ∈ X ->
  Z.of_nat (size (nodes_of o (X ∖ {[(owner, node)]}))) =
    Z.of_nat (size (nodes_of o X)) - (if decide (o = owner) then 1 else 0).
Proof.
  intros Hx. pose proof (nodes_of_insert o owner node (X ∖ {[(owner, node)]}) ltac:(set_solver)) as Hi.
  assert (E : {[(owner, node)]} ∪ X ∖ {[(owner, node)]} = X).
  { apply set_eq. intros x. destruct (decide (x = (owner, node))); set_solver. }
  rewrite E in Hi. lia.
Qed.
Lemma nodes_of_le (o : AccountId) (X : gset (AccountId * AccountId)) : (size (nodes_of o X) <= size X)%nat.
Proof. apply subseteq_size. unfold nodes_of. set_solver. Qed.

Lemma elements_filter_size (o : AccountId) (X : gset (AccountId * AccountId)) :
  length (filter (fun x => x.1 = o) (elements X)) = size (nodes_of o X).
Proof.
  unfold nodes_of, size, set_size. cbn. apply Permutation_length, NoDup_Permutation.
  - apply NoDup_filter, NoDup_elements.
  - apply NoDup_elements.
  - intros x. rewrite list_elem_of_filter, !elem_of_elements. set_solver.
Qed.

Lemma registry_inv_register node owner key s : NodeRegistry s !! node = None -> registry_inv s ->
  TotalRegisteredNodes s < umax 32 -> registry_inv (registered node owner key s).
Proof.
  intros Hn [H1 H2 H3 H4 H5 H6] Hlt. assert (Hnot : forall o, (o, node) ∉ OwnedNodes s) by (intros o; rewrite H1, Hn; done).
  pose proof (nodes_of_le owner (OwnedNodes s)) as Hle. pose proof (H2 owner) as Ho.
  assert (Ec : saturating_add 32 (owned_count owner s) 1 = owned_count owner s + 1) by (unfold saturating_add; lia).
  assert (Et : saturating_add 32 (TotalRegisteredNodes s) 1 = TotalRegisteredNodes s + 1) by (unfold saturating_add; lia).
  constructor; unfold registered; cbn -[count_ev saturating_add size].
  - intros o n. rewrite elem_of_union, elem_of_singleton, H1. destruct (decide (n = node)) as [->|Hne].
    + rewrite lookup_insert_eq, Hn. cbn. split; [intros [[= <-]|?]; done|intros [= ->]; by left].
    + rewrite lookup_insert_ne by done. split; [by intros [[= ? ->]|?]|auto].
  - intros o. rewrite (nodes_of_insert _ _ _ _ (Hnot owner)), <- H2. unfold owned_count at 1. cbn -[saturating_add].
    destruct (decide (o = owner)) as [->|Hne].
    + rewrite lookup_insert_eq. done.
    + rewrite lookup_insert_ne by done. fold (owned_count o s). lia.
  - rewrite map_size_insert_None by done. lia.
  - rewrite map_sum_insert. fold (owned_count owner s). lia.
  - rewrite map_size_insert_None, size_union, size_singleton by (done || set_solver). lia.
  - rewrite count_ev_app. change (count_ev is_registered [NodeRegistered owner node]) with 1. lia.
Qed.

Lemma registry_inv_deregister owner node s : (owner, node) ∈ OwnedNodes s -> registry_inv s ->
  registry_inv (deregistered owner node s).
Proof.
  intros Hin [H1 H2 H3 H4 H5 H6]. assert (Hreg : is_Some (NodeRegistry s !! node)).
  { apply H1 in Hin. destruct (NodeRegistry s !! node); [by eexists|done]. }
  assert (Hpos : (0 < size (nodes_of owner (OwnedNodes s)))%nat).
  { destruct (size (nodes_of owner (OwnedNodes s))) eqn:E; [|lia]. apply size_empty_inv in E. unfold nodes_of in E. set_solver. }
  pose proof (nodes_of_le owner (OwnedNodes s)) as Hle. pose proof (H2 owner) as Ho.
  assert (Ec : saturating_sub (owned_count owner s) 1 = owned_count owner s - 1) by (unfold saturating_sub; lia).
  assert (Et : saturating_sub (TotalRegisteredNodes s) 1 = TotalRegisteredNodes s - 1) by (unfold saturating_sub; lia).
  constructor; unfold deregistered; cbn -[count_ev saturating_sub size].
  - intros o n. rewrite elem_of_difference, elem_of_singleton, H1. destruct (decide (n = node)) as [->|Hne].
    + rewrite lookup_delete_eq. cbn. apply H1 in Hin. rewrite Hin. naive_solver.
    + rewrite lookup_delete_ne by done. split; [naive_solver|]. intros ?. split; [done|]. by intros [= _ ->].
  - intros o. rewrite (nodes_of_remove _ _ _ _ Hin), <- H2. unfold owned_count at 1. cbn -[saturating_sub].
    destruct (decide (o = owner)) as [->|Hne].
    + rewrite lookup_insert_eq. done.
    + rewrite lookup_insert_ne by done. fold (owned_count o s). lia.
  - rewrite map_size_delete. destruct (NodeRegistry s !! node); [|by destruct Hreg]. lia.
  - rewrite map_sum_insert. fold (owned_count owner s). lia.
  - rewrite map_size_delete. destruct (NodeRegistry s !! node); [|by destruct Hreg].
    rewrite size_difference, size_singleton by set_solver. lia.
  - rewrite count_ev_app. change (count_ev is_registered [NodeDeregistered owner node]) with 0. lia.
Qed.

(** ** The log only grows *)

Definition log_grows (s s' : NmState) : Prop := nm_events s `prefix_of` nm_events s'.
#[local] Instance log_grows_refl : Reflexive log_grows.
Proof. intros s. unfold log_grows. reflexivity. Qed.
#[local] Instance log_grows_trans : Transitive log_grows.
Proof. intros s1 s2 s3 H1 H2. unfold log_grows in *. by etransitivity. Qed.
Lemma log_grows_event e : keeps log_grows (deposit_nm_event e).
Proof. intros s. by exists [e]. Qed.
Lemma log_grows_ledger {A} (m : ST DispatchError NmLedger A) : keeps log_grows (nm_on_ledger m).
Proof. intros s. unfold nm_on_ledger, log_grows. destruct (m (nm_ledger s)). reflexivity. Qed.
#[local] Hint Resolve log_grows_event log_grows_ledger : keeps.
#[local] Hint Extern 2 (keeps log_grows (modify _)) => intros ?; unfold log_grows; reflexivity : keeps.
Lemma log_grows_for_each {A} (f : A -> ST DispatchError NmState unit) l :
  (forall x, keeps log_grows (f x)) -> keeps log_grows (for_each l f).
Proof. apply (keeps_for_each log_grows). Qed.
#[local] Hint Resolve log_grows_for_each : keeps.

Lemma log_grows_transactional {A} (m : ST DispatchError NmState A) : keeps log_grows m -> keeps log_grows (transactional m).
Proof.
  intros Hm s. specialize (Hm s). unfold transactional. destruct (m s) as [[?|?] ?]; [done|]. unfold log_grows. reflexivity.
Qed.
Lemma log_grows_register n o k : keeps log_grows (do_register_node n o k).
Proof. unfold do_register_node. keeps_tac. Qed.
Lemma log_grows_deregister o n : keeps log_grows (deregister_one o n).
Proof. unfold deregister_one. keeps_tac. Qed.
Lemma log_grows_pay p pot t x : keeps log_grows (pay_node p pot t x).
Proof. unfold pay_node, pay_reward. keeps_tac. Qed.
#[local] Hint Resolve log_grows_register log_grows_deregister log_grows_pay : keeps.
Lemma log_grows_dispatch o c : keeps log_grows (nm_dispatch o c).
Proof.
  apply log_grows_transactional. destruct c; unfold register_node, set_admin_config, offchain_pay_nodes, pay_batch,
    remove_paid_nodes, update_last_paid_pointer, complete_reward_payout, offchain_submit_heartbeat, signed_register_node,
    deregister_nodes, signed_deregister_nodes, nm_check_signed, ensure_registrar, do_deregister_nodes.
  all: keeps_tac.
Qed.
Lemma log_grows_step s s' : nm_step s s' -> log_grows s s'.
Proof.
  destruct 1 as [o c r s s' Hr|n s s' Hr|l n s]; [exact (keeps_ok _ _ _ _ _ (log_grows_dispatch o c) Hr)| |unfold log_grows; reflexivity].
  refine (keeps_ok log_grows _ _ _ _ _ Hr). unfold nm_on_initialize. keeps_tac.
Qed.

Lemma count_ev_grows f s s' : log_grows s s' -> count_ev f (nm_events s) <= count_ev f (nm_events s').
Proof. intros [l ->]. rewrite count_ev_app. pose proof (count_ev_nonneg f l). lia. Qed.

(** ** The registry in every reachable state *)

Lemma ensure_registrar_ok who s u s' : ensure_registrar who s = (Ok u, s') -> s' = s.
Proof. unfold ensure_registrar. intros Hr. run_step Hr. done. Qed.
Lemma nm_check_signed_ok o pf b pl s u s' : nm_check_signed o pf b pl s = (Ok u, s') -> s' = s.
Proof.
  intros Hr. apply bind_ok in Hr as (w & s1 & [_ ->]%lift_ok & Hr). apply bind_ok in Hr as (? & s1 & [_ ->]%lift_ok & Hr).
  apply bind_ok in Hr as (? & s1 & ->%ensure_registrar_ok & Hr). run_step Hr. done.
Qed.

Definition few_registrations (s : NmState) : Prop := count_ev is_registered (nm_events s) <= umax 32.

Lemma few_registrations_grows s s' : log_grows s s' -> few_registrations s' -> few_registrations s.
Proof. intros Hg%(count_ev_grows is_registered). unfold few_registrations. lia. Qed.

Lemma register_inv n o k s u s' : do_register_node n o k s = (Ok u, s') -> few_registrations s' -> registry_inv s -> registry_inv s'.
Proof.
  intros [Hn ->]%do_register_node_ok Hf Hi. apply registry_inv_register; [done..|].
  pose proof (ri_log _ Hi). unfold few_registrations, registered in Hf. cbn -[count_ev] in Hf.
  rewrite count_ev_app in Hf. change (count_ev is_registered [NodeRegistered o n]) with 1 in Hf. lia.
Qed.
Lemma deregister_inv o l s u s' : do_deregister_nodes o l s = (Ok u, s') -> registry_inv s -> registry_inv s'.
Proof.
  intros Hr Hi. refine (triple_for_each registry_inv l (deregister_one o) _ s u s' Hi Hr).
  intros n _ s1 u1 s2 Hi1 [Hn ->]%deregister_one_ok. by apply registry_inv_deregister.
Qed.

Lemma registry_inv_call o c s u s' : nm_dispatch o c s = (Ok u, s') -> few_registrations s' -> registry_inv s -> registry_inv s'.
Proof.
  intros Hr%transactional_ok Hf Hi. destruct c.
  - apply bind_ok in Hr as (w & s1 & [_ ->]%lift_ok & Hr). apply bind_ok in Hr as (? & s1 & ->%ensure_registrar_ok & Hr).
    by eapply register_inv.
  - exact (registry_inv_same _ _ (keeps_ok _ _ _ _ _ (same_registry_admin _ _) Hr) Hi).
  - exact (registry_inv_same _ _ (keeps_ok _ _ _ _ _ (same_registry_pay_nodes _ _) Hr) Hi).
  - exact (registry_inv_same _ _ (keeps_ok _ _ _ _ _ (same_registry_heartbeat _ _ _ _) Hr) Hi).
  - apply bind_ok in Hr as (? & s1 & ->%nm_check_signed_ok & Hr). by eapply register_inv.
  - apply bind_ok in Hr as (w & s1 & [_ ->]%lift_ok & Hr). apply bind_ok in Hr as (? & s1 & ->%ensure_registrar_ok & Hr).
    by eapply deregister_inv.
  - apply bind_ok in Hr as (? & s1 & ->%nm_check_signed_ok & Hr). by eapply deregister_inv.
Qed.

Lemma registry_inv_step s s' : nm_step s s' -> few_registrations s' -> registry_inv s -> registry_inv s'.
Proof.
  destruct 1 as [o c r s s' Hr|n s s' Hr|l n s]; intros Hf Hi.
  - destruct (dispatch_ok _ _ _ _ _ Hr) as [->| ->]; [done|]. by eapply registry_inv_call.
  - exact (registry_inv_same _ _ (keeps_ok _ _ _ _ _ (same_registry_init n) Hr) Hi).
  - refine (registry_inv_same s _ _ Hi). repeat split.
Qed.

Lemma genesis_ok b rp hp ra l s : nm_genesis_build b rp hp ra l = Ok s ->
  s = mkNm ∅ 0 ∅ ∅ None b hp ra ∅ (RewardPeriod s) 0 None ∅ ∅ false (Some get_default_threshold) l 0 [] /\
  current (RewardPeriod s) = 0 /\ hp <> 0.
Proof.
  intros Hr. apply result_bind_ok in Hr as (? & _ & Hr). apply result_bind_ok in Hr as (m & [_ Hm]%ok_or_ok%checked_div_some & Hr).
  injection Hr as <-. done.
Qed.

Lemma registry_inv_run t0 s : nm_run t0 s -> few_registrations s -> registry_inv s.
Proof.
  induction 1 as [b rp hp ra l s Hg _|s s' _ IH Hs].
  - intros _. apply genesis_ok in Hg as [-> _]. constructor; cbn; done.
  - intros Hf. apply (registry_inv_step s); [done..|]. apply IH. exact (few_registrations_grows _ _ (log_grows_step _ _ Hs) Hf).
Qed.

(** C27. While fewer than [2^32] registrations were made, the votes of the
    watchtower add up: an account may vote for a node exactly if it is
    registered, the weight of an owner is the number of nodes registered to it,
    only owners of nodes have weight, and all weights together are the number of
    nodes the quorum is taken of. *)
Theorem voting_weights_add_up t0 s : nm_run t0 s -> few_registrations s ->
  (forall o n, (o, n) ∈ OwnedNodes s <-> node_owner <$> NodeRegistry s !! n = Some o) /\
  (forall n, nm_is_authorized_watchtower s n = true <-> exists o, (o, n) ∈ OwnedNodes s) /\
  (forall o, nm_get_watchtower_voting_weight s o = Z.of_nat (size (nodes_of o (OwnedNodes s)))) /\
  (forall o, nm_is_watchtower_owner s o = true <-> 0 < nm_get_watchtower_voting_weight s o) /\
  map_sum (OwnedNodesCount s) = nm_get_authorized_watchtowers_count s /\
  nm_get_authorized_watchtowers_count s = Z.of_nat (size (NodeRegistry s)).
Proof.
  intros Hrun Hf. destruct (registry_inv_run _ _ Hrun Hf) as [H1 H2 H3 H4 H5 H6]. split_and!; [done| |done| |done..].
  - intros n. unfold nm_is_authorized_watchtower. rewrite bool_decide_eq_true. split.
    + intros [i Hi]. exists (node_owner i). by rewrite H1, Hi.
    + intros [o Ho%H1]. destruct (NodeRegistry s !! n); [by eexists|done].
  - intros o. unfold nm_is_watchtower_owner, nm_get_watchtower_voting_weight. rewrite bool_decide_eq_true, H2.
    rewrite <- (elements_filter_size o). destruct (filter _ _) as [|x l]; cbn; [|split; [lia|done]]. split; [done|lia].
Qed.

(** The migration to storage version 4, run on a registry without counts, brings
    the counts to where every later step keeps them. *)
Definition tally_owner (x : AccountId * AccountId) (m : gmap AccountId Z) : gmap AccountId Z :=
  <[x.1 := match m !! x.1 with Some c => saturating_add 32 c 1 | None => 1 end]> m.
Lemma tally_owners (l : list (AccountId * AccountId)) o : Z.of_nat (length l) <= umax 32 ->
  default 0 (foldr tally_owner ∅ l !! o) = Z.of_nat (length (filter (fun x => x.1 = o) l)).
Proof.
  induction l as [|x l IH]; intros Hl; [done|]. cbn [length] in Hl. specialize (IH ltac:(lia)).
  pose proof (length_filter (fun y => y.1 = o) l) as Hle.
  rewrite filter_cons. cbn [foldr]. unfold tally_owner at 1. destruct (decide (x.1 = o)) as [E|Hne].
  - rewrite E, lookup_insert_eq. cbn [default length]. unfold saturating_add.
    destruct (foldr tally_owner ∅ l !! o); cbn in IH |- *; lia.
  - rewrite lookup_insert_ne by done. done.
Qed.
Theorem migration_counts s o : OwnedNodesCount s = ∅ -> Z.of_nat (size (OwnedNodes s)) <= umax 32 ->
  owned_count o (populate_owned_nodes_count s) = Z.of_nat (size (nodes_of o (OwnedNodes s))).
Proof.
  intros He Hs. unfold owned_count, populate_owned_nodes_count. cbn -[foldr umax]. rewrite He, map_union_empty.
  rewrite <- elements_filter_size. exact (tally_owners _ o Hs).
Qed.

End NodeRuns.
