(* ===== verification/NodeRewards.v ===== *)
(** * Heartbeats and rewards in every run of the node manager

    What the storage holds is read off the log of events: uptimes are counts of
    heartbeats, pots are what the hook announced, and a node with heartbeats in a
    period is paid once, when its turn in the order of storage keys comes. *)

From S2P Require Import Prelude Errors FixedMath Interfaces Balances NodeManager NodeManagerInv.

Section NodeRewards.
Context `{NmConfig} `{!Inj (=) (=) node_key}.

(** ** What the log says *)

Definition is_hb (p : Z) (n : AccountId) (e : NmEvent) : bool :=
  match e with HeartbeatReceived p' n' => (p' =? p) && bool_decide (n' = n) | _ => false end.
Definition is_hb_in (p : Z) (e : NmEvent) : bool :=
  match e with HeartbeatReceived p' _ => p' =? p | _ => false end.
(** A payment, or the note that the node is no longer registered. *)
Definition payout_of (e : NmEvent) : option (Z * AccountId * Z) :=
  match e with
  | RewardPaid p _ n a => Some (p, n, a)
  | ErrorPayingReward p n a _ => Some (p, n, a)
  | _ => None
  end.
Definition is_payout (p : Z) (n : AccountId) (e : NmEvent) : bool :=
  match payout_of e with Some (p', n', _) => (p' =? p) && bool_decide (n' = n) | None => false end.

(** Reward and threshold of a period, as announced when the next one and when
    it itself started. *)
Definition announced (t0 : Z) (log : list NmEvent) (p : Z) (pot : RewardPotInfo) : Prop :=
  (exists l t, NewRewardPeriodStarted (p + 1) l t (total_reward pot) ∈ log) /\
  (p = 0 /\ pot_threshold pot = t0 \/ exists l r, NewRewardPeriodStarted p l (pot_threshold pot) r ∈ log).

Definition u64 (x : Z) : Z := Z.min x (umax 64).

(** The share of a node: its heartbeats, up to the threshold, over all of the
    period's. *)
Definition share_of (log : list NmEvent) (p : Z) (n : AccountId) (pot : RewardPotInfo) : Res Z :=
  calculate_reward (calculate_node_uptime (u64 (count_ev (is_hb p n) log)) (pot_threshold pot))
    (u64 (count_ev (is_hb_in p) log)) (total_reward pot).

Record rewards_inv (t0 : Z) (s : NmState) : Prop := mkRewardsInv {
  rw_periods : 0 <= OldestUnpaidRewardPeriodIndex s <= current (RewardPeriod s);
  rw_heartbeats : forall p n, HeartbeatReceived p n ∈ nm_events s -> p <= current (RewardPeriod s);
  rw_started : forall i l t r, NewRewardPeriodStarted i l t r ∈ nm_events s -> i <= current (RewardPeriod s);
  rw_threshold : current (RewardPeriod s) = 0 /\ uptime_threshold (RewardPeriod s) = t0 \/
    exists l r, NewRewardPeriodStarted (current (RewardPeriod s)) l (uptime_threshold (RewardPeriod s)) r ∈ nm_events s;
  rw_total : forall p, OldestUnpaidRewardPeriodIndex s <= p -> total_uptime_of p s = u64 (count_ev (is_hb_in p) (nm_events s));
  rw_uptime : forall p n u, uptimes_of p s !! n = Some u ->
    OldestUnpaidRewardPeriodIndex s <= p <= current (RewardPeriod s) /\
    count u = u64 (count_ev (is_hb p n) (nm_events s)) /\ 0 < count_ev (is_hb p n) (nm_events s) /\
    count_ev (is_payout p n) (nm_events s) = 0;
  rw_paid : forall p n, uptimes_of p s !! n = None ->
    count_ev (is_payout p n) (nm_events s) = if 0 <? count_ev (is_hb p n) (nm_events s) then 1 else 0;
  rw_pot : forall p, OldestUnpaidRewardPeriodIndex s <= p < current (RewardPeriod s) ->
    exists pot, RewardPot s !! p = Some pot /\ announced t0 (nm_events s) p pot;
  rw_pointer : forall ptr, LastPaidPointer s = Some ptr ->
    ptr_period ptr = OldestUnpaidRewardPeriodIndex s /\ OldestUnpaidRewardPeriodIndex s < current (RewardPeriod s) /\
    forall n u, uptimes_of (OldestUnpaidRewardPeriodIndex s) s !! n = Some u -> (node_key (ptr_node ptr) < node_key n)%N;
  rw_amounts : forall e p n a, e ∈ nm_events s -> payout_of e = Some (p, n, a) ->
    p < current (RewardPeriod s) /\ exists pot, announced t0 (nm_events s) p pot /\ share_of (nm_events s) p n pot = Ok a;
  rw_pending : forall p, OldestUnpaidRewardPeriodIndex s <= p -> uptimes_of p s = ∅ -> count_ev (is_hb_in p) (nm_events s) = 0 }.

(** ** Steps that leave the rewards alone *)

Definition neutral (e : NmEvent) : bool :=
  match e with
  | HeartbeatReceived _ _ | RewardPaid _ _ _ _ | ErrorPayingReward _ _ _ _ | NewRewardPeriodStarted _ _ _ _ => false
  | _ => true
  end.

Definition same_rewards (s s' : NmState) : Prop :=
  current (RewardPeriod s') = current (RewardPeriod s) /\
  uptime_threshold (RewardPeriod s') = uptime_threshold (RewardPeriod s) /\
  OldestUnpaidRewardPeriodIndex s' = OldestUnpaidRewardPeriodIndex s /\ LastPaidPointer s' = LastPaidPointer s /\
  NodeUptime s' = NodeUptime s /\ TotalUptime s' = TotalUptime s /\ RewardPot s' = RewardPot s /\
  exists es, nm_events s' = nm_events s ++ es /\ Forall (fun e => neutral e = true) es.
#[local] Instance same_rewards_refl : Reflexive same_rewards.
Proof. intros s. unfold same_rewards. split_and!; try done. exists []. by rewrite app_nil_r. Qed.
#[local] Instance same_rewards_trans : Transitive same_rewards.
Proof.
  intros s1 s2 s3 (?&?&?&?&?&?&?&es&E&Fe) (?&?&?&?&?&?&?&es'&E'&Fe'). unfold same_rewards. split_and!; try congruence.
  exists (es ++ es'). rewrite E', E, app_assoc. split; [done|]. by apply Forall_app.
Qed.

Lemma neutral_counts f es : (forall e, f e = true -> neutral e = false) -> Forall (fun e => neutral e = true) es -> count_ev f es = 0.
Proof.
  intros Hf He. apply count_ev_0. eapply Forall_impl; [exact He|]. intros e Hn. cbn in Hn.
  destruct (f e) eqn:E; [|done]. apply Hf in E. congruence.
Qed.
Lemma hb_not_neutral p n e : is_hb p n e = true -> neutral e = false.
Proof. by destruct e. Qed.
Lemma hb_in_not_neutral p e : is_hb_in p e = true -> neutral e = false.
Proof. by destruct e. Qed.
Lemma payout_not_neutral p n e : is_payout p n e = true -> neutral e = false.
Proof. by destruct e. Qed.

Lemma announced_grows t0 l1 l2 p pot : announced t0 l1 p pot -> announced t0 (l1 ++ l2) p pot.
Proof.
  unfold announced. setoid_rewrite elem_of_app. naive_solver.
Qed.
Lemma neutral_elem e es : Forall (fun e => neutral e = true) es -> e ∈ es -> neutral e = true.
Proof. intros He Hin. by apply (proj1 (Forall_forall _ _) He). Qed.

Lemma rewards_inv_same t0 s s' : same_rewards s s' -> rewards_inv t0 s -> rewards_inv t0 s'.
Proof.
  intros (E1&E2&E3&E4&E5&E6&E7&es&E8&Fe) [H1 H2 H3 H4 H5 H6 H7 H8 H9 H10 H11].
  assert (Ch : forall p n, count_ev (is_hb p n) (nm_events s') = count_ev (is_hb p n) (nm_events s)).
  { intros p n. rewrite E8, count_ev_app, (neutral_counts _ es (hb_not_neutral p n) Fe). lia. }
  assert (Ci : forall p, count_ev (is_hb_in p) (nm_events s') = count_ev (is_hb_in p) (nm_events s)).
  { intros p. rewrite E8, count_ev_app, (neutral_counts _ es (hb_in_not_neutral p) Fe). lia. }
  assert (Cp : forall p n, count_ev (is_payout p n) (nm_events s') = count_ev (is_payout p n) (nm_events s)).
  { intros p n. rewrite E8, count_ev_app, (neutral_counts _ es (payout_not_neutral p n) Fe). lia. }
  assert (Hin : forall e, e ∈ nm_events s' -> e ∈ nm_events s \/ neutral e = true).
  { intros e. rewrite E8, elem_of_app. intros [?|?]; [by left|right]. by eapply neutral_elem. }
  assert (Ha : forall p pot, announced t0 (nm_events s) p pot -> announced t0 (nm_events s') p pot).
  { intros p pot. rewrite E8. apply announced_grows. }
  constructor; unfold uptimes_of, total_uptime_of, share_of in *; rewrite ?E1, ?E2, ?E3, ?E4, ?E5, ?E6, ?E7;
    try setoid_rewrite Ch; try setoid_rewrite Ci; try setoid_rewrite Cp; try done.
  - intros p n [?|[=]]%Hin. eauto.
  - intros i l t r [?|[=]]%Hin. eauto.
  - destruct H4 as [?|(l & r & ?)]; [by left|right]. exists l, r. rewrite E8. set_solver.
  - intros p Hp. destruct (H8 p Hp) as (pot & ? & ?). eauto.
  - intros e p n a [Hn|Hn]%Hin He; [|by destruct e].
    destruct (H10 e p n a Hn He) as (? & pot & ? & ?). eauto.
Qed.

Lemma same_rewards_event e : neutral e = true -> keeps same_rewards (deposit_nm_event e).
Proof. intros He s. unfold same_rewards. split_and!; try done. exists [e]. split; [done|]. by repeat constructor. Qed.
#[local] Hint Extern 1 (keeps same_rewards (deposit_nm_event _)) => apply same_rewards_event; reflexivity : keeps.
#[local] Hint Extern 2 (keeps same_rewards (modify _)) =>
  intros ?; unfold same_rewards; split_and!; try reflexivity; exists []; split; [apply eq_sym, app_nil_r|constructor] : keeps.
Lemma same_rewards_for_each {A} (f : A -> ST DispatchError NmState unit) l :
  (forall x, keeps same_rewards (f x)) -> keeps same_rewards (for_each l f).
Proof. apply (keeps_for_each same_rewards). Qed.
#[local] Hint Resolve same_rewards_for_each : keeps.
Lemma same_rewards_deregister o n : keeps same_rewards (deregister_one o n).
Proof. unfold deregister_one. keeps_tac. Qed.
#[local] Hint Resolve same_rewards_deregister : keeps.

(** A period ends: the pot of the old one is announced with the new one. *)
Lemma rewards_inv_hook t0 n s s' : nm_on_initialize n s = (Ok tt, s') -> current (RewardPeriod s') < umax 64 ->
  rewards_inv t0 s -> rewards_inv t0 s'.
Proof.
  intros Hr Hmax Hi. unfold nm_on_initialize in Hr. apply bind_ok in Hr as (x & s1 & [-> ->]%get_ok & Hr).
  destruct (negb (RewardEnabled s)); [by apply mret_ok in Hr as [_ ->]|].
  destruct (should_update (RewardPeriod s) n); [|by apply mret_ok in Hr as [_ ->]].
  apply bind_ok in Hr as (t & s1 & [_ ->]%lift_ok & Hr). injection Hr as <-.
  cbn -[umax saturating_add] in Hmax. destruct Hi as [H1 H2 H3 H4 H5 H6 H7 H8 H9 H10 H11].
  set (p := RewardPeriod s) in *. assert (Ec : saturating_add 64 (current p) 1 = current p + 1) by (unfold saturating_add in *; lia).
  set (e := NewRewardPeriodStarted (saturating_add 64 (current p) 1) (period_length p) t (RewardAmount s)).
  assert (Ce : forall f, f e = false -> count_ev f (nm_events s ++ [e]) = count_ev f (nm_events s)).
  { intros f Hf. rewrite count_ev_app, (count_ev_0 f [e]) by (by repeat constructor). lia. }
  assert (Cs : forall q m pot, share_of (nm_events s ++ [e]) q m pot = share_of (nm_events s) q m pot).
  { intros q m pot. unfold share_of. by rewrite !Ce. }
  constructor; cbn -[umax saturating_add count_ev share_of]; unfold uptimes_of, total_uptime_of; cbn -[umax saturating_add count_ev share_of];
    fold p; fold e; rewrite ?Ec.
  - lia.
  - intros q m. rewrite elem_of_app, list_elem_of_singleton. intros [?%H2|[=]]. lia.
  - intros i l t' r. rewrite elem_of_app, list_elem_of_singleton. intros [?%H3|[= -> _ _ _]]; lia.
  - right. exists (period_length p), (RewardAmount s). rewrite <- Ec. set_solver.
  - intros q Hq. rewrite Ce by done. by apply H5.
  - intros q m u Hu. rewrite !Ce by done. destruct (H6 q m u Hu) as (? & ? & ? & ?). split_and!; try done; lia.
  - intros q m Hu. rewrite !Ce by done. by apply H7.
  - intros q Hq. destruct (decide (q = current p)) as [->|Hne].
    + eexists. split; [apply lookup_insert_eq|]. split; cbn -[saturating_add].
      * exists (period_length p), t. rewrite <- Ec. set_solver.
      * destruct H4 as [?|(l & r & ?)]; [by left|right]. exists l, r. set_solver.
    + rewrite lookup_insert_ne by done. destruct (H8 q ltac:(lia)) as (pot & ? & ?). exists pot. split; [done|]. by apply announced_grows.
  - intros ptr Hptr. destruct (H9 ptr Hptr) as (? & ? & ?). split_and!; [done|lia|done].
  - intros e' q m a. rewrite elem_of_app, list_elem_of_singleton. intros [He| ->] Ha; [|done].
    destruct (H10 e' q m a He Ha) as (? & pot & ? & ?). split; [lia|]. exists pot. split; [by apply announced_grows|]. by rewrite Cs.
  - intros q Hq Hu. rewrite Ce by done. by apply H11.
Qed.

(** ** Heartbeats *)

Lemma uptimes_of_set q p us s : uptimes_of q (set_uptimes_of p us s) = if decide (q = p) then us else uptimes_of q s.
Proof.
  unfold uptimes_of, set_uptimes_of. cbn. destruct (decide (us = ∅)) as [->|Hne], (decide (q = p)) as [->|Hq].
  - by rewrite lookup_delete_eq.
  - by rewrite lookup_delete_ne.
  - by rewrite lookup_insert_eq.
  - by rewrite lookup_insert_ne.
Qed.

(** Nothing is paid for the period that runs. *)
Lemma no_payout_yet t0 s p n : rewards_inv t0 s -> current (RewardPeriod s) <= p -> count_ev (is_payout p n) (nm_events s) = 0.
Proof.
  intros Hi Hp. pose proof (count_ev_nonneg (is_payout p n) (nm_events s)).
  destruct (decide (0 < count_ev (is_payout p n) (nm_events s))) as [(e & Hin & He)%count_ev_pos|]; [|lia]. exfalso.
  unfold is_payout in He. destruct (payout_of e) as [[[q m] a]|] eqn:Ee; [|done]. apply andb_prop in He as [Hq%Z.eqb_eq _].
  destruct (rw_amounts _ _ Hi _ _ _ _ Hin Ee) as [? _]. lia.
Qed.

Lemma is_hb_self p n q m : is_hb q m (HeartbeatReceived p n) = true <-> q = p /\ m = n.
Proof. cbn. rewrite andb_true_iff, Z.eqb_eq, bool_decide_eq_true. naive_solver. Qed.

Definition heartbeat_state (p : Z) (n : AccountId) (s : NmState) : NmState :=
  set_nm_events (nm_events s ++ [HeartbeatReceived p n])
    (set_TotalUptime (<[p := saturating_add 64 (total_uptime_of p s) 1]> (TotalUptime s))
      (set_uptimes_of p (<[n := next_uptime (uptimes_of p s !! n) (nm_block s)]> (uptimes_of p s)) s)).

Lemma heartbeat_ok o n p c s u s' : offchain_submit_heartbeat o n p c s = (Ok u, s') ->
  validate_heartbeats n p c s = Ok tt /\ p = current (RewardPeriod s) /\ s' = heartbeat_state p n s.
Proof.
  intros Hr. apply bind_ok in Hr as (? & s1 & [_ ->]%lift_ok & Hr). apply bind_ok in Hr as (? & s1 & [-> ->]%get_ok & Hr).
  apply bind_ok in Hr as ([] & s1 & [Hv ->]%lift_ok & Hr). injection Hr as _ <-. split; [done|].
  assert (E : p = current (RewardPeriod s)); [|by rewrite E].
  unfold validate_heartbeats in Hv. apply result_bind_ok in Hv as (? & _ & Hv). apply result_bind_ok in Hv as (? & Hp%ensure_ok & _). lia.
Qed.

Lemma u64_succ x : 0 <= x -> saturating_add 64 (u64 x) 1 = u64 (x + 1).
Proof. unfold saturating_add, u64. lia. Qed.

Lemma rewards_inv_heartbeat t0 n s : rewards_inv t0 s -> rewards_inv t0 (heartbeat_state (current (RewardPeriod s)) n s).
Proof.
  intros Hi. pose proof (fun m => no_payout_yet t0 s (current (RewardPeriod s)) m Hi ltac:(lia)) as Hnp.
  destruct Hi as [H1 H2 H3 H4 H5 H6 H7 H8 H9 H10 H11].
  unfold heartbeat_state. set (p := current (RewardPeriod s)) in *.
  set (us := <[n := next_uptime (uptimes_of p s !! n) (nm_block s)]> (uptimes_of p s)).
  pose proof (fun q => uptimes_of_set q p us s) as Hup. unfold set_uptimes_of in *.
  set (N' := if decide (us = ∅) then _ else _) in *. change (forall q, default ∅ (N' !! q) = if decide (q = p) then us else uptimes_of q s) in Hup.
  set (e := HeartbeatReceived p n).
  assert (Ce : forall f, f e = false -> count_ev f (nm_events s ++ [e]) = count_ev f (nm_events s)).
  { intros f Hf. rewrite count_ev_app, (count_ev_0 f [e]) by (by repeat constructor). lia. }
  assert (C1 : forall f, f e = true -> count_ev f (nm_events s ++ [e]) = count_ev f (nm_events s) + 1).
  { intros f Hf. rewrite count_ev_app. unfold count_ev at 2. cbn -[e]. rewrite Hf. lia. }
  assert (Ci : forall q, q <> p -> is_hb_in q e = false) by (intros q Hq; cbn; lia).
  assert (Ch : forall q m, q <> p \/ m <> n -> is_hb q m e = false).
  { intros q m Hq. apply not_true_iff_false. unfold e. rewrite is_hb_self. naive_solver. }
  assert (Hpn : forall q m, is_payout q m e = false) by done.
  assert (Hold : forall q m, q <> p \/ m <> n -> default ∅ (N' !! q) !! m = uptimes_of q s !! m).
  { intros q m Hq. rewrite Hup. destruct (decide (q = p)) as [->|]; [|done]. apply lookup_insert_ne. naive_solver. }
  constructor; cbn -[umax saturating_add count_ev share_of N']; fold p.
  - done.
  - intros q m. rewrite elem_of_app, list_elem_of_singleton. intros [?%H2|[= -> _]]; lia.
  - intros i l t r. rewrite elem_of_app, list_elem_of_singleton. intros [?%H3|[=]]; done.
  - destruct H4 as [?|(l & r & ?)]; [by left|right]. exists l, r. set_solver.
  - intros q Hq. unfold total_uptime_of. cbn -[umax saturating_add count_ev N'].
    destruct (decide (q = p)) as [->|Hne].
    + rewrite lookup_insert_eq. cbn -[umax saturating_add count_ev]. fold (total_uptime_of p s). rewrite H5, C1 by (done || (cbn; lia)). apply u64_succ, count_ev_nonneg.
    + rewrite lookup_insert_ne, Ce by auto. by apply H5.
  - intros q m u. change (uptimes_of q _) with (default ∅ (N' !! q)).
    destruct (decide (q = p /\ m = n)) as [[-> ->]|Hne].
    + rewrite Hup, decide_True by done. unfold us. rewrite lookup_insert_eq. intros [= <-]. rewrite C1, (Ce (is_payout p n)) by (done || by apply is_hb_self).
      pose proof (count_ev_nonneg (is_hb p n) (nm_events s)). split_and!; [lia|lia| |lia|apply Hnp].
      destruct (uptimes_of p s !! n) as [u|] eqn:Eu; cbn -[umax saturating_add count_ev].
      * destruct (H6 p n u Eu) as (_ & -> & _). by apply u64_succ.
      * specialize (H7 p n Eu). rewrite Hnp in H7. case_match; [done|]. unfold u64. change (umax 64) with 18446744073709551615. lia.
    + assert (Hor : q <> p \/ m <> n) by (destruct (decide (q = p)); naive_solver).
      rewrite Hold, !Ce by auto. intros Hu. exact (H6 q m u Hu).
  - intros q m. change (uptimes_of q _) with (default ∅ (N' !! q)).
    destruct (decide (q = p /\ m = n)) as [[-> ->]|Hne]; [rewrite Hup, decide_True by done; unfold us; by rewrite lookup_insert_eq|].
    assert (Hor : q <> p \/ m <> n) by (destruct (decide (q = p)); naive_solver).
    rewrite Hold, !Ce by auto. apply H7.
  - intros q Hq. destruct (H8 q Hq) as (pot & ? & ?). exists pot. split; [done|]. by apply announced_grows.
  - intros ptr Hptr. destruct (H9 ptr Hptr) as (? & Hlt & Hk). split_and!; [done..|]. intros m u.
    change (uptimes_of ?q _) with (default ∅ (N' !! q)).
    rewrite Hold by (left; lia). apply Hk.
  - intros e' q m a. rewrite elem_of_app, list_elem_of_singleton. intros [He| ->] Ha; [|done].
    destruct (H10 e' q m a He Ha) as (Hq & pot & ? & ?). split; [done|]. exists pot. split; [by apply announced_grows|].
    assert (q <> p) by lia. unfold share_of in *. rewrite !Ce by auto. done.
  - intros q Hq. change (uptimes_of q _) with (default ∅ (N' !! q)). rewrite Hup. destruct (decide (q = p)) as [->|Hne].
    + intros Hu. by apply insert_non_empty in Hu.
    + rewrite Ce by auto. by apply H11.
Qed.

(** ** Payouts *)

Definition payout_event (p : Z) (pot : RewardPotInfo) (total : Z) (x : AccountId * UptimeInfo) (e : NmEvent) : Prop :=
  exists a, calculate_reward (calculate_node_uptime (count x.2) (pot_threshold pot)) total (total_reward pot) = Ok a /\
    payout_of e = Some (p, x.1, a).

Definition after_payments (es : list NmEvent) (l : NmLedger) (s : NmState) : NmState :=
  set_nm_events (nm_events s ++ es) (set_nm_ledger l s).

Lemma pay_node_ok p pot t x s u s' : pay_node p pot t x s = (Ok u, s') ->
  exists e l, s' = after_payments [e] l s /\ payout_event p pot t x e.
Proof.
  intros Hr. apply bind_ok in Hr as (a & s1 & [Ha ->]%lift_ok & Hr). apply bind_ok in Hr as (? & s1 & [-> ->]%get_ok & Hr).
  destruct (NodeRegistry s !! x.1) as [info|].
  - apply bind_ok in Hr as (? & s1 & Hl & Hr). unfold nm_on_ledger in Hl.
    destruct (b_transfer _ _ _ _ _) as [r l]. injection Hl as -> <-. injection Hr as _ <-.
    exists (RewardPaid p (node_owner info) x.1 a), l. split; [done|]. by exists a.
  - injection Hr as _ <-. exists (ErrorPayingReward p x.1 a (nm_error NodeNotRegistered)), (nm_ledger s).
    split; [by destruct s|]. by exists a.
Qed.

Lemma pay_nodes_ok p pot t batch s u s' : for_each batch (pay_node p pot t) s = (Ok u, s') ->
  exists es l, s' = after_payments es l s /\ Forall2 (payout_event p pot t) batch es.
Proof.
  revert s. induction batch as [|x batch IH]; intros s Hr; cbn in Hr.
  - apply mret_ok in Hr as [_ ->]. exists [], (nm_ledger s). split; [|constructor].
    unfold after_payments. rewrite app_nil_r. by destruct s.
  - apply bind_ok in Hr as (? & s1 & (e & l & -> & He)%pay_node_ok & Hr).
    apply IH in Hr as (es & l' & -> & Hes). exists (e :: es), l'. split; [|by constructor].
    unfold after_payments. cbn. by rewrite <- app_assoc.
Qed.

Lemma payouts_counted p pot t batch es q m : Forall2 (payout_event p pot t) batch es -> NoDup batch.*1 ->
  count_ev (is_payout q m) es = if decide (q = p /\ m ∈ batch.*1) then 1 else 0.
Proof.
  induction 1 as [|x e batch es (a & _ & He) _ IH]; intros Hnd; [by rewrite decide_False by set_solver|].
  cbn in Hnd. apply NoDup_cons in Hnd as [Hx Hnd]. specialize (IH Hnd).
  unfold count_ev in *. rewrite zsum_cons, IH. unfold is_payout at 1. rewrite He. cbn [fmap list_fmap].
  destruct (decide (q = p /\ m = x.1)) as [[-> ->]|Hne].
  - rewrite Z.eqb_refl, bool_decide_eq_true_2, (decide_False (P := p = p /\ _)), decide_True by (done || set_solver || naive_solver). done.
  - assert (E : (p =? q) && bool_decide (x.1 = m) = false).
    { apply not_true_iff_false. rewrite andb_true_iff, Z.eqb_eq, bool_decide_eq_true. naive_solver. }
    rewrite E. destruct (decide (q = p /\ m ∈ batch.*1)) as [?|?], (decide (q = p /\ m ∈ x.1 :: batch.*1)) as [?|?]; set_solver.
Qed.
Lemma payout_events_in p pot t batch es e : Forall2 (payout_event p pot t) batch es -> e ∈ es ->
  exists x, x ∈ batch /\ payout_event p pot t x e.
Proof.
  induction 1 as [|x e' batch es He _ IH]; intros Hin; [by apply not_elem_of_nil in Hin|].
  apply elem_of_cons in Hin as [->|Hin]; [exists x; set_solver|]. destruct (IH Hin) as (y & ? & ?). exists y. set_solver.
Qed.
Lemma payouts_no_heartbeats p pot t batch es f : Forall2 (payout_event p pot t) batch es ->
  (forall e, f e = true -> payout_of e = None) -> count_ev f es = 0.
Proof.
  intros Hes Hf. apply count_ev_0, Forall_forall. intros e Hin.
  destruct (payout_events_in _ _ _ _ _ _ Hes Hin) as (x & _ & a & _ & He). destruct (f e) eqn:E; [|done].
  apply Hf in E. congruence.
Qed.
Lemma hb_no_payout p n e : is_hb p n e = true -> payout_of e = None.
Proof. by destruct e. Qed.
Lemma hb_in_no_payout p e : is_hb_in p e = true -> payout_of e = None.
Proof. by destruct e. Qed.

(** A batch of the oldest unpaid period is paid, and its entries go; the period
    may be completed with it if no entry is left. *)
Lemma rewards_inv_pay t0 s s' pot batch es tail : rewards_inv t0 s ->
  let o := OldestUnpaidRewardPeriodIndex s in
  o < current (RewardPeriod s) -> announced t0 (nm_events s) o pot ->
  (forall x, x ∈ batch -> uptimes_of o s !! x.1 = Some x.2) -> NoDup batch.*1 ->
  Forall2 (payout_event o pot (total_uptime_of o s)) batch es ->
  nm_events s' = nm_events s ++ es ++ tail -> Forall (fun e => neutral e = true) tail ->
  RewardPeriod s' = RewardPeriod s -> o <= OldestUnpaidRewardPeriodIndex s' <= o + 1 ->
  (forall q, OldestUnpaidRewardPeriodIndex s' <= q -> total_uptime_of q s' = total_uptime_of q s /\ RewardPot s' !! q = RewardPot s !! q) ->
  (forall q m, uptimes_of q s' !! m = if decide (q = o /\ m ∈ batch.*1) then None else uptimes_of q s !! m) ->
  (forall m u, uptimes_of o s' !! m = Some u -> OldestUnpaidRewardPeriodIndex s' = o) ->
  (forall ptr, LastPaidPointer s' = Some ptr -> ptr_period ptr = OldestUnpaidRewardPeriodIndex s' /\ OldestUnpaidRewardPeriodIndex s' = o /\
     forall n u, uptimes_of o s' !! n = Some u -> (node_key (ptr_node ptr) < node_key n)%N) ->
  (OldestUnpaidRewardPeriodIndex s' = o -> exists n u, uptimes_of o s' !! n = Some u) ->
  rewards_inv t0 s'.
Proof.
  intros [H1 H2 H3 H4 H5 H6 H7 H8 H9 H10 H11] o Ho Hann Hb Hnd Hes Elog Htail EP Ho' Hkeep Hup Hdone Hptr Hpend.
  assert (Ch : forall p n, count_ev (is_hb p n) (nm_events s') = count_ev (is_hb p n) (nm_events s)).
  { intros p n. rewrite Elog, !count_ev_app, (payouts_no_heartbeats _ _ _ _ _ _ Hes (hb_no_payout p n)),
      (neutral_counts _ tail (hb_not_neutral p n) Htail). lia. }
  assert (Ci : forall p, count_ev (is_hb_in p) (nm_events s') = count_ev (is_hb_in p) (nm_events s)).
  { intros p. rewrite Elog, !count_ev_app, (payouts_no_heartbeats _ _ _ _ _ _ Hes (hb_in_no_payout p)),
      (neutral_counts _ tail (hb_in_not_neutral p) Htail). lia. }
  assert (Cp : forall p n, count_ev (is_payout p n) (nm_events s') =
    count_ev (is_payout p n) (nm_events s) + if decide (p = o /\ n ∈ batch.*1) then 1 else 0).
  { intros p n. rewrite Elog, !count_ev_app, (payouts_counted _ _ _ _ _ _ _ Hes Hnd),
      (neutral_counts _ tail (payout_not_neutral p n) Htail). lia. }
  assert (Hin : forall e, e ∈ nm_events s' -> e ∈ nm_events s \/ (exists x, x ∈ batch /\ payout_event o pot (total_uptime_of o s) x e) \/ neutral e = true).
  { intros e. rewrite Elog, !elem_of_app. intros [?|[?|?]]; [by left|right; left; by eapply payout_events_in|right; right; by eapply neutral_elem]. }
  assert (Ha : forall p pot, announced t0 (nm_events s) p pot -> announced t0 (nm_events s') p pot).
  { intros p pot'. rewrite Elog. apply announced_grows. }
  constructor; rewrite ?EP.
  - lia.
  - intros p n [?|[(x & _ & a & _ & [=])|[=]]]%Hin. eauto.
  - intros i l t r [?|[(x & _ & a & _ & [=])|[=]]]%Hin. eauto.
  - destruct H4 as [?|(l & r & ?)]; [by left|right]. exists l, r. rewrite Elog. set_solver.
  - intros p Hp. destruct (Hkeep p Hp) as [-> _]. rewrite Ci. apply H5. lia.
  - intros p n u Hu. pose proof Hu as Hu'. rewrite Hup in Hu. rewrite Ch, Cp.
    destruct (decide (p = o /\ n ∈ batch.*1)); [done|]. destruct (H6 p n u Hu) as (? & ? & ? & ?). split_and!; try done; try lia.
    destruct (decide (p = o)) as [->|]; [apply Hdone in Hu'; lia|]. lia.
  - intros p n. rewrite Hup, Ch, Cp. destruct (decide (p = o /\ n ∈ batch.*1)) as [[-> Hn]|_].
    + intros _. apply list_elem_of_fmap in Hn as (x & -> & Hx). destruct (H6 _ _ _ (Hb x Hx)) as (_ & _ & Hpos & ->).
      by rewrite (proj2 (Z.ltb_lt _ _) Hpos).
    + intros Hn. rewrite (H7 p n Hn). lia.
  - intros p Hp. destruct (Hkeep p ltac:(lia)) as [_ ->]. destruct (H8 p ltac:(lia)) as (pt & ? & ?). eauto.
  - intros ptr Hp. destruct (Hptr ptr Hp) as (-> & -> & ?). done.
  - intros e p n a Hein He. unfold share_of. rewrite Ch, Ci. apply Hin in Hein as [Hein|[(x & Hx & a' & Ha' & He')|Hn]].
    + destruct (H10 e p n a Hein He) as (? & pt & ? & ?). eauto.
    + rewrite He in He'. injection He' as -> -> ->. split; [done|]. exists pot. split; [by apply Ha|].
      destruct (H6 _ _ _ (Hb x Hx)) as (_ & Hc & _). rewrite <- Hc, <- (H5 o) by lia. done.
    + by destruct e.
  - intros p Hp Hu. rewrite Ci. destruct (decide (p = o)) as [->|Hne].
    + destruct Hpend as (n & u & Hn); [lia|]. by rewrite Hu in Hn.
    + apply H11; [lia|]. apply map_eq. intros n. pose proof (Hup p n) as E. rewrite decide_False in E by naive_solver. by rewrite <- E, Hu.
Qed.

(** The order of storage keys. *)
#[local] Instance by_key_trans : Transitive by_key.
Proof. intros x y z. unfold by_key. lia. Qed.
#[local] Instance by_key_total : Total by_key.
Proof. intros x y. unfold by_key. lia. Qed.

Lemma iter_perm p s : iter_prefix p s ≡ₚ map_to_list (uptimes_of p s).
Proof. apply merge_sort_Permutation. Qed.
Lemma iter_sorted p s : StronglySorted by_key (iter_prefix p s).
Proof. apply StronglySorted_merge_sort; apply _. Qed.
Lemma iter_nodup p s : NoDup (iter_prefix p s).*1.
Proof. rewrite iter_perm. apply NoDup_fst_map_to_list. Qed.
Lemma iter_elem p s x : x ∈ iter_prefix p s <-> uptimes_of p s !! x.1 = Some x.2.
Proof. rewrite iter_perm. destruct x as [n u]. apply elem_of_map_to_list. Qed.
Lemma iter_empty p s : iter_prefix p s = [] -> uptimes_of p s = ∅.
Proof. intros E. apply map_to_list_empty_iff. apply Permutation_nil_r. by rewrite <- iter_perm, E. Qed.

(** Those after a prefix have larger keys than those in it. *)
Lemma iter_split p s k x y : x ∈ take k (iter_prefix p s) -> y ∈ drop k (iter_prefix p s) -> (node_key x.1 < node_key y.1)%N.
Proof.
  intros Hx Hy. pose proof (iter_sorted p s) as Hs. pose proof (iter_nodup p s) as Hn.
  rewrite <- (take_drop k (iter_prefix p s)) in Hs, Hn. rewrite fmap_app in Hn. apply NoDup_app in Hn as (_ & Hd & _).
  assert (Hle : by_key x y). { eapply (proj1 (StronglySorted_app _ _ _) Hs); done. }
  assert (Hne : x.1 <> y.1). { intros E. apply (Hd x.1); [|rewrite E]; by apply list_elem_of_fmap_2. }
  unfold by_key in Hle. assert (node_key x.1 <> node_key y.1) by (intros E; by apply (inj node_key) in E). lia.
Qed.

Lemma filter_keeps_all {A} (P : A -> Prop) `{!forall x, Decision (P x)} (l : list A) : (forall x, x ∈ l -> P x) -> filter P l = l.
Proof.
  induction l as [|x l IH]; intros Hl; [done|]. rewrite filter_cons_True by (apply Hl; left). f_equal. apply IH. set_solver.
Qed.

Lemma iter_from_pointer t0 s ptr : rewards_inv t0 s -> LastPaidPointer s = Some ptr ->
  get_iterator_from_last_paid (OldestUnpaidRewardPeriodIndex s) ptr s = Ok (iter_prefix (OldestUnpaidRewardPeriodIndex s) s).
Proof.
  intros Hi Hptr. destruct (rw_pointer _ _ Hi _ Hptr) as (Ep & _ & Hk). unfold get_iterator_from_last_paid. rewrite Ep, Z.eqb_refl.
  destruct (uptimes_of (OldestUnpaidRewardPeriodIndex s) s !! ptr_node ptr) as [u|] eqn:E; [apply Hk in E; lia|].
  cbn. f_equal. unfold iter_prefix_from. apply filter_keeps_all. intros x Hx%iter_elem. by apply Hk in Hx.
Qed.

Definition paid_state (o : Z) (batch : list (AccountId * UptimeInfo)) (es : list NmEvent) (l : NmLedger) (s : NmState) : NmState :=
  set_uptimes_of o (foldl (fun us n => delete n us) (uptimes_of o s) batch.*1) (after_payments es l s).
Definition completed (o : Z) (s : NmState) : NmState :=
  set_nm_events (nm_events s ++ [RewardPayoutCompleted o])
    (set_RewardPot (delete o (RewardPot s)) (set_TotalUptime (delete o (TotalUptime s))
      (set_LastPaidPointer None (set_OldestUnpaidRewardPeriodIndex (saturating_add 64 o 1) s)))).
Definition pointed (o : Z) (batch : list (AccountId * UptimeInfo)) (s : NmState) : NmState :=
  match last batch.*1 with Some n => set_LastPaidPointer (Some (mkPointer o n)) s | None => s end.

Lemma lookup_foldl_delete (l : list AccountId) (us : gmap AccountId UptimeInfo) m :
  foldl (fun us n => delete n us) us l !! m = if decide (m ∈ l) then None else us !! m.
Proof.
  revert us. induction l as [|n l IH]; intros us; [done|]. cbn. rewrite IH.
  destruct (decide (m ∈ l)) as [?|?], (decide (m ∈ n :: l)) as [?|?]; try set_solver.
  - assert (m = n) as -> by set_solver. apply lookup_delete_eq.
  - rewrite lookup_delete_ne by set_solver. done.
Qed.

Lemma complete_eq o s : complete_reward_payout o s = (Ok tt, completed o s).
Proof. reflexivity. Qed.
Lemma pointer_eq o batch s : update_last_paid_pointer o (last batch.*1) s = (Ok tt, pointed o batch s).
Proof. unfold update_last_paid_pointer, pointed. by destruct (last batch.*1). Qed.

Lemma pay_batch_ok t0 s u s' : rewards_inv t0 s -> let o := OldestUnpaidRewardPeriodIndex s in
  o < current (RewardPeriod s) -> pay_batch o (total_uptime_of o s) s = (Ok u, s') ->
  exists pot es l, RewardPot s !! o = Some pot /\
    let batch := take (Z.to_nat (MaxBatchSize s)) (iter_prefix o s) in
    Forall2 (payout_event o pot (total_uptime_of o s)) batch es /\
    s' = match drop (Z.to_nat (MaxBatchSize s)) (iter_prefix o s) with
         | [] => completed o (paid_state o batch es l s)
         | _ :: _ => pointed o batch (paid_state o batch es l s)
         end.
Proof.
  intros Hi o Ho Hr. destruct (rw_pot _ _ Hi o) as (pot & Hpot & _); [pose proof (rw_periods _ _ Hi); lia|].
  apply bind_ok in Hr as (? & s1 & [-> ->]%get_ok & Hr). apply bind_ok in Hr as (? & s1 & [_ ->]%lift_ok & Hr).
  apply bind_ok in Hr as (? & s1 & [_ ->]%lift_ok & Hr). rewrite Hpot in Hr.
  apply bind_ok in Hr as (? & s1 & [-> ->]%mret_ok & Hr). apply bind_ok in Hr as (iter & s1 & [Hiter ->]%lift_ok & Hr).
  assert (E : iter = iter_prefix o s).
  { unfold payout_iterator in Hiter. destruct (LastPaidPointer s) as [ptr|] eqn:Hptr.
    - pose proof (iter_from_pointer t0 s ptr Hi Hptr) as Hp. fold o in Hp. rewrite Hp in Hiter. by injection Hiter as <-.
    - apply result_bind_ok in Hiter as (? & _ & Hiter). by injection Hiter as <-. }
  subst iter. apply bind_ok in Hr as (? & s1 & (es & l & -> & Hes)%pay_nodes_ok & Hr). exists pot, es, l. split; [done|]. split; [done|].
  apply bind_ok in Hr as (? & s1 & [_ ->]%modify_ok & Hr). destruct (drop _ _).
  - rewrite complete_eq in Hr. exact (eq_sym (f_equal snd Hr)).
  - rewrite pointer_eq in Hr. exact (eq_sym (f_equal snd Hr)).
Qed.

Lemma uptimes_paid o batch es l s q m : uptimes_of q (paid_state o batch es l s) !! m =
  if decide (q = o /\ m ∈ batch.*1) then None else uptimes_of q s !! m.
Proof.
  unfold paid_state. rewrite uptimes_of_set. destruct (decide (q = o)) as [->|Hq].
  - rewrite lookup_foldl_delete. destruct (decide (m ∈ batch.*1)), (decide (o = o /\ m ∈ batch.*1)); naive_solver.
  - rewrite decide_False by naive_solver. done.
Qed.
Lemma uptimes_completed o s q : uptimes_of q (completed o s) = uptimes_of q s.
Proof. reflexivity. Qed.

Lemma oldest_succ s t0 : rewards_inv t0 s -> OldestUnpaidRewardPeriodIndex s < current (RewardPeriod s) -> current (RewardPeriod s) < umax 64 ->
  saturating_add 64 (OldestUnpaidRewardPeriodIndex s) 1 = OldestUnpaidRewardPeriodIndex s + 1.
Proof. unfold saturating_add. lia. Qed.

(** The last batch of a period, or a period without entries. *)
Lemma rewards_inv_completed t0 s pot batch es l : rewards_inv t0 s -> let o := OldestUnpaidRewardPeriodIndex s in
  o < current (RewardPeriod s) -> current (RewardPeriod s) < umax 64 -> announced t0 (nm_events s) o pot ->
  (forall n u, uptimes_of o s !! n = Some u <-> (n, u) ∈ batch) -> NoDup batch.*1 ->
  Forall2 (payout_event o pot (total_uptime_of o s)) batch es ->
  rewards_inv t0 (completed o (paid_state o batch es l s)).
Proof.
  intros Hi o Ho Hmax Hann Hb Hnd Hes. pose proof (oldest_succ s t0 Hi Ho Hmax) as Eo. fold o in Eo.
  assert (Hgone : forall m u, uptimes_of o (completed o (paid_state o batch es l s)) !! m = Some u -> False).
  { intros m u. rewrite uptimes_completed, uptimes_paid. case_decide as Hd; [done|]. intros Hu. apply Hd. split; [done|].
    apply Hb in Hu. by apply (list_elem_of_fmap_2 fst) in Hu. }
  refine (rewards_inv_pay t0 s (completed o (paid_state o batch es l s)) pot batch es [RewardPayoutCompleted o] Hi Ho Hann _ Hnd Hes _ _ _ _ _ _ _ _ _).
  - intros [n u] Hx. by apply Hb.
  - cbn -[umax]. by rewrite <- app_assoc.
  - by repeat constructor.
  - reflexivity.
  - change (OldestUnpaidRewardPeriodIndex (completed _ _)) with (saturating_add 64 o 1). lia.
  - change (OldestUnpaidRewardPeriodIndex (completed _ _)) with (saturating_add 64 o 1). intros q Hq.
    unfold total_uptime_of. cbn -[umax]. rewrite !lookup_delete_ne by lia. done.
  - intros q m. rewrite uptimes_completed. apply uptimes_paid.
  - intros m u Hu. by apply Hgone in Hu.
  - intros ptr [=].
  - change (OldestUnpaidRewardPeriodIndex (completed _ _)) with (saturating_add 64 o 1). fold o. lia.
Qed.

Lemma rewards_inv_no_nodes t0 s pot : rewards_inv t0 s -> let o := OldestUnpaidRewardPeriodIndex s in
  o < current (RewardPeriod s) -> current (RewardPeriod s) < umax 64 -> announced t0 (nm_events s) o pot ->
  uptimes_of o s = ∅ -> rewards_inv t0 (completed o s).
Proof.
  intros Hi o Ho Hmax Hann He. pose proof (oldest_succ s t0 Hi Ho Hmax) as Eo. fold o in Eo.
  refine (rewards_inv_pay t0 s (completed o s) pot [] [] [RewardPayoutCompleted o] Hi Ho Hann _ _ _ _ _ _ _ _ _ _ _ _).
  - intros x Hx. by apply not_elem_of_nil in Hx.
  - constructor.
  - constructor.
  - reflexivity.
  - by repeat constructor.
  - reflexivity.
  - change (OldestUnpaidRewardPeriodIndex (completed _ _)) with (saturating_add 64 o 1). lia.
  - change (OldestUnpaidRewardPeriodIndex (completed _ _)) with (saturating_add 64 o 1). intros q Hq.
    unfold total_uptime_of. cbn -[umax]. rewrite !lookup_delete_ne by lia. done.
  - intros q m. rewrite decide_False by (intros [_ ?%not_elem_of_nil]; done). done.
  - intros m u. rewrite uptimes_completed. fold o. by rewrite He.
  - intros ptr [=].
  - change (OldestUnpaidRewardPeriodIndex (completed _ _)) with (saturating_add 64 o 1). fold o. lia.
Qed.

(** A batch with more entries to come. *)
Lemma rewards_inv_pointed t0 s pot k y rest es l : rewards_inv t0 s -> let o := OldestUnpaidRewardPeriodIndex s in
  o < current (RewardPeriod s) -> announced t0 (nm_events s) o pot -> drop k (iter_prefix o s) = y :: rest ->
  Forall2 (payout_event o pot (total_uptime_of o s)) (take k (iter_prefix o s)) es ->
  rewards_inv t0 (pointed o (take k (iter_prefix o s)) (paid_state o (take k (iter_prefix o s)) es l s)).
Proof.
  intros Hi o Ho Hann Hk Hes. set (batch := take k (iter_prefix o s)) in *.
  assert (Hup : forall q, uptimes_of q (pointed o batch (paid_state o batch es l s)) = uptimes_of q (paid_state o batch es l s)).
  { intros q. unfold pointed. by destruct (last batch.*1). }
  assert (E : forall A (f : NmState -> A), (forall x s, f (set_LastPaidPointer x s) = f s) ->
    f (pointed o batch (paid_state o batch es l s)) = f (paid_state o batch es l s)).
  { intros A f Hf. unfold pointed. by destruct (last batch.*1). }
  refine (rewards_inv_pay t0 s (pointed o batch (paid_state o batch es l s)) pot batch es [] Hi Ho Hann _ _ Hes _ _ _ _ _ _ _ _ _).
  - intros x Hx. apply iter_elem. change (x ∈ iter_prefix o s). unfold batch in Hx. rewrite <- (take_drop k (iter_prefix o s)). apply elem_of_app. by left.
  - pose proof (iter_nodup o s) as Hn. rewrite <- (take_drop k (iter_prefix o s)), fmap_app in Hn. by apply NoDup_app in Hn as (? & _).
  - rewrite (E _ nm_events) by done. by rewrite app_nil_r.
  - constructor.
  - by rewrite (E _ RewardPeriod).
  - rewrite (E _ OldestUnpaidRewardPeriodIndex) by done. change (OldestUnpaidRewardPeriodIndex (paid_state o batch es l s)) with o. lia.
  - intros q _. rewrite (E _ (total_uptime_of q)), (E _ RewardPot) by done. done.
  - intros q m. rewrite Hup. apply uptimes_paid.
  - intros m u _. by rewrite (E _ OldestUnpaidRewardPeriodIndex).
  - intros ptr. rewrite (E _ OldestUnpaidRewardPeriodIndex) by done. setoid_rewrite Hup. setoid_rewrite uptimes_paid.
    unfold pointed. destruct (last batch.*1) as [n|] eqn:Hlast.
    + intros [= <-]. split_and!; [done..|]. intros m u. case_decide as Hd; [done|]. intros Hu.
      apply last_Some in Hlast as [l' El]. assert (Hn : n ∈ batch.*1) by (rewrite El; set_solver).
      apply list_elem_of_fmap in Hn as (x & -> & Hx).
      apply (iter_split o s k x (m, u) Hx). assert (Hmu : (m, u) ∈ iter_prefix o s) by (by apply iter_elem).
      rewrite <- (take_drop k (iter_prefix o s)) in Hmu. apply elem_of_app in Hmu as [Hmu|?]; [|done].
      exfalso. apply Hd. split; [done|]. by apply (list_elem_of_fmap_2 fst) in Hmu.
    + intros Hptr. destruct (rw_pointer _ _ Hi _ Hptr) as (? & _ & Hk'). split_and!; [done..|]. intros m u. case_decide; [done|]. apply Hk'.
  - intros _. assert (Hy : y ∈ drop k (iter_prefix o s)) by (rewrite Hk; left). exists y.1, y.2. rewrite Hup, uptimes_paid, decide_False.
    + apply iter_elem. change (y ∈ iter_prefix o s). rewrite <- (take_drop k (iter_prefix o s)). apply elem_of_app. by right.
    + intros [_ (x & E' & Hx)%list_elem_of_fmap]. pose proof (iter_split o s k x y Hx Hy) as Hlt. rewrite E' in Hlt. lia.
Qed.

Lemma rewards_inv_pay_nodes t0 or p s u s' : offchain_pay_nodes or p s = (Ok u, s') -> current (RewardPeriod s) < umax 64 ->
  rewards_inv t0 s -> rewards_inv t0 s'.
Proof.
  intros Hr Hmax Hi. apply bind_ok in Hr as (? & s1 & [_ ->]%lift_ok & Hr). apply bind_ok in Hr as (? & s1 & [-> ->]%get_ok & Hr).
  apply bind_ok in Hr as (? & s1 & [Hp%ensure_ok ->]%lift_ok & Hr). apply andb_prop in Hp as [_ Ho%Z.ltb_lt].
  set (o := OldestUnpaidRewardPeriodIndex s) in *. pose proof (rw_periods _ _ Hi).
  destruct (rw_pot _ _ Hi o) as (pot & Hpot & Hann); [lia|]. cbv zeta in Hr. destruct (_ && _) eqn:E.
  - apply andb_prop in E as [_ E%bool_decide_eq_true]. rewrite complete_eq in Hr. assert (Es : s' = completed o s) by (exact (eq_sym (f_equal snd Hr))).
    rewrite Es. by apply (rewards_inv_no_nodes t0 s pot), iter_empty.
  - apply (pay_batch_ok t0 s u s' Hi Ho) in Hr as (pot' & es & l & Hpot' & Hes & ->). fold o in Hpot', Hes |- *.
    rewrite Hpot in Hpot'. injection Hpot' as <-.
    destruct (drop _ _) as [|y rest] eqn:Hd; [|by eapply rewards_inv_pointed].
    apply (rewards_inv_completed t0 s pot); try done.
    + intros n v. rewrite <- (app_nil_r (take _ _)), <- Hd, take_drop. symmetry. apply (iter_elem o s (n, v)).
    + pose proof (iter_nodup o s) as Hn. by rewrite <- (take_drop (Z.to_nat (MaxBatchSize s)) (iter_prefix o s)), Hd, app_nil_r in Hn.
Qed.

(** ** All steps *)

Lemma same_rewards_admin o c s u s' : set_admin_config o c s = (Ok u, s') -> same_rewards s s'.
Proof.
  intros Hr. apply bind_ok in Hr as (? & s1 & [_ ->]%lift_ok & Hr). apply bind_ok in Hr as (? & s1 & [-> ->]%get_ok & Hr).
  destruct c; repeat (apply bind_ok in Hr as (? & ? & [_ ->]%lift_ok & Hr)); injection Hr as _ <-.
  all: unfold same_rewards; split_and!; try reflexivity; eexists [_]; split; [reflexivity|by repeat constructor].
Qed.
Lemma same_rewards_register n o k : keeps same_rewards (do_register_node n o k).
Proof. unfold do_register_node. keeps_tac. Qed.
Lemma same_rewards_deregister_all o l : keeps same_rewards (do_deregister_nodes o l).
Proof. apply same_rewards_for_each, same_rewards_deregister. Qed.

(** A successful call leaves the rewards alone, unless it is a heartbeat or a
    payout. *)
Lemma call_rewards o c s u s' : nm_dispatch o c s = (Ok u, s') ->
  same_rewards s s' \/ (exists n, s' = heartbeat_state (current (RewardPeriod s)) n s) \/
  (exists p, offchain_pay_nodes o p s = (Ok u, s')).
Proof.
  intros Hr%transactional_ok. destruct c.
  - left. apply bind_ok in Hr as (w & s1 & [_ ->]%lift_ok & Hr). apply bind_ok in Hr as (? & s1 & ->%ensure_registrar_ok & Hr).
    exact (keeps_ok _ _ _ _ _ (same_rewards_register _ _ _) Hr).
  - left. by eapply same_rewards_admin.
  - right. right. by exists period.
  - right. left. apply heartbeat_ok in Hr as (_ & -> & ->). by exists node.
  - left. apply bind_ok in Hr as (? & s1 & ->%nm_check_signed_ok & Hr). exact (keeps_ok _ _ _ _ _ (same_rewards_register _ _ _) Hr).
  - left. apply bind_ok in Hr as (w & s1 & [_ ->]%lift_ok & Hr). apply bind_ok in Hr as (? & s1 & ->%ensure_registrar_ok & Hr).
    exact (keeps_ok _ _ _ _ _ (same_rewards_deregister_all _ _) Hr).
  - left. apply bind_ok in Hr as (? & s1 & ->%nm_check_signed_ok & Hr). exact (keeps_ok _ _ _ _ _ (same_rewards_deregister_all _ _) Hr).
Qed.

Definition same_period (s s' : NmState) : Prop := RewardPeriod s' = RewardPeriod s.
#[local] Instance same_period_refl : Reflexive same_period.
Proof. by intros s. Qed.
#[local] Instance same_period_trans : Transitive same_period.
Proof. intros s1 s2 s3. unfold same_period. congruence. Qed.
#[local] Hint Extern 2 (keeps same_period (modify _)) => intros ?; reflexivity : keeps.
#[local] Hint Extern 2 (keeps same_period (deposit_nm_event _)) => intros ?; reflexivity : keeps.
Lemma same_period_ledger {A} (m : ST DispatchError NmLedger A) : keeps same_period (nm_on_ledger m).
Proof. intros s. unfold nm_on_ledger. by destruct (m (nm_ledger s)). Qed.
#[local] Hint Resolve same_period_ledger : keeps.
Lemma same_period_pay o p : keeps same_period (offchain_pay_nodes o p).
Proof.
  assert (Hf : forall q pot t l, keeps same_period (for_each l (pay_node q pot t))).
  { intros q pot t l. apply (keeps_for_each same_period). intros x. unfold pay_node, pay_reward. keeps_tac. }
  unfold offchain_pay_nodes, pay_batch, remove_paid_nodes, update_last_paid_pointer, complete_reward_payout. keeps_tac. all: apply Hf.
Qed.

Lemma step_current s s' : nm_step s s' -> current (RewardPeriod s') < umax 64 -> current (RewardPeriod s) < umax 64.
Proof.
  destruct 1 as [o c r s s' Hr|n s s' Hr|l n s]; [| |done].
  - destruct (dispatch_ok _ _ _ _ _ Hr) as [->| ->]; [done|].
    destruct (call_rewards _ _ _ _ _ Hr) as [(-> & _)|[(n & ->)|(p & Hp)]]; [done..|].
    pose proof (keeps_ok same_period _ _ _ _ (same_period_pay o p) Hp) as E. by rewrite E.
  - unfold nm_on_initialize in Hr. apply bind_ok in Hr as (x & s1 & [-> ->]%get_ok & Hr).
    destruct (negb (RewardEnabled s)); [by apply mret_ok in Hr as [_ ->]|].
    destruct (should_update (RewardPeriod s) n); [|by apply mret_ok in Hr as [_ ->]].
    apply bind_ok in Hr as (t & s1 & [_ ->]%lift_ok & Hr). injection Hr as <-. cbn -[umax]. unfold saturating_add. lia.
Qed.

Lemma rewards_inv_step t0 s s' : nm_step s s' -> current (RewardPeriod s') < umax 64 -> rewards_inv t0 s -> rewards_inv t0 s'.
Proof.
  intros Hs Hmax Hi. pose proof (step_current _ _ Hs Hmax) as Hm. destruct Hs as [o c r s s' Hr|n s s' Hr|l n s].
  - destruct (dispatch_ok _ _ _ _ _ Hr) as [->| ->]; [done|].
    destruct (call_rewards _ _ _ _ _ Hr) as [Hsame|[(n & ->)|(p & Hp)]].
    + by eapply rewards_inv_same.
    + by apply rewards_inv_heartbeat.
    + by eapply rewards_inv_pay_nodes.
  - by eapply rewards_inv_hook.
  - apply (rewards_inv_same t0 s); [|done]. unfold same_rewards. split_and!; try done. exists []. by rewrite app_nil_r.
Qed.

Lemma rewards_inv_run t0 s : nm_run t0 s -> current (RewardPeriod s) < umax 64 -> rewards_inv t0 s.
Proof.
  induction 1 as [b rp hp ra l s Hg Ht|s s' _ IH Hs]; intros Hmax.
  - apply genesis_ok in Hg as (Es & Ec & _). rewrite Es. constructor; cbn; rewrite ?Ec; try done; try (intros; set_solver).
    intros p Hp. lia.
  - eapply rewards_inv_step; [done..|]. apply IH. by eapply step_current.
Qed.

(** Every period is announced once. *)
Definition is_start (i : Z) (e : NmEvent) : bool := match e with NewRewardPeriodStarted i' _ _ _ => i' =? i | _ => false end.
Definition no_starts (s s' : NmState) : Prop := forall i, count_ev (is_start i) (nm_events s') = count_ev (is_start i) (nm_events s).
#[local] Instance no_starts_refl : Reflexive no_starts.
Proof. by intros s i. Qed.
#[local] Instance no_starts_trans : Transitive no_starts.
Proof. intros s1 s2 s3 E1 E2 i. by rewrite E2, E1. Qed.
Lemma no_starts_event e : (forall i, is_start i e = false) -> keeps no_starts (deposit_nm_event e).
Proof.
  intros He s i. change (nm_events (snd _)) with (nm_events s ++ [e]). rewrite count_ev_app, (count_ev_0 _ [e]) by (by repeat constructor). lia.
Qed.
#[local] Hint Extern 1 (keeps no_starts (deposit_nm_event _)) => apply no_starts_event; reflexivity : keeps.
#[local] Hint Extern 2 (keeps no_starts (modify _)) => intros ? ?; reflexivity : keeps.
Lemma no_starts_ledger {A} (m : ST DispatchError NmLedger A) : keeps no_starts (nm_on_ledger m).
Proof. intros s. unfold nm_on_ledger. by destruct (m (nm_ledger s)). Qed.
#[local] Hint Resolve no_starts_ledger : keeps.
Lemma no_starts_pay o p : keeps no_starts (offchain_pay_nodes o p).
Proof.
  assert (Hf : forall q pot t l, keeps no_starts (for_each l (pay_node q pot t))).
  { intros q pot t l. apply (keeps_for_each no_starts). intros x. unfold pay_node, pay_reward. keeps_tac. }
  unfold offchain_pay_nodes, pay_batch, remove_paid_nodes, update_last_paid_pointer, complete_reward_payout. keeps_tac. all: apply Hf.
Qed.
Lemma no_starts_same s s' : same_rewards s s' -> no_starts s s'.
Proof.
  intros (_&_&_&_&_&_&_&es&E&Fe) i. rewrite E, count_ev_app, (neutral_counts (is_start i) es) by (done || by intros []). lia.
Qed.

Lemma starts_once t0 s : nm_run t0 s -> current (RewardPeriod s) < umax 64 ->
  forall i, count_ev (is_start i) (nm_events s) <= if 0 <? i then 1 else 0.
Proof.
  induction 1 as [b rp hp ra l s Hg Ht|s s' Hrun IH Hs]; intros Hmax i.
  - apply genesis_ok in Hg as (-> & _). cbn. by case_match.
  - pose proof (step_current _ _ Hs Hmax) as Hm. specialize (IH Hm). destruct Hs as [o c r s s' Hr|n s s' Hr|l n s]; [| |apply IH].
    + assert (E : no_starts s s'); [|rewrite (E i); apply IH].
      destruct (dispatch_ok _ _ _ _ _ Hr) as [->| ->]; [done|].
      destruct (call_rewards _ _ _ _ _ Hr) as [Hsame|[(n & ->)|(p & Hp)]]; [by apply no_starts_same| |exact (keeps_ok _ _ _ _ _ (no_starts_pay o p) Hp)].
      intros j. unfold heartbeat_state. cbn -[count_ev]. rewrite count_ev_app. by rewrite Z.add_0_r.
    + unfold nm_on_initialize in Hr. apply bind_ok in Hr as (x & s1 & [-> ->]%get_ok & Hr).
      destruct (negb (RewardEnabled s)); [apply mret_ok in Hr as [_ ->]; apply IH|].
      destruct (should_update (RewardPeriod s) n); [|apply mret_ok in Hr as [_ ->]; apply IH].
      apply bind_ok in Hr as (t & s1 & [_ ->]%lift_ok & Hr). injection Hr as <-. cbn -[count_ev saturating_add umax] in Hmax |- *.
      rewrite count_ev_app. pose proof (rewards_inv_run _ _ Hrun Hm) as Hi. pose proof (rw_periods _ _ Hi). specialize (IH i).
      pose proof (count_ev_nonneg (is_start i) (nm_events s)) as H0'. unfold count_ev at 2. cbn -[count_ev saturating_add].
      assert (Ec : saturating_add 64 (current (RewardPeriod s)) 1 = current (RewardPeriod s) + 1) by (unfold saturating_add in *; lia).
      rewrite Ec in *. destruct (Z.eqb_spec (current (RewardPeriod s) + 1) i) as [<-|Hne]; [|destruct (0 <? i); lia].
      destruct (decide (0 < count_ev (is_start (current (RewardPeriod s) + 1)) (nm_events s))) as [(e & Hin & He)%count_ev_pos|].
      * destruct e as [| |i l t' r| | | | | | | | | | |]; try done. apply (rw_started _ _ Hi) in Hin. cbn in He. lia.
      * rewrite (proj2 (Z.ltb_lt _ _)) by lia. lia.
Qed.

Lemma count_ev_two f (l : list NmEvent) e e' : e ∈ l -> e' ∈ l -> f e = true -> f e' = true -> e <> e' -> 1 < count_ev f l.
Proof.
  intros Hin Hin' He He' Hne. apply list_elem_of_split in Hin as (l1 & l2 & ->). rewrite count_ev_app. unfold count_ev. rewrite zsum_cons, He.
  fold (count_ev f l1) (count_ev f l2). pose proof (count_ev_nonneg f l1). pose proof (count_ev_nonneg f l2).
  assert (Hp : forall k, e' ∈ k -> 0 < count_ev f k).
  { intros k Hk. apply list_elem_of_split in Hk as (k1 & k2 & ->). rewrite count_ev_app. unfold count_ev. rewrite zsum_cons, He'.
    pose proof (count_ev_nonneg f k1). pose proof (count_ev_nonneg f k2). unfold count_ev in *. lia. }
  apply elem_of_app in Hin' as [?%Hp|Hin']; [lia|]. apply elem_of_cons in Hin' as [?|?%Hp]; [congruence|lia].
Qed.

Lemma announced_unique t0 s p pot pot' : nm_run t0 s -> current (RewardPeriod s) < umax 64 ->
  announced t0 (nm_events s) p pot -> announced t0 (nm_events s) p pot' -> pot = pot'.
Proof.
  intros Hrun Hmax. pose proof (starts_once _ _ Hrun Hmax) as Hc.
  assert (Hone : forall i l t r l' t' r', NewRewardPeriodStarted i l t r ∈ nm_events s -> NewRewardPeriodStarted i l' t' r' ∈ nm_events s ->
    0 < i /\ t = t' /\ r = r').
  { intros i l t r l' t' r' H1 H2. specialize (Hc i). split.
    - assert (0 < count_ev (is_start i) (nm_events s)); [|destruct (Z.ltb_spec 0 i); lia].
      apply list_elem_of_split in H1 as (k1 & k2 & ->). rewrite count_ev_app. unfold count_ev. rewrite zsum_cons. cbn. rewrite Z.eqb_refl.
      pose proof (count_ev_nonneg (is_start i) k1). pose proof (count_ev_nonneg (is_start i) k2). unfold count_ev in *. lia.
    - destruct (decide (t = t' /\ r = r')) as [?|Hne]; [done|]. exfalso.
      assert (1 < count_ev (is_start i) (nm_events s)); [|destruct (0 <? i); lia].
      eapply count_ev_two; [exact H1|exact H2|apply Z.eqb_refl|apply Z.eqb_refl|]. intros [= _ ? ?]. naive_solver. }
  destruct pot as [R t], pot' as [R' t']. intros [(l1 & t1 & Hs) Ht] [(l2 & t2 & Hs') Ht']. cbn in *.
  destruct (Hone _ _ _ _ _ _ _ Hs Hs') as (_ & _ & <-). f_equal.
  destruct Ht as [[-> ->]|(l & r & Ht)], Ht' as [[Hp ->]|(l' & r' & Ht')]; [done| | |].
  - by destruct (Hone _ _ _ _ _ _ _ Ht' Ht') as [? _].
  - subst p. by destruct (Hone _ _ _ _ _ _ _ Ht Ht) as [? _].
  - by destruct (Hone _ _ _ _ _ _ _ Ht Ht') as (_ & -> & _).
Qed.

(** C28. In every run with fewer than [2^64] periods: a node that sent heartbeats
    in a period is paid (or found to be deregistered) exactly once for it, when
    its entry is removed, never before the period is over and never twice,
    whatever batches the payout was cut into; periods that count as paid have no
    entries left.  What is paid is the share of the heartbeats the log has, up
    to the period's threshold, in the reward that was announced for it, of which
    there is only one. *)
Theorem paid_exactly_once t0 s : nm_run t0 s -> current (RewardPeriod s) < umax 64 ->
  (forall p n, count_ev (is_payout p n) (nm_events s) =
     if bool_decide (is_Some (uptimes_of p s !! n)) then 0 else if 0 <? count_ev (is_hb p n) (nm_events s) then 1 else 0) /\
  (forall p, p < OldestUnpaidRewardPeriodIndex s -> uptimes_of p s = ∅) /\
  (forall p pot pot', announced t0 (nm_events s) p pot -> announced t0 (nm_events s) p pot' -> pot = pot') /\
  (forall e p n a, e ∈ nm_events s -> payout_of e = Some (p, n, a) ->
     p < current (RewardPeriod s) /\ exists pot, announced t0 (nm_events s) p pot /\ share_of (nm_events s) p n pot = Ok a).
Proof.
  intros Hrun Hmax. destruct (rewards_inv_run _ _ Hrun Hmax) as [H1 H2 H3 H4 H5 H6 H7 H8 H9 H10 H11]. split_and!; [| |intros p pot pot'; by apply (announced_unique t0 s)|done].
  - intros p n. destruct (uptimes_of p s !! n) as [u|] eqn:Hu.
    + rewrite bool_decide_true by (by eexists). by apply (H6 p n u).
    + rewrite bool_decide_false by (by intros []). by apply H7.
  - intros p Hp. apply map_empty. intros n. destruct (uptimes_of p s !! n) as [u|] eqn:Hu; [|done].
    destruct (H6 p n u Hu) as ([? _] & _). lia.
Qed.

End NodeRewards.
