(* ===== verification/NodePayouts.v ===== *)
(** * Payouts of the node manager: what they cost and that they finish

    Rewards are rounded to the nearest unit, so a period may cost half a unit per
    node more than its reward; a pot that can afford the rewards pays every node
    in as many calls as there are batches. *)

From S2P Require Import Prelude Errors FixedMath Interfaces Balances NodeManager NodeManagerInv NodeRewards.

Section NodePayouts.
Context `{NmConfig} `{!Inj (=) (=) node_key}.

(** ** The cost of a period *)

Lemma reward_le u t r a : 0 <= u <= umax 64 -> 0 <= t <= umax 64 -> 0 <= r -> calculate_reward u t r = Ok a ->
  0 < t /\ 2 * t * a <= 2 * r * u + t.
Proof.
  unfold calculate_reward, saturated_into. intros Hu Ht Hr Ha.
  assert (umax 64 <= umax 128) by (vm_compute; discriminate). rewrite !Z.min_l in Ha by lia.
  rewrite bmul_bdiv_unfold in Ha by (vm_compute; discriminate).
  assert (Hd : 0 < t). { destruct (decide (t = 0)) as [->|]; [|lia]. by apply bmul_bdiv_common_ok in Ha as (_ & ? & _); [|lia..]. }
  split; [done|]. apply bmul_bdiv_common_le in Ha; [|lia..]. rewrite nearest_eq in Ha by done.
  pose proof (Z.mul_div_le (2 * (r * u) + t) (2 * t) ltac:(lia)). nia.
Qed.

(** The payouts of a period, in order. *)
Definition payouts_of (p : Z) (log : list NmEvent) : list (AccountId * Z) :=
  omap (fun e => match payout_of e with Some (p', n, a) => if p' =? p then Some (n, a) else None | None => None end) log.

Lemma payouts_nodup p log : (forall n, count_ev (is_payout p n) log <= 1) -> NoDup (payouts_of p log).*1.
Proof.
  induction log as [|e log IH]; intros Hc; [constructor|]. unfold payouts_of. cbn [omap list_omap].
  fold (payouts_of p log).
  assert (Hc' : forall n, count_ev (is_payout p n) log <= 1).
  { intros n. specialize (Hc n). unfold count_ev in *. rewrite zsum_cons in Hc. destruct (is_payout p n e); lia. }
  specialize (IH Hc'). destruct (payout_of e) as [[[p' n] a]|] eqn:Ee; [|done]. destruct (Z.eqb_spec p' p) as [->|]; [|done].
  cbn. constructor; [|done]. intros Hin. specialize (Hc n). unfold count_ev in Hc. rewrite zsum_cons in Hc. fold (count_ev (is_payout p n) log) in Hc.
  unfold is_payout at 1 in Hc. rewrite Ee, Z.eqb_refl, bool_decide_eq_true_2 in Hc by done. cbn in Hc.
  assert (0 < count_ev (is_payout p n) log); [|lia]. clear -Hin. induction log as [|e log IH]; [by apply not_elem_of_nil in Hin|].
  unfold payouts_of in Hin. cbn [omap list_omap] in Hin. unfold count_ev. rewrite zsum_cons. fold (count_ev (is_payout p n) log).
  fold (payouts_of p log) in Hin. pose proof (count_ev_nonneg (is_payout p n) log). unfold is_payout at 1.
  destruct (payout_of e) as [[[p' m] a']|]; [|by apply IH]. destruct (Z.eqb_spec p' p) as [->|]; [|by apply IH].
  cbn in Hin. apply elem_of_cons in Hin as [->|Hin]; [rewrite bool_decide_eq_true_2 by done; cbn; lia|].
  specialize (IH Hin). case_bool_decide; cbn; lia.
Qed.

(** Heartbeats of distinct nodes are heartbeats of the period. *)
Lemma heartbeats_split p log (l : list AccountId) : NoDup l ->
  zsum (fun n => count_ev (is_hb p n) log) l <= count_ev (is_hb_in p) log.
Proof.
  intros Hl. induction log as [|e log IH].
  - change (zsum (fun _ : AccountId => 0) l <= 0). by rewrite zsum_const_0.
  - assert (E : zsum (fun n => count_ev (is_hb p n) (e :: log)) l =
      zsum (fun n => if is_hb p n e then 1 else 0) l + zsum (fun n => count_ev (is_hb p n) log) l).
    { rewrite <- zsum_add. apply zsum_ext. intros n _. unfold count_ev. by rewrite zsum_cons. }
    rewrite E. unfold count_ev at 2. rewrite zsum_cons. fold (count_ev (is_hb_in p) log).
    assert (Hone : zsum (fun n => if is_hb p n e then 1 else 0) l <= if is_hb_in p e then 1 else 0); [|lia].
    destruct e as [| | | | | | | | |p' m| | | |]; try (rewrite zsum_const_0; done).
    cbn [is_hb is_hb_in]. destruct (p' =? p); cbn [andb]; [|rewrite zsum_const_0; done].
    clear -Hl. induction Hl as [|n l Hn Hl IH]; [done|]. rewrite zsum_cons. case_bool_decide as Hm; [subst n|lia].
    assert (E0 : zsum (fun n => if bool_decide (m = n) then 1 else 0) l = 0); [|lia].
    etransitivity; [|apply (zsum_const_0 l)]. apply zsum_ext. intros n Hin. rewrite bool_decide_eq_false_2; [done|]. by intros ->.
Qed.

Lemma payouts_of_elem p log n a : (n, a) ∈ payouts_of p log -> exists e, e ∈ log /\ payout_of e = Some (p, n, a).
Proof.
  intros (e & Hin & He)%list_elem_of_omap. exists e. split; [done|]. destruct (payout_of e) as [[[p' m] b]|]; [|done].
  destruct (Z.eqb_spec p' p) as [->|]; [|done]. by injection He as -> ->.
Qed.

(** C29. All payouts of a period together exceed the reward announced for it by at
    most half a unit per payout (and can exceed it: shares are rounded to the
    nearest unit, halves up). *)
Theorem payouts_bounded t0 s p pot : nm_run t0 s -> current (RewardPeriod s) < umax 64 ->
  announced t0 (nm_events s) p pot -> 0 <= total_reward pot -> 0 <= pot_threshold pot ->
  count_ev (is_hb_in p) (nm_events s) <= umax 64 ->
  2 * zsum snd (payouts_of p (nm_events s)) <= 2 * total_reward pot + Z.of_nat (length (payouts_of p (nm_events s))).
Proof.
  intros Hrun Hmax Hann HR Ht Hhb. set (log := nm_events s) in *. set (T := count_ev (is_hb_in p) log) in *.
  pose proof (rewards_inv_run _ _ Hrun Hmax) as Hi. assert (Hnd : NoDup (payouts_of p log).*1).
  { apply payouts_nodup. intros n. unfold log. destruct (uptimes_of p s !! n) as [u|] eqn:Hu.
    - destruct (rw_uptime _ _ Hi _ _ _ Hu) as (_ & _ & _ & ->). lia.
    - rewrite (rw_paid _ _ Hi _ _ Hu). case_match; lia. }
  pose proof (heartbeats_split p log _ Hnd) as Hsum. fold T in Hsum. rewrite zsum_fmap in Hsum.
  assert (Hall : Forall (fun x => 0 < T /\ 2 * T * x.2 <= 2 * total_reward pot * count_ev (is_hb p x.1) log + T) (payouts_of p log)).
  { apply Forall_forall. intros [n a] (e & He & Hp)%payouts_of_elem.
    destruct (rw_amounts _ _ Hi e p n a He Hp) as (_ & pot' & Hann' & Hs).
    rewrite (announced_unique _ _ _ _ _ Hrun Hmax Hann' Hann) in Hs. unfold share_of, u64 in Hs. fold log T in Hs.
    rewrite (Z.min_l T) in Hs by done. pose proof (count_ev_nonneg (is_hb p n) log). assert (HT0 : 0 <= T) by apply count_ev_nonneg.
    assert (Hu : 0 <= calculate_node_uptime (Z.min (count_ev (is_hb p n) log) (umax 64)) (pot_threshold pot) <=
      Z.min (count_ev (is_hb p n) log) (umax 64)) by (unfold calculate_node_uptime; case_match; lia).
    apply reward_le in Hs as [HT Hle]; [|lia..]. cbn. split; [done|]. nia. }
  clear -Hall Hsum HR. destruct (payouts_of p log) as [|x l]; [cbn; lia|].
  assert (HT : 0 < T) by (inversion Hall; naive_solver).
  assert (Htot : forall l, Forall (fun x => 0 < T /\ 2 * T * x.2 <= 2 * total_reward pot * count_ev (is_hb p x.1) log + T) l ->
    2 * T * zsum snd l <= 2 * total_reward pot * zsum (fun x => count_ev (is_hb p x.1) log) l + T * Z.of_nat (length l)).
  { clear. induction 1 as [|x l [_ Hx] _ IH]; [cbn; lia|]. rewrite !zsum_cons. cbn [length]. nia. }
  specialize (Htot _ Hall). nia.
Qed.

(** ** Funded payouts *)

Section Funded.
Context (ok : NmLedger -> Prop) `{!BalancesLaws NmLedger ok}.

(** The pot can spare [w], its balance is not locked, and owners can take [w]. *)
Record funded (w : Z) (s : NmState) : Prop := mkFunded {
  fd_ledger : ok (nm_ledger s);
  fd_locks : forall id, b_locked (nm_ledger s) id reward_pot_account = 0;
  fd_owners : forall n i, NodeRegistry s !! n = Some i -> node_owner i <> reward_pot_account /\
    minimum_balance <= b_free (nm_ledger s) (node_owner i) /\ b_free (nm_ledger s) (node_owner i) + w <= umax 128;
  fd_pot : minimum_balance + w <= b_free (nm_ledger s) reward_pot_account }.

Lemma funded_less w a s : 0 <= a -> funded w s -> funded (w - a) s.
Proof.
  intros Ha [H1 H2 H3 H4]. constructor; [done..| |lia]. intros n i Hi. destruct (H3 n i Hi) as (? & ? & ?). split_and!; [done..|lia].
Qed.

Definition reward_of (pot : RewardPotInfo) (t : Z) (x : AccountId * UptimeInfo) : Res Z :=
  calculate_reward (calculate_node_uptime (count x.2) (pot_threshold pot)) t (total_reward pot).

Lemma pay_node_funded p pot t x a w s : funded w s -> reward_of pot t x = Ok a -> 0 <= a <= w ->
  exists e l, pay_node p pot t x s = (Ok tt, after_payments [e] l s) /\ funded (w - a) (after_payments [e] l s).
Proof.
  intros Hf Ha Haw. unfold pay_node. unfold reward_of in Ha. rewrite Ha. unfold pay_reward, mbind, st_bind, lift, get. cbn [fst snd].
  destruct (NodeRegistry s !! x.1) as [i|] eqn:Hi.
  - destruct Hf as [H1 H2 H3 H4]. destruct (H3 _ _ Hi) as (Hne & Hmin & Hmax). pose proof minimum_nonneg.
    destruct (b_transfer_possible (nm_ledger s) reward_pot_account (node_owner i) a KeepAlive) as [l Hl]; [done|lia|lia|done|lia|right; lia|].
    destruct (b_transfer_ok _ _ _ _ _ _ H1 (proj1 Haw) Hl) as [Hok Hlk].
    assert (Hb : forall y, b_free l y = moved (nm_ledger s) reward_pot_account (node_owner i) a y).
    { intros y. apply (b_transfer_other _ _ _ _ _ _ y H1 (proj1 Haw) Hl). right. lia. }
    exists (RewardPaid p (node_owner i) x.1 a), l. unfold nm_on_ledger. rewrite Hl. split; [reflexivity|].
    constructor; cbn -[umax]; [done| | |].
    + intros id. by rewrite Hlk.
    + intros n j Hj. rewrite !Hb. unfold moved. destruct (H3 n j Hj) as (Hnj & ? & ?). rewrite (decide_False (P := node_owner j = reward_pot_account)) by done.
      case_decide; split_and!; try done; lia.
    + rewrite Hb. unfold moved. rewrite decide_True, decide_False by done. lia.
  - exists (ErrorPayingReward p x.1 a (nm_error NodeNotRegistered)), (nm_ledger s). split.
    + unfold after_payments. by destruct s.
    + apply funded_less; [lia|]. by destruct Hf; constructor.
Qed.

Lemma pay_nodes_funded p pot t batch w s : Forall (fun x => exists a, reward_of pot t x = Ok a /\ 0 <= a) batch -> funded w s ->
  zsum (fun x => match reward_of pot t x with Ok a => a | Err _ => 0 end) batch <= w ->
  exists es l, for_each batch (pay_node p pot t) s = (Ok tt, after_payments es l s) /\
    funded (w - zsum (fun x => match reward_of pot t x with Ok a => a | Err _ => 0 end) batch) (after_payments es l s).
Proof.
  intros Hall. revert w s. induction Hall as [|x batch (a & Ha & H0) Hall IH]; intros w s Hf Hw.
  - exists [], (nm_ledger s). assert (E : after_payments [] (nm_ledger s) s = s) by (unfold after_payments; rewrite app_nil_r; by destruct s).
    rewrite E. cbn. rewrite Z.sub_0_r. done.
  - rewrite zsum_cons, Ha in *.
    assert (Hpos : 0 <= zsum (fun x => match reward_of pot t x with Ok a => a | Err _ => 0 end) batch).
    { apply zsum_nonneg. eapply Forall_impl; [exact Hall|]. intros y (b & -> & ?). done. }
    destruct (pay_node_funded p pot t x a w s Hf Ha ltac:(lia)) as (e & l & Hp & Hf1).
    destruct (IH (w - a) _ Hf1 ltac:(lia)) as (es & l' & Hps & Hf2). exists (e :: es), l'. cbn [for_each]. unfold mbind, st_bind. rewrite Hp, Hps.
    assert (E : after_payments es l' (after_payments [e] l s) = after_payments (e :: es) l' s).
    { unfold after_payments. cbn. by rewrite <- app_assoc. }
    rewrite E in *. split; [done|]. by rewrite Z.sub_add_distr.
Qed.

Definition cost (pot : RewardPotInfo) (t : Z) (l : list (AccountId * UptimeInfo)) : Z :=
  zsum (fun x => match reward_of pot t x with Ok a => a | Err _ => 0 end) l.

(** What a payout of the oldest unpaid period needs to go through: rewards that
    do not overflow, a batch size, and a pot that covers the announced reward
    (to start) and what is still to be paid. *)
Record payable (pot : RewardPotInfo) (s : NmState) : Prop := mkPayable {
  py_over : OldestUnpaidRewardPeriodIndex s < current (RewardPeriod s);
  py_index : current (RewardPeriod s) < umax 64;
  py_batch : 0 < MaxBatchSize s;
  py_pot : RewardPot s !! OldestUnpaidRewardPeriodIndex s = Some pot;
  py_nonneg : 0 <= total_reward pot /\ 0 <= pot_threshold pot;
  py_fits : total_reward pot * total_uptime_of (OldestUnpaidRewardPeriodIndex s) s * BASE + BASE <= umax 128;
  py_start : LastPaidPointer s = None -> minimum_balance + total_reward pot <= b_free (nm_ledger s) reward_pot_account;
  py_funded : funded (cost pot (total_uptime_of (OldestUnpaidRewardPeriodIndex s) s) (iter_prefix (OldestUnpaidRewardPeriodIndex s) s)) s }.

Lemma total_positive t0 s n u : rewards_inv t0 s -> uptimes_of (OldestUnpaidRewardPeriodIndex s) s !! n = Some u ->
  0 <= count u <= total_uptime_of (OldestUnpaidRewardPeriodIndex s) s /\
  0 < total_uptime_of (OldestUnpaidRewardPeriodIndex s) s <= umax 64.
Proof.
  intros Hi Hu. destruct (rw_uptime _ _ Hi _ _ _ Hu) as (_ & -> & Hpos & _). rewrite (rw_total _ _ Hi) by lia.
  pose proof (heartbeats_split (OldestUnpaidRewardPeriodIndex s) (nm_events s) [n] ltac:(repeat constructor; set_solver)) as Hle.
  cbn [zsum foldr] in Hle. unfold u64. change (umax 64) with 18446744073709551615. lia.
Qed.

Lemma reward_defined t0 pot s x : rewards_inv t0 s -> payable pot s -> x ∈ iter_prefix (OldestUnpaidRewardPeriodIndex s) s ->
  exists a, reward_of pot (total_uptime_of (OldestUnpaidRewardPeriodIndex s) s) x = Ok a /\ 0 <= a.
Proof.
  intros Hi Hp Hx%iter_elem. set (o := OldestUnpaidRewardPeriodIndex s) in *.
  pose proof (total_positive _ _ _ _ Hi Hx) as [Hc HT]. fold o in Hc, HT.
  destruct (py_nonneg _ _ Hp) as [HR Ht]. pose proof (py_fits _ _ Hp) as Hfit. fold o in Hfit. pose proof BASE_pos. pose proof BASE_half.
  assert (H64 : umax 64 <= umax 128) by (vm_compute; discriminate).
  assert (Hu : 0 <= calculate_node_uptime (count x.2) (pot_threshold pot) <= total_uptime_of o s).
  { unfold calculate_node_uptime. case_match; lia. }
  unfold reward_of, calculate_reward, saturated_into. rewrite !Z.min_l by lia.
  assert (HB : BASE <= umax 128) by (vm_compute; discriminate).
  set (v := calculate_node_uptime _ _) in *.
  assert (Hm : total_reward pot * v * BASE <= total_reward pot * total_uptime_of o s * BASE) by nia.
  destruct (bmul_bdiv 128 (total_reward pot) v (total_uptime_of o s)) as [a|e] eqn:E.
  - exists a. split; [done|]. eapply bmul_bdiv_nonneg; [| | |exact E]; lia.
  - exfalso. rewrite bmul_bdiv_unfold in E by done. rewrite bmul_bdiv_common_exact in E; [done|lia..].
Qed.


Lemma pay_batch_eq t0 pot s es l : rewards_inv t0 s -> payable pot s -> let o := OldestUnpaidRewardPeriodIndex s in
  let b := Z.to_nat (MaxBatchSize s) in let L := iter_prefix o s in L <> [] ->
  for_each (take b L) (pay_node o pot (total_uptime_of o s)) s = (Ok tt, after_payments es l s) ->
  pay_batch o (total_uptime_of o s) s =
    match drop b L with [] => complete_reward_payout o | _ :: _ => update_last_paid_pointer o (last (take b L).*1) end
      (paid_state o (take b L) es l s).
Proof.
  intros Hi Hp o b L HL Hpay. unfold pay_batch, mbind, st_bind, lift, get, mret, st_ret.
  destruct L as [|x L'] eqn:EL; [done|]. assert (Hx : x ∈ iter_prefix o s) by (fold L; rewrite EL; left).
  apply iter_elem in Hx. destruct (total_positive _ _ _ _ Hi Hx) as [_ HT]. fold o in HT. fold L. rewrite EL.
  rewrite (proj2 (Z.ltb_lt _ _) (proj1 HT)). cbn [ensure]. rewrite bool_decide_eq_false_2 by done. cbn [negb ensure].
  pose proof (py_pot _ _ Hp) as Hpot. fold o in Hpot. rewrite Hpot.
  assert (Hit : payout_iterator o pot s = Ok L).
  { unfold payout_iterator. destruct (LastPaidPointer s) as [ptr|] eqn:Hptr; [exact (iter_from_pointer t0 s ptr Hi Hptr)|].
    pose proof (py_start _ _ Hp Hptr) as Hs. unfold reward_pot_balance, saturating_sub.
    rewrite (proj2 (Z.leb_le _ _)) by (pose proof minimum_nonneg; lia). done. }
  rewrite Hit, EL. cbv zeta. fold b. rewrite Hpay. reflexivity.
Qed.

(** One call of a funded payout. *)
Lemma pay_call_ok t0 pot s : rewards_inv t0 s -> payable pot s ->
  let o := OldestUnpaidRewardPeriodIndex s in let b := Z.to_nat (MaxBatchSize s) in
  exists es l s', offchain_pay_nodes NoOrigin o s = (Ok tt, s') /\
    match drop b (iter_prefix o s) with
    | [] => s' = completed o s \/ s' = completed o (paid_state o (take b (iter_prefix o s)) es l s)
    | _ :: _ => s' = pointed o (take b (iter_prefix o s)) (paid_state o (take b (iter_prefix o s)) es l s)
    end /\
    funded (cost pot (total_uptime_of o s) (drop b (iter_prefix o s))) (paid_state o (take b (iter_prefix o s)) es l s).
Proof.
  intros Hi Hp o b. set (L := iter_prefix o s). set (T := total_uptime_of o s).
  assert (Hdef : forall l', sublist l' L -> Forall (fun x => exists a, reward_of pot T x = Ok a /\ 0 <= a) l').
  { intros l' Hl. apply Forall_forall. intros x Hx. apply (reward_defined t0); [done..|]. by eapply elem_of_submseteq, sublist_submseteq. }
  assert (Hcost : cost pot T L = cost pot T (take b L) + cost pot T (drop b L)).
  { unfold cost. rewrite <- zsum_app. by rewrite take_drop. }
  assert (Hc0 : 0 <= cost pot T (drop b L)).
  { apply zsum_nonneg. eapply Forall_impl; [apply (Hdef (drop b L)), sublist_drop|]. intros y (c & -> & ?). done. }
  destruct (pay_nodes_funded o pot T (take b L) (cost pot T L) s) as (es & l & Hpay & Hfund);
    [apply Hdef, sublist_take|exact (py_funded _ _ Hp)|fold (cost pot T (take b L)); lia|].
  fold (cost pot T (take b L)) in Hfund. replace (cost pot T L - cost pot T (take b L)) with (cost pot T (drop b L)) in Hfund by lia.
  assert (Hfund' : funded (cost pot T (drop b L)) (paid_state o (take b L) es l s)) by (destruct Hfund; by constructor).
  exists es, l. unfold offchain_pay_nodes, mbind, st_bind, lift, get. cbn [ensure_none]. fold o.
  pose proof (py_over _ _ Hp) as Hov. fold o in Hov. rewrite Z.eqb_refl, (proj2 (Z.ltb_lt _ _) Hov). cbn [andb ensure]. fold T L.
  destruct ((T =? 0) && bool_decide (L = [])) eqn:E.
  - apply andb_prop in E as [_ E%bool_decide_eq_true]. exists (completed o s). split; [apply complete_eq|]. rewrite E, drop_nil in *. auto.
  - assert (HL : L <> []).
    { intros EL. apply andb_false_iff in E as [E|E]; [|by rewrite EL in E]. apply Z.eqb_neq in E. apply E. unfold T.
      rewrite (rw_total _ _ Hi) by lia. rewrite (rw_pending _ _ Hi); [done|lia|by apply iter_empty]. }
    pose proof (pay_batch_eq t0 pot s es l Hi Hp HL Hpay) as Hb. fold o b in Hb. fold L T in Hb. rewrite Hb.
    destruct (drop b L); [rewrite complete_eq|rewrite pointer_eq]; eexists; (split; [reflexivity|]); auto.
Qed.


(** After a batch the rest is still payable. *)
Lemma payable_next t0 pot s s' es l y rest : rewards_inv t0 s -> payable pot s ->
  let o := OldestUnpaidRewardPeriodIndex s in let b := Z.to_nat (MaxBatchSize s) in
  drop b (iter_prefix o s) = y :: rest ->
  s' = pointed o (take b (iter_prefix o s)) (paid_state o (take b (iter_prefix o s)) es l s) ->
  funded (cost pot (total_uptime_of o s) (drop b (iter_prefix o s))) (paid_state o (take b (iter_prefix o s)) es l s) ->
  payable pot s' /\ OldestUnpaidRewardPeriodIndex s' = o /\ MaxBatchSize s' = MaxBatchSize s /\
  iter_prefix o s' ≡ₚ drop b (iter_prefix o s).
Proof.
  intros Hi Hp o b Hd Es' Hf. set (batch := take b (iter_prefix o s)) in *.
  assert (Hlast : exists n, last batch.*1 = Some n).
  { destruct (last batch.*1) as [n|] eqn:E; [by exists n|]. exfalso. apply last_None in E. apply fmap_nil_inv in E. unfold batch, b in E, Hd.
    pose proof (py_batch _ _ Hp). destruct (Z.to_nat (MaxBatchSize s)) eqn:Eb; [lia|]. destruct (iter_prefix o s); [by rewrite drop_nil in Hd|done]. }
  destruct Hlast as [n Hn]. unfold pointed in Es'. rewrite Hn in Es'.
  assert (Hperm : iter_prefix o s' ≡ₚ drop b (iter_prefix o s)).
  { pose proof (iter_nodup o s) as Hnd. rewrite <- (take_drop b (iter_prefix o s)), fmap_app in Hnd. apply NoDup_app in Hnd as (_ & Hdis & Hnd).
    apply NoDup_Permutation; [eapply NoDup_fmap_1, iter_nodup|by eapply NoDup_fmap_1|]. intros [m u]. rewrite iter_elem. rewrite Es'.
    change (uptimes_of o (set_LastPaidPointer _ _)) with (uptimes_of o (paid_state o batch es l s)). rewrite uptimes_paid. cbn [fst snd].
    assert (Hin : uptimes_of o s !! m = Some u <-> (m, u) ∈ batch ++ drop b (iter_prefix o s)) by (unfold batch; rewrite take_drop; symmetry; apply (iter_elem o s (m, u))).
    rewrite elem_of_app in Hin. case_decide as Hc.
    - split; [done|]. intros Hmu. exfalso. destruct Hc as [_ Hc]. apply (Hdis m Hc). by apply (list_elem_of_fmap_2 fst) in Hmu.
    - rewrite Hin. split; [|auto]. intros [Hmu|?]; [|done]. exfalso. apply Hc. split; [done|]. by apply (list_elem_of_fmap_2 fst) in Hmu. }
  split_and!; [|by rewrite Es'..|done]. destruct Hp as [H1 H2 H3 H4 H5 H6 H7 H8]. fold o in H1, H4, H6.
  assert (Hc : cost pot (total_uptime_of o s) (iter_prefix o s') = cost pot (total_uptime_of o s) (drop b (iter_prefix o s))) by (by apply zsum_perm).
  rewrite Es' in *. constructor; try done. 
  change (OldestUnpaidRewardPeriodIndex _) with o. change (total_uptime_of o (set_LastPaidPointer _ _)) with (total_uptime_of o s). rewrite Hc.
  destruct Hf. by constructor.
Qed.

Definition pay_calls (o : Z) (k : nat) : ST DispatchError NmState unit := for_each (repeat o k) (offchain_pay_nodes NoOrigin).
(** One call per batch, and one for a period without heartbeats. *)
Definition calls_needed (n b : nat) : nat := S ((n - 1) / b).

Lemma pay_calls_complete t0 pot s : rewards_inv t0 s -> payable pot s ->
  let o := OldestUnpaidRewardPeriodIndex s in
  exists s', pay_calls o (calls_needed (length (iter_prefix o s)) (Z.to_nat (MaxBatchSize s))) s = (Ok tt, s') /\
    OldestUnpaidRewardPeriodIndex s' = o + 1 /\ LastPaidPointer s' = None /\ uptimes_of o s' = ∅.
Proof.
  remember (length (iter_prefix (OldestUnpaidRewardPeriodIndex s) s)) as n eqn:En. revert s En.
  induction (lt_wf n) as [n _ IH]. intros s En Hi Hp o. set (b := Z.to_nat (MaxBatchSize s)) in *.
  assert (Hb : (0 < b)%nat) by (pose proof (py_batch _ _ Hp); lia).
  destruct (pay_call_ok t0 pot s Hi Hp) as (es & l & s1 & Hcall & Hs1 & Hf). fold o b in Hcall, Hs1, Hf |- *.
  pose proof (length_drop (iter_prefix o s) b) as Hlen.
  destruct (drop b (iter_prefix o s)) as [|y rest] eqn:Hd.
  - assert (E : calls_needed n b = 1%nat). { unfold calls_needed. rewrite Nat.div_small; [done|]. cbn in Hlen. subst n. fold o. lia. }
    assert (Hi1 : rewards_inv t0 s1) by (exact (rewards_inv_pay_nodes t0 _ _ _ _ _ Hcall (py_index _ _ Hp) Hi)).
    assert (Eo : OldestUnpaidRewardPeriodIndex s1 = o + 1).
    { pose proof (oldest_succ s t0 Hi (py_over _ _ Hp) (py_index _ _ Hp)) as Es. fold o in Es. rewrite <- Es. by destruct Hs1 as [->| ->]. }
    exists s1. fold o in En. rewrite <- En, E. unfold pay_calls. cbn [repeat for_each]. unfold mbind, st_bind. rewrite Hcall. split_and!; [done..| |].
    + by destruct Hs1 as [->| ->].
    + apply map_empty. intros m. destruct (uptimes_of o s1 !! m) as [u|] eqn:Hu; [|done].
      destruct (rw_uptime _ _ Hi1 _ _ _ Hu) as ([? _] & _). lia.
  - destruct (payable_next t0 pot s s1 es l y rest Hi Hp Hd Hs1) as (Hp1 & Eo & Eb & Hperm); [by fold o b; rewrite Hd|].
    assert (Hi1 : rewards_inv t0 s1) by (exact (rewards_inv_pay_nodes t0 _ _ _ _ _ Hcall (py_index _ _ Hp) Hi)).
    fold o b in Hperm, Eo. rewrite Hd in Hperm. apply Permutation_length in Hperm. rewrite Hlen in Hperm.
    assert (Hlt : (b < n)%nat) by (cbn in Hlen; subst n; fold o; lia).
    destruct (IH (n - b)%nat ltac:(lia) s1) as (s' & Hcalls & Hs'); [rewrite Eo, Hperm, En; done|done..|].
    fold o in En. rewrite Eo, Eb, Hperm, <- En in Hcalls. rewrite Eo in Hs'. fold b in Hcalls. exists s'. split; [|done]. rewrite <- En.
    assert (E : calls_needed n b = S (calls_needed (n - b) b)).
    { unfold calls_needed. f_equal. replace (n - 1)%nat with (n - b - 1 + 1 * b)%nat by lia. rewrite Nat.div_add by lia. lia. }
    rewrite E. unfold pay_calls in *. cbn [repeat for_each]. unfold mbind, st_bind. by rewrite Hcall.
Qed.

(** C30. A payout that is funded (the pot holds the announced reward when it
    starts and what is left to pay throughout, owners can take it, shares do not
    overflow) completes: with one call per batch of nodes every call succeeds,
    and afterwards the period has no entries left and the next one is due. *)
Theorem payout_completes t0 pot s : nm_run t0 s -> payable pot s -> let o := OldestUnpaidRewardPeriodIndex s in
  exists s', pay_calls o (calls_needed (length (iter_prefix o s)) (Z.to_nat (MaxBatchSize s))) s = (Ok tt, s') /\
    OldestUnpaidRewardPeriodIndex s' = o + 1 /\ LastPaidPointer s' = None /\ uptimes_of o s' = ∅.
Proof. intros Hrun Hp. exact (pay_calls_complete t0 pot s (rewards_inv_run _ _ Hrun (py_index _ _ Hp)) Hp). Qed.

End Funded.

End NodePayouts.
