(* ===== verification/NodeWorker.v ===== *)
(** * The off-chain worker of the node manager

    [src/pallets/node-manager/src/offchain.rs] and [offchain_worker]: what a node
    submits after a block.  The worker reads the chain's storage, keeps a small
    database of its own and submits unsigned calls.  Its keystore, the database
    lock, the AVN's view of block authors and the transaction pool are its
    environment. *)

From S2P Require Import Prelude Errors Interfaces Balances Collections NodeManager NodeManagerInv NodeRewards.

(** The worker's database: the node id the command line left (as a string), the
    id the pallet recorded, and the block each heartbeat was submitted at. *)
Record NmLocal := mkLocal {
  cli_node_id : option (list Z);
  pallet_node_id : option AccountId;
  hb_submissions : gmap (Z * Z) Z }.
Definition set_pallet_node_id x db := mkLocal (cli_node_id db) x (hb_submissions db).
Definition set_cli_node_id x db := mkLocal x (pallet_node_id db) (hb_submissions db).
Definition set_hb_submissions x db := mkLocal (cli_node_id db) (pallet_node_id db) x.

Record WorkerEnv := mkWorkerEnv {
  all_keys : list Z;
  key_sign : Z -> list Z -> option Z;
  author_sign : AccountId -> list Z -> option Z;
  (** the pool accepts the call *)
  submit_unsigned : NmCall -> bool;
  (** another worker changed the database concurrently *)
  db_busy : bool;
  decode_node_id : list Z -> option AccountId;
  registry_order : list (AccountId * NodeInfo) -> list (AccountId * NodeInfo);
  (** [AVN::pre_run_setup] and [AVN::is_primary_for_block] *)
  pre_run_setup : Z -> option AccountId;
  is_primary_for_block : Z -> AccountId -> option bool }.

Section NodeWorker.
Context `{NmConfig} (env : WorkerEnv).

Definition BLOCK_INCLUSION_PERIOD : Z := 5.

Definition record_heartbeat_ocw_submission (now period heartbeat_count : Z) (db : NmLocal) : Result NodeManagerError unit * NmLocal :=
  if db_busy env then (Err NmFailedToAcquireOcwDbLock, db)
  else (Ok tt, set_hb_submissions (<[(period, heartbeat_count) := now]> (hb_submissions db)) db).

Definition record_formatted_node_id (node : AccountId) (db : NmLocal) : Result NodeManagerError unit * NmLocal :=
  if db_busy env then (Err NmFailedToAcquireOcwDbLock, db) else (Ok tt, set_pallet_node_id (Some node) db).

Definition heartbeat_submission_in_progress (period heartbeat_count current_block : Z) (db : NmLocal) : bool :=
  match hb_submissions db !! (period, heartbeat_count) with
  | Some last_submission => current_block <=? saturating_add 32 last_submission BLOCK_INCLUSION_PERIOD
  | None => false
  end.

Definition clear_cli_node_id_from_local_storage (db : NmLocal) : NmLocal := set_cli_node_id None db.
Definition get_cli_node_id_from_local_storage (db : NmLocal) : option AccountId := cli_node_id db ≫= decode_node_id env.
Definition get_formatted_node_id_from_local_storage (db : NmLocal) : option AccountId := pallet_node_id db.

Definition key_is_local (local_keys : list Z) (key : Z) : bool :=
  match binary_search_by_key key id local_keys with Found _ => true | NotFound _ => false end.

Definition match_node_id_to_signing_key (s : NmState) (node : AccountId) (local_keys : list Z) : option (AccountId * Z) :=
  match NodeRegistry s !! node with
  | Some info => if key_is_local local_keys (signing_key info) then Some (node, signing_key info) else None
  | None => None
  end.

Definition search_node_id_by_signing_key (s : NmState) (local_keys : list Z) : option (AccountId * Z) :=
  head (omap (fun x : AccountId * NodeInfo => if key_is_local local_keys (signing_key x.2) then Some (x.1, signing_key x.2) else None)
    (registry_order env (map_to_list (NodeRegistry s)))).

Definition get_node_from_signing_key (s : NmState) (db : NmLocal) : option (AccountId * Z) * NmLocal :=
  let local_keys := merge_sort Z.le (all_keys env) in
  let db :=
    match get_cli_node_id_from_local_storage db with
    | Some cli => match record_formatted_node_id cli db with
                  | (Ok _, db) => clear_cli_node_id_from_local_storage db
                  | (Err _, db) => db
                  end
    | None => db
    end in
  match get_formatted_node_id_from_local_storage db ≫= (fun node => match_node_id_to_signing_key s node local_keys) with
  | Some key_pair => (Some key_pair, db)
  | None =>
      match search_node_id_by_signing_key s local_keys with
      | Some (node, key) => (Some (node, key), snd (record_formatted_node_id node db))
      | None => (None, db)
      end
  end.

Definition should_send_heartbeat (s : NmState) (block_number : Z) (uptime_info : option UptimeInfo)
    (reward_period : RewardPeriodInfo) (heartbeat_count : Z) (db : NmLocal) : bool :=
  if heartbeat_submission_in_progress (current reward_period) heartbeat_count block_number db then false else
  match uptime_info with
  | Some info =>
      (count info <? uptime_threshold reward_period) &&
      (wrapping_add 32 (last_reported info) (HeartbeatPeriod s) <=? block_number)
  | None => true
  end.

(** The calls submitted, and the database afterwards. *)
Definition send_heartbeat_if_required (s : NmState) (block_number : Z) (db : NmLocal) : list NmCall * NmLocal :=
  match get_node_from_signing_key s db with
  | (Some (node, key), db) =>
      let reward_period := RewardPeriod s in
      let uptime_info := uptimes_of (current reward_period) s !! node in
      let heartbeat_count := default 0 (count <$> uptime_info) in
      if should_send_heartbeat s block_number uptime_info reward_period heartbeat_count db then
        match key_sign env key (nm_encode (Heartbeat heartbeat_count (current reward_period))) with
        | Some sig =>
            let call := offchain_submit_heartbeat_call node (current reward_period) heartbeat_count sig in
            if submit_unsigned env call
            then ([call], snd (record_heartbeat_ocw_submission block_number (current reward_period) heartbeat_count db))
            else ([call], db)
        | None => ([], db)
        end
      else ([], db)
  | (None, db) => ([], db)
  end.

(** Whether the author is the primary of the block does not matter, only that
    the question could be answered. *)
Definition try_get_node_author (block_number : Z) : option AccountId :=
  this_author ← pre_run_setup env block_number;
  is_primary_for_block env block_number this_author ;; mret this_author.

Definition can_trigger_payment (s : NmState) : bool :=
  match LastPaidPointer s with
  | Some _ => true
  | None => OldestUnpaidRewardPeriodIndex s <? current (RewardPeriod s)
  end.

Definition trigger_payment_if_required (s : NmState) (period : Z) (author : AccountId) : list NmCall :=
  if can_trigger_payment s then
    match author_sign env author (nm_encode (PayoutRequest period)) with
    | Some sig => [offchain_pay_nodes_call period author sig]
    | None => []
    end
  else [].

Definition nm_offchain_worker (s : NmState) (n : Z) (db : NmLocal) : list NmCall * NmLocal :=
  if negb (RewardEnabled s) then ([], db) else
  match try_get_node_author n with
  | Some author => (trigger_payment_if_required s (OldestUnpaidRewardPeriodIndex s) author, db)
  | None => send_heartbeat_if_required s n db
  end.

(** ** What the worker submits is accepted *)

Lemma key_is_local_sound keys k : key_is_local keys k = true -> k ∈ keys.
Proof.
  unfold key_is_local. destruct (binary_search_by_key k id keys) as [i|i] eqn:E; [|done]. intros _.
  apply search_key_found_inv in E as (x & Hx & <-). by eapply list_elem_of_lookup_2.
Qed.

(** The worker acts for a registered node whose signing key it holds. *)
Lemma node_found s db node key db' : (forall l x, x ∈ registry_order env l -> x ∈ l) ->
  get_node_from_signing_key s db = (Some (node, key), db') ->
  (exists i, NodeRegistry s !! node = Some i /\ signing_key i = key) /\ key ∈ all_keys env.
Proof.
  intros Horder Hr. unfold get_node_from_signing_key in Hr.
  assert (Hkey : forall i, key_is_local (merge_sort Z.le (all_keys env)) (signing_key i) = true -> signing_key i ∈ all_keys env).
  { intros i Hi%key_is_local_sound. by rewrite merge_sort_Permutation in Hi. }
  destruct (_ ≫= _) as [kp|] eqn:Em.
  - injection Hr as -> _. apply bind_Some in Em as (n & _ & Hm). unfold match_node_id_to_signing_key in Hm.
    destruct (NodeRegistry s !! n) as [i|] eqn:Hi; [|done]. destruct (key_is_local _ _) eqn:Hk; [|done]. injection Hm as -> <-. eauto.
  - destruct (search_node_id_by_signing_key _ _) as [[n k]|] eqn:Hs; [|done]. injection Hr as -> -> _.
    apply head_Some_elem_of, list_elem_of_omap in Hs as ([m i] & Hin & Hk). destruct (key_is_local _ _) eqn:Hl; [|done].
    injection Hk as -> <-. apply Horder, elem_of_map_to_list in Hin. eauto.
Qed.

Lemma heartbeat_valid s n node info db : NodeRegistry s !! node = Some info ->
  let p := RewardPeriod s in let u := uptimes_of (current p) s !! node in let c := default 0 (count <$> u) in
  should_send_heartbeat s n u p c db = true -> validate_heartbeats node (current p) c (set_nm_block (n + 1) s) = Ok tt.
Proof.
  intros Hreg p u c Hsend. unfold should_send_heartbeat in Hsend. destruct (heartbeat_submission_in_progress _ _ _ _); [done|].
  unfold validate_heartbeats. cbn -[wrapping_add]. rewrite Hreg, Z.eqb_refl. cbn -[wrapping_add].
  change (uptimes_of (current p) (set_nm_block (n + 1) s)) with (uptimes_of (current p) s). fold u. fold p. subst c.
  destruct u as [i|]; cbn -[wrapping_add]; [|done]. apply andb_prop in Hsend as [H1 H2]. rewrite H1, Z.eqb_refl.
  cbn -[wrapping_add]. rewrite (proj2 (Z.ltb_lt _ _)) by lia. done.
Qed.

(** What the hook of a block leaves, by whether the block starts a period. *)
Lemma hook_run n s s' : RewardEnabled s = true -> nm_on_initialize n s = (Ok tt, s') ->
  if should_update (RewardPeriod s) n
  then NodeRegistry s' = NodeRegistry s /\ current (RewardPeriod s') = saturating_add 64 (current (RewardPeriod s)) 1
  else s' = s.
Proof.
  intros He Hr. unfold nm_on_initialize in Hr. apply bind_ok in Hr as (x & s1 & [-> ->]%get_ok & Hr). rewrite He in Hr. cbn [negb] in Hr.
  destruct (should_update _ n); [|by apply mret_ok in Hr as [_ ->]].
  apply bind_ok in Hr as (th & s1 & [_ ->]%lift_ok & Hr). do 2 (apply bind_ok in Hr as (? & ? & [_ ->]%modify_ok & Hr)).
  by apply modify_ok in Hr as [_ ->].
Qed.

Lemma hook_quiet n s : should_update (RewardPeriod s) n = false -> nm_on_initialize n s = (Ok tt, s).
Proof. intros Hu. unfold nm_on_initialize, mbind, st_bind, get. cbn. rewrite Hu. by destruct (RewardEnabled s). Qed.

(** C31. Whatever heartbeat the worker of a node submits after block [n] is for a
    registered node, signed with its key, for the running period; the pool finds
    it valid on top of block [n] (so it is propagated).  In the next block, after
    its hook: if the block starts no new reward period, the hook changes nothing
    and dispatching the heartbeat in that state succeeds and records it in the
    running period; if the block starts a new period (the index not being the
    largest), the heartbeat is one of the period before and fails as invalid. *)
Theorem worker_heartbeat_accepted s n db node p c sig db' : (forall l x, x ∈ registry_order env l -> x ∈ l) ->
  (forall k m sg, key_sign env k m = Some sg -> signer_verify k m sg = true) ->
  nm_offchain_worker s n db = ([offchain_submit_heartbeat_call node p c sig], db') ->
  let call := offchain_submit_heartbeat_call node p c sig in let s1 := set_nm_block (n + 1) s in
  p = current (RewardPeriod s) /\ nm_validate_unsigned External call s1 = NmValid true /\
  if should_update (RewardPeriod s) (n + 1) then
    p < umax 64 -> forall sh, nm_on_initialize (n + 1) s1 = (Ok tt, sh) ->
      nm_dispatch NoOrigin call sh = (Err (nm_error InvalidHeartbeat), sh)
  else
    nm_on_initialize (n + 1) s1 = (Ok tt, s1) /\
    exists s2, nm_dispatch NoOrigin call s1 = (Ok tt, s2) /\
      nm_events s2 = nm_events s ++ [HeartbeatReceived p node] /\
      uptimes_of p s2 !! node = Some (mkUptime (saturating_add 64 c 1) (n + 1)).
Proof.
  intros Horder Hsign Hr call s1. unfold nm_offchain_worker in Hr. destruct (RewardEnabled s) eqn:He; [|done]. cbn in Hr.
  destruct (try_get_node_author n) as [a|]; [unfold trigger_payment_if_required in Hr; repeat case_match; done|].
  unfold send_heartbeat_if_required in Hr. destruct (get_node_from_signing_key s db) as [[[nd key]|] db1] eqn:Hn; [|done].
  apply (node_found _ _ _ _ _ Horder) in Hn as [(info & Hreg & Hkey) _].
  destruct (should_send_heartbeat _ _ _ _ _ _) eqn:Hsend; [|done]. destruct (key_sign _ _ _) as [sg|] eqn:Hs; [|done].
  assert (E : nd = node /\ p = current (RewardPeriod s) /\ c = default 0 (count <$> uptimes_of (current (RewardPeriod s)) s !! nd) /\ sg = sig)
    by (destruct (submit_unsigned _ _); by injection Hr).
  destruct E as (-> & -> & Ec & ->). rewrite <- Ec in Hsend, Hs.
  assert (Hv : validate_heartbeats node (current (RewardPeriod s)) c s1 = Ok tt).
  { rewrite Ec. eapply heartbeat_valid; [exact Hreg|]. rewrite <- Ec. exact Hsend. }
  split; [done|]. split.
  { unfold nm_validate_unsigned, call. change (RewardEnabled s1) with (RewardEnabled s). change (NodeRegistry s1) with (NodeRegistry s).
    rewrite He, Hreg, Hv. cbn [negb is_ok]. rewrite Hkey, (Hsign _ _ _ Hs). done. }
  destruct (should_update (RewardPeriod s) (n + 1)) eqn:Hu.
  - intros Hmax sh Hh. pose proof (hook_run (n + 1) s1 sh He Hh) as Hk. change (RewardPeriod s1) with (RewardPeriod s) in Hk.
    rewrite Hu in Hk. destruct Hk as [Hnr Hcur].
    assert (Hbad : validate_heartbeats node (current (RewardPeriod s)) c sh = Err (nm_error InvalidHeartbeat)).
    { unfold validate_heartbeats. rewrite Hnr, Hcur. change (NodeRegistry s1) with (NodeRegistry s). rewrite Hreg. cbn -[saturating_add].
      assert (Hne : (saturating_add 64 (current (RewardPeriod s)) 1 =? current (RewardPeriod s)) = false)
        by (unfold saturating_add; lia).
      change (RewardPeriod s1) with (RewardPeriod s). by rewrite Hne. }
    unfold nm_dispatch, call, transactional, offchain_submit_heartbeat, mbind, st_bind, lift, get. cbn [ensure_none]. by rewrite Hbad.
  - split; [by apply hook_quiet|]. exists (heartbeat_state (current (RewardPeriod s)) node s1). split; [|split; [done|]].
    + unfold nm_dispatch, call, transactional, offchain_submit_heartbeat, mbind, st_bind, lift, get. cbn [ensure_none]. by rewrite Hv.
    + unfold heartbeat_state. change (uptimes_of ?q (set_nm_events ?e (set_TotalUptime ?t ?x))) with (uptimes_of q x).
      rewrite uptimes_of_set, decide_True, lookup_insert_eq by done. f_equal. rewrite Ec.
      change (uptimes_of ?q s1) with (uptimes_of q s). by destruct (uptimes_of _ s !! node).
Qed.

End NodeWorker.
