(* ===== verification/NodeDemo.v ===== *)
(** * A node manager on concrete inputs

    A configuration with the reference ledger and a run with two nodes, on which
    the hypotheses of the theorems hold; and the payout that a pot holding
    exactly the announced reward cannot make. *)

From S2P Require Import Prelude Errors FixedMath Interfaces Balances NodeManager NodeManagerInv NodeRewards NodePayouts NodeWorker.

#[global] Instance demo_nm : NmConfig := {|
  NmLedger := RefBalances;
  reward_pot_account := 50%N;
  NmSignedTxLifetime := 64;
  node_key n := n;
  perbill_mul p x := (2 * p * x + 10 ^ 9 - 1) / (2 * 10 ^ 9);
  nm_encode m := match m with
    | SignedRegister r n o k b => [0; Z.of_N r; Z.of_N n; Z.of_N o; k; b]
    | SignedDeregister r o ns c b => [1; Z.of_N r; Z.of_N o; c; b] ++ (Z.of_N <$> ns)
    | PayoutRequest p => [2; p]
    | Heartbeat c p => [3; c; p]
    end;
  nm_verify_signature pf m := signature pf =? Z.of_N (signer pf) + zsum id m;
  signer_verify k m sig := sig =? k + zsum id m;
  avn_signature_is_valid m a sig := sig =? Z.of_N a + zsum id m |}.

#[global] Instance demo_key_inj : Inj (=) (=) (@node_key demo_nm).
Proof. intros x y. done. Qed.

Definition demo_ledger (pot : Z) : RefBalances :=
  mkRefBalances {[ 50%N := pot; 7%N := 100; 8%N := 100 ]} ∅.

(** Two nodes, one heartbeat each, and the end of the period. *)
Definition demo_calls : list (Origin * NmCall) :=
  [(Root, set_admin_config_call (SetNodeRegistrar 1%N)); (Root, set_admin_config_call (SetRewardToggle true));
   (Signed 1%N, register_node_call 20%N 7%N 200); (Signed 1%N, register_node_call 21%N 8%N 210);
   (NoOrigin, offchain_submit_heartbeat_call 20%N 0 0 0); (NoOrigin, offchain_submit_heartbeat_call 21%N 0 0 0)].
Definition run_calls (cs : list (Origin * NmCall)) (s : NmState) : NmState :=
  foldl (fun s c => exec (nm_dispatch c.1 c.2) s) s cs.
Definition demo_genesis (pot : Z) : NmState :=
  mkNm ∅ 0 ∅ ∅ None 1 10 5 ∅ (mkPeriod 0 0 100 3) 0 None ∅ ∅ false (Some 330000000) (demo_ledger pot) 0 [].
Definition demo_uptime (pot : Z) : NmState := run_calls demo_calls (demo_genesis pot).
Definition demo_due (pot : Z) : NmState := exec (nm_on_initialize 100) (demo_uptime pot).

Lemma run_calls_run t0 cs s : nm_run t0 s -> nm_run t0 (run_calls cs s).
Proof.
  revert s. induction cs as [|[o c] cs IH]; intros s Hs; [done|]. apply IH. eapply nm_run_step; [exact Hs|].
  apply (nm_step_call o c (fst (nm_dispatch o c s))). unfold exec. apply surjective_pairing.
Qed.
Lemma demo_genesis_run pot : nm_run 3 (demo_genesis pot).
Proof. apply (nm_run_genesis (H := demo_nm) 3 1 100 10 5 (demo_ledger pot)); reflexivity. Qed.
Lemma demo_uptime_run pot : nm_run 3 (demo_uptime pot).
Proof. apply run_calls_run, demo_genesis_run. Qed.
Lemma demo_due_run : nm_run 3 (demo_due 20).
Proof. eapply nm_run_step; [apply (demo_uptime_run 20)|]. apply (nm_step_hook 100). unfold demo_due. apply exec_ok. vm_compute. reflexivity. Qed.

Definition demo_paid : NmState := run_calls [(NoOrigin, offchain_pay_nodes_call 0 1%N 0); (NoOrigin, offchain_pay_nodes_call 0 1%N 0)] (demo_due 20).
Lemma demo_paid_run : nm_run 3 demo_paid.
Proof. apply run_calls_run, demo_due_run. Qed.

Lemma voting_weights_add_up_witness : map_sum (OwnedNodesCount demo_paid) = 2 /\ nm_get_watchtower_voting_weight demo_paid 7%N = 1.
Proof.
  destruct (voting_weights_add_up 3 demo_paid demo_paid_run) as (_ & _ & Hw & _ & Hs & _); [vm_compute; discriminate|].
  split; [rewrite Hs; vm_compute; reflexivity|rewrite Hw; vm_compute; reflexivity].
Defined.

Lemma paid_exactly_once_witness : count_ev (is_payout 0 20%N) (nm_events demo_paid) = 1 /\ uptimes_of 0 demo_paid = ∅.
Proof.
  destruct (paid_exactly_once 3 demo_paid demo_paid_run) as (Hc & He & _); [vm_compute; reflexivity|].
  split; [rewrite Hc; vm_compute; reflexivity|apply He; vm_compute; reflexivity].
Defined.

(** The pot pays six units although five were announced. *)
Lemma payouts_bounded_witness : zsum snd (payouts_of 0 (nm_events demo_paid)) = 6 /\
  2 * zsum snd (payouts_of 0 (nm_events demo_paid)) <= 2 * 5 + 2.
Proof.
  split; [vm_compute; reflexivity|].
  refine (payouts_bounded 3 demo_paid 0 (mkPot 5 3) demo_paid_run _ _ _ _ _).
  - vm_compute. reflexivity.
  - split; [exists 100, 3; vm_compute; repeat (left || right)|left; split; reflexivity].
  - cbn. lia.
  - cbn. lia.
  - vm_compute. discriminate.
Defined.

Lemma demo_owners n i : NodeRegistry (demo_due 20) !! n = Some i -> node_owner i = 7%N \/ node_owner i = 8%N.
Proof.
  assert (E : NodeRegistry (demo_due 20) = {[ 20%N := mkNode 7%N 200; 21%N := mkNode 8%N 210 ]}) by (vm_compute; reflexivity).
  rewrite E, lookup_insert_Some, lookup_singleton_Some. intros [[_ <-]|[_ [_ <-]]]; [by left|by right].
Qed.
Lemma demo_payable : payable rb_ok (mkPot 5 3) (demo_due 20).
Proof.
  constructor.
  - vm_compute. reflexivity.
  - vm_compute. reflexivity.
  - vm_compute. reflexivity.
  - vm_compute. reflexivity.
  - cbn. lia.
  - vm_compute. discriminate.
  - intros _. vm_compute. discriminate.
  - assert (E : cost (mkPot 5 3) (total_uptime_of (OldestUnpaidRewardPeriodIndex (demo_due 20)) (demo_due 20))
      (iter_prefix (OldestUnpaidRewardPeriodIndex (demo_due 20)) (demo_due 20)) = 6) by (vm_compute; reflexivity).
    rewrite E. assert (El : nm_ledger (demo_due 20) = demo_ledger 20) by (vm_compute; reflexivity). constructor; rewrite ?El.
    + split; intros a v; unfold demo_ledger; cbn [rb_free rb_locks]; [|by rewrite lookup_empty].
      rewrite !lookup_insert_Some, lookup_singleton_Some. intros [[_ <-]|[_ [[_ <-]|[_ [_ <-]]]]]; vm_compute; split; discriminate.
    + intros id. vm_compute. reflexivity.
    + intros n i [-> | ->]%demo_owners; vm_compute; split_and!; discriminate.
    + vm_compute. discriminate.
Qed.

Lemma payout_completes_witness : exists s', pay_calls 0 2 (demo_due 20) = (Ok tt, s') /\ OldestUnpaidRewardPeriodIndex s' = 1.
Proof.
  destruct (payout_completes (H := demo_nm) rb_ok 3 (mkPot 5 3) (demo_due 20) demo_due_run demo_payable) as (s' & Hp & Ho & _).
  assert (En : calls_needed (length (iter_prefix (OldestUnpaidRewardPeriodIndex (demo_due 20)) (demo_due 20)))
    (Z.to_nat (MaxBatchSize (demo_due 20))) = 2%nat) by (vm_compute; reflexivity).
  assert (Eo : OldestUnpaidRewardPeriodIndex (demo_due 20) = 0) by (vm_compute; reflexivity).
  rewrite En, Eo in Hp. rewrite Eo in Ho. exists s'. split; [exact Hp|exact Ho].
Defined.

(** The worker of node 20, which holds its key. *)
Definition demo_env : WorkerEnv :=
  mkWorkerEnv [300; 200] (fun k m => Some (k + zsum id m)) (fun _ _ => None) (fun _ => true) false (fun _ => None)
    (fun l => l) (fun _ => None) (fun _ _ => None).
Definition demo_db : NmLocal := mkLocal None None ∅.
Definition demo_enabled : NmState := run_calls (take 4 demo_calls) (demo_genesis 20).

(** After block 30 the heartbeat makes it into block 31; after block 99, block
    100 starts a new period and it fails. *)
Lemma worker_heartbeat_accepted_witness :
  (exists s2, nm_dispatch NoOrigin (offchain_submit_heartbeat_call 20%N 0 0 203) (set_nm_block 31 demo_enabled) = (Ok tt, s2) /\
    uptimes_of 0 s2 !! 20%N = Some (mkUptime 1 31)) /\
  let sh := exec (nm_on_initialize 100) (set_nm_block 100 demo_enabled) in
  nm_dispatch NoOrigin (offchain_submit_heartbeat_call 20%N 0 0 203) sh = (Err (nm_error InvalidHeartbeat), sh).
Proof.
  assert (Hin : forall (l : list (AccountId * NodeInfo)) x, x ∈ l -> x ∈ l) by done.
  assert (Hsig : forall k m sg, key_sign demo_env k m = Some sg -> signer_verify k m sg = true)
    by (intros k m sg [= <-]; cbn; apply Z.eqb_refl).
  split.
  - destruct (worker_heartbeat_accepted demo_env demo_enabled 30 demo_db 20%N 0 0 203
      (snd (nm_offchain_worker demo_env demo_enabled 30 demo_db)) Hin Hsig) as (_ & _ & Hrest); [vm_compute; reflexivity|].
    assert (Hu : should_update (RewardPeriod demo_enabled) (30 + 1) = false) by (vm_compute; reflexivity).
    rewrite Hu in Hrest. destruct Hrest as (_ & s2 & Hd & _ & Hup). exists s2. split; [exact Hd|exact Hup].
  - destruct (worker_heartbeat_accepted demo_env demo_enabled 99 demo_db 20%N 0 0 203
      (snd (nm_offchain_worker demo_env demo_enabled 99 demo_db)) Hin Hsig) as (_ & _ & Hrest); [vm_compute; reflexivity|].
    assert (Hu : should_update (RewardPeriod demo_enabled) (99 + 1) = true) by (vm_compute; reflexivity).
    rewrite Hu in Hrest. apply Hrest; [by vm_compute|]. apply exec_ok. vm_compute. reflexivity.
Defined.

Definition demo_stuck : NmState := exec (nm_dispatch NoOrigin (offchain_pay_nodes_call 0 1%N 0)) (demo_due 10).

(** Rounding to the nearest unit can ask for more than the announced reward: with
    a pot that holds exactly the five units announced (above the minimum balance)
    the check for enough funds passes, but three units for each of two nodes
    cannot be paid, so the second batch fails, however often it is tried. *)
Theorem exact_pot_overdrawn :
  reward_pot_balance (demo_due 10) = 5 /\ RewardPot (demo_due 10) !! 0 = Some (mkPot 5 3) /\
  nm_dispatch NoOrigin (offchain_pay_nodes_call 0 1%N 0) (demo_due 10) = (Ok tt, demo_stuck) /\
  forall n, nm_dispatch NoOrigin (offchain_pay_nodes_call 0 1%N 0) (set_nm_block n demo_stuck) =
    (Err (Other "KeepAlive"), set_nm_block n demo_stuck).
Proof.
  split; [vm_compute; reflexivity|]. split; [vm_compute; reflexivity|].
  split; [unfold demo_stuck; apply exec_ok; vm_compute; reflexivity|].
  intros n. assert (E : fst (nm_dispatch NoOrigin (offchain_pay_nodes_call 0 1%N 0) (set_nm_block n demo_stuck)) = Err (Other "KeepAlive"))
    by (vm_compute; reflexivity).
  destruct (nm_dispatch _ _ _) as [r s'] eqn:Hr. cbn [fst] in E. rewrite E in *. by rewrite (dispatch_err _ _ _ _ _ Hr).
Qed.
