(* ===== verification/EthAssetRegistry.v ===== *)
(** * The registry of Ethereum assets

    [src/pallets/eth-asset-registry/src/lib.rs] with the asset processor of the
    runtime ([src/runtime/src/asset_registry.rs]) and the pallet's own
    [SequentialId], over any type of asset ids.  The registry keeps metadata by
    asset and assets by Ethereum address; the address is also part of the
    metadata, and the calls do not always keep the two in step. *)

From S2P Require Import Prelude Errors.

(** ** Types *)

(** An Ethereum address is the 160-bit number it is. *)
Abbreviation EthAddress := Z.

Record CustomMetadata := mkCustomMetadata { eth_address : EthAddress; allow_as_base_asset : bool }.
Definition set_eth_address (a : EthAddress) (m : CustomMetadata) : CustomMetadata :=
  mkCustomMetadata a (allow_as_base_asset m).

(** [orml_traits::asset_registry::AssetMetadata], without the location. *)
Record AssetMetadata := mkMetadata {
  decimals : Z; asset_name : list Z; asset_symbol : list Z; existential_deposit : Z; additional : CustomMetadata }.

(** The asset processor may change the metadata and the last asset id. *)
Class EarConfig := {
  AssetId : Type;
  asset_id_eq :: EqDecision AssetId;
  asset_id_countable :: Countable AssetId;
  AuthorityOrigin : Origin -> option AssetId -> Res unit;
  pre_register : option AssetId -> AssetMetadata -> ST DispatchError AssetId (AssetId * AssetMetadata);
  post_register : AssetId -> AssetMetadata -> Res unit;
  decode_metadata : list Z -> option AssetMetadata }.

Section EthAssetRegistry.
Context `{EarConfig}.

Inductive EarEvent :=
| RegisteredAsset (asset_id : AssetId) (metadata : AssetMetadata)
| UpdatedAsset (asset_id : AssetId) (metadata : AssetMetadata).

Record EarState := mkEar {
  Metadata : gmap AssetId AssetMetadata;
  EthAddressToAssetId : gmap EthAddress AssetId;
  LastAssetId : AssetId;
  ear_events : list EarEvent }.
Definition set_Metadata x s := mkEar x (EthAddressToAssetId s) (LastAssetId s) (ear_events s).
Definition set_EthAddressToAssetId x s := mkEar (Metadata s) x (LastAssetId s) (ear_events s).
Definition set_LastAssetId x s := mkEar (Metadata s) (EthAddressToAssetId s) x (ear_events s).
Definition set_ear_events x s := mkEar (Metadata s) (EthAddressToAssetId s) (LastAssetId s) x.

Definition ear_error (e : EthAssetRegistryError) : DispatchError := Module_ (EthAssetRegistryErr e).
Definition deposit_ear_event (e : EarEvent) : ST DispatchError EarState unit :=
  modify (fun s => set_ear_events (ear_events s ++ [e]) s).
Definition on_last_asset_id {A} (m : ST DispatchError AssetId A) : ST DispatchError EarState A := fun s =>
  let '(r, x) := m (LastAssetId s) in (r, set_LastAssetId x s).

(** ** Operations *)

Definition do_insert_eth_address_mapping (a : EthAddress) (id : AssetId) : ST DispatchError EarState unit :=
  s ← get;
  lift (ensure (negb (bool_decide (is_Some (EthAddressToAssetId s !! a)))) (ear_error ConflictingEthAddress)) ;;
  modify (fun s => set_EthAddressToAssetId (<[a := id]> (EthAddressToAssetId s)) s).

Definition do_update_eth_address (id : AssetId) (old new : EthAddress) : ST DispatchError EarState unit :=
  if bool_decide (new <> old) then
    modify (fun s => set_EthAddressToAssetId (delete old (EthAddressToAssetId s)) s) ;;
    do_insert_eth_address_mapping new id
  else mret tt.

Definition do_register_asset_without_asset_processor (a : EthAddress) (m : AssetMetadata) (id : AssetId) : ST DispatchError EarState unit :=
  s ← get;
  lift (ensure (negb (bool_decide (is_Some (Metadata s !! id)))) (ear_error ConflictingAssetId)) ;;
  do_insert_eth_address_mapping a id ;;
  modify (fun s => set_Metadata (<[id := m]> (Metadata s)) s) ;;
  deposit_ear_event (RegisteredAsset id m).

Definition do_register_asset (a : EthAddress) (m : AssetMetadata) (maybe_id : option AssetId) : ST DispatchError EarState unit :=
  lift (ensure (negb (a =? 0)) (ear_error EthAddressIsMandatory)) ;;
  '(id, m) ← on_last_asset_id (pre_register maybe_id m);
  do_register_asset_without_asset_processor a m id ;;
  lift (post_register id m).

(** The metadata with the given fields replaced, [additional] last. *)
Definition updated_metadata (m : AssetMetadata) (decimals' : option Z) (name' symbol' : option (list Z)) (ed' : option Z)
    (eth' : option EthAddress) (additional' : option CustomMetadata) : AssetMetadata :=
  let custom := match eth' with Some a => set_eth_address a (additional m) | None => additional m end in
  mkMetadata (default (decimals m) decimals') (default (asset_name m) name') (default (asset_symbol m) symbol')
    (default (existential_deposit m) ed') (default custom additional').

(** [metadata] is read once and written back at the end; the event is deposited
    before. *)
Definition do_update_asset (id : AssetId) (decimals' : option Z) (name' symbol' : option (list Z)) (ed' : option Z)
    (eth' : option EthAddress) (additional' : option CustomMetadata) : ST DispatchError EarState unit :=
  s ← get;
  m ← lift (ok_or (Metadata s !! id) (ear_error EthAssetNotFound));
  match eth' with
  | Some a => do_update_eth_address id (eth_address (additional m)) a
  | None => mret tt
  end ;;
  let m' := updated_metadata m decimals' name' symbol' ed' eth' additional' in
  deposit_ear_event (UpdatedAsset id m') ;;
  modify (fun s => set_Metadata (<[id := m']> (Metadata s)) s).

Definition register_eth_asset (origin : Origin) (a : EthAddress) (m : AssetMetadata) (id : option AssetId) : ST DispatchError EarState unit :=
  transactional (lift (AuthorityOrigin origin id) ;; do_register_asset a m id).
Definition update_eth_asset (origin : Origin) (id : AssetId) (decimals' : option Z) (name' symbol' : option (list Z))
    (eth' : option EthAddress) (ed' : option Z) (additional' : option CustomMetadata) : ST DispatchError EarState unit :=
  transactional (lift (AuthorityOrigin origin (Some id)) ;; do_update_asset id decimals' name' symbol' ed' eth' additional').

Definition fetch_metadata_by_eth_address (a : EthAddress) (s : EarState) : option AssetMetadata :=
  id ← EthAddressToAssetId s !! a; Metadata s !! id.
Definition fetch_eth_address_by_asset_id (id : AssetId) (s : EarState) : option EthAddress :=
  m ← Metadata s !! id; Some (eth_address (additional m)).
Definition ear_asset_id (a : EthAddress) (s : EarState) : option AssetId := EthAddressToAssetId s !! a.
Definition ear_metadata (id : AssetId) (s : EarState) : option AssetMetadata := Metadata s !! id.

(** Genesis panics if metadata cannot be decoded or an asset is registered
    twice. *)
Definition register_genesis_asset (x : EthAddress * AssetId * list Z) : ST DispatchError EarState unit :=
  m ← lift (ok_or (decode_metadata x.2) Panicked);
  r ← attempt (F := DispatchError) (do_register_asset_without_asset_processor x.1.1 m x.1.2);
  match r with Ok _ => mret tt | Err _ => fail Panicked end.
Definition ear_genesis_build (assets : list (EthAddress * AssetId * list Z)) (last : AssetId) : ST DispatchError EarState unit :=
  for_each assets register_genesis_asset ;;
  modify (set_LastAssetId last).

(** ** Addresses and assets in step *)

(** A call in good order gives the metadata the address the asset is registered
    under. *)
Inductive ear_step (orderly : bool) : EarState -> EarState -> Prop :=
| ear_step_register o a m id r s s' : register_eth_asset o a m id s = (r, s') ->
    (orderly = true -> eth_address (additional m) = a) -> ear_step orderly s s'
| ear_step_update o id d n sy eth ed ad r s s' : update_eth_asset o id d n sy eth ed ad s = (r, s') ->
    (orderly = true -> forall c, ad = Some c -> Some (eth_address c) =
       match eth with Some a => Some a | None => fetch_eth_address_by_asset_id id s end) ->
    ear_step orderly s s'.
Inductive ear_run (orderly : bool) : EarState -> Prop :=
| ear_run_start last : ear_run orderly (mkEar ∅ ∅ last [])
| ear_run_step s s' : ear_run orderly s -> ear_step orderly s s' -> ear_run orderly s'.

Definition in_step (s : EarState) : Prop :=
  forall a id, EthAddressToAssetId s !! a = Some id <-> fetch_eth_address_by_asset_id id s = Some a.
Definition mapped_registered (s : EarState) : Prop :=
  forall a id, EthAddressToAssetId s !! a = Some id -> is_Some (Metadata s !! id).

Lemma insert_mapping_ok a id s u s' : do_insert_eth_address_mapping a id s = (Ok u, s') ->
  EthAddressToAssetId s !! a = None /\ s' = set_EthAddressToAssetId (<[a := id]> (EthAddressToAssetId s)) s.
Proof.
  intros Hr. apply bind_ok in Hr as (? & s1 & [-> ->]%get_ok & Hr). apply bind_ok in Hr as (? & s1 & [Hn%ensure_ok ->]%lift_ok & Hr).
  apply negb_true_iff, bool_decide_eq_false in Hn. apply modify_ok in Hr as [_ ->]. split; [by apply eq_None_not_Some|done].
Qed.

Lemma register_ok a m id s u s' : do_register_asset_without_asset_processor a m id s = (Ok u, s') ->
  Metadata s !! id = None /\ EthAddressToAssetId s !! a = None /\
  Metadata s' = <[id := m]> (Metadata s) /\ EthAddressToAssetId s' = <[a := id]> (EthAddressToAssetId s).
Proof.
  intros Hr. apply bind_ok in Hr as (? & s1 & [-> ->]%get_ok & Hr). apply bind_ok in Hr as (? & s1 & [Hn%ensure_ok ->]%lift_ok & Hr).
  apply negb_true_iff, bool_decide_eq_false in Hn. apply bind_ok in Hr as (? & s1 & [Ha ->]%insert_mapping_ok & Hr).
  injection Hr as _ <-. split_and!; [by apply eq_None_not_Some|done..].
Qed.

Lemma on_last_ok {A} (f : ST DispatchError AssetId A) s x s' : on_last_asset_id f s = (Ok x, s') ->
  f (LastAssetId s) = (Ok x, LastAssetId s') /\ Metadata s' = Metadata s /\ EthAddressToAssetId s' = EthAddressToAssetId s.
Proof. unfold on_last_asset_id. destruct (f (LastAssetId s)) as [r l]. intros [= -> <-]. done. Qed.

Lemma register_call_ok o a m id s u s' : register_eth_asset o a m id s = (Ok u, s') ->
  exists i m' last', pre_register id m (LastAssetId s) = (Ok (i, m'), last') /\ a <> 0 /\
    Metadata s !! i = None /\ EthAddressToAssetId s !! a = None /\
    Metadata s' = <[i := m']> (Metadata s) /\ EthAddressToAssetId s' = <[a := i]> (EthAddressToAssetId s).
Proof.
  intros Hr%transactional_ok. apply bind_ok in Hr as (? & s1 & [_ ->]%lift_ok & Hr).
  apply bind_ok in Hr as (? & s1 & [Ha%ensure_ok ->]%lift_ok & Hr). apply bind_ok in Hr as ([i m'] & s1 & (Hp & E1 & E2)%on_last_ok & Hr).
  apply bind_ok in Hr as (? & s2 & (H1 & H2 & H3 & H4)%register_ok & Hr). apply lift_ok in Hr as [_ ->].
  rewrite E1, E2 in *. exists i, m', (LastAssetId s1). split_and!; try done. by intros ->.
Qed.

(** What an update does to the mapping. *)
Lemma update_call_ok o id d n sy eth ed ad s u s' : update_eth_asset o id d n sy eth ed ad s = (Ok u, s') ->
  exists m m', Metadata s !! id = Some m /\ Metadata s' = <[id := m']> (Metadata s) /\
    additional m' = default (match eth with Some a => set_eth_address a (additional m) | None => additional m end) ad /\
    EthAddressToAssetId s' =
      match eth with
      | Some a => if decide (a = eth_address (additional m)) then EthAddressToAssetId s
                  else <[a := id]> (delete (eth_address (additional m)) (EthAddressToAssetId s))
      | None => EthAddressToAssetId s
      end /\
    (forall a, eth = Some a -> a <> eth_address (additional m) -> EthAddressToAssetId s !! a = None).
Proof.
  intros Hr%transactional_ok. apply bind_ok in Hr as (? & s1 & [_ ->]%lift_ok & Hr). apply bind_ok in Hr as (? & s1 & [-> ->]%get_ok & Hr).
  apply bind_ok in Hr as (m & s1 & [Hm%ok_or_ok ->]%lift_ok & Hr). apply bind_ok in Hr as (? & s1 & Hu & Hr). injection Hr as _ <-.
  exists m, (updated_metadata m d n sy ed eth ad). split; [done|]. cbn [Metadata EthAddressToAssetId set_Metadata set_ear_events]. destruct eth as [a|]; [|by apply mret_ok in Hu as [_ ->]].
  unfold do_update_eth_address in Hu. case_bool_decide as Hne.
  - apply bind_ok in Hu as (? & s2 & [_ ->]%modify_ok & [Hnone ->]%insert_mapping_ok). cbn in *. rewrite decide_False by done.
    rewrite lookup_delete_ne in Hnone by done. split_and!; try done. by intros a' [= <-] _.
  - apply mret_ok in Hu as [_ ->]. rewrite decide_True by (destruct (decide (a = eth_address (additional m))); done).
    split_and!; try done. intros a' [= <-] ?. done.
Qed.

Lemma register_err o a m id s e s' : register_eth_asset o a m id s = (Err e, s') -> s' = s.
Proof. apply transactional_err. Qed.
Lemma update_err o id d n sy eth ed ad s e s' : update_eth_asset o id d n sy eth ed ad s = (Err e, s') -> s' = s.
Proof. apply transactional_err. Qed.

Lemma mapped_registered_step b s s' : ear_step b s s' -> mapped_registered s -> mapped_registered s'.
Proof.
  intros [o a m id r s1 s1' Hr _|o id d n sy eth ed ad r s1 s1' Hr _] Hi; (destruct r as [u|e]; [|by first [apply register_err in Hr|apply update_err in Hr]; subst]).
  - apply register_call_ok in Hr as (i & m' & l' & _ & _ & _ & _ & E1 & E2). intros a' id'. rewrite E1, E2, lookup_insert_Some.
    intros [[_ <-]|[_ Hx%Hi]]; rewrite lookup_insert_is_Some; [by left|]. destruct (decide (i = id')); [by left|by right].
  - apply update_call_ok in Hr as (m & m' & Hm & E1 & _ & E2 & _). intros a' id'. rewrite E1, E2. rewrite lookup_insert_is_Some.
    intros Hx. destruct (decide (id = id')) as [->|Hne]; [by left|right]. split; [done|].
    destruct eth as [a|]; [|by apply (Hi a')]. case_decide; [by apply (Hi a')|].
    apply lookup_insert_Some in Hx as [[_ <-]|[_ [_ Hx]%lookup_delete_Some]]; [done|by apply (Hi a')].
Qed.

Lemma fetch_insert id id' m s s' : Metadata s' = <[id := m]> (Metadata s) ->
  fetch_eth_address_by_asset_id id' s' = if decide (id' = id) then Some (eth_address (additional m)) else fetch_eth_address_by_asset_id id' s.
Proof.
  intros E. unfold fetch_eth_address_by_asset_id. rewrite E. destruct (decide (id' = id)) as [->|Hne].
  - by rewrite lookup_insert_eq.
  - by rewrite lookup_insert_ne.
Qed.

Section Orderly.
Context (pre_keeps : forall id m l i m' l', pre_register id m l = (Ok (i, m'), l') -> additional m' = additional m).

Lemma in_step_step s s' : ear_step true s s' -> in_step s -> in_step s'.
Proof using pre_keeps.
  intros [o a m id r s1 s1' Hr Ho|o id d n sy eth ed ad r s1 s1' Hr Ho] Hi; (destruct r as [u|e]; [|by first [apply register_err in Hr|apply update_err in Hr]; subst]);
    specialize (Ho eq_refl).
  - apply register_call_ok in Hr as (i & m' & l' & Hp & _ & Hn & Ha & E1 & E2). apply pre_keeps in Hp. intros a' id'.
    rewrite E2, (fetch_insert _ _ _ _ _ E1), Hp, Ho, lookup_insert_Some. pose proof (Hi a' id') as Hi'.
    assert (Hi0 : fetch_eth_address_by_asset_id i s1 = None) by (unfold fetch_eth_address_by_asset_id; by rewrite Hn).
    destruct (decide (id' = i)) as [->|Hne]; [|naive_solver]. rewrite Hi0 in Hi'. naive_solver.
  - apply update_call_ok in Hr as (m & m' & Hm & E1 & Ead & E2 & Hfree).
    assert (Hold : fetch_eth_address_by_asset_id id s1 = Some (eth_address (additional m))) by (unfold fetch_eth_address_by_asset_id; by rewrite Hm).
    set (old := eth_address (additional m)) in *.
    assert (Enew : eth_address (additional m') = default old eth).
    { rewrite Ead. destruct ad as [c|]; cbn; [|by destruct eth]. specialize (Ho c eq_refl). rewrite Hold in Ho. destruct eth; cbn; congruence. }
    intros a' id'. rewrite E2, (fetch_insert _ _ _ _ _ E1), Enew. pose proof (Hi a' id') as Hi'.
    assert (Hdef : default old eth = old /\ EthAddressToAssetId s1' = EthAddressToAssetId s1 \/
      exists a, eth = Some a /\ a <> old) by (rewrite E2; destruct eth as [a|]; cbn; [case_decide; naive_solver|naive_solver]).
    destruct Hdef as [[-> E]|(a & -> & Hne)].
    + rewrite <- E2, E. destruct (decide (id' = id)) as [->|]; [|done]. by rewrite Hi', Hold.
    + rewrite decide_False by done. cbn. specialize (Hfree a eq_refl Hne). rewrite lookup_insert_Some, lookup_delete_Some.
      destruct (decide (id' = id)) as [->|Hid].
      * split; [intros [[-> _]|(? & ? & Hx)]; [done|]|intros [= ->]; by left]. apply Hi in Hx. congruence.
      * split; [intros [[_ ->]|(_ & _ & Hx)]; [done|by apply Hi]|].
        intros Hx. pose proof (proj2 Hi' Hx) as Hm'. right. split_and!; [|  |done].
        -- intros ->. congruence.
        -- intros <-. apply (proj2 (Hi old id)) in Hold. congruence.
Qed.
End Orderly.

(** Every Ethereum address in the registry leads to a registered asset; and as
    long as the metadata that comes with a call names the address the asset is
    registered under, addresses and assets correspond one to one: the address
    recorded for an asset leads back to it, and no two assets share one. *)
Theorem addresses_in_step orderly s :
  (forall id m l i m' l', pre_register id m l = (Ok (i, m'), l') -> additional m' = additional m) ->
  ear_run orderly s ->
  (forall a id, ear_asset_id a s = Some id -> is_Some (fetch_metadata_by_eth_address a s)) /\
  (orderly = true -> forall a id, ear_asset_id a s = Some id <-> fetch_eth_address_by_asset_id id s = Some a).
Proof.
  intros Hpre Hrun. split.
  - assert (Hm : mapped_registered s).
    { induction Hrun as [l|s s' _ IH Hs]; [intros a id Hx; cbn in Hx; by rewrite lookup_empty in Hx|]. by eapply mapped_registered_step. }
    intros a id Ha. unfold fetch_metadata_by_eth_address. unfold ear_asset_id in Ha. rewrite Ha. exact (Hm a id Ha).
  - intros ->. change (in_step s). induction Hrun as [l|s s' _ IH Hs]; [|by eapply in_step_step].
    intros a id. unfold fetch_eth_address_by_asset_id. cbn. rewrite !lookup_empty. done.
Qed.

End EthAssetRegistry.

(** ** The asset processors *)

(** [CustomAssetProcessor] of the runtime, for any asset ids. *)
Definition custom_pre_register {I} (id : option I) (m : AssetMetadata) : ST DispatchError I (I * AssetMetadata) :=
  match id with
  | Some id => mret (id, m)
  | None => fail (Other "asset-registry: AssetId is required")
  end.
Definition custom_post_register {I} (id : I) (m : AssetMetadata) : Res unit := Ok tt.

(** [SequentialId], for ids of [w] bits. *)
Definition sequential_pre_register (w : Z) (id : option Z) (m : AssetMetadata) : ST DispatchError Z (Z * AssetMetadata) :=
  last ← get;
  next_id ← lift (ok_or (checked_add w last 1) (Arithmetic Overflow));
  match id with
  | Some explicit_id =>
      if bool_decide (explicit_id <> next_id) then fail (ear_error InvalidAssetId)
      else modify (fun _ => next_id) ;; mret (next_id, m)
  | None => modify (fun _ => next_id) ;; mret (next_id, m)
  end.

(** ** Concrete registries *)

(** The runtime's: only root, explicit ids. *)
Definition demo_ear : EarConfig := {|
  AssetId := Z;
  AuthorityOrigin o _ := ensure_root o;
  pre_register := custom_pre_register;
  post_register := custom_post_register;
  decode_metadata _ := None |}.
Definition demo_meta (a : EthAddress) : AssetMetadata := mkMetadata 18 [] [] 0 (mkCustomMetadata a false).
Definition demo_assets : EarState (H := demo_ear) :=
  exec (register_eth_asset (H := demo_ear) Root 10 (demo_meta 10) (Some 1)) (mkEar (H := demo_ear) ∅ ∅ 0 []).

Lemma addresses_in_step_witness :
  ear_asset_id (H := demo_ear) 10 demo_assets = Some 1 /\ fetch_eth_address_by_asset_id (H := demo_ear) 1 demo_assets = Some 10.
Proof.
  destruct (addresses_in_step (H := demo_ear) true demo_assets) as [_ Hi].
  - intros id m l i m' l' Hp. destruct id as [x|]; [|discriminate Hp]. injection Hp as _ <- _. reflexivity.
  - eapply ear_run_step; [apply (ear_run_start (H := demo_ear) true 0)|].
    apply (ear_step_register (H := demo_ear) true Root 10 (demo_meta 10) (Some 1) (Ok tt)); [apply exec_ok; vm_compute; reflexivity|reflexivity].
  - assert (E : ear_asset_id (H := demo_ear) 10 demo_assets = Some 1) by (vm_compute; reflexivity).
    split; [exact E|]. apply (Hi eq_refl). exact E.
Defined.

(** Without that order: an asset registered under one address with the metadata
    of another takes the other asset's address away when it is moved, and keeps
    its own old one. *)
Theorem moved_asset_takes_address :
  let s := exec (register_eth_asset (H := demo_ear) Root 20 (demo_meta 10) (Some 2)) demo_assets in
  let s' := exec (update_eth_asset (H := demo_ear) Root 2 None None None (Some 30) None None) s in
  ear_asset_id (H := demo_ear) 10 s = Some 1 /\ ear_asset_id (H := demo_ear) 10 s' = None /\
  fetch_eth_address_by_asset_id (H := demo_ear) 1 s' = Some 10 /\
  ear_asset_id (H := demo_ear) 20 s' = Some 2 /\ ear_asset_id (H := demo_ear) 30 s' = Some 2.
Proof. vm_compute. repeat split. Qed.
