(* ===== verification/PalletConfig.v ===== *)
(** * The configuration pallet and the fees of transactions

    [src/pallets/config/src/lib.rs]: who administers the gas fees, who receives
    them and what they are based on; and, from [src/runtime/src/lib.rs],
    [Treasury] and [DealWithFees], which hand the fees and tips of a transaction
    to that recipient. *)

From S2P Require Import Prelude Errors Interfaces.

Inductive ConfigEvent :=
| ConfigAdminAccountSet (new_admin : AccountId)
| GasFeeRecipientSet (new_account : AccountId)
| BaseGasFeeSet (new_base_gas_fee : Z).

Record ConfigState := mkConfig {
  cfg_AdminAccount : option AccountId;
  GasFeeRecipientAccount : option AccountId;
  BaseGasFee : Z;
  config_events : list ConfigEvent }.

Abbreviation ConfigM := (ST DispatchError ConfigState).
Definition config_error (e : PalletConfigError) : DispatchError := Module_ (PalletConfigErr e).
Definition deposit_config_event (e : ConfigEvent) : ConfigM unit := modify (fun s =>
  mkConfig (cfg_AdminAccount s) (GasFeeRecipientAccount s) (BaseGasFee s) (config_events s ++ [e])).

Definition config_genesis_build (admin recipient : option AccountId) (base_gas_fee : Z) : ConfigState :=
  mkConfig admin recipient base_gas_fee [].

(** The admin check of the calls. *)
Definition ensure_config_admin (origin : Origin) : ConfigM unit :=
  who ← lift (ensure_signed origin);
  s ← get;
  admin ← lift (ok_or (cfg_AdminAccount s) (config_error ConfigAdminAccountNotSet));
  lift (ensure (bool_decide (who = admin)) (config_error SenderNotAdmin)).

Definition set_gas_fee_recipient (origin : Origin) (recipient : AccountId) : ConfigM unit := transactional (
  ensure_config_admin origin ;;
  modify (fun s => mkConfig (cfg_AdminAccount s) (Some recipient) (BaseGasFee s) (config_events s)) ;;
  deposit_config_event (GasFeeRecipientSet recipient)).

Definition set_base_gas_fee (origin : Origin) (base_fee : Z) : ConfigM unit := transactional (
  ensure_config_admin origin ;;
  lift (ensure (0 <? base_fee) (config_error BaseGasFeeZero)) ;;
  modify (fun s => mkConfig (cfg_AdminAccount s) (GasFeeRecipientAccount s) base_fee (config_events s)) ;;
  deposit_config_event (BaseGasFeeSet base_fee)).

Definition set_admin_account (origin : Origin) (admin_account : AccountId) : ConfigM unit := transactional (
  lift (ensure_root origin) ;;
  modify (fun s => mkConfig (Some admin_account) (GasFeeRecipientAccount s) (BaseGasFee s) (config_events s)) ;;
  deposit_config_event (ConfigAdminAccountSet admin_account)).

Definition config_admin (s : ConfigState) : Res AccountId :=
  ok_or (cfg_AdminAccount s) (config_error ConfigAdminAccountNotSet).
Definition gas_fee_recipient (s : ConfigState) : Res AccountId :=
  ok_or (GasFeeRecipientAccount s) (config_error GasFeeRecipientNotSet).
Definition base_gas_fee (s : ConfigState) : Z := BaseGasFee s.

(** ** Fees of transactions *)

Section Treasury.
Context {L : Type} `{Currency L} (treasury_account : AccountId).

Definition fee_recipient (s : ConfigState) : AccountId :=
  match gas_fee_recipient s with Ok recipient => recipient | Err _ => treasury_account end.

Definition treasury_on_nonzero_unbalanced (s : ConfigState) (amount : NegativeImbalance) (l : L) : L :=
  resolve_creating (fee_recipient s) amount l.
(** [OnUnbalanced::on_unbalanced]: an imbalance of zero is dropped. *)
Definition treasury_on_unbalanced (s : ConfigState) (amount : NegativeImbalance) (l : L) : L :=
  if peek amount =? 0 then drop_imbalance amount l else treasury_on_nonzero_unbalanced s amount l.

(** Fees and then tips; anything after them stays with the iterator. *)
Definition on_unbalanceds (s : ConfigState) (fees_then_tips : list NegativeImbalance) (l : L) : L :=
  match fees_then_tips with
  | [] => l
  | [fees] => treasury_on_unbalanced s fees l
  | fees :: tips :: _ => treasury_on_unbalanced s (subsume fees tips) l
  end.

Context (ok : L -> Prop) `{!CurrencyLaws L ok}.

(** The whole of a fee and its tip is credited: the funds held grow by both, and
    the accounts they go to is the recipient of the configuration, the treasury
    if there is none. *)
Theorem fees_credited s fees tips l : ok l -> 0 < peek fees -> held l + (peek fees + peek tips) <= umax 128 ->
  ok (on_unbalanceds s [fees; tips] l) /\
  held (on_unbalanceds s [fees; tips] l) = held l + (peek fees + peek tips) /\
  on_unbalanceds s [fees; tips] l = resolve_creating (fee_recipient s) (subsume fees tips) l.
Proof.
  intros Hl Hf Hmax. pose proof (peek_nonneg tips) as Ht. pose proof (held_range l Hl) as Hh.
  assert (Hs : peek (subsume fees tips) = peek fees + peek tips) by (apply peek_subsume; lia).
  assert (E : on_unbalanceds s [fees; tips] l = resolve_creating (fee_recipient s) (subsume fees tips) l).
  { cbn. unfold treasury_on_unbalanced. rewrite Hs, (proj2 (Z.eqb_neq _ _)) by lia. done. }
  rewrite E. destruct (resolve_creating_held l (fee_recipient s) (subsume fees tips) Hl) as [H1 H2]; [lia|].
  split_and!; [done| |done]. lia.
Qed.
End Treasury.

(** ** Who decides *)

Inductive config_step : ConfigState -> ConfigState -> Prop :=
| config_step_recipient o a r s s' : set_gas_fee_recipient o a s = (r, s') -> config_step s s'
| config_step_fee o f r s s' : set_base_gas_fee o f s = (r, s') -> config_step s s'
| config_step_admin o a r s s' : set_admin_account o a s = (r, s') -> config_step s s'.

Lemma ensure_config_admin_ok o s u s' : ensure_config_admin o s = (Ok u, s') ->
  s' = s /\ exists a, cfg_AdminAccount s = Some a /\ o = Signed a.
Proof.
  intros Ha. apply bind_ok in Ha as (w & s2 & [Hw ->]%lift_ok & Ha). apply bind_ok in Ha as (? & s2 & [-> ->]%get_ok & Ha).
  apply bind_ok in Ha as (ad & s2 & [Had%ok_or_ok ->]%lift_ok & Ha). apply lift_ok in Ha as [Ha%ensure_ok%bool_decide_eq_true ->].
  destruct o; try done. injection Hw as ->. subst. eauto.
Qed.
Lemma set_recipient_ok o a s u s' : set_gas_fee_recipient o a s = (Ok u, s') ->
  (exists ad, cfg_AdminAccount s = Some ad /\ o = Signed ad) /\
  s' = mkConfig (cfg_AdminAccount s) (Some a) (BaseGasFee s) (config_events s ++ [GasFeeRecipientSet a]).
Proof.
  intros Hr%transactional_ok. apply bind_ok in Hr as (? & s1 & [-> Ha]%ensure_config_admin_ok & Hr). by injection Hr as _ <-.
Qed.
Lemma set_fee_ok o f s u s' : set_base_gas_fee o f s = (Ok u, s') ->
  (exists ad, cfg_AdminAccount s = Some ad /\ o = Signed ad) /\ 0 < f /\
  s' = mkConfig (cfg_AdminAccount s) (GasFeeRecipientAccount s) f (config_events s ++ [BaseGasFeeSet f]).
Proof.
  intros Hr%transactional_ok. apply bind_ok in Hr as (? & s1 & [-> Ha]%ensure_config_admin_ok & Hr).
  apply bind_ok in Hr as (? & s1 & [Hf%ensure_ok%Z.ltb_lt ->]%lift_ok & Hr). by injection Hr as _ <-.
Qed.
Lemma set_admin_ok o a s u s' : set_admin_account o a s = (Ok u, s') ->
  o = Root /\ s' = mkConfig (Some a) (GasFeeRecipientAccount s) (BaseGasFee s) (config_events s ++ [ConfigAdminAccountSet a]).
Proof.
  intros Hr%transactional_ok. apply bind_ok in Hr as (? & s1 & [Ho ->]%lift_ok & Hr). injection Hr as _ <-. by destruct o.
Qed.

(** A call that changes anything comes from root (the admin) or from the admin
    (the fee and its recipient); a positive fee stays positive and a recipient
    stays set, so fees never fall back to the treasury. *)
Theorem config_authority s s' : config_step s s' ->
  (0 < base_gas_fee s -> 0 < base_gas_fee s') /\
  (is_ok (gas_fee_recipient s) = true -> is_ok (gas_fee_recipient s') = true) /\
  (s' = s \/ cfg_AdminAccount s' = cfg_AdminAccount s /\ is_ok (config_admin s) = true \/
   GasFeeRecipientAccount s' = GasFeeRecipientAccount s /\ BaseGasFee s' = BaseGasFee s).
Proof.
  destruct 1 as [o a r s s' Hr|o f r s s' Hr|o a r s s' Hr]; (destruct r as [u|e]; [|apply transactional_err in Hr as ->; split_and!; auto]).
  - apply set_recipient_ok in Hr as [(ad & Had & _) ->]. unfold config_admin. rewrite Had. split_and!; auto.
  - apply set_fee_ok in Hr as ((ad & Had & _) & Hf & ->). unfold config_admin. rewrite Had. split_and!; auto.
  - apply set_admin_ok in Hr as [_ ->]. split_and!; auto.
Qed.
