(* ===== verification/MerkleTree.v ===== *)
(** * Merkle trees of the summaries

    [src/node/tnf-service/src/merkle_tree_utils.rs]: the root of a list of leaves
    and the path that proves a leaf to be among them, as the Ethereum contract
    checks it.  [keccak_256] and the order and bytes of [H256] are parameters; of
    the order it is assumed that it is total and antisymmetric. *)

From S2P Require Import Prelude.

(** The errors of the JSON-RPC calls, with the codes of [tnf_service::Error]. *)
Inductive ServiceError :=
| ErrorGeneratingRoot
| LeafDataEmpty
| EmptyLeaves
| ResponseError
| ErrorGettingBlockData
| BlockDataNotFound
| BlockNotFinalised.

Abbreviation EncodedLeafData := (list Z).

Class MerkleHash := {
  H256 : Type;
  h256_eq :: EqDecision H256;
  h256_le : H256 -> H256 -> bool;
  to_fixed_bytes : H256 -> list Z;
  keccak_256 : list Z -> H256 }.

Section MerkleTree.
Context `{MerkleHash}.

Definition sort_and_concatenate_pair (left_node right_node : H256) : list Z :=
  if h256_le left_node right_node then to_fixed_bytes left_node ++ to_fixed_bytes right_node
  else to_fixed_bytes right_node ++ to_fixed_bytes left_node.

(** The pairs of consecutive nodes, hashed; an odd last node moves up as it is. *)
Fixpoint process_nodes_in_pairs (nodes : list H256) : list H256 :=
  match nodes with
  | left_node :: right_node :: nodes => keccak_256 (sort_and_concatenate_pair left_node right_node) :: process_nodes_in_pairs nodes
  | nodes => nodes
  end.

(** The recursion ends because a level with more than one node has a shorter
    one above it. *)
Fixpoint process_level_loop (fuel : nat) (nodes : list H256) : list H256 :=
  let processed_nodes := process_nodes_in_pairs nodes in
  match fuel with
  | O => processed_nodes
  | S fuel => if (1 <? length processed_nodes)%nat then process_level_loop fuel processed_nodes else processed_nodes
  end.
Definition process_level (nodes : list H256) : list H256 := process_level_loop (length nodes) nodes.

Definition generate_tree_root (leaves_data : list EncodedLeafData) : Result ServiceError H256 :=
  match process_level (keccak_256 <$> leaves_data) with
  | [root] => Ok root
  | _ => Err ErrorGeneratingRoot
  end.

(** One level of the path: the hash in the branch of the leaf, the path so far
    and the nodes above. *)
Fixpoint process_nodes_in_pairs_for_path (branch : H256) (nodes : list H256) (merkle_path : list H256) :
    H256 * list H256 * list H256 :=
  match nodes with
  | left_node :: right_node :: nodes =>
      let node_hash := keccak_256 (sort_and_concatenate_pair left_node right_node) in
      let '(branch1, path1) :=
        if bool_decide (branch = left_node) then (node_hash, merkle_path ++ [right_node])
        else if bool_decide (branch = right_node) then (node_hash, merkle_path ++ [left_node])
        else (branch, merkle_path) in
      let '(branch2, path2, processed_nodes) := process_nodes_in_pairs_for_path branch1 nodes path1 in
      (branch2, path2, node_hash :: processed_nodes)
  | nodes => (branch, merkle_path, nodes)
  end.

Fixpoint process_level_for_path_loop (fuel : nat) (branch : H256) (nodes : list H256) (merkle_path : list H256) :
    H256 * list H256 * list H256 :=
  let '(branch1, path1, processed_nodes) := process_nodes_in_pairs_for_path branch nodes merkle_path in
  match fuel with
  | O => (branch1, path1, processed_nodes)
  | S fuel =>
      if (1 <? length processed_nodes)%nat then process_level_for_path_loop fuel branch1 processed_nodes path1
      else (branch1, path1, processed_nodes)
  end.
Definition process_level_for_path (branch : H256) (nodes : list H256) (merkle_path : list H256) : H256 * list H256 * list H256 :=
  process_level_for_path_loop (length nodes) branch nodes merkle_path.

Definition generate_merkle_path (leaf_data : EncodedLeafData) (leaves_data : list EncodedLeafData) : Result ServiceError (list H256) :=
  ensure (negb (bool_decide (leaf_data = []))) LeafDataEmpty ;;
  ensure (negb (bool_decide (leaves_data = []))) EmptyLeaves ;;
  mret (process_level_for_path (keccak_256 leaf_data) (keccak_256 <$> leaves_data) []).1.2.

(** ** Specification *)

(** How a path is checked: hash upwards with each sibling. *)
Definition hash_up (h sibling : H256) : H256 := keccak_256 (sort_and_concatenate_pair h sibling).
Definition verify_path (leaf : EncodedLeafData) (path : list H256) : H256 := foldl hash_up (keccak_256 leaf) path.

Context (h256_total : forall x y, h256_le x y = true \/ h256_le y x = true)
        (h256_antisym : forall x y, h256_le x y = true -> h256_le y x = true -> x = y).

Lemma pair_comm x y : sort_and_concatenate_pair x y = sort_and_concatenate_pair y x.
Proof using h256_total h256_antisym.
  unfold sort_and_concatenate_pair. destruct (h256_le x y) eqn:E1, (h256_le y x) eqn:E2; try done.
  - by rewrite (h256_antisym x y).
  - destruct (h256_total x y); congruence.
Qed.

(** Induction two nodes at a time. *)
Lemma pairs_ind (P : list H256 -> Prop) : P [] -> (forall x, P [x]) -> (forall x y l, P l -> P (x :: y :: l)) -> forall l, P l.
Proof.
  intros H0 H1 H2 l. enough (P l /\ forall x, P (x :: l)) by naive_solver.
  induction l as [|y l [IH IH']]; split; auto.
Qed.

Lemma length_pairs nodes : length (process_nodes_in_pairs nodes) = Nat.div2 (S (length nodes)).
Proof. induction nodes as [|x|x y nodes IH] using pairs_ind; [done..|]. cbn [process_nodes_in_pairs length]. rewrite IH. done. Qed.
Lemma pairs_shorter nodes : (1 < length (process_nodes_in_pairs nodes))%nat -> (length (process_nodes_in_pairs nodes) < length nodes)%nat.
Proof.
  rewrite length_pairs. rewrite Nat.div2_div. intros H1. pose proof (Nat.div_mod_eq (S (length nodes)) 2).
  pose proof (Nat.mod_upper_bound (S (length nodes)) 2). lia.
Qed.

(** The path keeps pace with the tree. *)
Lemma pairs_for_path_nodes b nodes p : (process_nodes_in_pairs_for_path b nodes p).2 = process_nodes_in_pairs nodes.
Proof.
  revert b p. induction nodes as [|x|x y nodes IH] using pairs_ind; intros b p; [done..|].
  cbn [process_nodes_in_pairs_for_path process_nodes_in_pairs].
  destruct (if bool_decide (b = x) then _ else _) as [b1 p1]. specialize (IH b1 p1).
  destruct (process_nodes_in_pairs_for_path b1 nodes p1) as [[b2 p2] pn]. cbn in *. by rewrite IH.
Qed.

(** What a level does to the branch: the path grows by siblings that lead from
    the old hash to the new one, and a hash of the level becomes one of the next. *)
Lemma pairs_for_path_spec b nodes p b' p' pn : process_nodes_in_pairs_for_path b nodes p = (b', p', pn) ->
  (exists q, p' = p ++ q /\ foldl hash_up b q = b') /\ (b' = b \/ b' ∈ pn) /\ (b ∈ nodes -> b' ∈ pn).
Proof using h256_total h256_antisym.
  revert b p b' p' pn. induction nodes as [|x|x y nodes IH] using pairs_ind; intros b p b' p' pn.
  - intros [= <- <- <-]. split; [exists []; by rewrite app_nil_r|]. auto.
  - intros [= <- <- <-]. split; [exists []; by rewrite app_nil_r|]. auto.
  - cbn [process_nodes_in_pairs_for_path]. set (h := keccak_256 (sort_and_concatenate_pair x y)).
    destruct (if bool_decide (b = x) then _ else _) as [b1 p1] eqn:E.
    destruct (process_nodes_in_pairs_for_path b1 nodes p1) as [[b2 p2] pn2] eqn:Er. intros [= <- <- <-].
    destruct (IH _ _ _ _ _ Er) as ((q & -> & Hq) & Hstay & Hin).
    assert (Hb : (exists z, b1 = h /\ p1 = p ++ [z] /\ hash_up b z = h /\ (b = x \/ b = y)) \/ b1 = b /\ p1 = p /\ b <> x /\ b <> y).
    { case_bool_decide as Hx; [injection E as <- <-; left; exists y; subst; auto|].
      case_bool_decide as Hy; [|injection E as <- <-; auto]. injection E as <- <-. left. exists x. subst. split_and!; auto.
      unfold hash_up, h. by rewrite pair_comm. }
    destruct Hb as [(z & -> & -> & Hz & _)|(-> & -> & Hx & Hy)].
    + split; [exists (z :: q); rewrite <- app_assoc; cbn; by rewrite Hz|].
      assert (b2 ∈ h :: pn2) by (apply elem_of_cons; destruct Hstay; auto). auto.
    + split; [eauto|]. rewrite !elem_of_cons. split; [destruct Hstay; auto|]. intros [?|[?|?]]; [done..|auto].
Qed.

Lemma level_for_path_spec fuel b nodes p b' p' pn : process_level_for_path_loop fuel b nodes p = (b', p', pn) ->
  (exists q, p' = p ++ q /\ foldl hash_up b q = b') /\ pn = process_level_loop fuel nodes /\ (b ∈ nodes -> b' ∈ pn).
Proof using h256_total h256_antisym.
  revert b nodes p. induction fuel as [|fuel IH]; intros b nodes p; cbn [process_level_for_path_loop process_level_loop].
  all: destruct (process_nodes_in_pairs_for_path b nodes p) as [[b1 p1] pn1] eqn:E1.
  all: pose proof (pairs_for_path_nodes b nodes p) as En; rewrite E1 in En; cbn in En; subst pn1.
  all: destruct (pairs_for_path_spec _ _ _ _ _ _ E1) as ((q1 & -> & Hq1) & _ & Hin1).
  - intros [= <- <- <-]. eauto.
  - destruct (1 <? _)%nat; [|intros [= <- <- <-]; eauto]. intros Hr.
    destruct (IH _ _ _ Hr) as ((q & -> & Hq) & -> & Hin). split; [|auto].
    exists (q1 ++ q). rewrite app_assoc, foldl_app, Hq1. auto.
Qed.

Lemma level_loop_single fuel nodes : nodes <> [] -> (length nodes <= fuel)%nat -> exists r, process_level_loop fuel nodes = [r].
Proof.
  revert nodes. induction fuel as [|fuel IH]; intros nodes Hne Hl; [by destruct nodes; [|cbn in Hl; lia]|].
  cbn [process_level_loop]. assert (Hpn : process_nodes_in_pairs nodes <> []) by (destruct nodes as [|x [|y nodes]]; done).
  destruct (Nat.ltb_spec 1 (length (process_nodes_in_pairs nodes))) as [Hlt|Hle].
  - apply IH; [done|]. apply pairs_shorter in Hlt. lia.
  - destruct (process_nodes_in_pairs nodes) as [|r [|]]; [done|by exists r|cbn in Hle; lia].
Qed.

Lemma root_exists leaves : leaves <> [] -> exists r, process_level (keccak_256 <$> leaves) = [r].
Proof. intros Hne. apply level_loop_single; [by destruct leaves|]. by rewrite length_fmap. Qed.

Lemma path_arrives leaf leaves : leaf ∈ leaves -> leaf <> [] ->
  exists root path, generate_tree_root leaves = Ok root /\ generate_merkle_path leaf leaves = Ok path /\ verify_path leaf path = root.
Proof using h256_total h256_antisym.
  intros Hin Hleaf. assert (Hne : leaves <> []) by (intros ->; by apply not_elem_of_nil in Hin).
  destruct (root_exists leaves Hne) as [r Hr]. unfold generate_tree_root, generate_merkle_path.
  rewrite Hr, (bool_decide_false (leaf = [])), (bool_decide_false (leaves = [])) by done. cbn -[process_level_for_path].
  destruct (process_level_for_path _ _ _) as [[b p] pn] eqn:E. apply level_for_path_spec in E as ((q & -> & Hq) & Epn & Hmem).
  exists r, q. split_and!; [done..|]. unfold verify_path. rewrite Hq.
  change (pn = process_level (keccak_256 <$> leaves)) in Epn. rewrite Hr in Epn. subst pn.
  apply list_elem_of_singleton, Hmem. by apply list_elem_of_fmap_2.
Qed.

(** C32. Generating a root ends and fails exactly for an empty list of leaves; and
    for a leaf of the list the generated path, hashed upwards from the leaf as
    the contract does, arrives at that root, whatever the hash function. *)
Theorem merkle_path_verifies leaves :
  (generate_tree_root leaves = Err ErrorGeneratingRoot <-> leaves = []) /\
  (forall leaf, leaf ∈ leaves -> leaf <> [] ->
     exists root path, generate_tree_root leaves = Ok root /\ generate_merkle_path leaf leaves = Ok path /\ verify_path leaf path = root).
Proof using h256_total h256_antisym.
  split; [|intros leaf; apply path_arrives]. split; [|by intros ->]. intros He. destruct leaves as [|l leaves]; [done|].
  destruct (root_exists (l :: leaves)) as [r Hr]; [done|]. unfold generate_tree_root in He. by rewrite Hr in He.
Qed.

End MerkleTree.

(** ** A toy hash *)

(** Numbers as hashes, for evaluation: a byte string read in base 257. *)
Definition toy_hash : MerkleHash := {|
  H256 := Z;
  h256_le := Z.leb;
  to_fixed_bytes h := [h];
  keccak_256 m := foldl (fun acc b => acc * 257 + b + 1) 7 m |}.

Lemma merkle_path_verifies_witness :
  exists root path, generate_tree_root (H := toy_hash) [[1]; [2]; [3]] = Ok root /\
    generate_merkle_path (H := toy_hash) [2] [[1]; [2]; [3]] = Ok path /\ verify_path (H := toy_hash) [2] path = root.
Proof.
  destruct (merkle_path_verifies (H := toy_hash)) with (leaves := [[1]; [2]; [3]]) as [_ Hp].
  - intros x y. cbn. lia.
  - intros x y. cbn. lia.
  - apply (Hp [2]); [right; left|discriminate].
Defined.
