(* ===== verification/SummaryRpc.v ===== *)
(** * Summaries over the node's RPC

    [src/node/tnf-service/src/extrinsic_utils.rs], [summary_utils.rs] and
    [src/node/summary-calculation-rpc/src/lib.rs]: the leaves of a range of
    blocks, the leaf a filter asks for, and the root of a range with its cache.
    The client's answers about blocks and the clock are parameters; roots are the
    32 bytes the server prints in hexadecimal. *)

From S2P Require Import Prelude MerkleTree.

(** The blocks a node has: their hashes, their encoded extrinsics, and the last
    finalised one. *)
Class Client := {
  BlockHash : Type;
  block_hash : Z -> Result string (option BlockHash);
  block_extrinsics : BlockHash -> Result string (option (list EncodedLeafData));
  finalized_number : Z }.

Inductive RpcError :=
| InvalidRange
| RangeExceedsSchedulePeriod
| NotFinalized
| ErrorFetchingExtrinsics (e : ServiceError)
| ErrorGeneratingTreeRoot (e : ServiceError).

Record LowerLeafFilter := mkFilter { filter_block_number : Z; filter_extrinsic_index : Z }.

Section Extrinsics.
Context `{MerkleHash} `{Client}.

Definition get_latest_finalised_block : Z := saturated_into 32 finalized_number.

Definition get_signed_block (block_number : Z) : Result ServiceError (list EncodedLeafData) :=
  match block_hash block_number with
  | Ok (Some hash) =>
      match block_extrinsics hash with
      | Err _ => Err ErrorGettingBlockData
      | Ok None => Err BlockDataNotFound
      | Ok (Some extrinsics) =>
          if get_latest_finalised_block <? block_number then Err BlockNotFinalised else Ok extrinsics
      end
  | Ok None => Err ResponseError
  | Err _ => Err ResponseError
  end.

Definition extrinsic_matches_filter (index block_number : Z) (filter : option LowerLeafFilter) : bool :=
  match filter with
  | Some f => (filter_extrinsic_index f =? index) && (filter_block_number f =? block_number)
  | None => false
  end.

Definition get_filter_for_block (block_number : Z) (f : LowerLeafFilter) : option LowerLeafFilter :=
  if filter_block_number f =? block_number then Some f else None.

(** [for (index, tx) in extrinsics.enumerate()], the index as a [u32]. *)
Fixpoint collect_leaves (block_number : Z) (filter : option LowerLeafFilter) (index : nat) (txs : list EncodedLeafData)
    (filtered_leaf : option EncodedLeafData) (leaves : list EncodedLeafData) : option EncodedLeafData * list EncodedLeafData :=
  match txs with
  | [] => (filtered_leaf, leaves)
  | leaf :: txs =>
      let is_match := extrinsic_matches_filter (Z.of_nat index mod 2 ^ 32) block_number filter in
      collect_leaves block_number filter (S index) txs (if is_match then Some leaf else filtered_leaf) (leaves ++ [leaf])
  end.

Definition process_extrinsics_in_block_and_check_if_filter_target_exists (block_number : Z) (filter : option LowerLeafFilter) :
    Result ServiceError (option EncodedLeafData * list EncodedLeafData) :=
  txs ← get_signed_block block_number;
  mret (collect_leaves block_number filter 0 txs None []).

(** [from..=to] *)
Definition block_range (from to : Z) : list Z := seqZ from (to - from + 1).

Fixpoint collect_blocks (filter : LowerLeafFilter) (blocks : list Z) (filtered_leaf : option EncodedLeafData) (leaves : list EncodedLeafData) :
    Result ServiceError (option EncodedLeafData * list EncodedLeafData) :=
  match blocks with
  | [] => mret (filtered_leaf, leaves)
  | n :: blocks =>
      '(leaf, extrinsics) ← process_extrinsics_in_block_and_check_if_filter_target_exists n (get_filter_for_block n filter);
      collect_blocks filter blocks (match leaf with Some _ => leaf | None => filtered_leaf end) (leaves ++ extrinsics)
  end.
Definition get_extrinsics_and_check_if_filter_target_exists (from to : Z) (filter : LowerLeafFilter) :
    Result ServiceError (option EncodedLeafData * list EncodedLeafData) :=
  collect_blocks filter (block_range from to) None [].

(** The loop of [fetch_extrinsics_from_client]. *)
Fixpoint fetch_blocks (blocks : list Z) (leaves : list EncodedLeafData) : Result ServiceError (list EncodedLeafData) :=
  match blocks with
  | [] => mret leaves
  | n :: blocks =>
      '(_, extrinsics) ← process_extrinsics_in_block_and_check_if_filter_target_exists n None;
      fetch_blocks blocks (leaves ++ extrinsics)
  end.
Definition fetch_extrinsics_from_client (from to : Z) : Result ServiceError (list EncodedLeafData) :=
  fetch_blocks (block_range from to) [].

(** ** The server *)

Definition CACHE_TTL_MS : Z := 10 * 60 * 1000.
Definition MAX_SCHEDULE_PERIOD : Z := 72000 + 1.

Record CacheEntry := mkEntry { entry_root : list Z; timestamp_ms : Z }.
(** The storage of the server, if it has one. *)
Definition Cache : Type := option (gmap (Z * Z) CacheEntry).

Definition get_cached_summary (cache : Cache) (now from to : Z) : option (list Z) :=
  storage ← cache;
  entry ← storage !! (from, to);
  if saturating_sub now (timestamp_ms entry) <=? CACHE_TTL_MS then Some (entry_root entry) else None.

Definition set_cached_summary (cache : Cache) (now from to : Z) (root : list Z) : Cache :=
  storage ← cache; Some (<[(from, to) := mkEntry root now]> storage).

(** [now] when the cache is read and [later] when it is written. *)
Definition get_summary_calculation (now later from to : Z) (cache : Cache) : Result RpcError (list Z) * Cache :=
  if to <? from then (Err InvalidRange, cache) else
  if MAX_SCHEDULE_PERIOD <? saturating_sub to from then (Err RangeExceedsSchedulePeriod, cache) else
  if saturated_into 32 finalized_number <? to then (Err NotFinalized, cache) else
  match get_cached_summary cache now from to with
  | Some cached_root => (Ok cached_root, cache)
  | None =>
      match fetch_extrinsics_from_client from to with
      | Err e => (Err (ErrorFetchingExtrinsics e), cache)
      | Ok extrinsics =>
          match (if bool_decide (extrinsics = []) then Ok (replicate 32 0)
                 else to_fixed_bytes <$> generate_tree_root extrinsics) with
          | Err e => (Err (ErrorGeneratingTreeRoot e), cache)
          | Ok root_bytes => (Ok root_bytes, set_cached_summary cache later from to root_bytes)
          end
      end
  end.

(** ** The leaves of a range *)

Lemma collect_leaves_spec n f i txs fl ls : exists fl', collect_leaves n f i txs fl ls = (fl', ls ++ txs) /\
  (fl' = fl \/ exists j leaf, txs !! j = Some leaf /\ fl' = Some leaf /\ extrinsic_matches_filter (Z.of_nat (i + j) mod 2 ^ 32) n f = true) /\
  (f = None -> fl' = fl).
Proof.
  revert i fl ls. induction txs as [|t txs IH]; intros i fl ls; cbn [collect_leaves]; [exists fl; by rewrite app_nil_r; auto|].
  destruct (IH (S i) (if extrinsic_matches_filter (Z.of_nat i mod 2 ^ 32) n f then Some t else fl) (ls ++ [t])) as (fl' & E & Hc & Hn).
  exists fl'. rewrite E, <- app_assoc. split; [done|]. split; [|intros ->; by apply Hn].
  destruct Hc as [->|(j & leaf & Hj & -> & Hm)].
  - destruct (extrinsic_matches_filter _ _ _) eqn:Em; [|by left]. right. exists 0%nat, t. by rewrite Nat.add_0_r.
  - right. exists (S j), leaf. by rewrite <- Nat.add_succ_comm.
Qed.

Lemma process_block_leaves n f r : process_extrinsics_in_block_and_check_if_filter_target_exists n f = Ok r ->
  get_signed_block n = Ok r.2 /\ (r.1 = None \/ exists j leaf, r.2 !! j = Some leaf /\ r.1 = Some leaf /\ extrinsic_matches_filter (Z.of_nat j mod 2 ^ 32) n f = true).
Proof.
  intros Hr. apply result_bind_ok in Hr as (txs & Ht & Hr). injection Hr as <-.
  destruct (collect_leaves_spec n f 0 txs None []) as (fl & -> & Hc & _). cbn. auto.
Qed.

Fixpoint leaves_of (blocks : list Z) : Result ServiceError (list EncodedLeafData) :=
  match blocks with
  | [] => Ok []
  | n :: blocks => txs ← get_signed_block n; rest ← leaves_of blocks; Ok (txs ++ rest)
  end.

Lemma process_block_eq n f : process_extrinsics_in_block_and_check_if_filter_target_exists n f =
  match get_signed_block n with Ok txs => Ok (collect_leaves n f 0 txs None []) | Err e => Err e end.
Proof. unfold process_extrinsics_in_block_and_check_if_filter_target_exists. by destruct (get_signed_block n). Qed.

Lemma fetch_blocks_eq blocks ls : fetch_blocks blocks ls = (rest ← leaves_of blocks; Ok (ls ++ rest)).
Proof.
  revert ls. induction blocks as [|n blocks IH]; intros ls; cbn [fetch_blocks leaves_of]; [cbn; by rewrite app_nil_r|].
  rewrite process_block_eq. destruct (get_signed_block n) as [txs|e]; [|done].
  destruct (collect_leaves_spec n None 0 txs None []) as (fl & E & _). rewrite E. cbn. rewrite IH. cbn.
  destruct (leaves_of blocks); [|done]. cbn. by rewrite app_assoc.
Qed.
Lemma collect_blocks_leaves f blocks fl ls r : collect_blocks f blocks fl ls = Ok r ->
  exists rest, leaves_of blocks = Ok rest /\ r.2 = ls ++ rest /\ (r.1 = fl \/ exists leaf, r.1 = Some leaf /\ leaf ∈ rest).
Proof.
  revert fl ls. induction blocks as [|n blocks IH]; intros fl ls; cbn [collect_blocks leaves_of].
  - intros [= <-]. exists []. rewrite app_nil_r. auto.
  - intros Hr. apply result_bind_ok in Hr as ([lf txs] & Hb & Hr). apply process_block_leaves in Hb as [Hg Hlf]. cbn in Hg, Hlf.
    apply IH in Hr as (rest & -> & -> & Hc). rewrite Hg. exists (txs ++ rest). split; [done|]. rewrite app_assoc. split; [done|].
    destruct Hc as [->|(leaf & -> & Hin)]; [|right; exists leaf; set_solver].
    destruct Hlf as [->|(j & leaf & Hj & -> & _)]; [by left|right]. exists leaf. apply list_elem_of_lookup_2 in Hj. set_solver.
Qed.

(** ** What the server answers *)

(** The summary of a range without a cache. *)
Definition range_summary (from to : Z) : Result ServiceError (list Z) :=
  leaves ← leaves_of (block_range from to);
  if bool_decide (leaves = []) then Ok (replicate 32 0) else to_fixed_bytes <$> generate_tree_root leaves.

Definition cache_sound (cache : Cache) : Prop :=
  forall storage, cache = Some storage -> forall from to e, storage !! (from, to) = Some e -> range_summary from to = Ok (entry_root e).

Lemma cached_sound cache now from to root : cache_sound cache -> get_cached_summary cache now from to = Some root -> range_summary from to = Ok root.
Proof.
  intros Hc Hg. unfold get_cached_summary in Hg. apply bind_Some in Hg as (st & -> & Hg). apply bind_Some in Hg as (e & He & Hg).
  case_match; [|done]. injection Hg as <-. exact (Hc st eq_refl from to e He).
Qed.
Lemma set_cached_sound cache now from to root : cache_sound cache -> range_summary from to = Ok root ->
  cache_sound (set_cached_summary cache now from to root).
Proof.
  intros Hc Hs st Hst f t e He. unfold set_cached_summary in Hst. apply bind_Some in Hst as (st0 & -> & [= <-]).
  apply lookup_insert_Some in He as [[[= <- <-] <-]|[_ He]]; [done|]. exact (Hc st0 eq_refl f t e He).
Qed.

Context (h256_total : forall x y, h256_le x y = true \/ h256_le y x = true)
        (h256_antisym : forall x y, h256_le x y = true -> h256_le y x = true -> x = y).

(** C33. The cache never changes an answer: every root the server returns is the
    root of the leaves of the range, and the cache stays a record of such roots.
    And the root serves its purpose: for the extrinsic a filter finds in the same
    range, the generated path leads from that extrinsic to the root returned. *)
Theorem summary_proves_inclusion now later from to cache r cache' : cache_sound cache ->
  get_summary_calculation now later from to cache = (r, cache') ->
  cache_sound cache' /\
  forall root, r = Ok root -> range_summary from to = Ok root /\
    forall f leaf leaves, get_extrinsics_and_check_if_filter_target_exists from to f = Ok (Some leaf, leaves) -> leaf <> [] ->
      exists h path, generate_merkle_path leaf leaves = Ok path /\ verify_path leaf path = h /\ root = to_fixed_bytes h.
Proof using h256_total h256_antisym.
  intros Hc Hr. unfold get_summary_calculation in Hr.
  assert (Hr' : cache_sound cache' /\ forall root, r = Ok root -> range_summary from to = Ok root).
  { repeat (case_match; [injection Hr as <- <-; split; [done|]; done|]).
    destruct (get_cached_summary _ _ _ _) as [root|] eqn:Eg; [injection Hr as <- <-; split; [done|]; intros ? [= <-]; by eapply cached_sound|].
    unfold fetch_extrinsics_from_client in Hr. rewrite fetch_blocks_eq in Hr.
    assert (Hs : range_summary from to = (leaves ← leaves_of (block_range from to);
      if bool_decide (leaves = []) then Ok (replicate 32 0) else to_fixed_bytes <$> generate_tree_root leaves)) by done.
    destruct (leaves_of (block_range from to)) as [ls|e]; [|injection Hr as <- <-; split; [done|]; done]. cbn in Hr, Hs.
    rewrite <- Hs in Hr. destruct (range_summary from to) as [root|e] eqn:Es; injection Hr as <- <-; [|done].
    split; [by apply set_cached_sound|]. by intros ? [= <-]. }
  destruct Hr' as [Hc' Hroot]. split; [done|]. intros root Er. specialize (Hroot root Er). split; [done|].
  intros f leaf leaves Hf Hleaf. apply collect_blocks_leaves in Hf as (rest & Hl & E & Hin). cbn in E, Hin. subst leaves.
  destruct Hin as [|(lf & [= <-] & Hin)]; [done|]. unfold range_summary in Hroot. rewrite Hl in Hroot. cbn in Hroot.
  rewrite (bool_decide_false (rest = [])) in Hroot by (intros ->; by apply not_elem_of_nil in Hin).
  destruct (path_arrives h256_total h256_antisym leaf rest Hin Hleaf) as (h & path & Hh & Hp & Hv). rewrite Hh in Hroot.
  injection Hroot as <-. eauto.
Qed.

End Extrinsics.

(** ** A chain of two blocks *)

Definition demo_client : Client := {|
  BlockHash := Z;
  block_hash n := Ok (Some n);
  block_extrinsics n := Ok (Some [[n]; [n; 1]]);
  finalized_number := 10 |}.

Lemma summary_proves_inclusion_witness :
  exists root h path, (get_summary_calculation (H := toy_hash) (H0 := demo_client) 5 6 1 2 (Some ∅)).1 = Ok root /\
    generate_merkle_path (H := toy_hash) [2] [[1]; [1; 1]; [2]; [2; 1]] = Ok path /\ verify_path (H := toy_hash) [2] path = h /\ root = [h].
Proof.
  destruct (summary_proves_inclusion (H := toy_hash) (H0 := demo_client)) with (now := 5) (later := 6) (from := 1) (to := 2)
    (cache := Some (∅ : gmap (Z * Z) CacheEntry)) (r := (get_summary_calculation (H := toy_hash) (H0 := demo_client) 5 6 1 2 (Some ∅)).1)
    (cache' := (get_summary_calculation (H := toy_hash) (H0 := demo_client) 5 6 1 2 (Some ∅)).2) as [_ Hp].
  - intros x y. cbn. lia.
  - intros x y. cbn. lia.
  - intros st [= <-] f t e He. rewrite lookup_empty in He. discriminate He.
  - apply surjective_pairing.
  - destruct (get_summary_calculation (H := toy_hash) (H0 := demo_client) 5 6 1 2 (Some ∅)).1 as [root|e] eqn:Er;
      [|vm_compute in Er; discriminate Er].
    destruct (Hp root eq_refl) as [_ Hq].
    destruct (Hq (mkFilter 2 0) [2] [[1]; [1; 1]; [2]; [2; 1]]) as (h & path & H1 & H2 & H3); [vm_compute; reflexivity|discriminate|].
    exists root, h, path. split; [reflexivity|]. split; [exact H1|]. split; [exact H2|exact H3].
Defined.
