(* ===== verification/EthEvents.v ===== *)
(** * The Ethereum event handler of the node

    [src/node/tnf-service/src/ethereum_events_handler.rs] and what it uses of
    [web3_utils.rs] there: an author of the chain looks for the events of the
    bridge contract in a range of Ethereum blocks and votes for a partition of
    them.  The kinds of events and their parsers, ranges and partitions
    ([sp_avn_common]), the Ethereum node, the runtime's API, the keystore and the
    order in which a [HashMap] hands out its values are parameters.  Hashes and
    addresses are numbers, Ethereum block numbers [u64]; one pass of the handler
    sees one state of both chains.  Log lines are left out. *)

From S2P Require Import Prelude Collections.

Abbreviation Bytes := (list Z).
Abbreviation H256 := Z.
Abbreviation H160 := Z.

(** ** What the handler uses of sp_avn_common *)

Class AvnEvents := {
  ValidEvents : Type;
  valid_events_eq :: EqDecision ValidEvents;
  values : list ValidEvents;
  signature : ValidEvents -> H256;
  is_primary : ValidEvents -> bool;
  try_from : H256 -> option ValidEvents;
  AddedValidator : ValidEvents;
  Lifted : ValidEvents;
  AvtGrowthLifted : ValidEvents;
  NftCancelListing : ValidEvents;
  NftEndBatchListing : ValidEvents;
  NftMint : ValidEvents;
  NftTransferTo : ValidEvents;
  AvtLowerClaimed : ValidEvents;
  Erc20DirectTransfer : ValidEvents;
  LiftedToPredictionMarket : ValidEvents;
  (** the data of the events, and the errors of their parsers *)
  ParseError : Type;
  AddedValidatorData : Type;
  LiftedData : Type;
  AvtGrowthLiftedData : Type;
  NftCancelListingData : Type;
  NftEndBatchListingData : Type;
  NftMintData : Type;
  NftTransferToData : Type;
  AvtLowerClaimedData : Type;
  parse_added_validator : option Bytes -> list Bytes -> Result ParseError AddedValidatorData;
  parse_lifted : option Bytes -> list Bytes -> Result ParseError LiftedData;
  parse_growth : option Bytes -> list Bytes -> Result ParseError AvtGrowthLiftedData;
  parse_cancel_listing : option Bytes -> list Bytes -> Result ParseError NftCancelListingData;
  parse_end_batch_listing : option Bytes -> list Bytes -> Result ParseError NftEndBatchListingData;
  parse_nft_mint : option Bytes -> list Bytes -> Result ParseError NftMintData;
  parse_nft_transfer_to : option Bytes -> list Bytes -> Result ParseError NftTransferToData;
  parse_lower_claimed : option Bytes -> list Bytes -> Result ParseError AvtLowerClaimedData;
  from_erc_20_contract_transfer_bytes : option Bytes -> list Bytes -> Result ParseError LiftedData;
  token_contract : LiftedData -> H160;
  set_token_contract : H160 -> LiftedData -> LiftedData;
  (** ranges of Ethereum blocks *)
  EthBlockRange : Type;
  start_block : EthBlockRange -> Z;
  end_block : EthBlockRange -> Z;
  end_block_u32 range : fits 32 (end_block range) }.

Section EthEvents.
Context {AE : AvnEvents}.

Inductive EventData :=
| LogAddedValidator (d : AddedValidatorData)
| LogLifted (d : LiftedData)
| LogAvtGrowthLifted (d : AvtGrowthLiftedData)
| LogNftCancelListing (d : NftCancelListingData)
| LogNftEndBatchListing (d : NftEndBatchListingData)
| LogNftMinted (d : NftMintData)
| LogNftTransferTo (d : NftTransferToData)
| LogLowerClaimed (d : AvtLowerClaimedData)
| LogErc20Transfer (d : LiftedData)
| LogLiftedToPredictionMarket (d : LiftedData).

Inductive AppError :=
| ErrorParsingEventLogs
| ErrorGettingEventLogs
| ErrorGettingBridgeContract
| Web3RetryLimitReached
| SignatureGenerationFailed
| MissingTransactionHash
| MissingBlockNumber
| MissingEventSignature
| ParsingError (e : ParseError)
| GenericError (e : string).

(** ** The registry of parsers *)

Record EventInfo := mkEventInfo { parser : option Bytes -> list Bytes -> Result AppError EventData }.

(** [.map_err(AppError::ParsingError).map(f)] after a parser. *)
Definition parse_with {D} (parse : option Bytes -> list Bytes -> Result ParseError D) (f : D -> EventData) : EventInfo :=
  mkEventInfo (fun data topics => f <$> map_err ParsingError (parse data topics)).

Definition EventRegistry := gmap H256 EventInfo.

(** [EventRegistry::new]: the insertions in the order of the source, so of two
    kinds with one signature the later would win. *)
Definition EventRegistry_new : EventRegistry :=
  foldl (fun m x => <[signature (fst x) := snd x]> m) ∅
    [ (AddedValidator, parse_with parse_added_validator LogAddedValidator);
      (Lifted, parse_with parse_lifted LogLifted);
      (AvtGrowthLifted, parse_with parse_growth LogAvtGrowthLifted);
      (NftCancelListing, parse_with parse_cancel_listing LogNftCancelListing);
      (NftEndBatchListing, parse_with parse_end_batch_listing LogNftEndBatchListing);
      (NftMint, parse_with parse_nft_mint LogNftMinted);
      (NftTransferTo, parse_with parse_nft_transfer_to LogNftTransferTo);
      (AvtLowerClaimed, parse_with parse_lower_claimed LogLowerClaimed);
      (Erc20DirectTransfer, parse_with from_erc_20_contract_transfer_bytes LogErc20Transfer);
      (LiftedToPredictionMarket, parse_with parse_lifted LogLiftedToPredictionMarket) ].

Definition get_event_info (r : EventRegistry) (sig : H256) : option EventInfo := r !! sig.

(** ** Logs of Ethereum *)

Record Log := mkLog {
  log_address : H160;
  log_topics : list H256;
  log_data : Bytes;
  log_block_number : option Z;
  log_transaction_hash : option H256 }.

Record DiscoveredEvent := mkDiscovered {
  ev_signature : H256;
  ev_transaction_hash : H256;
  ev_data : EventData;
  ev_block : Z }.

(** The bytes of a hash, the most significant first. *)
Definition h256_bytes (h : H256) : Bytes := (fun i => Z.land (Z.shiftr h (8 * (31 - Z.of_nat i))) 255) <$> seq 0 32.

Definition parse_event_data (sig : H256) (data : option Bytes) (topics : list Bytes) (r : EventRegistry) : Result AppError EventData :=
  info ← ok_or (get_event_info r sig) ErrorParsingEventLogs;
  parser info data topics.

(** A direct transfer does not name its token in the data: it is the contract
    that logged it. *)
Definition fill_token_contract (address : H160) (d : EventData) : EventData :=
  match d with
  | LogErc20Transfer l => if token_contract l =? 0 then LogErc20Transfer (set_token_contract address l) else d
  | _ => d
  end.

Definition parse_log (log : Log) (r : EventRegistry) : Result AppError DiscoveredEvent :=
  match log_topics log with
  | [] => Err MissingEventSignature
  | sig :: _ =>
      transaction_hash ← ok_or (log_transaction_hash log) MissingTransactionHash;
      let topics := h256_bytes <$> log_topics log in
      let data := if bool_decide (log_data log = []) then None else Some (log_data log) in
      event_data ← parse_event_data sig data topics r;
      block_number ← ok_or (log_block_number log) MissingBlockNumber;
      mret (mkDiscovered sig transaction_hash (fill_token_contract (log_address log) event_data) block_number)
  end.

(** ** The Ethereum node *)

(** What [FilterBuilder] builds: contracts and topics to be matched, and the
    range of blocks. *)
Record Filter := mkEthFilter {
  f_address : option (list H160);
  f_topic0 : option (list H256);
  f_topic2 : option (list H256);
  f_from_block : Z;
  f_to_block : Z }.

(** The answers of the node; [None] is a transport or RPC error.  Of a receipt
    only its block number is used. *)
Class Web3 := {
  eth_logs : Filter -> option (list Log);
  eth_transaction_receipt : H256 -> option (option (option Z));
  eth_block_number : option Z }.

(** A [HashMap] hands out its values in an order of its own. *)
Class HashMapOrder := {
  into_values : gmap H256 DiscoveredEvent -> list DiscoveredEvent;
  into_values_perm m : into_values m ≡ₚ (map_to_list m).*2 }.

Context {W3 : Web3} {HO : HashMapOrder}.

Definition ETH_FINALITY : Z := 20.

(** [web3_utils::get_current_block_number] *)
Definition get_current_block_number : option Z := eth_block_number.

(** [web3_utils::is_eth_block_finalised], with the addition of [u64]. *)
Definition is_eth_block_finalised (current_block_num num_blocks_to_wait : Z) : option bool :=
  latest_block ← get_current_block_number;
  Some (wrapping_add 64 current_block_num num_blocks_to_wait <=? latest_block).

(** Transfers of tokens to the bridge: the contract is the third topic. *)
Definition secondary_filter (contract_addresses : list H160) (event_types : list ValidEvents) (start_block end_block : Z) : Filter :=
  mkEthFilter None (Some (signature <$> event_types)) (Some contract_addresses) start_block end_block.
Definition primary_filter (contract_addresses : list H160) (event_types : list ValidEvents) (start_block end_block : Z) : Filter :=
  mkEthFilter (Some contract_addresses) (Some (signature <$> event_types)) None start_block end_block.

Definition identify_secondary_bridge_events (start_block end_block : Z) (contract_addresses : list H160) (event_types : list ValidEvents) :
    Result AppError (list Log) :=
  ok_or (eth_logs (secondary_filter contract_addresses event_types start_block end_block)) ErrorGettingEventLogs.

Definition identify_primary_bridge_events (start_block end_block : Z) (contract_addresses : list H160) (event_types : list ValidEvents) :
    Result AppError (list Log) :=
  ok_or (eth_logs (primary_filter contract_addresses event_types start_block end_block)) ErrorGettingEventLogs.

(** The loop that keeps one event per transaction, the first one found. *)
Fixpoint unique_transactions (r : EventRegistry) (logs : list Log) (acc : gmap H256 DiscoveredEvent) :
    Result AppError (gmap H256 DiscoveredEvent) :=
  match logs with
  | [] => Ok acc
  | log :: logs =>
      match log_transaction_hash log with
      | None => unique_transactions r logs acc
      | Some tx_hash =>
          match acc !! tx_hash with
          | Some _ => unique_transactions r logs acc
          | None =>
              discovered_event ← parse_log log r;
              unique_transactions r logs (<[tx_hash := discovered_event]> acc)
          end
      end
  end.

(** [ValidEvents::values().partition(is_primary)] *)
Definition primary_events : list ValidEvents := filter (fun e => is_primary e = true) values.
Definition secondary_events : list ValidEvents := filter (fun e => is_primary e = false) values.

Definition extend_discovery_to_secondary_events (event_signatures_to_find : list H256) : bool :=
  existsb (fun x => bool_decide (x ∈ secondary_events)) (omap try_from event_signatures_to_find).

Definition identify_events (start_block end_block : Z) (contract_addresses : list H160) (event_signatures_to_find : list H256)
    (r : EventRegistry) : Result AppError (list DiscoveredEvent) :=
  logs ← identify_primary_bridge_events start_block end_block contract_addresses primary_events;
  secondary_logs ←
    (if extend_discovery_to_secondary_events event_signatures_to_find
     then identify_secondary_bridge_events start_block end_block contract_addresses secondary_events
     else Ok []);
  found ← unique_transactions r (logs ++ secondary_logs) ∅;
  mret (into_values (filter (fun x => ev_signature (snd x) ∈ event_signatures_to_find) found)).

(** The receipts, all requested at once; an unknown transaction is skipped. *)
Fixpoint identify_additional_event_info (additional_transactions_to_check : list H256) : Result AppError (list (option Z)) :=
  match additional_transactions_to_check with
  | [] => Ok []
  | transaction_hash :: txs =>
      result ← ok_or (eth_transaction_receipt transaction_hash) ErrorGettingEventLogs;
      receipts ← identify_additional_event_info txs;
      mret (match result with Some receipt => receipt :: receipts | None => receipts end)
  end.

(** The events of the blocks of the receipts.  The requests run concurrently;
    if several fail, which error is reported is not determined, here it is the
    first one's. *)
Fixpoint identify_receipts_events (contract_addresses : list H160) (event_signatures_to_find : list H256) (r : EventRegistry)
    (receipts : list (option Z)) : Result AppError (list DiscoveredEvent) :=
  match receipts with
  | [] => Ok []
  | block_number :: receipts =>
      let block := saturated_into 32 (default 0 block_number) in
      identified_events ← identify_events block block contract_addresses event_signatures_to_find r;
      rest ← identify_receipts_events contract_addresses event_signatures_to_find r receipts;
      mret (identified_events ++ rest)
  end.

Definition identify_additional_events (contract_addresses : list H160) (event_signatures_to_find : list H256) (r : EventRegistry)
    (additional_transactions_to_check : list H256) : Result AppError (list DiscoveredEvent) :=
  additional_events_info ← identify_additional_event_info additional_transactions_to_check;
  identify_receipts_events contract_addresses event_signatures_to_find r additional_events_info.

(** ** Who the node is *)

Record CurrentNodeAuthor := mkAuthor { address : Z; signing_key : Z }.

Definition find_current_node_author {T} (authors : Result T (list (Z * Z))) (node_signing_keys : list Z) : option CurrentNodeAuthor :=
  match authors with
  | Ok authors =>
      let node_signing_keys := merge_sort Z.le node_signing_keys in
      head (omap (fun author =>
        match binary_search_by_key (snd author) id node_signing_keys with
        | Found _ => Some (mkAuthor (fst author) (snd author))
        | NotFound _ => None
        end) authors)
  | Err _ => None
  end.

(** ** The services a pass uses *)

(** Partitions of the events of a range, and what a vote signs. *)
Class Partitions := {
  EthereumEventsPartition : Type;
  partition_number : EthereumEventsPartition -> Z;
  create_partitions : EthBlockRange -> list DiscoveredEvent -> list EthereumEventsPartition;
  encode_partition_vote : Z -> EthereumEventsPartition -> Bytes;
  encode_block_vote : Z -> Z -> Bytes }.

Context {PS : Partitions}.

Inductive Submission :=
| LatestBlockVote (who block sig : Z)
| PartitionVote (who : Z) (partition : EthereumEventsPartition) (sig : Z).

(** The answers of the runtime's API at the best block ([None] is an error of the
    call), the keystore, the transaction pool. *)
Record Node := mkNode {
  query_active_block_range : option (option (EthBlockRange * Z));
  query_has_author_casted_vote : Z -> option bool;
  query_bridge_contract : option H160;
  query_signatures : option (list H256);
  has_api_version_2 : option bool;
  query_additional_transactions : option (option (list H256));
  query_authors : option (list (Z * Z));
  sr25519_public_keys : list Z;
  sr25519_sign : Z -> Bytes -> option (option Z);
  api_submits : Submission -> bool }.

(** The strings of the source, one constructor each. *)
Inductive HandlerError :=
| FailedToQueryBridgeContract
| Web3NotSetUp
| FailedToGetLatestBlockNumber
| FailedToCheckVote
| FailedToRetrieveLatestBlock
| FailedToSign
| SignatureGenerationFailed_
| FailedToSubmit
| FailedToQuerySignatures
| FailedToQueryAdditionalTransactions
| ErrorRetrievingAdditionalEvents (e : AppError)
| ErrorRetrievingEvents (e : AppError)
| PartitionNotFound (id : Z).

(** Passes append what they submit. *)
Abbreviation HandlerM := (ST HandlerError (list Submission)).

Definition sign_with (node : Node) (key : Z) (proof : Bytes) : Result HandlerError Z :=
  signed ← ok_or (sr25519_sign node key proof) FailedToSign;
  ok_or signed SignatureGenerationFailed_.

Definition submit (node : Node) (x : Submission) : HandlerM unit :=
  lift (ensure (api_submits node x) FailedToSubmit) ;; modify (fun log => log ++ [x]).

Definition submit_latest_ethereum_block (node : Node) (author : CurrentNodeAuthor) : HandlerM unit :=
  has_casted_vote ← lift (ok_or (query_has_author_casted_vote node (address author)) FailedToCheckVote);
  if has_casted_vote : bool then mret tt
  else
    current ← lift (ok_or get_current_block_number FailedToRetrieveLatestBlock);
    let latest_seen_ethereum_block := current mod 2 ^ 32 in
    sig ← lift (sign_with node (signing_key author) (encode_block_vote (address author) latest_seen_ethereum_block));
    submit node (LatestBlockVote (address author) latest_seen_ethereum_block sig).

Definition execute_event_processing (node : Node) (event_signatures : list H256) (contract_addresses : list H160) (partition_id : Z)
    (author : CurrentNodeAuthor) (range : EthBlockRange) (r : EventRegistry) (additional_transactions_to_check : list H256) : HandlerM unit :=
  additional_events ← lift (map_err ErrorRetrievingAdditionalEvents
    (identify_additional_events contract_addresses event_signatures r additional_transactions_to_check));
  range_events ← lift (map_err ErrorRetrievingEvents
    (identify_events (start_block range) (end_block range) contract_addresses event_signatures r));
  let all_events := additional_events ++ range_events in
  partition ← lift (ok_or (snd <$> list_find (fun p => partition_number p = partition_id) (create_partitions range all_events))
    (PartitionNotFound partition_id));
  sig ← lift (sign_with node (signing_key author) (encode_partition_vote (address author) partition));
  submit node (PartitionVote (address author) partition sig).

Definition process_events (node : Node) (range : EthBlockRange) (partition_id : Z) (author : CurrentNodeAuthor) (r : EventRegistry) :
    HandlerM unit :=
  contract_address ← lift (ok_or (query_bridge_contract node) FailedToQueryBridgeContract);
  event_signatures ← lift (ok_or (query_signatures node) FailedToQuerySignatures);
  has_casted_vote ← lift (ok_or (query_has_author_casted_vote node (address author)) FailedToCheckVote);
  additional_transactions ←
    (if default false (has_api_version_2 node) : bool
     then
       txs ← lift (ok_or (query_additional_transactions node) FailedToQueryAdditionalTransactions);
       mret (default [] txs)
     else mret []);
  if has_casted_vote : bool then mret tt
  else execute_event_processing node event_signatures [contract_address] partition_id author range r additional_transactions.

(** A pass; [web3_set] says whether the connection is set up. *)
Definition query_runtime_and_process (web3_set : bool) (node : Node) (author : CurrentNodeAuthor) (r : EventRegistry) : HandlerM unit :=
  result ← lift (ok_or (query_active_block_range node) FailedToQueryBridgeContract);
  lift (ensure web3_set Web3NotSetUp) ;;
  match result with
  | Some (range, partition_id) =>
      finalised ← lift (ok_or (is_eth_block_finalised (end_block range) ETH_FINALITY) FailedToGetLatestBlockNumber);
      if finalised : bool then process_events node range partition_id author r else mret tt
  | None => submit_latest_ethereum_block node author
  end.

(** ** Start up *)

Definition RETRY_LIMIT : nat := 3.

(** [initialise_web3] on whether a connection is there: the lock may be taken and
    the address of the Ethereum node may be invalid. *)
Definition initialise_web3 (try_lock url_valid : bool) : ST string bool unit :=
  if try_lock then
    web3_set ← get;
    if web3_set : bool then mret tt
    else if url_valid then modify (fun _ => true)
    else fail "Error creating a web3 connection"
  else fail "Failed to acquire web3 data mutex.".

(** [try_lock n] tells whether the lock is free at attempt [n]; [fuel] is the
    number of attempts left. *)
Fixpoint web3_attempts (try_lock : nat -> bool) (url_valid : bool) (attempts fuel : nat) : ST AppError bool unit :=
  match fuel with
  | O => fail (GenericError "Failed to initialize web3 after multiple attempts.")
  | S fuel =>
      result ← attempt (initialise_web3 (try_lock attempts) url_valid);
      match result with
      | Ok _ => mret tt
      | Err _ =>
          if (RETRY_LIMIT <=? S attempts)%nat then fail Web3RetryLimitReached
          else web3_attempts try_lock url_valid (S attempts) fuel
      end
  end.

Definition initialize_web3_with_retries (try_lock : nat -> bool) (url_valid : bool) : ST AppError bool unit :=
  web3_attempts try_lock url_valid 0 RETRY_LIMIT.

(** [start_eth_event_handler] sleeps between the rounds of its two loops; a round
    either looks for the author or makes a pass, whose error is only logged. *)
Inductive Phase := LookingForAuthor | Serving (author : CurrentNodeAuthor).

Definition handler_round (web3_set : bool) (node : Node) (st : Phase * list Submission) : Phase * list Submission :=
  match fst st with
  | LookingForAuthor =>
      match find_current_node_author (ok_or (query_authors node) tt) (sr25519_public_keys node) with
      | Some author => (Serving author, snd st)
      | None => st
      end
  | Serving author => (Serving author, exec (query_runtime_and_process web3_set node author EventRegistry_new) (snd st))
  end.
End EthEvents.

(** What a round of the handler finds around it. *)
Record Moment {AE : AvnEvents} {PS : Partitions} := mkMoment { m_web3 : Web3; m_order : HashMapOrder; m_node : Node }.

Definition start_eth_event_handler {AE : AvnEvents} {PS : Partitions} (try_lock : nat -> bool) (url_valid web3_set : bool) (rounds : list Moment) :
    Phase * list Submission :=
  match initialize_web3_with_retries try_lock url_valid web3_set with
  | (Err _, _) => (LookingForAuthor, [])
  | (Ok _, web3_set) =>
      foldl (fun st m => handler_round (W3 := m_web3 m) (HO := m_order m) web3_set (m_node m) st) (LookingForAuthor, []) rounds
  end.
