(* ===== verification/EthEventsFacts.v ===== *)
(** * The Ethereum event handler: discovery and runs

    What the handler of [EthEvents] reports of a range of Ethereum blocks, and
    that in every run of the handler votes have their grounds. *)

From S2P Require Import Prelude Collections EthEvents.

(** ** The events of a range *)

(** The first log of a transaction. *)
Definition first_log (tx : H256) (logs : list Log) : option Log :=
  snd <$> list_find (fun l => log_transaction_hash l = Some tx) logs.

Section Discovery.
Context {AE : AvnEvents}.

Lemma first_log_cons tx l logs : first_log tx (l :: logs) = if decide (log_transaction_hash l = Some tx) then Some l else first_log tx logs.
Proof. unfold first_log. cbn. destruct (decide _); [done|]. by destruct (list_find _ logs) as [[]|]. Qed.

Lemma first_log_elem tx logs l : first_log tx logs = Some l -> l ∈ logs /\ log_transaction_hash l = Some tx.
Proof.
  unfold first_log. intros ([i l'] & (Hl & Ht & _)%list_find_Some & [= <-])%fmap_Some. split; [by eapply list_elem_of_lookup_2|done].
Qed.

Lemma first_log_app tx l1 l2 : first_log tx (l1 ++ l2) = match first_log tx l1 with Some l => Some l | None => first_log tx l2 end.
Proof. induction l1 as [|l l1 IH]; [done|]. rewrite <- app_comm_cons, !first_log_cons, IH. by destruct (decide _). Qed.

Lemma first_log_is_Some tx logs l : l ∈ logs -> log_transaction_hash l = Some tx -> is_Some (first_log tx logs).
Proof.
  intros Hl Ht. induction Hl as [|l x logs Hl IH]; rewrite first_log_cons.
  - rewrite decide_True by done. by eexists.
  - destruct (decide _); [by eexists|by apply IH].
Qed.

Lemma parse_log_hash l r e : parse_log l r = Ok e -> log_transaction_hash l = Some (ev_transaction_hash e) /\ head (log_topics l) = Some (ev_signature e).
Proof.
  unfold parse_log. destruct (log_topics l) as [|sig ts]; [done|]. intros Hp. apply result_bind_ok in Hp as (tx & Htx%ok_or_ok & Hp).
  apply result_bind_ok in Hp as (d & _ & Hp). apply result_bind_ok in Hp as (b & _ & Hp). injection Hp as <-. done.
Qed.

(** What the loop leaves: old entries, and the first log of every new
    transaction. *)
Lemma unique_transactions_spec r logs : forall acc,
  match unique_transactions r logs acc with
  | Ok found => forall tx, match acc !! tx with
      | Some e => found !! tx = Some e
      | None => match first_log tx logs with
          | Some l => exists e, parse_log l r = Ok e /\ found !! tx = Some e
          | None => found !! tx = None
          end
      end
  | Err err => exists tx l, acc !! tx = None /\ first_log tx logs = Some l /\ parse_log l r = Err err
  end.
Proof.
  induction logs as [|l logs IH]; intros acc; cbn [unique_transactions].
  { intros tx. destruct (acc !! tx) eqn:E; by rewrite ?E. }
  destruct (log_transaction_hash l) as [tx0|] eqn:E0.
  2:{ specialize (IH acc). destruct (unique_transactions r logs acc).
    - intros tx. rewrite first_log_cons, E0. apply IH.
    - destruct IH as (tx & l' & ? & ? & ?). exists tx, l'. by rewrite first_log_cons, E0. }
  destruct (acc !! tx0) as [e0|] eqn:Ea.
  { specialize (IH acc). destruct (unique_transactions r logs acc).
    - intros tx. specialize (IH tx). rewrite first_log_cons, E0. destruct (acc !! tx) eqn:Et; [done|]. rewrite decide_False by congruence. done.
    - destruct IH as (tx & l' & Hn & ? & ?). exists tx, l'. rewrite first_log_cons, E0, decide_False by congruence. done. }
  destruct (parse_log l r) as [e|err] eqn:Ep; cbn [mbind result_bind].
  2:{ exists tx0, l. by rewrite first_log_cons, E0, decide_True. }
  specialize (IH (<[tx0 := e]> acc)). destruct (unique_transactions r logs _).
  - intros tx. specialize (IH tx). rewrite first_log_cons, E0. destruct (decide (tx0 = tx)) as [<-|Hne].
    + rewrite lookup_insert_eq in IH. rewrite Ea, decide_True by done. eauto.
    + rewrite lookup_insert_ne in IH by done. rewrite (decide_False (P := Some tx0 = Some tx)) by congruence. done.
  - destruct IH as (tx & l' & Hn & ? & ?). apply lookup_insert_None in Hn as [Hn ?]. exists tx, l'.
    rewrite first_log_cons, E0, decide_False by congruence. done.
Qed.

Context {W3 : Web3} {HO : HashMapOrder}.

(** The logs that are gone through, primary ones first. *)
Definition logs_of (from to : Z) (contracts : list H160) (sigs : list H256) (primary secondary : list Log) : Prop :=
  eth_logs (primary_filter contracts primary_events from to) = Some primary /\
  (if extend_discovery_to_secondary_events sigs
   then eth_logs (secondary_filter contracts secondary_events from to) = Some secondary else secondary = []).

Lemma identify_events_eq from to contracts sigs r l1 l2 : logs_of from to contracts sigs l1 l2 ->
  identify_events from to contracts sigs r =
    (fun found => into_values (filter (fun x => ev_signature (snd x) ∈ sigs) found)) <$> unique_transactions r (l1 ++ l2) ∅.
Proof.
  intros [E1 E2]. unfold identify_events, identify_primary_bridge_events, identify_secondary_bridge_events. rewrite E1. cbn [ok_or mbind result_bind].
  destruct (extend_discovery_to_secondary_events sigs); [rewrite E2|subst l2]; cbn [ok_or mbind result_bind]; by destruct (unique_transactions _ _ _).
Qed.

Lemma identify_events_logs from to contracts sigs r evs : identify_events from to contracts sigs r = Ok evs ->
  exists l1 l2, logs_of from to contracts sigs l1 l2.
Proof.
  unfold identify_events, identify_primary_bridge_events, identify_secondary_bridge_events, logs_of. intros Hi.
  apply result_bind_ok in Hi as (l1 & E1%ok_or_ok & Hi). apply result_bind_ok in Hi as (l2 & E2 & _). exists l1, l2. split; [done|].
  destruct (extend_discovery_to_secondary_events sigs); [by apply ok_or_ok in E2|by injection E2 as ->].
Qed.

(** The entries of the map after the loop. *)
Lemma found_spec r logs found tx e : unique_transactions r logs ∅ = Ok found ->
  found !! tx = Some e <-> exists l, first_log tx logs = Some l /\ parse_log l r = Ok e.
Proof.
  intros E. pose proof (unique_transactions_spec r logs ∅) as Hs. rewrite E in Hs. specialize (Hs tx). rewrite lookup_empty in Hs.
  destruct (first_log tx logs) as [l|].
  - destruct Hs as (e' & Hp & ->). split; [intros [= ->]; eauto|intros (l' & [= <-] & ?); congruence].
  - rewrite Hs. split; [done|intros (? & ? & _); done].
Qed.

Lemma found_hash r logs found tx e : unique_transactions r logs ∅ = Ok found -> found !! tx = Some e -> ev_transaction_hash e = tx.
Proof. intros E (l & [_ Hl]%first_log_elem & [Hh _]%parse_log_hash)%(found_spec _ _ _ _ _ E). congruence. Qed.

(** C35. The discovery fails only if the Ethereum node does or the first log of
    some transaction cannot be parsed.  Otherwise it reports each transaction at
    most once, by the event of its first log, exactly if that is of a kind that
    is looked for; and since all primary kinds are asked for first, whatever is
    looked for, a transaction with a primary event is never reported by a
    secondary one. *)
Theorem transactions_reported_once from to contracts sigs r l1 l2 :
  (forall f logs l sigs, eth_logs f = Some logs -> l ∈ logs -> f_topic0 f = Some sigs -> exists s, head (log_topics l) = Some s /\ s ∈ sigs) ->
  logs_of from to contracts sigs l1 l2 ->
  (is_ok (identify_events from to contracts sigs r) = true <-> forall tx l, first_log tx (l1 ++ l2) = Some l -> is_ok (parse_log l r) = true) /\
  forall evs, identify_events from to contracts sigs r = Ok evs ->
    NoDup (ev_transaction_hash <$> evs) /\
    (forall e, e ∈ evs <-> exists l, first_log (ev_transaction_hash e) (l1 ++ l2) = Some l /\ parse_log l r = Ok e /\ ev_signature e ∈ sigs) /\
    (forall e l, e ∈ evs -> l ∈ l1 -> log_transaction_hash l = Some (ev_transaction_hash e) -> ev_signature e ∈ signature <$> primary_events).
Proof.
  intros Hfilter Hl. rewrite (identify_events_eq _ _ _ _ _ _ _ Hl). pose proof (unique_transactions_spec r (l1 ++ l2) ∅) as Hs.
  destruct (unique_transactions r (l1 ++ l2) ∅) as [found|err] eqn:Eu; cbn [fmap result_fmap is_ok].
  2:{ split; [|done]. destruct Hs as (tx & l & _ & Hf & Hp). split; [done|]. intros Hall. specialize (Hall _ _ Hf). by rewrite Hp in Hall. }
  split.
  { split; [intros _|done]. intros tx l Hf. specialize (Hs tx). rewrite lookup_empty, Hf in Hs. by destruct Hs as (e & -> & _). }
  intros evs [= <-]. set (m := filter _ found).
  assert (Hm : forall tx e, m !! tx = Some e <-> found !! tx = Some e /\ ev_signature e ∈ sigs) by (intros; unfold m; by rewrite map_lookup_filter_Some).
  assert (Hin : forall e, e ∈ into_values m <-> exists l, first_log (ev_transaction_hash e) (l1 ++ l2) = Some l /\ parse_log l r = Ok e /\ ev_signature e ∈ sigs).
  { intros e. rewrite into_values_perm, list_elem_of_fmap. split.
    - intros ([tx e'] & -> & [Hf Hsig]%elem_of_map_to_list%Hm). cbn [snd] in *. rewrite (found_hash _ _ _ _ _ Eu Hf).
      apply (found_spec _ _ _ _ _ Eu) in Hf as (l & ? & ?). eauto.
    - intros (l & Hf & Hp & Hsig). exists (ev_transaction_hash e, e). split; [done|]. apply elem_of_map_to_list, Hm. split; [|done].
      apply (found_spec _ _ _ _ _ Eu). eauto. }
  split_and!.
  - rewrite into_values_perm. replace (ev_transaction_hash <$> (map_to_list m).*2) with (map_to_list m).*1; [apply NoDup_fst_map_to_list|].
    rewrite <- list_fmap_compose. apply list_fmap_ext. intros i [tx e] Hi%list_elem_of_lookup_2%elem_of_map_to_list%Hm.
    cbn. symmetry. by eapply found_hash, Hi.
  - exact Hin.
  - intros e l (l' & Hf & Hp & _)%Hin Hl1 Ht. rewrite first_log_app in Hf. destruct (first_log_is_Some _ _ _ Hl1 Ht) as [l'' Hl''].
    rewrite Hl'' in Hf. injection Hf as ->. apply first_log_elem in Hl'' as [Hl'' _].
    destruct (Hfilter _ _ _ _ (proj1 Hl) Hl'' eq_refl) as (sg & Hsg & ?). apply parse_log_hash in Hp as [_ Hh]. congruence.
Qed.
End Discovery.

(** ** Who votes *)

Lemma sorted_le_lookup (l : list Z) i j x y : Sorted Z.le l -> (i < j)%nat -> l !! i = Some x -> l !! j = Some y -> x <= y.
Proof.
  intros Hs%Sorted_StronglySorted; [|exact Z.le_trans]. revert i j. induction Hs as [|z l Hs IH Hz]; [done|]. intros [|i] [|j] Hij Hx Hy; try lia; cbn in *.
  - injection Hx as ->. rewrite Forall_forall in Hz. by eapply Hz, list_elem_of_lookup_2.
  - apply (IH i j); [lia|done..].
Qed.

(** Searching the sorted keys is looking for the key. *)
Lemma search_keys k (keys : list Z) : (exists i, binary_search_by_key k id (merge_sort Z.le keys) = Found i) <-> k ∈ keys.
Proof.
  assert (Hperm : merge_sort Z.le keys ≡ₚ keys) by apply merge_sort_Permutation.
  assert (Hsort : Sorted Z.le (merge_sort Z.le keys)) by (apply Sorted_merge_sort; intros ??; lia).
  rewrite <- Hperm. set (l := merge_sort Z.le keys) in *. unfold binary_search_by_key. split.
  - intros (i & (x & Hx & Hk%Z.compare_eq)%binary_search_by_found). unfold id in Hk. subst x. by eapply list_elem_of_lookup_2.
  - intros (i & Hi)%list_elem_of_lookup. destruct (binary_search_by _ l) as [j|j] eqn:E; [eauto|]. exfalso.
    apply binary_search_by_not_found in E as (_ & Hlo & Hhi).
    + assert (Z.compare (id k) k = Eq) by apply Z.compare_refl. unfold cmp, ord_Z in *.
      destruct (decide (i < j)%nat) as [Hij|Hij]; [specialize (Hlo _ _ Hij Hi)|specialize (Hhi i k ltac:(lia) Hi)]; congruence.
    + intros a b x y Hab Hx Hy. pose proof (sorted_le_lookup _ _ _ _ _ Hsort Hab Hx Hy). unfold cmp, ord_Z, id.
      destruct (Z.compare_spec x k), (Z.compare_spec y k); split_and!; done || lia.
Qed.

Lemma find_author_spec (authors : list (Z * Z)) keys a : find_current_node_author (T := unit) (Ok authors) keys = Some a <->
  exists i, authors !! i = Some (address a, signing_key a) /\ signing_key a ∈ keys /\
    forall j x, (j < i)%nat -> authors !! j = Some x -> x.2 ∉ keys.
Proof.
  unfold find_current_node_author. induction authors as [|[ad k] authors IH]; cbn [omap list_omap head].
  { split; [done|]. by intros (i & ? & _). }
  pose proof (search_keys k keys) as Hk. cbn [fst snd]. destruct (binary_search_by_key k id (merge_sort Z.le keys)) as [i|i].
  - assert (k ∈ keys) by (apply Hk; eauto). cbn [head]. split.
    + intros [= <-]. exists 0%nat. split_and!; [done..|]. intros; lia.
    + intros ([|j] & Hj & _ & Hmin); [destruct a; cbn in Hj; congruence|]. by destruct (Hmin 0%nat (ad, k) ltac:(lia) eq_refl).
  - assert (Hnk : k ∉ keys) by (intros [? ?]%Hk; done). rewrite IH. split.
    + intros (j & Hj & Hin & Hmin). exists (S j). split_and!; [done..|]. intros [|j'] x Hlt Hx; [by injection Hx as <-|]. apply (Hmin j' x); [lia|done].
    + intros ([|j] & Hj & Hin & Hmin); [injection Hj as -> ->; done|]. exists j. split_and!; [done..|]. intros j' x Hlt Hx. apply (Hmin (S j') x); [lia|done].
Qed.

(** ** What a pass submits *)

Lemma lift_bind_inv {E S A B} (r : Result E A) (f : A -> ST E S B) (s s' : S) res : (lift r ≫= f) s = (res, s') ->
  s' = s \/ exists a, r = Ok a /\ f a s = (res, s').
Proof. destruct r as [a|e]; cbn; [right; by exists a|intros [= <- <-]; by left]. Qed.

Section Passes.
Context {AE : AvnEvents} {PS : Partitions} {W3 : Web3} {HO : HashMapOrder}.

(** The partition the events of the range are voted with. *)
Definition partition_of (node : Node) (r : EventRegistry) (range : EthBlockRange) (id : Z) (p : EthereumEventsPartition) : Prop :=
  exists contract sigs extra evs, query_bridge_contract node = Some contract /\ query_signatures node = Some sigs /\
    identify_additional_events [contract] sigs r
      (if default false (has_api_version_2 node) then default [] (default None (query_additional_transactions node)) else []) = Ok extra /\
    identify_events (start_block range) (end_block range) [contract] sigs r = Ok evs /\
    snd <$> list_find (fun p => partition_number p = id) (create_partitions range (extra ++ evs)) = Some p.

(** The grounds a vote needs. *)
Definition justified (node : Node) (r : EventRegistry) (author : CurrentNodeAuthor) (x : Submission) : Prop :=
  query_has_author_casted_vote node (address author) = Some false /\ exists n, eth_block_number = Some n /\
  match x with
  | LatestBlockVote who b sig =>
      who = address author /\ query_active_block_range node = Some None /\ b = n mod 2 ^ 32 /\
      sr25519_sign node (signing_key author) (encode_block_vote who b) = Some (Some sig)
  | PartitionVote who p sig => exists range id,
      who = address author /\ query_active_block_range node = Some (Some (range, id)) /\ end_block range + ETH_FINALITY <= n /\
      partition_of node r range id p /\
      sr25519_sign node (signing_key author) (encode_partition_vote who p) = Some (Some sig)
  end.

Lemma sign_with_ok node key proof sig : sign_with node key proof = Ok sig -> sr25519_sign node key proof = Some (Some sig).
Proof. intros (x & ->%ok_or_ok & ->%ok_or_ok)%result_bind_ok. done. Qed.

Lemma submit_spec node x log res log' : submit node x log = (res, log') -> log' = log \/ res = Ok tt /\ log' = log ++ [x].
Proof. intros [?|([] & _ & [= <- <-])]%lift_bind_inv; auto. Qed.

Lemma finalised_spec range b : is_eth_block_finalised (end_block range) ETH_FINALITY = Some b ->
  exists n, eth_block_number = Some n /\ (b = true <-> end_block range + ETH_FINALITY <= n).
Proof.
  unfold is_eth_block_finalised, get_current_block_number. destruct eth_block_number as [n|]; [|done]. intros [= <-]. exists n. split; [done|].
  pose proof (end_block_u32 range) as Hr. unfold fits in Hr. rewrite umax_32 in Hr. unfold wrapping_add.
  rewrite Z.mod_small by (unfold ETH_FINALITY; lia). apply Z.leb_le.
Qed.

(** One pass submits at most one vote, and one with grounds. *)
Lemma pass_spec set node author r log res log' : query_runtime_and_process set node author r log = (res, log') ->
  log' = log \/ res = Ok tt /\ exists x, log' = log ++ [x] /\ justified node r author x.
Proof.
  intros [?|(range & Hrange%ok_or_ok & Hp)]%lift_bind_inv; [by left|]. apply lift_bind_inv in Hp as [?|(u & _ & Hp)]; [by left|].
  destruct range as [[range id]|].
  - apply lift_bind_inv in Hp as [?|(fin & Hfin%ok_or_ok & Hp)]; [by left|]. apply finalised_spec in Hfin as (n & Hn & Hfin).
    destruct fin; [|injection Hp as _ <-; by left].
    apply lift_bind_inv in Hp as [?|(contract & Hc%ok_or_ok & Hp)]; [by left|]. apply lift_bind_inv in Hp as [?|(sigs & Hs%ok_or_ok & Hp)]; [by left|].
    apply lift_bind_inv in Hp as [?|(voted & Hv%ok_or_ok & Hp)]; [by left|].
    assert (Hx : log' = log \/ voted = false /\ execute_event_processing node sigs [contract] id author range r
      (if default false (has_api_version_2 node) then default [] (default None (query_additional_transactions node)) else []) log = (res, log')).
    { destruct (default false (has_api_version_2 node)).
      - cbn in Hp. destruct (query_additional_transactions node) as [txs|]; cbn in Hp; [|injection Hp as _ <-; by left].
        destruct voted; [injection Hp as _ <-; by left|by right].
      - destruct voted; [injection Hp as _ <-; by left|by right]. }
    clear Hp. destruct Hx as [?|[-> Hp]]; [by left|].
    apply lift_bind_inv in Hp as [?|(extra & He%map_err_ok & Hp)]; [by left|]. apply lift_bind_inv in Hp as [?|(evs & Hi%map_err_ok & Hp)]; [by left|].
    apply lift_bind_inv in Hp as [?|(p & Hp'%ok_or_ok & Hp)]; [by left|]. apply lift_bind_inv in Hp as [?|(sig & Hsig%sign_with_ok & Hp)]; [by left|].
    apply submit_spec in Hp as [?|[? ->]]; [by left|right]. split; [done|]. eexists. split; [done|]. split; [done|]. exists n. split; [done|].
    exists range, id. split_and!; [done..|by apply Hfin| |done]. by exists contract, sigs, extra, evs.
  - apply lift_bind_inv in Hp as [?|(voted & Hv%ok_or_ok & Hp)]; [by left|]. destruct voted; [injection Hp as _ <-; by left|].
    apply lift_bind_inv in Hp as [?|(n & Hn%ok_or_ok & Hp)]; [by left|]. apply lift_bind_inv in Hp as [?|(sig & Hsig%sign_with_ok & Hp)]; [by left|].
    apply submit_spec in Hp as [?|[? ->]]; [by left|right]. split; [done|]. eexists. split; [done|]. split; [done|]. by exists n.
Qed.
End Passes.

(** ** Runs of the handler *)

Section Runs.
Context {AE : AvnEvents} {PS : Partitions}.

Lemma initialise_web3_spec lock valid set res set' : initialise_web3 lock valid set = (res, set') ->
  is_ok res = (lock && (set || valid)) /\ set' = (set || is_ok res).
Proof. unfold initialise_web3. destruct lock, set, valid; cbn; intros [= <- <-]; done. Qed.

Lemma web3_attempts_spec try_lock valid n : forall k set, (k + n = RETRY_LIMIT)%nat -> (0 < n)%nat ->
  let '(res, set') := web3_attempts try_lock valid k n set in
  (is_ok res = true <-> exists j, (k <= j < RETRY_LIMIT)%nat /\ try_lock j = true /\ set || valid = true) /\
  (is_ok res = true -> set' = true) /\ (is_ok res = false -> set' = set /\ res = Err Web3RetryLimitReached).
Proof.
  induction n as [|n IH]; intros k set Hk Hn; [lia|]. cbn [web3_attempts]. unfold mbind at 1, st_bind at 1, attempt.
  destruct (initialise_web3 (try_lock k) valid set) as [res set'] eqn:E. apply initialise_web3_spec in E as [Eok ->].
  destruct res as [u|e]; cbn [is_ok] in Eok |- *.
  - rewrite orb_true_r. split_and!; [|done..]. split; [intros _|done]. exists k. symmetry in Eok. apply andb_true_iff in Eok as [? ?]. split_and!; [lia..|done|done].
  - rewrite orb_false_r. destruct (Nat.leb_spec RETRY_LIMIT (S k)).
    + cbn. split_and!; [|done..]. split; [done|]. intros (j & Hj & Hl & Hv). replace j with k in Hl by lia. by rewrite Hl, Hv in Eok.
    + specialize (IH (S k) set ltac:(lia) ltac:(lia)). destruct (web3_attempts try_lock valid (S k) n set) as [res set'].
      destruct IH as (IH1 & IH2). split; [|done]. rewrite IH1. split.
      * intros (j & ? & ?). exists j. split; [lia|done].
      * intros (j & Hj & Hl & Hv). destruct (decide (j = k)) as [->|]; [by rewrite Hl, Hv in Eok|]. exists j. split_and!; [lia..|done|done].
Qed.

(** A run from a phase and a log on. *)
Definition rounds_from (set : bool) (ms : list Moment) (st : Phase * list Submission) : Phase * list Submission :=
  foldl (fun st m => handler_round (W3 := m_web3 m) (HO := m_order m) set (m_node m) st) st ms.

Definition vote_in (m : Moment) (a : CurrentNodeAuthor) (x : Submission) : Prop :=
  justified (W3 := m_web3 m) (HO := m_order m) (m_node m) EventRegistry_new a x.

Lemma serving_rounds set ms : forall a log, exists votes, rounds_from set ms (Serving a, log) = (Serving a, log ++ votes.*2) /\
  votes.*1 `sublist_of` ms /\ Forall (fun v => vote_in v.1 a v.2) votes.
Proof.
  induction ms as [|m ms IH]; intros a log; [by exists []; rewrite app_nil_r|]. cbn [rounds_from foldl]. unfold handler_round at 2. cbn [fst snd].
  destruct (query_runtime_and_process (W3 := m_web3 m) (HO := m_order m) set (m_node m) a EventRegistry_new log) as [res log'] eqn:E.
  unfold exec. rewrite E. cbn [snd]. destruct (IH a log') as (votes & Hr & Hsub & Hall). fold (rounds_from set ms (Serving a, log')). rewrite Hr.
  apply pass_spec in E as [->|(_ & x & -> & Hx)].
  - exists votes. split_and!; [done| |done]. by apply sublist_cons.
  - exists ((m, x) :: votes). rewrite <- app_assoc. split_and!; [done| |by constructor]. by apply sublist_skip.
Qed.

(** C36. Whatever the Ethereum node, the chain and the keystore answer in the
    rounds of the handler: it submits at most one vote per round, all for the
    author it found itself to be, whose key it has; each only when the chain has
    no vote of that author and signed with that key; a vote for a block only
    while no range is active, a vote for a partition only for the active range,
    once its last block has twenty more on top of it, and for the partition asked
    for of the events found.  Without a connection after three attempts it does
    nothing. *)
Theorem votes_have_grounds try_lock valid set rounds : let st := start_eth_event_handler try_lock valid set rounds in
  (exists votes, snd st = votes.*2 /\ votes.*1 `sublist_of` rounds /\
     (votes = [] \/ exists a, fst st = Serving a /\ Forall (fun v => vote_in v.1 a v.2) votes /\
        exists m authors, m ∈ rounds /\ query_authors (m_node m) = Some authors /\ (address a, signing_key a) ∈ authors /\
          signing_key a ∈ sr25519_public_keys (m_node m))) /\
  ((forall j, (j < RETRY_LIMIT)%nat -> try_lock j && (set || valid) = false) -> snd st = []).
Proof.
  cbn zeta. unfold start_eth_event_handler, initialize_web3_with_retries.
  pose proof (web3_attempts_spec try_lock valid RETRY_LIMIT 0 set eq_refl ltac:(unfold RETRY_LIMIT; lia)) as Hw.
  destruct (web3_attempts try_lock valid 0 RETRY_LIMIT set) as [[u|e] set']; cbn [is_ok] in Hw.
  2:{ split; [|done]. exists []. split_and!; [done|by apply sublist_nil_l|by left]. }
  split.
  2:{ intros Hno. destruct (proj1 (proj1 Hw) eq_refl) as (j & Hj & Hl & Hv). specialize (Hno j ltac:(lia)). by rewrite Hl, Hv in Hno. }
  clear Hw. fold (rounds_from set' rounds (LookingForAuthor, [])). induction rounds as [|m ms IH].
  { exists []. split_and!; [done..|by left]. }
  cbn [rounds_from foldl]. unfold handler_round at 2 4. cbn [fst snd].
  destruct (find_current_node_author (ok_or (query_authors (m_node m)) tt) (sr25519_public_keys (m_node m))) as [a|] eqn:Ea.
  - destruct (serving_rounds set' ms a []) as (votes & Hr & Hsub & Hall). unfold rounds_from in Hr. rewrite !Hr. exists votes.
    split_and!; [done|by apply sublist_cons|right]. exists a. split_and!; [done..|]. destruct (query_authors (m_node m)) as [authors|] eqn:Eq; [|done].
    apply find_author_spec in Ea as (i & Hi%list_elem_of_lookup_2 & Hk & _). exists m, authors. split_and!; [by left|done..].
  - destruct IH as (votes & Hv & Hsub & Hrest). exists votes. split_and!; [done|by apply sublist_cons|]. destruct Hrest as [->|(a & ? & ? & m' & authors & ? & ?)]; [by left|].
    right. exists a. split_and!; [done..|]. exists m', authors. split; [by right|done].
Qed.
End Runs.

(** ** On a small chain

    Transactions with the bridge: one that lifts tokens and thereby also logs a
    transfer to the bridge, and two direct transfers; and a transfer to somebody
    else.  The hypotheses of the theorems above hold, with hash maps that hand out
    their values in opposite orders. *)

Lemma demo_end_u32 (r : Z * Z) : fits 32 (snd r mod 2 ^ 32).
Proof. pose proof (Z.mod_pos_bound (snd r) (2 ^ 32) eq_refl). unfold fits. rewrite umax_32. lia. Qed.

(** The kinds of events are numbered in the order of the registry. *)
#[local] Instance demo_avn : AvnEvents := {|
  ValidEvents := Z; values := [0; 1; 2; 3; 4; 5; 6; 7; 8; 9]; signature := fun e => 100 + e; is_primary := fun e => negb (e =? 8);
  try_from := fun s => if bool_decide (s - 100 ∈ [0; 1; 2; 3; 4; 5; 6; 7; 8; 9]) then Some (s - 100) else None;
  AddedValidator := 0; Lifted := 1; AvtGrowthLifted := 2; NftCancelListing := 3; NftEndBatchListing := 4; NftMint := 5;
  NftTransferTo := 6; AvtLowerClaimed := 7; Erc20DirectTransfer := 8; LiftedToPredictionMarket := 9;
  ParseError := unit; AddedValidatorData := unit; LiftedData := H160 * nat; AvtGrowthLiftedData := unit; NftCancelListingData := unit;
  NftEndBatchListingData := unit; NftMintData := unit; NftTransferToData := unit; AvtLowerClaimedData := nat;
  parse_added_validator := fun _ _ => Ok tt; parse_lifted := fun _ ts => Ok (5, length ts); parse_growth := fun _ _ => Ok tt;
  parse_cancel_listing := fun _ _ => Ok tt; parse_end_batch_listing := fun _ _ => Ok tt; parse_nft_mint := fun _ _ => Ok tt;
  parse_nft_transfer_to := fun _ _ => Ok tt; parse_lower_claimed := fun _ ts => Ok (length ts);
  from_erc_20_contract_transfer_bytes := fun _ ts => Ok (0, length ts);
  token_contract := fst; set_token_contract := fun a d => (a, snd d);
  EthBlockRange := Z * Z; start_block := fst; end_block := fun r => snd r mod 2 ^ 32;
  end_block_u32 := demo_end_u32 |}.

Definition demo_logs : list Log := [
  mkLog 77 [101; 3; 77] [] (Some 4) (Some 1);
  mkLog 5 [108; 3; 77] [] (Some 4) (Some 1);
  mkLog 5 [108; 4; 77] [] (Some 5) (Some 2);
  mkLog 6 [108; 4; 77] [] (Some 6) (Some 3);
  mkLog 6 [108; 4; 78] [] (Some 6) (Some 4) ].

(** [eth_getLogs]: a topic that is asked for must be there. *)
Definition matches (f : Filter) (l : Log) : bool :=
  match f_address f with Some xs => bool_decide (log_address l ∈ xs) | None => true end &&
  match f_topic0 f with Some xs => match log_topics l with t :: _ => bool_decide (t ∈ xs) | [] => false end | None => true end &&
  match f_topic2 f with Some xs => match log_topics l with [_; _; t] => bool_decide (t ∈ xs) | _ => false end | None => true end &&
  match log_block_number l with Some b => (f_from_block f <=? b) && (b <=? f_to_block f) | None => false end.

#[local] Instance demo_web3 : Web3 := {|
  eth_logs := fun f => Some (filter (fun l => matches f l = true) demo_logs);
  eth_transaction_receipt := fun _ => Some None;
  eth_block_number := Some 40 |}.

#[local] Instance demo_order : HashMapOrder := {| into_values := fun m => (map_to_list m).*2; into_values_perm := fun m => reflexivity _ |}.

#[local] Instance demo_partitions : Partitions := {|
  EthereumEventsPartition := Z * list H256; partition_number := fst;
  create_partitions := fun _ l => [(0, merge_sort Z.le (ev_transaction_hash <$> l))];
  encode_partition_vote := fun who p => who :: fst p :: snd p; encode_block_vote := fun who b => [who; b] |}.

Lemma demo_filter : forall f logs l sigs, eth_logs f = Some logs -> l ∈ logs -> f_topic0 f = Some sigs -> exists s, head (log_topics l) = Some s /\ s ∈ sigs.
Proof.
  intros f logs l sigs [= <-] [Hm _]%list_elem_of_filter Hf. unfold matches in Hm. rewrite Hf in Hm. apply andb_true_iff in Hm as [Hm _].
  apply andb_true_iff in Hm as [Hm _]. apply andb_true_iff in Hm as [_ Hm]. destruct (log_topics l) as [|t ts]; [done|].
  exists t. split; [done|]. by apply bool_decide_eq_true in Hm.
Qed.

Definition demo_found : Result AppError (list DiscoveredEvent) := identify_events 0 10 [77] [107; 108] EventRegistry_new.
Definition demo_events : list DiscoveredEvent := match demo_found with Ok evs => evs | Err _ => [] end.

Lemma demo_found_ok : demo_found = Ok demo_events.
Proof. assert (Hok : is_ok demo_found = true) by (vm_compute; reflexivity). unfold demo_events. by destruct demo_found. Qed.

Lemma demo_logs_of : logs_of 0 10 [77] [107; 108] (take 1 demo_logs) (take 3 (drop 1 demo_logs)).
Proof. split; vm_compute; reflexivity. Qed.

(** Direct transfers and claims are looked for: of the first transaction nothing
    is reported, it lifted tokens. *)
Lemma transactions_reported_once_witness : NoDup (ev_transaction_hash <$> demo_events) /\ length demo_events = 2%nat.
Proof.
  split; [|vm_compute; reflexivity].
  exact (proj1 (proj2 (transactions_reported_once 0 10 [77] [107; 108] EventRegistry_new _ _ demo_filter demo_logs_of) demo_events demo_found_ok)).
Defined.

Definition demo_node (key : Z) : Node :=
  mkNode (Some (Some ((0, 10), 0))) (fun _ => Some false) (Some 77) (Some [107; 108]) None None (Some [(1, 11); (2, 12)]) [key]
    (fun k m => if k =? key then Some (Some (zsum (fun x => x) m + k)) else Some None) (fun _ => true).

(** One pass of an author's handler over a quiet node: she votes for the
    partition of the two transactions found. *)
Example pass_votes : match query_runtime_and_process true (demo_node 11) (mkAuthor 1 11) EventRegistry_new [] with
  | (Ok tt, [PartitionVote w p s]) => (w, p, s) = (1, (0, [2; 3]), 17)
  | _ => False
  end.
Proof. vm_compute. reflexivity. Qed.
