(* ===== verification/EthService.v ===== *)
(** * The service the runtime reaches Ethereum through

    [src/node/tnf-service/src/lib.rs], [web3_utils.rs], [summary_utils.rs] and
    [keystore_utils.rs]: a server on the node signs and sends transactions, answers
    queries about them, and computes the roots of block ranges.  It keeps a connection and the next
    nonce of its account.  The Ethereum node, the codecs, cryptography and the
    files of the keystore are parameters; every call to the Ethereum node may
    change its state in any way.  A request that finds the service's lock taken
    fails.  Log lines are left out, and so is the routing of requests. *)

From Stdlib Require Import Ascii.
From S2P Require Import Prelude MerkleTree SummaryRpc.

Abbreviation Bytes := (list Z).

(** A string of the source as its bytes. *)
Definition bytes_of (s : string) : Bytes := (fun c => Z.of_nat (Ascii.nat_of_ascii c)) <$> String.list_ascii_of_string s.

(** [str::to_lowercase] and [str::find] on ASCII letters; no other character has
    a lower case that contains a letter of the texts searched for. *)
Definition to_lowercase (s : Bytes) : Bytes := (fun b => if (65 <=? b) && (b <=? 90) then b + 32 else b) <$> s.
Definition contains (pattern s : Bytes) : bool :=
  existsb (fun k => bool_decide (take (length pattern) (drop k s) = pattern)) (seq 0 (S (length s))).

(** Errors of the [web3] crate; only those of the JSON-RPC server matter. *)
Inductive Web3Error := Rpc (code : Z) (text : Bytes) | OtherWeb3Error.

(** The errors a request ends with; [Panicked] unwinds the request's task. *)
Inductive SvcError :=
| Web3Err (e : Web3Error)
| ServerError (message : string)
| Panicked.

Record EthTransaction := mkEthTransaction { tx_to : Bytes; tx_data : Bytes }.
Record TransactionParameters := mkTxParams { p_nonce : Z; p_to : Bytes; p_value : Z; p_gas : Z; p_data : Bytes }.
Record Receipt := mkReceipt { receipt_json : option Bytes; receipt_block : option Z }.
Record CallData := mkCallData { call_input : Bytes; call_block : option Z }.
Inductive EthQueryResponseType := QueryCallData | QueryTransactionReceipt.
Record EthQueryRequest := mkQuery { q_tx_hash : Bytes; q_response_type : EthQueryResponseType }.
Record EthQueryResponse := mkResponse { r_data : Bytes; num_confirmations : Z }.

(** The Ethereum node and the account's signing. *)
Class EthNode := {
  World : Type;
  Raw : Type;
  transaction_count : Bytes -> ST Web3Error World Z;
  eth_estimate_gas : Bytes -> Bytes -> Bytes -> ST Web3Error World Z;
  sign_transaction : TransactionParameters -> Bytes -> ST Web3Error World Raw;
  eth_send_raw_transaction : Raw -> ST Web3Error World Bytes;
  eth_call : Bytes -> Bytes -> ST Web3Error World Bytes;
  eth_block_number : ST Web3Error World Z;
  eth_transaction_receipt : Bytes -> ST Web3Error World (option Receipt);
  eth_transaction : Bytes -> ST Web3Error World (option CallData);
  secret_key_valid : Bytes -> bool }.

(** SCALE and hexadecimal codecs, the hash function, and the four bytes that mark
    the account's keys. *)
Class Codecs := {
  ETHEREUM_SIGNING_KEY : Bytes;
  signing_key_length : length ETHEREUM_SIGNING_KEY = 4%nat;
  keccak : Bytes -> Bytes;
  rpc_to_string : Z -> Bytes -> Bytes;
  hex_encode : Bytes -> Bytes;
  hex_decode : Bytes -> option Bytes;
  decode_eth_transaction : Bytes -> option EthTransaction;
  decode_query : Bytes -> option EthQueryRequest;
  encode_vec : Bytes -> Bytes;
  encode_response : EthQueryResponse -> Bytes }.

(** The directory of the keystore: its entries (an entry may not be readable, or
    not have a Unicode name), and the phrase in a file ([None] without such a
    file, [Some None] if it cannot be read). *)
Record Keystore := mkKeystore {
  read_dir : option (list (option (option Bytes)));
  read_phrase : Bytes -> option (option Bytes) }.

Section Service.
Context {EN : EthNode} {CO : Codecs}.

Record Web3Data := mkWeb3Data { web3 : bool; nonce : option Z }.
Record Svc := mkSvc { svc_data : Web3Data; svc_world : World }.
Abbreviation SvcM := (ST SvcError Svc).

Definition Web3Data_new : Web3Data := mkWeb3Data false None.

(** A call of the Ethereum node. *)
Definition ask {A} (m : ST Web3Error World A) : SvcM A := fun s =>
  let '(r, w) := m (svc_world s) in (map_err Web3Err r, mkSvc (svc_data s) w).

Definition set_nonce (n : option Z) : SvcM unit := modify (fun s => mkSvc (mkWeb3Data (web3 (svc_data s)) n) (svc_world s)).
Definition svc_ensure (b : bool) (message : string) : SvcM unit := lift (ensure b (ServerError message)).

(** ** web3_utils.rs *)

Definition get_nonce_from_ethereum (sender : Bytes) : SvcM Z :=
  svc_ensure (length sender =? 20)%nat "not a valid Ethereum address" ;;
  ask (transaction_count sender).

Definition get_nonce (sender : Bytes) (force_update : bool) : SvcM Z :=
  s ← get;
  svc_ensure (web3 (svc_data s)) "No web3 instance available." ;;
  (if force_update || bool_decide (nonce (svc_data s) = None)
   then count ← get_nonce_from_ethereum sender; set_nonce (Some (count mod 2 ^ 64))
   else mret tt) ;;
  s ← get;
  lift (ok_or (nonce (svc_data s)) (ServerError "Invalid nonce (None)")).

Definition increment_nonce : SvcM unit :=
  s ← get;
  n ← lift (ok_or (nonce (svc_data s)) (ServerError "Invalid nonce (None)"));
  set_nonce (Some (wrapping_add 64 n 1)).

Definition get_web3_instance : SvcM unit :=
  s ← get; svc_ensure (web3 (svc_data s)) "No web3 instance available.".

(** [H160::from_slice] panics on other lengths. *)
Definition h160_from_slice (b : Bytes) : SvcM Bytes := lift (if (length b =? 20)%nat then Ok b else Err Panicked).

Definition estimate_gas (sender recipient data : Bytes) : SvcM Z :=
  from ← h160_from_slice sender;
  to ← h160_from_slice recipient;
  ask (eth_estimate_gas from to data).

Definition build_raw_transaction (send_request : EthTransaction) (sender : Bytes) : SvcM TransactionParameters :=
  n ← get_nonce sender false;
  get_web3_instance ;;
  gas ← estimate_gas sender (tx_to send_request) (tx_data send_request);
  to ← h160_from_slice (tx_to send_request);
  mret (mkTxParams n to 0 gas (tx_data send_request)).

Definition send_raw_transaction (raw : Raw) : SvcM Bytes := ask (eth_send_raw_transaction raw).

(** ** keystore_utils.rs *)

Fixpoint collect_keys (key_type : Bytes) (entries : list (option (option Bytes))) (public_keys : list Bytes) : Result SvcError (list Bytes) :=
  match entries with
  | [] => Ok public_keys
  | None :: _ => Err (ServerError "Error getting files from directory")
  | Some None :: entries => collect_keys key_type entries public_keys
  | Some (Some name) :: entries =>
      match hex_decode name with
      | Some hex =>
          if (4 <? length hex)%nat && bool_decide (take 4 hex = key_type) then collect_keys key_type entries (public_keys ++ [drop 4 hex])
          else collect_keys key_type entries public_keys
      | None => collect_keys key_type entries public_keys
      end
  end.

Definition raw_public_keys (key_type : Bytes) (ks : Keystore) : Result SvcError (list Bytes) :=
  entries ← ok_or (read_dir ks) (ServerError "read_dir");
  collect_keys key_type entries [].

Definition get_eth_address_bytes_from_keystore (ks : Keystore) : Result SvcError Bytes :=
  addresses ← map_err (fun _ => ServerError "Error getting public key from keystore") (raw_public_keys ETHEREUM_SIGNING_KEY ks);
  ok_or (head addresses) (ServerError "No keys found in the keystore").

Definition key_phrase_by_type (eth_address key_type : Bytes) (ks : Keystore) : Result SvcError Bytes :=
  match read_phrase ks (hex_encode key_type ++ hex_encode eth_address) with
  | Some (Some phrase) => Ok phrase
  | Some None => Err (ServerError "Error opening EthKey file")
  | None => Err (ServerError "Keystore file for EthKey not found")
  end.

(** The slice [0..32] panics on fewer bytes. *)
Definition get_priv_key (ks : Keystore) (eth_address : Bytes) : Result SvcError Bytes :=
  priv_key ← map_err (fun _ => ServerError "Error getting private key from keystore") (key_phrase_by_type eth_address ETHEREUM_SIGNING_KEY ks);
  priv_key_bytes ← ok_or (hex_decode priv_key) (ServerError "Error decoding private key to bytes");
  if (length priv_key_bytes <? 32)%nat then Err Panicked else Ok (take 32 priv_key_bytes).

(** ** lib.rs *)

Definition MAX_BODY_SIZE : nat := 100000.

(** [Config::initialise_web3]; the address of the Ethereum node may be invalid. *)
Definition svc_initialise_web3 (try_lock url_valid : bool) : SvcM unit :=
  lift (ensure try_lock (ServerError "Failed to acquire web3 data mutex.")) ;;
  s ← get;
  if web3 (svc_data s) then mret tt
  else
    svc_ensure url_valid "Error creating a web3 connection" ;;
    modify (fun s => mkSvc (mkWeb3Data true (nonce (svc_data s))) (svc_world s)).

Definition hash_with_ethereum_prefix (data_to_sign : Bytes) : Bytes :=
  keccak (([25] ++ bytes_of "Ethereum Signed Message:" ++ [10] ++ bytes_of "32") ++ data_to_sign).

(** [<[u8; 32]>::from_hex] of the rest after an optional [0x]. *)
Definition to_bytes32 (data : Bytes) : Result SvcError Bytes :=
  let data := to_lowercase data in
  let data := if bool_decide (take 2 data = bytes_of "0x") then drop 2 data else data in
  match hex_decode data with
  | Some b => if (length b =? 32)%nat then Ok b else Err (ServerError "Error converting to bytes32")
  | None => Err (ServerError "Error converting to bytes32")
  end.

(** The subtraction is of [u64] and wraps in a release build. *)
Definition to_eth_query_response (data : option Bytes) (current_block_number : Z) (data_block_number : option Z) : Bytes :=
  hex_encode (encode_response (mkResponse (encode_vec (default [] data))
    ((current_block_number - default 0 data_block_number) mod 2 ^ 64))).

Definition error_due_to_low_nonce (code : Z) (text : Bytes) : bool :=
  if code =? -32000 then
    let error_msg := to_lowercase (rpc_to_string code text) in
    contains (bytes_of "the tx doesn't have the correct nonce") error_msg || contains (bytes_of "nonce too low") error_msg
  else false.

Definition send_tx (send_request : EthTransaction) (sender priv_key : Bytes) : SvcM Bytes :=
  tx ← build_raw_transaction send_request sender;
  svc_ensure (secret_key_valid priv_key) "malformed or out-of-range secret key" ;;
  get_web3_instance ;;
  signed_tx ← ask (sign_transaction tx priv_key);
  send_raw_transaction signed_tx.

Definition decode_body (body : Bytes) : Result SvcError EthTransaction :=
  ensure (length body <=? MAX_BODY_SIZE)%nat (ServerError "Request body too large.") ;;
  ok_or (decode_eth_transaction body) (ServerError "Error decoding eth transaction data").

(** What a request needs before it does anything: the lock and a connection. *)
Definition lock_web3 (try_lock : bool) : SvcM unit :=
  svc_ensure try_lock "Failed to acquire web3 mutex" ;;
  s ← get; svc_ensure (web3 (svc_data s)) "Web3 connection not setup".

(** A second attempt, with a fresh nonce, if the nonce was too low. *)
Definition send_with_retry (send_request : EthTransaction) (sender priv_key : Bytes) : SvcM Bytes :=
  tx_hash ← attempt (send_tx send_request sender priv_key);
  tx_hash ←
    (match tx_hash with
     | Err Panicked => fail Panicked
     | Err (Web3Err (Rpc code text)) =>
         if error_due_to_low_nonce code text then
           refreshed ← attempt (get_nonce sender true);
           match refreshed with
           | Ok _ => attempt (send_tx send_request sender priv_key)
           | Err Panicked => fail Panicked
           | Err _ => fail (ServerError "nonce")
           end
         else fail (ServerError "Error sending tx to ethereum")
     | tx_hash => mret tx_hash
     end);
  lift (map_err (fun e => match e with Panicked => Panicked | _ => ServerError "Error sending transaction to ethereum" end) tx_hash).

Definition send_main (try_lock : bool) (ks : Keystore) (body : Bytes) : SvcM Bytes :=
  send_request ← lift (decode_body body);
  lock_web3 try_lock ;;
  my_eth_address ← lift (get_eth_address_bytes_from_keystore ks);
  my_priv_key ← lift (get_priv_key ks my_eth_address);
  tx_hash ← send_with_retry send_request my_eth_address my_priv_key;
  increment_nonce ;;
  mret (hex_encode tx_hash).

Definition view_main (try_lock : bool) (body : Bytes) : SvcM Bytes :=
  view_request ← lift (decode_body body);
  lock_web3 try_lock ;;
  to ← h160_from_slice (tx_to view_request);
  result ← ask (eth_call to (tx_data view_request));
  mret (hex_encode result).

Definition get_call_data (current_block_number : Z) (tx_hash : Bytes) : SvcM Bytes :=
  maybe_tx ← ask (eth_transaction tx_hash);
  mret (match maybe_tx with
        | None => to_eth_query_response (Some []) current_block_number None
        | Some data => to_eth_query_response (Some (call_input data)) current_block_number (call_block data)
        end).

Definition get_tx_receipt (current_block_number : Z) (tx_hash : Bytes) : SvcM Bytes :=
  maybe_receipt ← ask (eth_transaction_receipt tx_hash);
  mret (match maybe_receipt with
        | None => []
        | Some receipt => to_eth_query_response (receipt_json receipt) current_block_number (receipt_block receipt)
        end).

Definition tx_query_main (try_lock : bool) (body : Bytes) : SvcM Bytes :=
  request ← lift (decode_body body);
  query_request ← lift (ok_or (decode_query (tx_data request)) (ServerError "Error decoding query request data"));
  lock_web3 try_lock ;;
  tx_hash ← lift (to_bytes32 (hex_encode (q_tx_hash query_request)));
  current_block_number ← ask eth_block_number;
  match q_response_type query_request with
  | QueryCallData => get_call_data current_block_number tx_hash
  | QueryTransactionReceipt => get_tx_receipt current_block_number tx_hash
  end.

(** The route [/eth/sign]: what is signed, and with which key. *)
Definition sign_request (ks : Keystore) (data_to_sign : Bytes) : Result SvcError (Bytes * Bytes) :=
  let hashed_message := hash_with_ethereum_prefix data_to_sign in
  my_eth_address ← get_eth_address_bytes_from_keystore ks;
  my_priv_key ← get_priv_key ks my_eth_address;
  ensure (secret_key_valid my_priv_key) (ServerError "malformed or out-of-range secret key") ;;
  mret (hashed_message, my_priv_key).
End Service.

(** The loop of [get_extrinsics] in the service's own utilities. *)
Fixpoint get_extrinsics_loop `{Client} (blocks : list Z) (abi_encoded_leaves : list EncodedLeafData) :
    Result ServiceError (list EncodedLeafData) :=
  match blocks with
  | [] => mret abi_encoded_leaves
  | block_number :: blocks =>
      '(_, extrinsics) ← process_extrinsics_in_block_and_check_if_filter_target_exists block_number None;
      get_extrinsics_loop blocks (abi_encoded_leaves ++ extrinsics)
  end.
Definition get_extrinsics `{Client} (from_block_number to_block_number : Z) : Result ServiceError (list EncodedLeafData) :=
  get_extrinsics_loop (block_range from_block_number to_block_number) [].

(** The route [/roothash]. *)
Definition roothash `{MerkleHash} `{Client} (from to : Z) : Result ServiceError (list Z) :=
  extrinsics ← get_extrinsics from to;
  if bool_decide (extrinsics = []) then Ok (replicate 32 0) else to_fixed_bytes <$> generate_tree_root extrinsics.
