(* ===== verification/EthServiceFacts.v ===== *)
(** * The Ethereum service: nonces, confirmations, keys and roots

    The nonces of the transactions the service gets accepted are those of a
    counter that restarts at every count it is told; the confirmations it reports;
    the file it finds its key in; and the root it answers with for a range. *)

From S2P Require Import Prelude MerkleTree SummaryRpc EthService.

(** What an observer of the Ethereum node sees of the account: the nonces of the
    transactions it accepted and the counts it answered. *)
Class EthObserved {EN : EthNode} := {
  accepted : World -> list Z;
  counted : World -> list Z;
  raw_nonce : Raw -> Z;
  observe_count b w r w' : transaction_count b w = (r, w') ->
    accepted w' = accepted w /\ counted w' = counted w ++ match r with Ok c => [c mod 2 ^ 64] | Err _ => [] end;
  observe_sign tx key w r w' : sign_transaction tx key w = (r, w') ->
    accepted w' = accepted w /\ counted w' = counted w /\ forall raw, r = Ok raw -> raw_nonce raw = p_nonce tx;
  observe_send raw w r w' : eth_send_raw_transaction raw w = (r, w') ->
    accepted w' = accepted w ++ (if is_ok r then [raw_nonce raw] else []) /\ counted w' = counted w;
  observe_gas from to data w r w' : eth_estimate_gas from to data w = (r, w') -> accepted w' = accepted w /\ counted w' = counted w;
  observe_call to data w r w' : eth_call to data w = (r, w') -> accepted w' = accepted w /\ counted w' = counted w;
  observe_block w r w' : eth_block_number w = (r, w') -> accepted w' = accepted w /\ counted w' = counted w;
  observe_receipt h w r w' : eth_transaction_receipt h w = (r, w') -> accepted w' = accepted w /\ counted w' = counted w;
  observe_transaction h w r w' : eth_transaction h w = (r, w') -> accepted w' = accepted w /\ counted w' = counted w }.

Lemma bind_inv {E S A B} (m : ST E S A) (f : A -> ST E S B) (s s' : S) r : (m ≫= f) s = (r, s') ->
  (exists e, m s = (Err e, s') /\ r = Err e) \/ exists a s1, m s = (Ok a, s1) /\ f a s1 = (r, s').
Proof. unfold mbind, st_bind. destruct (m s) as [[a|e] s1]; [intros; right; eauto|intros [= <- <-]; left; eauto]. Qed.

(** A counter of nonces: it is set to a count it is told, and its value is used
    for a transaction before it moves on. *)
Inductive counter : list Z -> list Z -> option Z -> Prop :=
| counter_start : counter [] [] None
| counter_told cs used n c : counter cs used n -> counter (cs ++ [c]) used (Some c)
| counter_used cs used n : counter cs used (Some n) -> counter cs (used ++ [n]) (Some (wrapping_add 64 n 1)).

Lemma counter_untold cs used n : counter cs used n -> cs = [] -> used = [] /\ n = None.
Proof.
  induction 1 as [|cs used n c Hc IH|cs used n Hc IH]; intros E; [done|by destruct cs|]. by destruct (IH E) as [_ ?].
Qed.

(** Told once, it hands out consecutive numbers. *)
Lemma counter_once cs used n : counter cs used n -> forall c, cs = [c] -> fits 64 c ->
  n = Some ((c + Z.of_nat (length used)) mod 2 ^ 64) /\ used = (fun i => (c + Z.of_nat i) mod 2 ^ 64) <$> seq 0 (length used).
Proof.
  induction 1 as [|cs used n c' Hc IH|cs used n Hc IH]; intros c Hcs Hfit; [done|..].
  - assert (cs = [] /\ c' = c) as [-> ->] by (destruct cs as [|x [|y cs]]; [by injection Hcs as ->|discriminate Hcs..]).
    destruct (counter_untold _ _ _ Hc eq_refl) as [-> _].
    cbn. rewrite Z.add_0_r, Z.mod_small; [done|]. unfold fits, umax in Hfit. lia.
  - destruct (IH c Hcs Hfit) as [[= ->] Hu]. rewrite length_app, Nat.add_comm. cbn [length Nat.add]. split.
    + f_equal. unfold wrapping_add. rewrite Z.add_mod_idemp_l by done. f_equal. lia.
    + rewrite seq_S, fmap_app, <- Hu. done.
Qed.

Section Nonces.
Context {EN : EthNode} {CO : Codecs} {EO : EthObserved}.

Definition in_step (s : Svc) : Prop := counter (counted (svc_world s)) (accepted (svc_world s)) (nonce (svc_data s)).

(** Nothing of the account changed. *)
Definition quiet (s s' : Svc) : Prop :=
  svc_data s' = svc_data s /\ accepted (svc_world s') = accepted (svc_world s) /\ counted (svc_world s') = counted (svc_world s).
#[local] Instance quiet_refl : Reflexive quiet.
Proof. done. Qed.
#[local] Instance quiet_trans : Transitive quiet.
Proof. intros s1 s2 s3 (? & ? & ?) (? & ? & ?). split_and!; congruence. Qed.

Lemma quiet_in_step s s' : quiet s s' -> in_step s -> in_step s'.
Proof. unfold in_step. by intros (-> & -> & ->). Qed.
Lemma quiet_nonce s s' : quiet s s' -> nonce (svc_data s') = nonce (svc_data s).
Proof. by intros (-> & _). Qed.

(** Asking what leaves the account alone. *)
Lemma ask_quiet {A} (m : ST Web3Error World A) s r s' :
  (forall w r w', m w = (r, w') -> accepted w' = accepted w /\ counted w' = counted w) -> ask m s = (r, s') -> quiet s s'.
Proof. intros Hm. unfold ask. destruct (m (svc_world s)) as [x w] eqn:E. intros [= <- <-]. by destruct (Hm _ _ _ E). Qed.

Lemma lift_quiet {A} (x : Result SvcError A) (s s' : Svc) r : lift x s = (r, s') -> quiet s s'.
Proof. by intros [= _ <-]. Qed.

Lemma web3_instance_quiet s r s' : get_web3_instance s = (r, s') -> quiet s s'.
Proof. intros [(e & [=] & _)|(a & s1 & [-> ->]%get_ok & Hl)]%bind_inv. by eapply lift_quiet. Qed.

Lemma estimate_gas_quiet a b d s r s' : estimate_gas a b d s = (r, s') -> quiet s s'.
Proof.
  intros [(e & ?%lift_quiet & _)|(x & s1 & Q1%lift_quiet & Hr)]%bind_inv; [done|].
  apply bind_inv in Hr as [(e & ?%lift_quiet & _)|(y & s2 & Q2%lift_quiet & Hr)]; [by etransitivity|].
  refine (transitivity Q1 (transitivity Q2 _)). eapply ask_quiet, Hr. intros. by eapply observe_gas.
Qed.

Lemma get_nonce_step b force s r s' : in_step s -> get_nonce b force s = (r, s') ->
  in_step s' /\ forall n, r = Ok n -> nonce (svc_data s') = Some n.
Proof.
  intros Hs Hr. apply bind_inv in Hr as [(e & [=] & _)|(a & s1 & [-> ->]%get_ok & Hr)].
  apply bind_inv in Hr as [(e & Q%lift_quiet & ->)|(u & s1 & Q%lift_quiet & Hr)]; [split; [by eapply quiet_in_step|done]|].
  apply (quiet_in_step _ _ Q) in Hs. apply bind_inv in Hr as [(e & Hc & ->)|(u' & s2 & Hc & Hr)].
  - split; [|done]. destruct (force || _); [|by injection Hc].
    apply bind_inv in Hc as [(e' & Hc & _)|(c & s2 & _ & [=])].
    apply bind_inv in Hc as [(e'' & ?%lift_quiet & _)|(u' & s2 & Q2%lift_quiet & Hc)]; [by eapply quiet_in_step|]. apply (quiet_in_step _ _ Q2) in Hs.
    unfold ask in Hc. destruct (transaction_count b (svc_world s2)) as [x w] eqn:E. injection Hc as Hx <-. destruct x; [done|].
    apply observe_count in E as [Ea Ec]. unfold in_step in *. cbn. by rewrite Ea, Ec, app_nil_r.
  - assert (in_step s2) as Hs2.
    { destruct (force || _); [|by injection Hc as _ <-]. apply bind_inv in Hc as [(e' & _ & [=])|(c & s3 & Hc & Hset)].
      apply bind_inv in Hc as [(e'' & _ & [=])|(u'' & s4 & Q2%lift_quiet & Hc)]. apply (quiet_in_step _ _ Q2) in Hs.
      unfold ask in Hc. destruct (transaction_count b (svc_world s4)) as [x w] eqn:E. injection Hc as Hx <-. destruct x as [c'|]; [|done]. injection Hx as ->.
      injection Hset as _ <-. apply observe_count in E as [Ea Ec]. unfold in_step in *. cbn. rewrite Ea, Ec. by eapply counter_told. }
    apply bind_inv in Hr as [(e & [=] & _)|(a & s3 & [-> ->]%get_ok & Hr)]. injection Hr as Hn <-. split; [done|]. intros n ->. by apply ok_or_ok in Hn.
Qed.

Lemma build_step req b s r s' : in_step s -> build_raw_transaction req b s = (r, s') ->
  in_step s' /\ forall tx, r = Ok tx -> nonce (svc_data s') = Some (p_nonce tx).
Proof.
  intros Hs Hr. apply bind_inv in Hr as [(e & Hn & ->)|(n & s1 & Hn & Hr)]; apply get_nonce_step in Hn as [Hs1 Hn]; try done. specialize (Hn n eq_refl).
  assert (Q : quiet s1 s' /\ forall tx, r = Ok tx -> p_nonce tx = n).
  { apply bind_inv in Hr as [(e & Q%web3_instance_quiet & ->)|(u & s2 & Q%web3_instance_quiet & Hr)]; [done|].
    apply bind_inv in Hr as [(e & Q2%estimate_gas_quiet & ->)|(g & s3 & Q2%estimate_gas_quiet & Hr)]; [split; [by etransitivity|done]|].
    apply bind_inv in Hr as [(e & Q3%lift_quiet & ->)|(t & s4 & Q3%lift_quiet & Hr)]; [split; [exact (transitivity Q (transitivity Q2 Q3))|done]|].
    injection Hr as <- <-. split; [exact (transitivity Q (transitivity Q2 Q3))|]. by intros tx [= <-]. }
  destruct Q as [Q Htx]. split; [by eapply quiet_in_step|]. intros tx Hr'. rewrite (quiet_nonce _ _ Q), Hn. by rewrite (Htx tx Hr').
Qed.

(** After a transaction is sent the counter has not moved yet. *)
Definition sent (s : Svc) : Prop := exists used n, accepted (svc_world s) = used ++ [n] /\ nonce (svc_data s) = Some n /\
  counter (counted (svc_world s)) used (Some n).

Lemma send_tx_step req b key s r s' : in_step s -> send_tx req b key s = (r, s') -> if is_ok r then sent s' else in_step s'.
Proof.
  intros Hs Hr. apply bind_inv in Hr as [(e & Hb & ->)|(tx & s1 & Hb & Hr)]; apply build_step in Hb as [Hs1 Hn]; try done. specialize (Hn tx eq_refl).
  apply bind_inv in Hr as [(e & Q%lift_quiet & ->)|(u & s2 & Q%lift_quiet & Hr)]; [by eapply quiet_in_step|].
  apply bind_inv in Hr as [(e & Q2%web3_instance_quiet & ->)|(u' & s3 & Q2%web3_instance_quiet & Hr)]; [eapply quiet_in_step; [|done]; by etransitivity|].
  assert (Q3 : quiet s1 s3) by (by etransitivity). apply (quiet_in_step _ _ Q3) in Hs1. apply quiet_nonce in Q3. rewrite Hn in Q3. clear Q Q2.
  assert (Hsign : forall r s', ask (sign_transaction tx key) s3 = (r, s') -> quiet s3 s' /\ forall raw, r = Ok raw -> raw_nonce raw = p_nonce tx).
  { intros r0 s0. unfold ask. destruct (sign_transaction tx key (svc_world s3)) as [x w] eqn:E. apply observe_sign in E as (Ea & Ec & Eraw).
    intros [= <- <-]. split; [done|]. intros raw Hx. destruct x; [|done]. injection Hx as ->. by apply Eraw. }
  apply bind_inv in Hr as [(e & [Q _]%Hsign & ->)|(raw & s4 & [Q Hraw]%Hsign & Hr)]; [by eapply quiet_in_step|]. specialize (Hraw raw eq_refl).
  apply (quiet_in_step _ _ Q) in Hs1. apply quiet_nonce in Q. rewrite Q3 in Q. unfold send_raw_transaction, ask in Hr.
  destruct (eth_send_raw_transaction raw (svc_world s4)) as [x w] eqn:E. injection Hr as <- <-. apply observe_send in E as [Ea Ec]. unfold in_step in Hs1. rewrite Q in Hs1.
  destruct x as [h|e]; cbn in *.
  - exists (accepted (svc_world s4)), (p_nonce tx). cbn. by rewrite Ea, Ec, Hraw.
  - unfold in_step. cbn. rewrite Ea, Ec, app_nil_r, Q. done.
Qed.

Lemma retry_step req b key s r s' : in_step s -> send_with_retry req b key s = (r, s') -> if is_ok r then sent s' else in_step s'.
Proof.
  intros Hs Hr. apply bind_inv in Hr as [(e & Ha & ->)|(x & s1 & Ha%attempt_ok & Hr)].
  { unfold attempt in Ha. by destruct (send_tx req b key s). }
  apply send_tx_step in Ha; [|done]. apply bind_inv in Hr as [(e & Hr & ->)|(y & s2 & Hr & Hl)].
  - destruct x as [h|e']; [by injection Hr|]. cbn in Ha. destruct e' as [[code text|]|m|]; try (by injection Hr as _ <-); try done.
    destruct (error_due_to_low_nonce code text); [|by injection Hr as _ <-].
    apply bind_inv in Hr as [(e' & Hg & _)|(z & s2 & Hg%attempt_ok & Hr)]; [unfold attempt in Hg; by destruct (get_nonce b true s1)|].
    apply get_nonce_step in Hg as [Hs2 _]; [|done]. destruct z as [n|[]]; try (by injection Hr as _ <-).
    unfold attempt in Hr. by destruct (send_tx req b key s2).
  - injection Hl as <- <-. assert (Hy : if is_ok y then sent s2 else in_step s2); [|by destruct y].
    destruct x as [h|e']; [by injection Hr as <- <-|]. cbn in Ha. destruct e' as [[code text|]|m|]; try (by injection Hr as <- <-); try done.
    destruct (error_due_to_low_nonce code text); [|done].
    apply bind_inv in Hr as [(e' & _ & [=])|(z & s3 & Hg%attempt_ok & Hr)]. apply get_nonce_step in Hg as [Hs3 _]; [|done].
    destruct z as [n|[]]; [|done..]. apply attempt_ok in Hr. by apply send_tx_step in Hr.
Qed.

Lemma lock_quiet try_lock s r s' : lock_web3 try_lock s = (r, s') -> quiet s s'.
Proof. unfold lock_web3, svc_ensure. destruct try_lock; cbn; [|by intros [= _ <-]]. destruct (web3 (svc_data s)); by intros [= _ <-]. Qed.

Lemma increment_eq s n : nonce (svc_data s) = Some n ->
  increment_nonce s = (Ok tt, mkSvc (mkWeb3Data (web3 (svc_data s)) (Some (wrapping_add 64 n 1))) (svc_world s)).
Proof. intros Hn. unfold increment_nonce, mbind, st_bind, get, lift. by rewrite Hn. Qed.

Lemma send_main_step try_lock ks body s r s' : in_step s -> send_main try_lock ks body s = (r, s') -> in_step s'.
Proof.
  intros Hs Hr. apply bind_inv in Hr as [(e & Q%lift_quiet & ->)|(x & s1 & Q%lift_quiet & Hr)]; [by eapply quiet_in_step|]. apply (quiet_in_step _ _ Q) in Hs. clear Q.
  apply bind_inv in Hr as [(e & Q%lock_quiet & ->)|(u & s2 & Q%lock_quiet & Hr)]; [by eapply quiet_in_step|]. apply (quiet_in_step _ _ Q) in Hs. clear Q.
  apply bind_inv in Hr as [(e & Q%lift_quiet & ->)|(a & s3 & Q%lift_quiet & Hr)]; [by eapply quiet_in_step|]. apply (quiet_in_step _ _ Q) in Hs. clear Q.
  apply bind_inv in Hr as [(e & Q%lift_quiet & ->)|(k & s4 & Q%lift_quiet & Hr)]; [by eapply quiet_in_step|]. apply (quiet_in_step _ _ Q) in Hs. clear Q.
  apply bind_inv in Hr as [(e & Hsend & ->)|(h & s5 & Hsend & Hr)]; apply retry_step in Hsend; try done. cbn in Hsend.
  destruct Hsend as (used & n & Ha & Hn & Hc). apply bind_inv in Hr as [(e & Hi & _)|(u' & s6 & Hi & [= _ <-])]; rewrite (increment_eq _ _ Hn) in Hi; [done|]. injection Hi as _ <-.
  unfold in_step. cbn. rewrite Ha. by apply counter_used.
Qed.

Lemma view_quiet try_lock body s r s' : view_main try_lock body s = (r, s') -> quiet s s'.
Proof.
  intros [(e & ?%lift_quiet & _)|(x & s1 & Q1%lift_quiet & Hr)]%bind_inv; [done|].
  apply bind_inv in Hr as [(e & Q2%lock_quiet & _)|(u & s2 & Q2%lock_quiet & Hr)]; [by etransitivity|].
  apply bind_inv in Hr as [(e & Q3%lift_quiet & _)|(t & s3 & Q3%lift_quiet & Hr)]; [exact (transitivity Q1 (transitivity Q2 Q3))|].
  refine (transitivity Q1 (transitivity Q2 (transitivity Q3 _))).
  assert (Ha : forall r s', ask (eth_call t (tx_data x)) s3 = (r, s') -> quiet s3 s') by (intros ?? Hr'; eapply ask_quiet, Hr'; intros; by eapply observe_call).
  apply bind_inv in Hr as [(e & ?%Ha & _)|(c & s4 & ?%Ha & [= _ <-])]; done.
Qed.

Lemma query_quiet try_lock body s r s' : tx_query_main try_lock body s = (r, s') -> quiet s s'.
Proof.
  intros [(e & ?%lift_quiet & _)|(x & s1 & Q1%lift_quiet & Hr)]%bind_inv; [done|].
  apply bind_inv in Hr as [(e & Q2%lift_quiet & _)|(q & s2 & Q2%lift_quiet & Hr)]; [by etransitivity|].
  apply bind_inv in Hr as [(e & Q3%lock_quiet & _)|(u & s3 & Q3%lock_quiet & Hr)]; [exact (transitivity Q1 (transitivity Q2 Q3))|].
  refine (transitivity Q1 (transitivity Q2 (transitivity Q3 _))). clear Q1 Q2 Q3.
  apply bind_inv in Hr as [(e & ?%lift_quiet & _)|(h & s4 & Q1%lift_quiet & Hr)]; [done|].
  assert (Hb : forall s r s', ask eth_block_number s = (r, s') -> quiet s s') by (intros ??? Hr'; eapply ask_quiet, Hr'; apply observe_block).
  apply bind_inv in Hr as [(e & Q2%Hb & _)|(n & s5 & Q2%Hb & Hr)]; [by etransitivity|]. refine (transitivity Q1 (transitivity Q2 _)).
  assert (Ht : forall s r s', ask (eth_transaction h) s = (r, s') -> quiet s s') by (intros ??? Hr'; eapply ask_quiet, Hr'; apply observe_transaction).
  assert (Hc : forall s r s', ask (eth_transaction_receipt h) s = (r, s') -> quiet s s') by (intros ??? Hr'; eapply ask_quiet, Hr'; apply observe_receipt).
  destruct (q_response_type q).
  - by apply bind_inv in Hr as [(e & ?%Ht & _)|(c & s6 & ?%Ht & [= _ <-])].
  - by apply bind_inv in Hr as [(e & ?%Hc & _)|(c & s6 & ?%Hc & [= _ <-])].
Qed.

(** Every sequence of requests, with whatever else happens on Ethereum between
    them. *)
Inductive svc_run : Svc -> Prop :=
| run_start w : accepted w = [] -> counted w = [] -> svc_run (mkSvc Web3Data_new w)
| run_initialise try_lock valid s r s' : svc_run s -> svc_initialise_web3 try_lock valid s = (r, s') -> svc_run s'
| run_send try_lock ks body s r s' : svc_run s -> send_main try_lock ks body s = (r, s') -> svc_run s'
| run_view try_lock body s r s' : svc_run s -> view_main try_lock body s = (r, s') -> svc_run s'
| run_query try_lock body s r s' : svc_run s -> tx_query_main try_lock body s = (r, s') -> svc_run s'
| run_world s w : svc_run s -> accepted w = accepted (svc_world s) -> counted w = counted (svc_world s) -> svc_run (mkSvc (svc_data s) w).

Lemma svc_run_in_step s : svc_run s -> in_step s.
Proof.
  induction 1 as [w Ha Hc|l v s r s' _ IH Hi|l ks b s r s' _ IH Hr|l b s r s' _ IH Q%view_quiet|l b s r s' _ IH Q%query_quiet|s w _ IH Ha Hc].
  - unfold in_step. cbn. rewrite Ha, Hc. apply counter_start.
  - unfold svc_initialise_web3, svc_ensure, mbind, st_bind, lift, get, modify in Hi. destruct l; cbn in Hi; [|by injection Hi as _ <-].
    destruct (web3 (svc_data s)); [by injection Hi as _ <-|]. destruct v; by injection Hi as _ <-.
  - by eapply send_main_step.
  - by eapply quiet_in_step.
  - by eapply quiet_in_step.
  - unfold in_step in *. cbn. by rewrite Ha, Hc.
Qed.

(** C37. In every run the nonces of the accepted transactions are those of a
    counter that is set whenever Ethereum is asked for the account's count, at
    first and after a nonce turned out too low, and moves by one with each
    accepted transaction: no nonce is used again or left out in between.  Asked
    only once, all nonces are consecutive, and the next one is the one kept. *)
Theorem nonces_consecutive s : svc_run s ->
  counter (counted (svc_world s)) (accepted (svc_world s)) (nonce (svc_data s)) /\
  forall c, counted (svc_world s) = [c] -> fits 64 c ->
    nonce (svc_data s) = Some ((c + Z.of_nat (length (accepted (svc_world s)))) mod 2 ^ 64) /\
    accepted (svc_world s) = (fun i => (c + Z.of_nat i) mod 2 ^ 64) <$> seq 0 (length (accepted (svc_world s))).
Proof. intros Hs%svc_run_in_step. split; [done|]. intros c Hc. by apply (counter_once _ _ _ Hs). Qed.
End Nonces.

(** ** Confirmations *)

Section Confirmations.
Context {EN : EthNode} {CO : Codecs}.
Definition is_bytes (b : list Z) : Prop := Forall (fun x => 0 <= x < 256) b.
(** Lower case digits, two for a byte. *)
Context (hex_roundtrip : forall b, is_bytes b -> hex_decode (hex_encode b) = Some b)
        (hex_lowercase : forall b, is_bytes b -> to_lowercase (hex_encode b) = hex_encode b)
        (hex_no_prefix : forall b, is_bytes b -> take 2 (hex_encode b) <> bytes_of "0x").

Lemma to_bytes32_hex h : is_bytes h -> length h = 32%nat -> to_bytes32 (hex_encode h) = Ok h.
Proof using hex_roundtrip hex_lowercase hex_no_prefix.
  intros Hb Hl. unfold to_bytes32. rewrite hex_lowercase, bool_decide_eq_false_2, hex_roundtrip by auto. by rewrite Hl.
Qed.

Lemma ask_ok {A} (m : ST Web3Error World A) s a w : m (svc_world s) = (Ok a, w) -> ask m s = (Ok a, mkSvc (svc_data s) w).
Proof. intros E. unfold ask. by rewrite E. Qed.

(** C38. The answer to a query for a receipt counts the blocks on top of the
    transaction's, as of the block number asked for first; but if the transaction
    was mined in a block after that one the count wraps to nearly [2 ^ 64]
    confirmations. *)
Theorem confirmations_reported body req q receipt n b s w1 w2 :
  decode_body body = Ok req -> decode_query (tx_data req) = Some q -> q_response_type q = QueryTransactionReceipt ->
  is_bytes (q_tx_hash q) -> length (q_tx_hash q) = 32%nat -> web3 (svc_data s) = true ->
  eth_block_number (svc_world s) = (Ok n, w1) -> eth_transaction_receipt (q_tx_hash q) w1 = (Ok (Some receipt), w2) ->
  receipt_block receipt = Some b -> fits 64 n -> fits 64 b ->
  tx_query_main true body s = (Ok (hex_encode (encode_response (mkResponse (encode_vec (default [] (receipt_json receipt)))
    (if b <=? n then n - b else 2 ^ 64 - (b - n))))), mkSvc (svc_data s) w2).
Proof using hex_roundtrip hex_lowercase hex_no_prefix.
  intros Hb Hq Ht Hh Hl Hw En Er Eb Hn Hb64. unfold tx_query_main, lock_web3, svc_ensure, mbind, st_bind, lift, get. rewrite Hb, Hq. cbn [ok_or ensure].
  rewrite Hw. cbn [ensure]. rewrite (to_bytes32_hex _ Hh Hl), (ask_ok _ _ _ _ En), Ht.
  unfold get_tx_receipt, mbind, st_bind. rewrite (ask_ok _ (mkSvc (svc_data s) w1) _ _ Er). cbn [svc_data]. unfold mret, st_ret, to_eth_query_response. rewrite Eb. change (default 0 (Some b)) with b.
  unfold fits, umax in *. do 5 f_equal. destruct (Z.leb_spec b n).
  - by rewrite Z.mod_small by lia.
  - symmetry. apply (Z.mod_unique_pos _ _ (-1)); lia.
Qed.

(** The file of the account's key is found if files are named in lower case. *)
Lemma signing_key_found ks entries a (hex_app : forall x y, hex_encode (x ++ y) = hex_encode x ++ hex_encode y) :
  read_dir ks = Some entries -> (forall name x, Some (Some name) ∈ entries -> hex_decode name = Some x -> hex_encode x = name) ->
  get_eth_address_bytes_from_keystore ks = Ok a -> Some (Some (hex_encode ETHEREUM_SIGNING_KEY ++ hex_encode a)) ∈ entries.
Proof.
  intros Hd Hcan (keys & Hk%map_err_ok & Ha%ok_or_ok)%result_bind_ok. unfold raw_public_keys in Hk. rewrite Hd in Hk. cbn in Hk.
  assert (Hall : forall es acc, collect_keys ETHEREUM_SIGNING_KEY es acc = Ok keys -> (forall e, e ∈ es -> e ∈ entries) ->
    (forall k, k ∈ acc -> Some (Some (hex_encode ETHEREUM_SIGNING_KEY ++ hex_encode k)) ∈ entries) ->
    forall k, k ∈ keys -> Some (Some (hex_encode ETHEREUM_SIGNING_KEY ++ hex_encode k)) ∈ entries).
  { induction es as [|[[name|]|] es IH]; intros acc Hc Hsub Hacc; cbn [collect_keys] in Hc; [by injection Hc as <-| | |done].
    - destruct (hex_decode name) as [x|] eqn:Ex; [|by eapply IH; [|set_solver|]]. destruct ((4 <? length x)%nat && _) eqn:Ec; [|by eapply IH; [|set_solver|]].
      eapply IH; [exact Hc|set_solver|]. intros k [Hk'|Hk'%list_elem_of_singleton]%elem_of_app; [by apply Hacc|subst k].
      apply andb_true_iff in Ec as [_ Ec%bool_decide_eq_true]. rewrite <- Ec, <- hex_app, take_drop.
      rewrite (Hcan name x) by (done || (apply Hsub; left)). apply Hsub. left.
    - by eapply IH; [|set_solver|]. }
  apply (Hall entries [] Hk); [done|set_solver|]. destruct keys; [done|]. injection Ha as ->. left.
Qed.
End Confirmations.

(** ** Roots *)

Section Roots.
Context `{MerkleHash} `{Client}.

Lemma get_extrinsics_eq blocks ls : get_extrinsics_loop blocks ls = (rest ← leaves_of blocks; Ok (ls ++ rest)).
Proof.
  revert ls. induction blocks as [|n blocks IH]; intros ls; cbn [get_extrinsics_loop leaves_of]; [cbn; by rewrite app_nil_r|].
  rewrite process_block_eq. destruct (get_signed_block n) as [txs|e]; [|done].
  destruct (collect_leaves_spec n None 0 txs None []) as (fl & E & _). rewrite E. cbn. rewrite IH. cbn.
  destruct (leaves_of blocks); [|done]. cbn. by rewrite app_assoc.
Qed.

(** What the route answers with. *)
Lemma roothash_eq from to : roothash from to = range_summary from to.
Proof.
  unfold roothash, get_extrinsics, range_summary. rewrite get_extrinsics_eq. by destruct (leaves_of (block_range from to)).
Qed.
End Roots.
