(* ===== verification/RootService.v ===== *)
(** * From the watchtower's worker to the root and back

    [calculate_root_hash] and [validate_response] of
    [src/pallets/summary-watchtower/src/root_utils.rs] ask the node's service for
    the root of a range of blocks by a path with the two numbers in decimal; the
    service ([EthService]) parses the path, computes the root and prints it in
    hexadecimal.  The transport of the request is a parameter. *)

From S2P Require Import Prelude MerkleTree SummaryRpc EthService EthServiceFacts.

(** ** Decimal numbers *)

(** [format!("{}", n)]; twenty digits are enough for [u64]. *)
Fixpoint decimal_loop (fuel : nat) (n : Z) (acc : Bytes) : Bytes :=
  match fuel with
  | O => acc
  | S fuel =>
      let acc := 48 + n mod 10 :: acc in
      if n <? 10 then acc else decimal_loop fuel (n / 10) acc
  end.
Definition decimal (n : Z) : Bytes := decimal_loop 20 n [].

(** [u32::from_str]: an optional plus sign, at least one digit, no overflow. *)
Fixpoint parse_digits (s : Bytes) (acc : Z) : option Z :=
  match s with
  | [] => Some acc
  | c :: s =>
      if (48 <=? c) && (c <=? 57) then
        acc ← checked_mul 32 acc 10;
        acc ← checked_add 32 acc (c - 48);
        parse_digits s acc
      else None
  end.
Definition parse_u32 (s : Bytes) : option Z :=
  match s with
  | [] => None
  | [43] => None
  | 43 :: s => parse_digits s 0
  | s => parse_digits s 0
  end.

(** ** The service's answer *)

(** The segments of a path. *)
Fixpoint split_path (s segment : Bytes) : list Bytes :=
  match s with
  | [] => [segment]
  | c :: s => if c =? 47 then segment :: split_path s [] else split_path s (segment ++ [c])
  end.

Section Route.
Context {CO : Codecs} `{MerkleHash} `{Client}.

(** The route [/roothash/:from_block/:to_block]; [None] is an HTTP error. *)
Definition roothash_route (path : Bytes) : option Bytes :=
  match split_path path [] with
  | [name; from; to] =>
      if bool_decide (name = bytes_of "roothash") then
        from_block_number ← parse_u32 from;
        to_block_number ← parse_u32 to;
        match roothash from_block_number to_block_number with
        | Ok root => Some (hex_encode root)
        | Err _ => None
        end
      else None
  | _ => None
  end.
End Route.

(** ** root_utils.rs *)

Inductive RootError := FromBlockTooLarge | ToBlockTooLarge | ServiceCallFailed | InvalidLength | InvalidUtf8 | InvalidHex.

(** [core::str::from_utf8] accepts well-formed UTF-8 only. *)
Definition within (lo hi b : Z) : bool := (lo <=? b) && (b <=? hi).
Fixpoint is_utf8_loop (fuel : nat) (s : Bytes) : bool :=
  match fuel with
  | O => bool_decide (s = [])
  | S fuel =>
      match s with
      | [] => true
      | a :: s1 =>
          if within 0 127 a then is_utf8_loop fuel s1
          else match s1 with
          | b :: s2 =>
              if within 194 223 a && within 128 191 b then is_utf8_loop fuel s2
              else match s2 with
              | c :: s3 =>
                  if ((a =? 224) && within 160 191 b || (within 225 236 a || within 238 239 a) && within 128 191 b || (a =? 237) && within 128 159 b)
                     && within 128 191 c then is_utf8_loop fuel s3
                  else match s3 with
                  | d :: s4 =>
                      if ((a =? 240) && within 144 191 b || within 241 243 a && within 128 191 b || (a =? 244) && within 128 143 b)
                         && within 128 191 c && within 128 191 d then is_utf8_loop fuel s4
                      else false
                  | [] => false
                  end
              | [] => false
              end
          | [] => false
          end
      end
  end.
Definition is_utf8 (s : Bytes) : bool := is_utf8_loop (length s) s.

(** [str::trim], for ASCII white space; other white space is no hexadecimal digit
    either, and the text is refused with the same error. *)
Definition is_space (b : Z) : bool := within 9 13 b || (b =? 32).
Fixpoint trim_start (s : Bytes) : Bytes :=
  match s with b :: s' => if is_space b then trim_start s' else s | [] => [] end.
Definition trim (s : Bytes) : Bytes := reverse (trim_start (reverse (trim_start s))).

Section RootUtils.
Context {CO : Codecs} (get_data_from_service : Bytes -> option Bytes).

Definition validate_response (response : Bytes) : Result RootError Bytes :=
  ensure (length response =? 64)%nat InvalidLength ;;
  ensure (is_utf8 response) InvalidUtf8 ;;
  match hex_decode (trim response) with
  | Some data => if (length data =? 32)%nat then Ok data else Err InvalidHex
  | None => Err InvalidHex
  end.

Definition service_root_hash (from_block to_block : Z) : Result RootError Bytes :=
  ensure (fitsb 32 from_block) FromBlockTooLarge ;;
  ensure (fitsb 32 to_block) ToBlockTooLarge ;;
  let url_path := bytes_of "roothash/" ++ decimal from_block ++ [47] ++ decimal to_block in
  response ← ok_or (get_data_from_service url_path) ServiceCallFailed;
  validate_response response.
End RootUtils.

(** ** The numbers arrive *)

Definition digits (s : Bytes) : Prop := Forall (fun c => 48 <= c <= 57) s.

Definition value_from (acc : Z) (s : Bytes) : Z := foldl (fun v c => v * 10 + (c - 48)) acc s.

Lemma parse_digits_value s : forall acc, digits s -> 0 <= acc -> value_from acc s <= umax 32 -> parse_digits s acc = Some (value_from acc s).
Proof.
  assert (Hmono : forall s acc, digits s -> 0 <= acc -> acc <= value_from acc s).
  { clear. induction s as [|c s IH]; intros acc Hs Ha; cbn; [lia|]. apply Forall_cons in Hs as [Hc Hs]. specialize (IH (acc * 10 + (c - 48)) Hs ltac:(lia)). unfold value_from in IH. lia. }
  induction s as [|c s IH]; intros acc Hs Ha Hv; [done|]. apply Forall_cons in Hs as [Hc Hs]. cbn [parse_digits].
  pose proof (Hmono s (acc * 10 + (c - 48)) Hs ltac:(lia)) as Hle. cbn in Hv. fold (value_from (acc * 10 + (c - 48)) s) in Hv.
  rewrite (proj2 (Z.leb_le 48 c)), (proj2 (Z.leb_le c 57)) by lia. cbn [andb]. unfold checked_mul, checked_add.
  rewrite (proj2 (Z.leb_le (acc * 10) _)) by lia. cbn. rewrite (proj2 (Z.leb_le (acc * 10 + (c - 48)) _)) by lia. cbn. apply IH; [done|lia|done].
Qed.

Lemma decimal_loop_spec fuel : forall n acc, (0 < fuel)%nat -> 0 <= n < 10 ^ Z.of_nat fuel ->
  exists ds, decimal_loop fuel n acc = ds ++ acc /\ digits ds /\ ds <> [] /\ value_from 0 ds = n.
Proof.
  induction fuel as [|fuel IH]; intros n acc Hf Hn; [lia|]. cbn [decimal_loop].
  pose proof (Z.div_mod n 10 ltac:(lia)). pose proof (Z.mod_pos_bound n 10 ltac:(lia)). destruct (Z.ltb_spec n 10).
  - exists [48 + n mod 10]. split_and!; [done|constructor; [lia|constructor]|done|]. cbn. rewrite Z.mod_small; lia.
  - rewrite Nat2Z.inj_succ, Z.pow_succ_r in Hn by lia.
    assert (Hfuel : (0 < fuel)%nat) by (destruct fuel; [cbn in Hn; lia|lia]).
    destruct (IH (n / 10) (48 + n mod 10 :: acc) Hfuel) as (ds & E & Hd & Hne & Hv).
    { split; [apply Z.div_pos; lia|]. apply Z.div_lt_upper_bound; lia. }
    exists (ds ++ [48 + n mod 10]). split_and!.
    + by rewrite E, <- app_assoc.
    + apply Forall_app. split; [done|]. constructor; [lia|constructor].
    + by destruct ds.
    + unfold value_from in *. rewrite foldl_app, Hv. cbn. lia.
Qed.

Lemma decimal_digits n : fits 32 n -> digits (decimal n) /\ parse_u32 (decimal n) = Some n.
Proof.
  intros Hn. unfold fits in Hn. rewrite umax_32 in Hn. destruct (decimal_loop_spec 20 n []) as (ds & E & Hd & Hne & Hv); [lia..|].
  unfold decimal. rewrite E, app_nil_r. split; [done|].
  assert (Hp : parse_digits ds 0 = Some n) by (rewrite (parse_digits_value ds 0), Hv; [done|done|lia|rewrite Hv, umax_32; lia]).
  destruct ds as [|c ds]; [done|]. apply Forall_cons in Hd as [Hc _].
  destruct (decide (c = 43)); [lia|]. unfold parse_u32. destruct c as [|p|p]; [done| |done]. do 6 (destruct p as [p|p|]; try done).
Qed.

Lemma split_path_segment s rest seg : Forall (fun c => c <> 47) s -> split_path (s ++ 47 :: rest) seg = (seg ++ s) :: split_path rest [].
Proof.
  revert seg. induction s as [|c s IH]; intros seg Hs; cbn; [by rewrite app_nil_r|]. apply Forall_cons in Hs as [Hc Hs].
  rewrite (proj2 (Z.eqb_neq c 47) Hc), (IH _ Hs), <- app_assoc. done.
Qed.
Lemma split_path_last s seg : Forall (fun c => c <> 47) s -> split_path s seg = [seg ++ s].
Proof.
  revert seg. induction s as [|c s IH]; intros seg Hs; cbn; [by rewrite app_nil_r|]. apply Forall_cons in Hs as [Hc Hs].
  rewrite (proj2 (Z.eqb_neq c 47) Hc), (IH _ Hs), <- app_assoc. done.
Qed.

(** ** The root arrives *)

Definition hex_text (s : Bytes) : Prop := Forall (fun c => 48 <= c <= 57 \/ 97 <= c <= 102) s.

Lemma hex_text_utf8 s : hex_text s -> is_utf8 s = true.
Proof.
  unfold is_utf8. induction 1 as [|c s Hc Hs IH]; [done|]. cbn [length is_utf8_loop]. unfold within at 1.
  by rewrite (proj2 (Z.leb_le 0 c)), (proj2 (Z.leb_le c 127)) by lia.
Qed.

Lemma trim_start_hex s : hex_text s -> trim_start s = s.
Proof.
  intros [|c s' Hc _]; [done|]. cbn. unfold is_space, within. rewrite (proj2 (Z.leb_gt c 13)), andb_false_r, (proj2 (Z.eqb_neq c 32)) by lia. done.
Qed.
Lemma trim_hex s : hex_text s -> trim s = s.
Proof.
  intros Hs. unfold trim. rewrite (trim_start_hex s Hs), trim_start_hex, reverse_involutive; [done|]. unfold hex_text. by rewrite Forall_reverse.
Qed.

Section RootRoundTrip.
Context {CO : Codecs} `{MerkleHash} `{Client}.
Context (hex_roundtrip : forall b, is_bytes b -> hex_decode (hex_encode b) = Some b)
        (hex_digits : forall b, is_bytes b -> hex_text (hex_encode b) /\ length (hex_encode b) = (2 * length b)%nat)
        (fixed_bytes : forall h, is_bytes (to_fixed_bytes h) /\ length (to_fixed_bytes h) = 32%nat).

Lemma validate_hex root : is_bytes root -> length root = 32%nat -> validate_response (hex_encode root) = Ok root.
Proof using hex_roundtrip hex_digits.
  intros Hb Hl. destruct (hex_digits root Hb) as [Ht Hlen]. unfold validate_response. rewrite Hlen, Hl, (hex_text_utf8 _ Ht), (trim_hex _ Ht), (hex_roundtrip _ Hb), Hl. done.
Qed.

Lemma roothash_bytes from to root : roothash from to = Ok root -> is_bytes root /\ length root = 32%nat.
Proof using fixed_bytes.
  unfold roothash. intros (leaves & _ & Hr)%result_bind_ok. case_bool_decide.
  - injection Hr as <-. split; [|done]. repeat (constructor; [lia|]). constructor.
  - destruct (generate_tree_root leaves); [|done]. injection Hr as <-. apply fixed_bytes.
Qed.

Lemma route_numbers from to : fits 32 from -> fits 32 to ->
  roothash_route (bytes_of "roothash/" ++ decimal from ++ [47] ++ decimal to) =
    match roothash from to with Ok root => Some (hex_encode root) | Err _ => None end.
Proof.
  intros [Df Pf]%decimal_digits [Dt Pt]%decimal_digits. unfold roothash_route.
  assert (Hne : forall s, digits s -> Forall (fun c => c <> 47) s) by (intros s Hs; eapply Forall_impl; [exact Hs|]; cbn; lia).
  change (bytes_of "roothash/") with (bytes_of "roothash" ++ [47]). rewrite <- app_assoc. cbn [app].
  rewrite (split_path_segment (bytes_of "roothash")), split_path_segment, split_path_last; [|by apply Hne..|by repeat constructor].
  cbn [app]. rewrite bool_decide_eq_true_2, Pf, Pt by done. done.
Qed.

(** C39. What the watchtower's worker recomputes a summary with is the root of the
    range: the numbers of the blocks survive printing and parsing in the path,
    the root survives printing and parsing in the answer, and the worker gets a
    root exactly if the service has one. *)
Theorem root_via_service from to root : fits 32 from -> fits 32 to ->
  service_root_hash roothash_route from to = Ok root <-> range_summary from to = Ok root.
Proof using hex_roundtrip hex_digits fixed_bytes.
  intros Hf Ht. rewrite <- roothash_eq. unfold service_root_hash. rewrite (proj2 (fitsb_spec 32 from) Hf), (proj2 (fitsb_spec 32 to) Ht). cbn [ensure mbind result_bind].
  rewrite (route_numbers from to Hf Ht). destruct (roothash from to) as [r|e] eqn:E; cbn; [|by split].
  apply roothash_bytes in E as [Hb Hl]. rewrite (validate_hex r Hb Hl). split; congruence.
Qed.
End RootRoundTrip.

(** ** On a small node

    An Ethereum node that counts the transactions of one account, hexadecimal
    digits, and a run in which the account is also used elsewhere: the service's
    nonce is then too low, and it recovers. *)

(** ** Hexadecimal *)

Definition digit (d : Z) : Z := if d <? 10 then 48 + d else 87 + d.
Definition digit_value (c : Z) : option Z :=
  if (48 <=? c) && (c <=? 57) then Some (c - 48) else if (97 <=? c) && (c <=? 102) then Some (c - 87) else None.
Definition hex (b : list Z) : list Z := b ≫= (fun x => [digit (x / 16); digit (x mod 16)]).
Fixpoint unhex (s : list Z) : option (list Z) :=
  match s with
  | [] => Some []
  | c :: d :: s => x ← digit_value c; y ← digit_value d; rest ← unhex s; Some (x * 16 + y :: rest)
  | _ => None
  end.

Lemma digit_value_digit d : 0 <= d < 16 -> digit_value (digit d) = Some d.
Proof.
  intros Hd. unfold digit_value, digit. destruct (Z.ltb_spec d 10).
  - rewrite (proj2 (Z.leb_le 48 _)), (proj2 (Z.leb_le _ 57)) by lia. cbn [andb]. f_equal. lia.
  - rewrite (proj2 (Z.leb_gt _ 57)), andb_false_r, (proj2 (Z.leb_le 97 _)), (proj2 (Z.leb_le _ 102)) by lia. cbn [andb]. f_equal. lia.
Qed.
Lemma nibbles x : 0 <= x < 256 -> 0 <= x / 16 < 16 /\ 0 <= x mod 16 < 16 /\ x / 16 * 16 + x mod 16 = x.
Proof. intros. pose proof (Z.div_mod x 16 ltac:(lia)). pose proof (Z.mod_pos_bound x 16 ltac:(lia)). lia. Qed.

Lemma hex_unhex b : is_bytes b -> unhex (hex b) = Some b.
Proof.
  induction 1 as [|x b Hx Hb IH]; [done|]. apply nibbles in Hx as (H1 & H2 & H3). change (hex (x :: b)) with (digit (x / 16) :: digit (x mod 16) :: hex b).
  cbn [unhex]. rewrite !digit_value_digit, IH by done. cbn. by rewrite H3.
Qed.

Lemma digit_lower d : 0 <= d < 16 -> (if (65 <=? digit d) && (digit d <=? 90) then digit d + 32 else digit d) = digit d /\ digit d <> 120.
Proof.
  intros Hd. unfold digit. destruct (Z.ltb_spec d 10).
  - rewrite (proj2 (Z.leb_gt 65 _)) by lia. split; [done|lia].
  - rewrite (proj2 (Z.leb_gt _ 90)), andb_false_r by lia. split; [done|lia].
Qed.
Lemma hex_lower b : is_bytes b -> to_lowercase (hex b) = hex b.
Proof.
  induction 1 as [|x b Hx Hb IH]; [done|]. apply nibbles in Hx as (H1 & H2 & _). change (hex (x :: b)) with (digit (x / 16) :: digit (x mod 16) :: hex b).
  unfold to_lowercase in *. cbn [fmap list_fmap]. by rewrite (proj1 (digit_lower _ H1)), (proj1 (digit_lower _ H2)), IH.
Qed.
Lemma hex_prefix b : is_bytes b -> take 2 (hex b) <> bytes_of "0x".
Proof.
  intros [|x b' Hx _]; [done|]. apply nibbles in Hx as (_ & H2 & _). change (hex (x :: b')) with (digit (x / 16) :: digit (x mod 16) :: hex b').
  intros E. cbn in E. injection E as _ E. by apply (digit_lower _ H2).
Qed.

#[local] Instance demo_codecs : Codecs := {|
  ETHEREUM_SIGNING_KEY := [1; 2; 3; 4]; signing_key_length := eq_refl; keccak := fun b => b; rpc_to_string := fun _ t => t;
  hex_encode := hex; hex_decode := unhex;
  decode_eth_transaction := fun b => Some (mkEthTransaction (replicate 20 9) b);
  decode_query := fun b => Some (mkQuery b QueryTransactionReceipt);
  encode_vec := fun b => Z.of_nat (length b) :: b; encode_response := fun r => num_confirmations r :: r_data r |}.

(** ** A node *)

Record DemoWorld := mkWorld { w_next : Z; w_block : Z; w_accepted : list Z; w_counted : list Z }.

Definition demo_send (n : Z) : ST Web3Error DemoWorld (list Z) := fun w =>
  if n <? w_next w then (Err (Rpc (-32000) (bytes_of "Nonce too low")), w)
  else (Ok [n], mkWorld (n + 1) (w_block w) (w_accepted w ++ [n]) (w_counted w)).

(** A receipt is always of the next block. *)
#[local] Instance demo_node : EthNode := {|
  World := DemoWorld; Raw := Z;
  transaction_count := fun _ w => (Ok (w_next w), mkWorld (w_next w) (w_block w) (w_accepted w) (w_counted w ++ [w_next w mod 2 ^ 64]));
  eth_estimate_gas := fun _ _ _ w => (Ok 21000, w); sign_transaction := fun tx _ w => (Ok (p_nonce tx), w);
  eth_send_raw_transaction := demo_send; eth_call := fun _ _ w => (Ok [], w); eth_block_number := fun w => (Ok (w_block w), w);
  eth_transaction_receipt := fun _ w => (Ok (Some (mkReceipt (Some [5]) (Some (w_block w + 1)))), w);
  eth_transaction := fun _ w => (Ok None, w); secret_key_valid := fun _ => true |}.

#[local] Instance demo_observed : EthObserved.
Proof.
  refine {| accepted := w_accepted : @World demo_node -> _; counted := w_counted; raw_nonce := fun n => n |}; cbn; try (by intros; simplify_eq/=).
  - intros tx key w r w' [= <- <-]. split_and!; [done..|]. by intros raw [= <-].
  - intros raw w r w'. unfold demo_send. case_match; intros [= <- <-]; cbn; (split; [|reflexivity]); [symmetry; apply app_nil_r|reflexivity].
Defined.

Definition demo_keystore : Keystore :=
  mkKeystore (Some [Some (Some (hex [1; 2; 3; 4] ++ hex (replicate 20 8)))]) (fun _ => Some (Some (hex (replicate 32 7)))).

Definition demo_0 : Svc := mkSvc Web3Data_new (mkWorld 7 100 [] []).
Definition demo_1 : Svc := exec (svc_initialise_web3 true true) demo_0.
Definition demo_2 : Svc := exec (send_main true demo_keystore []) demo_1.
(** The account sends elsewhere. *)
Definition demo_3 : Svc := mkSvc (svc_data demo_2) (mkWorld 20 101 (w_accepted (svc_world demo_2)) (w_counted (svc_world demo_2))).
Definition demo_4 : Svc := exec (send_main true demo_keystore []) demo_3.

Lemma demo_2_run : svc_run demo_2.
Proof.
  assert (R1 : svc_run demo_1) by exact (run_initialise true true demo_0 _ _ (run_start (svc_world demo_0) eq_refl eq_refl) (surjective_pairing _)).
  exact (run_send true demo_keystore [] demo_1 _ _ R1 (surjective_pairing _)).
Qed.
Lemma demo_4_run : svc_run demo_4.
Proof. exact (run_send true demo_keystore [] demo_3 _ _ (run_world demo_2 (svc_world demo_3) demo_2_run eq_refl eq_refl) (surjective_pairing _)). Qed.

(** The second transaction failed with the nonce 8 and was sent with 20. *)
Lemma nonces_consecutive_witness : counter [7; 20] [7; 20] (Some 21).
Proof. exact (proj1 (nonces_consecutive demo_4 demo_4_run)). Defined.

Lemma confirmations_reported_witness :
  fst (tx_query_main true (replicate 32 3) demo_4) = Ok (hex (2 ^ 64 - 1 :: [1; 5])).
Proof.
  assert (F : forall x, 0 <= x <= 200 -> fits 64 x) by (intros; unfold fits, umax; lia).
  assert (B : is_bytes (replicate 32 3)) by (apply Forall_replicate; lia).
  exact (f_equal fst (confirmations_reported hex_unhex hex_lower hex_prefix (replicate 32 3) _ _ _ 101 102 demo_4 (svc_world demo_4) (svc_world demo_4)
    eq_refl eq_refl eq_refl B eq_refl eq_refl eq_refl eq_refl eq_refl (F 101 ltac:(lia)) (F 102 ltac:(lia)))).
Defined.

(** ** Roots *)

(** Hashes of 32 bytes. *)
Definition wide_hash : MerkleHash := {|
  H256 := Z;
  h256_le := Z.leb;
  to_fixed_bytes h := (fun i => Z.shiftr h (8 * Z.of_nat i) mod 256) <$> seq 0 32;
  keccak_256 m := foldl (fun acc b => acc * 257 + b + 1) 7 m |}.

Lemma wide_bytes (h : Z) : is_bytes (to_fixed_bytes (MerkleHash := wide_hash) h) /\ length (to_fixed_bytes (MerkleHash := wide_hash) h) = 32%nat.
Proof. split; [|done]. apply Forall_fmap, Forall_true. intros i. apply (Z.mod_pos_bound (Z.shiftr h (8 * Z.of_nat i)) 256). lia. Qed.

Lemma hex_is_text b : is_bytes b -> hex_text (hex b) /\ length (hex b) = (2 * length b)%nat.
Proof.
  assert (Hd : forall d, 0 <= d < 16 -> 48 <= digit d <= 57 \/ 97 <= digit d <= 102) by (intros d ?; unfold digit; destruct (Z.ltb_spec d 10); lia).
  induction 1 as [|x b Hx Hb [IH Hl]]; [split; [constructor|reflexivity]|]. apply nibbles in Hx as (H1 & H2 & _). change (hex (x :: b)) with (digit (x / 16) :: digit (x mod 16) :: hex b).
  split; [by do 2 (constructor; [by apply Hd|])|]. cbn [length]. lia.
Qed.

Definition wide_root : list Z := match range_summary (H := wide_hash) (H0 := demo_client) 1 2 with Ok root => root | Err _ => [] end.

Lemma root_via_service_witness : service_root_hash (roothash_route (H := wide_hash) (H0 := demo_client)) 1 2 = Ok wide_root.
Proof.
  apply (root_via_service (CO := demo_codecs) (H := wide_hash) (H0 := demo_client) hex_unhex hex_is_text wide_bytes 1 2 wide_root).
  - unfold fits. rewrite umax_32. lia.
  - unfold fits. rewrite umax_32. lia.
  - vm_compute. reflexivity.
Defined.
