(* ===== verification/DisputeQueue.v ===== *)
(** * The queue of disputed markets (prediction-markets)

    [MarketIdsPerDisputeBlock] of [pallets/prediction-markets], the markets
    that are resolved at a block, and the [DisputeResolutionApi] operations on
    it.  The storage has the default-empty value query of the code. *)

From S2P Require Import Prelude Errors Collections Interfaces.

Definition CacheSize : Z := 64.

(** [StorageMap<BlockNumber, BoundedVec<MarketId, CacheSize>, ValueQuery>]. *)
Abbreviation MarketIdsPerDisputeBlock := (gmap Z (list Z)).

Definition queue_get (b : Z) (q : MarketIdsPerDisputeBlock) : list Z := default [] (q !! b).

(** [Vec::swap_remove]: the last item takes the place of the removed one. *)
Definition swap_remove {A} (i : nat) (l : list A) : list A :=
  match last l with
  | Some x => take (length l - 1) (<[i := x]> l)
  | None => l
  end.

(** [iter().position(|i| i == item)]. *)
Fixpoint position (item : Z) (l : list Z) : option nat :=
  match l with
  | [] => None
  | x :: l => if x =? item then Some O else S <$> position item l
  end.

Definition remove_item (items : list Z) (item : Z) : list Z :=
  match position item items with
  | Some pos => swap_remove pos items
  | None => items
  end.

Definition pm_add_auto_resolve (market_id resolve_at : Z) (q : MarketIdsPerDisputeBlock) :
    Res Z * MarketIdsPerDisputeBlock :=
  match try_push CacheSize market_id (queue_get resolve_at q) with
  | Some ids => (Ok (Z.of_nat (length ids)), <[resolve_at := ids]> q)
  | None => (Err (Module_ (PredictionMarketsErr StorageOverflowPM)), q)
  end.

Definition pm_auto_resolve_exists (market_id resolve_at : Z) (q : MarketIdsPerDisputeBlock) : bool :=
  bool_decide (market_id ∈ queue_get resolve_at q).

Definition pm_remove_auto_resolve (market_id resolve_at : Z) (q : MarketIdsPerDisputeBlock) :
    Z * MarketIdsPerDisputeBlock :=
  let ids := queue_get resolve_at q in
  (Z.of_nat (length ids), <[resolve_at := remove_item ids market_id]> q).

#[global] Instance pm_dispute_resolution : DisputeResolutionApi MarketIdsPerDisputeBlock := {|
  add_auto_resolve := pm_add_auto_resolve;
  auto_resolve_exists := pm_auto_resolve_exists;
  remove_auto_resolve := pm_remove_auto_resolve |}.

(** ** The laws of the interface *)

Lemma position_some item l i : position item l = Some i -> l !! i = Some item.
Proof.
  revert i. induction l as [|x l IH]; intros i; simpl; [done|].
  destruct (Z.eqb_spec x item) as [->|Hne]; [by intros [= <-]|].
  destruct (position item l) as [j|]; simpl; [|done]. intros [= <-]. simpl. by apply IH.
Qed.

Lemma swap_remove_perm {A} i (l : list A) x : l !! i = Some x -> l ≡ₚ x :: swap_remove i l.
Proof.
  intros Hi. unfold swap_remove. destruct l as [|y l _] using rev_ind; [done|].
  rewrite last_snoc, length_app. cbn [length]. replace (length l + 1 - 1)%nat with (length l) by lia.
  destruct (decide (i = length l)) as [->|Hne].
  - rewrite lookup_app_r, Nat.sub_diag in Hi by lia. injection Hi as ->.
    rewrite take_insert_ge by lia. rewrite take_app_length.
    symmetry. apply Permutation_cons_append.
  - apply lookup_lt_Some in Hi as Hlt. rewrite length_app in Hlt. simpl in Hlt.
    rewrite lookup_app_l in Hi by lia. rewrite insert_app_l by lia.
    rewrite take_app_length' by (by rewrite length_insert).
    etransitivity; [symmetry; apply Permutation_cons_append|].
    rewrite insert_take_drop by lia. rewrite <- (take_drop_middle l i x Hi) at 1.
    rewrite <- !Permutation_middle. apply perm_swap.
Qed.

(** Only the removed market leaves the block's queue. *)
Lemma elem_of_remove_item items item x :
  x <> item -> x ∈ remove_item items item <-> x ∈ items.
Proof.
  intros Hne. unfold remove_item. destruct (position item items) as [i|] eqn:Hp; [|done].
  apply position_some, swap_remove_perm in Hp. rewrite Hp at 2. rewrite elem_of_cons. tauto.
Qed.

Lemma queue_get_insert b ids q : queue_get b (<[b := ids]> q) = ids.
Proof. unfold queue_get. by rewrite lookup_insert_eq. Qed.
Lemma queue_get_insert_ne b b' ids q : b <> b' -> queue_get b (<[b' := ids]> q) = queue_get b q.
Proof. intros. unfold queue_get. by rewrite lookup_insert_ne. Qed.

#[global] Instance pm_dispute_resolution_laws : DisputeResolutionLaws MarketIdsPerDisputeBlock.
Proof.
  split; cbn; unfold pm_add_auto_resolve, pm_auto_resolve_exists, pm_remove_auto_resolve, try_push.
  - intros r m b n r'. destruct (_ <? _); [|done]. intros [= _ <-]. rewrite queue_get_insert.
    apply bool_decide_eq_true, elem_of_app. right. by left.
  - intros r m b n r' m' b'. destruct (_ <? _); [|done]. intros [= _ <-] Hne.
    apply bool_decide_ext. destruct (decide (b' = b)) as [->|Hb].
    + rewrite queue_get_insert, elem_of_app, list_elem_of_singleton.
      assert (m' <> m) by congruence. tauto.
    + by rewrite queue_get_insert_ne.
  - intros r m b e r'. destruct (_ <? _); [done|]. by intros [= _ <-].
  - intros r m b n r' m' b' [= _ <-] Hne. apply bool_decide_ext.
    destruct (decide (b' = b)) as [->|Hb].
    + rewrite queue_get_insert. apply elem_of_remove_item. congruence.
    + by rewrite queue_get_insert_ne.
Qed.
