(* ===== verification/Market.v ===== *)
(** * Markets and the market-commons pallet

    [primitives/prediction-market/src/{market,asset,outcome_report}.rs]: the
    market record and its methods.  [pallets/market-commons]: the storage of
    all markets, the market counter, and the market builder.  Market ids,
    balances and pool ids are [u128], block numbers [u32], moments [u64],
    category indices [u16], a [Perbill] its number of billionths. *)

From S2P Require Import Prelude Errors FixedMath.

(** ** Primitives *)

Inductive ScalarPosition := Long | Short.

(** [Asset<MarketId>]. *)
Inductive Asset :=
| CategoricalOutcome (market_id : Z) (category : Z)
| ScalarOutcome (market_id : Z) (position : ScalarPosition)
| CombinatorialOutcome
| PoolShare (pool_id : Z)
| Tru
| ForeignAsset (id : Z)
| ParimutuelShare (market_id : Z) (category : Z).

Inductive OutcomeReport := Categorical (index : Z) | Scalar (value : Z).

Inductive MarketCreation := Permissionless | Advised.
Inductive MarketDisputeMechanism := Authorized | Court.
Inductive MarketPeriod := BlockPeriod (start stop : Z) | TimestampPeriod (start stop : Z).
Inductive EarlyCloseState :=
  ScheduledAsMarketCreator | ScheduledAsOther | EarlyCloseDisputed | EarlyCloseRejected.
Inductive ScoringRule := AmmCdaHybrid | Parimutuel.
Inductive MarketStatus := Proposed | Active | Closed | Reported | Disputed | Resolved.
(** [Scalar(RangeInclusive<u128>)] keeps its two ends. *)
Inductive MarketType := CategoricalType (categories : Z) | ScalarType (low high : Z).
Inductive ResolutionMechanism := RedeemTokens | Noop.

Record EarlyClose := mkEarlyClose {
  ec_old : MarketPeriod; ec_new : MarketPeriod; ec_state : EarlyCloseState }.
Record Deadlines := mkDeadlines {
  grace_period : Z; oracle_duration : Z; dispute_duration : Z }.
Record Report := mkReport { report_at : Z; report_by : AccountId; report_outcome : OutcomeReport }.
Record AuthorityReport := mkAuthorityReport { resolve_at : Z; ar_outcome : OutcomeReport }.
Record GlobalDisputeItem := mkGlobalDisputeItem {
  gdi_owner : AccountId; gdi_outcome : OutcomeReport; initial_vote_amount : Z }.
Record Bond := mkBond { bond_who : AccountId; bond_value : Z; is_settled : bool }.
Record MarketBonds := mkMarketBonds {
  creation_bond : option Bond;
  oracle_bond : option Bond;
  outsider_bond : option Bond;
  dispute_bond : option Bond;
  close_request_bond : option Bond;
  close_dispute_bond : option Bond }.

Record Market := mkMarket {
  market_id : Z;
  base_asset : Asset;
  creator : AccountId;
  creation : MarketCreation;
  creator_fee : Z;
  oracle : AccountId;
  metadata : list Z;
  market_type : MarketType;
  period : MarketPeriod;
  deadlines : Deadlines;
  scoring_rule : ScoringRule;
  status : MarketStatus;
  report : option Report;
  resolved_outcome : option OutcomeReport;
  dispute_mechanism : option MarketDisputeMechanism;
  bonds : MarketBonds;
  early_close : option EarlyClose }.

#[global] Instance scalar_position_eq_dec : EqDecision ScalarPosition.
Proof. solve_decision. Defined.
#[global] Instance asset_eq_dec : EqDecision Asset.
Proof. solve_decision. Defined.
#[global] Instance outcome_report_eq_dec : EqDecision OutcomeReport.
Proof. solve_decision. Defined.
#[global] Instance market_status_eq_dec : EqDecision MarketStatus.
Proof. solve_decision. Defined.
#[global] Instance dispute_mechanism_eq_dec : EqDecision MarketDisputeMechanism.
Proof. solve_decision. Defined.
#[global] Instance scoring_rule_eq_dec : EqDecision ScoringRule.
Proof. solve_decision. Defined.

Definition set_market_id i m :=
  mkMarket i (base_asset m) (creator m) (creation m) (creator_fee m) (oracle m) (metadata m)
    (market_type m) (period m) (deadlines m) (scoring_rule m) (status m) (report m)
    (resolved_outcome m) (dispute_mechanism m) (bonds m) (early_close m).
Definition set_status x m :=
  mkMarket (market_id m) (base_asset m) (creator m) (creation m) (creator_fee m) (oracle m)
    (metadata m) (market_type m) (period m) (deadlines m) (scoring_rule m) x (report m)
    (resolved_outcome m) (dispute_mechanism m) (bonds m) (early_close m).

(** ** The methods of [Market] *)

Definition resolution_mechanism (m : Market) : ResolutionMechanism :=
  match scoring_rule m with AmmCdaHybrid => RedeemTokens | Parimutuel => Noop end.

Definition is_redeemable (m : Market) : bool :=
  match resolution_mechanism m with RedeemTokens => true | Noop => false end.

Definition outcomes (m : Market) : Z :=
  match market_type m with CategoricalType categories => categories | ScalarType _ _ => 2 end.

Definition matches_outcome_report (m : Market) (r : OutcomeReport) : bool :=
  match r with
  | Categorical inner =>
      match market_type m with
      | CategoricalType categories => inner <? categories
      | ScalarType _ _ => false
      end
  | Scalar _ => match market_type m with ScalarType _ _ => true | CategoricalType _ => false end
  end.

(** The outcome asset of category [i] under the market's scoring rule. *)
Definition category_asset (m : Market) (i : Z) : Asset :=
  match scoring_rule m with
  | AmmCdaHybrid => CategoricalOutcome (market_id m) i
  | Parimutuel => ParimutuelShare (market_id m) i
  end.

Definition outcome_assets (m : Market) : list Asset :=
  match market_type m with
  | CategoricalType categories => category_asset m <$> seqZ 0 categories
  | ScalarType _ _ => [ScalarOutcome (market_id m) Long; ScalarOutcome (market_id m) Short]
  end.

Definition outcome_report_into_asset (m : Market) (r : OutcomeReport) : option Asset :=
  match r with Categorical idx => Some (category_asset m idx) | Scalar _ => None end.

Definition report_into_asset (m : Market) : option Asset :=
  match report m with
  | Some r => outcome_report_into_asset m (report_outcome r)
  | None => None
  end.

Definition resolved_outcome_into_asset (m : Market) : option Asset :=
  outcome ← resolved_outcome m; outcome_report_into_asset m outcome.

Definition Bond_new (who : AccountId) (value : Z) : Bond := mkBond who value false.
Definition MarketBonds_default : MarketBonds := mkMarketBonds None None None None None None.

Definition total_amount_bonded (b : MarketBonds) (who : AccountId) : Z :=
  let value_or_default (o : option Bond) :=
    match o with
    | Some bond => if (bond_who bond =? who)%N then bond_value bond else 0
    | None => 0
    end in
  saturating_add 128 (saturating_add 128 (saturating_add 128 (saturating_add 128 (saturating_add 128
    (value_or_default (creation_bond b))
    (value_or_default (oracle_bond b)))
    (value_or_default (outsider_bond b)))
    (value_or_default (dispute_bond b)))
    (value_or_default (close_request_bond b)))
    (value_or_default (close_dispute_bond b)).

(** ** The market builder *)

Record MarketBuilder := mkBuilder {
  b_market_id : option Z;
  b_base_asset : option Asset;
  b_creator : option AccountId;
  b_creation : option MarketCreation;
  b_creator_fee : option Z;
  b_oracle : option AccountId;
  b_metadata : option (list Z);
  b_market_type : option MarketType;
  b_period : option MarketPeriod;
  b_deadlines : option Deadlines;
  b_scoring_rule : option ScoringRule;
  b_status : option MarketStatus;
  b_report : option (option Report);
  b_resolved_outcome : option (option OutcomeReport);
  b_dispute_mechanism : option (option MarketDisputeMechanism);
  b_bonds : option MarketBonds;
  b_early_close : option (option EarlyClose) }.

Definition MarketBuilder_new : MarketBuilder :=
  mkBuilder None None None None None None None None None None None None None None None None None.

Definition ok_or_incomplete {U} (o : option U) : Res U :=
  ok_or o (Module_ (MarketCommonsErr IncompleteMarketBuilder)).

Definition build (b : MarketBuilder) : Res Market :=
  market_id ← ok_or_incomplete (b_market_id b);
  base_asset ← ok_or_incomplete (b_base_asset b);
  creator ← ok_or_incomplete (b_creator b);
  creation ← ok_or_incomplete (b_creation b);
  creator_fee ← ok_or_incomplete (b_creator_fee b);
  oracle ← ok_or_incomplete (b_oracle b);
  metadata ← ok_or_incomplete (b_metadata b);
  market_type ← ok_or_incomplete (b_market_type b);
  period ← ok_or_incomplete (b_period b);
  deadlines ← ok_or_incomplete (b_deadlines b);
  scoring_rule ← ok_or_incomplete (b_scoring_rule b);
  status ← ok_or_incomplete (b_status b);
  report ← ok_or_incomplete (b_report b);
  resolved_outcome ← ok_or_incomplete (b_resolved_outcome b);
  dispute_mechanism ← ok_or_incomplete (b_dispute_mechanism b);
  bonds ← ok_or_incomplete (b_bonds b);
  early_close ← ok_or_incomplete (b_early_close b);
  Ok (mkMarket market_id base_asset creator creation creator_fee oracle metadata market_type
        period deadlines scoring_rule status report resolved_outcome dispute_mechanism bonds
        early_close).

(** The setters [impl_builder_methods!] generates, one per field. *)
Definition builder_market_id (x : Z) (b : MarketBuilder) : MarketBuilder :=
  mkBuilder (Some x) (b_base_asset b) (b_creator b) (b_creation b) (b_creator_fee b) (b_oracle
    b) (b_metadata b) (b_market_type b) (b_period b) (b_deadlines b) (b_scoring_rule b)
    (b_status b) (b_report b) (b_resolved_outcome b) (b_dispute_mechanism b) (b_bonds b)
    (b_early_close b).
Definition builder_base_asset (x : Asset) (b : MarketBuilder) : MarketBuilder :=
  mkBuilder (b_market_id b) (Some x) (b_creator b) (b_creation b) (b_creator_fee b) (b_oracle b)
    (b_metadata b) (b_market_type b) (b_period b) (b_deadlines b) (b_scoring_rule b) (b_status
    b) (b_report b) (b_resolved_outcome b) (b_dispute_mechanism b) (b_bonds b) (b_early_close
    b).
Definition builder_creator (x : AccountId) (b : MarketBuilder) : MarketBuilder :=
  mkBuilder (b_market_id b) (b_base_asset b) (Some x) (b_creation b) (b_creator_fee b) (b_oracle
    b) (b_metadata b) (b_market_type b) (b_period b) (b_deadlines b) (b_scoring_rule b)
    (b_status b) (b_report b) (b_resolved_outcome b) (b_dispute_mechanism b) (b_bonds b)
    (b_early_close b).
Definition builder_creation (x : MarketCreation) (b : MarketBuilder) : MarketBuilder :=
  mkBuilder (b_market_id b) (b_base_asset b) (b_creator b) (Some x) (b_creator_fee b) (b_oracle
    b) (b_metadata b) (b_market_type b) (b_period b) (b_deadlines b) (b_scoring_rule b)
    (b_status b) (b_report b) (b_resolved_outcome b) (b_dispute_mechanism b) (b_bonds b)
    (b_early_close b).
Definition builder_creator_fee (x : Z) (b : MarketBuilder) : MarketBuilder :=
  mkBuilder (b_market_id b) (b_base_asset b) (b_creator b) (b_creation b) (Some x) (b_oracle b)
    (b_metadata b) (b_market_type b) (b_period b) (b_deadlines b) (b_scoring_rule b) (b_status
    b) (b_report b) (b_resolved_outcome b) (b_dispute_mechanism b) (b_bonds b) (b_early_close
    b).
Definition builder_oracle (x : AccountId) (b : MarketBuilder) : MarketBuilder :=
  mkBuilder (b_market_id b) (b_base_asset b) (b_creator b) (b_creation b) (b_creator_fee b)
    (Some x) (b_metadata b) (b_market_type b) (b_period b) (b_deadlines b) (b_scoring_rule b)
    (b_status b) (b_report b) (b_resolved_outcome b) (b_dispute_mechanism b) (b_bonds b)
    (b_early_close b).
Definition builder_metadata (x : list Z) (b : MarketBuilder) : MarketBuilder :=
  mkBuilder (b_market_id b) (b_base_asset b) (b_creator b) (b_creation b) (b_creator_fee b)
    (b_oracle b) (Some x) (b_market_type b) (b_period b) (b_deadlines b) (b_scoring_rule b)
    (b_status b) (b_report b) (b_resolved_outcome b) (b_dispute_mechanism b) (b_bonds b)
    (b_early_close b).
Definition builder_market_type (x : MarketType) (b : MarketBuilder) : MarketBuilder :=
  mkBuilder (b_market_id b) (b_base_asset b) (b_creator b) (b_creation b) (b_creator_fee b)
    (b_oracle b) (b_metadata b) (Some x) (b_period b) (b_deadlines b) (b_scoring_rule b)
    (b_status b) (b_report b) (b_resolved_outcome b) (b_dispute_mechanism b) (b_bonds b)
    (b_early_close b).
Definition builder_period (x : MarketPeriod) (b : MarketBuilder) : MarketBuilder :=
  mkBuilder (b_market_id b) (b_base_asset b) (b_creator b) (b_creation b) (b_creator_fee b)
    (b_oracle b) (b_metadata b) (b_market_type b) (Some x) (b_deadlines b) (b_scoring_rule b)
    (b_status b) (b_report b) (b_resolved_outcome b) (b_dispute_mechanism b) (b_bonds b)
    (b_early_close b).
Definition builder_deadlines (x : Deadlines) (b : MarketBuilder) : MarketBuilder :=
  mkBuilder (b_market_id b) (b_base_asset b) (b_creator b) (b_creation b) (b_creator_fee b)
    (b_oracle b) (b_metadata b) (b_market_type b) (b_period b) (Some x) (b_scoring_rule b)
    (b_status b) (b_report b) (b_resolved_outcome b) (b_dispute_mechanism b) (b_bonds b)
    (b_early_close b).
Definition builder_scoring_rule (x : ScoringRule) (b : MarketBuilder) : MarketBuilder :=
  mkBuilder (b_market_id b) (b_base_asset b) (b_creator b) (b_creation b) (b_creator_fee b)
    (b_oracle b) (b_metadata b) (b_market_type b) (b_period b) (b_deadlines b) (Some x)
    (b_status b) (b_report b) (b_resolved_outcome b) (b_dispute_mechanism b) (b_bonds b)
    (b_early_close b).
Definition builder_status (x : MarketStatus) (b : MarketBuilder) : MarketBuilder :=
  mkBuilder (b_market_id b) (b_base_asset b) (b_creator b) (b_creation b) (b_creator_fee b)
    (b_oracle b) (b_metadata b) (b_market_type b) (b_period b) (b_deadlines b) (b_scoring_rule
    b) (Some x) (b_report b) (b_resolved_outcome b) (b_dispute_mechanism b) (b_bonds b)
    (b_early_close b).
Definition builder_report (x : option Report) (b : MarketBuilder) : MarketBuilder :=
  mkBuilder (b_market_id b) (b_base_asset b) (b_creator b) (b_creation b) (b_creator_fee b)
    (b_oracle b) (b_metadata b) (b_market_type b) (b_period b) (b_deadlines b) (b_scoring_rule
    b) (b_status b) (Some x) (b_resolved_outcome b) (b_dispute_mechanism b) (b_bonds b)
    (b_early_close b).
Definition builder_resolved_outcome (x : option OutcomeReport) (b : MarketBuilder) : MarketBuilder :=
  mkBuilder (b_market_id b) (b_base_asset b) (b_creator b) (b_creation b) (b_creator_fee b)
    (b_oracle b) (b_metadata b) (b_market_type b) (b_period b) (b_deadlines b) (b_scoring_rule
    b) (b_status b) (b_report b) (Some x) (b_dispute_mechanism b) (b_bonds b) (b_early_close b).
Definition builder_dispute_mechanism (x : option MarketDisputeMechanism) (b : MarketBuilder) : MarketBuilder :=
  mkBuilder (b_market_id b) (b_base_asset b) (b_creator b) (b_creation b) (b_creator_fee b)
    (b_oracle b) (b_metadata b) (b_market_type b) (b_period b) (b_deadlines b) (b_scoring_rule
    b) (b_status b) (b_report b) (b_resolved_outcome b) (Some x) (b_bonds b) (b_early_close b).
Definition builder_bonds (x : MarketBonds) (b : MarketBuilder) : MarketBuilder :=
  mkBuilder (b_market_id b) (b_base_asset b) (b_creator b) (b_creation b) (b_creator_fee b)
    (b_oracle b) (b_metadata b) (b_market_type b) (b_period b) (b_deadlines b) (b_scoring_rule
    b) (b_status b) (b_report b) (b_resolved_outcome b) (b_dispute_mechanism b) (Some x)
    (b_early_close b).
Definition builder_early_close (x : option EarlyClose) (b : MarketBuilder) : MarketBuilder :=
  mkBuilder (b_market_id b) (b_base_asset b) (b_creator b) (b_creation b) (b_creator_fee b)
    (b_oracle b) (b_metadata b) (b_market_type b) (b_period b) (b_deadlines b) (b_scoring_rule
    b) (b_status b) (b_report b) (b_resolved_outcome b) (b_dispute_mechanism b) (b_bonds b)
    (Some x).

(** ** The market-commons pallet *)

(** [Markets], [MarketCounter] (absent until the first market) and [MarketPool]. *)
Record MarketCommons := mkCommons {
  Markets : gmap Z Market;
  MarketCounter : option Z;
  MarketPool : gmap Z Z }.

Abbreviation CommonsM := (ST DispatchError MarketCommons).

Definition commons_error (e : MarketCommonsError) : DispatchError := Module_ (MarketCommonsErr e).

Definition set_Markets x c := mkCommons x (MarketCounter c) (MarketPool c).
Definition set_MarketCounter x c := mkCommons (Markets c) x (MarketPool c).
Definition set_MarketPool x c := mkCommons (Markets c) (MarketCounter c) x.

Definition next_market_id : CommonsM Z :=
  id ← gets (fun c => default 0 (MarketCounter c));
  new_counter ← lift (checked_add_res 128 id 1);
  modify (set_MarketCounter (Some new_counter)) ;;
  mret id.

Definition latest_market_id (c : MarketCommons) : Res Z :=
  match MarketCounter c with
  | Some market_id => Ok (saturating_sub market_id 1)
  | None => Err (commons_error NoMarketHasBeenCreated)
  end.

Definition market (c : MarketCommons) (id : Z) : Res Market :=
  ok_or (Markets c !! id) (commons_error MarketDoesNotExist).

(** [try_mutate] writes the market back only if the callback succeeds. *)
Definition mutate_market (id : Z) (cb : Market -> Res Market) : CommonsM unit :=
  o ← gets (fun c => Markets c !! id);
  match o with
  | Some m => m' ← lift (cb m); modify (fun c => set_Markets (<[id := m']> (Markets c)) c)
  | None => fail (commons_error MarketDoesNotExist)
  end.

Definition push_market (m : Market) : CommonsM Z :=
  id ← next_market_id;
  modify (fun c => set_Markets (<[id := set_market_id id m]> (Markets c)) c) ;;
  mret id.

Definition build_market (b : MarketBuilder) : CommonsM (Z * Market) :=
  id ← next_market_id;
  m ← lift (build (builder_market_id id b));
  modify (fun c => set_Markets (<[id := m]> (Markets c)) c) ;;
  mret (id, m).

Definition remove_market (id : Z) : CommonsM unit :=
  c ← get;
  if bool_decide (is_Some (Markets c !! id))
  then modify (fun c => set_Markets (delete id (Markets c)) c)
  else fail (commons_error MarketDoesNotExist).

Definition insert_market_pool (id pool_id : Z) : CommonsM unit :=
  c ← get;
  lift (ensure (negb (bool_decide (is_Some (MarketPool c !! id)))) (commons_error PoolAlreadyExists)) ;;
  lift (ensure (bool_decide (is_Some (Markets c !! id))) (commons_error MarketDoesNotExist)) ;;
  modify (fun c => set_MarketPool (<[id := pool_id]> (MarketPool c)) c).

Definition remove_market_pool (id : Z) : CommonsM unit :=
  c ← get;
  if bool_decide (is_Some (MarketPool c !! id))
  then modify (fun c => set_MarketPool (delete id (MarketPool c)) c)
  else fail (commons_error MarketPoolDoesNotExist).

Definition market_pool (c : MarketCommons) (id : Z) : Res Z :=
  ok_or (MarketPool c !! id) (commons_error MarketPoolDoesNotExist).

(** ** Properties *)

(** The histories of the pallet: the ids handed out so far, and the storage.
    A failed [build_market] still consumes an id. A market is only ever
    mutated by callbacks that leave its [market_id] alone. *)
Inductive commons_reach : list Z -> MarketCommons -> Prop :=
| reach_genesis : commons_reach [] (mkCommons ∅ None ∅)
| reach_push log c m id c' :
    commons_reach log c -> push_market m c = (Ok id, c') -> commons_reach (log ++ [id]) c'
| reach_build log c b id m c' :
    commons_reach log c -> build_market b c = (Ok (id, m), c') -> commons_reach (log ++ [id]) c'
| reach_build_err log c b e c' :
    commons_reach log c -> build_market b c = (Err e, c') -> commons_reach log c'
| reach_mutate log c id cb r c' :
    (forall m m', cb m = Ok m' -> market_id m' = market_id m) ->
    commons_reach log c -> mutate_market id cb c = (r, c') -> commons_reach log c'
| reach_remove log c id r c' :
    commons_reach log c -> remove_market id c = (r, c') -> commons_reach log c'
| reach_insert_pool log c id pool r c' :
    commons_reach log c -> insert_market_pool id pool c = (r, c') -> commons_reach log c'
| reach_remove_pool log c id r c' :
    commons_reach log c -> remove_market_pool id c = (r, c') -> commons_reach log c'.

Definition ids_ok (log : list Z) (c : MarketCommons) : Prop :=
  StronglySorted Z.lt log /\
  0 <= default 0 (MarketCounter c) /\
  (forall id, id ∈ log -> 0 <= id < default 0 (MarketCounter c)) /\
  (forall k m, Markets c !! k = Some m -> k ∈ log /\ market_id m = k).

Lemma next_market_id_spec c r c' :
  next_market_id c = (r, c') ->
  (exists id, r = Ok id /\ id = default 0 (MarketCounter c) /\
     c' = set_MarketCounter (Some (id + 1)) c) \/
  (exists e, r = Err e /\ c' = c).
Proof.
  unfold next_market_id, mbind, st_bind, gets, lift, checked_add_res, ok_or.
  destruct (checked_add _ _ _) as [z|] eqn:Hz; cbn; intros [= <- <-]; [left|right; eauto].
  apply checked_add_some in Hz as [-> _]. eauto.
Qed.

Lemma StronglySorted_snoc log id :
  StronglySorted Z.lt log -> (forall x, x ∈ log -> x < id) -> StronglySorted Z.lt (log ++ [id]).
Proof.
  induction 1 as [|x log Hs IH Hx]; intros Hlt; simpl; [repeat constructor|].
  constructor; [apply IH; intros; apply Hlt; by right|].
  apply Forall_app; split; [done|]. constructor; [apply Hlt; by left|constructor].
Qed.

(** A market stored under the id just handed out keeps the invariant. *)
Lemma ids_ok_insert log c m :
  ids_ok log c -> market_id m = default 0 (MarketCounter c) ->
  ids_ok (log ++ [default 0 (MarketCounter c)])
    (set_Markets (<[default 0 (MarketCounter c) := m]> (Markets c))
       (set_MarketCounter (Some (default 0 (MarketCounter c) + 1)) c)).
Proof.
  intros (Hs & H0 & Hlog & Hm) Hid. split_and!; cbn.
  - apply StronglySorted_snoc; [done|]. intros x Hx. by apply Hlog in Hx as [_ ?].
  - lia.
  - intros i [Hi| ->%list_elem_of_singleton]%elem_of_app; [apply Hlog in Hi; lia|lia].
  - intros k m' [[<- <-]|[Hne Hk]]%lookup_insert_Some.
    + split; [apply elem_of_app; right; by left|done].
    + apply Hm in Hk as [??]. split; [apply elem_of_app; by left|done].
Qed.

Lemma ids_ok_markets log c ms :
  ids_ok log c -> (forall k m, ms !! k = Some m -> k ∈ log /\ market_id m = k) ->
  ids_ok log (set_Markets ms c).
Proof. intros (?&?&?&?) ?. by split_and!. Qed.

Lemma push_market_spec c m r c' :
  push_market m c = (r, c') ->
  (exists id, r = Ok id /\ id = default 0 (MarketCounter c) /\
     c' = set_Markets (<[id := set_market_id id m]> (Markets c))
            (set_MarketCounter (Some (id + 1)) c)) \/
  (exists e, r = Err e /\ c' = c).
Proof.
  unfold push_market. unfold mbind, st_bind.
  destruct (next_market_id c) as [r0 c0] eqn:Hn.
  apply next_market_id_spec in Hn as [(id & -> & Hid & ->)|(e & -> & ->)]; cbn; intros [= <- <-];
    [left; eauto|right; eauto].
Qed.

Lemma builder_market_id_id i b m : build (builder_market_id i b) = Ok m -> market_id m = i.
Proof.
  intros H. unfold build in H. apply result_bind_ok in H as (i' & [= <-] & H).
  repeat (apply result_bind_ok in H as (? & _ & H)). by injection H as <-.
Qed.

Lemma build_market_spec c b r c' :
  build_market b c = (r, c') ->
  (exists id m, r = Ok (id, m) /\ id = default 0 (MarketCounter c) /\
     build (builder_market_id id b) = Ok m /\
     c' = set_Markets (<[id := m]> (Markets c)) (set_MarketCounter (Some (id + 1)) c)) \/
  (exists e, r = Err e /\ (c' = c \/ c' = set_MarketCounter (Some (default 0 (MarketCounter c) + 1)) c)).
Proof.
  unfold build_market. unfold mbind, st_bind.
  destruct (next_market_id c) as [r0 c0] eqn:Hn.
  apply next_market_id_spec in Hn as [(id & -> & Hid & ->)|(e & -> & ->)]; unfold lift.
  - destruct (build _) as [m|e] eqn:Hb; cbn; intros [= <- <-].
    + left. eauto 10.
    + right. subst id. eauto.
  - intros [= <- <-]. right. eauto.
Qed.

Lemma mutate_market_spec c id cb r c' :
  mutate_market id cb c = (r, c') ->
  (exists m m', Markets c !! id = Some m /\ cb m = Ok m' /\
     r = Ok tt /\ c' = set_Markets (<[id := m']> (Markets c)) c) \/ c' = c.
Proof.
  unfold mutate_market, mbind, st_bind. cbn.
  destruct (Markets c !! id) as [m|] eqn:Hm; [|intros [= <- <-]; by right].
  unfold lift. destruct (cb m) as [m'|] eqn:Hcb; cbn; intros [= <- <-]; [left; eauto 10|by right].
Qed.

Lemma ids_ok_reach log c : commons_reach log c -> ids_ok log c.
Proof.
  induction 1 as [|log c m id c' _ IH H|log c b id m c' _ IH H|log c b e c' _ IH H
    |log c id cb r c' Hcb _ IH H|log c id r c' _ IH H|log c id p r c' _ IH H|log c id r c' _ IH H].
  - split_and!; cbn; [constructor|lia|set_solver|intros k m; by rewrite lookup_empty].
  - apply push_market_spec in H as [(? & [= <-] & -> & ->)|(? & ? & _)]; [|done].
    by apply ids_ok_insert.
  - apply build_market_spec in H as [(? & ? & [= <- <-] & -> & Hb & ->)|(? & ? & _)]; [|done].
    apply ids_ok_insert; [done|]. by eapply builder_market_id_id.
  - apply build_market_spec in H as [(? & ? & ? & _)|(? & _ & [->| ->])]; [done|done|].
    destruct IH as (? & ? & Hl & ?). split_and!; cbn; [done|lia| |done].
    intros i Hi. apply Hl in Hi. lia.
  - apply mutate_market_spec in H as [(m & m' & Hm & Hm' & _ & ->)| ->]; [|done].
    pose proof IH as (_ & _ & _ & Hk). apply ids_ok_markets; [done|].
    intros k m1 [[<- <-]|[_ H]]%lookup_insert_Some; [|by apply Hk].
    apply Hcb in Hm'. apply Hk in Hm as [??]. split; [done|congruence].
  - unfold remove_market, mbind, st_bind in H. cbn in H. case_bool_decide; cbn in H;
      injection H as _ <-; [|done].
    pose proof IH as (_ & _ & _ & Hk). apply ids_ok_markets; [done|].
    intros k m1 [_ H]%lookup_delete_Some. by apply Hk.
  - unfold insert_market_pool, mbind, st_bind, lift, ensure in H. cbn in H.
    repeat case_bool_decide; cbn in H; injection H as _ <-; exact IH.
  - unfold remove_market_pool, mbind, st_bind in H. cbn in H.
    case_bool_decide; cbn in H; injection H as _ <-; exact IH.
Qed.

(** The builder that has been given every field of [m]. *)
Definition full_builder (m : Market) : MarketBuilder :=
  mkBuilder (Some (market_id m)) (Some (base_asset m)) (Some (creator m)) (Some (creation m))
    (Some (creator_fee m)) (Some (oracle m)) (Some (metadata m)) (Some (market_type m))
    (Some (period m)) (Some (deadlines m)) (Some (scoring_rule m)) (Some (status m))
    (Some (report m)) (Some (resolved_outcome m)) (Some (dispute_mechanism m)) (Some (bonds m))
    (Some (early_close m)).

(** The builder filled by calling each setter once with the fields of [m]. *)
Definition fill_builder (m : Market) : MarketBuilder :=
  builder_early_close (early_close m) (builder_bonds (bonds m) (builder_dispute_mechanism
    (dispute_mechanism m) (builder_resolved_outcome (resolved_outcome m) (builder_report (report
    m) (builder_status (status m) (builder_scoring_rule (scoring_rule m) (builder_deadlines
    (deadlines m) (builder_period (period m) (builder_market_type (market_type m)
    (builder_metadata (metadata m) (builder_oracle (oracle m) (builder_creator_fee (creator_fee
    m) (builder_creation (creation m) (builder_creator (creator m) (builder_base_asset
    (base_asset m) (builder_market_id (market_id m) MarketBuilder_new)))))))))))))))).

(** Market ids are unique: in every history of the market-commons pallet
    the ids handed out are strictly increasing and lie below the counter, and
    every stored market sits under an id that was handed out and that its own
    [market_id] field repeats; a new market gets the next id, is readable
    under it, disturbs no other market, and is reported by
    [latest_market_id]. *)
Theorem market_ids_unique log c :
  commons_reach log c ->
  StronglySorted Z.lt log /\
  (forall k m, Markets c !! k = Some m ->
     k ∈ log /\ market_id m = k /\ k < default 0 (MarketCounter c)) /\
  (forall m id c', push_market m c = (Ok id, c') ->
     id ∉ log /\ Markets c !! id = None /\
     market c' id = Ok (set_market_id id m) /\
     latest_market_id c' = Ok id /\
     (forall k, k <> id -> Markets c' !! k = Markets c !! k)).
Proof.
  intros (Hs & H0 & Hl & Hk)%ids_ok_reach. split_and!; [done| |].
  - intros k m Hm. apply Hk in Hm as [??]. split_and!; [done..|]. by apply Hl.
  - intros m id c' [(? & [= <-] & -> & ->)|(? & ? & _)]%push_market_spec; [|done].
    split_and!.
    + intros Hin%Hl. lia.
    + apply eq_None_not_Some. intros [m' Hm']. apply Hk in Hm' as [Hin%Hl _]. lia.
    + unfold market. cbn. by rewrite lookup_insert_eq.
    + cbn. unfold saturating_sub. f_equal. lia.
    + intros k Hne. cbn. by rewrite lookup_insert_ne.
Qed.

(** The builder round trip: calling every setter with a market's fields and
    then [build] gives the market back; [build] returns exactly the market
    whose fields were set, whenever all of them were, and otherwise fails with
    [IncompleteMarketBuilder]; it never invents a field. *)
Theorem builder_roundtrip b :
  (forall m, build (fill_builder m) = Ok m) /\
  (forall m, build b = Ok m <-> b = full_builder m) /\
  (forall e, build b = Err e -> e = commons_error IncompleteMarketBuilder).
Proof.
  split_and!.
  - by intros [].
  - intros m. split; [|by intros ->; destruct m].
    intros H. unfold build in H.
    repeat (apply result_bind_ok in H as (? & ?%ok_or_ok & H)).
    injection H as <-. destruct b; cbn in *. by simplify_eq.
  - intros e H. unfold build in H.
    repeat (apply result_bind_err in H as [H|(? & _ & H)]; [by apply ok_or_err in H|]).
    discriminate H.
Qed.

(** The outcome assets of a market: there is one per outcome, they are
    pairwise distinct and carry the market's id, and for a categorical market
    the asset a report resolves to is one of them exactly when the report
    matches the market. *)
Theorem outcome_assets_spec m :
  0 <= outcomes m ->
  Z.of_nat (length (outcome_assets m)) = outcomes m /\
  NoDup (outcome_assets m) /\
  (forall r a, (exists i, r = Categorical i /\ 0 <= i) -> outcome_report_into_asset m r = Some a ->
     (a ∈ outcome_assets m <-> matches_outcome_report m r = true)).
Proof.
  unfold outcomes, outcome_assets, matches_outcome_report. intros Hn.
  assert (Hinj : forall i j, category_asset m i = category_asset m j -> i = j)
    by (intros i j; unfold category_asset; destruct (scoring_rule m); congruence).
  destruct (market_type m) as [k|lo hi]; split_and!.
  - rewrite length_fmap, length_seqZ. lia.
  - apply NoDup_fmap_2; [exact Hinj|]. apply NoDup_seqZ.
  - intros r a (i & -> & Hi) [= <-]. rewrite list_elem_of_fmap, Z.ltb_lt. split.
    + intros (j & Hj%Hinj & Hin%elem_of_seqZ). lia.
    + intros Hlt. exists i. split; [done|]. apply elem_of_seqZ. lia.
  - done.
  - repeat constructor; set_solver.
  - intros r a (i & -> & Hi) [= <-]. unfold category_asset.
    destruct (scoring_rule m); split; try discriminate; set_solver.
Qed.

(** *** Witnesses *)

(** A categorical market with three outcomes. *)
Definition demo_market : Market :=
  mkMarket 0 Tru 1%N Permissionless 0 2%N [] (CategoricalType 3) (BlockPeriod 1 10)
    (mkDeadlines 1 2 3) AmmCdaHybrid Active None None (Some Court) MarketBonds_default None.

Lemma market_ids_unique_witness :
  exists c log, commons_reach log c /\ log = [0; 1] /\
    StronglySorted Z.lt log /\ Markets c !! 1 = Some (set_market_id 1 demo_market).
Proof.
  pose (c1 := exec (push_market demo_market) (mkCommons ∅ None ∅)).
  pose (c2 := exec (push_market demo_market) c1).
  assert (H : commons_reach [0; 1] c2).
  { eapply (reach_push [0] c1 demo_market); [eapply (reach_push [] _ demo_market); [apply reach_genesis|]|];
      vm_compute; reflexivity. }
  exists c2, [0; 1]. split; [exact H|]. split; [done|].
  split; [apply (market_ids_unique [0; 1] c2 H)|vm_compute; reflexivity].
Defined.

Lemma outcome_assets_spec_witness :
  Z.of_nat (length (outcome_assets demo_market)) = 3 /\
  CategoricalOutcome 0 2 ∈ outcome_assets demo_market.
Proof.
  destruct (outcome_assets_spec demo_market ltac:(by vm_compute)) as (H1 & _ & H3).
  split; [exact H1|]. apply (H3 (Categorical 2) (CategoricalOutcome 0 2)); [|done..].
  exists 2. split; [done|lia].
Defined.
