(* ===== verification/MarketEncoding.v ===== *)
(** * The size of a market in storage

    The hand-written [MaxEncodedLen] implementations of
    [src/primitives/prediction-market/src/market.rs] and the SCALE encoding they
    bound: fixed-width numbers in little endian, the index of an enumeration's
    constructor before its fields, a byte before an option, the compact length
    before a vector, and the fields of a record one after another.  Accounts have
    32 bytes, balances and ids 16, blocks 4, moments 8, as in the runtime. *)

From S2P Require Import Prelude Market.

(** ** Upper bounds *)

Abbreviation saturating_adds := (foldl (saturating_add 64)).

Definition account_len : Z := 32.
Definition u128_len : Z := 16.
Definition u32_len : Z := 4.
Definition u64_len : Z := 8.
Definition u16_len : Z := 2.

(** The derived bounds: fields are added up, of constructors the largest counts. *)
Definition enum_max (constructors : list Z) : Z := 1 + foldr Z.max 0 constructors.
Definition option_max (l : Z) : Z := 1 + l.

Definition Asset_max_len : Z :=
  enum_max [u128_len + u16_len; u128_len + enum_max [0; 0]; 0; u128_len; 0; u32_len; u128_len + u16_len].
Definition OutcomeReport_max_len : Z := enum_max [u16_len; u128_len].

(** [MarketPeriod::max_encoded_len] *)
Definition MarketPeriod_max_encoded_len : Z :=
  saturating_add 64 (saturating_mul 64 (Z.max u32_len u64_len) 2) 1.

(** [MarketType::max_encoded_len] *)
Definition MarketType_max_encoded_len : Z := saturating_add 64 (saturating_mul 64 u128_len 2) 1.

Definition Deadlines_max_len : Z := u32_len + u32_len + u32_len.
Definition Report_max_len : Z := u32_len + account_len + OutcomeReport_max_len.
Definition Bond_max_len : Z := account_len + u128_len + 1.
Definition MarketBonds_max_len : Z := 6 * option_max Bond_max_len.
Definition EarlyClose_max_len : Z := MarketPeriod_max_encoded_len + MarketPeriod_max_encoded_len + enum_max [0; 0; 0; 0].

(** [Market::max_encoded_len], in the order of the source. *)
Definition Market_max_encoded_len : Z :=
  saturating_adds account_len
    [ u128_len; Asset_max_len; enum_max [0; 0]; u32_len; account_len; saturating_mul 64 1 68;
      MarketType_max_encoded_len; MarketPeriod_max_encoded_len; Deadlines_max_len; enum_max [0; 0]; enum_max [0; 0; 0; 0; 0; 0];
      option_max Report_max_len; option_max OutcomeReport_max_len; option_max (enum_max [0; 0]); MarketBonds_max_len;
      option_max EarlyClose_max_len ].

(** ** The encoding *)

Definition le_bytes (k : nat) (n : Z) : list Z := (fun i => Z.land (Z.shiftr n (8 * Z.of_nat i)) 255) <$> seq 0 k.
Definition enc_u128 := le_bytes 16.
Definition enc_u64 := le_bytes 8.
Definition enc_u32 := le_bytes 4.
Definition enc_u16 := le_bytes 2.
Definition enc_account (a : AccountId) : list Z := le_bytes 32 (Z.of_N a).
Definition enc_bool (b : bool) : list Z := [Z.b2z b].
Definition enc_option {A} (enc : A -> list Z) (o : option A) : list Z :=
  match o with None => [0] | Some x => 1 :: enc x end.

(** Compact integers; lengths from [2 ^ 30] on do not occur in storage. *)
Definition enc_compact (n : Z) : list Z :=
  if n <? 64 then [4 * n] else if n <? 2 ^ 14 then le_bytes 2 (4 * n + 1) else le_bytes 4 (4 * n + 2).
Definition enc_vec (l : list Z) : list Z := enc_compact (Z.of_nat (length l)) ++ l.

Definition enc_position (p : ScalarPosition) : list Z := match p with Long => [0] | Short => [1] end.
Definition enc_asset (a : Asset) : list Z :=
  match a with
  | CategoricalOutcome m c => 0 :: enc_u128 m ++ enc_u16 c
  | ScalarOutcome m p => 1 :: enc_u128 m ++ enc_position p
  | CombinatorialOutcome => [2]
  | PoolShare p => 3 :: enc_u128 p
  | Tru => [4]
  | ForeignAsset i => 5 :: enc_u32 i
  | ParimutuelShare m c => 6 :: enc_u128 m ++ enc_u16 c
  end.
Definition enc_outcome (o : OutcomeReport) : list Z :=
  match o with Categorical i => 0 :: enc_u16 i | Scalar v => 1 :: enc_u128 v end.
Definition enc_period (p : MarketPeriod) : list Z :=
  match p with
  | BlockPeriod start stop => 0 :: enc_u32 start ++ enc_u32 stop
  | TimestampPeriod start stop => 1 :: enc_u64 start ++ enc_u64 stop
  end.
Definition enc_market_type (t : MarketType) : list Z :=
  match t with CategoricalType n => 0 :: enc_u16 n | ScalarType low high => 1 :: enc_u128 low ++ enc_u128 high end.
Definition enc_creation (c : MarketCreation) : list Z := match c with Permissionless => [0] | Advised => [1] end.
Definition enc_scoring (r : ScoringRule) : list Z := match r with AmmCdaHybrid => [0] | Parimutuel => [1] end.
Definition enc_status (s : MarketStatus) : list Z :=
  match s with Proposed => [0] | Active => [1] | Closed => [2] | Reported => [3] | Disputed => [4] | Resolved => [5] end.
Definition enc_mechanism (d : MarketDisputeMechanism) : list Z := match d with Authorized => [0] | Court => [1] end.
Definition enc_early_state (s : EarlyCloseState) : list Z :=
  match s with ScheduledAsMarketCreator => [0] | ScheduledAsOther => [1] | EarlyCloseDisputed => [2] | EarlyCloseRejected => [3] end.
Definition enc_early_close (e : EarlyClose) : list Z := enc_period (ec_old e) ++ enc_period (ec_new e) ++ enc_early_state (ec_state e).
Definition enc_deadlines (d : Deadlines) : list Z := enc_u32 (grace_period d) ++ enc_u32 (oracle_duration d) ++ enc_u32 (dispute_duration d).
Definition enc_report (r : Report) : list Z := enc_u32 (report_at r) ++ enc_account (report_by r) ++ enc_outcome (report_outcome r).
Definition enc_bond (b : Bond) : list Z := enc_account (bond_who b) ++ enc_u128 (bond_value b) ++ enc_bool (is_settled b).
Definition enc_bonds (b : MarketBonds) : list Z :=
  enc_option enc_bond (creation_bond b) ++ enc_option enc_bond (oracle_bond b) ++ enc_option enc_bond (outsider_bond b) ++
  enc_option enc_bond (dispute_bond b) ++ enc_option enc_bond (close_request_bond b) ++ enc_option enc_bond (close_dispute_bond b).

Definition encode_market (m : Market) : list Z :=
  enc_u128 (market_id m) ++ enc_asset (base_asset m) ++ enc_account (creator m) ++ enc_creation (creation m) ++ enc_u32 (creator_fee m) ++
  enc_account (oracle m) ++ enc_vec (metadata m) ++ enc_market_type (market_type m) ++ enc_period (period m) ++ enc_deadlines (deadlines m) ++
  enc_scoring (scoring_rule m) ++ enc_status (status m) ++ enc_option enc_report (report m) ++ enc_option enc_outcome (resolved_outcome m) ++
  enc_option enc_mechanism (dispute_mechanism m) ++ enc_bonds (bonds m) ++ enc_option enc_early_close (early_close m).

(** ** Encodings fit *)

Definition len (l : list Z) : Z := Z.of_nat (length l).

Lemma len_app l l' : len (l ++ l') = len l + len l'.
Proof. unfold len. rewrite length_app. lia. Qed.
Lemma len_cons x l : len (x :: l) = 1 + len l.
Proof. unfold len. cbn [length]. lia. Qed.
Lemma len_le_bytes k n : len (le_bytes k n) = Z.of_nat k.
Proof. unfold len, le_bytes. by rewrite length_fmap, length_seq. Qed.
Lemma len_option {A} (enc : A -> list Z) o k : 0 <= k -> (forall x, len (enc x) <= k) -> len (enc_option enc o) <= option_max k.
Proof. intros Hk He. unfold option_max. destruct o as [x|]; cbn [enc_option]; rewrite ?len_cons; [specialize (He x); lia|]. unfold len. cbn. lia. Qed.
Lemma len_vec l : len l <= 66 -> len (enc_vec l) <= 68.
Proof.
  unfold enc_vec. rewrite len_app. intros Hl. assert (len (enc_compact (Z.of_nat (length l))) <= 2); [|lia].
  unfold enc_compact. destruct (Z.ltb_spec (Z.of_nat (length l)) 64); [done|]. rewrite (proj2 (Z.ltb_lt (Z.of_nat (length l)) (2 ^ 14))) by (unfold len in Hl; lia).
  by rewrite len_le_bytes.
Qed.

Create HintDb enc_len.
#[local] Hint Rewrite len_app len_cons len_le_bytes : enc_len.
Ltac enc_len := autorewrite with enc_len; unfold len; cbn [length]; lia.

Lemma len_u128 n : len (enc_u128 n) = 16.
Proof. apply len_le_bytes. Qed.
Lemma len_u64 n : len (enc_u64 n) = 8.
Proof. apply len_le_bytes. Qed.
Lemma len_u32 n : len (enc_u32 n) = 4.
Proof. apply len_le_bytes. Qed.
Lemma len_u16 n : len (enc_u16 n) = 2.
Proof. apply len_le_bytes. Qed.
Lemma len_account a : len (enc_account a) = 32.
Proof. apply len_le_bytes. Qed.
#[local] Hint Rewrite len_u128 len_u64 len_u32 len_u16 len_account : enc_len.

Lemma len_asset a : len (enc_asset a) <= Asset_max_len.
Proof. change Asset_max_len with 19. destruct a as [| ? [] | | | | |]; cbn [enc_asset enc_position]; enc_len. Qed.
Lemma len_outcome o : len (enc_outcome o) <= OutcomeReport_max_len.
Proof. change OutcomeReport_max_len with 17. destruct o; cbn [enc_outcome]; enc_len. Qed.
Lemma len_period p : len (enc_period p) <= MarketPeriod_max_encoded_len.
Proof. change MarketPeriod_max_encoded_len with 17. destruct p; cbn [enc_period]; enc_len. Qed.
Lemma len_market_type t : len (enc_market_type t) <= MarketType_max_encoded_len.
Proof. change MarketType_max_encoded_len with 33. destruct t; cbn [enc_market_type]; enc_len. Qed.
Lemma len_report r : len (enc_report r) <= Report_max_len.
Proof. change Report_max_len with (4 + 32 + OutcomeReport_max_len). unfold enc_report. pose proof (len_outcome (report_outcome r)). autorewrite with enc_len. lia. Qed.
Lemma len_bond b : len (enc_bond b) <= Bond_max_len.
Proof. change Bond_max_len with 49. unfold enc_bond, enc_bool. enc_len. Qed.
Lemma len_bonds b : len (enc_bonds b) <= MarketBonds_max_len.
Proof.
  pose proof (fun o => len_option enc_bond o Bond_max_len ltac:(discriminate) len_bond) as Hb. unfold enc_bonds, MarketBonds_max_len.
  rewrite !len_app. pose proof (Hb (creation_bond b)). pose proof (Hb (oracle_bond b)). pose proof (Hb (outsider_bond b)).
  pose proof (Hb (dispute_bond b)). pose proof (Hb (close_request_bond b)). pose proof (Hb (close_dispute_bond b)). lia.
Qed.
Lemma len_early_close e : len (enc_early_close e) <= EarlyClose_max_len.
Proof.
  unfold EarlyClose_max_len, enc_early_close. rewrite !len_app. pose proof (len_period (ec_old e)). pose proof (len_period (ec_new e)).
  assert (len (enc_early_state (ec_state e)) = 1) as -> by (by destruct (ec_state e)). change (enum_max [0; 0; 0; 0]) with 1. lia.
Qed.

(** C40. The hand-written bound on the size of a market in storage is right: a
    market whose metadata has at most the 66 bytes the code allows for is encoded
    in no more bytes than [max_encoded_len], whatever its type, period, report,
    bonds and early close. *)
Theorem market_fits_bound m : Z.of_nat (length (metadata m)) <= 66 -> Z.of_nat (length (encode_market m)) <= Market_max_encoded_len.
Proof.
  intros Hmeta. change (len (encode_market m) <= Market_max_encoded_len).
  assert (Hbound : Market_max_encoded_len = 16 + Asset_max_len + 32 + 1 + 4 + 32 + 68 + MarketType_max_encoded_len + MarketPeriod_max_encoded_len + 12 + 1 + 1 +
    option_max Report_max_len + option_max OutcomeReport_max_len + option_max 1 + MarketBonds_max_len + option_max EarlyClose_max_len) by reflexivity.
  rewrite Hbound. clear Hbound. unfold encode_market, enc_deadlines. rewrite !len_app, len_u128, !len_account, !len_u32.
  pose proof (len_asset (base_asset m)). pose proof (len_vec (metadata m) Hmeta). pose proof (len_market_type (market_type m)). pose proof (len_period (period m)).
  pose proof (len_option enc_report (report m) Report_max_len ltac:(discriminate) len_report).
  pose proof (len_option enc_outcome (resolved_outcome m) OutcomeReport_max_len ltac:(discriminate) len_outcome).
  pose proof (len_option enc_mechanism (dispute_mechanism m) 1 ltac:(discriminate) ltac:(by intros [])).
  pose proof (len_bonds (bonds m)). pose proof (len_option enc_early_close (early_close m) EarlyClose_max_len ltac:(discriminate) len_early_close).
  assert (len (enc_creation (creation m)) = 1) as -> by (by destruct (creation m)).
  assert (len (enc_scoring (scoring_rule m)) = 1) as -> by (by destruct (scoring_rule m)).
  assert (len (enc_status (status m)) = 1) as -> by (by destruct (status m)). lia.
Qed.

(** The largest market takes up the whole bound. *)
Definition largest_market : Market :=
  let b := Some (mkBond 1%N 1 false) in
  mkMarket 1 (CategoricalOutcome 1 1) 1%N Advised 0 2%N (replicate 66 7) (ScalarType 0 1) (TimestampPeriod 0 1) (mkDeadlines 1 2 3) AmmCdaHybrid Disputed
    (Some (mkReport 1 1%N (Scalar 5))) (Some (Scalar 5)) (Some Court) (mkMarketBonds b b b b b b)
    (Some (mkEarlyClose (TimestampPeriod 0 2) (TimestampPeriod 0 1) EarlyCloseDisputed)).

Lemma market_fits_bound_witness : Z.of_nat (length (encode_market largest_market)) <= Market_max_encoded_len /\
  Z.of_nat (length (encode_market largest_market)) = Market_max_encoded_len.
Proof. split; [apply (market_fits_bound largest_market); vm_compute; discriminate|vm_compute; reflexivity]. Defined.
