(* ===== verification/Authorized.v ===== *)
(** * The authorized pallet

    [pallets/authorized/src/lib.rs]: an authority decides disputed markets, and
    may correct itself until the market is resolved.  Block numbers are [u32];
    the weights of the results are left out. *)

From S2P Require Import Prelude Errors Interfaces Market.

Class AuthorizedConfig := {
  AuthQueue : Type;
  auth_dispute_resolution :: DisputeResolutionApi AuthQueue;
  CorrectionPeriod : Z;
  AuthorizedDisputeResolutionOrigin : Origin -> bool;
  (** [NegativeImbalance] of the currency *)
  AuthImbalance : Type }.

Inductive AuthorizedEvent := AuthorityReported (market_id : Z) (outcome : OutcomeReport).

Section Authorized.
Context `{AuthorizedConfig}.

Record AuthState := mkAuth {
  AuthorizedOutcomeReports : gmap Z AuthorityReport;
  auth_queue : AuthQueue;
  auth_commons : MarketCommons;
  auth_block : Z;
  auth_events : list AuthorizedEvent }.

Definition set_AuthorizedOutcomeReports x s :=
  mkAuth x (auth_queue s) (auth_commons s) (auth_block s) (auth_events s).
Definition set_auth_queue x s :=
  mkAuth (AuthorizedOutcomeReports s) x (auth_commons s) (auth_block s) (auth_events s).
Definition set_auth_events x s :=
  mkAuth (AuthorizedOutcomeReports s) (auth_queue s) (auth_commons s) (auth_block s) x.

Abbreviation AuthM := (ST DispatchError AuthState).

Definition authorized_error (e : AuthorizedError) : DispatchError := Module_ (AuthorizedErr e).

Definition auth_ensure_dispute_mechanism (m : Market) : Res unit :=
  ensure (bool_decide (dispute_mechanism m = Some Authorized))
    (authorized_error MarketDoesNotHaveDisputeMechanismAuthorized).

Definition auth_on_queue {A} (f : ST DispatchError AuthQueue A) : AuthM A := fun s =>
  let '(r, q) := f (auth_queue s) in (r, set_auth_queue q s).

Definition authorize_market_outcome (origin : Origin) (market_id : Z) (outcome : OutcomeReport) : AuthM unit :=
  transactional (
    lift (ensure (AuthorizedDisputeResolutionOrigin origin) BadOrigin) ;;
    s ← get;
    m ← lift (market (auth_commons s) market_id);
    lift (ensure (bool_decide (status m = Disputed)) (authorized_error AuthorizedMarketIsNotDisputed)) ;;
    lift (ensure (matches_outcome_report m outcome) (authorized_error AuthorizedOutcomeMismatch)) ;;
    lift (auth_ensure_dispute_mechanism m) ;;
    r ←
      match AuthorizedOutcomeReports s !! market_id with
      | Some r => mret (mkAuthorityReport (resolve_at r) outcome)
      | None =>
          let resolve_at := saturating_add 32 (auth_block s) CorrectionPeriod in
          auth_on_queue (add_auto_resolve market_id resolve_at) ;;
          mret (mkAuthorityReport resolve_at outcome)
      end;
    modify (fun s => set_AuthorizedOutcomeReports (<[market_id := r]> (AuthorizedOutcomeReports s)) s) ;;
    modify (fun s => set_auth_events (auth_events s ++ [AuthorityReported market_id outcome]) s)).

(** ** [DisputeApi] *)

Definition auth_on_dispute (market_id : Z) (m : Market) : AuthM unit := lift (auth_ensure_dispute_mechanism m).

(** [AuthorizedOutcomeReports::take]. *)
Definition auth_on_resolution (market_id : Z) (m : Market) : AuthM (option OutcomeReport) :=
  lift (auth_ensure_dispute_mechanism m) ;;
  s ← get;
  modify (fun s => set_AuthorizedOutcomeReports (delete market_id (AuthorizedOutcomeReports s)) s) ;;
  mret (ar_outcome <$> AuthorizedOutcomeReports s !! market_id).

(** All funds go to the treasury. *)
Definition auth_exchange (market_id : Z) (m : Market) (resolved_outcome : OutcomeReport) (overall_imbalance : AuthImbalance) :
    AuthM AuthImbalance :=
  lift (auth_ensure_dispute_mechanism m) ;; mret overall_imbalance.

Definition auth_get_auto_resolve (market_id : Z) (m : Market) (s : AuthState) : option Z :=
  if bool_decide (dispute_mechanism m = Some Authorized)
  then resolve_at <$> AuthorizedOutcomeReports s !! market_id
  else None.

Definition auth_has_failed (market_id : Z) (m : Market) : Res bool :=
  auth_ensure_dispute_mechanism m ;; Ok false.

Definition auth_on_global_dispute (market_id : Z) (m : Market) : AuthM (list GlobalDisputeItem) :=
  lift (auth_ensure_dispute_mechanism m) ;; mret [].

Definition auth_clear (market_id : Z) (m : Market) : AuthM unit :=
  lift (auth_ensure_dispute_mechanism m) ;;
  modify (fun s => set_AuthorizedOutcomeReports (delete market_id (AuthorizedOutcomeReports s)) s).

(** ** The authority decides *)

Context `{!DisputeResolutionLaws AuthQueue}.

(** The reports of the authority are queued: every stored report has its market
    in the queue at [resolve_at]. *)
Definition reports_queued (s : AuthState) : Prop :=
  forall id r, AuthorizedOutcomeReports s !! id = Some r -> auto_resolve_exists id (resolve_at r) (auth_queue s) = true.

Lemma authorize_spec origin id o s s' : authorize_market_outcome origin id o s = (Ok tt, s') ->
  exists m q at_, market (auth_commons s) id = Ok m /\ status m = Disputed /\ matches_outcome_report m o = true /\
    dispute_mechanism m = Some Authorized /\
    s' = mkAuth (<[id := mkAuthorityReport at_ o]> (AuthorizedOutcomeReports s)) q (auth_commons s) (auth_block s)
           (auth_events s ++ [AuthorityReported id o]) /\
    match AuthorizedOutcomeReports s !! id with
    | Some r => at_ = resolve_at r /\ q = auth_queue s
    | None => at_ = saturating_add 32 (auth_block s) CorrectionPeriod /\
              exists n, add_auto_resolve id at_ (auth_queue s) = (Ok n, q)
    end.
Proof.
  intros Hr%transactional_ok. apply bind_ok in Hr as (u & s1 & [_ ->]%lift_ok & Hr).
  apply bind_ok in Hr as (s0 & s1 & [-> ->]%get_ok & Hr). apply bind_ok in Hr as (m & s1 & [Hm ->]%lift_ok & Hr).
  apply bind_ok in Hr as (u1 & s1 & [Hst%ensure_ok ->]%lift_ok & Hr).
  apply bind_ok in Hr as (u2 & s1 & [Hmo%ensure_ok ->]%lift_ok & Hr).
  apply bind_ok in Hr as (u3 & s1 & [Hmech%ensure_ok ->]%lift_ok & Hr).
  apply bool_decide_eq_true in Hst, Hmech. apply bind_ok in Hr as (r & s1 & Hrep & Hr).
  apply bind_ok in Hr as (u4 & s2 & [_ ->]%modify_ok & [_ ->]%modify_ok).
  exists m, (auth_queue s1), (resolve_at r). destruct (AuthorizedOutcomeReports s !! id) as [r0|] eqn:Hr0.
  - apply mret_ok in Hrep as [-> ->]. done.
  - apply bind_ok in Hrep as (n & s2 & Hq & [-> ->]%mret_ok). unfold auth_on_queue in Hq.
    destruct (add_auto_resolve _ _ _) as [rq q] eqn:Ha. injection Hq as -> <-. split_and!; try done. by exists n.
Qed.

(** What the authority says stands: after a successful report the market is
    a disputed one of the authority's and is queued for resolution (a correction
    keeps the block it was queued at, a first report comes [CorrectionPeriod]
    blocks before it), resolving it returns exactly the last reported outcome
    and forgets the report, and all other reports stand. *)
Theorem authority_decides origin id o s s' m : reports_queued s -> authorize_market_outcome origin id o s = (Ok tt, s') ->
  Markets (auth_commons s) !! id = Some m ->
  reports_queued s' /\ status m = Disputed /\
  auth_get_auto_resolve id m s' =
    Some (default (saturating_add 32 (auth_block s) CorrectionPeriod) (auth_get_auto_resolve id m s)) /\
  (forall b, auth_get_auto_resolve id m s' = Some b -> auto_resolve_exists id b (auth_queue s') = true) /\
  (exists s2, auth_on_resolution id m s' = (Ok (Some o), s2) /\ auth_on_resolution id m s2 = (Ok None, s2) /\
     forall id', id' <> id -> AuthorizedOutcomeReports s2 !! id' = AuthorizedOutcomeReports s !! id').
Proof.
  intros Hq (m' & q & at_ & Hm & Hst & Hmo & Hmech & -> & Hcase)%authorize_spec Hm'.
  assert (m' = m) as -> by (unfold market in Hm; rewrite Hm' in Hm; by injection Hm). clear Hm.
  assert (Hqd : forall id' r, <[id := mkAuthorityReport at_ o]> (AuthorizedOutcomeReports s) !! id' = Some r ->
    auto_resolve_exists id' (resolve_at r) q = true).
  { intros id' r [[<- <-]|[Hne Hr]]%lookup_insert_Some.
    - destruct (AuthorizedOutcomeReports s !! id) as [r0|] eqn:Hr0; [destruct Hcase as [-> ->]; exact (Hq id r0 Hr0)|].
      destruct Hcase as [-> [n Ha]]. by eapply add_exists.
    - destruct (AuthorizedOutcomeReports s !! id) as [r0|] eqn:Hr0; [destruct Hcase as [-> ->]; by apply Hq|].
      destruct Hcase as [-> [n Ha]]. rewrite (add_other _ _ _ _ _ _ _ Ha) by congruence. by apply Hq. }
  assert (Hget : auth_get_auto_resolve id m (mkAuth (<[id := mkAuthorityReport at_ o]> (AuthorizedOutcomeReports s)) q
    (auth_commons s) (auth_block s) (auth_events s ++ [AuthorityReported id o])) = Some at_)
    by (unfold auth_get_auto_resolve; cbn; by rewrite bool_decide_eq_true_2, lookup_insert_eq).
  split_and!; [done|done| | |].
  - rewrite Hget. unfold auth_get_auto_resolve. rewrite bool_decide_eq_true_2 by done.
    destruct (AuthorizedOutcomeReports s !! id) as [r0|]; cbn; [by destruct Hcase as [-> _]|by destruct Hcase as [<- _]].
  - intros b. rewrite Hget. intros [= <-]. apply (Hqd id (mkAuthorityReport at_ o)), lookup_insert_eq.
  - unfold auth_on_resolution, auth_ensure_dispute_mechanism, mbind, st_bind, lift, get, modify, mret, st_ret.
    rewrite bool_decide_eq_true_2 by done. cbn. rewrite lookup_insert_eq. eexists. split_and!; [done| |].
    + cbn. rewrite lookup_delete_eq, delete_delete_eq. done.
    + intros id' Hne. cbn. by rewrite lookup_delete_ne, lookup_insert_ne.
Qed.
End Authorized.
