(* ===== verification/GlobalDisputes.v ===== *)
(** * The global-disputes pallet

    [pallets/global-disputes/src/lib.rs] and [types.rs]: token holders vote with
    locked funds on the outcome of a market whose dispute mechanism failed.  The
    currency, the storage order of the outcomes and the lookup of accounts are
    parameters; the queue of resolutions is any [DisputeResolutionApi].  Balances
    are [u128], block numbers [u32].  Debug assertions are off and the weights
    the calls return are left out. *)

From S2P Require Import Prelude Errors Collections Interfaces Balances Market.

(** ** Types *)

Inductive Possession :=
| Paid (owner : AccountId) (fee : Z)
| Shared (owners : list AccountId).

Definition get_shared_owners (p : Possession) : option (list AccountId) :=
  match p with Shared owners => Some owners | _ => None end.

Record OutcomeInfo := mkOutcomeInfo { outcome_sum : Z; possession : Possession }.

Inductive GdStatus := GdActive (add_outcome_end vote_end : Z) | GdFinished | GdDestroyed.

Record GlobalDisputeInfo := mkGdInfo {
  winner_outcome : OutcomeReport; outcome_info : OutcomeInfo; gd_status : GdStatus }.

(** [add_outcome_end] and [vote_end] start at the default block. *)
Definition GlobalDisputeInfo_new (outcome : OutcomeReport) (p : Possession) (vote_sum : Z) : GlobalDisputeInfo :=
  mkGdInfo outcome (mkOutcomeInfo vote_sum p) (GdActive 0 0).

Definition GlobalDisputeInfo_update_winner (outcome : OutcomeReport) (vote_sum : Z) (g : GlobalDisputeInfo) : GlobalDisputeInfo :=
  mkGdInfo outcome (mkOutcomeInfo vote_sum (possession (outcome_info g))) (gd_status g).

Definition set_gd_status (x : GdStatus) (g : GlobalDisputeInfo) : GlobalDisputeInfo :=
  mkGdInfo (winner_outcome g) (outcome_info g) x.
Definition set_outcome_info (x : OutcomeInfo) (g : GlobalDisputeInfo) : GlobalDisputeInfo :=
  mkGdInfo (winner_outcome g) x (gd_status g).

Record InitialItem := mkInitialItem { item_outcome : OutcomeReport; item_owner : AccountId; item_amount : Z }.

#[global] Instance gd_status_eq_dec : EqDecision GdStatus.
Proof. solve_decision. Defined.
#[global] Instance outcome_report_countable : Countable OutcomeReport.
Proof.
  refine (inj_countable' (fun r => match r with Categorical i => inl i | Scalar v => inr v end)
    (fun r => match r with inl i => Categorical i | inr v => Scalar v end) _).
  by intros [].
Defined.

(** ** Configuration and storage *)

Class GdConfig := {
  GdLedger : Type;
  gd_balances :: Balances GdLedger;
  GdQueue : Type;
  gd_dispute_resolution :: DisputeResolutionApi GdQueue;
  AddOutcomePeriod : Z;
  GdVotingPeriod : Z;
  GlobalDisputeLockId : Z;
  MaxGlobalDisputeVotes : Z;
  MaxOwners : Z;
  MinOutcomeVoteAmount : Z;
  RemoveKeysLimit : Z;
  VotingOutcomeFee : Z;
  (** [into_sub_account_truncating] of the pallet id *)
  reward_account : Z -> AccountId;
  (** [T::Lookup::lookup] *)
  gd_lookup : Z -> Res AccountId;
  (** the order in which the storage iterates over the outcomes of a market *)
  gd_iter : Z -> gmap OutcomeReport OutcomeInfo -> list (OutcomeReport * OutcomeInfo) }.

Inductive GdEvent :=
| AddedVotingOutcome (market_id : Z) (owner : AccountId) (outcome : OutcomeReport)
| GlobalDisputeWinnerDetermined (market_id : Z)
| OutcomeOwnersRewarded (market_id : Z) (owners : list AccountId)
| OutcomeOwnerRewarded (market_id : Z) (owner : AccountId)
| OutcomesPartiallyCleaned (market_id : Z)
| OutcomesFullyCleaned (market_id : Z)
| VotedOnOutcome (voter : AccountId) (market_id : Z) (outcome : OutcomeReport) (vote_amount : Z).

Section GlobalDisputes.
Context `{GdConfig}.

(** [Locks] and the double map [Outcomes] default to empty. *)
Record GdState := mkGd {
  gd_ledger : GdLedger;
  Locks : gmap AccountId (list (Z * Z));
  Outcomes : gmap Z (gmap OutcomeReport OutcomeInfo);
  GlobalDisputesInfo : gmap Z GlobalDisputeInfo;
  gd_queue : GdQueue;
  gd_commons : MarketCommons;
  gd_block : Z;
  gd_events : list GdEvent }.

Definition set_gd_ledger x s :=
  mkGd x (Locks s) (Outcomes s) (GlobalDisputesInfo s) (gd_queue s) (gd_commons s) (gd_block s) (gd_events s).
Definition set_Locks x s :=
  mkGd (gd_ledger s) x (Outcomes s) (GlobalDisputesInfo s) (gd_queue s) (gd_commons s) (gd_block s) (gd_events s).
Definition set_Outcomes x s :=
  mkGd (gd_ledger s) (Locks s) x (GlobalDisputesInfo s) (gd_queue s) (gd_commons s) (gd_block s) (gd_events s).
Definition set_GlobalDisputesInfo x s :=
  mkGd (gd_ledger s) (Locks s) (Outcomes s) x (gd_queue s) (gd_commons s) (gd_block s) (gd_events s).
Definition set_gd_queue x s :=
  mkGd (gd_ledger s) (Locks s) (Outcomes s) (GlobalDisputesInfo s) x (gd_commons s) (gd_block s) (gd_events s).
Definition set_gd_commons x s :=
  mkGd (gd_ledger s) (Locks s) (Outcomes s) (GlobalDisputesInfo s) (gd_queue s) x (gd_block s) (gd_events s).
Definition set_gd_block x s :=
  mkGd (gd_ledger s) (Locks s) (Outcomes s) (GlobalDisputesInfo s) (gd_queue s) (gd_commons s) x (gd_events s).
Definition set_gd_events x s :=
  mkGd (gd_ledger s) (Locks s) (Outcomes s) (GlobalDisputesInfo s) (gd_queue s) (gd_commons s) (gd_block s) x.

Abbreviation GdM := (ST DispatchError GdState).

Definition gd_error (e : GlobalDisputesError) : DispatchError := Module_ (GlobalDisputesErr e).
Definition deposit_gd_event (e : GdEvent) : GdM unit := modify (fun s => set_gd_events (gd_events s ++ [e]) s).
Definition gd_on_ledger {A} (m : ST DispatchError GdLedger A) : GdM A := fun s =>
  let '(r, l) := m (gd_ledger s) in (r, set_gd_ledger l s).
Definition gd_on_queue {A} (m : ST DispatchError GdQueue A) : GdM A := fun s =>
  let '(r, q) := m (gd_queue s) in (r, set_gd_queue q s).

Definition locks_of (who : AccountId) (s : GdState) : list (Z * Z) := default [] (Locks s !! who).
Definition outcomes_of (id : Z) (s : GdState) : gmap OutcomeReport OutcomeInfo := default ∅ (Outcomes s !! id).
Definition set_outcomes_of (id : Z) (os : gmap OutcomeReport OutcomeInfo) (s : GdState) : GdState :=
  set_Outcomes (<[id := os]> (Outcomes s)) s.
Definition insert_outcome (id : Z) (o : OutcomeReport) (i : OutcomeInfo) (s : GdState) : GdState :=
  set_outcomes_of id (<[o := i]> (outcomes_of id s)) s.
Definition insert_info (id : Z) (g : GlobalDisputeInfo) (s : GdState) : GdState :=
  set_GlobalDisputesInfo (<[id := g]> (GlobalDisputesInfo s)) s.
Definition get_info (id : Z) : GdM GlobalDisputeInfo :=
  s ← get; lift (ok_or (GlobalDisputesInfo s !! id) (gd_error GlobalDisputeNotFound)).

(** [Outcomes::drain_prefix(market_id).take(RemoveKeysLimit)]: the drained
    outcomes, in storage order. *)
Definition drain_outcomes (id : Z) : GdM (list OutcomeInfo) :=
  s ← get;
  let drained := take (Z.to_nat RemoveKeysLimit) (gd_iter id (outcomes_of id s)) in
  modify (set_outcomes_of id (foldr delete (outcomes_of id s) drained.*1)) ;;
  mret drained.*2.

(** The event of a clean-up. *)
Definition deposit_cleaned (id : Z) : GdM unit :=
  s ← get;
  deposit_gd_event (if bool_decide (outcomes_of id s = ∅) then OutcomesFullyCleaned id else OutcomesPartiallyCleaned id).

(** ** The leading outcome *)

Definition update_winner (id : Z) (outcome : OutcomeReport) (i : OutcomeInfo) : GdM unit :=
  let amount := outcome_sum i in
  modify (fun s =>
    insert_info id
      match GlobalDisputesInfo s !! id with
      | None => GlobalDisputeInfo_new outcome (possession i) amount
      | Some prev =>
          if outcome_sum (outcome_info prev) <=? amount
          then GlobalDisputeInfo_update_winner outcome amount prev
          else prev
      end s).

(** ** Calls *)

Definition add_vote_outcome (origin : Origin) (id : Z) (outcome : OutcomeReport) : GdM unit := transactional (
  owner ← lift (ensure_signed origin);
  s ← get;
  m ← lift (market (gd_commons s) id);
  lift (ensure (matches_outcome_report m outcome) (gd_error GdOutcomeMismatch)) ;;
  gd_info ← get_info id;
  match gd_status gd_info with
  | GdActive add_outcome_end _ =>
      lift (ensure (gd_block s <=? add_outcome_end) (gd_error AddOutcomePeriodIsOver))
  | _ => fail (gd_error InvalidGlobalDisputeStatus)
  end ;;
  lift (ensure (negb (bool_decide (is_Some (outcomes_of id s !! outcome)))) (gd_error OutcomeAlreadyExists)) ;;
  gd_on_ledger (b_transfer owner (reward_account id) VotingOutcomeFee KeepAlive) ;;
  let i := mkOutcomeInfo VotingOutcomeFee (Paid owner VotingOutcomeFee) in
  update_winner id outcome i ;;
  modify (insert_outcome id outcome i) ;;
  deposit_gd_event (AddedVotingOutcome id owner outcome)).

(** A failed refund is ignored. *)
Definition refund_outcome (id : Z) (i : OutcomeInfo) : GdM unit :=
  match possession i with
  | Paid owner fee =>
      attempt (gd_on_ledger (b_transfer (reward_account id) owner fee AllowDeath)) ;; mret tt
  | Shared _ => mret tt
  end.

Definition refund_vote_fees (origin : Origin) (id : Z) : GdM unit := transactional (
  lift (ensure_signed origin) ;;
  gd_info ← get_info id;
  lift (ensure (bool_decide (gd_status gd_info = GdDestroyed)) (gd_error GlobalDisputeNotDestroyed)) ;;
  drained ← drain_outcomes id;
  for_each drained (refund_outcome id) ;;
  deposit_cleaned id).

Definition purge_outcomes (origin : Origin) (id : Z) : GdM unit := transactional (
  lift (ensure_signed origin) ;;
  gd_info ← get_info id;
  lift (ensure (bool_decide (gd_status gd_info = GdFinished)) (gd_error UnfinishedGlobalDispute)) ;;
  s ← get;
  match outcomes_of id s !! winner_outcome gd_info with
  | Some i =>
      modify (set_outcomes_of id (delete (winner_outcome gd_info) (outcomes_of id s))) ;;
      modify (insert_info id (set_outcome_info i gd_info))
  | None => mret tt
  end ;;
  drain_outcomes id ;;
  deposit_cleaned id).

(** [for winner in owners.iter()], each paid [min remainder reward_per_each]. *)
Fixpoint reward_owners (account : AccountId) (reward_per_each : Z) (owners : list AccountId) (remainder : Z) : GdM unit :=
  match owners with
  | [] => mret tt
  | w :: owners =>
      let reward := Z.min remainder reward_per_each in
      attempt (gd_on_ledger (b_transfer account w reward AllowDeath)) ;;
      reward_owners account reward_per_each owners (saturating_sub remainder reward)
  end.

Definition reward_shared_possession (id : Z) (account : AccountId) (reward : Z) (owners : list AccountId) : GdM unit :=
  match checked_div reward (Z.of_nat (length owners)) with
  | Some reward_per_each => reward_owners account reward_per_each owners reward
  | None => mret tt
  end ;;
  deposit_gd_event (OutcomeOwnersRewarded id owners).

Definition reward_paid_possession (id : Z) (account : AccountId) (reward : Z) (owner : AccountId) : GdM unit :=
  attempt (gd_on_ledger (b_transfer account owner reward AllowDeath)) ;;
  deposit_gd_event (OutcomeOwnerRewarded id owner).

Definition reward_outcome_owner (origin : Origin) (id : Z) : GdM unit := transactional (
  lift (ensure_signed origin) ;;
  s ← get;
  lift (ensure (bool_decide (outcomes_of id s = ∅)) (gd_error OutcomesNotFullyCleaned)) ;;
  gd_info ← get_info id;
  lift (ensure (bool_decide (gd_status gd_info = GdFinished)) (gd_error UnfinishedGlobalDispute)) ;;
  let account := reward_account id in
  let free := b_free (gd_ledger s) account in
  lift (ensure (negb (free =? 0)) (gd_error NoFundsToReward)) ;;
  match possession (outcome_info gd_info) with
  | Shared owners => reward_shared_possession id account free owners
  | Paid owner _ => reward_paid_possession id account free owner
  end).

(** [add_to_outcome_sum] of a vote. *)
Definition add_to_outcome_sum (id : Z) (outcome : OutcomeReport) (i : OutcomeInfo) (a : Z) : GdM unit :=
  let i' := mkOutcomeInfo (saturating_add 128 (outcome_sum i) a) (possession i) in
  update_winner id outcome i' ;;
  modify (insert_outcome id outcome i').

Definition vote_on_outcome (origin : Origin) (id : Z) (outcome : OutcomeReport) (amount : Z) : GdM unit := transactional (
  voter ← lift (ensure_signed origin);
  s ← get;
  let voter_free_balance := b_free (gd_ledger s) voter in
  lift (ensure (amount <=? voter_free_balance) (gd_error InsufficientAmount)) ;;
  lift (ensure (MinOutcomeVoteAmount <=? amount) (gd_error AmountTooLow)) ;;
  gd_info ← get_info id;
  match gd_status gd_info with
  | GdActive add_outcome_end vote_end =>
      lift (ensure ((add_outcome_end <? gd_block s) && (gd_block s <=? vote_end)) (gd_error NotInGdVotingPeriod))
  | _ => fail (gd_error InvalidGlobalDisputeStatus)
  end ;;
  i ← lift (ok_or (outcomes_of id s !! outcome) (gd_error OutcomeDoesNotExist));
  let lock_info := locks_of voter s in
  '(lock_amount, lock_info') ←
    match binary_search_by_key id fst lock_info with
    | Found n =>
        let prev := default 0 (snd <$> lock_info !! n) in
        let new_amount_acc := saturating_add 128 amount prev in
        lift (ensure (new_amount_acc <=? voter_free_balance) (gd_error InsufficientAmount)) ;;
        add_to_outcome_sum id outcome i amount ;;
        mret (new_amount_acc, <[n := (id, new_amount_acc)]> lock_info)
    | NotFound n =>
        lock_info' ← lift (ok_or (try_insert MaxGlobalDisputeVotes n (id, amount) lock_info) (gd_error MaxVotesReached));
        add_to_outcome_sum id outcome i amount ;;
        mret (amount, lock_info')
    end;
  modify (fun s => set_gd_ledger (b_extend_lock GlobalDisputeLockId voter lock_amount (gd_ledger s)) s) ;;
  modify (fun s => set_Locks (<[voter := lock_info']> (Locks s)) s) ;;
  deposit_gd_event (VotedOnOutcome voter id outcome amount)).

(** Whether [retain] keeps the lock on a market. *)
Definition lock_retained (s : GdState) (p : Z * Z) : bool :=
  match GlobalDisputesInfo s !! p.1 with
  | Some g => match gd_status g with GdActive _ _ => true | _ => false end
  | None => false
  end.

Definition unlock_vote_balance (origin : Origin) (voter : Z) : GdM unit := transactional (
  lift (ensure_signed origin) ;;
  voter ← lift (gd_lookup voter);
  s ← get;
  let lock_info := List.filter (lock_retained s) (locks_of voter s) in
  let lock_needed := fold_left (fun acc p => Z.max acc p.2) lock_info 0 in
  modify (fun s => set_Locks (<[voter := lock_info]> (Locks s)) s) ;;
  if lock_needed =? 0
  then modify (fun s => set_gd_ledger (b_remove_lock GlobalDisputeLockId voter (gd_ledger s)) s)
  else modify (fun s => set_gd_ledger (b_set_lock GlobalDisputeLockId voter lock_needed (gd_ledger s)) s)).

(** ** [GlobalDisputesPalletApi] *)

Definition determine_voting_winner (id : Z) : GdM (option OutcomeReport) :=
  s ← get;
  match GlobalDisputesInfo s !! id with
  | Some g =>
      modify (insert_info id (set_gd_status GdFinished g)) ;;
      deposit_gd_event (GlobalDisputeWinnerDetermined id) ;;
      mret (Some (winner_outcome g))
  | None => mret None
  end.

Definition does_exist (id : Z) (s : GdState) : bool := bool_decide (is_Some (GlobalDisputesInfo s !! id)).

Definition is_active (id : Z) (s : GdState) : bool :=
  match GlobalDisputesInfo s !! id with
  | Some g => match gd_status g with GdActive _ _ => true | _ => false end
  | None => false
  end.

(** One turn of the loop over the initial items; a vector of one owner always
    fits, [MaxOwners] being positive. *)
Definition push_initial_item (id : Z) (m : Market) (item : InitialItem) : GdM unit :=
  let outcome := item_outcome item in
  lift (ensure (matches_outcome_report m outcome) (gd_error GdOutcomeMismatch)) ;;
  s ← get;
  match outcomes_of id s !! outcome with
  | Some i =>
      owners ← lift (ok_or (get_shared_owners (possession i)) (gd_error SharedPossessionRequired));
      owners' ← lift (ok_or (try_push MaxOwners (item_owner item) owners) (gd_error MaxOwnersReached));
      let i' := mkOutcomeInfo (saturating_add 128 (outcome_sum i) (item_amount item)) (Shared owners') in
      update_winner id outcome i' ;;
      modify (insert_outcome id outcome i')
  | None =>
      match try_push MaxOwners (item_owner item) [] with
      | Some owners =>
          let i := mkOutcomeInfo (item_amount item) (Shared owners) in
          update_winner id outcome i ;;
          modify (insert_outcome id outcome i)
      | None => mret tt
      end
  end.

Definition start_global_dispute (id : Z) (initial_items : list InitialItem) : GdM Z :=
  s ← get;
  m ← lift (market (gd_commons s) id);
  lift (ensure (negb (bool_decide (is_Some (GlobalDisputesInfo s !! id)))) (gd_error GlobalDisputeAlreadyExists)) ;;
  for_each initial_items (push_initial_item id m) ;;
  let add_outcome_end := saturating_add 32 (gd_block s) AddOutcomePeriod in
  let vote_end := saturating_add 32 add_outcome_end GdVotingPeriod in
  ids_len ← gd_on_queue (add_auto_resolve id vote_end);
  g ← get_info id;
  modify (insert_info id (set_gd_status (GdActive add_outcome_end vote_end) g)) ;;
  mret ids_len.

Definition destroy_global_dispute (id : Z) : GdM unit :=
  g ← get_info id;
  match gd_status g with
  | GdActive _ vote_end =>
      modify (fun s => set_gd_queue (remove_auto_resolve id vote_end (gd_queue s)).2 s) ;;
      modify (insert_info id (set_gd_status GdDestroyed g))
  | _ => mret tt
  end.
End GlobalDisputes.
