(* ===== verification/GlobalDisputesInv.v ===== *)
(** * The global-disputes pallet: votes, locks and fees

    The pallet keeps only running sums, one leading outcome per dispute and one
    lock per voter.  Along a run these agree with the log of everything that was
    proposed and voted: the leader has the most votes, whoever voted on an open
    dispute has that much locked, and the account of a dispute holds the fees of
    its outcomes. *)

From S2P Require Import Prelude Errors Collections Interfaces Balances Market GlobalDisputes.

(** ** The log of a dispute *)

(** An initial outcome of a dispute, an outcome added for a fee, a vote. *)
Inductive GdEntry :=
| GInitial (id : Z) (o : OutcomeReport) (owner : AccountId) (amount : Z)
| GAdded (id : Z) (o : OutcomeReport) (owner : AccountId) (fee : Z)
| GVoted (id : Z) (o : OutcomeReport) (voter : AccountId) (amount : Z).

Definition entry_market (e : GdEntry) : Z :=
  match e with GInitial id _ _ _ | GAdded id _ _ _ | GVoted id _ _ _ => id end.
Definition entry_outcome (e : GdEntry) : OutcomeReport :=
  match e with GInitial _ o _ _ | GAdded _ o _ _ | GVoted _ o _ _ => o end.
Definition entry_amount (e : GdEntry) : Z :=
  match e with GInitial _ _ _ a | GAdded _ _ _ a | GVoted _ _ _ a => a end.

Definition on_outcome (id : Z) (o : OutcomeReport) (e : GdEntry) : Prop :=
  entry_market e = id /\ entry_outcome e = o.
#[global] Instance on_outcome_dec id o e : Decision (on_outcome id o e).
Proof. unfold on_outcome. apply _. Defined.

(** The votes for an outcome, as a [u128] that saturates. *)
Definition tally (log : list GdEntry) (id : Z) (o : OutcomeReport) : Z :=
  Z.min (zsum (fun e => if decide (on_outcome id o e) then entry_amount e else 0) log) (umax 128).

(** What an account voted with on a market. *)
Definition voted (log : list GdEntry) (id : Z) (v : AccountId) : Z :=
  zsum (fun e => match e with
                 | GVoted id' _ v' a => if decide (id' = id /\ v' = v) then a else 0
                 | _ => 0
                 end) log.

(** Who owns an outcome: whoever paid for it, or its initial owners. *)
Definition initial_owners (log : list GdEntry) (id : Z) (o : OutcomeReport) : list AccountId :=
  omap (fun e => match e with
                 | GInitial id' o' w _ => if decide (id' = id /\ o' = o) then Some w else None
                 | _ => None
                 end) log.
Definition paid_owners (log : list GdEntry) (id : Z) (o : OutcomeReport) : list (AccountId * Z) :=
  omap (fun e => match e with
                 | GAdded id' o' w f => if decide (id' = id /\ o' = o) then Some (w, f) else None
                 | _ => None
                 end) log.
Definition owners_in_log (log : list GdEntry) (id : Z) (o : OutcomeReport) : Possession :=
  match paid_owners log id o with
  | (w, f) :: _ => Paid w f
  | [] => Shared (initial_owners log id o)
  end.

Lemma tally_snoc log e id o : 0 <= entry_amount e ->
  Forall (fun e => 0 <= entry_amount e) log ->
  tally (log ++ [e]) id o =
    if decide (on_outcome id o e) then saturating_add 128 (tally log id o) (entry_amount e) else tally log id o.
Proof.
  intros He Hlog. unfold tally, saturating_add. rewrite zsum_app, zsum_cons, zsum_nil.
  pose proof umax_128. case_decide; [|f_equal; lia]. lia.
Qed.

Lemma tally_nonneg log id o : Forall (fun e => 0 <= entry_amount e) log -> 0 <= tally log id o <= umax 128.
Proof.
  intros Hlog. unfold tally. pose proof umax_128.
  assert (0 <= zsum (fun e => if decide (on_outcome id o e) then entry_amount e else 0) log); [|lia].
  apply zsum_nonneg. eapply Forall_impl; [exact Hlog|]. intros e He. cbn in *. case_decide; lia.
Qed.

Lemma tally_unmentioned log id o : (forall e, e ∈ log -> ~ on_outcome id o e) -> tally log id o = 0.
Proof.
  intros Hn. unfold tally. rewrite (zsum_ext _ (fun _ => 0)).
  - rewrite zsum_const_0. by vm_compute.
  - intros e He. by rewrite decide_False by (by apply Hn).
Qed.

Lemma omap_snoc {A B} (f : A -> option B) l x : omap f (l ++ [x]) = omap f l ++ omap f [x].
Proof. apply omap_app. Qed.

Lemma owners_in_log_other log e id o : ~ on_outcome id o e ->
  owners_in_log (log ++ [e]) id o = owners_in_log log id o.
Proof.
  intros Hn. unfold owners_in_log, paid_owners, initial_owners. rewrite !omap_app.
  assert (Hn' : ~ (entry_market e = id /\ entry_outcome e = o)) by done.
  destruct e; cbn in *; rewrite ?decide_False by naive_solver; by rewrite ?app_nil_r.
Qed.

Lemma owners_in_log_vote log id o v a id' o' :
  owners_in_log (log ++ [GVoted id o v a]) id' o' = owners_in_log log id' o'.
Proof. unfold owners_in_log, paid_owners, initial_owners. rewrite !omap_app. cbn. by rewrite !app_nil_r. Qed.

Lemma owners_in_log_unmentioned log id o : (forall e, e ∈ log -> ~ on_outcome id o e) ->
  paid_owners log id o = [] /\ initial_owners log id o = [].
Proof.
  induction log as [|e log IH]; intros Hn; [done|].
  destruct IH as [IHp IHi]; [intros e' He'; apply Hn; by right|].
  assert (He : ~ on_outcome id o e) by (apply Hn; by left). unfold on_outcome in He.
  unfold paid_owners, initial_owners in *. destruct e; cbn in *; rewrite ?decide_False by naive_solver; done.
Qed.

Lemma owners_in_log_added log id o w f : (forall e, e ∈ log -> ~ on_outcome id o e) ->
  owners_in_log (log ++ [GAdded id o w f]) id o = Paid w f.
Proof.
  intros [Hp _]%owners_in_log_unmentioned. unfold owners_in_log, paid_owners in *. rewrite omap_app, Hp. cbn.
  by rewrite decide_True.
Qed.

Lemma owners_in_log_initial log id o w a ws : owners_in_log log id o = Shared ws ->
  owners_in_log (log ++ [GInitial id o w a]) id o = Shared (ws ++ [w]).
Proof.
  unfold owners_in_log, paid_owners, initial_owners. rewrite !omap_app. cbn. rewrite decide_True by done.
  rewrite app_nil_r. destruct (omap _ log) as [|[]] eqn:Hp; [by intros [= <-]|done].
Qed.

Lemma owners_in_log_first log id o w a : (forall e, e ∈ log -> ~ on_outcome id o e) ->
  owners_in_log (log ++ [GInitial id o w a]) id o = Shared [w].
Proof.
  intros Hn. apply (owners_in_log_initial log id o w a []).
  apply owners_in_log_unmentioned in Hn as [Hp Hi]. unfold owners_in_log. by rewrite Hp, Hi.
Qed.

Section Invariant.
Context `{GdConfig}.

(** ** The board of a dispute *)

Definition active_status (st : GdStatus) : Prop := match st with GdActive _ _ => True | _ => False end.

(** The stored outcomes [os] and information [g] of a market against the log. *)
Definition entry_agrees (log : list GdEntry) (id : Z) (o : OutcomeReport) (i : OutcomeInfo) : Prop :=
  outcome_sum i = tally log id o /\ possession i = owners_in_log log id o /\ exists e, e ∈ log /\ on_outcome id o e.
Definition leads (log : list GdEntry) (id : Z) (g : GlobalDisputeInfo) : Prop :=
  outcome_sum (outcome_info g) = tally log id (winner_outcome g) /\
  (exists e, e ∈ log /\ on_outcome id (winner_outcome g) e) /\
  forall o, tally log id o <= tally log id (winner_outcome g).
Definition all_listed (log : list GdEntry) (id : Z) (os : gmap OutcomeReport OutcomeInfo) : Prop :=
  forall e, e ∈ log -> entry_market e = id -> is_Some (os !! entry_outcome e).

Definition board_ok (log : list GdEntry) (id : Z) (os : gmap OutcomeReport OutcomeInfo) (og : option GlobalDisputeInfo) : Prop :=
  map_Forall (entry_agrees log id) os /\
  match og with
  | None => os = ∅ /\ forall e, e ∈ log -> entry_market e <> id
  | Some g =>
      leads log id g /\
      (active_status (gd_status g) -> all_listed log id os) /\
      (gd_status g = GdFinished -> os !! winner_outcome g = None ->
        possession (outcome_info g) = owners_in_log log id (winner_outcome g))
  end.

Definition amounts_ok (log : list GdEntry) : Prop := Forall (fun e => 0 <= entry_amount e) log.

Lemma amounts_snoc log e : amounts_ok (log ++ [e]) <-> amounts_ok log /\ 0 <= entry_amount e.
Proof. unfold amounts_ok. by rewrite Forall_app, Forall_singleton. Qed.

(** Entries on other markets change nothing. *)
Lemma entry_agrees_other log id o i e : amounts_ok (log ++ [e]) -> ~ on_outcome id o e ->
  entry_agrees log id o i -> entry_agrees (log ++ [e]) id o i.
Proof.
  intros [Hlog Ha]%amounts_snoc Hn (Hs & Hp & e' & He' & Hon). split_and!.
  - by rewrite tally_snoc, decide_False.
  - by rewrite owners_in_log_other.
  - exists e'. split; [|done]. apply elem_of_app. by left.
Qed.

Lemma board_ok_other log id os og e : amounts_ok (log ++ [e]) -> entry_market e <> id ->
  board_ok log id os og -> board_ok (log ++ [e]) id os og.
Proof.
  intros Hlog He [Hos Hg]. assert (Hn : forall o, ~ on_outcome id o e) by (by intros o [? _]).
  pose proof Hlog as [Hlog' Ha]%amounts_snoc.
  assert (Ht : forall o, tally (log ++ [e]) id o = tally log id o)
    by (intros o; by rewrite tally_snoc, decide_False by done).
  split; [intros o i Hi; by apply entry_agrees_other; [..|apply Hos]|]. destruct og as [g|].
  - destruct Hg as ((Hs & (e' & He' & Hon) & Hmax) & Hact & Hfin). split_and!.
    + split_and!; [by rewrite Ht| |intros o; by rewrite !Ht]. exists e'. split; [apply elem_of_app; by left|done].
    + intros Hst e0 [He0| ->%list_elem_of_singleton]%elem_of_app Hm; [by apply Hact|done].
    + intros Hst Hw. rewrite owners_in_log_other by done. by apply Hfin.
  - destruct Hg as [-> Hno]. split; [done|].
    intros e0 [He0| ->%list_elem_of_singleton]%elem_of_app; [by apply Hno|done].
Qed.

(** The information [update_winner] stores. *)
Definition updated_info (og : option GlobalDisputeInfo) (outcome : OutcomeReport) (i : OutcomeInfo) : GlobalDisputeInfo :=
  match og with
  | None => GlobalDisputeInfo_new outcome (possession i) (outcome_sum i)
  | Some prev =>
      if outcome_sum (outcome_info prev) <=? outcome_sum i
      then GlobalDisputeInfo_update_winner outcome (outcome_sum i) prev
      else prev
  end.

Definition og_active (og : option GlobalDisputeInfo) : Prop :=
  match og with Some g => active_status (gd_status g) | None => True end.

Lemma updated_info_active og o i : og_active og -> active_status (gd_status (updated_info og o i)).
Proof. destruct og as [g|]; cbn; [|done]. by destruct (_ <=? _). Qed.

(** An outcome that is not stored for an open dispute was never mentioned. *)
Lemma board_unmentioned log id os og o : board_ok log id os og -> og_active og -> os !! o = None ->
  forall e, e ∈ log -> ~ on_outcome id o e.
Proof.
  intros [_ Hg] Hact Hno e He [Hm Ho]. destruct og as [g|].
  - destruct Hg as (_ & Hall & _). destruct (Hall Hact e He Hm) as [i Hi]. congruence.
  - destruct Hg as [_ Hnone]. by apply (Hnone e He).
Qed.

Lemma updated_info_leads log id os og e i : amounts_ok (log ++ [e]) -> entry_market e = id ->
  board_ok log id os og -> outcome_sum i = tally (log ++ [e]) id (entry_outcome e) ->
  leads (log ++ [e]) id (updated_info og (entry_outcome e) i).
Proof.
  intros Hlog He [_ Hg] Hi. pose proof Hlog as [Hlog' Ha]%amounts_snoc.
  set (o := entry_outcome e) in *. assert (Hon : exists e0, e0 ∈ log ++ [e] /\ on_outcome id o e0).
  { exists e. split; [apply elem_of_app; right; by left|done]. }
  assert (Hmono : tally log id o <= tally (log ++ [e]) id o).
  { rewrite tally_snoc by done. case_decide; [|done]. pose proof (tally_nonneg log id o Hlog').
    unfold saturating_add. lia. }
  assert (Hne : forall o', o' <> o -> tally (log ++ [e]) id o' = tally log id o').
  { intros o' Ho'. rewrite tally_snoc, decide_False by (try done; by intros [_ ?]). done. }
  destruct og as [g|]; cbn.
  - destruct Hg as ((Hs & (e' & He' & Hon') & Hmax) & _). destruct (Z.leb_spec (outcome_sum (outcome_info g)) (outcome_sum i)) as [Hle|Hgt].
    + split_and!; cbn; [done|done|]. intros o'. destruct (decide (o' = o)) as [->|Ho']; [done|].
      rewrite Hne by done. specialize (Hmax o'). lia.
    + assert (Hw : winner_outcome g <> o) by (intros Hw; rewrite Hw in Hs; lia).
      split_and!; [by rewrite Hne| |].
      * exists e'. split; [apply elem_of_app; by left|done].
      * intros o'. rewrite (Hne _ Hw). destruct (decide (o' = o)) as [->|Ho']; [lia|]. by rewrite Hne.
  - split_and!; cbn; [done|done|]. intros o'. destruct (decide (o' = o)) as [->|Ho']; [done|].
    rewrite Hne, tally_unmentioned by (try done; intros e0 He0 [Hm _]; by apply (proj2 Hg e0)).
    rewrite <- Hi. pose proof (tally_nonneg (log ++ [e]) id o Hlog). lia.
Qed.

(** Storing an outcome with its new sum and the leader. *)
Lemma board_credit log id os og e i : amounts_ok (log ++ [e]) -> entry_market e = id ->
  board_ok log id os og -> og_active og ->
  outcome_sum i = tally (log ++ [e]) id (entry_outcome e) ->
  possession i = owners_in_log (log ++ [e]) id (entry_outcome e) ->
  board_ok (log ++ [e]) id (<[entry_outcome e := i]> os) (Some (updated_info og (entry_outcome e) i)).
Proof.
  intros Hlog He Hb Hact Hi Hp. pose proof (updated_info_leads _ _ _ _ _ _ Hlog He Hb Hi) as Hl.
  destruct Hb as [Hos Hg]. split.
  - intros o j Hj. apply lookup_insert_Some in Hj as [[<- <-]|[Hne Hj]].
    + split_and!; [done|done|]. exists e. split; [apply elem_of_app; right; by left|done].
    + apply entry_agrees_other; [done|by intros [_ ?]|by apply Hos].
  - split_and!; [done| |].
    + intros _ e0 He0 Hm. destruct (decide (entry_outcome e0 = entry_outcome e)) as [->|Hne];
        [rewrite lookup_insert_eq; eauto|]. rewrite lookup_insert_ne by done.
      apply elem_of_app in He0 as [He0|<-%list_elem_of_singleton]; [|done]. destruct og as [g|].
      * destruct Hg as (_ & Hall & _). by apply Hall.
      * by destruct (proj2 Hg e0 He0).
    + intros Hfin. pose proof (updated_info_active og (entry_outcome e) i Hact) as Ha. by rewrite Hfin in Ha.
Qed.

(** ** What the calls do *)

(** [update_winner] followed by the insertion of the outcome. *)
Definition credited (id : Z) (o : OutcomeReport) (i : OutcomeInfo) (s : GdState) : GdState :=
  insert_outcome id o i (insert_info id (updated_info (GlobalDisputesInfo s !! id) o i) s).

Lemma credit_run id o i s : (update_winner id o i ;; modify (insert_outcome id o i)) s = (Ok tt, credited id o i s).
Proof. done. Qed.

Lemma outcomes_of_set id os id' s :
  outcomes_of id' (set_outcomes_of id os s) = if decide (id' = id) then os else outcomes_of id' s.
Proof.
  unfold outcomes_of, set_outcomes_of. cbn. case_decide as Hid; [by rewrite Hid, lookup_insert_eq|].
  by rewrite lookup_insert_ne.
Qed.
Lemma info_insert id g id' s :
  GlobalDisputesInfo (insert_info id g s) !! id' = if decide (id' = id) then Some g else GlobalDisputesInfo s !! id'.
Proof. cbn. case_decide as Hid; [by rewrite Hid, lookup_insert_eq|]. by rewrite lookup_insert_ne. Qed.
Lemma credited_outcomes id o i s id' :
  outcomes_of id' (credited id o i s) = if decide (id' = id) then <[o := i]> (outcomes_of id s) else outcomes_of id' s.
Proof. unfold credited, insert_outcome. rewrite outcomes_of_set. by case_decide. Qed.
Lemma credited_info id o i s id' :
  GlobalDisputesInfo (credited id o i s) !! id' =
    if decide (id' = id) then Some (updated_info (GlobalDisputesInfo s !! id) o i) else GlobalDisputesInfo s !! id'.
Proof. apply (info_insert id). Qed.

Lemma get_info_ok id s g s' : get_info id s = (Ok g, s') -> GlobalDisputesInfo s !! id = Some g /\ s' = s.
Proof.
  intros Hr. apply bind_ok in Hr as (a & s1 & [-> ->]%get_ok & Hr). by apply lift_ok in Hr as [?%ok_or_ok ->].
Qed.

Lemma gd_on_ledger_ok {A} (m : ST DispatchError GdLedger A) s r s' :
  gd_on_ledger m s = (r, s') -> exists l, m (gd_ledger s) = (r, l) /\ s' = set_gd_ledger l s.
Proof. unfold gd_on_ledger. destruct (m (gd_ledger s)) as [r' l]. intros [= <- <-]. eauto. Qed.

Lemma add_vote_outcome_spec origin id o s s' : add_vote_outcome origin id o s = (Ok tt, s') ->
  exists w g l, origin = Signed w /\ GlobalDisputesInfo s !! id = Some g /\ active_status (gd_status g) /\
    outcomes_of id s !! o = None /\
    b_transfer w (reward_account id) VotingOutcomeFee KeepAlive (gd_ledger s) = (Ok tt, l) /\
    s' = set_gd_events (gd_events s ++ [AddedVotingOutcome id w o])
           (credited id o (mkOutcomeInfo VotingOutcomeFee (Paid w VotingOutcomeFee)) (set_gd_ledger l s)).
Proof.
  intros Hr%transactional_ok.
  apply bind_ok in Hr as (w & s1 & [Hw ->]%lift_ok & Hr).
  apply bind_ok in Hr as (s0 & s1 & [-> ->]%get_ok & Hr).
  apply bind_ok in Hr as (m & s1 & [Hm ->]%lift_ok & Hr).
  apply bind_ok in Hr as (u1 & s1 & [_ ->]%lift_ok & Hr).
  apply bind_ok in Hr as (g & s1 & [Hg ->]%get_info_ok & Hr).
  apply bind_ok in Hr as (u2 & s1 & Hst & Hr).
  assert (Hs1 : s1 = s /\ active_status (gd_status g)) by (destruct (gd_status g); [by apply lift_ok in Hst as [_ ->]|done..]).
  destruct Hs1 as [-> Hact].
  apply bind_ok in Hr as (u3 & s1 & [Hno%ensure_ok ->]%lift_ok & Hr).
  apply negb_true_iff, bool_decide_eq_false, eq_None_not_Some in Hno.
  apply bind_ok in Hr as ([] & s1 & (l & Hl & ->)%gd_on_ledger_ok & Hr).
  exists w, g, l. split_and!; try done.
  - destruct origin; [done| |done]. by injection Hw as ->.
  - unfold deposit_gd_event in Hr. apply bind_ok in Hr as (u4 & s1 & [_ ->]%modify_ok & Hr).
    apply bind_ok in Hr as (u5 & s1 & [_ ->]%modify_ok & [_ ->]%modify_ok). done.
Qed.

(** The lock entry a vote leaves and the vector it stands in. *)
Definition lock_after (id amount : Z) (lock_info : list (Z * Z)) (lock_amount : Z) (lock_info' : list (Z * Z)) : Prop :=
  (exists n prev, lock_info !! n = Some (id, prev) /\ lock_amount = saturating_add 128 amount prev /\
     lock_info' = <[n := (id, lock_amount)]> lock_info) \/
  (exists n, binary_search_by_key id fst lock_info = NotFound n /\ lock_amount = amount /\
     lock_info' = vec_insert n (id, amount) lock_info).

Lemma vote_on_outcome_spec origin id o amount s s' : vote_on_outcome origin id o amount s = (Ok tt, s') ->
  exists v g i lock_amount lock_info',
    origin = Signed v /\ GlobalDisputesInfo s !! id = Some g /\ active_status (gd_status g) /\
    outcomes_of id s !! o = Some i /\ lock_amount <= b_free (gd_ledger s) v /\
    lock_after id amount (locks_of v s) lock_amount lock_info' /\
    let s1 := credited id o (mkOutcomeInfo (saturating_add 128 (outcome_sum i) amount) (possession i)) s in
    s' = set_gd_events (gd_events s ++ [VotedOnOutcome v id o amount])
           (set_Locks (<[v := lock_info']> (Locks s))
              (set_gd_ledger (b_extend_lock GlobalDisputeLockId v lock_amount (gd_ledger s)) s1)).
Proof.
  intros Hr%transactional_ok.
  apply bind_ok in Hr as (v & s1 & [Hv ->]%lift_ok & Hr).
  apply bind_ok in Hr as (s0 & s1 & [-> ->]%get_ok & Hr).
  apply bind_ok in Hr as (u1 & s1 & [Hfree%ensure_ok ->]%lift_ok & Hr).
  apply bind_ok in Hr as (u2 & s1 & [_ ->]%lift_ok & Hr).
  apply bind_ok in Hr as (g & s1 & [Hg ->]%get_info_ok & Hr).
  apply bind_ok in Hr as (u3 & s1 & Hst & Hr).
  assert (Hs1 : s1 = s /\ active_status (gd_status g)) by (destruct (gd_status g); [by apply lift_ok in Hst as [_ ->]|done..]).
  destruct Hs1 as [-> Hact].
  apply bind_ok in Hr as (i & s1 & [Hi%ok_or_ok ->]%lift_ok & Hr).
  apply bind_ok in Hr as ([la li] & s1 & Hlock & Hr).
  apply bind_ok in Hr as (u4 & s2 & [_ ->]%modify_ok & Hr).
  apply bind_ok in Hr as (u5 & s2 & [_ ->]%modify_ok & [_ ->]%modify_ok).
  assert (Ho : origin = Signed v) by (destruct origin; [done| |done]; by injection Hv as ->).
  exists v, g, i, la, li. destruct (binary_search_by_key id fst (locks_of v s)) as [n|n] eqn:Hb.
  - apply search_key_found_inv in Hb as ([k prev] & Hn & Hk). cbn in Hk. subst k. rewrite Hn in Hlock. cbn [fmap option_fmap option_map default snd] in Hlock.
    apply bind_ok in Hlock as (u6 & s2 & [Hle%ensure_ok ->]%lift_ok & Hlock).
    apply bind_ok in Hlock as (u7 & s2 & Hc & [[= -> ->] ->]%mret_ok).
    unfold add_to_outcome_sum in Hc. rewrite credit_run in Hc. injection Hc as <- <-.
    split_and!; try done; [by apply Z.leb_le|]. left. exists n, prev. done.
  - apply bind_ok in Hlock as (li' & s2 & [Hins%ok_or_ok ->]%lift_ok & Hlock).
    apply bind_ok in Hlock as (u7 & s2 & Hc & [[= -> ->] ->]%mret_ok).
    unfold add_to_outcome_sum in Hc. rewrite credit_run in Hc. injection Hc as <- <-.
    unfold try_insert in Hins. apply if_some_eq in Hins as ->.
    split_and!; try done; [lia|]. right. exists n. done.
Qed.

(** ** The locks *)

(** The lock of a voter on an open dispute is what she voted with. *)
Definition vote_recorded (log : list GdEntry) (v : AccountId) (locks : list (Z * Z)) (id : Z) : Prop :=
  (id, Z.min (voted log id v) (umax 128)) ∈ locks \/ voted log id v = 0 /\ forall a, (id, a) ∉ locks.

Definition voter_ok (log : list GdEntry) (v : AccountId) (locks : list (Z * Z)) (locked : Z)
    (infos : gmap Z GlobalDisputeInfo) : Prop :=
  sorted_by fst locks /\
  (forall id a, (id, a) ∈ locks -> 0 <= a <= locked /\ is_Some (infos !! id)) /\
  (forall id g, infos !! id = Some g -> active_status (gd_status g) -> vote_recorded log v locks id).

Lemma voted_snoc log e id v : voted (log ++ [e]) id v = voted log id v +
  match e with GVoted id' _ v' a => if decide (id' = id /\ v' = v) then a else 0 | _ => 0 end.
Proof. unfold voted. rewrite zsum_app, zsum_cons, zsum_nil. lia. Qed.

Lemma voted_nonneg log id v : amounts_ok log -> 0 <= voted log id v.
Proof.
  intros Hlog. apply zsum_nonneg. eapply Forall_impl; [exact Hlog|]. intros [] He; cbn in *; try lia. case_decide; lia.
Qed.

Lemma sorted_locks_inj (locks : list (Z * Z)) id a b :
  sorted_by fst locks -> (id, a) ∈ locks -> (id, b) ∈ locks -> a = b.
Proof.
  intros Hs (i & Hi)%list_elem_of_lookup (j & Hj)%list_elem_of_lookup.
  pose proof (sorted_by_inj _ _ _ _ _ _ Hs Hi Hj eq_refl) as ->. congruence.
Qed.

(** Entries that are no vote of the voter, on disputes that stay open or are
    new, keep her locks. *)
Lemma voter_ok_grow log e v locks locked locked' infos infos' : voter_ok log v locks locked infos ->
  voted (log ++ [e]) (entry_market e) v = voted log (entry_market e) v -> locked <= locked' ->
  (forall id, is_Some (infos !! id) -> is_Some (infos' !! id)) ->
  (forall id g', infos' !! id = Some g' -> active_status (gd_status g') ->
     (exists g, infos !! id = Some g /\ active_status (gd_status g)) \/ infos !! id = None /\ voted log id v = 0) ->
  voter_ok (log ++ [e]) v locks locked' infos'.
Proof.
  intros (Hs & Hle & Hrec) Hv Hlk Hdom Hact. split_and!; [done| |].
  - intros id a Hin. destruct (Hle _ _ Hin) as [? ?]. split; [lia|auto].
  - intros id g' Hg' Ha'. assert (Hvv : voted (log ++ [e]) id v = voted log id v).
    { pose proof (voted_snoc log e id v) as E1. rewrite voted_snoc in Hv. destruct e as [| |id' o' v' a']; cbn in *; try lia.
      case_decide as Hd; [|lia]. destruct Hd as [-> ->]. rewrite decide_True in Hv by done. lia. }
    unfold vote_recorded. rewrite Hvv. destruct (Hact _ _ Hg' Ha') as [(g & Hg & Ha)|[Hn Hz]]; [by eapply Hrec|].
    right. split; [done|]. intros a Hin. destruct (Hle _ _ Hin) as [_ [g Hg]]. congruence.
Qed.

(** A vote. *)
Lemma voter_ok_vote log v locks locked infos infos' id o amount la locks' : 0 <= amount ->
  amounts_ok log -> voter_ok log v locks locked infos -> lock_after id amount locks la locks' ->
  (exists g, infos !! id = Some g /\ active_status (gd_status g)) ->
  (forall id, is_Some (infos !! id) -> is_Some (infos' !! id)) ->
  (forall id g', infos' !! id = Some g' -> active_status (gd_status g') ->
     exists g, infos !! id = Some g /\ active_status (gd_status g)) -> amount <= umax 128 ->
  voter_ok (log ++ [GVoted id o v amount]) v locks' (Z.max locked la) infos'.
Proof.
  intros Ha Hlog (Hs & Hle & Hrec) Hl (g & Hg & Hgact) Hdom Hact Hmax. pose proof umax_128 as Hu.
  assert (Hother : forall id', id' <> id -> forall a, (id', a) ∈ locks' <-> (id', a) ∈ locks).
  { intros id' Hne a. destruct Hl as [(n & prev & Hn & -> & ->)|(n & Hb & -> & ->)].
    - rewrite !list_elem_of_lookup. split; intros [j Hj]; exists j.
      + destruct (decide (j = n)) as [->|Hjn]; [|by rewrite list_lookup_insert_ne in Hj].
        rewrite list_lookup_insert_eq in Hj by (by eapply lookup_lt_Some). by injection Hj as <- _.
      + destruct (decide (j = n)) as [->|Hjn]; [|by rewrite list_lookup_insert_ne].
        rewrite Hn in Hj. by injection Hj as <- _.
    - rewrite elem_of_vec_insert. naive_solver. }
  assert (Hnew : (id, la) ∈ locks' /\ la = Z.min (voted (log ++ [GVoted id o v amount]) id v) (umax 128) /\ 0 <= la).
  { rewrite voted_snoc, decide_True by done. pose proof (voted_nonneg log id v Hlog) as Hv0.
    destruct Hl as [(n & prev & Hn & Hla & ->)|(n & Hb & -> & ->)].
    - assert (Hin : (id, prev) ∈ locks) by (by eapply list_elem_of_lookup_2).
      destruct (Hrec _ _ Hg Hgact) as [Hin'|[_ Hno]]; [|by destruct (Hno prev)].
      pose proof (sorted_locks_inj _ _ _ _ Hs Hin Hin') as Hp. unfold saturating_add in Hla. split; [|lia].
      apply list_elem_of_lookup. exists n. apply list_lookup_insert_eq. by eapply lookup_lt_Some.
    - apply search_key_not_found in Hb as [_ Hno]; [|done].
      destruct (Hrec _ _ Hg Hgact) as [Hin'|[Hz _]]; [by destruct (Hno _ Hin')|].
      split; [apply elem_of_vec_insert; by left|]. lia. }
  destruct Hnew as (Hin & Hla & Hla0).
  assert (Hs' : sorted_by fst locks').
  { destruct Hl as [(n & prev & Hn & -> & ->)|(n & Hb & -> & ->)].
    - eapply sorted_by_same_keys; [|exact Hs]. rewrite list_fmap_insert. apply list_insert_id. cbn. by rewrite list_lookup_fmap, Hn.
    - by apply (sorted_by_insert fst locks n (id, amount)). }
  split_and!; [done| |].
  - intros id' a Hin'. destruct (decide (id' = id)) as [->|Hne].
    + rewrite (sorted_locks_inj _ _ _ _ Hs' Hin' Hin). split; [lia|]. apply Hdom. eauto.
    + apply Hother in Hin'; [|done]. destruct (Hle _ _ Hin') as [? ?]. split; [lia|auto].
  - intros id' g' Hg' Ha'. destruct (decide (id' = id)) as [->|Hne]; [left; by rewrite <- Hla|].
    destruct (Hact _ _ Hg' Ha') as (g0 & Hg0 & Ha0). unfold vote_recorded. rewrite voted_snoc, decide_False by naive_solver.
    rewrite Z.add_0_r. destruct (Hrec _ _ Hg0 Ha0) as [Hr|[Hz Hno]]; [left; by apply Hother|].
    right. split; [done|]. intros a. rewrite Hother by done. apply Hno.
Qed.

Lemma filter_sublist {A} (f : A -> bool) l : sublist (List.filter f l) l.
Proof. induction l as [|x l IH]; cbn; [constructor|]. destruct (f x); by constructor. Qed.

Lemma filter_none {A} (f : A -> bool) l : (forall x, f x = false) -> List.filter f l = [].
Proof. intros Hf. induction l as [|x l IH]; cbn; [done|]. by rewrite Hf. Qed.

Lemma fold_max_bounds (l : list (Z * Z)) acc :
  acc <= fold_left (fun acc p => Z.max acc p.2) l acc /\
  forall p, p ∈ l -> p.2 <= fold_left (fun acc p => Z.max acc p.2) l acc.
Proof.
  revert acc. induction l as [|q l IH]; intros acc; cbn; [split; [lia|by intros p ?%not_elem_of_nil]|].
  destruct (IH (Z.max acc q.2)) as [H1 H2]. split; [lia|].
  intros p [->|Hp]%elem_of_cons; [lia|by apply H2].
Qed.

Lemma fold_max_upper (l : list (Z * Z)) acc b : acc <= b -> (forall p, p ∈ l -> p.2 <= b) ->
  fold_left (fun acc p => Z.max acc p.2) l acc <= b.
Proof.
  revert acc. induction l as [|q l IH]; intros acc Hacc Hb; cbn; [done|].
  apply IH; [|intros p Hp; apply Hb; by right]. assert (q.2 <= b) by (apply Hb; by left). lia.
Qed.

(** Unlocking. *)
Lemma voter_ok_unlock log v locks locked s (locks' := List.filter (lock_retained s) locks) :
  voter_ok log v locks locked (GlobalDisputesInfo s) ->
  voter_ok log v locks' (fold_left (fun acc p => Z.max acc p.2) locks' 0) (GlobalDisputesInfo s).
Proof.
  intros (Hs & Hle & Hrec). assert (Hin : forall p, p ∈ locks' <-> p ∈ locks /\ lock_retained s p = true).
  { intros p. unfold locks'. rewrite !list_elem_of_In. apply filter_In. }
  split_and!.
  - eapply sorted_by_sublist; [apply filter_sublist|done].
  - intros id a Ha. pose proof (proj2 (fold_max_bounds locks' 0) _ Ha) as Hb. apply Hin in Ha as [Ha _].
    destruct (Hle _ _ Ha) as [? ?]. split; [cbn in Hb; lia|done].
  - intros id g Hg Hact. assert (Hret : forall a, lock_retained s (id, a) = true).
    { intros a. unfold lock_retained. cbn. rewrite Hg. by destruct (gd_status g). }
    destruct (Hrec _ _ Hg Hact) as [Hr|[Hz Hno]]; [left; by apply Hin|]. right. split; [done|].
    intros a [Ha _]%Hin. by apply (Hno a).
Qed.

(** ** The fees of the outcomes *)

Definition fee_of (i : OutcomeInfo) : Z := match possession i with Paid _ fee => fee | Shared _ => 0 end.
Definition fees (os : gmap OutcomeReport OutcomeInfo) : Z := map_sum (fee_of <$> os).

(** No dispute's account acts on its own. *)
Definition user (w : AccountId) : Prop := forall id, w <> reward_account id.

(** A paid outcome was paid the fixed fee for. *)
Definition fixed_fee (i : OutcomeInfo) : Prop :=
  match possession i with Paid w fee => fee = VotingOutcomeFee /\ user w | Shared _ => True end.

(** The account of a dispute that is not finished holds the fees of its
    outcomes. *)
Definition pot_ok (os : gmap OutcomeReport OutcomeInfo) (og : option GlobalDisputeInfo) (free : Z) : Prop :=
  map_Forall (fun _ => fixed_fee) os /\
  match og with Some g => gd_status g <> GdFinished -> fees os <= free | None => True end.

Lemma fees_empty : fees ∅ = 0.
Proof. unfold fees. by rewrite fmap_empty. Qed.
Lemma fees_insert os o i : fees (<[o := i]> os) = fees os - default 0 (fee_of <$> os !! o) + fee_of i.
Proof. unfold fees. rewrite fmap_insert, map_sum_insert, lookup_fmap. done. Qed.
Lemma fees_delete os o : fees (delete o os) = fees os - default 0 (fee_of <$> os !! o).
Proof. unfold fees. by rewrite fmap_delete, map_sum_delete, lookup_fmap. Qed.

Class GdLaws (ok : GdLedger -> Prop) := {
  gd_balances_laws :: BalancesLaws GdLedger ok;
  gd_iter_perm : forall id os, gd_iter id os ≡ₚ map_to_list os;
  reward_account_inj : forall id id', reward_account id = reward_account id' -> id = id';
  max_owners_pos : 0 < MaxOwners;
  outcome_fee_range : minimum_balance <= VotingOutcomeFee <= umax 128 }.
Context (ok : GdLedger -> Prop) `{!GdLaws ok}.

Record gd_inv (log : list GdEntry) (s : GdState) : Prop := {
  gi_amounts : amounts_ok log;
  gi_board : forall id, board_ok log id (outcomes_of id s) (GlobalDisputesInfo s !! id);
  gi_voters : forall v, voter_ok log v (locks_of v s) (b_locked (gd_ledger s) GlobalDisputeLockId v) (GlobalDisputesInfo s);
  gi_ledger : ok (gd_ledger s);
  gi_unlocked : forall id lk, b_locked (gd_ledger s) lk (reward_account id) = 0;
  gi_pots : forall id, pot_ok (outcomes_of id s) (GlobalDisputesInfo s !! id) (b_free (gd_ledger s) (reward_account id)) }.

Lemma fee_nonneg : 0 <= VotingOutcomeFee.
Proof. pose proof outcome_fee_range. pose proof minimum_nonneg. lia. Qed.

Lemma fixed_fee_cases i : fixed_fee i -> fee_of i = 0 \/ fee_of i = VotingOutcomeFee.
Proof. unfold fixed_fee, fee_of. destruct (possession i); [by intros [? _]; right|by left]. Qed.

(** A sum of fees is nothing or at least one fee. *)
Lemma zsum_fees {A} (f : A -> Z) l : Forall (fun x => f x = 0 \/ f x = VotingOutcomeFee) l ->
  0 <= zsum f l /\ (zsum f l = 0 \/ VotingOutcomeFee <= zsum f l).
Proof. pose proof fee_nonneg. induction 1 as [|x l Hx Hl IH]; [cbn; lia|]. rewrite zsum_cons. lia. Qed.

Lemma fees_cases os : map_Forall (fun _ => fixed_fee) os -> 0 <= fees os /\ (fees os = 0 \/ VotingOutcomeFee <= fees os).
Proof.
  intros Hf. apply zsum_fees, Forall_forall. intros [o f] Hin%elem_of_map_to_list.
  rewrite lookup_fmap in Hin. destruct (os !! o) as [i|] eqn:Hi; [|done]. injection Hin as <-. cbn.
  apply fixed_fee_cases. by eapply Hf.
Qed.

(** The boards and the voters after an outcome was credited. *)
Lemma board_credited log s e i (id := entry_market e) (o := entry_outcome e) :
  gd_inv log s -> 0 <= entry_amount e -> og_active (GlobalDisputesInfo s !! id) ->
  outcome_sum i = tally (log ++ [e]) id o -> possession i = owners_in_log (log ++ [e]) id o ->
  forall id', board_ok (log ++ [e]) id' (outcomes_of id' (credited id o i s)) (GlobalDisputesInfo (credited id o i s) !! id').
Proof.
  intros Hi He Hact Hsum Hp id'. rewrite credited_outcomes, credited_info.
  assert (Hlog : amounts_ok (log ++ [e])) by (apply amounts_snoc; split; [apply Hi|done]).
  case_decide as Hid; [subst id'; apply board_credit; [done|done|apply Hi|done..]|].
  apply board_ok_other; [done|by intros Heq; apply Hid|apply Hi].
Qed.

Lemma credited_info_dom id o i s id' :
  is_Some (GlobalDisputesInfo s !! id') -> is_Some (GlobalDisputesInfo (credited id o i s) !! id').
Proof. rewrite credited_info. case_decide; [eauto|done]. Qed.

Lemma credited_info_active id o i s id' g' : og_active (GlobalDisputesInfo s !! id) ->
  GlobalDisputesInfo (credited id o i s) !! id' = Some g' -> active_status (gd_status g') ->
  (exists g, GlobalDisputesInfo s !! id' = Some g /\ active_status (gd_status g)) \/ id' = id /\ GlobalDisputesInfo s !! id = None.
Proof.
  rewrite credited_info. case_decide as Hid; [subst id'|eauto].
  destruct (GlobalDisputesInfo s !! id) as [g|]; cbn; [|auto]. intros Hg [= <-] _. eauto.
Qed.

Lemma voted_no_entry log s id v : gd_inv log s -> GlobalDisputesInfo s !! id = None -> voted log id v = 0.
Proof.
  intros Hi Hn. destruct (gi_board _ _ Hi id) as [_ Hb]. rewrite Hn in Hb. destruct Hb as [_ Hb].
  unfold voted. rewrite (zsum_ext _ (fun _ => 0)); [apply zsum_const_0|].
  intros e He. specialize (Hb e He). destruct e; try done. cbn in *. by rewrite decide_False by naive_solver.
Qed.

(** ** The invariant is kept *)

(** A credited outcome, whose fee the ledger [l] received. *)
Lemma credited_pots log s l o i id : gd_inv log s -> fixed_fee i ->
  og_active (GlobalDisputesInfo s !! id) ->
  (forall id', b_free (gd_ledger s) (reward_account id') +
     (if decide (id' = id) then fee_of i - default 0 (fee_of <$> outcomes_of id s !! o) else 0) <= b_free l (reward_account id')) ->
  forall id', pot_ok (outcomes_of id' (credited id o i s)) (GlobalDisputesInfo (credited id o i s) !! id') (b_free l (reward_account id')).
Proof.
  intros Hi Hf Hact Hl id'. specialize (Hl id'). rewrite credited_outcomes, credited_info.
  destruct (gi_pots _ _ Hi id') as [Hfix Hpot]. case_decide as Hid.
  - subst id'. split; [by apply map_Forall_insert_2|]. intros _. rewrite fees_insert.
    destruct (GlobalDisputesInfo s !! id) as [g|] eqn:Hg.
    + assert (gd_status g <> GdFinished) by (intros Hst; cbn in Hact; by rewrite Hst in Hact). specialize (Hpot ltac:(done)). lia.
    + pose proof (gi_board _ _ Hi id) as [_ Hb]. rewrite Hg in Hb. destruct Hb as [Hem _]. rewrite Hem in *.
      pose proof (b_free_range (gd_ledger s) (reward_account id) (gi_ledger _ _ Hi)).
      rewrite fees_empty. rewrite lookup_empty in *. cbn in *. lia.
  - split; [done|]. destruct (GlobalDisputesInfo s !! id') as [g|]; [|done]. intros Hst. specialize (Hpot Hst). lia.
Qed.

Lemma credited_locks id o i s v : locks_of v (credited id o i s) = locks_of v s.
Proof. done. Qed.

Lemma add_keeps log s w id o s' : gd_inv log s -> user w -> add_vote_outcome (Signed w) id o s = (Ok tt, s') ->
  gd_inv (log ++ [GAdded id o w VotingOutcomeFee]) s'.
Proof.
  intros Hi Hw (w' & g & l & [= <-] & Hg & Hact & Hno & Hl & ->)%add_vote_outcome_spec.
  pose proof fee_nonneg as Hfee. pose proof outcome_fee_range as [_ Hfmax].
  set (e := GAdded id o w VotingOutcomeFee). set (i := mkOutcomeInfo VotingOutcomeFee (Paid w VotingOutcomeFee)).
  assert (Hlog : amounts_ok (log ++ [e])) by (apply amounts_snoc; split; [apply Hi|done]).
  assert (Hog : og_active (GlobalDisputesInfo s !! id)) by (by rewrite Hg).
  assert (Hun : forall e, e ∈ log -> ~ on_outcome id o e) by (eapply board_unmentioned; [apply Hi|done..]).
  pose proof (b_transfer_ok _ _ _ _ _ _ (gi_ledger _ _ Hi) Hfee Hl) as [Hok Hlk].
  assert (Hfree : forall id', b_free l (reward_account id') =
    b_free (gd_ledger s) (reward_account id') + (if decide (id' = id) then VotingOutcomeFee else 0)).
  { intros id'. erewrite b_transfer_other; [|apply Hi|done|exact Hl|left; apply not_eq_sym, Hw]. unfold moved.
    rewrite decide_False by apply not_eq_sym, Hw.
    destruct (decide (id' = id)) as [->|Hne]; [rewrite decide_True by done; lia|].
    rewrite decide_False by (by intros ?%reward_account_inj). lia. }
  assert (Hsum : outcome_sum i = tally (log ++ [e]) id o).
  { rewrite tally_snoc, decide_True, tally_unmentioned by (try done; apply Hi). unfold saturating_add. cbn. lia. }
  split; cbn [gd_ledger set_gd_events set_gd_ledger GlobalDisputesInfo].
  - done.
  - apply (board_credited log s e i Hi Hfee Hog Hsum). symmetry. by apply owners_in_log_added.
  - intros v. apply (voter_ok_grow log e v _ (b_locked (gd_ledger s) GlobalDisputeLockId v) _ (GlobalDisputesInfo s)).
    + apply (gi_voters _ _ Hi v).
    + rewrite voted_snoc. cbn. lia.
    + cbn. rewrite Hlk. lia.
    + intros id'. apply (credited_info_dom id o i s).
    + intros id' g' Hg' Ha'. destruct (credited_info_active id o i s id' g' Hog Hg' Ha') as [?|[-> Hn]]; [by left|congruence].
  - done.
  - intros id' lk. cbn. rewrite Hlk. apply Hi.
  - apply (credited_pots log s l o i id Hi); [done|done|]. intros id'. rewrite Hfree, Hno. cbn. case_decide; lia.
Qed.

Lemma vote_keeps log s v id o amount s' : gd_inv log s -> user v -> 0 <= amount <= umax 128 ->
  vote_on_outcome (Signed v) id o amount s = (Ok tt, s') -> gd_inv (log ++ [GVoted id o v amount]) s'.
Proof.
  intros Hi Hv [Ha Hmax] (v' & g & j & la & li & [= <-] & Hg & Hact & Hj & Hla & Hafter & ->)%vote_on_outcome_spec.
  set (e := GVoted id o v amount).
  set (i := mkOutcomeInfo (saturating_add 128 (outcome_sum j) amount) (possession j)).
  assert (Hog : og_active (GlobalDisputesInfo s !! id)) by (by rewrite Hg).
  destruct (proj1 (gi_board _ _ Hi id) _ _ Hj) as (Hsum & Hown & _).
  assert (Hla0 : 0 <= la).
  { destruct Hafter as [(n & prev & Hn & -> & _)|(n & _ & -> & _)]; [|done]. unfold saturating_add. pose proof umax_128.
    destruct (proj1 (proj2 (gi_voters _ _ Hi v)) id prev) as [? _]; [by eapply list_elem_of_lookup_2|]. lia. }
  split; cbn [gd_ledger set_gd_events set_gd_ledger set_Locks GlobalDisputesInfo].
  - apply amounts_snoc. split; [apply Hi|done].
  - apply (board_credited log s e i Hi Ha Hog).
    + cbn. rewrite tally_snoc, decide_True by (try done; apply Hi). by rewrite Hsum.
    + cbn. unfold e. by rewrite owners_in_log_vote.
  - intros x. unfold locks_of. cbn. rewrite b_extend_lock_spec by done. destruct (decide (x = v)) as [->|Hne].
    + rewrite lookup_insert_eq. cbn. rewrite decide_True by done.
      apply (voter_ok_vote log v (locks_of v s) _ (GlobalDisputesInfo s)); try done.
      * apply Hi.
      * apply (gi_voters _ _ Hi v).
      * eauto.
      * intros id'. apply (credited_info_dom id o i s).
      * intros id' g' Hg' Ha'. destruct (credited_info_active id o i s id' g' Hog Hg' Ha') as [?|[-> Hn]]; [done|congruence].
    + rewrite lookup_insert_ne, decide_False by congruence.
      apply (voter_ok_grow log e x _ (b_locked (gd_ledger s) GlobalDisputeLockId x) _ (GlobalDisputesInfo s)).
      * apply (gi_voters _ _ Hi x).
      * rewrite voted_snoc. cbn. rewrite decide_False by (intros [_ ?]; congruence). lia.
      * lia.
      * intros id'. apply (credited_info_dom id o i s).
      * intros id' g' Hg' Ha'. destruct (credited_info_active id o i s id' g' Hog Hg' Ha') as [?|[-> Hn]]; [by left|congruence].
  - exact (proj1 (b_extend_lock_keeps _ GlobalDisputeLockId v la (gi_ledger _ _ Hi) Hla0)).
  - intros id' lk. rewrite b_extend_lock_spec by done. rewrite decide_False; [apply Hi|]. intros [= _ Heq]. by apply (Hv id').
  - change (forall id', pot_ok (outcomes_of id' (credited id o i s)) (GlobalDisputesInfo (credited id o i s) !! id')
      (b_free (b_extend_lock GlobalDisputeLockId v la (gd_ledger s)) (reward_account id'))).
    apply (credited_pots log s _ o i id Hi); [|done|].
    + apply (proj1 (gi_pots _ _ Hi id) _ _ Hj).
    + intros id'. rewrite (proj2 (b_extend_lock_keeps _ GlobalDisputeLockId v la (gi_ledger _ _ Hi) Hla0)).
      rewrite Hj. cbn. change (fee_of i) with (fee_of j). case_decide; lia.
Qed.

(** The initial items of a dispute. *)
Definition item_entry (id : Z) (it : InitialItem) : GdEntry := GInitial id (item_outcome it) (item_owner it) (item_amount it).
Definition item_ok (it : InitialItem) : Prop := 0 <= item_amount it <= umax 128.

Lemma push_initial_item_spec id m it s s' : push_initial_item id m it s = (Ok tt, s') ->
  exists i, s' = credited id (item_outcome it) i s /\
    match outcomes_of id s !! item_outcome it with
    | Some j => exists ws, possession j = Shared ws /\ possession i = Shared (ws ++ [item_owner it]) /\
                  outcome_sum i = saturating_add 128 (outcome_sum j) (item_amount it)
    | None => possession i = Shared [item_owner it] /\ outcome_sum i = item_amount it
    end.
Proof.
  intros Hr. apply bind_ok in Hr as (u & s1 & [_ ->]%lift_ok & Hr). apply bind_ok in Hr as (s0 & s1 & [-> ->]%get_ok & Hr).
  destruct (outcomes_of id s !! item_outcome it) as [j|].
  - apply bind_ok in Hr as (ws & s1 & [Hws%ok_or_ok ->]%lift_ok & Hr).
    apply bind_ok in Hr as (ws' & s1 & [Hws'%ok_or_ok ->]%lift_ok & Hr). unfold try_push in Hws'. apply if_some_eq in Hws' as ->.
    rewrite credit_run in Hr. injection Hr as <-. eexists. split; [done|]. exists ws. destruct (possession j); [done|].
    by injection Hws as ->.
  - pose proof max_owners_pos as Hpos. unfold try_push in Hr. cbn [length] in Hr.
    rewrite (proj2 (Z.ltb_lt (Z.of_nat 0) MaxOwners)) in Hr by lia. cbn [app] in Hr. rewrite credit_run in Hr.
    injection Hr as <-. eexists. split; [done|]. done.
Qed.

Lemma push_initial_item_keeps log s id m it s' : gd_inv log s -> item_ok it -> og_active (GlobalDisputesInfo s !! id) ->
  push_initial_item id m it s = (Ok tt, s') ->
  gd_inv (log ++ [item_entry id it]) s' /\ og_active (GlobalDisputesInfo s' !! id).
Proof.
  intros Hi [Ha Hmax] Hog (i & -> & Hcase)%push_initial_item_spec. set (e := item_entry id it). set (o := item_outcome it) in *.
  assert (Hfacts : outcome_sum i = tally (log ++ [e]) id o /\ possession i = owners_in_log (log ++ [e]) id o /\ fee_of i = 0 /\
    default 0 (fee_of <$> outcomes_of id s !! o) = 0).
  { rewrite tally_snoc, decide_True by (try done; apply Hi). destruct (outcomes_of id s !! o) as [j|] eqn:Hj.
    - destruct Hcase as (ws & Hpj & Hpi & Hsi). destruct (proj1 (gi_board _ _ Hi id) _ _ Hj) as (Hsum & Hown & _).
      unfold fee_of. cbn. rewrite Hpi, Hpj, Hsi, Hsum. split_and!; [done| |done..]. symmetry. apply owners_in_log_initial. congruence.
    - destruct Hcase as (Hpi & Hsi). pose proof (board_unmentioned _ _ _ _ o (gi_board _ _ Hi id) Hog Hj) as Hun.
      unfold fee_of. rewrite Hpi, Hsi, tally_unmentioned by done. split_and!; [unfold saturating_add; cbn; lia| |done..].
      symmetry. by apply owners_in_log_first. }
  assert (Hfix : fixed_fee i) by (unfold fixed_fee; destruct (outcomes_of id s !! o) as [j|]; [destruct Hcase as (ws & _ & -> & _)|destruct Hcase as [-> _]]; done).
  destruct Hfacts as (Hsum & Hown & Hfee & Hfee0). split; [|rewrite credited_info, decide_True by done; by apply updated_info_active].
  split; cbn [gd_ledger credited insert_outcome insert_info set_outcomes_of].
  - apply amounts_snoc. split; [apply Hi|done].
  - by apply (board_credited log s e i Hi Ha Hog).
  - intros v. apply (voter_ok_grow log e v _ (b_locked (gd_ledger s) GlobalDisputeLockId v) _ (GlobalDisputesInfo s)).
    + apply (gi_voters _ _ Hi v).
    + rewrite voted_snoc. cbn. lia.
    + done.
    + intros id'. apply (credited_info_dom id o i s).
    + intros id' g' Hg' Ha'. destruct (credited_info_active id o i s id' g' Hog Hg' Ha') as [?|[-> Hn]]; [by left|].
      right. split; [done|by eapply voted_no_entry].
  - apply Hi.
  - apply (gi_unlocked _ _ Hi).
  - apply (credited_pots log s _ o i id Hi); [done|done|]. intros id'. cbn. rewrite Hfee, Hfee0. case_decide; lia.
Qed.

(** A change of status of an open dispute. *)
Lemma status_keeps log s id g st : gd_inv log s -> GlobalDisputesInfo s !! id = Some g -> active_status (gd_status g) ->
  gd_inv log (insert_info id (set_gd_status st g) s).
Proof.
  intros Hi Hg Hact. split; try apply Hi.
  - intros id'. rewrite info_insert. case_decide as Hid; [subst id'|apply (gi_board _ _ Hi id')].
    destruct (gi_board _ _ Hi id) as [Hos Hb]. rewrite Hg in Hb. destruct Hb as (Hl & Hall & _). split; [done|].
    split_and!; [done|by intros _; apply Hall|]. intros _ Hw. destruct Hl as (_ & (e & He & Hm & Ho) & _).
    destruct (Hall Hact e He Hm) as [i Hw'].
    change (outcomes_of id s !! winner_outcome g = None) in Hw. rewrite <- Ho in Hw. congruence.
  - intros v. destruct (gi_voters _ _ Hi v) as (Hs & Hle & Hrec). split_and!; [done| |].
    + intros id' a Ha. rewrite info_insert. destruct (Hle _ _ Ha). split; [done|]. case_decide; [eauto|done].
    + intros id' g'. rewrite info_insert. case_decide as Hid; [subst id'; intros _ _; by eapply Hrec|apply Hrec].
  - intros id'. rewrite info_insert. case_decide as Hid; [subst id'|apply (gi_pots _ _ Hi id')].
    destruct (gi_pots _ _ Hi id) as [Hfix Hpot]. rewrite Hg in Hpot. split; [done|]. intros _. apply Hpot.
    intros Hst. by rewrite Hst in Hact.
Qed.

Lemma start_items_keep id m items log s s' : gd_inv log s -> Forall item_ok items -> og_active (GlobalDisputesInfo s !! id) ->
  for_each items (push_initial_item id m) s = (Ok tt, s') ->
  gd_inv (log ++ (item_entry id <$> items)) s' /\ og_active (GlobalDisputesInfo s' !! id).
Proof.
  intros Hi Hit. revert log s Hi. induction Hit as [|it items Hok Hit IH]; intros log s Hi Hog Hr.
  - apply mret_ok in Hr as [_ ->]. by rewrite app_nil_r.
  - apply bind_ok in Hr as ([] & s1 & H1 & Hr). destruct (push_initial_item_keeps _ _ _ _ _ _ Hi Hok Hog H1) as [Hi1 Hog1].
    rewrite fmap_cons, cons_middle, (assoc_L (++)). by apply (IH _ s1).
Qed.

Lemma start_keeps log s id items n s' : gd_inv log s -> Forall item_ok items ->
  start_global_dispute id items s = (Ok n, s') -> gd_inv (log ++ (item_entry id <$> items)) s'.
Proof.
  intros Hi Hit Hr. apply bind_ok in Hr as (s0 & s1 & [-> ->]%get_ok & Hr).
  apply bind_ok in Hr as (m & s1 & [_ ->]%lift_ok & Hr).
  apply bind_ok in Hr as (u & s1 & [Hno%ensure_ok ->]%lift_ok & Hr).
  apply negb_true_iff, bool_decide_eq_false, eq_None_not_Some in Hno.
  apply bind_ok in Hr as ([] & s1 & Hitems & Hr).
  apply start_items_keep with (log := log) in Hitems as [Hi1 Hog1]; [|done|done|by rewrite Hno].
  apply bind_ok in Hr as (ids & s2 & Hq & Hr).
  assert (Hi2 : gd_inv (log ++ (item_entry id <$> items)) s2 /\ og_active (GlobalDisputesInfo s2 !! id)).
  { unfold gd_on_queue in Hq. destruct (add_auto_resolve _ _ _) as [r q]. injection Hq as -> <-. split; [|done].
    split; apply Hi1. }
  destruct Hi2 as [Hi2 Hog2]. apply bind_ok in Hr as (g & s3 & [Hg ->]%get_info_ok & Hr).
  apply bind_ok in Hr as (u2 & s3 & [_ ->]%modify_ok & [_ ->]%mret_ok).
  apply (status_keeps _ s2); [done|done|by rewrite Hg in Hog2].
Qed.

Lemma destroy_keeps log s id s' : gd_inv log s -> destroy_global_dispute id s = (Ok tt, s') -> gd_inv log s'.
Proof.
  intros Hi Hr. apply bind_ok in Hr as (g & s1 & [Hg ->]%get_info_ok & Hr).
  destruct (gd_status g) as [e1 e2| |] eqn:Hst; [|by apply mret_ok in Hr as [_ ->]..].
  apply bind_ok in Hr as (u & s1 & [_ ->]%modify_ok & [_ ->]%modify_ok).
  apply (status_keeps log _ id g); [split; apply Hi|done|by rewrite Hst].
Qed.

(** The winner of a dispute that was not destroyed. *)
Lemma determine_keeps log s id g r s' : gd_inv log s -> GlobalDisputesInfo s !! id = Some g -> gd_status g <> GdDestroyed ->
  determine_voting_winner id s = (Ok r, s') -> gd_inv log s'.
Proof.
  intros Hi Hg Hst Hr. apply bind_ok in Hr as (s0 & s1 & [-> ->]%get_ok & Hr). rewrite Hg in Hr.
  apply bind_ok in Hr as (u & s1 & [_ ->]%modify_ok & Hr). apply bind_ok in Hr as (u' & s1 & [_ ->]%modify_ok & [_ ->]%mret_ok).
  assert (Hi1 : gd_inv log (insert_info id (set_gd_status GdFinished g) s)).
  { destruct (gd_status g) eqn:Hgs; [apply status_keeps; [done..|by rewrite Hgs]| |done].
    destruct g as [w i st]. cbn in Hgs. subst st. unfold insert_info, set_gd_status. cbn. rewrite insert_id by done. split; apply Hi. }
  split; apply Hi1.
Qed.

(** What unlocking leaves. *)
Lemma unlock_run log s w z v : gd_inv log s -> gd_lookup z = Ok v ->
  let li := List.filter (lock_retained s) (locks_of v s) in
  let n := fold_left (fun acc p => Z.max acc p.2) li 0 in
  exists l, unlock_vote_balance (Signed w) z s = (Ok tt, set_gd_ledger l (set_Locks (<[v := li]> (Locks s)) s)) /\ ok l /\
    (forall x, b_free l x = b_free (gd_ledger s) x) /\
    (forall lk x, b_locked l lk x = if decide ((lk, x) = (GlobalDisputeLockId, v)) then n else b_locked (gd_ledger s) lk x).
Proof.
  intros Hi Hz li n. assert (Hn0 : 0 <= n) by apply fold_max_bounds.
  unfold unlock_vote_balance, transactional, mbind, st_bind, lift, get, modify. cbn [ensure_signed]. rewrite Hz.
  fold li. fold n. destruct (Z.eqb_spec n 0) as [Hn|Hn]; cbn [gd_ledger set_Locks].
  - destruct (b_remove_lock_keeps (gd_ledger s) GlobalDisputeLockId v (gi_ledger _ _ Hi)) as [? ?].
    eexists. split_and!; [done|done|done|]. intros lk x. rewrite Hn. apply b_remove_lock_spec.
  - destruct (b_set_lock_keeps (gd_ledger s) GlobalDisputeLockId v n (gi_ledger _ _ Hi) Hn0) as [? ?].
    eexists. split_and!; [done|done|done|]. intros lk x. by apply b_set_lock_spec.
Qed.

Lemma unlock_keeps log s w voter s' : gd_inv log s -> unlock_vote_balance (Signed w) voter s = (Ok tt, s') -> gd_inv log s'.
Proof.
  intros Hi Hr. pose proof Hr as Hr'%transactional_ok. apply bind_ok in Hr' as (u & s1 & [_ ->]%lift_ok & Hr').
  apply bind_ok in Hr' as (v & s1 & [Hz ->]%lift_ok & _).
  destruct (unlock_run log s w voter v Hi Hz) as (l & Hrun & Hok & Hfree & Hlk). rewrite Hrun in Hr. injection Hr as <-.
  set (li := List.filter (lock_retained s) (locks_of v s)) in *. set (n := fold_left _ li 0) in *.
  assert (Hn0 : 0 <= n) by apply fold_max_bounds. pose proof (voter_ok_unlock _ _ _ _ s (gi_voters _ _ Hi v)) as Hvo.
  split; cbn [gd_ledger set_gd_ledger GlobalDisputesInfo].
  - apply Hi.
  - apply (gi_board _ _ Hi).
  - intros x. rewrite Hlk. unfold locks_of. cbn. destruct (decide (x = v)) as [->|Hne].
    + rewrite lookup_insert_eq, decide_True by done. done.
    + rewrite lookup_insert_ne, decide_False by congruence. apply (gi_voters _ _ Hi x).
  - done.
  - intros id lk. rewrite Hlk. pose proof (gi_unlocked _ _ Hi id) as Hun. case_decide as Hd; [|apply Hun].
    injection Hd as -> <-. destruct (gi_voters _ _ Hi (reward_account id)) as (_ & Hle & _).
    assert (n <= 0); [|lia]. apply fold_max_upper; [done|]. intros [k a] Hp.
    apply list_elem_of_In, filter_In in Hp as [Hp%list_elem_of_In _].
    destruct (Hle _ _ Hp) as [Ha _]. rewrite Hun in Ha. cbn. lia.
  - intros id. rewrite Hfree. apply (gi_pots _ _ Hi id).
Qed.

(** ** Paying out *)

(** Only [pot] pays from [l] to [l']. *)
Definition paid_by (pot : AccountId) (l l' : GdLedger) : Prop :=
  ok l' /\ (forall lk x, b_locked l' lk x = b_locked l lk x) /\ (forall x, x <> pot -> b_free l x <= b_free l' x).

Lemma paid_by_refl pot l : ok l -> paid_by pot l l.
Proof. intros Hl. split_and!; [done|done|intros; lia]. Qed.
Lemma paid_by_trans pot l l1 l2 : paid_by pot l l1 -> paid_by pot l1 l2 -> paid_by pot l l2.
Proof.
  intros (_ & Hlk1 & Hf1) (Hok & Hlk2 & Hf2). split_and!; [done|intros; by rewrite Hlk2|].
  intros x Hx. specialize (Hf1 x Hx). specialize (Hf2 x Hx). lia.
Qed.
Lemma transfer_paid_by pot w v k l : ok l -> 0 <= v -> paid_by pot l (b_transfer pot w v k l).2.
Proof.
  intros Hl Hv. destruct (b_transfer pot w v k l) as [[[]|e] l'] eqn:Ht; cbn.
  - destruct (b_transfer_ok _ _ _ _ _ _ Hl Hv Ht) as [Hok Hlk]. split_and!; [done|done|]. intros x Hx.
    rewrite (b_transfer_other _ _ _ _ _ _ x Hl Hv Ht) by (by left). unfold moved.
    rewrite decide_False by done. case_decide; lia.
  - apply b_transfer_err in Ht as ->. by apply paid_by_refl.
Qed.

Lemma transfer_others pot w v k l x : ok l -> 0 <= v -> x <> pot -> x <> w -> b_free (b_transfer pot w v k l).2 x = b_free l x.
Proof.
  intros Hl Hv Hx Hw. destruct (b_transfer pot w v k l) as [[[]|e] l'] eqn:Ht; cbn; [|by apply b_transfer_err in Ht as ->].
  rewrite (b_transfer_other _ _ _ _ _ _ x Hl Hv Ht) by (by left). unfold moved. rewrite !decide_False by done. lia.
Qed.

(** The pot after a payment has what it needs, when that is nothing or at least
    the minimum balance. *)
Lemma transfer_pot_left pot w v k l need : ok l -> 0 <= v -> w <> pot -> 0 <= need -> need = 0 \/ minimum_balance <= need ->
  v + need <= b_free l pot -> need <= b_free (b_transfer pot w v k l).2 pot.
Proof.
  intros Hl Hv Hw Hn Hcase Hle. destruct (b_transfer pot w v k l) as [[[]|e] l'] eqn:Ht; cbn.
  - destruct Hcase as [->|Hmin].
    + apply b_free_range. by apply (b_transfer_ok _ _ _ _ _ _ Hl Hv Ht).
    + rewrite (b_transfer_other _ _ _ _ _ _ pot Hl Hv Ht) by (right; lia). unfold moved.
      rewrite decide_True, decide_False by done. lia.
  - apply b_transfer_err in Ht as ->. lia.
Qed.

(** Running an attempted payment. *)
Definition pay_step (pot w : AccountId) (v : Z) (s : GdState) : GdState :=
  set_gd_ledger (b_transfer pot w v AllowDeath (gd_ledger s)).2 s.
Lemma attempt_pay {A} pot w v s (f : Result DispatchError unit -> ST DispatchError GdState A) :
  (attempt (gd_on_ledger (b_transfer pot w v AllowDeath)) ≫= f) s =
    f (b_transfer pot w v AllowDeath (gd_ledger s)).1 (pay_step pot w v s).
Proof. unfold attempt, gd_on_ledger, pay_step, mbind, st_bind. by destruct (b_transfer _ _ _ _ _). Qed.

(** ** Refunds *)

Lemma refund_outcome_run id i s : refund_outcome id i s =
  (Ok tt, match possession i with Paid w f => pay_step (reward_account id) w f s | Shared _ => s end).
Proof. unfold refund_outcome. destruct (possession i); [by rewrite attempt_pay|done]. Qed.

Lemma refund_loop id infos s rest : ok (gd_ledger s) -> Forall fixed_fee infos ->
  0 <= rest -> rest = 0 \/ VotingOutcomeFee <= rest ->
  zsum fee_of infos + rest <= b_free (gd_ledger s) (reward_account id) ->
  exists l, for_each infos (refund_outcome id) s = (Ok tt, set_gd_ledger l s) /\
    paid_by (reward_account id) (gd_ledger s) l /\ rest <= b_free l (reward_account id).
Proof.
  intros Hok Hfix Hr0 Hrest. pose proof outcome_fee_range as [Hmin _]. pose proof fee_nonneg as Hf0.
  revert s Hok. induction Hfix as [|i infos Hi Hfix IH]; intros s Hok Hle.
  - exists (gd_ledger s). cbn in Hle. split_and!; [by destruct s|by apply paid_by_refl|lia].
  - rewrite zsum_cons in Hle. assert (Hall : 0 <= zsum fee_of infos /\ (zsum fee_of infos = 0 \/ VotingOutcomeFee <= zsum fee_of infos)).
    { apply zsum_fees. eapply Forall_impl; [exact Hfix|]. intros j. apply fixed_fee_cases. }
    cbn [for_each]. unfold mbind at 1, st_bind at 1. rewrite refund_outcome_run.
    unfold fee_of at 1 in Hle. unfold fixed_fee in Hi. destruct (possession i) as [w f|ws]; [|apply IH; [done|lia]].
    destruct Hi as [-> Hw]. set (s1 := pay_step (reward_account id) w VotingOutcomeFee s).
    assert (Hp1 : paid_by (reward_account id) (gd_ledger s) (gd_ledger s1)) by (by apply transfer_paid_by).
    destruct (IH s1) as (l & Hrun & Hp & Hleft); [apply Hp1| |].
    { apply transfer_pot_left; [done|done|apply Hw|lia|lia|lia]. }
    exists l. split_and!; [done|by eapply paid_by_trans|done].
Qed.

(** A concluded dispute whose outcomes, information and account change. *)
Lemma concluded_keeps log s s' id g g' os' : gd_inv log s -> GlobalDisputesInfo s !! id = Some g ->
  ~ active_status (gd_status g) -> ~ active_status (gd_status g') ->
  board_ok log id os' (Some g') -> pot_ok os' (Some g') (b_free (gd_ledger s') (reward_account id)) ->
  paid_by (reward_account id) (gd_ledger s) (gd_ledger s') -> Locks s' = Locks s ->
  (forall id', outcomes_of id' s' = if decide (id' = id) then os' else outcomes_of id' s) ->
  (forall id', GlobalDisputesInfo s' !! id' = if decide (id' = id) then Some g' else GlobalDisputesInfo s !! id') ->
  gd_inv log s'.
Proof.
  intros Hi Hg Hna Hna' Hb Hp (Hok & Hlk & Hfree) Hlocks Hos Hinfo. split.
  - apply Hi.
  - intros id'. rewrite Hos, Hinfo. case_decide as Hid; [by subst id'|apply (gi_board _ _ Hi id')].
  - intros v. unfold locks_of. rewrite Hlocks, Hlk. destruct (gi_voters _ _ Hi v) as (Hs & Hle & Hrec). split_and!; [done| |].
    + intros id' a Ha. destruct (Hle _ _ Ha). split; [done|]. rewrite Hinfo. case_decide; [eauto|done].
    + intros id' g0. rewrite Hinfo. case_decide as Hid; [by intros [= <-] ?|apply Hrec].
  - done.
  - intros id' lk. rewrite Hlk. apply Hi.
  - intros id'. rewrite Hos, Hinfo. case_decide as Hid; [by subst id'|].
    destruct (gi_pots _ _ Hi id') as [Hfix Hpot]. split; [done|]. destruct (GlobalDisputesInfo s !! id'); [|done].
    intros Hst. specialize (Hpot Hst). assert (Hle : b_free (gd_ledger s) (reward_account id') <= b_free (gd_ledger s') (reward_account id')); [|lia].
    apply Hfree. by intros ?%reward_account_inj.
Qed.

(** What a clean-up drains. *)
Definition drained (id : Z) (os : gmap OutcomeReport OutcomeInfo) : list (OutcomeReport * OutcomeInfo) :=
  take (Z.to_nat RemoveKeysLimit) (gd_iter id os).
Definition undrained (id : Z) (os : gmap OutcomeReport OutcomeInfo) : gmap OutcomeReport OutcomeInfo :=
  foldr delete os (drained id os).*1.

Lemma drain_run id s : drain_outcomes id s =
  (Ok (drained id (outcomes_of id s)).*2, set_outcomes_of id (undrained id (outcomes_of id s)) s).
Proof. done. Qed.

Lemma drained_in id os k i : (k, i) ∈ drained id os -> os !! k = Some i.
Proof.
  intros Hin. assert (Hin' : (k, i) ∈ gd_iter id os) by (rewrite <- (take_drop (Z.to_nat RemoveKeysLimit)); apply elem_of_app; by left).
  rewrite gd_iter_perm in Hin'. by apply elem_of_map_to_list in Hin'.
Qed.
Lemma drained_NoDup id os : NoDup (drained id os).*1.
Proof.
  assert (Hnd : NoDup (gd_iter id os).*1) by (rewrite gd_iter_perm; apply NoDup_fst_map_to_list).
  rewrite <- (take_drop (Z.to_nat RemoveKeysLimit) (gd_iter id os)), fmap_app in Hnd. by apply NoDup_app in Hnd as [? _].
Qed.
Lemma foldr_delete_lookup {V} (os : gmap OutcomeReport V) ks k i : foldr delete os ks !! k = Some i -> os !! k = Some i /\ k ∉ ks.
Proof.
  induction ks as [|k' ks IH]; cbn; [split; [done|apply not_elem_of_nil]|].
  intros [Hne Hk]%lookup_delete_Some. destruct (IH Hk). split; [done|]. by apply not_elem_of_cons.
Qed.
Lemma undrained_in id os k i : undrained id os !! k = Some i -> os !! k = Some i.
Proof. intros [? _]%foldr_delete_lookup. done. Qed.

Lemma fees_drained_list os kvs : NoDup kvs.*1 -> (forall k i, (k, i) ∈ kvs -> os !! k = Some i) ->
  fees os = zsum fee_of kvs.*2 + fees (foldr delete os kvs.*1).
Proof.
  induction kvs as [|[k i] kvs IH]; intros Hnd Hin; cbn; [lia|]. apply NoDup_cons in Hnd as [Hk Hnd].
  rewrite fees_delete. rewrite (IH Hnd) by (intros; apply Hin; by right). fold (zsum fee_of kvs.*2).
  assert (Hki : foldr delete os kvs.*1 !! k = Some i); [|rewrite Hki; cbn; lia].
  pose proof (Hin k i ltac:(by left)) as Hki. clear IH Hnd Hin. induction kvs as [|[k' i'] kvs IH]; cbn in *; [done|].
  apply not_elem_of_cons in Hk as [Hne Hk]. rewrite lookup_delete_ne by done. by apply IH.
Qed.
Lemma fees_drained id os : fees os = zsum fee_of (drained id os).*2 + fees (undrained id os).
Proof. apply fees_drained_list; [apply drained_NoDup|apply drained_in]. Qed.
Lemma drained_fixed id os : map_Forall (fun _ => fixed_fee) os -> Forall fixed_fee (drained id os).*2.
Proof.
  intros Hf. apply Forall_forall. intros i ([k i'] & -> & Hin)%list_elem_of_fmap. by apply (Hf k), (drained_in id).
Qed.

Lemma deposit_cleaned_run id s : exists ev, deposit_cleaned id s = (Ok tt, set_gd_events ev s).
Proof. eexists. done. Qed.

Lemma board_shrinks log id os os' og g : board_ok log id os og -> og = Some g -> gd_status g = GdDestroyed ->
  (forall k i, os' !! k = Some i -> os !! k = Some i) -> board_ok log id os' og.
Proof.
  intros [Hos Hb] -> Hst Hsub. split; [intros k i Hi; by apply Hos, Hsub|]. destruct Hb as (Hl & _ & _).
  split_and!; [done|by rewrite Hst|by rewrite Hst].
Qed.

Lemma refund_run log s w id g (s1 := set_outcomes_of id (undrained id (outcomes_of id s)) s) :
  gd_inv log s -> GlobalDisputesInfo s !! id = Some g -> gd_status g = GdDestroyed ->
  exists l ev, refund_vote_fees (Signed w) id s = (Ok tt, set_gd_events ev (set_gd_ledger l s1)) /\
    for_each (drained id (outcomes_of id s)).*2 (refund_outcome id) s1 = (Ok tt, set_gd_ledger l s1) /\
    paid_by (reward_account id) (gd_ledger s) l /\ fees (undrained id (outcomes_of id s)) <= b_free l (reward_account id).
Proof.
  intros Hi Hg Hst. set (os := outcomes_of id s) in *.
  destruct (gi_pots _ _ Hi id) as [Hfix Hpot]. rewrite Hg in Hpot. fold os in Hfix, Hpot.
  assert (Hfix' : map_Forall (fun _ => fixed_fee) (undrained id os)) by (intros k i Hk; by apply (Hfix k), (undrained_in id)).
  destruct (fees_cases _ Hfix') as [Hf0 Hfc].
  destruct (refund_loop id (drained id os).*2 s1 (fees (undrained id os))) as (l & Hrun & Hp & Hl); try done.
  - apply Hi.
  - by apply drained_fixed.
  - cbn. rewrite <- fees_drained. apply Hpot. by rewrite Hst.
  - destruct (deposit_cleaned_run id (set_gd_ledger l s1)) as [ev Hev]. exists l, ev. split_and!; try done.
    unfold refund_vote_fees, transactional, get_info, mbind, st_bind, lift, get. cbn [ensure_signed]. rewrite Hg. cbn [ok_or].
    rewrite bool_decide_eq_true_2 by done. cbn [ensure]. rewrite drain_run. fold os. fold s1. by rewrite Hrun, Hev.
Qed.

Lemma refund_keeps log s w id s' : gd_inv log s -> refund_vote_fees (Signed w) id s = (Ok tt, s') -> gd_inv log s'.
Proof.
  intros Hi Hr. pose proof Hr as Hr'%transactional_ok. apply bind_ok in Hr' as (u & s1 & [_ ->]%lift_ok & Hr').
  apply bind_ok in Hr' as (g & s1 & [Hg ->]%get_info_ok & Hr').
  apply bind_ok in Hr' as (u2 & s1 & [Hst%ensure_ok _]%lift_ok & _). apply bool_decide_eq_true in Hst.
  destruct (refund_run log s w id g Hi Hg Hst) as (l & ev & Hrun & _ & Hp & Hl). rewrite Hrun in Hr. injection Hr as <-.
  apply (concluded_keeps log s _ id g g (undrained id (outcomes_of id s))); try done.
  - rewrite Hst. intros [].
  - rewrite Hst. intros [].
  - rewrite <- Hg. eapply board_shrinks; [apply Hi|done|done|]. apply undrained_in.
  - split; [|done]. intros k i Hk. by apply (proj1 (gi_pots _ _ Hi id) k), (undrained_in id).
  - intros id'. apply outcomes_of_set.
  - intros id'. cbn. case_decide as Hid; [by subst id'|done].
Qed.

(** ** Clean-up and rewards *)

Lemma purge_spec origin id s s' : purge_outcomes origin id s = (Ok tt, s') ->
  exists g ev, GlobalDisputesInfo s !! id = Some g /\ gd_status g = GdFinished /\
    let os := outcomes_of id s in
    let os1 := delete (winner_outcome g) os in
    let g' := match os !! winner_outcome g with Some i => set_outcome_info i g | None => g end in
    Locks s' = Locks s /\ gd_ledger s' = gd_ledger s /\ gd_events s' = ev /\
    (forall id', outcomes_of id' s' = if decide (id' = id) then undrained id os1 else outcomes_of id' s) /\
    (forall id', GlobalDisputesInfo s' !! id' = if decide (id' = id) then Some g' else GlobalDisputesInfo s !! id').
Proof.
  intros Hr%transactional_ok. apply bind_ok in Hr as (u & s1 & [_ ->]%lift_ok & Hr).
  apply bind_ok in Hr as (g & s1 & [Hg ->]%get_info_ok & Hr).
  apply bind_ok in Hr as (u2 & s1 & [Hst%ensure_ok ->]%lift_ok & Hr). apply bool_decide_eq_true in Hst.
  apply bind_ok in Hr as (s0 & s1 & [-> ->]%get_ok & Hr). apply bind_ok in Hr as (u3 & s1 & Hw & Hr).
  apply bind_ok in Hr as (dr & s2 & Hd & Hr). rewrite drain_run in Hd. injection Hd as _ <-.
  destruct (deposit_cleaned_run id (set_outcomes_of id (undrained id (outcomes_of id s1)) s1)) as [ev Hev].
  rewrite Hev in Hr. injection Hr as <-. exists g, ev. split_and!; [done|done|]. cbn zeta.
  destruct (outcomes_of id s !! winner_outcome g) as [i|] eqn:Hi.
  - apply bind_ok in Hw as (u4 & s2 & [_ ->]%modify_ok & [_ ->]%modify_ok). split_and!; try done.
    + intros id'. change (outcomes_of id' (set_outcomes_of id (undrained id (outcomes_of id (set_outcomes_of id
        (delete (winner_outcome g) (outcomes_of id s)) s))) (set_outcomes_of id (delete (winner_outcome g) (outcomes_of id s)) s)) =
        if decide (id' = id) then undrained id (delete (winner_outcome g) (outcomes_of id s)) else outcomes_of id' s).
      rewrite !outcomes_of_set. rewrite (decide_True (P := id = id)) by done. by case_decide.
    + intros id'. apply (info_insert id (set_outcome_info i g) id' s).
  - apply mret_ok in Hw as [_ ->]. cbn zeta. rewrite delete_id by done. split_and!; try done.
    + intros id'. apply outcomes_of_set.
    + intros id'. cbn. case_decide as Hid; [by subst id'|done].
Qed.

Lemma purge_keeps log s w id s' : gd_inv log s -> purge_outcomes (Signed w) id s = (Ok tt, s') -> gd_inv log s'.
Proof.
  intros Hi (g & ev & Hg & Hst & Hl & Hled & _ & Hos & Hinfo)%purge_spec.
  destruct (gi_board _ _ Hi id) as [Hall Hb]. rewrite Hg in Hb. destruct Hb as ((Hsum & Hon & Hmax) & _ & Hfin).
  eapply (concluded_keeps log s s' id g); [done|done|rewrite Hst; intros []| | | | |exact Hl|exact Hos|exact Hinfo].
  - case_match; cbn; rewrite Hst; intros [].
  - split; [intros k i Hk; apply undrained_in, lookup_delete_Some in Hk as [_ Hk]; by apply Hall|].
    destruct (outcomes_of id s !! winner_outcome g) as [i|] eqn:Hw.
    + destruct (Hall _ _ Hw) as (Hs & Hp & _). split_and!; [split_and!; [done|done|exact Hmax]|by cbn; rewrite Hst|done].
    + split_and!; [split_and!; [done|done|exact Hmax]|by rewrite Hst|]. intros _ _. by apply Hfin.
  - split; [|intros Hne; destruct Hne; case_match; cbn; by rewrite Hst].
    intros k i Hk. apply undrained_in, lookup_delete_Some in Hk as [_ Hk]. by apply (proj1 (gi_pots _ _ Hi id) k).
  - rewrite Hled. apply paid_by_refl, Hi.
Qed.

Lemma reward_owners_run account each owners rem s : ok (gd_ledger s) -> 0 <= each -> 0 <= rem ->
  exists l, reward_owners account each owners rem s = (Ok tt, set_gd_ledger l s) /\ paid_by account (gd_ledger s) l /\
    forall x, x <> account -> x ∉ owners -> b_free l x = b_free (gd_ledger s) x.
Proof.
  revert rem s. induction owners as [|w owners IH]; intros rem s Hok He Hrem.
  - exists (gd_ledger s). split_and!; [by destruct s|by apply paid_by_refl|done].
  - cbn [reward_owners]. rewrite attempt_pay. set (s1 := pay_step _ _ _ s).
    assert (Hp1 : paid_by account (gd_ledger s) (gd_ledger s1)) by (apply transfer_paid_by; [done|lia]).
    destruct (IH (saturating_sub rem (Z.min rem each)) s1) as (l & Hrun & Hp & Hx);
      [apply Hp1|done|unfold saturating_sub; lia|].
    exists l. split_and!; [done|by eapply paid_by_trans|]. intros x Hxa [Hxw Hxo]%not_elem_of_cons. rewrite Hx by done.
    by apply transfer_others; [|lia|..].
Qed.

(** The accounts that own an outcome, and the event of their reward. *)
Definition owners (p : Possession) : list AccountId := match p with Paid w _ => [w] | Shared ws => ws end.
Definition reward_event (id : Z) (p : Possession) : GdEvent :=
  match p with Paid w _ => OutcomeOwnerRewarded id w | Shared ws => OutcomeOwnersRewarded id ws end.

Lemma reward_spec log s w id s' : gd_inv log s -> reward_outcome_owner (Signed w) id s = (Ok tt, s') ->
  exists g l, GlobalDisputesInfo s !! id = Some g /\ gd_status g = GdFinished /\ outcomes_of id s = ∅ /\
    let p := owners_in_log log id (winner_outcome g) in
    s' = set_gd_events (gd_events s ++ [reward_event id p]) (set_gd_ledger l s) /\
    paid_by (reward_account id) (gd_ledger s) l /\
    forall x, x <> reward_account id -> x ∉ owners p -> b_free l x = b_free (gd_ledger s) x.
Proof.
  intros Hi Hr%transactional_ok. apply bind_ok in Hr as (u & s1 & [_ ->]%lift_ok & Hr).
  apply bind_ok in Hr as (s0 & s1 & [-> ->]%get_ok & Hr).
  apply bind_ok in Hr as (u1 & s1 & [Hem%ensure_ok ->]%lift_ok & Hr). apply bool_decide_eq_true in Hem.
  apply bind_ok in Hr as (g & s1 & [Hg ->]%get_info_ok & Hr).
  apply bind_ok in Hr as (u2 & s1 & [Hst%ensure_ok ->]%lift_ok & Hr). apply bool_decide_eq_true in Hst.
  apply bind_ok in Hr as (u3 & s1 & [_ ->]%lift_ok & Hr).
  destruct (gi_board _ _ Hi id) as [_ Hb]. rewrite Hg in Hb. destruct Hb as (_ & _ & Hp).
  specialize (Hp Hst). rewrite Hem in Hp. specialize (Hp (lookup_empty _)). rewrite Hp in Hr.
  set (pot := reward_account id) in *. pose proof (b_free_range _ pot (gi_ledger _ _ Hi)) as Hfree.
  exists g. cbn zeta. destruct (owners_in_log log id (winner_outcome g)) as [x f|ws]; cbn [owners reward_event].
  - unfold reward_paid_possession in Hr. rewrite attempt_pay in Hr. injection Hr as <-. eexists. split_and!; [done..| |].
    + apply transfer_paid_by; [apply Hi|lia].
    + intros y Hy Hno. apply transfer_others; [apply Hi|lia|done|]. intros ->. apply Hno. by left.
  - unfold reward_shared_possession in Hr. apply bind_ok in Hr as (u4 & s1 & Hpay & [_ ->]%modify_ok).
    destruct (checked_div _ _) as [each|] eqn:Hd.
    + apply checked_div_some in Hd as [-> Hn].
      destruct (reward_owners_run pot (b_free (gd_ledger s) pot / Z.of_nat (length ws)) ws (b_free (gd_ledger s) pot) s)
        as (l & Hrun & Hpb & Hx); [apply Hi|apply Z.div_pos; lia|lia|]. rewrite Hrun in Hpay. injection Hpay as <- <-.
      exists l. split_and!; done.
    + apply mret_ok in Hpay as [_ ->]. exists (gd_ledger s). split_and!; [done..|by destruct s|apply paid_by_refl, Hi|done].
Qed.

Lemma reward_keeps log s w id s' : gd_inv log s -> reward_outcome_owner (Signed w) id s = (Ok tt, s') -> gd_inv log s'.
Proof.
  intros Hi Hr. destruct (reward_spec _ _ _ _ _ Hi Hr) as (g & l & Hg & Hst & Hem & -> & Hp & _).
  apply (concluded_keeps log s _ id g g (outcomes_of id s)); try done.
  - rewrite Hst. intros [].
  - rewrite Hst. intros [].
  - rewrite <- Hg. apply Hi.
  - split; [apply (gi_pots _ _ Hi id)|]. by rewrite Hst.
  - intros id'. case_decide as Hid; [by subst id'|done].
  - intros id'. cbn. case_decide as Hid; [by subst id'|done].
Qed.
End Invariant.
