(* ===== verification/GlobalDisputesRuns.v ===== *)
(** * The global-disputes pallet: runs

    Every sequence of calls of the pallet, of calls of prediction-markets into it
    and of what other pallets do to the balances keeps the invariant of
    [GlobalDisputesInv]; and what that means for winners, voters and owners. *)

From S2P Require Import Prelude Errors Collections Interfaces Balances Market GlobalDisputes GlobalDisputesInv.

Section Runs.
Context `{GdConfig} (ok : GdLedger -> Prop) `{!GdLaws ok}.

(** The states the pallet can reach, with the log of what was proposed and voted.
    The accounts of the disputes sign no calls, and other pallets neither touch
    the pallet's locks nor take from those accounts.  A winner is determined of
    a dispute that was not destroyed. *)
Inductive gd_run : list GdEntry -> GdState -> Prop :=
| gd_run_genesis l q c b ev : ok l -> (forall id lk, b_locked l lk (reward_account id) = 0) ->
    gd_run [] (mkGd l ∅ ∅ ∅ q c b ev)
| gd_run_start log s id items n s' : gd_run log s -> Forall item_ok items ->
    transactional (start_global_dispute id items) s = (Ok n, s') -> gd_run (log ++ (item_entry id <$> items)) s'
| gd_run_add log s w id o s' : gd_run log s -> user w -> add_vote_outcome (Signed w) id o s = (Ok tt, s') ->
    gd_run (log ++ [GAdded id o w VotingOutcomeFee]) s'
| gd_run_vote log s v id o amount s' : gd_run log s -> user v -> 0 <= amount <= umax 128 ->
    vote_on_outcome (Signed v) id o amount s = (Ok tt, s') -> gd_run (log ++ [GVoted id o v amount]) s'
| gd_run_determine log s id g r s' : gd_run log s -> GlobalDisputesInfo s !! id = Some g -> gd_status g <> GdDestroyed ->
    determine_voting_winner id s = (Ok r, s') -> gd_run log s'
| gd_run_destroy log s id s' : gd_run log s -> destroy_global_dispute id s = (Ok tt, s') -> gd_run log s'
| gd_run_refund log s w id s' : gd_run log s -> refund_vote_fees (Signed w) id s = (Ok tt, s') -> gd_run log s'
| gd_run_purge log s w id s' : gd_run log s -> purge_outcomes (Signed w) id s = (Ok tt, s') -> gd_run log s'
| gd_run_reward log s w id s' : gd_run log s -> reward_outcome_owner (Signed w) id s = (Ok tt, s') -> gd_run log s'
| gd_run_unlock log s w v s' : gd_run log s -> unlock_vote_balance (Signed w) v s = (Ok tt, s') -> gd_run log s'
| gd_run_others log s l q c b : gd_run log s -> ok l ->
    (forall v, b_locked l GlobalDisputeLockId v = b_locked (gd_ledger s) GlobalDisputeLockId v) ->
    (forall id lk, b_locked l lk (reward_account id) = 0) ->
    (forall id, b_free (gd_ledger s) (reward_account id) <= b_free l (reward_account id)) ->
    gd_run log (mkGd l (Locks s) (Outcomes s) (GlobalDisputesInfo s) q c b (gd_events s)).

Lemma genesis_inv l q c b ev : ok l -> (forall id lk, b_locked l lk (reward_account id) = 0) ->
  gd_inv ok [] (mkGd l ∅ ∅ ∅ q c b ev).
Proof.
  intros Hl Hlk. split; cbn.
  - constructor.
  - intros id. unfold outcomes_of. cbn. rewrite !lookup_empty. split; [apply map_Forall_empty|].
    split; [done|]. intros e ?%not_elem_of_nil. done.
  - intros v. unfold locks_of. cbn. rewrite lookup_empty. cbn. split_and!; [constructor|by intros ?? ?%not_elem_of_nil|].
    intros id g. by rewrite lookup_empty.
  - done.
  - done.
  - intros id. unfold outcomes_of. cbn. rewrite !lookup_empty. split; [apply map_Forall_empty|done].
Qed.

Lemma others_keep log s l q c b : gd_inv ok log s -> ok l ->
  (forall v, b_locked l GlobalDisputeLockId v = b_locked (gd_ledger s) GlobalDisputeLockId v) ->
  (forall id lk, b_locked l lk (reward_account id) = 0) ->
  (forall id, b_free (gd_ledger s) (reward_account id) <= b_free l (reward_account id)) ->
  gd_inv ok log (mkGd l (Locks s) (Outcomes s) (GlobalDisputesInfo s) q c b (gd_events s)).
Proof.
  intros Hi Hl Hlk Hun Hfree. split; cbn [gd_ledger GlobalDisputesInfo].
  - apply Hi.
  - apply (gi_board _ _ _ Hi).
  - intros v. rewrite Hlk. apply (gi_voters _ _ _ Hi v).
  - done.
  - done.
  - intros id. destruct (gi_pots _ _ _ Hi id) as [Hfix Hpot]. split; [done|].
    destruct (GlobalDisputesInfo s !! id); [|done]. intros Hst. etransitivity; [by apply Hpot|apply Hfree].
Qed.

Lemma gd_run_inv log s : gd_run log s -> gd_inv ok log s.
Proof.
  induction 1 as [l q c b ev|log s id items n s' Hr IH Hit Hc%transactional_ok|log s w id o s' Hr IH Hw Hc
    |log s v id o amount s' Hr IH Hv Ha Hc|log s id g r s' Hr IH Hg Hst Hc|log s id s' Hr IH Hc|log s w id s' Hr IH Hc
    |log s w id s' Hr IH Hc|log s w id s' Hr IH Hc|log s w v s' Hr IH Hc|log s l q c b Hr IH].
  - by apply genesis_inv.
  - by eapply start_keeps.
  - by eapply add_keeps.
  - by eapply vote_keeps.
  - by eapply determine_keeps.
  - by eapply destroy_keeps.
  - by eapply refund_keeps.
  - by eapply purge_keeps.
  - by eapply reward_keeps.
  - by eapply unlock_keeps.
  - by apply others_keep.
Qed.

(** C11. The outcome that prediction-markets resolves a global dispute to was
    proposed in it, and no outcome has more votes in the whole log of initial
    amounts, fees and votes (as sums that saturate at the largest balance). *)
Theorem plurality_wins log s id o s' : gd_run log s -> determine_voting_winner id s = (Ok (Some o), s') ->
  (exists e, e ∈ log /\ entry_market e = id /\ entry_outcome e = o) /\ forall o', tally log id o' <= tally log id o.
Proof.
  intros Hi%gd_run_inv Hr. destruct (gi_board _ _ _ Hi id) as [_ Hb].
  apply bind_ok in Hr as (s0 & s1 & [-> ->]%get_ok & Hr). destruct (GlobalDisputesInfo s !! id) as [g|]; [|by apply mret_ok in Hr as [[=] _]].
  apply bind_ok in Hr as (u & s1 & [_ ->]%modify_ok & Hr). apply bind_ok in Hr as (u' & s1 & [_ ->]%modify_ok & [[= ->] _]%mret_ok).
  destruct Hb as ((_ & Hon & Hmax) & _). done.
Qed.

(** C12. While a dispute is open, everything an account voted with on it stays
    locked; and once no dispute is open, anyone can have all locks of the account
    removed. *)
Theorem votes_stay_locked log s v : gd_run log s ->
  (forall id, is_active id s = true -> Z.min (voted log id v) (umax 128) <= b_locked (gd_ledger s) GlobalDisputeLockId v) /\
  (forall w z, (forall id, is_active id s = false) -> gd_lookup z = Ok v ->
     exists s', unlock_vote_balance (Signed w) z s = (Ok tt, s') /\ locks_of v s' = [] /\
       b_locked (gd_ledger s') GlobalDisputeLockId v = 0).
Proof.
  intros Hi%gd_run_inv. destruct (gi_voters _ _ _ Hi v) as (_ & Hle & Hrec). split.
  - intros id Hact. unfold is_active in Hact. destruct (GlobalDisputesInfo s !! id) as [g|] eqn:Hg; [|done].
    destruct (Hrec _ _ Hg) as [Hin|[-> Hno]]; [by destruct (gd_status g)|by apply Hle in Hin as [? _]; lia|].
    pose proof (b_locked_nonneg _ GlobalDisputeLockId v (gi_ledger _ _ _ Hi)). lia.
  - intros w z Hno Hz. destruct (unlock_run ok log s w z v Hi Hz) as (l & Hrun & _ & _ & Hlk).
    assert (Hf : List.filter (lock_retained s) (locks_of v s) = []).
    { apply filter_none. intros p. apply (Hno p.1). }
    rewrite Hf in *. eexists. split_and!; [exact Hrun| |].
    + unfold locks_of. cbn. by rewrite lookup_insert_eq.
    + cbn [gd_ledger set_gd_ledger]. by rewrite Hlk, decide_True.
Qed.

(** ** Refunds *)

(** What the drained outcomes owe an account. *)
Definition owed (x : AccountId) (i : OutcomeInfo) : Z :=
  match possession i with Paid w fee => if decide (w = x) then fee else 0 | Shared _ => 0 end.

Lemma gd_owed_nonneg x i : fixed_fee i -> 0 <= owed x i.
Proof. pose proof (fee_nonneg ok). unfold fixed_fee, owed. destruct (possession i) as [w f|]; [intros [-> _]; case_decide; lia|lia]. Qed.

(** Every refund of the loop is paid. *)
Lemma refund_loop_exact id infos s rest l : ok (gd_ledger s) -> Forall fixed_fee infos ->
  0 <= rest -> rest = 0 \/ VotingOutcomeFee <= rest ->
  (forall lk, b_locked (gd_ledger s) lk (reward_account id) = 0) ->
  zsum fee_of infos + rest <= b_free (gd_ledger s) (reward_account id) ->
  (forall x, user x -> b_free (gd_ledger s) x + zsum (owed x) infos <= umax 128) ->
  for_each infos (refund_outcome id) s = (Ok tt, set_gd_ledger l s) ->
  forall x, x <> reward_account id -> b_free l x = b_free (gd_ledger s) x + zsum (owed x) infos.
Proof.
  intros Hok Hfix Hr0 Hrest. pose proof (outcome_fee_range (ok := ok)) as [Hmin _]. pose proof (fee_nonneg ok) as Hf0.
  revert s Hok. induction Hfix as [|i infos Hi Hfix IH]; intros s Hok Hun Hle Hmax Hrun x Hx.
  - apply mret_ok in Hrun as [_ Hl]. assert (l = gd_ledger s) as -> by (by destruct s; injection Hl). cbn. lia.
  - rewrite zsum_cons in *. assert (Hall : 0 <= zsum fee_of infos /\ (zsum fee_of infos = 0 \/ VotingOutcomeFee <= zsum fee_of infos)).
    { apply (zsum_fees ok). eapply Forall_impl; [exact Hfix|]. intros j. apply fixed_fee_cases. }
    assert (Hown : forall y, 0 <= zsum (owed y) infos).
    { intros y. apply zsum_nonneg. eapply Forall_impl; [exact Hfix|]. intros j. apply gd_owed_nonneg. }
    cbn [for_each] in Hrun. unfold mbind at 1, st_bind at 1 in Hrun. rewrite refund_outcome_run in Hrun.
    assert (Hmax' : forall y, user y -> b_free (gd_ledger s) y + owed y i + zsum (owed y) infos <= umax 128).
    { intros y Hy. specialize (Hmax y Hy). rewrite zsum_cons in Hmax. lia. }
    unfold fixed_fee in Hi. unfold owed at 1. unfold fee_of at 1 in Hle. unfold owed at 1 in Hmax'.
    destruct (possession i) as [w f|ws].
    + destruct Hi as [-> Hw]. specialize (Hmax' w Hw) as Hmw. rewrite decide_True in Hmw by done.
      pose proof (b_free_range _ w Hok) as Hwr. specialize (Hown w) as Howw.
      destruct (b_transfer_possible (gd_ledger s) (reward_account id) w VotingOutcomeFee AllowDeath Hok Hf0) as [l1 Ht];
        [lia|done|lia|by left|].
      unfold pay_step in Hrun. rewrite Ht in Hrun. cbn [snd] in Hrun.
      destruct (b_transfer_ok _ _ _ _ _ _ Hok Hf0 Ht) as [Hok1 Hlk1].
      assert (Hmv : forall y, y <> reward_account id -> b_free l1 y = b_free (gd_ledger s) y + (if decide (w = y) then VotingOutcomeFee else 0)).
      { intros y Hy. rewrite (b_transfer_other _ _ _ _ _ _ y Hok Hf0 Ht) by (by left). unfold moved.
        rewrite decide_False by done. repeat case_decide; subst; try done; lia. }
      rewrite (IH (set_gd_ledger l1 s)); [cbn; rewrite Hmv by done; lia|done| | | |done|done].
      * intros lk. cbn. by rewrite Hlk1.
      * cbn. pose proof (transfer_pot_left ok (reward_account id) w VotingOutcomeFee AllowDeath (gd_ledger s) (zsum fee_of infos + rest)) as Hpl.
        rewrite Ht in Hpl. apply Hpl; [done|done|apply Hw|lia|lia|lia].
      * intros y Hy. cbn. rewrite Hmv by apply Hy. specialize (Hmax' y Hy). lia.
    + rewrite (IH s); try done; try lia. intros y Hy. specialize (Hmax' y Hy). lia.
Qed.

(** Once a dispute is destroyed, and if its outcomes fit one clean-up, anyone
    can have the fees refunded: every account gets back exactly the fees it paid
    for outcomes, and no outcome is left.  (No balance may overflow.) *)
Theorem refunds_in_full log s id g w : gd_run log s -> GlobalDisputesInfo s !! id = Some g -> gd_status g = GdDestroyed ->
  Z.of_nat (size (outcomes_of id s)) <= RemoveKeysLimit ->
  (forall x, user x -> b_free (gd_ledger s) x + zsum (owed x) (map_to_list (outcomes_of id s)).*2 <= umax 128) ->
  exists s', refund_vote_fees (Signed w) id s = (Ok tt, s') /\ outcomes_of id s' = ∅ /\
    forall x, x <> reward_account id ->
      b_free (gd_ledger s') x = b_free (gd_ledger s) x + zsum (owed x) (map_to_list (outcomes_of id s)).*2.
Proof.
  intros Hi%gd_run_inv Hg Hst Hsize Hmax. set (os := outcomes_of id s) in *.
  assert (Hdr : drained id os ≡ₚ map_to_list os).
  { unfold drained. rewrite take_ge; [apply gd_iter_perm|]. rewrite (gd_iter_perm id os), length_map_to_list. lia. }
  assert (Hund : undrained id os = ∅).
  { apply map_empty. intros k. destruct (undrained id os !! k) as [i|] eqn:Hk; [|done].
    apply foldr_delete_lookup in Hk as [Hk Hno]. destruct Hno. apply list_elem_of_fmap. exists (k, i). split; [done|].
    rewrite Hdr. by apply elem_of_map_to_list. }
  destruct (refund_run ok log s w id g Hi Hg Hst) as (l & ev & Hrun & Hloop & Hp & Hl). fold os in Hrun, Hloop.
  eexists. split_and!; [exact Hrun| |].
  - change (outcomes_of id (set_outcomes_of id (undrained id os) s) = ∅). by rewrite outcomes_of_set, decide_True.
  - intros x Hx. cbn [gd_ledger set_gd_events set_gd_ledger].
    assert (Hsum : forall y, zsum (owed y) (map_to_list os).*2 = zsum (owed y) (drained id os).*2)
      by (intros y; apply zsum_perm; by rewrite Hdr).
    destruct (gi_pots _ _ _ Hi id) as [Hfix Hpot]. rewrite Hg in Hpot. fold os in Hfix, Hpot.
    rewrite Hsum. apply (refund_loop_exact id (drained id os).*2 (set_outcomes_of id (undrained id os) s) 0); try done.
    + apply Hi.
    + by apply (drained_fixed ok).
    + by left.
    + intros lk. apply Hi.
    + pose proof (fees_drained ok id os) as Hfd. rewrite Hund, fees_empty in Hfd. cbn. rewrite <- Hfd. apply Hpot. by rewrite Hst.
    + intros y Hy. cbn. rewrite <- Hsum. by apply Hmax.
Qed.

(** Once a finished dispute is cleaned up, its pot goes to the owners of the
    winning outcome as the log has them (its payer, or its initial owners),
    although the stored leader keeps the owners of the first leader until the
    clean-up; nobody else gets anything. *)
Theorem rewards_reach_owners log s id w s' : gd_run log s -> reward_outcome_owner (Signed w) id s = (Ok tt, s') ->
  exists o, (forall o', tally log id o' <= tally log id o) /\
    gd_events s' = gd_events s ++ [reward_event id (owners_in_log log id o)] /\
    forall x, x <> reward_account id -> x ∉ owners (owners_in_log log id o) ->
      b_free (gd_ledger s') x = b_free (gd_ledger s) x.
Proof.
  intros Hi%gd_run_inv Hr. destruct (reward_spec ok _ _ _ _ _ Hi Hr) as (g & l & Hg & _ & _ & -> & _ & Hx).
  destruct (gi_board _ _ _ Hi id) as [_ Hb]. rewrite Hg in Hb. destruct Hb as ((_ & _ & Hmax) & _).
  exists (winner_outcome g). done.
Qed.
End Runs.
