(* ===== verification/GlobalDisputesDemo.v ===== *)
(** * The global-disputes pallet: a dispute and a destroyed one

    Two markets over the reference ledger and the queue of prediction-markets:
    the votes on one overturn its first leader, the other is destroyed and
    refunded; concrete instances of the theorems on global disputes. *)

From S2P Require Import Prelude Errors Collections Interfaces Balances DisputeQueue Market GlobalDisputes GlobalDisputesInv GlobalDisputesRuns.

#[global] Instance demo_gd : GdConfig := {|
  GdLedger := RefBalances;
  gd_balances := ref_balances;
  GdQueue := MarketIdsPerDisputeBlock;
  gd_dispute_resolution := pm_dispute_resolution;
  AddOutcomePeriod := 20;
  GdVotingPeriod := 140;
  GlobalDisputeLockId := 1;
  MaxGlobalDisputeVotes := 50;
  MaxOwners := 10;
  MinOutcomeVoteAmount := 10;
  RemoveKeysLimit := 250;
  VotingOutcomeFee := 20;
  reward_account id := Npos (encode id)~1~0;
  gd_lookup z := Ok (Z.to_N z);
  gd_iter _ os := map_to_list os |}.

#[global] Instance demo_gd_laws : GdLaws rb_ok.
Proof.
  split.
  - apply ref_balances_laws.
  - done.
  - intros id id' [= Hid]. by apply (inj encode) in Hid.
  - done.
  - by vm_compute.
Qed.

Definition gd_market (id : Z) : Market :=
  mkMarket id Tru 1%N Permissionless 0 9%N [] (CategoricalType 3) (BlockPeriod 0 5) (mkDeadlines 0 1 1)
    AmmCdaHybrid Disputed None None (Some Court) MarketBonds_default None.
Definition gd_demo_commons : MarketCommons := mkCommons (<[7 := gd_market 7]> (<[8 := gd_market 8]> ∅)) (Some 9) ∅.
Definition gd_demo_ledger : RefBalances :=
  mkRefBalances (<[3%N := 1000]> (<[4%N := 500]> (<[5%N := 500]> ∅))) ∅.

Definition gd0 : GdState := mkGd gd_demo_ledger ∅ ∅ ∅ ∅ gd_demo_commons 100 [].
Definition gd_items : list InitialItem :=
  [mkInitialItem (Categorical 0) 1%N 100; mkInitialItem (Categorical 1) 1%N 30; mkInitialItem (Categorical 1) 9%N 20].
Definition gd1 : GdState := exec (transactional (start_global_dispute 7 gd_items)) gd0.
Definition gd2 : GdState := exec (add_vote_outcome (Signed 3%N) 7 (Categorical 2)) gd1.
(** Thirty blocks later the votes are open. *)
Definition gd3 : GdState :=
  mkGd (gd_ledger gd2) (Locks gd2) (Outcomes gd2) (GlobalDisputesInfo gd2) (gd_queue gd2) (gd_commons gd2) 130 (gd_events gd2).
Definition gd4 : GdState := exec (vote_on_outcome (Signed 4%N) 7 (Categorical 1) 80) gd3.
Definition gd5 : GdState := exec (vote_on_outcome (Signed 4%N) 7 (Categorical 1) 20) gd4.
Definition gd6 : GdState := exec (determine_voting_winner 7) gd5.
Definition gd7 : GdState := exec (purge_outcomes (Signed 5%N) 7) gd6.

Definition gd_log2 : list GdEntry := ([] ++ (item_entry 7 <$> gd_items)) ++ [GAdded 7 (Categorical 2) 3%N 20].
Definition gd_log5 : list GdEntry := (gd_log2 ++ [GVoted 7 (Categorical 1) 4%N 80]) ++ [GVoted 7 (Categorical 1) 4%N 20].

(** The other market. *)
Definition gd8 : GdState :=
  exec (add_vote_outcome (Signed 3%N) 8 (Categorical 2)) (exec (transactional (start_global_dispute 8 gd_items)) gd0).
Definition gd9 : GdState := exec (destroy_global_dispute 8) gd8.

Example gd_demo_runs :
  is_ok (transactional (start_global_dispute 7 gd_items) gd0).1 = true /\
  (determine_voting_winner 7 gd5).1 = Ok (Some (Categorical 1)) /\
  (reward_outcome_owner (Signed 5%N) 7 gd7).1 = Ok tt /\
  b_locked (gd_ledger gd5) 1 4%N = 100.
Proof. vm_compute. done. Qed.

Lemma user_3 : user 3%N.
Proof. intros id. discriminate. Qed.
Lemma user_4 : user 4%N.
Proof. intros id. discriminate. Qed.

Lemma gd0_run : gd_run rb_ok [] gd0.
Proof.
  apply gd_run_genesis.
  - split; [|apply map_Forall_empty]. repeat (apply map_Forall_insert_2; [by vm_compute|]). apply map_Forall_empty.
  - done.
Qed.

Lemma gd_items_ok : Forall item_ok gd_items.
Proof. repeat constructor; by vm_compute. Qed.

Lemma gd2_run : gd_run rb_ok gd_log2 gd2.
Proof.
  apply (gd_run_add _ _ gd1); [|apply user_3|apply exec_ok; vm_compute; reflexivity].
  eapply (gd_run_start _ _ gd0); [apply gd0_run|apply gd_items_ok|]. apply exec_result. vm_compute. reflexivity.
Qed.

Lemma gd5_run : gd_run rb_ok gd_log5 gd5.
Proof.
  apply (gd_run_vote _ _ gd4); [|apply user_4|by vm_compute|apply exec_ok; vm_compute; reflexivity].
  apply (gd_run_vote _ _ gd3); [|apply user_4|by vm_compute|apply exec_ok; vm_compute; reflexivity].
  pose proof (gd_run_inv _ _ _ gd2_run) as Hi. apply gd_run_others; [apply gd2_run|apply Hi|done|apply Hi|done].
Qed.

Lemma gd7_run : gd_run rb_ok gd_log5 gd7.
Proof.
  apply (gd_run_purge _ _ gd6 5%N 7); [|apply exec_ok; vm_compute; reflexivity].
  assert (Hg : exists g, GlobalDisputesInfo gd5 !! 7 = Some g /\ gd_status g <> GdDestroyed) by (eexists; split; [vm_compute; reflexivity|done]).
  destruct Hg as (g & Hg & Hst). eapply (gd_run_determine _ _ gd5 7); [apply gd5_run|exact Hg|exact Hst|].
  apply exec_result. vm_compute. reflexivity.
Qed.

Lemma gd9_run : gd_run rb_ok (([] ++ (item_entry 8 <$> gd_items)) ++ [GAdded 8 (Categorical 2) 3%N 20]) gd9.
Proof.
  apply (gd_run_destroy _ _ gd8 8); [|apply exec_ok; vm_compute; reflexivity].
  eapply (gd_run_add _ _ (exec (transactional (start_global_dispute 8 gd_items)) gd0));
    [|apply user_3|apply exec_ok; vm_compute; reflexivity].
  eapply (gd_run_start _ _ gd0); [apply gd0_run|apply gd_items_ok|]. apply exec_result. vm_compute. reflexivity.
Qed.

Lemma plurality_wins_witness :
  (exists e, e ∈ gd_log5 /\ entry_market e = 7 /\ entry_outcome e = Categorical 1) /\
  forall o', tally gd_log5 7 o' <= tally gd_log5 7 (Categorical 1).
Proof.
  refine (plurality_wins (H := demo_gd) rb_ok gd_log5 gd5 7 (Categorical 1) gd6 gd5_run _).
  apply exec_result. vm_compute. reflexivity.
Defined.

Lemma votes_stay_locked_witness : Z.min (voted gd_log5 7 4%N) (umax 128) <= b_locked (gd_ledger gd5) GlobalDisputeLockId 4%N.
Proof. apply (proj1 (votes_stay_locked (H := demo_gd) rb_ok gd_log5 gd5 4%N gd5_run)). vm_compute. reflexivity. Defined.

Lemma refunds_in_full_witness :
  exists s', refund_vote_fees (Signed 5%N) 8 gd9 = (Ok tt, s') /\ outcomes_of 8 s' = ∅ /\
    forall x, x <> reward_account 8 ->
      b_free (gd_ledger s') x = b_free (gd_ledger gd9) x + zsum (owed x) (map_to_list (outcomes_of 8 gd9)).*2.
Proof.
  assert (Hg : exists g, GlobalDisputesInfo gd9 !! 8 = Some g /\ gd_status g = GdDestroyed) by (eexists; split; vm_compute; reflexivity).
  destruct Hg as (g & Hg & Hst). apply (refunds_in_full (H := demo_gd) rb_ok _ gd9 8 g 5%N gd9_run Hg Hst).
  - by vm_compute.
  - intros x _.
    assert (Ho : zsum (owed x) (map_to_list (outcomes_of 8 gd9)).*2 <= 20).
    { replace (map_to_list (outcomes_of 8 gd9)).*2 with
        [mkOutcomeInfo 20 (Paid 3%N 20); mkOutcomeInfo 50 (Shared [1%N; 9%N]); mkOutcomeInfo 100 (Shared [1%N])]
        by (vm_compute; reflexivity). cbn. case_decide; lia. }
    assert (Hf : b_free (gd_ledger gd9) x <= 1000); [|change (umax 128) with 340282366920938463463374607431768211455; lia].
    assert (Hall : map_Forall (fun _ v => v <= 1000) (rb_free (gd_ledger gd9))) by (apply (bool_decide_unpack _); vm_compute; exact I).
    by apply (rb_free_le (gd_ledger gd9) x 1000).
Defined.

Lemma rewards_reach_owners_witness : exists s' o, (forall o', tally gd_log5 7 o' <= tally gd_log5 7 o) /\
  gd_events s' = gd_events gd7 ++ [reward_event 7 (owners_in_log gd_log5 7 o)].
Proof.
  assert (Hr : exists s', reward_outcome_owner (Signed 5%N) 7 gd7 = (Ok tt, s')) by (eexists; apply exec_ok; vm_compute; reflexivity).
  destruct Hr as [s' Hr]. destruct (rewards_reach_owners (H := demo_gd) rb_ok gd_log5 gd7 7 5%N s' gd7_run Hr) as (o & Ho & Hev & _).
  exists s', o. split; [exact Ho|exact Hev].
Defined.
