(* ===== verification/MultiCurrency.v ===== *)
(** * The asset manager

    [MultiCurrency] and [NamedMultiReservableCurrency] of orml-traits, through
    which the market pallets move outcome tokens and base assets, as a class of
    operations over a ledger with the documented behaviour the proofs rely on;
    and a reference ledger.  A failed operation is undone by the transaction
    around it, so the laws speak of successes only, save that a
    transfer leaves reserves alone in any case and a failed one everything.  An account
    that falls below the minimum balance of an asset may be reaped, which takes up to
    [dust] of that asset from it; an operation on one asset leaves all others alone. *)

From S2P Require Import Prelude Errors Collections Market.

(** ** Assets as keys *)

#[global] Instance scalar_position_countable : Countable ScalarPosition.
Proof.
  apply (inj_countable' (fun p => match p with Long => true | Short => false end)
    (fun b : bool => if b then Long else Short)). by intros [].
Defined.

Definition asset_code (a : Asset) : Z * (Z * Z) + (Z * ScalarPosition + (Z + (unit + unit))) :=
  match a with
  | CategoricalOutcome m c => inl (0, (m, c))
  | ParimutuelShare m c => inl (1, (m, c))
  | ForeignAsset i => inl (2, (i, 0))
  | ScalarOutcome m p => inr (inl (m, p))
  | PoolShare i => inr (inr (inl i))
  | CombinatorialOutcome => inr (inr (inr (inl tt)))
  | Tru => inr (inr (inr (inr tt)))
  end.
Definition asset_decode (x : Z * (Z * Z) + (Z * ScalarPosition + (Z + (unit + unit)))) : Asset :=
  match x with
  | inl (0, (m, c)) => CategoricalOutcome m c
  | inl (1, (m, c)) => ParimutuelShare m c
  | inl (_, (i, _)) => ForeignAsset i
  | inr (inl (m, p)) => ScalarOutcome m p
  | inr (inr (inl i)) => PoolShare i
  | inr (inr (inr (inl _))) => CombinatorialOutcome
  | inr (inr (inr (inr _))) => Tru
  end.
#[global] Instance asset_countable : Countable Asset.
Proof. apply (inj_countable' asset_code asset_decode). by intros []. Defined.

(** The derived order: by constructor, then by fields. *)
Definition position_index (p : ScalarPosition) : Z := match p with Long => 0 | Short => 1 end.
Definition asset_key (a : Asset) : Z * (Z * Z) :=
  match a with
  | CategoricalOutcome m c => (0, (m, c))
  | ScalarOutcome m p => (1, (m, position_index p))
  | CombinatorialOutcome => (2, (0, 0))
  | PoolShare i => (3, (i, 0))
  | Tru => (4, (0, 0))
  | ForeignAsset i => (5, (i, 0))
  | ParimutuelShare m c => (6, (m, c))
  end.
#[global] Instance ord_asset : Ord Asset := fun x y => cmp (asset_key x) (asset_key y).

Lemma asset_key_inj x y : asset_key x = asset_key y -> x = y.
Proof. destruct x as [| m [] | | | | |], y as [| m' [] | | | | |]; cbn; congruence. Qed.

#[global] Instance ord_laws_asset : OrdLaws Asset.
Proof.
  split; unfold cmp, ord_asset.
  - intros x y. rewrite cmp_eq. split; [apply asset_key_inj|by intros ->].
  - intros x y. apply cmp_sym.
  - intros x y z. apply cmp_trans.
Qed.

(** ** The interface *)

Class MultiCurrency (L : Type) := {
  minimum_balance : Asset -> Z;
  mc_free_balance : Asset -> AccountId -> L -> Z;
  mc_ensure_can_withdraw : Asset -> AccountId -> Z -> L -> Res unit;
  (** [reserved_balance_named] *)
  mc_reserved : Z -> Asset -> AccountId -> L -> Z;
  mc_transfer : Asset -> AccountId -> AccountId -> Z -> ST DispatchError L unit;
  mc_deposit : Asset -> AccountId -> Z -> ST DispatchError L unit;
  mc_withdraw : Asset -> AccountId -> Z -> ST DispatchError L unit;
  (** the amount that could not be slashed *)
  mc_slash : Asset -> AccountId -> Z -> L -> Z * L;
  mc_reserve_named : Z -> Asset -> AccountId -> Z -> ST DispatchError L unit;
  (** the amount that could not be unreserved *)
  mc_unreserve_named : Z -> Asset -> AccountId -> Z -> L -> Z * L;
  (** [repatriate_reserved_named] with [BalanceStatus::Free]: the amount that
      could not be moved *)
  mc_repatriate_reserved_named : Z -> Asset -> AccountId -> AccountId -> Z -> ST DispatchError L Z }.

(** Where an entry of a two-party operation is credited or debited. *)
Definition at_entry (a a' : Asset) (w w' : AccountId) (v : Z) : Z :=
  if decide ((a, w) = (a', w')) then v else 0.

(** Taking [v] of [a] from [w] leaves nothing or at least the minimum balance,
    so no dust is swept up. *)
Definition no_dust {L} `{MultiCurrency L} (a : Asset) (w : AccountId) (v : Z) (l : L) : Prop :=
  mc_free_balance a w l - v = 0 \/ minimum_balance a <= mc_free_balance a w l - v.

(** The most that is swept up when an account falls below the minimum balance. *)
Definition dust {L} `{MultiCurrency L} (a : Asset) : Z := Z.max 0 (minimum_balance a - 1).

Class MultiCurrencyLaws (L : Type) `{MultiCurrency L} : Prop := {
  minimum_nonneg : forall a, 0 <= minimum_balance a;
  free_nonneg : forall l a w, 0 <= mc_free_balance a w l;
  reserved_nonneg : forall l r a w, 0 <= mc_reserved r a w l;
  transfer_reserved : forall a x y v l res l' r b w, mc_transfer a x y v l = (res, l') ->
    mc_reserved r b w l' = mc_reserved r b w l;
  transfer_credit : forall a x y v l u l', 0 <= v -> mc_transfer a x y v l = (Ok u, l') ->
    x <> y -> v <= mc_free_balance a x l /\
    mc_free_balance a y l' = mc_free_balance a y l + v;
  transfer_debit : forall a x y v l u l', 0 <= v -> mc_transfer a x y v l = (Ok u, l') ->
    x <> y -> no_dust a x v l -> mc_free_balance a x l' = mc_free_balance a x l - v;
  transfer_sweep : forall a x y v l u l', 0 <= v -> mc_transfer a x y v l = (Ok u, l') ->
    x <> y -> mc_free_balance a x l - v - dust a <= mc_free_balance a x l' <= mc_free_balance a x l - v;
  transfer_assets : forall a x y v l u l' b w, mc_transfer a x y v l = (Ok u, l') ->
    b <> a -> mc_free_balance b w l' = mc_free_balance b w l;
  transfer_self : forall a x v l u l', 0 <= v -> mc_transfer a x x v l = (Ok u, l') ->
    mc_free_balance a x l <= mc_free_balance a x l';
  transfer_others : forall a x y v l u l' b w, 0 <= v -> mc_transfer a x y v l = (Ok u, l') ->
    (b, w) <> (a, x) -> mc_free_balance b w l <= mc_free_balance b w l';
  transfer_err : forall a x y v l e l' b w, mc_transfer a x y v l = (Err e, l') ->
    mc_free_balance b w l' = mc_free_balance b w l;
  deposit_credit : forall a x v l u l', 0 <= v -> mc_deposit a x v l = (Ok u, l') ->
    mc_free_balance a x l' = mc_free_balance a x l + v;
  deposit_others : forall a x v l u l' b w, 0 <= v -> mc_deposit a x v l = (Ok u, l') ->
    mc_free_balance b w l <= mc_free_balance b w l';
  withdraw_others : forall a x v l u l' b w, 0 <= v -> mc_withdraw a x v l = (Ok u, l') ->
    (b, w) <> (a, x) -> mc_free_balance b w l <= mc_free_balance b w l';
  slash_debit : forall a x v l m l', 0 <= v <= mc_free_balance a x l -> mc_slash a x v l = (m, l') ->
    no_dust a x v l -> m = 0 /\ mc_free_balance a x l' = mc_free_balance a x l - v;
  slash_sweep : forall a x v l m l', 0 <= v <= mc_free_balance a x l -> mc_slash a x v l = (m, l') ->
    mc_free_balance a x l - v - dust a <= mc_free_balance a x l' <= mc_free_balance a x l - v;
  slash_assets : forall a x v l m l' b w, mc_slash a x v l = (m, l') ->
    b <> a -> mc_free_balance b w l' = mc_free_balance b w l;
  slash_others : forall a x v l m l' b w, 0 <= v -> mc_slash a x v l = (m, l') ->
    (b, w) <> (a, x) -> mc_free_balance b w l <= mc_free_balance b w l';
  deposit_reserved : forall a x v l u l' r b w, mc_deposit a x v l = (Ok u, l') ->
    mc_reserved r b w l' = mc_reserved r b w l;
  withdraw_reserved : forall a x v l u l' r b w, mc_withdraw a x v l = (Ok u, l') ->
    mc_reserved r b w l' = mc_reserved r b w l;
  reserve_reserved : forall r a x v l u l' b w, 0 <= v -> mc_reserve_named r a x v l = (Ok u, l') ->
    mc_reserved r b w l' = mc_reserved r b w l + at_entry a b x w v;
  unreserve_missing : forall r a x v l m l', 0 <= v -> mc_unreserve_named r a x v l = (m, l') ->
    m = Z.max 0 (v - mc_reserved r a x l) /\
    forall b w, mc_reserved r b w l' = mc_reserved r b w l - at_entry a b x w (v - m);
  unreserve_credit : forall r a x v l m l', 0 <= v -> mc_unreserve_named r a x v l = (m, l') ->
    mc_free_balance a x l' = mc_free_balance a x l + (v - m);
  repatriate_missing : forall r a x y v l m l', 0 <= v ->
    mc_repatriate_reserved_named r a x y v l = (Ok m, l') ->
    m = Z.max 0 (v - mc_reserved r a x l) /\
    (forall b w, mc_reserved r b w l' = mc_reserved r b w l - at_entry a b x w (v - m));
  repatriate_credit : forall r a x y v l m l', 0 <= v ->
    mc_repatriate_reserved_named r a x y v l = (Ok m, l') ->
    mc_free_balance a y l' = mc_free_balance a y l + (v - m) }.

Section Transfers.
Context {L : Type} `{MultiCurrencyLaws L}.

(** The dust of an asset. *)
Lemma dust_nonneg a : 0 <= dust (L := L) a.
Proof. unfold dust. lia. Qed.

(** A balance after a transfer, whoever receives it. *)
Lemma transfer_lower a x y v l u l' : 0 <= v -> mc_transfer a x y v l = (Ok u, l') ->
  no_dust a x v l -> mc_free_balance a x l - v <= mc_free_balance a x l'.
Proof.
  intros Hv Ht Hd. destruct (decide (x = y)) as [<-|Hne].
  - pose proof (transfer_self _ _ _ _ _ _ Hv Ht). lia.
  - by rewrite (transfer_debit _ _ _ _ _ _ _ Hv Ht Hne Hd).
Qed.

Lemma transfer_lower_dust a x y v l u l' : 0 <= v -> mc_transfer a x y v l = (Ok u, l') ->
  mc_free_balance a x l - v - dust a <= mc_free_balance a x l'.
Proof.
  intros Hv Ht. destruct (decide (x = y)) as [<-|Hne].
  - pose proof (transfer_self _ _ _ _ _ _ Hv Ht). pose proof (dust_nonneg a). lia.
  - apply (transfer_sweep _ _ _ _ _ _ _ Hv Ht Hne).
Qed.

End Transfers.

(** ** A reference ledger without reaping *)

Record RefAssets := mkAssets {
  ra_free : gmap (Asset * AccountId) Z;
  ra_reserved : gmap (Z * (Asset * AccountId)) Z }.

Definition ra_free_of (a : Asset) (w : AccountId) (l : RefAssets) : Z :=
  Z.max 0 (default 0 (ra_free l !! (a, w))).
Definition ra_reserved_of (r : Z) (a : Asset) (w : AccountId) (l : RefAssets) : Z :=
  Z.max 0 (default 0 (ra_reserved l !! (r, (a, w)))).
Definition ra_set_free (a : Asset) (w : AccountId) (v : Z) (l : RefAssets) : RefAssets :=
  mkAssets (<[(a, w) := v]> (ra_free l)) (ra_reserved l).
Definition ra_set_reserved (r : Z) (a : Asset) (w : AccountId) (v : Z) (l : RefAssets) : RefAssets :=
  mkAssets (ra_free l) (<[(r, (a, w)) := v]> (ra_reserved l)).
Definition ra_add (a : Asset) (w : AccountId) (v : Z) (l : RefAssets) : RefAssets :=
  ra_set_free a w (ra_free_of a w l + v) l.

Definition ra_release (r : Z) (a : Asset) (x y : AccountId) (v : Z) (l : RefAssets) : Z * RefAssets :=
  let m := Z.max 0 (v - ra_reserved_of r a x l) in
  (m, ra_add a y (v - m) (ra_set_reserved r a x (ra_reserved_of r a x l - (v - m)) l)).

(** With the minimum balances as they are chosen. *)
Definition ref_currency (minimum : Asset -> Z) : MultiCurrency RefAssets := {|
  minimum_balance := minimum;
  mc_free_balance := ra_free_of;
  mc_ensure_can_withdraw a x v l := ensure (v <=? ra_free_of a x l) (Arithmetic Underflow);
  mc_reserved := ra_reserved_of;
  mc_transfer a x y v l :=
    if v <=? ra_free_of a x l then (Ok tt, ra_add a y v (ra_add a x (- v) l))
    else (Err (Arithmetic Underflow), l);
  mc_deposit a x v l := (Ok tt, ra_add a x v l);
  mc_withdraw a x v l :=
    if v <=? ra_free_of a x l then (Ok tt, ra_add a x (- v) l) else (Err (Arithmetic Underflow), l);
  mc_slash a x v l :=
    let d := Z.max 0 (Z.min v (ra_free_of a x l)) in (v - d, ra_add a x (- d) l);
  mc_reserve_named r a x v l :=
    if v <=? ra_free_of a x l
    then (Ok tt, ra_set_reserved r a x (ra_reserved_of r a x l + v) (ra_add a x (- v) l))
    else (Err (Arithmetic Underflow), l);
  mc_unreserve_named r a x v l := ra_release r a x x v l;
  mc_repatriate_reserved_named r a x y v l := let '(m, l') := ra_release r a x y v l in (Ok m, l') |}.

#[global] Instance ref_assets : MultiCurrency RefAssets := ref_currency (fun a => match a with Tru => 5 | _ => 1 end).

Lemma ra_free_nonneg a w l : 0 <= ra_free_of a w l.
Proof. unfold ra_free_of. lia. Qed.
Lemma ra_add_free a w v b y l : 0 <= ra_free_of a w l + v ->
  ra_free_of b y (ra_add a w v l) = ra_free_of b y l + at_entry a b w y v.
Proof.
  intros Hv. unfold ra_add, ra_set_free, at_entry. unfold ra_free_of at 1. cbn. rewrite lookup_insert.
  case_decide; [simplify_eq; cbn; lia|fold (ra_free_of b y l); lia].
Qed.
Lemma ra_transfer_free a x y v b w l : 0 <= v <= ra_free_of a x l ->
  ra_free_of b w (ra_add a y v (ra_add a x (- v) l)) =
    ra_free_of b w l - at_entry a b x w v + at_entry a b y w v.
Proof.
  intros Hv. pose proof (ra_free_nonneg a y (ra_add a x (- v) l)). rewrite !ra_add_free by lia.
  unfold at_entry. case_decide; lia.
Qed.
Lemma ra_set_reserved_of r a w v b y l : 0 <= v ->
  ra_reserved_of r b y (ra_set_reserved r a w v l) =
    ra_reserved_of r b y l + at_entry a b w y (v - ra_reserved_of r a w l).
Proof.
  intros Hv. unfold ra_set_reserved, ra_reserved_of, at_entry. cbn. rewrite lookup_insert.
  repeat case_decide; simplify_eq; cbn; lia.
Qed.

Lemma ra_release_spec r a x y v l m l' : 0 <= v -> ra_release r a x y v l = (m, l') ->
  m = Z.max 0 (v - ra_reserved_of r a x l) /\
  (forall b w, ra_reserved_of r b w l' = ra_reserved_of r b w l - at_entry a b x w (v - m)) /\
  ra_free_of a y l' = ra_free_of a y l + (v - m).
Proof.
  intros Hv [= <- <-]. split; [done|].
  assert (0 <= ra_reserved_of r a x l) by (unfold ra_reserved_of; lia). split.
  - intros b w. change (ra_reserved_of r b w (ra_add a y ?v ?l)) with (ra_reserved_of r b w l).
    unfold ra_add, ra_set_free. change (ra_reserved_of r b w (mkAssets ?f (ra_reserved ?l))) with (ra_reserved_of r b w l).
    rewrite ra_set_reserved_of by lia. unfold at_entry. case_decide; lia.
  - rewrite ra_add_free.
    + unfold at_entry. rewrite decide_True by done. done.
    + change (ra_free_of a y (ra_set_reserved r a x ?v l)) with (ra_free_of a y l). pose proof (ra_free_nonneg a y l). lia.
Qed.

Lemma ref_currency_laws minimum : (forall a, 0 <= minimum a) -> @MultiCurrencyLaws RefAssets (ref_currency minimum).
Proof.
  intros Hmin. assert (Ht : forall a x y v l u l', 0 <= v -> @mc_transfer _ (ref_currency minimum) a x y v l = (Ok u, l') ->
    v <= ra_free_of a x l /\ l' = ra_add a y v (ra_add a x (- v) l)).
  { intros a x y v l u l' Hv. cbn. destruct (Z.leb_spec v (ra_free_of a x l)); [|done]. by intros [= _ <-]. }
  split; cbn.
  - exact Hmin.
  - intros. unfold ra_free_of. lia.
  - intros. unfold ra_reserved_of. lia.
  - intros a x y v l res l' r b w. case_match; by intros [= _ <-].
  - intros a x y v l u l' Hv [Hle ->]%Ht Hne; [|done]. split; [done|]. rewrite ra_transfer_free by lia.
    unfold at_entry. rewrite (decide_False (P := (a, x) = (a, y))) by congruence. rewrite decide_True by done. lia.
  - intros a x y v l u l' Hv [Hle ->]%Ht Hne _; [|done]. rewrite ra_transfer_free by lia.
    unfold at_entry. rewrite (decide_False (P := (a, y) = (a, x))) by congruence. rewrite decide_True by done. lia.
  - intros a x y v l u l' Hv [Hle ->]%Ht Hne; [|done]. rewrite ra_transfer_free by lia. unfold dust.
    unfold at_entry. rewrite (decide_False (P := (a, y) = (a, x))) by congruence. rewrite decide_True by done. lia.
  - intros a x y v l u l' b w. case_match eqn:Hle; [|done]. intros [= _ <-] Hne.
    unfold ra_add, ra_set_free, ra_free_of. cbn. by rewrite !lookup_insert_ne by congruence.
  - intros a x v l u l' Hv [Hle ->]%Ht; [|done]. rewrite ra_transfer_free by lia. lia.
  - intros a x y v l u l' b w Hv [Hle ->]%Ht Hne; [|done]. rewrite ra_transfer_free by lia.
    unfold at_entry. rewrite (decide_False (P := (a, x) = (b, w))) by congruence. case_decide; lia.
  - intros a x y v l e l' b w. case_match; [done|]. by intros [= _ <-].
  - intros a x v l u l' Hv [= _ <-]. pose proof (ra_free_nonneg a x l). rewrite ra_add_free by lia.
    unfold at_entry. rewrite decide_True by done. lia.
  - intros a x v l u l' b w Hv [= _ <-]. pose proof (ra_free_nonneg a x l). rewrite ra_add_free by lia.
    unfold at_entry. case_decide; lia.
  - intros a x v l u l' b w Hv. destruct (Z.leb_spec v (ra_free_of a x l)); [|done]. intros [= _ <-] Hne.
    rewrite ra_add_free by lia. unfold at_entry. rewrite decide_False by congruence. lia.
  - intros a x v l m l' Hv [= <- <-] _. rewrite ra_add_free by lia. unfold at_entry. rewrite decide_True by done. lia.
  - intros a x v l m l' Hv [= <- <-]. rewrite ra_add_free by lia. unfold at_entry, dust. rewrite decide_True by done. lia.
  - intros a x v l m l' b w [= <- <-] Hne. unfold ra_add, ra_set_free, ra_free_of. cbn. by rewrite !lookup_insert_ne by congruence.
  - intros a x v l m l' b w Hv [= <- <-] Hne. pose proof (ra_free_nonneg a x l). rewrite ra_add_free by lia.
    unfold at_entry. rewrite decide_False by congruence. lia.
  - intros a x v l u l' r b w. by intros [= _ <-].
  - intros a x v l u l' r b w. case_match; [|done]. by intros [= _ <-].
  - intros r a x v l u l' b w Hv. case_match; [|done]. intros [= _ <-].
    rewrite ra_set_reserved_of by (unfold ra_reserved_of; lia).
    change (ra_reserved_of r ?b ?w (ra_add a x (- v) l)) with (ra_reserved_of r b w l).
    unfold at_entry. case_decide; simplify_eq; unfold ra_reserved_of; cbn; lia.
  - intros r a x v l m l' Hv Hr. destruct (ra_release_spec _ _ _ _ _ _ _ _ Hv Hr) as (? & ? & _). done.
  - intros r a x v l m l' Hv Hr. by destruct (ra_release_spec _ _ _ _ _ _ _ _ Hv Hr) as (_ & _ & ?).
  - intros r a x y v l m l' Hv [= <- <-].
    by destruct (ra_release_spec r a x y v l _ _ Hv eq_refl) as (? & ? & _).
  - intros r a x y v l m l' Hv [= <- <-].
    by destruct (ra_release_spec r a x y v l _ _ Hv eq_refl) as (_ & _ & ?).
Qed.
#[global] Instance ref_assets_laws : MultiCurrencyLaws RefAssets.
Proof. apply ref_currency_laws. intros []; lia. Qed.

(** ** The minimum balances of the runtime *)

Definition MICRO_BASE : Z := 10000.
Definition NATIVE_EXISTENTIAL_DEPOSIT : Z := 0.
Definition DEFAULT_EXISTENTIAL_DEPOSIT : Z := 10 * MICRO_BASE.
(** [metadata] is what the registry has on a foreign asset. *)
Definition ExistentialDeposits (metadata : Z -> option Z) (currency_id : Asset) : Z :=
  match currency_id with
  | Tru => NATIVE_EXISTENTIAL_DEPOSIT
  | ForeignAsset id => match metadata id with Some existential_deposit => existential_deposit | None => 1 end
  | CategoricalOutcome _ _ => DEFAULT_EXISTENTIAL_DEPOSIT
  | CombinatorialOutcome => DEFAULT_EXISTENTIAL_DEPOSIT
  | PoolShare _ => DEFAULT_EXISTENTIAL_DEPOSIT
  | ScalarOutcome _ _ => DEFAULT_EXISTENTIAL_DEPOSIT
  | ParimutuelShare _ _ => DEFAULT_EXISTENTIAL_DEPOSIT
  end.

(** ** Outcome assets are found by binary search

    [Market::outcome_assets] returns them in ascending order, so the binary
    searches of the pallets decide membership. *)
Lemma outcome_assets_sorted m : sorted_by id (outcome_assets m).
Proof.
  unfold outcome_assets. destruct (market_type m) as [n|lo hi].
  2:{ repeat constructor. unfold cmp, ord_asset, ord_prod, cmp, ord_prod. cbn. by rewrite Z.compare_refl. }
  apply sorted_by_of_lookup. intros i j x y Hij Hx Hy. unfold id.
  apply list_lookup_fmap_Some in Hx as (k & -> & Hk), Hy as (k' & -> & Hk').
  apply lookup_seqZ in Hk as [-> _], Hk' as [-> _].
  unfold category_asset, cmp, ord_asset, ord_prod, cmp, ord_prod, cmp, ord_Z.
  destruct (scoring_rule m); cbn; rewrite ?Z.compare_refl; apply Z.compare_lt_iff; lia.
Qed.

Lemma outcome_assets_nodup m : NoDup (outcome_assets m).
Proof. rewrite <- (list_fmap_id (outcome_assets m)). apply sorted_by_NoDup, outcome_assets_sorted. Qed.

(** [assets.binary_search(&a)] of the pallets. *)
Definition asset_search (a : Asset) (l : list Asset) : SearchResult := binary_search_by_key a id l.

Lemma asset_search_found m a i : asset_search a (outcome_assets m) = Found i -> a ∈ outcome_assets m.
Proof. intros (x & Hx & <-)%search_key_found_inv. by eapply list_elem_of_lookup_2. Qed.
Lemma asset_search_not_found m a i : asset_search a (outcome_assets m) = NotFound i -> a ∉ outcome_assets m.
Proof.
  intros Hs. destruct (search_key_not_found id _ _ _ (outcome_assets_sorted m) Hs) as [_ Hn].
  intros Ha. by apply (Hn a Ha).
Qed.
