(* ===== verification/Fees.v ===== *)
(** * The external fees of the runtime

    [AdditionalSwapFee], [WinnerFee] and [DealWithForeignFees] of
    [runtime/src/fees.rs]: what the trading pallets' [ExternalFees] and prediction-markets' [WinnerFeeHandler]
    are in the runtime.  The recipients and the amount are storage of
    prediction-markets and neo-swaps and come as arguments. *)

From S2P Require Import Prelude Errors Collections Interfaces Market MultiCurrency.

(** [DealWithForeignFees::on_unbalanced]: all fees in tokens go to the treasury.
    [resolve] of the token pallet hands back a credit it refuses; the credit is
    then dropped (the assertion is for debug builds). *)
Definition foreign_fees_on_unbalanced {Ledger Credit} (resolve : AccountId -> Credit -> Ledger -> Result Credit unit * Ledger)
    (drop_credit : Credit -> Ledger -> Ledger) (treasury : AccountId) (fees_and_tips : Credit) (l : Ledger) : Ledger :=
  match resolve treasury fees_and_tips l with
  | (Ok _, l) => l
  | (Err credit, l) => drop_credit credit l
  end.

Section Fees.
Context `{MultiCurrency L}.

(** What both share: the transfer of a fee from [account] to the recipient. *)
Definition swap_fee_do_distribute (recipient : Res AccountId) (fee : Res Z)
    (asset : Asset) (account : AccountId) : ST DispatchError L Z :=
  recipient ← lift recipient;
  fee_amount ← lift fee;
  mc_transfer asset account recipient fee_amount ;;
  mret fee_amount.

Definition swap_fee_distribute (recipient : Res AccountId) (fee : Res Z)
    (market_id : Z) (asset : Asset) (account : AccountId) (amount : Z) : L -> Z * L := fun l =>
  match swap_fee_do_distribute recipient fee asset account l with
  | (Ok fee_amount, l) => (fee_amount, l)
  | (Err _, l) => (0, l)
  end.

Definition winner_fee_do_distribute `{PerThings} (recipient : Res AccountId) (percentage : Z)
    (asset : Asset) (account : AccountId) (amount : Z) : ST DispatchError L Z :=
  recipient ← lift recipient;
  let fee_amount := perbill_mul_floor percentage amount in
  mc_transfer asset account recipient fee_amount ;;
  mret fee_amount.

Definition winner_fee_distribute `{PerThings} (recipient : Res AccountId) (percentage : Z)
    (market_id : Z) (asset : Asset) (account : AccountId) (amount : Z) : L -> Z * L := fun l =>
  match winner_fee_do_distribute recipient percentage asset account amount l with
  | (Ok fee_amount, l) => (fee_amount, l)
  | (Err _, l) => (0, l)
  end.

Context `{!MultiCurrencyLaws L}.

(** Fees are taken from free balances. *)
Lemma swap_fee_reserved recipient fee m a x v l r b w :
  mc_reserved r b w (swap_fee_distribute recipient fee m a x v l).2 = mc_reserved r b w l.
Proof.
  unfold swap_fee_distribute, swap_fee_do_distribute. destruct recipient as [y|e]; [|done].
  destruct fee as [f|e]; [|done]. unfold mbind, st_bind. cbn.
  destruct (mc_transfer a x y f l) as [[u|e] l'] eqn:Ht; cbn; by eapply transfer_reserved.
Qed.

(** What the account of the fee loses, and that nobody else loses anything. *)
Section Charged.
Context (recipient : Res AccountId) (fee : Res Z) (Hfee : forall f, fee = Ok f -> 0 <= f).

Lemma swap_fee_cases m a x v l : let '(c, l') := swap_fee_distribute recipient fee m a x v l in
  0 <= c /\ ((exists y, mc_transfer a x y c l = (Ok tt, l')) \/
    c = 0 /\ forall b w, mc_free_balance b w l' = mc_free_balance b w l).
Proof using Hfee MultiCurrencyLaws0.
  unfold swap_fee_distribute, swap_fee_do_distribute. destruct recipient as [y|e]; [|by split; [|right]].
  destruct fee as [f|e]; [|by split; [|right]]. unfold mbind, st_bind. cbn. specialize (Hfee f eq_refl).
  destruct (mc_transfer a x y f l) as [[[]|e] l'] eqn:Ht; cbn; [split; eauto|]. split; [done|].
  right. split; [done|]. intros b w. by eapply transfer_err.
Qed.

Lemma swap_fee_nonneg m a x v l : 0 <= (swap_fee_distribute recipient fee m a x v l).1.
Proof using Hfee MultiCurrencyLaws0. pose proof (swap_fee_cases m a x v l) as Hc. case_match. apply Hc. Qed.

Lemma swap_fee_debit m a x v l :
  minimum_balance a <= mc_free_balance a x l - (swap_fee_distribute recipient fee m a x v l).1 ->
  mc_free_balance a x l - (swap_fee_distribute recipient fee m a x v l).1
    <= mc_free_balance a x (swap_fee_distribute recipient fee m a x v l).2.
Proof using Hfee MultiCurrencyLaws0.
  pose proof (swap_fee_cases m a x v l) as Hc. destruct (swap_fee_distribute _ _ _ _ _ _ _) as [c l'].
  cbn. intros Hmin. destruct Hc as (Hc & [[y Ht]|[-> Hl]]); [|by rewrite Hl, Z.sub_0_r].
  destruct (decide (x = y)) as [->|Hne].
  - pose proof (transfer_self _ _ _ _ _ _ Hc Ht). lia.
  - rewrite (transfer_debit _ _ _ _ _ _ _ Hc Ht Hne) by (unfold no_dust; lia). lia.
Qed.

Lemma swap_fee_others m a x v l b w : (b, w) <> (a, x) ->
  mc_free_balance b w l <= mc_free_balance b w (swap_fee_distribute recipient fee m a x v l).2.
Proof using Hfee MultiCurrencyLaws0.
  intros Hne. pose proof (swap_fee_cases m a x v l) as Hc. destruct (swap_fee_distribute _ _ _ _ _ _ _) as [c l'].
  destruct Hc as (Hc & [[y Ht]|[-> Hl]]); cbn; [|by rewrite Hl]. by eapply transfer_others.
Qed.

(** Only the asset of the fee moves. *)
Lemma swap_fee_assets m a x v l b w : b <> a ->
  mc_free_balance b w (swap_fee_distribute recipient fee m a x v l).2 = mc_free_balance b w l.
Proof using Hfee MultiCurrencyLaws0.
  intros Hne. pose proof (swap_fee_cases m a x v l) as Hc. destruct (swap_fee_distribute _ _ _ _ _ _ _) as [c l'].
  destruct Hc as (Hc & [[y Ht]|[-> Hl]]); cbn; [|by rewrite Hl]. by eapply transfer_assets.
Qed.
End Charged.

(** The fee of a winner: a part of the amount, from the account it names, and
    only in its asset; the account may be reaped on the way. *)
Lemma winner_fee_charged `{PerThingsLaws} recipient pct m a x v l : 0 <= pct <= 10 ^ 9 -> 0 <= v ->
  let '(paid, l') := winner_fee_distribute recipient pct m a x v l in
  0 <= paid <= v /\ mc_free_balance a x l - paid - dust a <= mc_free_balance a x l' /\
  (forall b w, (b, w) <> (a, x) -> mc_free_balance b w l <= mc_free_balance b w l') /\
  forall b w, b <> a -> mc_free_balance b w l' = mc_free_balance b w l.
Proof.
  intros Hpct Hv. unfold winner_fee_distribute, winner_fee_do_distribute, mbind, st_bind, lift. pose proof (dust_nonneg a).
  destruct recipient as [rc|]; [|split_and!; (done || lia)]. cbn -[Z.pow].
  assert (Hfee : 0 <= perbill_mul_floor pct v <= v).
  { rewrite perbill_mul_floor_spec by done. change (10 ^ 9) with 1000000000 in *.
    split; [apply Z.div_pos; nia|apply Z.div_le_upper_bound; nia]. }
  destruct (mc_transfer a x rc _ l) as [[u|e] l'] eqn:Ht; cbn.
  - split_and!; [lia|lia|eapply transfer_lower_dust; [apply Hfee|exact Ht]| |]; intros b w Hne;
      [eapply transfer_others; [apply Hfee|exact Ht|exact Hne]|by eapply transfer_assets].
  - pose proof (transfer_err _ _ _ _ _ _ _ a x Ht). split_and!; [lia|lia|lia| |]; intros b w _; by rewrite (transfer_err _ _ _ _ _ _ _ b w Ht).
Qed.
End Fees.
