(* ===== verification/OrderBook.v ===== *)
(** * The order-book pallet

    [pallets/order-book/src/lib.rs] and the orders of
    [primitives/prediction-market/src/orderbook.rs]: placing, filling and
    removing orders whose maker side is reserved by name.  Balances are [u128].
    The asset manager and the distribution of external fees are parameters. *)

From S2P Require Import Prelude Errors FixedMath Collections Market MultiCurrency.

(** ** Orders *)

Record Order := mkOrder {
  order_market_id : Z;
  maker : AccountId;
  maker_asset : Asset;
  maker_amount : Z;
  taker_asset : Asset;
  taker_amount : Z }.

Definition price (o : Order) (base_asset : Asset) : Res Z :=
  if decide (maker_asset o = base_asset) then bdiv_floor 128 (maker_amount o) (taker_amount o)
  else if decide (taker_asset o = base_asset) then bdiv_floor 128 (taker_amount o) (maker_amount o)
  else Err (Other "base asset not found").

(** Both return the taker fill and the maker fill. *)
Definition taker_and_maker_fill_from_maker_amount (o : Order) (sub_maker_amount : Z) : Res (Z * Z) :=
  if sub_maker_amount <? maker_amount o then
    sub_taker_amount ← bmul_bdiv_floor 128 sub_maker_amount (taker_amount o) (maker_amount o);
    Ok (sub_maker_amount, sub_taker_amount)
  else Ok (maker_amount o, taker_amount o).

Definition taker_and_maker_fill_from_taker_amount (o : Order) (sub_taker_amount : Z) : Res (Z * Z) :=
  if sub_taker_amount <? taker_amount o then
    sub_maker_amount ← bmul_bdiv_floor 128 sub_taker_amount (maker_amount o) (taker_amount o);
    Ok (sub_maker_amount, sub_taker_amount)
  else Ok (maker_amount o, taker_amount o).

(** What the hybrid router gets from the order book. *)
Record ExternalFee := mkExternalFee { fee_account : AccountId; fee_amount : Z }.
Record OrderbookTrade := mkTrade {
  filled_maker_amount : Z;
  filled_taker_amount : Z;
  external_fee : ExternalFee }.

Inductive OrderbookSoftFail := SoftBelowMinimumBalance | SoftPartialFillNearFullFillNotAllowed.
Inductive ApiError (E : Type) := SoftFailure (e : E) | HardFailure (e : DispatchError).
Arguments SoftFailure {E} e.
Arguments HardFailure {E} e.

(** ** Configuration and storage *)

Class OrderBookConfig := {
  Assets : Type;
  AssetManager :: MultiCurrency Assets;
  ob_reserve_id : Z;
  (** [ExternalFees::distribute]: market, asset, payer and gross amount to the
      fee taken *)
  distribute : Z -> Asset -> AccountId -> Z -> Assets -> Z * Assets }.

Section OrderBook.
Context `{OrderBookConfig}.

Inductive OrderEvent :=
| OrderFilled (order_id : Z) (maker taker : AccountId)
    (filled_maker_amount filled_taker_amount unfilled_maker_amount unfilled_taker_amount : Z)
    (external_fee : ExternalFee)
| OrderPlaced (order_id : Z) (order : Order)
| OrderRemoved (order_id : Z) (maker : AccountId).

Record ObState := mkOb {
  NextOrderId : Z;
  Orders : gmap Z Order;
  assets : Assets;
  commons : MarketCommons;
  ob_events : list OrderEvent }.

Definition set_NextOrderId x s := mkOb x (Orders s) (assets s) (commons s) (ob_events s).
Definition set_Orders x s := mkOb (NextOrderId s) x (assets s) (commons s) (ob_events s).
Definition set_assets x s := mkOb (NextOrderId s) (Orders s) x (commons s) (ob_events s).
Definition set_commons x s := mkOb (NextOrderId s) (Orders s) (assets s) x (ob_events s).
Definition set_ob_events x s := mkOb (NextOrderId s) (Orders s) (assets s) (commons s) x.

Abbreviation ObM := (ST DispatchError ObState).

Definition ob_error (e : OrderBookError) : DispatchError := Module_ (OrderBookErr e).
Definition deposit_order_event (e : OrderEvent) : ObM unit :=
  modify (fun s => set_ob_events (ob_events s ++ [e]) s).

(** An operation of the asset manager. *)
Definition on_assets {A} (m : ST DispatchError Assets A) : ObM A := fun s =>
  let '(r, l) := m (assets s) in (r, set_assets l s).

(** ** Helpers of the pallet *)

Definition ob_outcome_assets (market_id : Z) (m : Market) : list Asset :=
  match market_type m with
  | CategoricalType categories => CategoricalOutcome market_id <$> seqZ 0 categories
  | ScalarType _ _ => [ScalarOutcome market_id Long; ScalarOutcome market_id Short]
  end.

Definition decrease_order_amounts (o : Order) (maker_fill taker_fill : Z) : Res Order :=
  m ← checked_sub_res (maker_amount o) taker_fill;
  t ← checked_sub_res (taker_amount o) maker_fill;
  Ok (mkOrder (order_market_id o) (maker o) (maker_asset o) m (taker_asset o) t).

Definition get_taker_fill (o : Order) (maker_fill : Z) : Res Z :=
  let maker_full_fill := taker_amount o in
  let taker_full_fill := maker_amount o in
  bmul_bdiv_floor 128 maker_fill taker_full_fill maker_full_fill.

Definition ensure_ratio_quotient_valid (o : Order) : Res unit :=
  let maker_full_fill := taker_amount o in
  ensure ((maker_full_fill =? 0) || (minimum_balance (taker_asset o) <=? maker_full_fill))
    (ob_error PartialFillNearFullFillNotAllowed).

Definition charge_external_fees (o : Order) (base_asset : Asset) (maker_fill : Z) (taker : AccountId)
    (taker_fill : Z) : ObM (Z * ExternalFee) :=
  let maker_asset_is_base := bool_decide (maker_asset o = base_asset) in
  let base_asset_fill := if maker_asset_is_base then taker_fill else maker_fill in
  s ← get;
  let '(fee, l) := distribute (order_market_id o) base_asset taker base_asset_fill (assets s) in
  modify (set_assets l) ;;
  if maker_asset_is_base then mret (maker_fill, mkExternalFee taker fee)
  else
    adjusted ← lift (checked_sub_res maker_fill fee);
    mret (adjusted, mkExternalFee (maker o) fee).

(** ** The operations *)

Definition do_remove_order (order_id : Z) (who : AccountId) : ObM unit :=
  s ← get;
  order_data ← lift (ok_or (Orders s !! order_id) (ob_error OrderDoesNotExist));
  lift (ensure (bool_decide (who = maker order_data)) (ob_error NotOrderCreator)) ;;
  let '(missing, l) := mc_unreserve_named ob_reserve_id (maker_asset order_data) (maker order_data)
    (maker_amount order_data) (assets s) in
  modify (set_assets l) ;;
  modify (fun s => set_Orders (delete order_id (Orders s)) s) ;;
  deposit_order_event (OrderRemoved order_id (maker order_data)).

Definition do_fill_order (order_id : Z) (taker : AccountId) (maker_partial_fill : option Z) :
    ObM OrderbookTrade :=
  s ← get;
  order_data ← lift (ok_or (Orders s !! order_id) (ob_error OrderDoesNotExist));
  m ← lift (market (commons s) (order_market_id order_data));
  lift (ensure (bool_decide (status m = Active)) (ob_error MarketIsNotActive)) ;;
  let base_asset := base_asset m in
  let maker_fill := default (taker_amount order_data) maker_partial_fill in
  lift (ensure (minimum_balance (taker_asset order_data) <=? maker_fill) (ob_error BelowMinimumBalance)) ;;
  lift (ensure (maker_fill <=? taker_amount order_data) (ob_error AmountTooHighForOrder)) ;;
  taker_fill ← lift (get_taker_fill order_data maker_fill);
  on_assets (mc_repatriate_reserved_named ob_reserve_id (maker_asset order_data) (maker order_data)
               taker taker_fill) ;;
  '(maybe_adjusted_maker_fill, external_fee) ←
    charge_external_fees order_data base_asset maker_fill taker taker_fill;
  on_assets (mc_transfer (taker_asset order_data) taker (maker order_data) maybe_adjusted_maker_fill) ;;
  rest ← lift (decrease_order_amounts order_data maker_fill taker_fill);
  lift (ensure_ratio_quotient_valid rest) ;;
  (if maker_amount rest =? 0
   then modify (fun s => set_Orders (delete order_id (Orders s)) s)
   else modify (fun s => set_Orders (<[order_id := rest]> (Orders s)) s)) ;;
  deposit_order_event (OrderFilled order_id (maker order_data) taker taker_fill maker_fill
                         (maker_amount rest) (taker_amount rest) external_fee) ;;
  mret (mkTrade taker_fill maker_fill external_fee).

Definition do_place_order (who : AccountId) (market_id : Z) (maker_asset : Asset) (maker_amount : Z)
    (taker_asset : Asset) (taker_amount : Z) : ObM unit :=
  s ← get;
  m ← lift (market (commons s) market_id);
  lift (ensure (bool_decide (status m = Active)) (ob_error MarketIsNotActive)) ;;
  lift (ensure (bool_decide (scoring_rule m = AmmCdaHybrid)) (ob_error InvalidScoringRule)) ;;
  let base_asset := base_asset m in
  outcome_asset ← lift
    (if decide (maker_asset = base_asset) then Ok taker_asset
     else
       ensure (bool_decide (taker_asset = base_asset)) (ob_error MarketBaseAssetNotPresent) ;;
       Ok maker_asset);
  lift match asset_search outcome_asset (outcome_assets m) with
       | Found _ => Ok tt
       | NotFound _ => Err (ob_error InvalidOutcomeAsset)
       end ;;
  lift (ensure (minimum_balance maker_asset <=? maker_amount) (ob_error BelowMinimumBalance)) ;;
  lift (ensure (minimum_balance taker_asset <=? taker_amount) (ob_error BelowMinimumBalance)) ;;
  let order_id := NextOrderId s in
  next_order_id ← lift (checked_add_res 128 order_id 1);
  on_assets (mc_reserve_named ob_reserve_id maker_asset who maker_amount) ;;
  let order := mkOrder market_id who maker_asset maker_amount taker_asset taker_amount in
  modify (fun s => set_Orders (<[order_id := order]> (Orders s)) s) ;;
  modify (set_NextOrderId next_order_id) ;;
  deposit_order_event (OrderPlaced order_id order).

(** ** The calls *)

Definition remove_order (origin : Origin) (order_id : Z) : ObM unit :=
  transactional (who ← lift (ensure_signed origin); do_remove_order order_id who).

Definition fill_order (origin : Origin) (order_id : Z) (maker_partial_fill : option Z) : ObM unit :=
  transactional (taker ← lift (ensure_signed origin);
                 do_fill_order order_id taker maker_partial_fill ;; mret tt).

Definition place_order (origin : Origin) (market_id : Z) (maker_asset : Asset) (maker_amount : Z)
    (taker_asset : Asset) (taker_amount : Z) : ObM unit :=
  transactional (who ← lift (ensure_signed origin);
                 do_place_order who market_id maker_asset maker_amount taker_asset taker_amount).

(** ** For the hybrid router *)

Definition match_failure (error : DispatchError) : ApiError OrderbookSoftFail :=
  match error with
  | Module_ (OrderBookErr BelowMinimumBalance) => SoftFailure SoftBelowMinimumBalance
  | Module_ (OrderBookErr PartialFillNearFullFillNotAllowed) =>
      SoftFailure SoftPartialFillNearFullFillNotAllowed
  | e => HardFailure e
  end.

Definition order (s : ObState) (order_id : Z) : Res Order :=
  ok_or (Orders s !! order_id) (ob_error OrderDoesNotExist).

Definition api_fill_order (who : AccountId) (order_id : Z) (maker_partial_fill : option Z) :
    ST (ApiError OrderbookSoftFail) ObState OrderbookTrade := fun s =>
  let '(r, s1) := do_fill_order order_id who maker_partial_fill s in (map_err match_failure r, s1).

Definition api_place_order (who : AccountId) (market_id : Z) (maker_asset : Asset) (maker_amount : Z)
    (taker_asset : Asset) (taker_amount : Z) : ST (ApiError OrderbookSoftFail) ObState unit := fun s =>
  let '(r, s1) := do_place_order who market_id maker_asset maker_amount taker_asset taker_amount s in
  (map_err match_failure r, s1).
End OrderBook.
