(* ===== verification/OrderBookInv.v ===== *)
(** * The escrow of the order book

    The asset manager reserves the maker side of every open order under the
    pallet's name.  The reserve of an account in an asset is the sum of what her
    open orders offer of it, less what fills have taken that failed softly under
    the hybrid router after they had moved funds (its [leak], counted along the
    runs); where there was none the reserve is exact, removals release
    everything and fills are paid in full.  And what a fill pays. *)

From S2P Require Import Prelude Errors FixedMath Collections Market MultiCurrency OrderBook.

(** An error the router takes for "no trade". *)
Definition ob_soft (e : DispatchError) : Prop := exists f, match_failure e = SoftFailure f.
Definition ob_hard (e : DispatchError) : Prop := ~ ob_soft e.

(** Fees are moved between free balances, and the asset manager has errors of
    its own. *)
Class OrderBookLaws `{OrderBookConfig} : Prop := {
  ob_assets_laws :: MultiCurrencyLaws Assets;
  distribute_reserved : forall m a x v l r b w,
    mc_reserved r b w (distribute m a x v l).2 = mc_reserved r b w l;
  ob_transfer_hard : forall a x y v, st_raises ob_hard (mc_transfer a x y v : ST DispatchError Assets unit);
  ob_reserve_hard : forall r a x v, st_raises ob_hard (mc_reserve_named r a x v : ST DispatchError Assets unit);
  ob_repatriate_hard : forall r a x y v,
    st_raises ob_hard (mc_repatriate_reserved_named r a x y v : ST DispatchError Assets Z) }.

Section Escrow.
Context `{OrderBookLaws}.
Abbreviation ObM := (ST DispatchError ObState).

(** ** What open orders claim *)

Definition claim (a : Asset) (w : AccountId) (o : Order) : Z :=
  at_entry (maker_asset o) a (maker o) w (maker_amount o).

Definition escrow (orders : gmap Z Order) (a : Asset) (w : AccountId) : Z :=
  map_sum (claim a w <$> orders).

Lemma escrow_insert orders i o a w :
  escrow (<[i := o]> orders) a w =
    escrow orders a w - default 0 (claim a w <$> orders !! i) + claim a w o.
Proof. unfold escrow. by rewrite fmap_insert, map_sum_insert, lookup_fmap. Qed.
Lemma escrow_delete orders i a w :
  escrow (delete i orders) a w = escrow orders a w - default 0 (claim a w <$> orders !! i).
Proof. unfold escrow. by rewrite fmap_delete, map_sum_delete, lookup_fmap. Qed.

Definition order_ok (o : Order) : Prop := 0 <= maker_amount o /\ 0 <= taker_amount o.

(** What is missing from the reserve, by asset and account. *)
Definition Leaks : Type := Asset -> AccountId -> Z.
Definition no_leak : Leaks := fun _ _ => 0.

Record ob_inv (k : Leaks) (s : ObState) : Prop := {
  inv_leaks : forall a w, 0 <= k a w;
  inv_escrow : forall a w, escrow (Orders s) a w - k a w <= mc_reserved ob_reserve_id a w (assets s) <= escrow (Orders s) a w;
  inv_orders : forall i o, Orders s !! i = Some o -> i < NextOrderId s /\ order_ok o }.

Lemma claim_le orders i o :
  (forall j o', orders !! j = Some o' -> order_ok o') -> orders !! i = Some o ->
  maker_amount o <= escrow orders (maker_asset o) (maker o).
Proof.
  intros Hok Hi. unfold escrow.
  pose proof (map_sum_lookup (claim (maker_asset o) (maker o) <$> orders) i) as Hl.
  rewrite lookup_fmap, Hi in Hl. cbn in Hl.
  assert (Hc : claim (maker_asset o) (maker o) o = maker_amount o) by (unfold claim, at_entry; by rewrite decide_True).
  rewrite Hc in Hl. apply Hl. intros j v Hv. apply lookup_fmap_Some in Hv as (o' & <- & Hj). destruct (Hok j o' Hj).
  unfold claim, at_entry. case_decide; lia.
Qed.

(** The reserve covers every open order, but for the leak. *)
Lemma reserve_covers k s i o :
  ob_inv k s -> Orders s !! i = Some o ->
  maker_amount o - k (maker_asset o) (maker o) <= mc_reserved ob_reserve_id (maker_asset o) (maker o) (assets s) /\
  maker_amount o <= escrow (Orders s) (maker_asset o) (maker o).
Proof.
  intros [_ He Ho] Hi. pose proof (He (maker_asset o) (maker o)).
  enough (maker_amount o <= escrow (Orders s) (maker_asset o) (maker o)) by lia.
  apply (claim_le _ i); [|done]. intros j o' Hj. by apply Ho in Hj as [_ ?].
Qed.

(** A reserve that was drained of [v], of which [m] was missing, against
    claims that went down by [c]. *)
Lemma drained_inv k k' s s' a x v m c :
  ob_inv k s -> m = Z.max 0 (v - mc_reserved ob_reserve_id a x (assets s)) -> 0 <= c <= v ->
  c <= escrow (Orders s) a x ->
  (forall b w, mc_reserved ob_reserve_id b w (assets s') = mc_reserved ob_reserve_id b w (assets s) - at_entry a b x w (v - m)) ->
  (forall b w, escrow (Orders s') b w = escrow (Orders s) b w - at_entry a b x w c) ->
  (forall b w, k' b w = k b w + at_entry a b x w (v - c)) ->
  (forall i o, Orders s' !! i = Some o -> i < NextOrderId s' /\ order_ok o) ->
  c = v \/ c = 0 -> ob_inv k' s'.
Proof.
  intros HI Hm Hc Hle Hres Hesc Hk Ho Hcv. split; [| |done].
  - intros b w. rewrite Hk. pose proof (inv_leaks _ _ HI b w). unfold at_entry. case_decide; lia.
  - intros b w. rewrite Hres, Hesc, Hk. pose proof (inv_escrow _ _ HI b w). pose proof (reserved_nonneg (assets s) ob_reserve_id b w).
    unfold at_entry. case_decide as Hd; [|lia]. injection Hd as <- <-. lia.
Qed.

(** ** What a fill pays *)

Lemma taker_fill_bounds o f t :
  order_ok o -> 0 <= f <= taker_amount o -> get_taker_fill o f = Ok t ->
  0 < taker_amount o /\ 0 <= t <= maker_amount o /\ t * taker_amount o <= f * maker_amount o.
Proof.
  unfold get_taker_fill, bmul_bdiv_floor. intros [HM HT] Hf Ht.
  pose proof (bmul_bdiv_common_ok 128 f (maker_amount o) (taker_amount o) 0 t ltac:(lia) HM Ht)
    as (HB & Hnz & Hor). assert (Hd : 0 < taker_amount o) by lia. pose proof BASE_pos.
  pose proof (bmul_bdiv_common_le 128 f (maker_amount o) (taker_amount o) 0 t ltac:(lia) HM Hd Ht) as Hle.
  rewrite Z.add_0_r in Hle. rewrite Z.div_div, (Z.mul_comm (taker_amount o)), <- Z.div_div in Hle by lia.
  rewrite Z.div_mul in Hle by lia.
  assert (Ht0 : 0 <= t).
  { destruct Hor as [[_ ->]|[_ ->]]; rewrite Z.add_0_r; apply Z.div_pos; try lia;
      [apply Z.div_pos; nia|apply Z.mul_nonneg_nonneg; [apply Z.div_pos; nia|lia]]. }
  pose proof (Z.mul_div_le (f * maker_amount o) (taker_amount o) Hd). split; [done|]. split; [|nia]. split; [done|].
  assert (f * maker_amount o / taker_amount o <= maker_amount o) by (apply Z.div_le_upper_bound; nia). lia.
Qed.

(** ... exactly, when the scaled product fits. *)
Lemma taker_fill_exact o f :
  order_ok o -> 0 <= f -> 0 < taker_amount o -> f * maker_amount o * BASE + BASE <= umax 128 ->
  get_taker_fill o f = Ok (f * maker_amount o / taker_amount o).
Proof.
  intros [HM HT] Hf Hd Hb. unfold get_taker_fill, bmul_bdiv_floor.
  pose proof BASE_pos. assert (HB : BASE <= umax 128) by (vm_compute; discriminate).
  rewrite bmul_bdiv_common_exact by (done || lia).
  rewrite Z.add_0_r, Z.div_div, (Z.mul_comm (taker_amount o)), <- Z.div_div, Z.div_mul by lia. done.
Qed.

(** ** The operations, when they succeed *)

Lemma on_assets_ok {A} (m : ST DispatchError Assets A) s a s' :
  on_assets m s = (Ok a, s') -> exists l, m (assets s) = (Ok a, l) /\ s' = set_assets l s.
Proof. unfold on_assets. destruct (m (assets s)) as [r l]. intros [= -> <-]. by exists l. Qed.

Lemma charge_ok o base f taker t s x s' :
  charge_external_fees o base f taker t s = (Ok x, s') ->
  exists v, s' = set_assets (distribute (order_market_id o) base taker v (assets s)).2 s /\
    x = (if bool_decide (maker_asset o = base)
         then (f, mkExternalFee taker (distribute (order_market_id o) base taker v (assets s)).1)
         else (f - (distribute (order_market_id o) base taker v (assets s)).1,
               mkExternalFee (maker o) (distribute (order_market_id o) base taker v (assets s)).1)) /\
    v = (if bool_decide (maker_asset o = base) then t else f).
Proof.
  unfold charge_external_fees. intros (a & s1 & [-> ->]%get_ok & Hr)%bind_ok.
  exists (if bool_decide (maker_asset o = base) then t else f).
  destruct (distribute _ _ _ _ _) as [fee l].
  apply bind_ok in Hr as (u & s1 & [_ ->]%modify_ok & Hr). case_bool_decide.
  - apply mret_ok in Hr as [-> ->]. done.
  - apply bind_ok in Hr as (adj & s2 & [[-> _]%checked_sub_res_ok ->]%lift_ok & [-> ->]%mret_ok). done.
Qed.

Record filled (i : Z) (taker : AccountId) (mp : option Z) (s : ObState) (tr : OrderbookTrade)
    (s' : ObState) (o : Order) (f t : Z) : Prop := {
  filled_order : Orders s !! i = Some o;
  filled_market : exists m, market (commons s) (order_market_id o) = Ok m /\ status m = Active;
  filled_amount : f = default (taker_amount o) mp;
  filled_range : minimum_balance (taker_asset o) <= f <= taker_amount o;
  filled_taker : get_taker_fill o f = Ok t;
  filled_le : t <= maker_amount o /\ (taker_amount o - f = 0 \/ minimum_balance (taker_asset o) <= taker_amount o - f);
  filled_moves : exists missing l1 b v adj u l3,
    mc_repatriate_reserved_named ob_reserve_id (maker_asset o) (maker o) taker t (assets s) = (Ok missing, l1) /\
    mc_transfer (taker_asset o) taker (maker o) adj (distribute (order_market_id o) b taker v l1).2 = (Ok u, l3) /\
    assets s' = l3 /\ adj + (if bool_decide (maker_asset o = b) then 0 else (distribute (order_market_id o) b taker v l1).1) = f;
  filled_orders : Orders s' =
    (if maker_amount o - t =? 0 then delete i (Orders s)
     else <[i := mkOrder (order_market_id o) (maker o) (maker_asset o) (maker_amount o - t)
                   (taker_asset o) (taker_amount o - f)]> (Orders s));
  filled_frame : NextOrderId s' = NextOrderId s /\ commons s' = commons s;
  filled_trade : filled_maker_amount tr = t /\ filled_taker_amount tr = f;
  filled_event : ob_events s' = ob_events s ++ [OrderFilled i (maker o) taker t f (maker_amount o - t)
                                                 (taker_amount o - f) (external_fee tr)] }.

Lemma do_fill_ok i taker mp s tr s' :
  do_fill_order i taker mp s = (Ok tr, s') -> exists o f t, filled i taker mp s tr s' o f t.
Proof.
  unfold do_fill_order. intros (a & s1 & [-> ->]%get_ok & Hr)%bind_ok.
  apply bind_ok in Hr as (o & s1 & [Ho%ok_or_ok ->]%lift_ok & Hr).
  apply bind_ok in Hr as (m & s1 & [Hm ->]%lift_ok & Hr).
  apply bind_ok in Hr as (u1 & s1 & [Hact%ensure_ok%bool_decide_eq_true ->]%lift_ok & Hr).
  apply bind_ok in Hr as (u2 & s1 & [Hmin%ensure_ok%Z.leb_le ->]%lift_ok & Hr).
  apply bind_ok in Hr as (u3 & s1 & [Hmax%ensure_ok%Z.leb_le ->]%lift_ok & Hr).
  apply bind_ok in Hr as (t & s1 & [Ht ->]%lift_ok & Hr).
  apply bind_ok in Hr as (missing & s1 & (l1 & Hrep & ->)%on_assets_ok & Hr).
  apply bind_ok in Hr as ([adj fee] & s1 & (v & -> & Hx & _)%charge_ok & Hr). cbn in Hr, Hx.
  apply bind_ok in Hr as (u4 & s1 & (l3 & Htr & ->)%on_assets_ok & Hr). cbn in Htr.
  apply bind_ok in Hr as (rest & s1 & [Hdec ->]%lift_ok & Hr).
  apply result_bind_ok in Hdec as (x & [-> Hle]%checked_sub_res_ok & Hdec).
  apply result_bind_ok in Hdec as (y & [-> _]%checked_sub_res_ok & [= <-]).
  apply bind_ok in Hr as (u5 & s1 & [Hq%ensure_ok ->]%lift_ok & Hr). cbn in Hq, Hr.
  apply bind_ok in Hr as (u6 & s1 & Hord & Hr).
  apply bind_ok in Hr as (u7 & s2 & [_ ->]%modify_ok & [-> ->]%mret_ok).
  exists o, (default (taker_amount o) mp), t.
  assert (Hs1 : Orders s1 = (if maker_amount o - t =? 0 then delete i (Orders s)
     else <[i := mkOrder (order_market_id o) (maker o) (maker_asset o) (maker_amount o - t)
                   (taker_asset o) (taker_amount o - default (taker_amount o) mp)]> (Orders s)) /\
     assets s1 = l3 /\ NextOrderId s1 = NextOrderId s /\ commons s1 = commons s /\ ob_events s1 = ob_events s).
  { case_match; apply modify_ok in Hord as [_ ->]; done. }
  destruct Hs1 as (HO & HA & HN & HC & HE).
  split; try done; [by exists m| | |].
  - split; [done|]. apply orb_true_iff in Hq as [?%Z.eqb_eq|?%Z.leb_le]; auto.
  - exists missing, l1, (base_asset m), v, adj, u4, l3. split_and!; [done..|].
    case_bool_decide; injection Hx as -> ->; lia.
  - cbn. by rewrite HE.
Qed.

(** The maker's reserve pays the taker fill, but for the leak. *)
Lemma fill_reserved k i taker mp s tr s' o f t :
  ob_inv k s -> filled i taker mp s tr s' o f t ->
  0 <= t /\ t * taker_amount o <= f * maker_amount o /\
  exists missing l1, mc_repatriate_reserved_named ob_reserve_id (maker_asset o) (maker o) taker t (assets s) = (Ok missing, l1) /\
    missing = Z.max 0 (t - mc_reserved ob_reserve_id (maker_asset o) (maker o) (assets s)) /\
    missing <= k (maker_asset o) (maker o) /\
    forall b w, mc_reserved ob_reserve_id b w (assets s') =
      mc_reserved ob_reserve_id b w (assets s) - at_entry (maker_asset o) b (maker o) w (t - missing).
Proof.
  intros HI Hf. destruct (inv_orders _ _ HI i o (filled_order _ _ _ _ _ _ _ _ _ Hf)) as [_ Hok].
  pose proof (filled_range _ _ _ _ _ _ _ _ _ Hf) as Hrange. pose proof (minimum_nonneg (taker_asset o)).
  destruct (taker_fill_bounds o f t Hok ltac:(lia) (filled_taker _ _ _ _ _ _ _ _ _ Hf)) as (_ & Ht & Hp).
  destruct (filled_moves _ _ _ _ _ _ _ _ _ Hf) as (missing & l1 & b & v & adj & u & l3 & Hrep & Htr & -> & _).
  destruct (repatriate_missing _ _ _ _ _ _ _ _ (proj1 Ht) Hrep) as [Hm Hres].
  pose proof (reserve_covers k s i o HI (filled_order _ _ _ _ _ _ _ _ _ Hf)).
  pose proof (inv_leaks _ _ HI (maker_asset o) (maker o)).
  split; [lia|]. split; [done|]. exists missing, l1. split; [done|]. split; [done|]. split; [lia|]. intros b' w.
  by rewrite (transfer_reserved _ _ _ _ _ _ _ _ _ _ Htr), distribute_reserved, Hres.
Qed.

Lemma do_fill_inv k i taker mp s tr s' : ob_inv k s -> do_fill_order i taker mp s = (Ok tr, s') -> ob_inv k s'.
Proof.
  intros HI (o & f & t & Hf)%do_fill_ok.
  destruct (fill_reserved _ _ _ _ _ _ _ _ _ _ HI Hf) as (Ht & _ & missing & l1 & _ & Hm & _ & Hres).
  pose proof (filled_order _ _ _ _ _ _ _ _ _ Hf) as Ho. pose proof (filled_orders _ _ _ _ _ _ _ _ _ Hf) as HO.
  pose proof (filled_range _ _ _ _ _ _ _ _ _ Hf). pose proof (filled_le _ _ _ _ _ _ _ _ _ Hf) as [Hle _].
  destruct (filled_frame _ _ _ _ _ _ _ _ _ Hf) as [HN _].
  destruct (inv_orders _ _ HI i o Ho) as [Hid Hok]. destruct (reserve_covers k s i o HI Ho) as [_ Hcl].
  refine (drained_inv k k s s' _ _ t missing t HI Hm _ _ Hres _ _ _ (or_introl eq_refl)); [lia|lia| | |].
  - intros a w. rewrite HO. destruct (Z.eqb_spec (maker_amount o - t) 0).
    + rewrite escrow_delete, Ho. cbn. unfold claim, at_entry. case_decide; lia.
    + rewrite escrow_insert, Ho. cbn. unfold claim, at_entry. cbn. case_decide; lia.
  - intros a w. unfold at_entry. case_decide; lia.
  - rewrite HN, HO. intros j o' Hj. destruct (Z.eqb_spec (maker_amount o - t) 0).
    + apply lookup_delete_Some in Hj as [_ Hj]. by apply (inv_orders _ _ HI).
    + apply lookup_insert_Some in Hj as [[<- <-]|[_ Hj]]; [|by apply (inv_orders _ _ HI)].
      destruct Hok. split; [done|]. split; cbn; lia.
Qed.

(** ** Fills and placements that fail softly *)

#[local] Hint Extern 1 (ob_hard _) => (by intros [? ?]) : raises.
#[local] Hint Extern 1 (ob_hard _) => (by intros [? ?]) : core.

Lemma ob_hard_base : raises ob_hard (PredictionMarketBase_get 128).
Proof. unfold PredictionMarketBase_get. case_match; [apply raises_ok|by intros e [= <-] [? ?]]. Qed.
#[local] Hint Resolve ob_hard_base : raises.
Lemma ob_hard_mul_div x y z : raises ob_hard (bmul_bdiv_floor 128 x y z).
Proof.
  unfold bmul_bdiv_floor, bmul_bdiv_common, checked_add_res, checked_mul_res, checked_div_res.
  case_match; raises_tac; auto.
Qed.
Lemma ob_hard_sub x y : raises ob_hard (checked_sub_res x y).
Proof. apply raises_ok_or. auto. Qed.
Lemma ob_hard_on_assets {A} (m : ST DispatchError Assets A) : st_raises ob_hard m -> st_raises ob_hard (on_assets m).
Proof. intros Hm s e s'. unfold on_assets. destruct (m (assets s)) as [r l] eqn:E. intros [= -> _]. by eapply Hm. Qed.
#[local] Hint Resolve ob_hard_mul_div ob_hard_sub : raises.
Lemma ob_hard_charge o b f w t : st_raises ob_hard (charge_external_fees o b f w t).
Proof.
  unfold charge_external_fees. apply st_raises_bind; [apply st_raises_get|intros s].
  destruct (distribute _ _ _ _ _) as [fee l]. raises_tac.
Qed.

Lemma ob_soft_bind {A B} (m : ObM A) (f : A -> ObM B) s e s' : ob_soft e -> st_raises ob_hard m ->
  (m ≫= f) s = (Err e, s') -> exists a s1, m s = (Ok a, s1) /\ f a s1 = (Err e, s').
Proof. intros He Hm [Hr|(a & s1 & Hr & Hf)]%bind_err; [by destruct (Hm _ _ _ Hr)|by exists a, s1]. Qed.

(** A fill that fails softly either did nothing, or had moved the funds of
    the whole fill and left the order as it was. *)
Lemma do_fill_soft i w mp s e f s' :
  match_failure e = SoftFailure f -> do_fill_order i w mp s = (Err e, s') ->
  match f with
  | SoftBelowMinimumBalance => s' = s
  | SoftPartialFillNearFullFillNotAllowed =>
      exists o t missing l1, Orders s !! i = Some o /\ get_taker_fill o (default (taker_amount o) mp) = Ok t /\
        minimum_balance (taker_asset o) <= default (taker_amount o) mp <= taker_amount o /\
        mc_repatriate_reserved_named ob_reserve_id (maker_asset o) (maker o) w t (assets s) = (Ok missing, l1) /\
        Orders s' = Orders s /\ NextOrderId s' = NextOrderId s /\
        forall a x, mc_reserved ob_reserve_id a x (assets s') = mc_reserved ob_reserve_id a x l1
  end.
Proof.
  intros Hf Hr. assert (He : ob_soft e) by by exists f. unfold do_fill_order in Hr.
  apply ob_soft_bind in Hr as (s0 & s1 & [-> ->]%get_ok & Hr); [|done|raises_tac].
  apply ob_soft_bind in Hr as (o & s1 & [Ho%ok_or_ok ->]%lift_ok & Hr); [|done|raises_tac; auto].
  apply ob_soft_bind in Hr as (m & s1 & [_ ->]%lift_ok & Hr); [|done|unfold market; raises_tac; auto].
  apply ob_soft_bind in Hr as (u1 & s1 & [_ ->]%lift_ok & Hr); [|done|raises_tac; auto].
  apply bind_err in Hr as [[Hr%ensure_err ->]%lift_err|(u2 & s1 & [Hmin%ensure_ok%Z.leb_le ->]%lift_ok & Hr)].
  { subst e. by injection Hf as <-. }
  apply ob_soft_bind in Hr as (u3 & s1 & [Hmax%ensure_ok%Z.leb_le ->]%lift_ok & Hr); [|done|raises_tac; auto].
  apply ob_soft_bind in Hr as (t & s1 & [Ht ->]%lift_ok & Hr); [|done|unfold get_taker_fill; raises_tac].
  apply ob_soft_bind in Hr as (missing & s1 & (l1 & Hrep & ->)%on_assets_ok & Hr); [|done|apply ob_hard_on_assets, ob_repatriate_hard].
  apply ob_soft_bind in Hr as ([adj fee] & s1 & (v & -> & _)%charge_ok & Hr); [|done|apply ob_hard_charge]. cbn in Hr.
  apply ob_soft_bind in Hr as (u4 & s1 & (l3 & Htr & ->)%on_assets_ok & Hr); [|done|apply ob_hard_on_assets, ob_transfer_hard].
  apply ob_soft_bind in Hr as (rest & s1 & [_ ->]%lift_ok & Hr); [|done|unfold decrease_order_amounts; raises_tac].
  apply bind_err in Hr as [[Hr%ensure_err ->]%lift_err|(u5 & s1 & _ & Hr)]; [|exfalso; revert Hr; by case_match].
  subst e. injection Hf as <-. exists o, t, missing, l1. split_and!; try done. intros a x. cbn in Htr |- *.
  by rewrite (transfer_reserved _ _ _ _ _ _ _ _ _ _ Htr), distribute_reserved.
Qed.

(** What such a fill takes from the reserve of an order it does not touch. *)
Definition soft_leak (i : Z) (mp : option Z) (f : OrderbookSoftFail) (s : ObState) : Leaks := fun a w =>
  match f, Orders s !! i with
  | SoftPartialFillNearFullFillNotAllowed, Some o =>
      match get_taker_fill o (default (taker_amount o) mp) with
      | Ok t => at_entry (maker_asset o) a (maker o) w t
      | Err _ => 0
      end
  | _, _ => 0
  end.

Lemma ob_inv_leaks k k' s : (forall a w, k' a w = k a w) -> ob_inv k s -> ob_inv k' s.
Proof. intros Hk [Hl He Ho]. split; [|intros a w; rewrite Hk; apply He|done]. intros a w. rewrite Hk. apply Hl. Qed.

Lemma do_fill_soft_inv k i w mp s e f s' :
  ob_inv k s -> match_failure e = SoftFailure f -> do_fill_order i w mp s = (Err e, s') ->
  ob_inv (fun a x => k a x + soft_leak i mp f s a x) s'.
Proof.
  intros HI Hf Hr. pose proof (do_fill_soft _ _ _ _ _ _ _ Hf Hr) as Hs. unfold soft_leak. destruct f.
  { subst s'. apply (ob_inv_leaks k); [|done]. intros a x. lia. }
  destruct Hs as (o & t & missing & l1 & Ho & Ht & Hrange & Hrep & HO & HN & HR).
  destruct (inv_orders _ _ HI i o Ho) as [_ Hok]. pose proof (minimum_nonneg (taker_asset o)).
  destruct (taker_fill_bounds o (default (taker_amount o) mp) t Hok ltac:(lia) Ht) as (_ & Ht0 & _). rewrite Ho, Ht.
  destruct (repatriate_missing _ _ _ _ _ _ _ _ (proj1 Ht0) Hrep) as [Hm Hres].
  destruct (reserve_covers k s i o HI Ho) as [_ Hcl].
  refine (drained_inv k _ s s' (maker_asset o) (maker o) t missing 0 HI Hm _ _ _ _ _ _ (or_intror eq_refl)); [lia|lia| | | |].
  - intros b x. by rewrite HR, Hres.
  - intros b x. rewrite HO. unfold at_entry. case_decide; lia.
  - intros b x. by rewrite Z.sub_0_r.
  - rewrite HO, HN. apply (inv_orders _ _ HI).
Qed.

Lemma do_place_soft who m ma mv ta tv s e s' :
  ob_soft e -> do_place_order who m ma mv ta tv s = (Err e, s') -> s' = s.
Proof.
  intros He Hr. unfold do_place_order in Hr.
  apply bind_err in Hr as [Hr|(s0 & s1 & [-> ->]%get_ok & Hr)]; [done|].
  do 8 (apply bind_err in Hr as [[_ ->]%lift_err|(? & s1 & [_ ->]%lift_ok & Hr)]; [done|]).
  apply ob_soft_bind in Hr as (u & s1 & _ & Hr); [done|done|apply ob_hard_on_assets, ob_reserve_hard].
Qed.

Lemma do_remove_ok i who s u s' :
  do_remove_order i who s = (Ok u, s') ->
  exists o missing l, Orders s !! i = Some o /\ who = maker o /\
    mc_unreserve_named ob_reserve_id (maker_asset o) (maker o) (maker_amount o) (assets s) = (missing, l) /\
    assets s' = l /\ Orders s' = delete i (Orders s) /\ NextOrderId s' = NextOrderId s.
Proof.
  unfold do_remove_order. intros (a & s1 & [-> ->]%get_ok & Hr)%bind_ok.
  apply bind_ok in Hr as (o & s1 & [Ho%ok_or_ok ->]%lift_ok & Hr).
  apply bind_ok in Hr as (u1 & s1 & [Hw%ensure_ok%bool_decide_eq_true ->]%lift_ok & Hr).
  destruct (mc_unreserve_named _ _ _ _ _) as [missing l] eqn:Hu.
  apply bind_ok in Hr as (u2 & s1 & [_ ->]%modify_ok & Hr).
  apply bind_ok in Hr as (u3 & s1 & [_ ->]%modify_ok & [_ ->]%modify_ok).
  by exists o, missing, l.
Qed.

Lemma do_remove_inv k i who s u s' :
  ob_inv k s -> do_remove_order i who s = (Ok u, s') -> ob_inv k s'.
Proof.
  intros HI (o & missing & l & Ho & -> & Hu & HA & HO & HN)%do_remove_ok.
  destruct (inv_orders _ _ HI i o Ho) as [_ [Hm _]]. destruct (reserve_covers k s i o HI Ho) as [_ Hcl].
  destruct (unreserve_missing _ _ _ _ _ _ _ Hm Hu) as [Hmiss Hres]. subst l.
  refine (drained_inv k k s s' _ _ (maker_amount o) missing (maker_amount o) HI Hmiss _ _ Hres _ _ _ (or_introl eq_refl)); [lia|lia| | |].
  - intros a w. rewrite HO, escrow_delete, Ho. done.
  - intros a w. unfold at_entry. case_decide; lia.
  - rewrite HN, HO. intros j o' [_ Hj]%lookup_delete_Some. by apply (inv_orders _ _ HI).
Qed.

Lemma do_place_ok who m ma mv ta tv s u s' :
  do_place_order who m ma mv ta tv s = (Ok u, s') ->
  exists mk l, market (commons s) m = Ok mk /\ status mk = Active /\ scoring_rule mk = AmmCdaHybrid /\
    ((ma = base_asset mk /\ ta ∈ outcome_assets mk) \/ (ma <> base_asset mk /\ ta = base_asset mk /\ ma ∈ outcome_assets mk)) /\
    minimum_balance ma <= mv /\ minimum_balance ta <= tv /\
    mc_reserve_named ob_reserve_id ma who mv (assets s) = (Ok tt, l) /\ assets s' = l /\
    Orders s' = <[NextOrderId s := mkOrder m who ma mv ta tv]> (Orders s) /\
    NextOrderId s' = NextOrderId s + 1 /\ NextOrderId s + 1 <= umax 128 /\
    ob_events s' = ob_events s ++ [OrderPlaced (NextOrderId s) (mkOrder m who ma mv ta tv)] /\ commons s' = commons s.
Proof.
  unfold do_place_order. intros (a & s1 & [-> ->]%get_ok & Hr)%bind_ok.
  apply bind_ok in Hr as (mk & s1 & [Hm ->]%lift_ok & Hr).
  apply bind_ok in Hr as (u1 & s1 & [Hact%ensure_ok%bool_decide_eq_true ->]%lift_ok & Hr).
  apply bind_ok in Hr as (u2 & s1 & [Hsr%ensure_ok%bool_decide_eq_true ->]%lift_ok & Hr).
  apply bind_ok in Hr as (oa & s1 & [Hoa ->]%lift_ok & Hr).
  apply bind_ok in Hr as (u3 & s1 & [Hs ->]%lift_ok & Hr).
  apply bind_ok in Hr as (u4 & s1 & [Hmin%ensure_ok%Z.leb_le ->]%lift_ok & Hr).
  apply bind_ok in Hr as (u5 & s1 & [Hmin'%ensure_ok%Z.leb_le ->]%lift_ok & Hr).
  apply bind_ok in Hr as (nx & s1 & [[-> Hnx]%checked_add_res_ok ->]%lift_ok & Hr).
  apply bind_ok in Hr as ([] & s1 & (l & Hres & ->)%on_assets_ok & Hr).
  apply bind_ok in Hr as (u7 & s1 & [_ ->]%modify_ok & Hr).
  apply bind_ok in Hr as (u8 & s1 & [_ ->]%modify_ok & [_ ->]%modify_ok).
  exists mk, l. split_and!; try done.
  destruct (asset_search oa (outcome_assets mk)) as [k|] eqn:Hk; [|done]. apply asset_search_found in Hk.
  case_decide; [injection Hoa as <-; by left|].
  apply result_bind_ok in Hoa as (u9 & Hta%ensure_ok%bool_decide_eq_true & [= <-]). right. done.
Qed.

Lemma do_place_inv k who m ma mv ta tv s u s' :
  ob_inv k s -> do_place_order who m ma mv ta tv s = (Ok u, s') -> ob_inv k s'.
Proof.
  intros HI (mk & l & _ & _ & _ & _ & Hm & Ht & Hres & HA & HO & HN & _)%do_place_ok.
  pose proof (minimum_nonneg ma). pose proof (minimum_nonneg ta).
  assert (Hnew : Orders s !! NextOrderId s = None).
  { destruct (Orders s !! NextOrderId s) as [o|] eqn:Ho; [|done]. apply (inv_orders _ _ HI) in Ho as [? _]. lia. }
  assert (Hmv : 0 <= mv) by lia. split; [apply HI| |].
  - intros a w. rewrite HA, (reserve_reserved _ _ _ _ _ _ _ _ _ Hmv Hres), HO, escrow_insert, Hnew.
    pose proof (inv_escrow _ _ HI a w). cbn. unfold claim. cbn. lia.
  - rewrite HN, HO. intros j o' [[<- <-]|[_ Hj]]%lookup_insert_Some.
    + split; [lia|]. split; cbn; lia.
    + destruct (inv_orders _ _ HI j o' Hj). split; [lia|done].
Qed.

(** ** Runs *)

(** The calls, and what the hybrid router does on the book: fills and
    placements that succeed, and those that fail softly, whose writes it keeps.
    (After a hard failure the router's call is undone.)  The steps carry the
    leak. *)
Inductive ob_step : Leaks -> ObState -> Leaks -> ObState -> Prop :=
| step_place k s origin m ma mv ta tv : ob_step k s k (exec (place_order origin m ma mv ta tv) s)
| step_fill k s origin i mp : ob_step k s k (exec (fill_order origin i mp) s)
| step_remove k s origin i : ob_step k s k (exec (remove_order origin i) s)
| step_router_fill k s who i mp tr s' : api_fill_order who i mp s = (Ok tr, s') -> ob_step k s k s'
| step_router_soft_fill k s who i mp f s' :
    api_fill_order who i mp s = (Err (SoftFailure f), s') -> ob_step k s (fun a w => k a w + soft_leak i mp f s a w) s'
| step_router_place k s who m ma mv ta tv u s' :
    api_place_order who m ma mv ta tv s = (Ok u, s') -> ob_step k s k s'
| step_router_soft_place k s who m ma mv ta tv f s' :
    api_place_order who m ma mv ta tv s = (Err (SoftFailure f), s') -> ob_step k s k s'
| step_elsewhere k s l c :
    (forall a w, mc_reserved ob_reserve_id a w l = mc_reserved ob_reserve_id a w (assets s)) ->
    ob_step k s k (set_commons c (set_assets l s)).

Definition ob_initial (s : ObState) : Prop :=
  Orders s = ∅ /\ forall a w, mc_reserved ob_reserve_id a w (assets s) = 0.

Inductive ob_run : Leaks -> ObState -> Prop :=
| ob_start s : ob_initial s -> ob_run no_leak s
| ob_next k s k' s' : ob_run k s -> ob_step k s k' s' -> ob_run k' s'.

Lemma ob_initial_inv s : ob_initial s -> ob_inv no_leak s.
Proof.
  intros [HO HR]. split; rewrite ?HO; [done| |].
  - intros a w. rewrite HR. unfold escrow, no_leak. rewrite fmap_empty, (map_sum_empty (K := Z)). done.
  - intros i o. by rewrite lookup_empty.
Qed.

(** A transactional call either succeeds or leaves the storage alone. *)
Lemma transactional_inv {A} k (m : ObM A) s :
  ob_inv k s -> (forall a s', m s = (Ok a, s') -> ob_inv k s') -> ob_inv k (exec (transactional m) s).
Proof.
  intros HI Hm. unfold exec, transactional. destruct (m s) as [[a|e] s'] eqn:Hr; cbn; [by eapply Hm|done].
Qed.

Lemma signed_inv {A} k origin (m : AccountId -> ObM A) s :
  ob_inv k s -> (forall w a s', m w s = (Ok a, s') -> ob_inv k s') ->
  ob_inv k (exec (transactional (who ← lift (ensure_signed origin); m who)) s).
Proof.
  intros HI Hm. apply transactional_inv; [done|]. intros a s' (w & s1 & [_ ->]%lift_ok & Hr)%bind_ok.
  by eapply Hm.
Qed.

Lemma api_ok {A} (m : ObM A) s a s' :
  (let '(r, s1) := m s in (map_err match_failure r, s1)) = (Ok a, s') -> m s = (Ok a, s').
Proof. destruct (m s) as [[b|e] s1]; cbn; [|done]. by intros [= -> ->]. Qed.
Lemma api_err {A} (m : ObM A) s f s' :
  (let '(r, s1) := m s in (map_err match_failure r, s1)) = (Err f, s') ->
  exists e, match_failure e = f /\ m s = (Err e, s').
Proof. destruct (m s) as [[b|e] s1]; cbn; [done|]. intros [= <- ->]. by exists e. Qed.

Lemma ob_step_inv k s k' s' : ob_inv k s -> ob_step k s k' s' -> ob_inv k' s'.
Proof.
  intros HI Hst. destruct Hst as [k s o m ma mv ta tv|k s o i mp|k s o i|k s who i mp tr s' Hr|k s who i mp f s' Hr
    |k s who m ma mv ta tv u s' Hr|k s who m ma mv ta tv f s' Hr|k s l c Hl].
  - apply signed_inv; [done|]. intros w a s'. by apply do_place_inv.
  - apply (signed_inv k o (fun w => do_fill_order i w mp ;; mret tt)); [done|].
    intros w a s' (tr & s1 & Hr & [_ ->]%mret_ok)%bind_ok. by eapply do_fill_inv.
  - apply signed_inv; [done|]. intros w a s'. by apply do_remove_inv.
  - apply api_ok in Hr. by eapply do_fill_inv.
  - apply api_err in Hr as (e & Hf & Hr). by eapply do_fill_soft_inv.
  - apply api_ok in Hr. by eapply do_place_inv.
  - apply api_err in Hr as (e & Hf & Hr). apply do_place_soft in Hr as ->; [done|by exists f].
  - split; cbn; [apply HI| |apply HI]. intros a w. rewrite Hl. apply HI.
Qed.

Lemma ob_run_inv k s : ob_run k s -> ob_inv k s.
Proof. induction 1; [by apply ob_initial_inv|by eapply ob_step_inv]. Qed.

(** What a removal does. *)
Lemma remove_refunds k s i o :
  ob_inv k s -> Orders s !! i = Some o ->
  exists s', remove_order (Signed (maker o)) i s = (Ok tt, s') /\ Orders s' = delete i (Orders s) /\
    mc_free_balance (maker_asset o) (maker o) (assets s) + maker_amount o - k (maker_asset o) (maker o) <=
      mc_free_balance (maker_asset o) (maker o) (assets s') <=
      mc_free_balance (maker_asset o) (maker o) (assets s) + maker_amount o.
Proof.
  intros HI Ho. destruct (inv_orders _ _ HI i o Ho) as [_ [Hm _]]. destruct (reserve_covers k s i o HI Ho) as [Hk _].
  destruct (mc_unreserve_named ob_reserve_id (maker_asset o) (maker o) (maker_amount o) (assets s)) as [missing l] eqn:Hu.
  destruct (unreserve_missing _ _ _ _ _ _ _ Hm Hu) as [Hmiss _].
  pose proof (unreserve_credit _ _ _ _ _ _ _ Hm Hu) as Hc. pose proof (inv_leaks _ _ HI (maker_asset o) (maker o)).
  pose proof (reserved_nonneg (assets s) ob_reserve_id (maker_asset o) (maker o)).
  eexists. split_and!.
  - unfold remove_order, transactional, do_remove_order, mbind, st_bind, get, lift. cbn. rewrite Ho. cbn.
    rewrite bool_decide_eq_true_2 by done. cbn. rewrite Hu. cbn. done.
  - done.
  - cbn. lia.
  - cbn. lia.
Qed.

(** C6. In every run of the order book (its calls, which succeed or are undone,
    and the fills and placements of the hybrid router, which keep their writes
    when they fail softly) the amount reserved for an account in an asset is at
    most the sum of what her open orders offer of it, and falls short of it by
    at most the taker fills of those router fills of her orders in that asset
    that failed softly for leaving too small a rest; it is that sum exactly
    where there was no such fill.  No order has the next id, and every maker can
    remove every order of hers, which credits her free balance with what is left
    of its maker amount, less at most that leak. *)
Theorem escrow_accounted k s :
  ob_run k s ->
  (forall a w, escrow (Orders s) a w - k a w <= mc_reserved ob_reserve_id a w (assets s) <= escrow (Orders s) a w) /\
  (forall a w, k a w = 0 -> mc_reserved ob_reserve_id a w (assets s) = escrow (Orders s) a w) /\
  Orders s !! NextOrderId s = None /\
  forall i o, Orders s !! i = Some o ->
    exists s', remove_order (Signed (maker o)) i s = (Ok tt, s') /\ Orders s' = delete i (Orders s) /\
      mc_free_balance (maker_asset o) (maker o) (assets s) + maker_amount o - k (maker_asset o) (maker o) <=
        mc_free_balance (maker_asset o) (maker o) (assets s') <=
        mc_free_balance (maker_asset o) (maker o) (assets s) + maker_amount o.
Proof.
  intros HI%ob_run_inv. split; [apply HI|]. split.
  { intros a w Hk. pose proof (inv_escrow _ _ HI a w). lia. }
  split; [|intros i o; by apply remove_refunds].
  destruct (Orders s !! NextOrderId s) as [o|] eqn:Ho; [|done]. apply (inv_orders _ _ HI) in Ho as [? _]. lia.
Qed.

(** A fill that succeeds is on an active market, for between the minimum
    balance and all of what the maker still asks; the taker gets [t] of the
    maker asset with [t / f] at most the order's ratio (and exactly its floor
    when the scaled product fits a [u128]), paid from the maker's reserve, in
    full where nothing has leaked from it; the maker is sent [f] less the fee;
    the order keeps exactly the rest, is removed when nothing of the maker
    amount is left, and never keeps a positive rest below the minimum balance. *)
Theorem fill_correct k s origin i mp s' :
  ob_run k s -> fill_order origin i mp s = (Ok tt, s') ->
  exists taker o f t tr, origin = Signed taker /\ filled i taker mp s tr s' o f t /\
    t * taker_amount o <= f * maker_amount o /\
    (f * maker_amount o * BASE + BASE <= umax 128 -> t = f * maker_amount o / taker_amount o) /\
    (exists missing l1, mc_repatriate_reserved_named ob_reserve_id (maker_asset o) (maker o) taker t (assets s) = (Ok missing, l1) /\
       0 <= missing <= k (maker_asset o) (maker o)) /\
    (forall j, j <> i -> Orders s' !! j = Orders s !! j) /\
    (f * maker_amount o * BASE + BASE <= umax 128 -> f = taker_amount o -> Orders s' !! i = None).
Proof.
  intros HI%ob_run_inv Hr. apply transactional_ok in Hr.
  apply bind_ok in Hr as (taker & s1 & [Hsig ->]%lift_ok & Hr).
  apply bind_ok in Hr as (tr & s1 & (o & f & t & Hf)%do_fill_ok & [_ ->]%mret_ok).
  destruct (fill_reserved _ _ _ _ _ _ _ _ _ _ HI Hf) as (Ht & Hp & missing & l1 & Hrep & Hm & Hmk & _).
  destruct (inv_orders _ _ HI i o (filled_order _ _ _ _ _ _ _ _ _ Hf)) as [_ Hok].
  pose proof (filled_range _ _ _ _ _ _ _ _ _ Hf). pose proof (minimum_nonneg (taker_asset o)).
  pose proof (filled_taker _ _ _ _ _ _ _ _ _ Hf) as Htf.
  destruct (taker_fill_bounds o f t Hok ltac:(lia) Htf) as (Hpos & _).
  assert (Hex : f * maker_amount o * BASE + BASE <= umax 128 -> t = f * maker_amount o / taker_amount o).
  { intros Hb. rewrite taker_fill_exact in Htf by (done || lia). congruence. }
  pose proof (filled_orders _ _ _ _ _ _ _ _ _ Hf) as HO. exists taker, o, f, t, tr.
  split; [by destruct origin; simplify_eq/=|]. split_and!; try done.
  - exists missing, l1. split; [done|lia].
  - intros j Hj. rewrite HO. case_match; [by rewrite lookup_delete_ne|by rewrite lookup_insert_ne].
  - intros Hb ->. rewrite (Hex Hb), Z.mul_comm, Z.div_mul in HO by lia.
    rewrite HO, Z.sub_diag. apply lookup_delete_eq.
Qed.
End Escrow.
