(* ===== verification/HybridRouter.v ===== *)
(** * The hybrid-router pallet

    [pallets/hybrid-router/src/lib.rs] and [types.rs]: a buy or sell order is
    split between the automated market maker and the listed orders of the
    order book, and the rest becomes a limit order or cancels the trade.  The
    order book is the model of [OrderBook]; the market maker is an interface.
    A soft failure of either is swallowed without undoing its writes, as in the
    source. *)

From S2P Require Import Prelude Errors FixedMath Collections Interfaces Market MultiCurrency OrderBook.

Inductive Strategy := ImmediateOrCancel | LimitOrder.
Inductive TxType := Buy | Sell.
#[global] Instance Strategy_dec : EqDecision Strategy.
Proof. solve_decision. Defined.
#[global] Instance TxType_dec : EqDecision TxType.
Proof. solve_decision. Defined.

Record AmmTrade := mkAmmTrade {
  amm_amount_in : Z;
  amm_amount_out : Z;
  amm_swap_fee_amount : Z;
  amm_external_fee_amount : Z }.

Inductive AmmSoftFail := Numerical.

Inductive Trade := TradeOrderbook (t : OrderbookTrade) | TradeAmm (t : AmmTrade).

Record TradeEventInfo := mkInfo {
  info_amount_out : Z;
  info_external_fee_amount : Z;
  info_swap_fee_amount : Z }.

Definition TradeEventInfo_new : TradeEventInfo := mkInfo 0 0 0.

Definition add_amount_out_minus_fees (self additional : TradeEventInfo) : Res TradeEventInfo :=
  external ← checked_add_res 128 (info_external_fee_amount self) (info_external_fee_amount additional);
  swap ← checked_add_res 128 (info_swap_fee_amount self) (info_swap_fee_amount additional);
  fees ← checked_add_res 128 (info_external_fee_amount additional) (info_swap_fee_amount additional);
  amount_minus_fees ← checked_sub_res (info_amount_out additional) fees;
  out ← checked_add_res 128 (info_amount_out self) amount_minus_fees;
  Ok (mkInfo out external swap).

Definition add_amount_out_and_fees (self additional : TradeEventInfo) : Res TradeEventInfo :=
  external ← checked_add_res 128 (info_external_fee_amount self) (info_external_fee_amount additional);
  swap ← checked_add_res 128 (info_swap_fee_amount self) (info_swap_fee_amount additional);
  out ← checked_add_res 128 (info_amount_out self) (info_amount_out additional);
  Ok (mkInfo out external swap).

Record OrderAmmTradesInfo := mkTradesInfo {
  remaining : Z;
  order_trades : list OrderbookTrade;
  amm_trades : list AmmTrade }.

(** What a relayed trade signs: the context [BUY] or [SELL], the relayer, the
    nonce and the arguments. *)
Record SignedTrade := mkSignedTrade {
  st_context : TxType;
  st_relayer : AccountId;
  st_nonce : Z;
  st_market_id : Z;
  st_asset_count : Z;
  st_asset : Asset;
  st_amount_in : Z;
  st_price : Z;
  st_orders : list Z;
  st_strategy : Strategy }.

(** ** Configuration and storage *)

(** [HybridRouterAmmApi]: the market maker keeps pools of its own, moves the
    assets and reads the markets. *)
Class AmmApi `{OrderBookConfig} := {
  AmmState : Type;
  pool_exists : Z -> AmmState -> bool;
  get_spot_price : MarketCommons -> Z -> Asset -> AmmState -> Res Z;
  calculate_buy_amount_until : MarketCommons -> Z -> Asset -> Z -> AmmState -> Res Z;
  calculate_sell_amount_until : MarketCommons -> Z -> Asset -> Z -> AmmState -> Res Z;
  amm_buy : MarketCommons -> AccountId -> Z -> Asset -> Z -> Z ->
    ST (ApiError AmmSoftFail) (AmmState * Assets) AmmTrade;
  amm_sell : MarketCommons -> AccountId -> Z -> Asset -> Z -> Z ->
    ST (ApiError AmmSoftFail) (AmmState * Assets) AmmTrade }.

Class HybridRouterConfig `{AmmApi} := {
  MaxOrders : Z;
  (** SCALE encoding and account signatures *)
  router_encode : SignedTrade -> list Z;
  router_verify_signature : Proof_ -> list Z -> bool }.

Section HybridRouter.
Context `{HybridRouterConfig}.

Record HrEvent := HybridRouterExecuted {
  ev_tx_type : TxType;
  ev_who : AccountId;
  ev_market_id : Z;
  ev_price_limit : Z;
  ev_asset_in : Asset;
  ev_amount_in : Z;
  ev_asset_out : Asset;
  ev_amount_out : Z;
  ev_external_fee_amount : Z;
  ev_swap_fee_amount : Z }.

Record HrState := mkHr {
  book : ObState;
  amm : AmmState;
  MarketNonces : gmap (AccountId * Z) Z;
  hr_events : list HrEvent }.

Definition set_book x s := mkHr x (amm s) (MarketNonces s) (hr_events s).
Definition set_amm x s := mkHr (book s) x (MarketNonces s) (hr_events s).
Definition set_MarketNonces x s := mkHr (book s) (amm s) x (hr_events s).
Definition set_hr_events x s := mkHr (book s) (amm s) (MarketNonces s) x.

Abbreviation HrM := (ST DispatchError HrState).

Definition hr_error (e : HybridRouterError) : DispatchError := Module_ (HybridRouterErr e).
Definition market_nonces (s : HrState) (who : AccountId) (market_id : Z) : Z :=
  default 0 (MarketNonces s !! (who, market_id)).

(** A call of the order book or of the market maker, its writes kept. *)
Definition on_book {E A} (m : ST E ObState A) : ST E HrState A := fun s =>
  let '(r, b) := m (book s) in (r, set_book b s).
Definition on_amm {E A} (m : ST E (AmmState * Assets) A) : ST E HrState A := fun s =>
  let '(r, (a, l)) := m (amm s, assets (book s)) in
  (r, set_amm a (set_book (set_assets l (book s)) s)).

(** ** The two venues *)

Definition handle_amm_trade (tx_type : TxType) (who : AccountId) (market_id : Z) (asset : Asset)
    (amount_in min_amount_out : Z) : HrM (option AmmTrade) :=
  s ← get;
  let c := commons (book s) in
  match tx_type with
  | Buy =>
      r ← attempt (on_amm (amm_buy c who market_id asset amount_in min_amount_out));
      match r with
      | Ok amm_trade => mret (Some amm_trade)
      | Err (SoftFailure Numerical) => mret None
      | Err (HardFailure dispatch_error) => fail dispatch_error
      end
  | Sell =>
      r ← attempt (on_amm (amm_sell c who market_id asset amount_in min_amount_out));
      match r with
      | Ok amm_trade => mret (Some amm_trade)
      | Err (SoftFailure Numerical) => mret None
      | Err (HardFailure dispatch_error) => fail dispatch_error
      end
  end.

(** The amount to move the pool's price to the limit; [None] is the early
    return of the source. *)
Definition amm_amount_until (tx_type : TxType) (market_id : Z) (asset : Asset) (price_limit : Z)
    (s : HrState) : Res (option Z) :=
  let c := commons (book s) in
  spot_price ← get_spot_price c market_id asset (amm s);
  match tx_type with
  | Buy =>
      if price_limit <=? spot_price then Ok None
      else Some <$> calculate_buy_amount_until c market_id asset price_limit (amm s)
  | Sell =>
      if spot_price <=? price_limit then Ok None
      else Some <$> calculate_sell_amount_until c market_id asset price_limit (amm s)
  end.

Definition maybe_fill_from_amm (tx_type : TxType) (who : AccountId) (market_id : Z) (asset : Asset)
    (amount_in price_limit : Z) : HrM (Z * option AmmTrade) :=
  s ← get;
  if negb (pool_exists market_id (amm s)) then mret (amount_in, None)
  else
    until ← lift (amm_amount_until tx_type market_id asset price_limit s);
    match until with
    | None => mret (amount_in, None)
    | Some until =>
        let amm_amount_in := Z.min until amount_in in
        if amm_amount_in =? 0 then mret (amount_in, None)
        else
          amm_trade_info ← handle_amm_trade tx_type who market_id asset amm_amount_in 0;
          match amm_trade_info with
          | Some amm_trade =>
              rest ← lift (checked_sub_res amount_in amm_amount_in);
              mret (rest, Some amm_trade)
          | None => mret (amount_in, None)
          end
    end.

Definition handle_fill_order (who : AccountId) (order_id maker_fill : Z) : HrM (option OrderbookTrade) :=
  r ← attempt (on_book (api_fill_order who order_id (Some maker_fill)));
  match r with
  | Ok order_trade => mret (Some order_trade)
  | Err (SoftFailure SoftBelowMinimumBalance)
  | Err (SoftFailure SoftPartialFillNearFullFillNotAllowed) => mret None
  | Err (HardFailure dispatch_error) => fail dispatch_error
  end.

(** The checks of one listed order. *)
Definition check_order (tx_type : TxType) (asset : Asset) (price_limit order_price : Z) (o : Order) :
    Res unit :=
  match tx_type with
  | Buy =>
      ensure (bool_decide (asset = maker_asset o)) (hr_error AssetNotEqualToOrderbookMakerAsset) ;;
      ensure (order_price <=? price_limit) (hr_error OrderPriceAboveMaxPrice)
  | Sell =>
      ensure (bool_decide (asset = taker_asset o)) (hr_error AssetNotEqualToOrderbookTakerAsset) ;;
      ensure (price_limit <=? order_price) (hr_error OrderPriceBelowMinPrice)
  end.

(** The loop over the listed orders, with what it accumulates. *)
Fixpoint maybe_fill_orders_loop (tx_type : TxType) (orders : list Z) (who : AccountId) (market_id : Z)
    (base_asset asset : Asset) (price_limit : Z) (acc : OrderAmmTradesInfo) : HrM OrderAmmTradesInfo :=
  match orders with
  | [] => mret acc
  | order_id :: orders =>
      let continue := maybe_fill_orders_loop tx_type orders who market_id base_asset asset price_limit in
      if remaining acc =? 0 then mret acc
      else
        s ← get;
        match order (book s) order_id with
        | Err _ => continue acc
        | Ok o =>
            order_price ← lift (price o base_asset);
            lift (check_order tx_type asset price_limit order_price o) ;;
            '(rest, t) ← maybe_fill_from_amm tx_type who market_id asset (remaining acc) order_price;
            let acc := mkTradesInfo rest (order_trades acc) (amm_trades acc ++ option_list t) in
            if remaining acc =? 0 then mret acc
            else
              '(taker_fill, maker_fill) ← lift (taker_and_maker_fill_from_taker_amount o (remaining acc));
              order_trade_opt ← handle_fill_order who order_id maker_fill;
              match order_trade_opt with
              | Some order_trade =>
                  rest ← lift (checked_sub_res (remaining acc) maker_fill);
                  continue (mkTradesInfo rest (order_trades acc ++ [order_trade]) (amm_trades acc))
              | None => continue acc
              end
        end
  end.

Definition maybe_fill_orders (tx_type : TxType) (orders : list Z) (amount : Z) (who : AccountId)
    (market_id : Z) (base_asset asset : Asset) (price_limit : Z) : HrM OrderAmmTradesInfo :=
  maybe_fill_orders_loop tx_type orders who market_id base_asset asset price_limit
    (mkTradesInfo amount [] []).

Definition maybe_place_limit_order (strategy : Strategy) (who : AccountId) (market_id : Z)
    (maker_asset : Asset) (maker_amount : Z) (taker_asset : Asset) (taker_amount : Z) : HrM bool :=
  match strategy with
  | ImmediateOrCancel => fail (hr_error CancelStrategyApplied)
  | LimitOrder =>
      r ← attempt (on_book (api_place_order who market_id maker_asset maker_amount taker_asset taker_amount));
      match r with
      | Ok _ => mret true
      | Err (SoftFailure SoftBelowMinimumBalance)
      | Err (SoftFailure SoftPartialFillNearFullFillNotAllowed) => mret false
      | Err (HardFailure dispatch_error) => fail dispatch_error
      end
  end.

(** ** The event *)

Definition update_event_info (who : AccountId) (event_info : TradeEventInfo) (trade : Trade) :
    Res TradeEventInfo :=
  match trade with
  | TradeOrderbook t =>
      let external_fee_amount :=
        if decide (fee_account (external_fee t) = who) then fee_amount (external_fee t) else 0 in
      add_amount_out_minus_fees event_info (mkInfo (filled_maker_amount t) external_fee_amount 0)
  | TradeAmm t =>
      add_amount_out_and_fees event_info
        (mkInfo (amm_amount_out t) (amm_external_fee_amount t) (amm_swap_fee_amount t))
  end.

(** [Iterator::try_fold]. *)
Fixpoint try_fold {A B} (f : B -> A -> Res B) (acc : B) (xs : list A) : Res B :=
  match xs with
  | [] => Ok acc
  | x :: xs => acc ← f acc x; try_fold f acc xs
  end.

Definition get_event_info (who : AccountId) (orderbook_trades : list OrderbookTrade)
    (amm_trades : list AmmTrade) : Res TradeEventInfo :=
  try_fold (update_event_info who) TradeEventInfo_new
    ((TradeOrderbook <$> orderbook_trades) ++ (TradeAmm <$> amm_trades)).

(** ** A trade *)

(** The amount the maker of the limit order asks for. *)
Definition limit_order_amount (tx_type : TxType) (rest price_limit : Z) : Res Z :=
  match tx_type with
  | Buy => bdiv_ceil 128 rest price_limit
  | Sell => bmul_floor 128 price_limit rest
  end.

Definition do_trade (tx_type : TxType) (who : AccountId) (market_id asset_count : Z) (asset : Asset)
    (amount_in price_limit : Z) (orders : list Z) (strategy : Strategy) : HrM unit :=
  lift (ensure (0 <? amount_in) (hr_error AmountIsZero)) ;;
  base ← lift (PredictionMarketBase_get 128);
  lift (ensure (price_limit <=? base) (hr_error PriceLimitTooHigh)) ;;
  lift (ensure (saturated_into 32 (Z.of_nat (length orders)) <=? MaxOrders) (hr_error MaxOrdersExceeded)) ;;
  s ← get;
  m ← lift (market (commons (book s)) market_id);
  lift (ensure (asset_count =? Z.of_nat (length (outcome_assets m))) (hr_error AssetCountMismatch)) ;;
  let '(asset_in, asset_out) :=
    match tx_type with Buy => (base_asset m, asset) | Sell => (asset, base_asset m) end in
  lift (mc_ensure_can_withdraw asset_in who amount_in (assets (book s))) ;;
  info ← maybe_fill_orders tx_type orders amount_in who market_id (base_asset m) asset price_limit;
  '(rest, t) ←
    (if remaining info =? 0 then mret (remaining info, None)
     else maybe_fill_from_amm tx_type who market_id asset (remaining info) price_limit);
  let amm_trades := amm_trades info ++ option_list t in
  limit_order_was_placed ←
    (if rest =? 0 then mret false
     else
       taker_amount ← lift (limit_order_amount tx_type rest price_limit);
       maybe_place_limit_order strategy who market_id asset_in rest asset_out taker_amount);
  info ← lift (get_event_info who (order_trades info) amm_trades);
  modify (fun s => set_hr_events (hr_events s ++
    [HybridRouterExecuted tx_type who market_id price_limit asset_in
       (if limit_order_was_placed : bool then amount_in else saturating_sub amount_in rest)
       asset_out (info_amount_out info) (info_external_fee_amount info)
       (info_swap_fee_amount info)]) s).

(** ** The calls *)

Definition buy (origin : Origin) (market_id asset_count : Z) (asset : Asset) (amount_in max_price : Z)
    (orders : list Z) (strategy : Strategy) : HrM unit :=
  transactional (who ← lift (ensure_signed origin);
                 do_trade Buy who market_id asset_count asset amount_in max_price orders strategy).

Definition sell (origin : Origin) (market_id asset_count : Z) (asset : Asset) (amount_in min_price : Z)
    (orders : list Z) (strategy : Strategy) : HrM unit :=
  transactional (who ← lift (ensure_signed origin);
                 do_trade Sell who market_id asset_count asset amount_in min_price orders strategy).

Definition encode_signed_buy_params relayer nonce market_id asset_count asset amount_in max_price orders strategy :=
  router_encode (mkSignedTrade Buy relayer nonce market_id asset_count asset amount_in max_price orders strategy).
Definition encode_signed_sell_params relayer nonce market_id asset_count asset amount_in min_price orders strategy :=
  router_encode (mkSignedTrade Sell relayer nonce market_id asset_count asset amount_in min_price orders strategy).

(** The nonce is a [u64]; [+= 1] wraps in the release profile. *)
Definition increment_nonce (who : AccountId) (market_id : Z) : HrM unit :=
  modify (fun s => set_MarketNonces
    (<[(who, market_id) := wrapping_add 64 (market_nonces s who market_id) 1]> (MarketNonces s)) s).

Definition signed_buy (origin : Origin) (proof : Proof_) (market_id asset_count : Z) (asset : Asset)
    (amount_in max_price : Z) (orders : list Z) (strategy : Strategy) : HrM unit :=
  transactional (
    who ← lift (ensure_signed origin);
    lift (ensure (bool_decide (who = signer proof)) (hr_error RouterSenderIsNotSigner)) ;;
    market_nonce ← gets (fun s => market_nonces s (signer proof) market_id);
    let signed_payload := encode_signed_buy_params (relayer proof) market_nonce market_id asset_count
      asset amount_in max_price orders strategy in
    lift (ensure (router_verify_signature proof signed_payload)
            (hr_error RouterUnauthorizedSignedTransaction)) ;;
    do_trade Buy who market_id asset_count asset amount_in max_price orders strategy ;;
    increment_nonce who market_id).

Definition signed_sell (origin : Origin) (proof : Proof_) (market_id asset_count : Z) (asset : Asset)
    (amount_in min_price : Z) (orders : list Z) (strategy : Strategy) : HrM unit :=
  transactional (
    who ← lift (ensure_signed origin);
    lift (ensure (bool_decide (who = signer proof)) (hr_error RouterSenderIsNotSigner)) ;;
    market_nonce ← gets (fun s => market_nonces s (signer proof) market_id);
    let signed_payload := encode_signed_sell_params (relayer proof) market_nonce market_id asset_count
      asset amount_in min_price orders strategy in
    lift (ensure (router_verify_signature proof signed_payload)
            (hr_error RouterUnauthorizedSignedTransaction)) ;;
    do_trade Sell who market_id asset_count asset amount_in min_price orders strategy ;;
    increment_nonce who market_id).

(** ** Relayed calls *)

Inductive RouterCall :=
| buy_call (market_id asset_count : Z) (asset : Asset) (amount_in max_price : Z) (orders : list Z)
    (strategy : Strategy)
| sell_call (market_id asset_count : Z) (asset : Asset) (amount_in min_price : Z) (orders : list Z)
    (strategy : Strategy)
| signed_buy_call (proof : Proof_) (market_id asset_count : Z) (asset : Asset) (amount_in max_price : Z)
    (orders : list Z) (strategy : Strategy)
| signed_sell_call (proof : Proof_) (market_id asset_count : Z) (asset : Asset) (amount_in min_price : Z)
    (orders : list Z) (strategy : Strategy).

Definition dispatch_router (origin : Origin) (call : RouterCall) : HrM unit :=
  match call with
  | buy_call m n a x p os st => buy origin m n a x p os st
  | sell_call m n a x p os st => sell origin m n a x p os st
  | signed_buy_call proof m n a x p os st => signed_buy origin proof m n a x p os st
  | signed_sell_call proof m n a x p os st => signed_sell origin proof m n a x p os st
  end.

Definition router_encoded_call_param (s : HrState) (call : RouterCall) : option (Proof_ * list Z) :=
  match call with
  | signed_buy_call proof market_id asset_count asset amount_in max_price orders strategy =>
      let nonce := market_nonces s (signer proof) market_id in
      Some (proof, encode_signed_buy_params (relayer proof) nonce market_id asset_count asset amount_in
                     max_price orders strategy)
  | signed_sell_call proof market_id asset_count asset amount_in min_price orders strategy =>
      let nonce := market_nonces s (signer proof) market_id in
      Some (proof, encode_signed_sell_params (relayer proof) nonce market_id asset_count asset amount_in
                     min_price orders strategy)
  | _ => None
  end.

Definition router_signature_is_valid (s : HrState) (call : RouterCall) : bool :=
  match router_encoded_call_param s call with
  | Some (proof, signed_payload) => router_verify_signature proof signed_payload
  | None => false
  end.
End HybridRouter.
