(* ===== verification/HybridRouterInv.v ===== *)
(** * The hybrid router: what a trade does

    The accounting of [do_trade] over the order book of [OrderBook] and any
    market maker that keeps the laws of [AmmLaws]. *)

From S2P Require Import Prelude Errors FixedMath Collections Interfaces Market MultiCurrency OrderBook OrderBookInv HybridRouter.

(** The market maker swaps what it is asked to swap. *)
Class AmmLaws `{AmmApi} : Prop := {
  amm_buy_amount : forall c w m a x y st tr st',
    amm_buy c w m a x y st = (Ok tr, st') -> amm_amount_in tr = x;
  amm_sell_amount : forall c w m a x y st tr st',
    amm_sell c w m a x y st = (Ok tr, st') -> amm_amount_in tr = x;
  buy_until_nonneg : forall c m a p st x, calculate_buy_amount_until c m a p st = Ok x -> 0 <= x;
  sell_until_nonneg : forall c m a p st x, calculate_sell_amount_until c m a p st = Ok x -> 0 <= x }.

Section Router.
Context `{HybridRouterConfig} `{!AmmLaws} `{!MultiCurrencyLaws Assets}.

(** ** Visits to the venues *)

(** The order offers or asks for the asset at a price within the limit. *)
Definition within_limit (tx : TxType) (a : Asset) (p pr : Z) (o : Order) : Prop :=
  match tx with Buy => maker_asset o = a /\ pr <= p | Sell => taker_asset o = a /\ p <= pr end.

Definition amm_call (tx : TxType) (who : AccountId) (m : Z) (a : Asset) (y : Z) (s : HrState) :
    Result (ApiError AmmSoftFail) AmmTrade * HrState :=
  match tx with
  | Buy => on_amm (amm_buy (commons (book s)) who m a y 0) s
  | Sell => on_amm (amm_sell (commons (book s)) who m a y 0) s
  end.

(** One call of a venue while [r] is left to trade: a listed order within the
    limit is filled, or the pool swaps up to the amount that moves its price to
    the limit or to the price of an order within it; what is traded comes off
    [r].  A soft failure leaves [r] alone and keeps whatever the venue wrote. *)
Inductive venue_step (tx : TxType) (who : AccountId) (m : Z) (base a : Asset) (p : Z) (os : list Z) :
    Z -> HrState -> list Trade -> Z -> HrState -> Prop :=
| visit_order r s i o pr tf f res b ts r' :
    i ∈ os -> Orders (book s) !! i = Some o -> price o base = Ok pr -> within_limit tx a p pr o ->
    taker_and_maker_fill_from_taker_amount o r = Ok (tf, f) ->
    api_fill_order who i (Some f) (book s) = (res, b) ->
    match res with
    | Ok tr => ts = [TradeOrderbook tr] /\ r' = r - f /\ 0 <= r'
    | Err (SoftFailure _) => ts = [] /\ r' = r
    | Err (HardFailure _) => False
    end ->
    venue_step tx who m base a p os r s ts r' (set_book b s)
| visit_pool r s q u res s' ts r' :
    q = p \/ (exists i o, i ∈ os /\ price o base = Ok q /\ within_limit tx a p q o) ->
    pool_exists m (amm s) = true -> amm_amount_until tx m a q s = Ok (Some u) ->
    amm_call tx who m a (Z.min u r) s = (res, s') ->
    match res with
    | Ok tr => ts = [TradeAmm tr] /\ r' = r - Z.min u r
    | Err (SoftFailure _) => ts = [] /\ r' = r
    | Err (HardFailure _) => False
    end ->
    venue_step tx who m base a p os r s ts r' s'.

Inductive venue_run (tx : TxType) (who : AccountId) (m : Z) (base a : Asset) (p : Z) (os : list Z) :
    Z -> HrState -> list Trade -> Z -> HrState -> Prop :=
| venue_done r s : venue_run tx who m base a p os r s [] r s
| venue_visit r s ts r1 s1 ts' r2 s2 :
    venue_step tx who m base a p os r s ts r1 s1 -> venue_run tx who m base a p os r1 s1 ts' r2 s2 ->
    venue_run tx who m base a p os r s (ts ++ ts') r2 s2.

Lemma venue_run_trans tx who m base a p os r s ts r1 s1 ts' r2 s2 :
  venue_run tx who m base a p os r s ts r1 s1 -> venue_run tx who m base a p os r1 s1 ts' r2 s2 ->
  venue_run tx who m base a p os r s (ts ++ ts') r2 s2.
Proof.
  induction 1 as [|r s ts1 ri si ts2 r1 s1 Hst _ IH]; [done|]. intros Hr. rewrite <- app_assoc.
  eapply venue_visit; [done|]. by apply IH.
Qed.
Lemma venue_once tx who m base a p os r s ts r1 s1 :
  venue_step tx who m base a p os r s ts r1 s1 -> venue_run tx who m base a p os r s ts r1 s1.
Proof. intros Hst. rewrite <- (app_nil_r ts). eapply venue_visit; [done|apply venue_done]. Qed.

Lemma venue_run_listed tx who m base a p os os' r s ts r1 s1 :
  (forall i, i ∈ os -> i ∈ os') ->
  venue_run tx who m base a p os r s ts r1 s1 -> venue_run tx who m base a p os' r s ts r1 s1.
Proof.
  intros Hin. induction 1 as [|r s ts ri si ts2 r1 s1 Hst _ IH]; [apply venue_done|]. eapply venue_visit; [|done].
  destruct Hst as [r s i o pr tf f res b ts r' ? ? ? ? ? ? ?|r s q u res s' ts r' Hq ? ? ? ?].
  - eapply visit_order; eauto.
  - eapply (visit_pool _ _ _ _ _ _ _ _ _ q); [|done..]. destruct Hq as [?|(i & o & ? & ?)]; [by left|right; exists i, o; auto].
Qed.

(** ** What a run trades *)

(** What the trader put into a trade. *)
Definition trade_in (t : Trade) : Z :=
  match t with TradeOrderbook t => filled_taker_amount t | TradeAmm t => amm_amount_in t end.
Definition fills_of (ts : list Trade) : list OrderbookTrade :=
  omap (fun t => match t with TradeOrderbook t => Some t | TradeAmm _ => None end) ts.
Definition swaps_of (ts : list Trade) : list AmmTrade :=
  omap (fun t => match t with TradeAmm t => Some t | TradeOrderbook _ => None end) ts.

Lemma zsum_trades (g : Trade -> Z) ts :
  zsum g ts = zsum (fun t => g (TradeOrderbook t)) (fills_of ts) + zsum (fun t => g (TradeAmm t)) (swaps_of ts).
Proof. induction ts as [|[t|t] ts IH]; [done|..]; unfold fills_of, swaps_of in *; cbn [omap list_omap]; rewrite !zsum_cons, IH; lia. Qed.

Lemma on_amm_run {E A} (f : ST E (AmmState * Assets) A) s r s' :
  on_amm f s = (r, s') -> commons (book s') = commons (book s) /\ MarketNonces s' = MarketNonces s /\
  hr_events s' = hr_events s /\ exists st', f (amm s, assets (book s)) = (r, st').
Proof.
  unfold on_amm. destruct (f _) as [r1 [x l]] eqn:Hm. intros [= <- <-]. split_and!; [done..|by eexists].
Qed.
Lemma amm_call_run tx who m a y s r s' :
  amm_call tx who m a y s = (r, s') -> commons (book s') = commons (book s) /\ MarketNonces s' = MarketNonces s /\
  hr_events s' = hr_events s /\ match r with Ok tr => amm_amount_in tr = y | Err _ => True end.
Proof.
  destruct tx; intros (-> & -> & -> & st & Hm)%on_amm_run; split_and!; try done; destruct r; try done;
    [by eapply amm_buy_amount|by eapply amm_sell_amount].
Qed.

Lemma amm_until_nonneg tx m a p s x : amm_amount_until tx m a p s = Ok (Some x) -> 0 <= x.
Proof.
  unfold amm_amount_until. intros (sp & _ & Hr)%result_bind_ok. destruct tx; case_match; try done.
  - destruct (calculate_buy_amount_until _ _ _ _ _) eqn:Hc; [|done]. injection Hr as <-. by eapply buy_until_nonneg.
  - destruct (calculate_sell_amount_until _ _ _ _ _) eqn:Hc; [|done]. injection Hr as <-. by eapply sell_until_nonneg.
Qed.

(** A fill leaves the markets alone, whatever its result. *)
Definition same_markets (s s' : ObState) : Prop := commons s' = commons s.
#[local] Instance same_markets_refl : Reflexive same_markets.
Proof. by intros s. Qed.
#[local] Instance same_markets_trans : Transitive same_markets.
Proof. intros s1 s2 s3 Hx Hy. unfold same_markets in *. congruence. Qed.
Lemma keeps_on_assets {A} (f : ST DispatchError Assets A) : keeps same_markets (on_assets f).
Proof. intros s. unfold on_assets. by destruct (f (assets s)). Qed.
Lemma keeps_same_modify f : (forall s, same_markets s (f s)) -> keeps same_markets (modify f : ST DispatchError ObState unit).
Proof. intros Hf s. apply Hf. Qed.
#[local] Hint Resolve keeps_on_assets : keeps.
#[local] Hint Extern 1 (keeps same_markets (modify _)) => (apply keeps_same_modify; done) : keeps.
Lemma keeps_charge o b f w t : keeps same_markets (charge_external_fees o b f w t).
Proof.
  unfold charge_external_fees. refine (keeps_bind _ _ _ _ _); [keeps_tac|]. intros s.
  destruct (distribute _ _ _ _ _) as [fee l]. keeps_tac.
Qed.
#[local] Hint Resolve keeps_charge : keeps.
Lemma fill_keeps_markets i w mp : keeps same_markets (do_fill_order i w mp).
Proof. unfold do_fill_order, deposit_order_event. keeps_tac. Qed.

Lemma api_fill_run who i mp s r s' :
  api_fill_order who i mp s = (r, s') -> commons s' = commons s /\
  match r with
  | Ok tr => exists o f t, filled i who mp s tr s' o f t
  | Err _ => True
  end.
Proof.
  intros Hr. split.
  - pose proof (fill_keeps_markets i who mp s) as Hk. unfold api_fill_order in Hr.
    destruct (do_fill_order i who mp s) as [r1 s1]. injection Hr as _ <-. exact Hk.
  - destruct r; [|done]. by apply api_ok, do_fill_ok in Hr.
Qed.

(** What is put into the trades and what is left add up, and only the book,
    the pools and the balances change. *)
Lemma venue_run_facts tx who m base a p os r s ts r' s' :
  0 <= r -> venue_run tx who m base a p os r s ts r' s' ->
  0 <= r' <= r /\ zsum trade_in ts + r' = r /\ commons (book s') = commons (book s) /\
  MarketNonces s' = MarketNonces s /\ hr_events s' = hr_events s.
Proof.
  intros Hr. induction 1 as [r s|r s ts r1 s1 ts' r2 s2 Hst _ IH]; [rewrite zsum_nil; split_and!; (done || lia)|].
  assert (Hs : 0 <= r1 <= r /\ zsum trade_in ts + r1 = r /\ commons (book s1) = commons (book s) /\
    MarketNonces s1 = MarketNonces s /\ hr_events s1 = hr_events s).
  { clear IH. destruct Hst as [r s i o pr tf f res b ts r1 _ Ho _ _ _ Hf Hres|r s q u res s1 ts r1 _ _ Hu Hc Hres].
    - apply api_fill_run in Hf as [Hcm Hf].
      enough (0 <= r1 <= r /\ zsum trade_in ts + r1 = r) by (split_and!; (done || lia)). destruct res as [tr|[e|e]]; [|destruct Hres as [-> ->]; rewrite zsum_nil; lia|done].
      destruct Hres as (-> & -> & ?), Hf as (o' & f' & t & Hf).
      pose proof (filled_amount _ _ _ _ _ _ _ _ _ Hf) as Hfa. cbn in Hfa. subst f'.
      destruct (filled_trade _ _ _ _ _ _ _ _ _ Hf) as [_ Hft]. pose proof (filled_range _ _ _ _ _ _ _ _ _ Hf).
      pose proof (minimum_nonneg (taker_asset o')). rewrite zsum_cons, zsum_nil. cbn [trade_in]. lia.
    - apply amm_until_nonneg in Hu. apply amm_call_run in Hc as (? & ? & ? & Ha).
      enough (0 <= r1 <= r /\ zsum trade_in ts + r1 = r) by (split_and!; (done || lia)).
      destruct res as [tr|[e|e]]; [|destruct Hres as [-> ->]; rewrite zsum_nil; lia|done].
      destruct Hres as (-> & ->). rewrite zsum_cons, zsum_nil. cbn [trade_in]. lia. }
  destruct Hs as (J1 & J2 & J3 & J4 & J5). destruct IH as (I1 & I2 & I3 & I4 & I5); [lia|].
  rewrite zsum_app. split_and!; (congruence || lia).
Qed.

(** ** The loop runs the venues *)

Lemma handle_amm_ok tx w m a x s t s' :
  handle_amm_trade tx w m a x 0 s = (Ok t, s') ->
  amm_call tx w m a x s = (match t with Some tr => Ok tr | None => Err (SoftFailure Numerical) end, s').
Proof.
  unfold handle_amm_trade. intros (s0 & s1 & [-> ->]%get_ok & Hr)%bind_ok.
  destruct tx; apply bind_ok in Hr as (r & s1 & Hm%attempt_ok & Hr);
    destruct r as [tr|[[]|e]]; try discriminate Hr; by apply mret_ok in Hr as [-> ->].
Qed.

Lemma amm_fill_ok tx w m b a p os x q s rest t s' :
  q = p \/ (exists i o, i ∈ os /\ price o b = Ok q /\ within_limit tx a p q o) ->
  maybe_fill_from_amm tx w m a x q s = (Ok (rest, t), s') ->
  venue_run tx w m b a p os x s (TradeAmm <$> option_list t) rest s'.
Proof.
  intros Hq. assert (Hnone : forall s1, (mret (x, None) : ST DispatchError HrState _) s1 = (Ok (rest, t), s') ->
    s1 = s -> venue_run tx w m b a p os x s (TradeAmm <$> option_list t) rest s').
  { intros s1 [[= -> ->] ->]%mret_ok ->. apply venue_done. }
  unfold maybe_fill_from_amm. intros (s0 & s1 & [-> ->]%get_ok & Hr)%bind_ok.
  destruct (pool_exists m (amm s)) eqn:Hpool; cbn [negb] in Hr; [|by apply Hnone in Hr].
  apply bind_ok in Hr as (u & s1 & [Hu ->]%lift_ok & Hr). destruct u as [u|]; [|by apply Hnone in Hr].
  case_match; [by apply Hnone in Hr|].
  apply bind_ok in Hr as (t' & s1 & Ha%handle_amm_ok & Hr). destruct t' as [tr|].
  - apply bind_ok in Hr as (r & s2 & [[-> Hle]%checked_sub_res_ok ->]%lift_ok & [[= -> ->] ->]%mret_ok).
    apply venue_once. by eapply visit_pool.
  - apply mret_ok in Hr as [[= -> ->] ->]. apply venue_once. by eapply visit_pool.
Qed.

(** The market maker leaves the orders alone. *)
Definition same_orders (s s' : HrState) : Prop := Orders (book s') = Orders (book s).
#[local] Instance same_orders_refl : Reflexive same_orders.
Proof. by intros s. Qed.
#[local] Instance same_orders_trans : Transitive same_orders.
Proof. intros s1 s2 s3 Hx Hy. unfold same_orders in *. congruence. Qed.
Lemma orders_on_amm {E A} (f : ST E (AmmState * Assets) A) :
  keeps same_orders (attempt (on_amm f) : ST DispatchError HrState _).
Proof. intros s. unfold attempt, on_amm. by destruct (f _) as [r [x l]]. Qed.
#[local] Hint Resolve orders_on_amm : keeps.
Lemma orders_amm tx w m a x p : keeps same_orders (maybe_fill_from_amm tx w m a x p).
Proof. unfold maybe_fill_from_amm, handle_amm_trade. keeps_tac. Qed.

Lemma check_order_ok tx a p pr o u : check_order tx a p pr o = Ok u -> within_limit tx a p pr o.
Proof.
  destruct tx; cbn; intros (u1 & Ha%ensure_ok%bool_decide_eq_true & Hp%ensure_ok%Z.leb_le)%result_bind_ok; done.
Qed.

Lemma handle_fill_ok w i f s t s' :
  handle_fill_order w i f s = (Ok t, s') ->
  exists res b, api_fill_order w i (Some f) (book s) = (res, b) /\ s' = set_book b s /\
    match t, res with Some tr, Ok tr' => tr' = tr | None, Err (SoftFailure _) => True | _, _ => False end.
Proof.
  unfold handle_fill_order. intros (r & s1 & Hb%attempt_ok & Hr)%bind_ok.
  unfold on_book in Hb. destruct (api_fill_order _ _ _ _) as [res b] eqn:Hf. injection Hb as <- <-. exists res, b.
  destruct res as [tr|[[]|e]]; try discriminate Hr; by apply mret_ok in Hr as [-> ->].
Qed.

(** The accumulator lists the trades of the run. *)
Definition accumulated (acc info : OrderAmmTradesInfo) (ts : list Trade) : Prop :=
  order_trades info = order_trades acc ++ fills_of ts /\ amm_trades info = amm_trades acc ++ swaps_of ts.
Lemma fills_app ts ts' : fills_of (ts ++ ts') = fills_of ts ++ fills_of ts'.
Proof. apply omap_app. Qed.
Lemma swaps_app ts ts' : swaps_of (ts ++ ts') = swaps_of ts ++ swaps_of ts'.
Proof. apply omap_app. Qed.
Lemma swaps_option t : fills_of (TradeAmm <$> option_list t) = [] /\ swaps_of (TradeAmm <$> option_list t) = option_list t.
Proof. by destruct t. Qed.

Lemma loop_ok tx os w m b a p acc s info s' :
  maybe_fill_orders_loop tx os w m b a p acc s = (Ok info, s') ->
  exists ts, venue_run tx w m b a p os (remaining acc) s ts (remaining info) s' /\ accumulated acc info ts.
Proof.
  assert (Hstop : forall os acc s, exists ts, venue_run tx w m b a p os (remaining acc) s ts (remaining acc) s /\ accumulated acc acc ts).
  { intros. exists []. split; [apply venue_done|]. split; by rewrite app_nil_r. }
  revert acc s. induction os as [|i os IH]; intros acc s; cbn [maybe_fill_orders_loop].
  { intros [-> ->]%mret_ok. apply Hstop. }
  case_match; [intros [-> ->]%mret_ok; apply Hstop|].
  assert (Hnext : forall acc s, maybe_fill_orders_loop tx os w m b a p acc s = (Ok info, s') ->
    exists ts, venue_run tx w m b a p (i :: os) (remaining acc) s ts (remaining info) s' /\ accumulated acc info ts).
  { intros acc1 s1 (ts & Hr & Ha)%IH. exists ts. split; [|done]. eapply venue_run_listed; [|done]. by right. }
  intros (s0 & s1 & [-> ->]%get_ok & Hr)%bind_ok. unfold order in Hr.
  destruct (Orders (book s) !! i) as [o|] eqn:Ho; cbn [ok_or] in Hr; [|by apply Hnext].
  apply bind_ok in Hr as (pr & s1 & [Hpr ->]%lift_ok & Hr).
  apply bind_ok in Hr as (u & s1 & [Hchk%check_order_ok ->]%lift_ok & Hr).
  apply bind_ok in Hr as ([rest t] & s1 & Hamm & Hr). cbn in Hr.
  pose proof (keeps_ok _ _ _ _ _ (orders_amm _ _ _ _ _ _) Hamm) as HO. unfold same_orders in HO.
  apply (amm_fill_ok _ _ _ b _ p (i :: os)) in Hamm; [|right; exists i, o; split_and!; [by left|done..]].
  destruct (swaps_option t) as [Hft Hst].
  set (acc1 := mkTradesInfo rest (order_trades acc) (amm_trades acc ++ option_list t)) in *.
  assert (Hthen : (exists ts, venue_run tx w m b a p (i :: os) rest s1 ts (remaining info) s' /\ accumulated acc1 info ts) ->
    exists ts, venue_run tx w m b a p (i :: os) (remaining acc) s ts (remaining info) s' /\ accumulated acc info ts).
  { intros (ts & Hrun & Hf & Hs). eexists. split; [by eapply venue_run_trans|]. unfold accumulated.
    rewrite fills_app, swaps_app, Hft, Hst, Hf, Hs. cbn. by rewrite <- app_assoc. }
  apply Hthen. clear Hthen. case_match; [apply mret_ok in Hr as [-> ->]; apply (Hstop _ acc1)|].
  apply bind_ok in Hr as ([tf mf] & s2 & [Htf ->]%lift_ok & Hr). cbn in Htf, Hr.
  apply bind_ok in Hr as (t' & s2 & (res & bk & Hfill & -> & Hres)%handle_fill_ok & Hr).
  assert (Hvisit : forall ts r', match res with Ok tr => ts = [TradeOrderbook tr] /\ r' = rest - mf /\ 0 <= r'
      | Err (SoftFailure _) => ts = [] /\ r' = rest | Err (HardFailure _) => False end ->
    venue_step tx w m b a p (i :: os) rest s1 ts r' (set_book bk s1)).
  { intros ts r' Hm. eapply visit_order; [by left|by rewrite HO|done..]. }
  destruct t' as [tr|], res as [tr'|[e|e]]; try done.
  - subst tr'. apply bind_ok in Hr as (rest' & s3 & [[-> Hle]%checked_sub_res_ok ->]%lift_ok & Hr). cbn in Hle.
    apply Hnext in Hr as (ts & Hrun & Hf & Hs). exists ([TradeOrderbook tr] ++ ts). split.
    + eapply venue_visit; [apply Hvisit; split_and!; [done..|lia]|done].
    + unfold accumulated. rewrite fills_app, swaps_app, Hf, Hs. cbn. by rewrite <- app_assoc.
  - apply Hnext in Hr as (ts & Hrun & Hf & Hs). exists ([] ++ ts). split; [|done].
    eapply venue_visit; [by apply Hvisit|done].
Qed.

(** ** The event *)

(** The external fee of a fill that [who] paid. *)
Definition own_fee (who : AccountId) (t : OrderbookTrade) : Z :=
  if decide (fee_account (external_fee t) = who) then fee_amount (external_fee t) else 0.

Lemma update_info_ok w i t i' : update_event_info w i t = Ok i' ->
  match t with
  | TradeOrderbook t => i' = mkInfo (info_amount_out i + (filled_maker_amount t - own_fee w t))
      (info_external_fee_amount i + own_fee w t) (info_swap_fee_amount i)
  | TradeAmm t => i' = mkInfo (info_amount_out i + amm_amount_out t)
      (info_external_fee_amount i + amm_external_fee_amount t) (info_swap_fee_amount i + amm_swap_fee_amount t)
  end.
Proof.
  destruct t as [t|t]; cbn.
  - fold (own_fee w t). intros (x & [-> _]%checked_add_res_ok & Hr)%result_bind_ok. cbn in Hr.
    apply result_bind_ok in Hr as (y & [-> _]%checked_add_res_ok & Hr).
    apply result_bind_ok in Hr as (z & [-> _]%checked_add_res_ok & Hr).
    apply result_bind_ok in Hr as (d & [-> _]%checked_sub_res_ok & Hr).
    apply result_bind_ok in Hr as (o & [-> _]%checked_add_res_ok & [= <-]). cbn. f_equal; lia.
  - intros (x & [-> _]%checked_add_res_ok & Hr)%result_bind_ok. cbn in Hr.
    apply result_bind_ok in Hr as (y & [-> _]%checked_add_res_ok & Hr).
    by apply result_bind_ok in Hr as (o & [-> _]%checked_add_res_ok & [= <-]).
Qed.

Definition trade_info (w : AccountId) (t : Trade) : TradeEventInfo :=
  match t with
  | TradeOrderbook t => mkInfo (filled_maker_amount t - own_fee w t) (own_fee w t) 0
  | TradeAmm t => mkInfo (amm_amount_out t) (amm_external_fee_amount t) (amm_swap_fee_amount t)
  end.

Lemma try_fold_info w ts : forall i0 i, try_fold (update_event_info w) i0 ts = Ok i ->
  i = mkInfo (info_amount_out i0 + zsum (fun t => info_amount_out (trade_info w t)) ts)
             (info_external_fee_amount i0 + zsum (fun t => info_external_fee_amount (trade_info w t)) ts)
             (info_swap_fee_amount i0 + zsum (fun t => info_swap_fee_amount (trade_info w t)) ts).
Proof.
  induction ts as [|t ts IH]; intros i0 i; cbn [try_fold].
  - intros [= <-]. destruct i0. cbn. f_equal; lia.
  - intros (i1 & Hu%update_info_ok & ->%IH)%result_bind_ok. rewrite !zsum_cons.
    destruct t; subst i1; cbn [trade_info info_amount_out info_external_fee_amount info_swap_fee_amount]; f_equal; lia.
Qed.

Lemma event_info_ok w ts i : get_event_info w (fills_of ts) (swaps_of ts) = Ok i ->
  i = mkInfo (zsum (fun t => info_amount_out (trade_info w t)) ts)
             (zsum (fun t => info_external_fee_amount (trade_info w t)) ts)
             (zsum (fun t => info_swap_fee_amount (trade_info w t)) ts).
Proof. intros ->%try_fold_info. rewrite !zsum_app, !zsum_fmap, !(zsum_trades _ ts). done. Qed.

(** ** The limit order *)

Lemma place_limit_ok st w m ma mv ta tv s placed s' :
  maybe_place_limit_order st w m ma mv ta tv s = (Ok placed, s') ->
  st = LimitOrder /\ exists res b, api_place_order w m ma mv ta tv (book s) = (res, b) /\ s' = set_book b s /\
    match res with Ok _ => placed = true | Err (SoftFailure _) => placed = false | Err (HardFailure _) => False end.
Proof.
  destruct st; [done|]. cbn. intros (r & s1 & Hb%attempt_ok & Hr)%bind_ok. split; [done|].
  unfold on_book in Hb. destruct (api_place_order _ _ _ _ _ _ _) as [res b]. injection Hb as <- <-. exists res, b.
  destruct res as [[]|[[]|e]]; try discriminate Hr; by apply mret_ok in Hr as [-> ->].
Qed.

Lemma limit_amount_ok tx rest p x : 0 <= p -> limit_order_amount tx rest p = Ok x ->
  match tx with
  | Buy => rest * BASE <= x * p < rest * BASE + p
  | Sell => x * BASE <= p * rest < x * BASE + BASE
  end.
Proof.
  pose proof BASE_pos. intros Hp. destruct tx; cbn; intros Hx.
  - apply bdiv_ceil_ok in Hx as (_ & _ & Hne & ->); [|done].
    pose proof (div_ceil_bracket (rest * BASE) p). lia.
  - apply bmul_floor_ok in Hx as (_ & _ & ->). pose proof (div_floor_bracket (p * rest) BASE). lia.
Qed.

(** ** A trade *)

(** What becomes of the rest of a trade after the venues: nothing is left, or
    a limit order for it is placed or softly refused. *)
Definition rest_settled (tx : TxType) (who : AccountId) (m : Z) (asset_in asset_out : Asset) (p : Z) (st : Strategy)
    (rest : Z) (placed : bool) (s s' : HrState) : Prop :=
  if rest =? 0 then placed = false /\ s' = s
  else st = LimitOrder /\ exists amt res b,
    match tx with Buy => rest * BASE <= amt * p < rest * BASE + p | Sell => amt * BASE <= p * rest < amt * BASE + BASE end /\
    api_place_order who m asset_in rest asset_out amt (book s) = (res, b) /\ s' = set_book b s /\
    match res with Ok _ => placed = true | Err (SoftFailure _) => placed = false | Err (HardFailure _) => False end.

(** C19. A trade that succeeds is a run of visits to the venues, each the call
    of the order book or of the market maker in the state the visit before left:
    fills of listed orders within the price limit and swaps up to the limit.
    What went into the fills and swaps that succeeded and the rest add up to
    [amount_in]; a venue that failed softly keeps its writes and its amount is
    offered again, so balances may have paid more.  With [ImmediateOrCancel]
    nothing is left; with [LimitOrder] an order of the trader for exactly the
    rest, at the limit price up to rounding, is placed or softly refused.
    Nothing else changes but for one event, which reports what those fills and
    swaps paid out and charged, and [amount_in], less the rest if that became
    no order. *)
Theorem trade_accounting tx who m n a x p os st s s' :
  0 <= p -> do_trade tx who m n a x p os st s = (Ok tt, s') ->
  exists mk ts rest (placed : bool) s1 s2,
    let '(asset_in, asset_out) := match tx with Buy => (base_asset mk, a) | Sell => (a, base_asset mk) end in
    market (commons (book s)) m = Ok mk /\ 0 < x /\ p <= BASE /\
    venue_run tx who m (base_asset mk) a p os x s ts rest s1 /\
    0 <= rest <= x /\ zsum trade_in ts + rest = x /\
    (st = ImmediateOrCancel -> rest = 0) /\
    rest_settled tx who m asset_in asset_out p st rest placed s1 s2 /\
    s' = set_hr_events (hr_events s ++
      [HybridRouterExecuted tx who m p asset_in (if placed then x else x - rest) asset_out
         (zsum (fun t => info_amount_out (trade_info who t)) ts)
         (zsum (fun t => info_external_fee_amount (trade_info who t)) ts)
         (zsum (fun t => info_swap_fee_amount (trade_info who t)) ts)]) s2 /\
    MarketNonces s' = MarketNonces s.
Proof.
  intros Hp. unfold do_trade. intros (u1 & s1 & [Hx%ensure_ok%Z.ltb_lt ->]%lift_ok & Hr)%bind_ok.
  apply bind_ok in Hr as (b & s1 & [[-> _]%base_get_ok ->]%lift_ok & Hr).
  apply bind_ok in Hr as (u2 & s1 & [Hpb%ensure_ok%Z.leb_le ->]%lift_ok & Hr).
  apply bind_ok in Hr as (u3 & s1 & [_ ->]%lift_ok & Hr).
  apply bind_ok in Hr as (s0 & s1 & [-> ->]%get_ok & Hr).
  apply bind_ok in Hr as (mk & s1 & [Hm ->]%lift_ok & Hr).
  apply bind_ok in Hr as (u4 & s1 & [_ ->]%lift_ok & Hr).
  destruct (match tx with Buy => (base_asset mk, a) | Sell => (a, base_asset mk) end) as [ain aout] eqn:Hio.
  apply bind_ok in Hr as (u5 & s1 & [_ ->]%lift_ok & Hr).
  apply bind_ok in Hr as (info & s1 & (ts & Hrun & Hf & Hw)%loop_ok & Hr). cbn in Hrun, Hf, Hw.
  apply bind_ok in Hr as ([rest t] & s2 & Hamm & Hr). destruct (swaps_option t) as [Hft Hst].
  assert (Hrun2 : venue_run tx who m (base_asset mk) a p os x s (ts ++ (TradeAmm <$> option_list t)) rest s2).
  { eapply venue_run_trans; [done|]. destruct (remaining info =? 0).
    - apply mret_ok in Hamm as [[= -> ->] ->]. apply venue_done.
    - eapply amm_fill_ok; [|done]. by left. }
  clear Hrun Hamm. set (ts' := ts ++ (TradeAmm <$> option_list t)) in *.
  assert (Hfs : order_trades info = fills_of ts' /\ amm_trades info ++ option_list t = swaps_of ts').
  { unfold ts'. rewrite fills_app, swaps_app, Hft, Hst, app_nil_r, Hf, Hw. done. }
  destruct Hfs as [Hf' Hw']. rewrite Hf', Hw' in Hr.
  destruct (venue_run_facts _ _ _ _ _ _ _ _ _ _ _ _ (Z.lt_le_incl _ _ Hx) Hrun2) as (Hrest & Hsum & _ & Hn & Hh).
  apply bind_ok in Hr as (placed & s3 & Hlim & Hr).
  apply bind_ok in Hr as (i & s4 & [->%event_info_ok ->]%lift_ok & [_ ->]%modify_ok).
  assert (Hl : (st = ImmediateOrCancel -> rest = 0) /\ rest_settled tx who m ain aout p st rest placed s2 s3 /\
    MarketNonces s3 = MarketNonces s2 /\ hr_events s3 = hr_events s2).
  { unfold rest_settled. destruct (Z.eqb_spec rest 0); [by apply mret_ok in Hlim as [-> ->]|].
    apply bind_ok in Hlim as (amt & s4 & [Hamt%limit_amount_ok ->]%lift_ok & Hlim); [|done].
    apply place_limit_ok in Hlim as (-> & res & bk & Hpl & -> & Hres). split_and!; try done. by exists amt, res, bk. }
  destruct Hl as (Hioc & Hset & Hn3 & Hh3).
  exists mk, ts', rest, placed, s2, s3. rewrite Hio. split_and!; try done; [lia|lia| |cbn; congruence].
  rewrite Hh3, Hh. unfold saturating_sub. by rewrite Z.max_l by lia.
Qed.

(** ** Relayed trades *)

(** A signature vouches for one payload, and payloads can be told apart. *)
Class SignatureLaws : Prop := {
  router_encode_inj : forall x y, router_encode x = router_encode y -> x = y;
  verify_binds : forall pf x y, router_verify_signature pf x = true ->
    router_verify_signature pf y = true -> x = y }.

(** The proof and the market of a relayed call. *)
Definition relayed (call : RouterCall) : option (Proof_ * Z) :=
  match call with
  | signed_buy_call pf m _ _ _ _ _ _ | signed_sell_call pf m _ _ _ _ _ _ => Some (pf, m)
  | _ => None
  end.

(** A trade touches no nonce. *)
Definition same_nonces (s s' : HrState) : Prop := MarketNonces s' = MarketNonces s.
#[local] Instance same_nonces_refl : Reflexive same_nonces.
Proof. by intros s. Qed.
#[local] Instance same_nonces_trans : Transitive same_nonces.
Proof. intros s1 s2 s3 Ha Hb. unfold same_nonces in *. congruence. Qed.

Lemma nonces_on_book {E A} (m : ST E ObState A) :
  keeps same_nonces (attempt (on_book m) : ST DispatchError HrState _).
Proof. intros s. unfold attempt, on_book. by destruct (m (book s)). Qed.
Lemma nonces_on_amm {E A} (m : ST E (AmmState * Assets) A) :
  keeps same_nonces (attempt (on_amm m) : ST DispatchError HrState _).
Proof. intros s. unfold attempt, on_amm. by destruct (m _) as [r [x l]]. Qed.
Lemma nonces_event f : keeps same_nonces (modify (fun s => set_hr_events (f s) s) : ST DispatchError HrState unit).
Proof. by intros s. Qed.
#[local] Hint Resolve nonces_on_book nonces_on_amm nonces_event : keeps.

Lemma nonces_amm tx w m a x p : keeps same_nonces (maybe_fill_from_amm tx w m a x p).
Proof. unfold maybe_fill_from_amm, handle_amm_trade. keeps_tac. Qed.
Lemma nonces_fill w i f : keeps same_nonces (handle_fill_order w i f).
Proof. unfold handle_fill_order. keeps_tac. Qed.
#[local] Hint Resolve nonces_amm nonces_fill : keeps.
Lemma nonces_loop tx os w m b a p : forall acc, keeps same_nonces (maybe_fill_orders_loop tx os w m b a p acc).
Proof. induction os as [|i os IH]; intros acc; cbn [maybe_fill_orders_loop]; keeps_tac. Qed.
#[local] Hint Resolve nonces_loop : keeps.
Lemma nonces_trade tx who m n a x p os st : keeps same_nonces (do_trade tx who m n a x p os st).
Proof. unfold do_trade, maybe_fill_orders, maybe_place_limit_order. keeps_tac. Qed.

(** The body the two relayed calls share. *)
Lemma relayed_run tx payload pf m n a x p os st origin s u s' :
  transactional (
    who ← lift (ensure_signed origin);
    lift (ensure (bool_decide (who = signer pf)) (hr_error RouterSenderIsNotSigner)) ;;
    nonce ← gets (fun s => market_nonces s (signer pf) m);
    lift (ensure (router_verify_signature pf (payload nonce)) (hr_error RouterUnauthorizedSignedTransaction)) ;;
    do_trade tx who m n a x p os st ;; increment_nonce who m) s = (Ok u, s') ->
  origin = Signed (signer pf) /\
  router_verify_signature pf (payload (market_nonces s (signer pf) m)) = true /\
  MarketNonces s' = <[(signer pf, m) := wrapping_add 64 (market_nonces s (signer pf) m) 1]> (MarketNonces s).
Proof.
  intros (w & s1 & [Hw ->]%lift_ok & Hr)%transactional_ok%bind_ok.
  apply bind_ok in Hr as (u1 & s1 & [->%ensure_ok%bool_decide_eq_true ->]%lift_ok & Hr).
  apply bind_ok in Hr as (k & s1 & [-> ->]%gets_ok & Hr).
  apply bind_ok in Hr as (u2 & s1 & [Hv%ensure_ok ->]%lift_ok & Hr).
  apply bind_ok in Hr as (u3 & s1 & Ht & [_ ->]%modify_ok).
  pose proof (keeps_ok _ _ _ _ _ (nonces_trade _ _ _ _ _ _ _ _ _) Ht) as Hn. unfold same_nonces in Hn.
  split; [by destruct origin; simplify_eq/=|]. split; [done|]. cbn. unfold market_nonces. by rewrite Hn.
Qed.

(** A relayed trade goes through only for its signer, with a signature the
    proxy check accepts in the same state, and moves the signer's nonce for
    that market and no other nonce; while the nonce differs from the one signed
    for, no call that carries the same proof for that market goes through or
    passes the proxy check. *)
Theorem relayed_trade_once `{!SignatureLaws} call pf m origin s s' :
  relayed call = Some (pf, m) -> dispatch_router origin call s = (Ok tt, s') ->
  origin = Signed (signer pf) /\ router_signature_is_valid s call = true /\
  MarketNonces s' = <[(signer pf, m) := wrapping_add 64 (market_nonces s (signer pf) m) 1]> (MarketNonces s) /\
  forall call2 origin2 s2, relayed call2 = Some (pf, m) ->
    market_nonces s2 (signer pf) m <> market_nonces s (signer pf) m ->
    is_ok (dispatch_router origin2 call2 s2).1 = false /\ router_signature_is_valid s2 call2 = false.
Proof.
  assert (Hrun : forall call origin s s', relayed call = Some (pf, m) ->
    dispatch_router origin call s = (Ok tt, s') -> origin = Signed (signer pf) /\
    router_signature_is_valid s call = true /\
    MarketNonces s' = <[(signer pf, m) := wrapping_add 64 (market_nonces s (signer pf) m) 1]> (MarketNonces s)).
  { clear. intros [] origin s s' [= -> ->] Hr; cbn in Hr; exact (relayed_run _ _ _ _ _ _ _ _ _ _ _ _ _ _ Hr). }
  assert (Hval : forall call s, relayed call = Some (pf, m) -> router_signature_is_valid s call = true ->
    exists st, st_nonce st = market_nonces s (signer pf) m /\ router_verify_signature pf (router_encode st) = true).
  { intros [] s0 [= -> ->] Hv; eexists; (split; [|exact Hv]); done. }
  intros Hc Hr. destruct (Hrun _ _ _ _ Hc Hr) as (Ho & Hv & Hn). split_and!; try done.
  intros call2 origin2 s2 Hc2 Hne.
  assert (Hno : router_signature_is_valid s2 call2 = false).
  { destruct (router_signature_is_valid s2 call2) eqn:Hv2; [|done].
    destruct (Hval _ _ Hc Hv) as (x & Hx & Hsx), (Hval _ _ Hc2 Hv2) as (y & Hy & Hsy).
    pose proof (router_encode_inj _ _ (verify_binds _ _ _ Hsx Hsy)). congruence. }
  split; [|done]. destruct (dispatch_router origin2 call2 s2) as [[[]|e] s3] eqn:Hr2; [|done].
  destruct (Hrun _ _ _ _ Hc2 Hr2) as (_ & Hv2 & _). congruence.
Qed.
End Router.
