(* ===== verification/RouterDemo.v ===== *)
(** * The order book and the router: runs

    A market with one maker and two traders over the reference ledger, the
    runtime's swap fee and a one-price pool; concrete instances of the theorems
    on the order book and on the router, a run in which a swallowed failure leaks
    from an order's reserve, and one in which a full fill leaves an order behind. *)

From S2P Require Import Prelude Errors FixedMath Collections Interfaces Market MultiCurrency Fees.
From S2P Require Import OrderBook OrderBookInv HybridRouter HybridRouterInv.

(** ** The environment *)

#[global] Instance demo_book : OrderBookConfig := {|
  Assets := RefAssets;
  AssetManager := ref_assets;
  ob_reserve_id := 3;
  distribute := swap_fee_distribute (Ok 99%N) (Ok 2) |}.

#[global] Instance demo_book_laws : OrderBookLaws.
Proof.
  split; [apply _|intros; apply swap_fee_reserved|..].
  - intros a x y v l e l'. cbn. case_match; intros [=]. subst e. by intros [].
  - intros r a x v l e l'. cbn. case_match; intros [=]. subst e. by intros [].
  - intros r a x y v l e l' Hr. discriminate Hr.
Qed.

(** A pool that sells and buys up to a depth at one price. *)
Record DemoPool := mkPool { pool_price : Z; pool_depth : Z }.

Definition demo_swap (who : AccountId) (market_id : Z) (asset_in asset_out : Asset) (amount_in amount_out : Z) :
    ST (ApiError AmmSoftFail) (gmap Z DemoPool * RefAssets) AmmTrade := fun '(pools, l) =>
  match pools !! market_id with
  | None => (Err (SoftFailure Numerical), (pools, l))
  | Some q =>
      match mc_transfer asset_in who 50%N amount_in l with
      | (Err e, l') => (Err (HardFailure e), (pools, l'))
      | (Ok _, l') =>
          (Ok (mkAmmTrade amount_in amount_out 0 0),
           (<[market_id := mkPool (pool_price q) (pool_depth q - amount_in)]> pools,
            exec (mc_deposit asset_out who amount_out) l'))
      end
  end.

#[global] Instance demo_amm : AmmApi := {|
  AmmState := gmap Z DemoPool;
  pool_exists m st := bool_decide (is_Some (st !! m));
  get_spot_price c m a st := pool_price <$> ok_or (st !! m) (Other "no pool");
  calculate_buy_amount_until c m a p st :=
    (fun q => Z.max 0 (pool_depth q)) <$> ok_or (st !! m) (Other "no pool");
  calculate_sell_amount_until c m a p st :=
    (fun q => Z.max 0 (pool_depth q)) <$> ok_or (st !! m) (Other "no pool");
  amm_buy c who m a x y := demo_swap who m Tru a x (2 * x);
  amm_sell c who m a x y := demo_swap who m a Tru x (x / 2) |}.

#[global] Instance demo_amm_laws : AmmLaws.
Proof.
  split; cbn.
  1,2: intros c w m a x y [ps l] tr st'; unfold demo_swap; case_match; [|done];
    destruct (mc_transfer _ _ _ _ _) as [[]]; [|done]; by intros [= <- _].
  all: intros c m a p st x; destruct (st !! m); cbn; [|done]; intros [= <-]; lia.
Qed.

(** Encodings are told apart by the numbers of their fields; a signature is the
    payload's. *)
Definition strategy_code (st : Strategy) : Z := match st with ImmediateOrCancel => 0 | LimitOrder => 1 end.
Definition tx_code (tx : TxType) : Z := match tx with Buy => 0 | Sell => 1 end.
Definition demo_encode (x : SignedTrade) : list Z :=
  [tx_code (st_context x); Z.of_N (st_relayer x); st_nonce x; st_market_id x; st_asset_count x;
   Z.pos (encode (st_asset x)); st_amount_in x; st_price x; strategy_code (st_strategy x)] ++ st_orders x.

#[global] Instance demo_router : HybridRouterConfig := {|
  MaxOrders := 100;
  router_encode := demo_encode;
  router_verify_signature pf x := signature pf =? Z.pos (encode x) |}.

#[global] Instance demo_signature_laws : SignatureLaws.
Proof.
  split.
  - intros [c r n m k a x p os st] [c' r' n' m' k' a' x' p' os' st'] [= Hc Hr -> -> -> Ha -> -> Hst ->]. cbn in *.
    assert (c = c') as -> by (by destruct c, c'). assert (st = st') as -> by (by destruct st, st').
    assert (r = r') as -> by lia. by assert (a = a') as -> by (by apply (inj encode)).
  - intros pf x y Hx Hy. cbn in *. apply (inj encode). lia.
Qed.

(** ** Runs *)

Definition token : Asset := CategoricalOutcome 0 1.
Definition trading_market : Market :=
  mkMarket 0 Tru 1%N Permissionless 0 2%N [] (CategoricalType 3) (BlockPeriod 1 10)
    (mkDeadlines 1 2 3) AmmCdaHybrid Active None None (Some Court) MarketBonds_default None.

Definition demo_ob : ObState :=
  mkOb 0 ∅ (mkAssets (list_to_map [((Tru, 20%N), 1000); ((Tru, 21%N), 1000); ((token, 10%N), 500)]) ∅)
    (mkCommons {[ 0 := trading_market ]} (Some 1) ∅) [].

(** The maker offers 200 tokens for 100 of the base asset. *)
Definition demo_ob1 : ObState := exec (place_order (Signed 10%N) 0 token 200 Tru 100) demo_ob.

Lemma demo_ob_start : ob_initial demo_ob.
Proof. split; [done|]. intros a w. cbn. done. Qed.

Lemma demo_ob1_run : ob_run no_leak demo_ob1.
Proof. eapply ob_next; [apply ob_start, demo_ob_start|apply step_place]. Qed.

Lemma demo_ob1_order : Orders demo_ob1 !! 0 = Some (mkOrder 0 10%N token 200 Tru 100).
Proof. vm_compute. reflexivity. Qed.

(** A fill of 97 by the router, which would leave 3 and fails softly. *)
Definition demo_leak : Leaks := fun a w =>
  no_leak a w + soft_leak 0 (Some 97) SoftPartialFillNearFullFillNotAllowed demo_ob1 a w.
Definition demo_leaked : ObState := exec (api_fill_order 20%N 0 (Some 97)) demo_ob1.
Lemma demo_leaked_run : ob_run demo_leak demo_leaked.
Proof.
  eapply ob_next; [apply demo_ob1_run|]. eapply (step_router_soft_fill _ _ 20%N).
  apply injective_projections; [vm_compute; reflexivity|done].
Qed.

(** Exact before the soft failure; after it the maker gets back what is left. *)
Lemma escrow_accounted_witness :
  mc_reserved ob_reserve_id token 10%N (assets demo_ob1) = 200 /\
  mc_reserved ob_reserve_id token 10%N (assets demo_leaked) < escrow (Orders demo_leaked) token 10%N /\
  exists s', remove_order (Signed 10%N) 0 demo_leaked = (Ok tt, s') /\ Orders s' = delete 0 (Orders demo_leaked) /\
    mc_free_balance token 10%N (assets demo_leaked) + 200 - 194 <= mc_free_balance token 10%N (assets s').
Proof.
  destruct (escrow_accounted _ _ demo_ob1_run) as (_ & He & _).
  destruct (escrow_accounted _ _ demo_leaked_run) as (_ & _ & _ & Hrm). split_and!.
  - rewrite He by done. vm_compute. reflexivity.
  - vm_compute. reflexivity.
  - assert (Ho : Orders demo_leaked !! 0 = Some (mkOrder 0 10%N token 200 Tru 100)) by (vm_compute; reflexivity).
    destruct (Hrm 0 _ Ho) as (s' & Hr & HO & Hlo & _). exists s'. split; [exact Hr|]. split; [exact HO|exact Hlo].
Defined.

Definition demo_ob2 : ObState := exec (fill_order (Signed 20%N) 0 (Some 40)) demo_ob1.
Lemma demo_fill : fill_order (Signed 20%N) 0 (Some 40) demo_ob1 = (Ok tt, demo_ob2).
Proof. apply exec_ok. vm_compute. reflexivity. Qed.

Lemma fill_correct_witness :
  exists tr o f t, filled 0 20%N (Some 40) demo_ob1 tr demo_ob2 o f t /\ t = 80.
Proof.
  destruct (fill_correct _ _ _ _ _ _ demo_ob1_run demo_fill)
    as (tk & o & f & t & tr & Hs & Hf & _ & Hex & _).
  assert (tk = 20%N) as -> by congruence. exists tr, o, f, t. split; [done|].
  pose proof (filled_order _ _ _ _ _ _ _ _ _ Hf) as Ho. rewrite demo_ob1_order in Ho. injection Ho as <-.
  pose proof (filled_amount _ _ _ _ _ _ _ _ _ Hf) as ->. rewrite Hex; [done|]. vm_compute. discriminate.
Defined.

Definition demo_hr : HrState := mkHr demo_ob1 {[ 0 := mkPool (BASE / 2) 30 ]} ∅ [].

(** 100 to the order book, 30 to the pool and 40 into a limit order. *)
Definition demo_hr1 : HrState :=
  exec (do_trade Buy 20%N 0 3 token 170 (6 * BASE / 10) [0] LimitOrder) demo_hr.
Lemma demo_trade : do_trade Buy 20%N 0 3 token 170 (6 * BASE / 10) [0] LimitOrder demo_hr = (Ok tt, demo_hr1).
Proof. unfold demo_hr1. apply exec_ok. vm_compute. reflexivity. Qed.

Lemma trade_accounting_witness :
  exists ts rest placed s1 s2, venue_run Buy 20%N 0 Tru token (6 * BASE / 10) [0] 170 demo_hr ts rest s1 /\
    zsum trade_in ts + rest = 170 /\
    rest_settled Buy 20%N 0 Tru token (6 * BASE / 10) LimitOrder rest placed s1 s2.
Proof.
  assert (Hp : 0 <= 6 * BASE / 10) by (vm_compute; discriminate).
  destruct (trade_accounting _ _ _ _ _ _ _ _ _ _ _ Hp demo_trade)
    as (mk & ts & rest & placed & s1 & s2 & Hm & _ & _ & Hrun & _ & Hsum & _ & Hset & _).
  assert (Hmk : market (commons (book demo_hr)) 0 = Ok trading_market) by (vm_compute; reflexivity).
  rewrite Hmk in Hm. injection Hm as <-. exists ts, rest, placed, s1, s2. split; [exact Hrun|]. split; [exact Hsum|exact Hset].
Defined.

(** ** A relayed trade *)

Definition relayed_call (pf : Proof_) : RouterCall := signed_buy_call pf 0 3 token 20 (6 * BASE / 10) [0] ImmediateOrCancel.
Definition demo_proof : Proof_ :=
  mkProof 20%N 7%N (Z.pos (encode (demo_encode (mkSignedTrade Buy 7%N 0 0 3 token 20 (6 * BASE / 10) [0] ImmediateOrCancel)))).
Definition demo_hr2 : HrState := exec (dispatch_router (Signed 20%N) (relayed_call demo_proof)) demo_hr.
Lemma demo_relayed : dispatch_router (Signed 20%N) (relayed_call demo_proof) demo_hr = (Ok tt, demo_hr2).
Proof. unfold demo_hr2. apply exec_ok. vm_compute. reflexivity. Qed.

Lemma relayed_trade_once_witness :
  router_signature_is_valid demo_hr (relayed_call demo_proof) = true /\
  is_ok (dispatch_router (Signed 20%N) (relayed_call demo_proof) demo_hr2).1 = false.
Proof.
  destruct (relayed_trade_once (relayed_call demo_proof) demo_proof 0 _ _ _ eq_refl demo_relayed) as (_ & Hv & _ & Hno).
  split; [exact Hv|]. refine (proj1 (Hno (relayed_call demo_proof) (Signed 20%N) demo_hr2 eq_refl _)).
  assert (Hk : (market_nonces demo_hr2 (signer demo_proof) 0 =? market_nonces demo_hr (signer demo_proof) 0) = false)
    by (vm_compute; reflexivity).
  intros Heq. rewrite Heq, Z.eqb_refl in Hk. discriminate Hk.
Defined.

(** ** A swallowed failure *)

(** [fill_order] moves the funds before it rejects a fill that would leave
    less than the minimum balance, and the router takes that rejection for "no
    trade" and goes on.  From a reachable book, with one open order of 200
    tokens for 100 of the base asset, a [buy] of 97 succeeds: the buyer pays 97
    for 194 tokens and has another 97 reserved in a limit order, while the event
    reports 97 in and nothing out, and the order still offers 200 with 6 in
    reserve.  Whoever fills it next pays the full 100 and gets the 6. *)
Theorem swallowed_near_full_fill :
  let s := mkHr demo_ob1 ∅ ∅ [] in
  ob_run no_leak (book s) /\
  exists s1 s2, buy (Signed 20%N) 0 3 token 97 (6 * BASE / 10) [0] LimitOrder s = (Ok tt, s1) /\
    hr_events s1 = [HybridRouterExecuted Buy 20%N 0 (6 * BASE / 10) Tru 97 token 0 0 0] /\
    mc_free_balance Tru 20%N (assets (book s)) - mc_free_balance Tru 20%N (assets (book s1)) = 97 + 97 /\
    mc_free_balance token 20%N (assets (book s1)) - mc_free_balance token 20%N (assets (book s)) = 194 /\
    Orders (book s1) !! 0 = Orders (book s) !! 0 /\
    escrow (Orders (book s1)) token 10%N = 200 /\
    mc_reserved ob_reserve_id token 10%N (assets (book s1)) = 6 /\
    fill_order (Signed 21%N) 0 None (book s1) = (Ok tt, s2) /\
    mc_free_balance Tru 21%N (assets (book s1)) - mc_free_balance Tru 21%N (assets s2) = 100 /\
    mc_free_balance token 21%N (assets s2) - mc_free_balance token 21%N (assets (book s1)) = 6.
Proof.
  split; [exact demo_ob1_run|].
  eexists (exec (buy (Signed 20%N) 0 3 token 97 (6 * BASE / 10) [0] LimitOrder) (mkHr demo_ob1 ∅ ∅ [])).
  eexists (exec (fill_order (Signed 21%N) 0 None)
    (book (exec (buy (Signed 20%N) 0 3 token 97 (6 * BASE / 10) [0] LimitOrder) (mkHr demo_ob1 ∅ ∅ [])))).
  split; [apply exec_ok; vm_compute; reflexivity|].
  do 6 (split; [vm_compute; reflexivity|]).
  split; [apply exec_ok; vm_compute; reflexivity|]. split; vm_compute; reflexivity.
Qed.

(** ** A full fill that leaves an order behind

    300000 tokens for 70000 of the base asset (in units of [BASE]): the scaled
    product of a full fill does not fit a [u128] and the fall-back of
    [bmul_bdiv_floor] rounds down. *)
Definition big_ob : ObState :=
  mkOb 0 ∅ (mkAssets (list_to_map [((Tru, 20%N), 10 ^ 6 * BASE); ((token, 10%N), 10 ^ 6 * BASE)]) ∅)
    (mkCommons {[ 0 := trading_market ]} (Some 1) ∅) [].
Definition big_ob1 : ObState :=
  exec (place_order (Signed 10%N) 0 token (300000 * BASE) Tru (70000 * BASE)) big_ob.

Lemma fill_zero_order i o mp origin s :
  Orders s !! i = Some o -> taker_amount o = 0 -> 0 < minimum_balance (taker_asset o) ->
  is_ok (fill_order origin i mp s).1 = false.
Proof.
  intros Ho Ht Hmin. destruct (fill_order origin i mp s) as [[[]|e] s'] eqn:Hr; [|done].
  apply transactional_ok, bind_ok in Hr as (w & s1 & [_ ->]%lift_ok & Hr).
  apply bind_ok in Hr as (tr & s1 & (o' & f & t & Hf)%do_fill_ok & _).
  pose proof (filled_order _ _ _ _ _ _ _ _ _ Hf). pose proof (filled_range _ _ _ _ _ _ _ _ _ Hf).
  simplify_eq. lia.
Qed.

(** The taker who fills all of a large order pays the whole taker amount
    and gets less than the whole maker amount; the order stays in the book
    asking for nothing, and no fill of it succeeds any more. *)
Theorem full_fill_leftover :
  ob_initial big_ob /\ exists s o, fill_order (Signed 20%N) 0 None big_ob1 = (Ok tt, s) /\
    mc_free_balance Tru 20%N (assets big_ob1) - mc_free_balance Tru 20%N (assets s) = 70000 * BASE /\
    Orders s !! 0 = Some o /\ 0 < maker_amount o /\ taker_amount o = 0 /\
    forall mp origin, is_ok (fill_order origin 0 mp s).1 = false.
Proof.
  split; [done|]. set (s := exec (fill_order (Signed 20%N) 0 None) big_ob1).
  assert (Ho : exists o, Orders s !! 0 = Some o /\ 0 < maker_amount o /\ taker_amount o = 0 /\ taker_asset o = Tru)
    by (vm_compute; eauto).
  destruct Ho as (o & Ho & Hm & Ht & Ha). exists s, o.
  split; [apply exec_ok; vm_compute; reflexivity|]. split; [vm_compute; reflexivity|].
  split; [exact Ho|]. split; [exact Hm|]. split; [exact Ht|].
  intros mp origin. apply (fill_zero_order _ _ _ _ _ Ho Ht). rewrite Ha. reflexivity.
Qed.
