(* ===== verification/CompleteSets.v ===== *)
(** * Complete sets

    [do_buy_complete_set] and [do_sell_complete_set] of
    [pallets/prediction-markets/src/lib.rs]: one unit of the base asset against
    one of every outcome token, kept in the market's account. *)

From S2P Require Import Prelude Errors Collections Market MultiCurrency.

(** [PalletId::into_sub_account_truncating] of a market. *)
Class MarketAccounts := market_account : Z -> AccountId.

Section CompleteSets.
Context {L : Type} `{MultiCurrency L} `{MarketAccounts}.

Inductive SetEvent :=
| BoughtCompleteSet (market_id amount : Z) (who : AccountId)
| SoldCompleteSet (market_id amount : Z) (who : AccountId).

Record CsState := mkCs {
  cs_assets : L;
  cs_commons : MarketCommons;
  cs_events : list SetEvent }.

Definition set_cs_assets x s := mkCs x (cs_commons s) (cs_events s).
Definition set_cs_commons x s := mkCs (cs_assets s) x (cs_events s).
Definition set_cs_events x s := mkCs (cs_assets s) (cs_commons s) x.

Abbreviation CsM := (ST DispatchError CsState).

Definition pm_error (e : PredictionMarketsError) : DispatchError := Module_ (PredictionMarketsErr e).
Definition deposit_set_event (e : SetEvent) : CsM unit :=
  modify (fun s => set_cs_events (cs_events s ++ [e]) s).
Definition on_set_assets {A} (m : ST DispatchError L A) : CsM A := fun s =>
  let '(r, l) := m (cs_assets s) in (r, set_cs_assets l s).

Definition ensure_market_is_active (m : Market) : Res unit :=
  ensure (bool_decide (status m = Active)) (pm_error PmMarketIsNotActive).

Definition do_buy_complete_set (who : AccountId) (market_id amount : Z) : CsM unit :=
  lift (ensure (negb (amount =? 0)) (pm_error PmZeroAmount)) ;;
  s ← get;
  m ← lift (market (cs_commons s) market_id);
  lift (ensure (amount <=? mc_free_balance (base_asset m) who (cs_assets s)) (pm_error NotEnoughBalance)) ;;
  lift (ensure (is_redeemable m) (pm_error PmInvalidScoringRule)) ;;
  lift (ensure_market_is_active m) ;;
  on_set_assets (mc_transfer (base_asset m) who (market_account market_id) amount) ;;
  for_each (outcome_assets m) (fun asset => on_set_assets (mc_deposit asset who amount)) ;;
  deposit_set_event (BoughtCompleteSet market_id amount who).

(** The slash of one outcome; what is missing is ignored. *)
Definition slash_outcome (who : AccountId) (amount : Z) (asset : Asset) : CsM unit :=
  modify (fun s => set_cs_assets (snd (mc_slash asset who amount (cs_assets s))) s).

Definition do_sell_complete_set (who : AccountId) (market_id amount : Z) : CsM unit :=
  lift (ensure (negb (amount =? 0)) (pm_error PmZeroAmount)) ;;
  s ← get;
  m ← lift (market (cs_commons s) market_id);
  lift (ensure (is_redeemable m) (pm_error PmInvalidScoringRule)) ;;
  let market_account := market_account market_id in
  lift (ensure (amount <=? mc_free_balance (base_asset m) market_account (cs_assets s))
          (Other "Market account does not have sufficient reserves.")) ;;
  let assets := outcome_assets m in
  for_each assets (fun asset =>
    lift (ensure (amount <=? mc_free_balance asset who (cs_assets s)) (pm_error InsufficientShareBalance))) ;;
  for_each assets (slash_outcome who amount) ;;
  on_set_assets (mc_transfer (base_asset m) market_account who amount) ;;
  deposit_set_event (SoldCompleteSet market_id amount who).

(** ** The calls *)

Definition buy_complete_set (origin : Origin) (market_id amount : Z) : CsM unit :=
  transactional (
    sender ← lift (ensure_signed origin);
    do_buy_complete_set sender market_id amount ;;
    s ← get;
    market ← lift (market (cs_commons s) market_id);
    mret tt).

Definition sell_complete_set (origin : Origin) (market_id amount : Z) : CsM unit :=
  transactional (
    sender ← lift (ensure_signed origin);
    do_sell_complete_set sender market_id amount ;;
    s ← get;
    market ← lift (market (cs_commons s) market_id);
    mret tt).
End CompleteSets.
Arguments CsState L : clear implicits.

(** ** What they do to the balances

    Lower bounds on balances: other accounts may only gain (dust of the payers
    may be handed to one of them). *)
Section Facts.
Context {L : Type} `{MultiCurrency L} `{MarketAccounts} `{!MultiCurrencyLaws L}.
Implicit Types s : CsState L.
Implicit Types l : L.

Lemma on_set_assets_ok {A} (m : ST DispatchError L A) s a s' :
  on_set_assets m s = (Ok a, s') -> exists l, m (cs_assets s) = (Ok a, l) /\ s' = set_cs_assets l s.
Proof. unfold on_set_assets. destruct (m (cs_assets s)) as [r l]. intros [= -> <-]. by exists l. Qed.

Lemma deposit_loop who v assets : forall s u s', 0 <= v -> NoDup assets ->
  for_each assets (fun a => on_set_assets (mc_deposit a who v)) s = (Ok u, s') ->
  cs_commons s' = cs_commons s /\
  (forall b w, mc_free_balance b w (cs_assets s) <= mc_free_balance b w (cs_assets s')) /\
  forall b, b ∈ assets -> mc_free_balance b who (cs_assets s) + v <= mc_free_balance b who (cs_assets s').
Proof.
  induction assets as [|a assets IH]; cbn; intros s u s' Hv Hnd.
  { intros [_ ->]%mret_ok. split_and!; [done|lia|by intros b ?%elem_of_nil]. }
  apply NoDup_cons in Hnd as [Hna Hnd].
  intros (u1 & s1 & (l & Hd & ->)%on_set_assets_ok & Hr)%bind_ok.
  destruct (IH _ _ _ Hv Hnd Hr) as (Hc & Hall & Hin). cbn in *. split; [done|]. split.
  - intros b w. pose proof (deposit_others _ _ _ _ _ _ b w Hv Hd). specialize (Hall b w). lia.
  - intros b [->|Hb]%elem_of_cons.
    + pose proof (deposit_credit _ _ _ _ _ _ Hv Hd). specialize (Hall a who). lia.
    + specialize (Hin b Hb). pose proof (deposit_others _ _ _ _ _ _ b who Hv Hd). lia.
Qed.

Lemma slash_loop who v assets : forall s u s', 0 <= v -> NoDup assets ->
  (forall b, b ∈ assets -> v <= mc_free_balance b who (cs_assets s)) ->
  for_each assets (slash_outcome who v) s = (Ok u, s') ->
  cs_commons s' = cs_commons s /\
  (forall b w, w <> who \/ b ∉ assets -> mc_free_balance b w (cs_assets s) <= mc_free_balance b w (cs_assets s')) /\
  (forall b w, b ∉ assets -> mc_free_balance b w (cs_assets s') = mc_free_balance b w (cs_assets s)) /\
  forall b, b ∈ assets -> mc_free_balance b who (cs_assets s) - v - dust b <= mc_free_balance b who (cs_assets s')
    <= mc_free_balance b who (cs_assets s) - v.
Proof.
  induction assets as [|a assets IH]; cbn; intros s u s' Hv Hnd Hm.
  { intros [_ ->]%mret_ok. split_and!; [done|lia|done|by intros b ?%elem_of_nil]. }
  apply NoDup_cons in Hnd as [Hna Hnd].
  intros (u1 & s1 & [_ ->]%modify_ok & Hr)%bind_ok.
  destruct (mc_slash a who v (cs_assets s)) as [missing l] eqn:Hsl. cbn in Hr.
  assert (Hoth : forall b w, (b, w) <> (a, who) -> mc_free_balance b w (cs_assets s) <= mc_free_balance b w l).
  { intros b w Hne. by apply (slash_others _ _ _ _ _ _ b w Hv Hsl). }
  apply IH in Hr as (Hc & Hall & Hsame & Hin); [|done|done|].
  2:{ intros b Hb. specialize (Hm b ltac:(by right)). cbn. pose proof (Hoth b who ltac:(congruence)). lia. }
  cbn in *. split; [done|]. split_and!.
  - intros b w Hb. rewrite not_elem_of_cons in Hb. specialize (Hoth b w ltac:(destruct Hb as [?|[? ?]]; congruence)).
    specialize (Hall b w ltac:(tauto)). lia.
  - intros b w [Hb ?]%not_elem_of_cons. rewrite (Hsame b w) by done. by eapply slash_assets.
  - intros b [->|Hb]%elem_of_cons.
    + pose proof (slash_sweep _ _ _ _ _ _ (conj Hv (Hm a ltac:(by left))) Hsl). rewrite (Hsame a who) by done. lia.
    + specialize (Hin b Hb). rewrite (slash_assets _ _ _ _ _ _ b who Hsl) in Hin by congruence. lia.
Qed.

Lemma buy_set_ok who m v s u s' :
  0 <= v -> do_buy_complete_set who m v s = (Ok u, s') ->
  exists mk, market (cs_commons s) m = Ok mk /\ status mk = Active /\ cs_commons s' = cs_commons s /\
    v <= mc_free_balance (base_asset mk) who (cs_assets s) /\
    (forall b w, (b, w) <> (base_asset mk, who) -> mc_free_balance b w (cs_assets s) <= mc_free_balance b w (cs_assets s')) /\
    (no_dust (base_asset mk) who v (cs_assets s) ->
       mc_free_balance (base_asset mk) who (cs_assets s) - v <= mc_free_balance (base_asset mk) who (cs_assets s')) /\
    (base_asset mk ∉ outcome_assets mk -> forall b, b ∈ outcome_assets mk ->
       mc_free_balance b who (cs_assets s) + v <= mc_free_balance b who (cs_assets s')).
Proof.
  intros Hv. unfold do_buy_complete_set. intros (u1 & s1 & [_ ->]%lift_ok & Hr)%bind_ok.
  apply bind_ok in Hr as (s0 & s1 & [-> ->]%get_ok & Hr).
  apply bind_ok in Hr as (mk & s1 & [Hm ->]%lift_ok & Hr).
  apply bind_ok in Hr as (u2 & s1 & [Hle%ensure_ok%Z.leb_le ->]%lift_ok & Hr).
  apply bind_ok in Hr as (u3 & s1 & [_ ->]%lift_ok & Hr).
  apply bind_ok in Hr as (u4 & s1 & [Hact%ensure_ok%bool_decide_eq_true ->]%lift_ok & Hr).
  apply bind_ok in Hr as (u5 & s1 & (l & Ht & ->)%on_set_assets_ok & Hr).
  apply bind_ok in Hr as (u6 & s1 & Hd & [_ ->]%modify_ok).
  apply deposit_loop in Hd as (Hc & Hall & Hin); [|done|apply outcome_assets_nodup].
  cbn in *. exists mk. split_and!; try done.
  - intros b w Hne. pose proof (transfer_others _ _ _ _ _ _ _ b w Hv Ht Hne). specialize (Hall b w). lia.
  - intros Hnd. pose proof (transfer_lower _ _ _ _ _ _ _ Hv Ht Hnd). specialize (Hall (base_asset mk) who). lia.
  - intros Hb b Hin'. specialize (Hin b Hin').
    pose proof (transfer_others _ _ _ _ _ _ _ b who Hv Ht ltac:(congruence)). lia.
Qed.

Lemma sell_set_ok who m v s u s' :
  0 <= v -> who <> market_account m ->
  do_sell_complete_set who m v s = (Ok u, s') ->
  exists mk, market (cs_commons s) m = Ok mk /\ cs_commons s' = cs_commons s /\
    (forall b w, w <> who -> w <> market_account m -> mc_free_balance b w (cs_assets s) <= mc_free_balance b w (cs_assets s')) /\
    (forall b, b ∉ outcome_assets mk -> mc_free_balance b who (cs_assets s) <= mc_free_balance b who (cs_assets s')) /\
    (base_asset mk ∉ outcome_assets mk ->
       mc_free_balance (base_asset mk) who (cs_assets s) + v <= mc_free_balance (base_asset mk) who (cs_assets s')) /\
    (forall b, b ∈ outcome_assets mk ->
       mc_free_balance b who (cs_assets s) - v - dust b <= mc_free_balance b who (cs_assets s')) /\
    (base_asset mk ∉ outcome_assets mk -> 0 < v /\ forall b, b ∈ outcome_assets mk ->
       mc_free_balance b who (cs_assets s') <= mc_free_balance b who (cs_assets s) - v).
Proof.
  intros Hv Hne. unfold do_sell_complete_set. intros (u1 & s1 & [Hnz%ensure_ok ->]%lift_ok & Hr)%bind_ok.
  apply bind_ok in Hr as (s0 & s1 & [-> ->]%get_ok & Hr).
  apply bind_ok in Hr as (mk & s1 & [Hm ->]%lift_ok & Hr).
  apply bind_ok in Hr as (u2 & s1 & [_ ->]%lift_ok & Hr).
  apply bind_ok in Hr as (u3 & s1 & [_ ->]%lift_ok & Hr).
  apply bind_ok in Hr as (u4 & s1 & Hchk & Hr).
  assert (Hs1 : s1 = s /\ forall b, b ∈ outcome_assets mk -> v <= mc_free_balance b who (cs_assets s)).
  { clear Hr Hm. revert u4 s1 Hchk. generalize (mc_free_balance (L := L)). intros bal.
    induction (outcome_assets mk) as [|a assets IH]; cbn; intros u4 s1.
    - intros [_ ->]%mret_ok. split; [done|]. by intros b ?%elem_of_nil.
    - intros (u5 & s2 & [Ha%ensure_ok%Z.leb_le ->]%lift_ok & Hr)%bind_ok. apply IH in Hr as [-> Hr]. split; [done|].
      intros b [->|Hb]%elem_of_cons; auto. }
  destruct Hs1 as [-> Hhave].
  apply bind_ok in Hr as (u5 & s1 & Hsl & Hr).
  apply slash_loop in Hsl as (Hc & Hall & Hsame & Hin); [|done|apply outcome_assets_nodup|eauto].
  apply bind_ok in Hr as (u6 & s2 & (l & Ht & ->)%on_set_assets_ok & [_ ->]%modify_ok).
  cbn in *. exists mk. split_and!; try done.
  - intros b w Hw Hw'. pose proof (transfer_others _ _ _ _ _ _ _ b w Hv Ht ltac:(congruence)).
    specialize (Hall b w ltac:(by left)). lia.
  - intros b Hb. pose proof (transfer_others _ _ _ _ _ _ _ b who Hv Ht ltac:(congruence)).
    specialize (Hall b who ltac:(by right)). lia.
  - intros Hb. destruct (transfer_credit _ _ _ _ _ _ _ Hv Ht ltac:(done)) as [_ ->].
    specialize (Hall (base_asset mk) who ltac:(by right)). lia.
  - intros b Hb. specialize (Hin b Hb). pose proof (transfer_others _ _ _ _ _ _ _ b who Hv Ht ltac:(congruence)). lia.
  - intros Hb. apply negb_true_iff, Z.eqb_neq in Hnz. split; [lia|]. intros b Hb'. specialize (Hin b Hb').
    rewrite (transfer_assets _ _ _ _ _ _ _ b who Ht) by congruence. lia.
Qed.
End Facts.
