(* ===== verification/NeoMath.v ===== *)
(** * The arithmetic of the market maker

    [pallets/neo-swaps/src/math.rs] and the decimal conversions of
    [primitives/prediction-market/src/math/fixed.rs].  The binary fixed-point
    numbers of the [fixed] crate and the [exp] and [ln] of hydra-dx-math are
    parameters. *)

From Stdlib Require Import Ascii.
From stdpp Require Import pretty.
From S2P Require Import Prelude Errors FixedMath.

(** ** Fixed-point numbers *)

(** [FixedU128<U80>] and the transcendental functions on it; the flag of [exp]
    negates its argument, the flag of [ln] is the sign of its result. *)
Class FixedNum := {
  Fx : Type;
  fx_from_str : string -> option Fx;
  fx_to_string : Fx -> string;
  fx_add : Fx -> Fx -> option Fx;
  fx_sub : Fx -> Fx -> option Fx;
  fx_mul : Fx -> Fx -> option Fx;
  fx_div : Fx -> Fx -> option Fx;
  fx_ltb : Fx -> Fx -> bool;
  fx_is_zero : Fx -> bool;
  fx_from_num : Z -> option Fx;
  fx_from_bits : Z -> Fx;
  fx_zero : Fx;
  fx_one : Fx;
  fx_exp : Fx -> bool -> option Fx;
  fx_ln : Fx -> option (Fx * bool) }.

(** ** Decimal strings *)

Fixpoint repeat_str (s : string) (n : nat) : string :=
  match n with O => "" | S n => s +:+ repeat_str s n end.

(** [u128::to_string]. *)
Definition u128_to_string (x : Z) : string := pretty (Z.to_N x).

(** [char::to_digit] in base 10. *)
Definition to_digit (c : Ascii.ascii) : option Z :=
  let n := Z.of_N (Ascii.N_of_ascii c) in
  if (48 <=? n) && (n <=? 57) then Some (n - 48) else None.

(** [str::parse::<u128>]: digits after an optional plus sign. *)
Fixpoint parse_digits (acc : Z) (s : string) : option Z :=
  match s with
  | EmptyString => Some acc
  | String c s =>
      d ← to_digit c;
      let acc := 10 * acc + d in
      if acc <=? umax 128 then parse_digits acc s else None
  end.
Definition parse_u128 (s : string) : option Z :=
  let digits := match s with String "+"%char s => s | _ => s end in
  match digits with EmptyString => None | _ => parse_digits 0 digits end.

(** [str::split('.')]. *)
Fixpoint split_dot (s : string) : list string :=
  match s with
  | EmptyString => [""]
  | String "."%char s => "" :: split_dot s
  | String c s =>
      match split_dot s with
      | [] => [String c ""]
      | p :: ps => String c p :: ps
      end
  end.

Definition str_take (n : nat) (s : string) : string := String.substring 0 n s.

Section NeoMath.
Context `{FixedNum}.

(** [FromFixedDecimal::from_fixed_decimal]; [to_fixed_from_fixed_decimal] is
    the same the other way round. *)
Definition from_fixed_decimal (decimal : Z) (places : nat) : option Fx :=
  let decimal_string := u128_to_string decimal in
  let len := String.length decimal_string in
  let decimal_string :=
    if (len <=? places)%nat then
      "0." +:+ repeat_str "0" (places - len) +:+ decimal_string
    else
      str_take (len - places) decimal_string +:+ "." +:+
        String.substring (len - places) places decimal_string in
  fx_from_str decimal_string.

(** [FromFixedToDecimal::from_fixed_to_fixed_decimal]; [to_fixed_decimal] is
    the same the other way round. *)
Definition from_fixed_to_fixed_decimal (fixed : Fx) (decimals : nat) : option Z :=
  match split_dot (fx_to_string fixed) with
  | [] => None
  | int_part :: parts =>
      let '(frac_part, parts) := match parts with [] => ("0", []) | p :: ps => (p, ps) end in
      match parts with
      | _ :: _ => None
      | [] =>
          '(increment_int_part, new_frac_part) ←
            match Nat.compare (String.length frac_part) decimals with
            | Lt => Some (false, frac_part +:+ repeat_str "0" (decimals - String.length frac_part))
            | Gt =>
                c ← String.get decimals frac_part;
                round_digit ← to_digit c;
                Some (5 <=? round_digit, str_take decimals frac_part)
            | Eq => Some (false, frac_part)
            end;
          fixed_decimal ← parse_u128 (int_part +:+ new_frac_part);
          Some (if increment_int_part : bool then saturating_add 128 fixed_decimal 1 else fixed_decimal)
      end
  end.

Definition to_fixed (value : Z) : option Fx := from_fixed_decimal value (Z.to_nat DECIMALS).
Definition from_fixed (value : Fx) : option Z := from_fixed_to_fixed_decimal value (Z.to_nat DECIMALS).

(** ** [mod detail] *)

Definition EXP_OVERFLOW_THRESHOLD : Fx := fx_from_bits 0x2072ECECDA6EBEEACC40C7.

(** e^(x/b) - 1 + e^(-r/b) *)
Definition calculate_buy_ln_argument_fixed (reserve amount_in liquidity : Fx) : option Fx :=
  x_over_b ← fx_div amount_in liquidity;
  exp_x_over_b ← fx_exp x_over_b false;
  r_over_b ← fx_div reserve liquidity;
  exp_neg_r_over_b ←
    (if fx_ltb r_over_b EXP_OVERFLOW_THRESHOLD
     then r ← fx_div reserve liquidity; fx_exp r true
     else fx_from_num 0);
  sum ← fx_add exp_x_over_b exp_neg_r_over_b;
  one ← fx_from_num 1;
  fx_sub sum one.

(** b * ln(e^(x/b) - 1 + e^(-r/b)) + r - x *)
Definition calculate_swap_amount_out_for_buy_fixed (reserve amount_in liquidity : Fx) : option Fx :=
  inside_ln ← calculate_buy_ln_argument_fixed reserve amount_in liquidity;
  '(ln_result, ln_neg) ← fx_ln inside_ln;
  blob ← fx_mul liquidity ln_result;
  reserve_plus_blob ← (if ln_neg : bool then fx_sub reserve blob else fx_add reserve blob);
  fx_sub reserve_plus_blob amount_in.

(** - b * ln(e^(-x/b) - 1 + e^(r/b)) + r *)
Definition calculate_swap_amount_out_for_sell_fixed (reserve amount_in liquidity : Fx) : option Fx :=
  if fx_is_zero reserve then None
  else
    x_over_b ← fx_div amount_in liquidity;
    exp_neg_x_over_b ← fx_exp x_over_b true;
    r_over_b ← fx_div reserve liquidity;
    exp_r_over_b ← fx_exp r_over_b false;
    sum ← fx_add exp_neg_x_over_b exp_r_over_b;
    one ← fx_from_num 1;
    inside_ln ← fx_sub sum one;
    '(ln_result, ln_neg) ← fx_ln inside_ln;
    blob ← fx_mul liquidity ln_result;
    if ln_neg : bool then fx_add reserve blob else fx_sub reserve blob.

Definition calculate_spot_price_fixed (reserve liquidity : Fx) : option Fx :=
  r_over_b ← fx_div reserve liquidity;
  fx_exp r_over_b true.

(** [Iterator::max]. *)
Definition fx_max_list (xs : list Fx) : option Fx :=
  match xs with
  | [] => None
  | x :: xs => Some (foldl (fun m y => if fx_ltb y m then m else y) x xs)
  end.

Definition calculate_reserve_from_spot_prices_fixed (amount : Fx) (spot_prices : list Fx) :
    option (Fx * list Fx) :=
  if fx_is_zero amount then None
  else
    tmp_reserves ← mapM (fun price => fst <$> fx_ln price) spot_prices;
    max_value ← fx_max_list tmp_reserves;
    liquidity ← fx_div amount max_value;
    reserves ← mapM (fun r => fx_mul r liquidity) tmp_reserves;
    Some (liquidity, reserves).

(** - b * ln((1 - q) / (1 - p)), or zero when that is negative *)
Definition calculate_buy_amount_until_fixed (until liquidity spot_price : Fx) : option Fx :=
  numerator ← fx_sub fx_one until;
  denominator ← fx_sub fx_one spot_price;
  ln_arg ← fx_div numerator denominator;
  '(ln_result, ln_neg) ← fx_ln ln_arg;
  if negb ln_neg then Some fx_zero else fx_mul liquidity ln_result.

Definition calculate_sell_amount_until_fixed (until liquidity spot_price : Fx) : option Fx :=
  inverse ← fx_div fx_one spot_price;
  first_denominator ← fx_sub inverse fx_one;
  inverse' ← fx_div fx_one spot_price;
  odds ← fx_sub inverse' fx_one;
  second_denominator ← fx_mul until odds;
  first_term ← fx_div fx_one first_denominator;
  second_term ← fx_div fx_one second_denominator;
  ln_arg ← fx_sub second_term first_term;
  '(ln_result, ln_neg) ← fx_ln ln_arg;
  if ln_neg : bool then Some fx_zero else fx_mul liquidity ln_result.

(** On decimals: convert, calculate, convert back. *)
Definition detail_swap_amount_out_for_buy (reserve amount_in liquidity : Z) : option Z :=
  r ← to_fixed reserve; x ← to_fixed amount_in; b ← to_fixed liquidity;
  result_fixed ← calculate_swap_amount_out_for_buy_fixed r x b;
  from_fixed result_fixed.

Definition detail_swap_amount_out_for_sell (reserve amount_in liquidity : Z) : option Z :=
  r ← to_fixed reserve; x ← to_fixed amount_in; b ← to_fixed liquidity;
  result_fixed ← calculate_swap_amount_out_for_sell_fixed r x b;
  from_fixed result_fixed.

Definition detail_spot_price (reserve liquidity : Z) : option Z :=
  r ← to_fixed reserve; b ← to_fixed liquidity;
  result_fixed ← calculate_spot_price_fixed r b;
  from_fixed result_fixed.

Definition detail_buy_ln_argument (reserve amount_in liquidity : Z) : option Z :=
  r ← to_fixed reserve; x ← to_fixed amount_in; b ← to_fixed liquidity;
  result_fixed ← calculate_buy_ln_argument_fixed r x b;
  from_fixed result_fixed.

Definition detail_buy_amount_until (until liquidity spot_price : Z) : option Z :=
  q ← to_fixed until; b ← to_fixed liquidity; p ← to_fixed spot_price;
  result_fixed ← calculate_buy_amount_until_fixed q b p;
  from_fixed result_fixed.

Definition detail_sell_amount_until (until liquidity spot_price : Z) : option Z :=
  q ← to_fixed until; b ← to_fixed liquidity; p ← to_fixed spot_price;
  result_fixed ← calculate_sell_amount_until_fixed q b p;
  from_fixed result_fixed.

Definition detail_reserves_from_spot_prices (amount : Z) (spot_prices : list Z) : option (Z * list Z) :=
  a ← to_fixed amount;
  ps ← mapM to_fixed spot_prices;
  '(liquidity_fixed, reserve_fixed) ← calculate_reserve_from_spot_prices_fixed a ps;
  liquidity ← from_fixed liquidity_fixed;
  reserve ← mapM from_fixed reserve_fixed;
  Some (liquidity, reserve).

(** ** [MathOps] *)

Definition neo_error (e : NeoSwapsError) : DispatchError := Module_ (NeoSwaps e).

Definition calculate_swap_amount_out_for_buy (reserve amount_in liquidity : Z) : Res Z :=
  ok_or (detail_swap_amount_out_for_buy reserve amount_in liquidity) (neo_error MathError).

Definition calculate_swap_amount_out_for_sell (reserve amount_in liquidity : Z) : Res Z :=
  ok_or (detail_swap_amount_out_for_sell reserve amount_in liquidity) (neo_error MathError).

Definition calculate_spot_price (reserve liquidity : Z) : Res Z :=
  ok_or (detail_spot_price reserve liquidity) (neo_error MathError).

Definition calculate_buy_ln_argument (reserve amount_in liquidity : Z) : Res Z :=
  ok_or (detail_buy_ln_argument reserve amount_in liquidity) (neo_error MathError).

Definition calculate_buy_amount_until_math (until liquidity spot_price : Z) : Res Z :=
  ok_or (detail_buy_amount_until until liquidity spot_price) (neo_error MathError).

Definition calculate_sell_amount_until_math (until liquidity spot_price : Z) : Res Z :=
  ok_or (detail_sell_amount_until until liquidity spot_price) (neo_error MathError).

Definition calculate_reserves_from_spot_prices (amount : Z) (spot_prices : list Z) : Res (Z * list Z) :=
  ok_or (detail_reserves_from_spot_prices amount spot_prices) (neo_error MathError).
End NeoMath.
