(* ===== verification/NeoReference.v ===== *)
(** * A reference implementation of the fixed-point numbers

    [FixedU128<U80>] as its bits, with exact parsing up to rounding and exact
    printing; [exp] by its Taylor series and [ln] from the binary logarithm.
    It makes the market maker executable. *)

From Stdlib Require Import Ascii.
From stdpp Require Import pretty.
From S2P Require Import Prelude Errors FixedMath NeoMath.

Definition FRAC : Z := 2 ^ 80.
Definition in_range (x : Z) : option Z := if (0 <=? x) && (x <=? umax 128) then Some x else None.

(** ** Strings *)

Fixpoint digits_value (acc : Z) (s : string) : option Z :=
  match s with
  | EmptyString => Some acc
  | String c s => d ← to_digit c; digits_value (10 * acc + d) s
  end.

Definition ref_from_str (s : string) : option Z :=
  match split_dot s with
  | [i] => x ← digits_value 0 i; in_range (x * FRAC)
  | [i; f] =>
      x ← digits_value 0 i;
      y ← digits_value 0 f;
      let d := 10 ^ Z.of_nat (String.length f) in
      in_range (x * FRAC + (2 * y * FRAC + d) / (2 * d))
  | _ => None
  end.

Definition ref_to_string (x : Z) : string :=
  let f := u128_to_string (x mod FRAC * 10 ^ 80 / FRAC) in
  u128_to_string (x / FRAC) +:+ "." +:+ repeat_str "0" (80 - String.length f) +:+ f.

(** ** Exponential and logarithm, on numbers scaled by [FRAC] *)

(** The sum of the terms from [x^k / k!] on. *)
Fixpoint exp_terms (fuel : nat) (k term x : Z) : Z :=
  match fuel with
  | O => 0
  | S fuel => term + exp_terms fuel (k + 1) (term * x / FRAC / (k + 1)) x
  end.
Definition ref_exp (x : Z) (neg : bool) : option Z :=
  let e := exp_terms 150 0 FRAC x in
  if neg then in_range (FRAC * FRAC / e) else in_range e.

Definition LN_2 : Z := 837963523372001241924627.

(** The fractional bits of log2 of [y] in [FRAC, 2 * FRAC). *)
Fixpoint log2_bits (fuel : nat) (bit y acc : Z) : Z :=
  match fuel with
  | O => acc
  | S fuel =>
      let y := y * y / FRAC in
      if 2 * FRAC <=? y then log2_bits fuel (bit / 2) (y / 2) (acc + bit)
      else log2_bits fuel (bit / 2) y acc
  end.
Definition ref_log2 (y : Z) : Z :=
  let n := Z.log2 (y / FRAC) in
  n * FRAC + log2_bits 80 (FRAC / 2) (y / 2 ^ n) 0.

Definition ref_ln (x : Z) : option (Z * bool) :=
  if x =? 0 then None
  else if FRAC <=? x then Some (ref_log2 x * LN_2 / FRAC, false)
  else Some (ref_log2 (FRAC * FRAC / x) * LN_2 / FRAC, true).

#[global] Instance ref_fixed : FixedNum := {|
  Fx := Z;
  fx_from_str := ref_from_str;
  fx_to_string := ref_to_string;
  fx_add x y := in_range (x + y);
  fx_sub x y := in_range (x - y);
  fx_mul x y := in_range (x * y / FRAC);
  fx_div x y := if y =? 0 then None else in_range (x * FRAC / y);
  fx_ltb := Z.ltb;
  fx_is_zero x := x =? 0;
  fx_from_num n := in_range (n * FRAC);
  fx_from_bits x := x;
  fx_zero := 0;
  fx_one := FRAC;
  fx_exp := ref_exp;
  fx_ln := ref_ln |}.
