(* ===== verification/NeoSwaps.v ===== *)
(** * The neo-swaps pallet

    [pallets/neo-swaps/src/lib.rs] with [types/pool.rs]: liquidity pools whose
    prices follow the logarithmic scoring rule, over the liquidity tree of
    [LiquidityTree], the arithmetic of [NeoMath], the complete sets of
    [CompleteSets] and the asset manager.  Balances are [u128]. *)

From S2P Require Import Prelude Errors FixedMath LiquidityTree Collections Interfaces.
From S2P Require Import Market MultiCurrency Fees OrderBook HybridRouter CompleteSets NeoMath.

(** ** Constants *)

Definition CENT_BASE : Z := BASE / 100.
Definition EXIT_FEE : Z := CENT_BASE / 10.
Definition MIN_SWAP_FEE : Z := BASE / 1000.
Definition MAX_SPOT_PRICE : Z := BASE - CENT_BASE / 2.
Definition MIN_SPOT_PRICE : Z := CENT_BASE / 2.
Definition MIN_LIQUIDITY : Z := BASE.
Definition MIN_RELATIVE_LP_POSITION_VALUE : Z := 139098411.
Definition EXP_NUMERICAL_LIMIT : Z := 10.
Definition LN_NUMERICAL_LIMIT : Z := BASE / 10.
Definition MAX_ASSETS : Z := 128.

(** ** Pools *)

Record Pool := mkPool {
  account_id : AccountId;
  reserves : BTreeMap Asset Z;
  collateral : Asset;
  liquidity_parameter : Z;
  liquidity_shares_manager : LiquidityTree;
  swap_fee : Z }.

Definition set_reserves x p := mkPool (account_id p) x (collateral p) (liquidity_parameter p) (liquidity_shares_manager p) (swap_fee p).
Definition set_liquidity_parameter x p := mkPool (account_id p) (reserves p) (collateral p) x (liquidity_shares_manager p) (swap_fee p).
Definition set_liquidity_shares_manager x p := mkPool (account_id p) (reserves p) (collateral p) (liquidity_parameter p) x (swap_fee p).

Definition assets_of (p : Pool) : list Asset := bt_keys (reserves p).
Definition contains (p : Pool) (asset : Asset) : bool := bool_decide (is_Some (bt_get asset (reserves p))).
Definition reserve_of (p : Pool) (asset : Asset) : Res Z :=
  ok_or (bt_get asset (reserves p)) (neo_error AssetNotFound).

Definition increase_reserve (asset : Asset) (increase_amount : Z) (p : Pool) : Res Pool :=
  value ← ok_or (bt_get asset (reserves p)) (neo_error AssetNotFound);
  value ← ok_or (checked_add 128 value increase_amount) (neo_error MathError);
  Ok (set_reserves (bt_insert asset value (reserves p)) p).

Definition decrease_reserve (asset : Asset) (decrease_amount : Z) (p : Pool) : Res Pool :=
  value ← ok_or (bt_get asset (reserves p)) (neo_error AssetNotFound);
  value ← ok_or (checked_sub value decrease_amount) (neo_error MathError);
  Ok (set_reserves (bt_insert asset value (reserves p)) p).

Definition calculate_numerical_threshold (p : Pool) : Z :=
  saturating_mul 128 (liquidity_parameter p) EXP_NUMERICAL_LIMIT.

Section PoolPrices.
Context `{FixedNum}.

Definition pool_swap_amount_out_for_buy (p : Pool) (asset_out : Asset) (amount_in : Z) : Res Z :=
  reserve ← reserve_of p asset_out;
  calculate_swap_amount_out_for_buy reserve amount_in (liquidity_parameter p).
Definition pool_swap_amount_out_for_sell (p : Pool) (asset_in : Asset) (amount_in : Z) : Res Z :=
  reserve ← reserve_of p asset_in;
  calculate_swap_amount_out_for_sell reserve amount_in (liquidity_parameter p).
Definition pool_spot_price (p : Pool) (asset : Asset) : Res Z :=
  reserve ← reserve_of p asset;
  calculate_spot_price reserve (liquidity_parameter p).
Definition pool_buy_ln_argument (p : Pool) (asset : Asset) (amount_in : Z) : Res Z :=
  reserve ← reserve_of p asset;
  calculate_buy_ln_argument reserve amount_in (liquidity_parameter p).
Definition pool_buy_amount_until (p : Pool) (asset : Asset) (until : Z) : Res Z :=
  reserve ← reserve_of p asset;
  spot_price ← calculate_spot_price reserve (liquidity_parameter p);
  calculate_buy_amount_until_math until (liquidity_parameter p) spot_price.
Definition pool_sell_amount_until (p : Pool) (asset : Asset) (until : Z) : Res Z :=
  reserve ← reserve_of p asset;
  spot_price ← calculate_spot_price reserve (liquidity_parameter p);
  calculate_sell_amount_until_math until (liquidity_parameter p) spot_price.
End PoolPrices.

(** ** Configuration and storage *)

(** What the relayed calls sign. *)
Inductive NeoSigned :=
| SignedJoin (relayer : AccountId) (market_id pool_shares : Z) (max_amounts_in : list Z) (block_number : Z)
| SignedWithdrawFees (relayer : AccountId) (market_id block_number : Z)
| SignedExit (relayer : AccountId) (market_id pool_shares : Z) (min_amounts_out : list Z) (block_number : Z).

Class NeoSwapsConfig `{OrderBookConfig} := {
  ns_fixed :: FixedNum;
  ns_market_accounts :: MarketAccounts;
  MaxLiquidityTreeDepth : Z;
  MaxSwapFee : Z;
  SignedTxLifetime : Z;
  (** the pallet's sub-account of a market *)
  pool_account_id : Z -> AccountId;
  (** SCALE encoding and account signatures *)
  ns_encode : NeoSigned -> list Z;
  ns_verify_signature : Proof_ -> list Z -> bool }.

Section NeoSwaps.
Context `{NeoSwapsConfig}.

Inductive NsEvent :=
| BuyExecuted (who : AccountId) (market_id : Z) (asset_out : Asset)
    (amount_in amount_out swap_fee_amount external_fee_amount : Z)
| SellExecuted (who : AccountId) (market_id : Z) (asset_in : Asset)
    (amount_in amount_out swap_fee_amount external_fee_amount : Z)
| FeesWithdrawn (who : AccountId) (market_id amount : Z)
| JoinExecuted (who : AccountId) (market_id pool_shares_amount : Z) (amounts_in : list Z)
    (new_liquidity_parameter : Z)
| ExitExecuted (who : AccountId) (market_id pool_shares_amount : Z) (amounts_out : list Z)
    (new_liquidity_parameter : Z)
| PoolDeployed (who : AccountId) (market_id : Z) (account_id : AccountId) (reserves : BTreeMap Asset Z)
    (collateral : Asset) (liquidity_parameter pool_shares_amount swap_fee : Z)
| PoolDestroyed (who : AccountId) (market_id : Z) (amounts_out : list Z)
| AdditionalSwapFeeSet (new_fee : Z)
| EarlyExitFeeAccountSet (new_account : AccountId).

(** The pallet's storage, the complete sets (with the balances and the
    markets), and what it reads or notifies of prediction-markets and of the
    system pallet. *)
Record NsState := mkNs {
  Pools : gmap Z Pool;
  EarlyExitFeeAccount : option AccountId;
  AdditionalSwapFee : option Z;
  sets : CsState Assets;
  MarketAdmin : option AccountId;
  LiquidityProviders : gset (Z * AccountId);
  ns_block_number : Z;
  ns_events : list NsEvent }.

Definition set_Pools x s := mkNs x (EarlyExitFeeAccount s) (AdditionalSwapFee s) (sets s) (MarketAdmin s) (LiquidityProviders s) (ns_block_number s) (ns_events s).
Definition set_EarlyExitFeeAccount x s := mkNs (Pools s) x (AdditionalSwapFee s) (sets s) (MarketAdmin s) (LiquidityProviders s) (ns_block_number s) (ns_events s).
Definition set_AdditionalSwapFee x s := mkNs (Pools s) (EarlyExitFeeAccount s) x (sets s) (MarketAdmin s) (LiquidityProviders s) (ns_block_number s) (ns_events s).
Definition set_sets x s := mkNs (Pools s) (EarlyExitFeeAccount s) (AdditionalSwapFee s) x (MarketAdmin s) (LiquidityProviders s) (ns_block_number s) (ns_events s).
Definition set_LiquidityProviders x s := mkNs (Pools s) (EarlyExitFeeAccount s) (AdditionalSwapFee s) (sets s) (MarketAdmin s) x (ns_block_number s) (ns_events s).
Definition set_ns_block_number x s := mkNs (Pools s) (EarlyExitFeeAccount s) (AdditionalSwapFee s) (sets s) (MarketAdmin s) (LiquidityProviders s) x (ns_events s).
Definition set_ns_events x s := mkNs (Pools s) (EarlyExitFeeAccount s) (AdditionalSwapFee s) (sets s) (MarketAdmin s) (LiquidityProviders s) (ns_block_number s) x.

Abbreviation NsM := (ST DispatchError NsState).

Definition ns_assets (s : NsState) : Assets := cs_assets (sets s).
Definition ns_commons (s : NsState) : MarketCommons := cs_commons (sets s).
Definition deposit_ns_event (e : NsEvent) : NsM unit := modify (fun s => set_ns_events (ns_events s ++ [e]) s).

(** An operation of the asset manager, of the complete sets, of the tree of a
    pool; a pool that is not written back is dropped. *)
Definition on_ledger {A} (m : ST DispatchError Assets A) : NsM A := fun s =>
  let '(r, l) := m (ns_assets s) in (r, set_sets (set_cs_assets l (sets s)) s).
Definition on_sets {A} (m : ST DispatchError (CsState Assets) A) : NsM A := fun s =>
  let '(r, c) := m (sets s) in (r, set_sets c s).
Definition on_tree {A} (m : ST DispatchError LiquidityTree A) (p : Pool) : Res (A * Pool) :=
  let '(r, t) := m (liquidity_shares_manager p) in
  a ← r; Ok (a, set_liquidity_shares_manager t p).
Definition tree_view {A} (m : ST DispatchError LiquidityTree A) (p : Pool) : Res A :=
  fst (m (liquidity_shares_manager p)).

Definition try_mutate_pool {R} (market_id : Z) (mutator : Pool -> NsM (R * Pool)) : NsM R :=
  s ← get;
  pool ← lift (ok_or (Pools s !! market_id) (neo_error PoolNotFound));
  '(r, pool) ← mutator pool;
  modify (fun s => set_Pools (<[market_id := pool]> (Pools s)) s) ;;
  mret r.

Definition early_exit_account (s : NsState) : Res AccountId :=
  ok_or (EarlyExitFeeAccount s) (neo_error EarlyExitFeeAccountNotSet).
Definition additional_swap_fee (s : NsState) : Res Z :=
  ok_or (AdditionalSwapFee s) (neo_error AdditionalSwapFeeNotSet).

(** [OnLiquidityProvided] of prediction-markets. *)
Definition on_liquidity_provided (market_id : Z) (provider : AccountId) : NsM unit :=
  modify (fun s => set_LiquidityProviders ({[ (market_id, provider) ]} ∪ LiquidityProviders s) s).

(** ** Trading *)

Record FeeDistribution := mkFees { fee_remaining : Z; swap_fees : Z; external_fees : Z }.

Definition distribute_fees (market_id : Z) (pool : Pool) (amount : Z) : NsM (FeeDistribution * Pool) :=
  swap_fees ← lift (bmul 128 (swap_fee pool) amount);
  '(u, pool) ← lift (on_tree (deposit_fees swap_fees) pool);
  s ← get;
  let '(external_fees, l) := distribute market_id (collateral pool) (account_id pool) amount (ns_assets s) in
  modify (fun s => set_sets (set_cs_assets l (sets s)) s) ;;
  let total_fees := saturating_add 128 external_fees swap_fees in
  remaining ← lift (ok_or (checked_sub amount total_fees) (neo_error NeoUnexpected));
  mret (mkFees remaining swap_fees external_fees, pool).

(** The reserves after a buy: every outcome grows, the one bought shrinks. *)
Fixpoint update_reserves_buy (assets : list Asset) (asset_out : Asset) (amount_in amount_out : Z)
    (pool : Pool) : Res Pool :=
  match assets with
  | [] => Ok pool
  | asset :: assets =>
      pool ← increase_reserve asset amount_in pool;
      pool ← (if decide (asset = asset_out) then decrease_reserve asset amount_out pool else Ok pool);
      update_reserves_buy assets asset_out amount_in amount_out pool
  end.

Fixpoint update_reserves_sell (assets : list Asset) (asset_in : Asset) (amount_in amount_out : Z)
    (pool : Pool) : Res Pool :=
  match assets with
  | [] => Ok pool
  | asset :: assets =>
      pool ← (if decide (asset = asset_in) then increase_reserve asset amount_in pool else Ok pool);
      pool ← decrease_reserve asset amount_out pool;
      update_reserves_sell assets asset_in amount_in amount_out pool
  end.

Definition do_buy (who : AccountId) (market_id : Z) (asset_out : Asset) (amount_in min_amount_out : Z) :
    NsM AmmTrade :=
  lift (ensure (negb (amount_in =? 0)) (neo_error ZeroAmount)) ;;
  s ← get;
  m ← lift (market (ns_commons s) market_id);
  lift (ensure (bool_decide (status m = Active)) (neo_error MarketNotActive)) ;;
  try_mutate_pool market_id (fun pool =>
    lift (ensure (contains pool asset_out) (neo_error AssetNotFound)) ;;
    on_ledger (mc_transfer (collateral pool) who (account_id pool) amount_in) ;;
    '(fees, pool) ← distribute_fees market_id pool amount_in;
    let amount_in_minus_fees := fee_remaining fees in
    lift (ensure (amount_in_minus_fees <=? calculate_numerical_threshold pool)
            (neo_error (NumericalLimits MaxAmountExceeded))) ;;
    ln_argument ← lift (pool_buy_ln_argument pool asset_out amount_in_minus_fees);
    lift (ensure (LN_NUMERICAL_LIMIT <=? ln_argument) (neo_error (NumericalLimits MinAmountNotMet))) ;;
    swap_amount_out ← lift (pool_swap_amount_out_for_buy pool asset_out amount_in_minus_fees);
    amount_out ← lift (checked_add_res 128 swap_amount_out amount_in_minus_fees);
    lift (ensure (min_amount_out <=? amount_out) (neo_error AmountOutBelowMin)) ;;
    on_sets (do_buy_complete_set (account_id pool) market_id amount_in_minus_fees) ;;
    on_ledger (mc_transfer asset_out (account_id pool) who amount_out) ;;
    pool ← lift (update_reserves_buy (assets_of pool) asset_out amount_in_minus_fees amount_out pool);
    deposit_ns_event (BuyExecuted who market_id asset_out amount_in amount_out (swap_fees fees) (external_fees fees)) ;;
    mret (mkAmmTrade amount_in amount_out (swap_fees fees) (external_fees fees), pool)).

Definition do_sell (who : AccountId) (market_id : Z) (asset_in : Asset) (amount_in min_amount_out : Z) :
    NsM AmmTrade :=
  lift (ensure (negb (amount_in =? 0)) (neo_error ZeroAmount)) ;;
  s ← get;
  m ← lift (market (ns_commons s) market_id);
  lift (ensure (bool_decide (status m = Active)) (neo_error MarketNotActive)) ;;
  try_mutate_pool market_id (fun pool =>
    lift (ensure (contains pool asset_in) (neo_error AssetNotFound)) ;;
    reserve ← lift (reserve_of pool asset_in);
    lift (ensure (reserve <=? calculate_numerical_threshold pool)
            (neo_error (NumericalLimits SpotPriceTooLow))) ;;
    lift (ensure (amount_in <=? calculate_numerical_threshold pool)
            (neo_error (NumericalLimits MaxAmountExceeded))) ;;
    amount_out ← lift (pool_swap_amount_out_for_sell pool asset_in amount_in);
    on_ledger (mc_transfer asset_in who (account_id pool) amount_in) ;;
    on_sets (do_sell_complete_set (account_id pool) market_id amount_out) ;;
    '(fees, pool) ← distribute_fees market_id pool amount_out;
    let amount_out_minus_fees := fee_remaining fees in
    lift (ensure (min_amount_out <=? amount_out_minus_fees) (neo_error AmountOutBelowMin)) ;;
    on_ledger (mc_transfer (collateral pool) (account_id pool) who amount_out_minus_fees) ;;
    pool ← lift (update_reserves_sell (assets_of pool) asset_in amount_in amount_out pool);
    reserve ← lift (reserve_of pool asset_in);
    lift (ensure (reserve <=? calculate_numerical_threshold pool)
            (neo_error (NumericalLimits SpotPriceSlippedTooLow))) ;;
    deposit_ns_event (SellExecuted who market_id asset_in amount_in amount_out_minus_fees (swap_fees fees) (external_fees fees)) ;;
    mret (mkAmmTrade amount_in amount_out_minus_fees (swap_fees fees) (external_fees fees), pool)).

(** ** Liquidity *)

(** The transfers of a join, one per outcome. *)
Fixpoint join_transfers (who : AccountId) (pool : Pool) (ratio : Z) (l : list (Asset * Z)) : NsM (list Z) :=
  match l with
  | [] => mret []
  | (asset, max_amount_in) :: l =>
      balance_in_pool ← lift (reserve_of pool asset);
      amount_in ← lift (bmul_ceil 128 ratio balance_in_pool);
      lift (ensure (amount_in <=? max_amount_in) (neo_error AmountInAboveMax)) ;;
      on_ledger (mc_transfer asset who (account_id pool) amount_in) ;;
      amounts_in ← join_transfers who pool ratio l;
      mret (amount_in :: amounts_in)
  end.

Fixpoint exit_transfers (who : AccountId) (pool : Pool) (ratio : Z) (l : list (Asset * Z)) : NsM (list Z) :=
  match l with
  | [] => mret []
  | (asset, min_amount_out) :: l =>
      balance_in_pool ← lift (reserve_of pool asset);
      amount_out ← lift (bmul_floor 128 ratio balance_in_pool);
      lift (ensure (min_amount_out <=? amount_out) (neo_error AmountOutBelowMin)) ;;
      on_ledger (mc_transfer asset (account_id pool) who amount_out) ;;
      amounts_out ← exit_transfers who pool ratio l;
      mret (amount_out :: amounts_out)
  end.

(** [pool.reserves.iter_mut().zip(amounts)]. *)
Fixpoint map_reserves (f : Z -> Z -> Res Z) (rs : BTreeMap Asset Z) (amounts : list Z) : Res (BTreeMap Asset Z) :=
  match rs, amounts with
  | (asset, balance) :: rs, amount :: amounts =>
      balance ← f balance amount;
      rs ← map_reserves f rs amounts;
      Ok ((asset, balance) :: rs)
  | rs, _ => Ok rs
  end.

Definition to_u16 (n : nat) : Res Z :=
  if Z.of_nat n <=? umax 16 then Ok (Z.of_nat n) else Err (neo_error NarrowingConversion).
Definition to_u32 (n : nat) : Res Z :=
  if Z.of_nat n <=? umax 32 then Ok (Z.of_nat n) else Err (neo_error NarrowingConversion).

Definition do_join (who : AccountId) (market_id pool_shares_amount : Z) (max_amounts_in : list Z) : NsM unit :=
  lift (ensure (negb (pool_shares_amount =? 0)) (neo_error ZeroAmount)) ;;
  s ← get;
  m ← lift (market (ns_commons s) market_id);
  lift (ensure (bool_decide (status m = Active)) (neo_error MarketNotActive)) ;;
  asset_count ← lift (to_u16 (length max_amounts_in));
  lift (ensure (asset_count =? outcomes m) (neo_error IncorrectAssetCount)) ;;
  try_mutate_pool market_id (fun pool =>
    total ← lift (tree_view total_shares pool);
    ratio ← lift (bdiv_ceil 128 pool_shares_amount total);
    lift (if is_ok (tree_view (shares_of who) pool) then Ok tt
          else ensure (MIN_RELATIVE_LP_POSITION_VALUE <=? ratio)
                 (neo_error MinRelativeLiquidityThresholdViolated)) ;;
    amounts_in ← join_transfers who pool ratio (zip (assets_of pool) max_amounts_in);
    rs ← lift (map_reserves (checked_add_res 128) (reserves pool) amounts_in);
    let pool := set_reserves rs pool in
    '(info, pool) ← lift (on_tree (join MaxLiquidityTreeDepth who pool_shares_amount) pool);
    increase ← lift (bmul 128 ratio (liquidity_parameter pool));
    new_liquidity_parameter ← lift (checked_add_res 128 (liquidity_parameter pool) increase);
    let pool := set_liquidity_parameter new_liquidity_parameter pool in
    deposit_ns_event (JoinExecuted who market_id pool_shares_amount amounts_in new_liquidity_parameter) ;;
    on_liquidity_provided market_id who ;;
    mret (tt, pool)).

(** The burning of what a destroyed pool still holds of one outcome. *)
Definition withdraw_remaining (pool : Pool) (asset : Asset) : NsM unit :=
  s ← get;
  let remaining := mc_free_balance asset (account_id pool) (ns_assets s) in
  on_ledger (mc_withdraw asset (account_id pool) remaining).

Definition exit_ratio (m : Market) (pool_shares_amount total : Z) : Res Z :=
  ratio ← bdiv_floor 128 pool_shares_amount total;
  if decide (status m = Active) then
    base ← PredictionMarketBase_get 128;
    multiplier ← checked_sub_res base EXIT_FEE;
    bmul_floor 128 ratio multiplier
  else Ok ratio.

Definition do_exit (who : AccountId) (market_id pool_shares_amount : Z) (min_amounts_out : list Z) : NsM unit :=
  lift (ensure (negb (pool_shares_amount =? 0)) (neo_error ZeroAmount)) ;;
  s ← get;
  m ← lift (market (ns_commons s) market_id);
  pool ← lift (ok_or (Pools s !! market_id) (neo_error PoolNotFound));
  total ← lift (tree_view total_shares pool);
  ratio ← lift (exit_ratio m pool_shares_amount total);
  amounts_out ← exit_transfers who pool ratio (zip (assets_of pool) min_amounts_out);
  rs ← lift (map_reserves checked_sub_res (reserves pool) amounts_out);
  let pool := set_reserves rs pool in
  '(u, pool) ← lift (on_tree (exit MaxLiquidityTreeDepth who pool_shares_amount) pool);
  total ← lift (tree_view total_shares pool);
  if total =? 0 then
    s ← get;
    let remaining := mc_free_balance (collateral pool) (account_id pool) (ns_assets s) in
    early ← lift (early_exit_account s);
    on_ledger (mc_transfer (collateral pool) (account_id pool) early remaining) ;;
    for_each (assets_of pool) (withdraw_remaining pool) ;;
    deposit_ns_event (PoolDestroyed who market_id amounts_out) ;;
    modify (fun s => set_Pools (delete market_id (Pools s)) s)
  else
    decrease ← lift (bmul 128 ratio (liquidity_parameter pool));
    new_liquidity_parameter ← lift (checked_sub_res (liquidity_parameter pool) decrease);
    lift match tree_view (shares_of who) pool with
         | Ok remaining_pool_shares_amount =>
             ensure (MIN_LIQUIDITY <=? new_liquidity_parameter) (neo_error LiquidityTooLow) ;;
             total ← tree_view total_shares pool;
             remaining_pool_shares_ratio ← bdiv_floor 128 remaining_pool_shares_amount total;
             ensure (MIN_RELATIVE_LP_POSITION_VALUE <=? remaining_pool_shares_ratio)
               (neo_error MinRelativeLiquidityThresholdViolated)
         | Err _ => Ok tt
         end ;;
    let pool := set_liquidity_parameter new_liquidity_parameter pool in
    deposit_ns_event (ExitExecuted who market_id pool_shares_amount amounts_out new_liquidity_parameter) ;;
    modify (fun s => set_Pools (<[market_id := pool]> (Pools s)) s).

Definition do_withdraw_fees (who : AccountId) (market_id : Z) : NsM unit :=
  try_mutate_pool market_id (fun pool =>
    '(amount, pool) ← lift (on_tree (withdraw_fees MaxLiquidityTreeDepth who) pool);
    on_ledger (mc_transfer (collateral pool) (account_id pool) who amount) ;;
    deposit_ns_event (FeesWithdrawn who market_id amount) ;;
    mret (tt, pool)).

(** The transfers of a deployment and the reserves they make. *)
Fixpoint deploy_transfers (who pool_account : AccountId) (l : list (Z * Asset)) (rs : BTreeMap Asset Z) :
    NsM (BTreeMap Asset Z) :=
  match l with
  | [] => mret rs
  | (amount_in, asset) :: l =>
      on_ledger (mc_transfer asset who pool_account amount_in) ;;
      deploy_transfers who pool_account l (bt_insert asset amount_in rs)
  end.

Definition do_deploy_pool (who : AccountId) (market_id amount : Z) (spot_prices : list Z) (swap_fee : Z) : NsM unit :=
  s ← get;
  lift (ensure (bool_decide (Pools s !! market_id = None)) (neo_error DuplicatePool)) ;;
  m ← lift (market (ns_commons s) market_id);
  lift (ensure (bool_decide (status m = Active)) (neo_error MarketNotActive)) ;;
  lift (ensure (bool_decide (scoring_rule m = AmmCdaHybrid)) (neo_error InvalidTradingMechanism)) ;;
  asset_count ← lift (to_u16 (length spot_prices));
  lift (ensure (asset_count =? outcomes m) (neo_error IncorrectVecLen)) ;;
  lift (ensure (asset_count <=? MAX_ASSETS) (neo_error AssetCountAboveMax)) ;;
  lift (ensure (MIN_SWAP_FEE <=? swap_fee) (neo_error SwapFeeBelowMin)) ;;
  lift (ensure (swap_fee <=? MaxSwapFee) (neo_error SwapFeeAboveMax)) ;;
  lift (ensure (foldl (saturating_add 128) 0 spot_prices =? BASE) (neo_error InvalidSpotPrices)) ;;
  for_each spot_prices (fun p =>
    lift (ensure (MIN_SPOT_PRICE <=? p) (neo_error SpotPriceBelowMin)) ;;
    lift (ensure (p <=? MAX_SPOT_PRICE) (neo_error SpotPriceAboveMax))) ;;
  '(liquidity_parameter, amounts_in) ← lift (calculate_reserves_from_spot_prices amount spot_prices);
  lift (ensure (MIN_LIQUIDITY <=? liquidity_parameter) (neo_error LiquidityTooLow)) ;;
  let pool_account := pool_account_id market_id in
  rs ← deploy_transfers who pool_account (zip amounts_in (outcome_assets m)) [];
  let collateral := base_asset m in
  lift (ensure (Z.of_nat (length rs) <=? MAX_ASSETS) (neo_error NeoUnexpected)) ;;
  tree ← lift (LiquidityTree_new MaxLiquidityTreeDepth who amount);
  let pool := mkPool pool_account rs collateral liquidity_parameter tree swap_fee in
  on_ledger (mc_transfer collateral who pool_account (minimum_balance collateral)) ;;
  modify (fun s => set_Pools (<[market_id := pool]> (Pools s)) s) ;;
  on_liquidity_provided market_id who ;;
  deposit_ns_event (PoolDeployed who market_id pool_account rs collateral liquidity_parameter amount swap_fee).

(** ** The calls *)

(** The number of outcomes of a market, which the calls check. *)
Definition asset_count_of (market_id : Z) : NsM Z :=
  s ← get;
  m ← lift (market (ns_commons s) market_id);
  mret (outcomes m).

Definition neo_buy (origin : Origin) (market_id asset_count : Z) (asset_out : Asset)
    (amount_in min_amount_out : Z) : NsM unit :=
  transactional (
    who ← lift (ensure_signed origin);
    asset_count_real ← asset_count_of market_id;
    lift (ensure (asset_count =? asset_count_real) (neo_error IncorrectAssetCount)) ;;
    do_buy who market_id asset_out amount_in min_amount_out ;;
    mret tt).

Definition neo_sell (origin : Origin) (market_id asset_count : Z) (asset_in : Asset)
    (amount_in min_amount_out : Z) : NsM unit :=
  transactional (
    who ← lift (ensure_signed origin);
    asset_count_real ← asset_count_of market_id;
    lift (ensure (asset_count =? asset_count_real) (neo_error IncorrectAssetCount)) ;;
    do_sell who market_id asset_in amount_in min_amount_out ;;
    mret tt).

Definition neo_join (origin : Origin) (market_id pool_shares_amount : Z) (max_amounts_in : list Z) : NsM unit :=
  transactional (
    who ← lift (ensure_signed origin);
    asset_count ← asset_count_of market_id;
    lift (to_u32 (length max_amounts_in)) ;;
    lift (ensure (Z.of_nat (length max_amounts_in) =? asset_count) (neo_error IncorrectVecLen)) ;;
    do_join who market_id pool_shares_amount max_amounts_in).

Definition neo_exit (origin : Origin) (market_id pool_shares_amount_out : Z) (min_amounts_out : list Z) : NsM unit :=
  transactional (
    who ← lift (ensure_signed origin);
    asset_count ← asset_count_of market_id;
    min_amounts_out_len ← lift (to_u32 (length min_amounts_out));
    lift (ensure (min_amounts_out_len =? asset_count) (neo_error IncorrectVecLen)) ;;
    do_exit who market_id pool_shares_amount_out min_amounts_out).

Definition neo_withdraw_fees (origin : Origin) (market_id : Z) : NsM unit :=
  transactional (
    who ← lift (ensure_signed origin);
    do_withdraw_fees who market_id).

Definition deploy_pool (origin : Origin) (market_id amount : Z) (spot_prices : list Z) (swap_fee : Z) : NsM unit :=
  transactional (
    who ← lift (ensure_signed origin);
    asset_count ← asset_count_of market_id;
    spot_prices_len ← lift (to_u32 (length spot_prices));
    lift (ensure (spot_prices_len =? asset_count) (neo_error IncorrectVecLen)) ;;
    do_deploy_pool who market_id amount spot_prices swap_fee).

(** ** Relayed calls *)

Definition encode_signed_join_params relayer market_id pool_shares max_amounts_in block_number :=
  ns_encode (SignedJoin relayer market_id pool_shares max_amounts_in block_number).
Definition encode_signed_withdraw_fees_params relayer market_id block_number :=
  ns_encode (SignedWithdrawFees relayer market_id block_number).
Definition encode_signed_exit_params relayer market_id pool_shares min_amounts_out block_number :=
  ns_encode (SignedExit relayer market_id pool_shares min_amounts_out block_number).

(** The checks the relayed calls share. *)
Definition check_relayed (who : AccountId) (proof : Proof_) (block_number : Z) (encoded_payload : list Z) : NsM unit :=
  lift (ensure (bool_decide (who = signer proof)) (neo_error NeoSenderIsNotSigner)) ;;
  now ← gets ns_block_number;
  lift (ensure (now <? saturating_add 32 block_number SignedTxLifetime) (neo_error NeoSignedTransactionExpired)) ;;
  lift (ensure (ns_verify_signature proof encoded_payload) (neo_error NeoUnauthorizedSignedTransaction)).

Definition signed_join (origin : Origin) (proof : Proof_) (market_id pool_shares_amount : Z)
    (max_amounts_in : list Z) (block_number : Z) : NsM unit :=
  transactional (
    who ← lift (ensure_signed origin);
    check_relayed who proof block_number
      (encode_signed_join_params (relayer proof) market_id pool_shares_amount max_amounts_in block_number) ;;
    asset_count ← asset_count_of market_id;
    lift (to_u32 (length max_amounts_in)) ;;
    lift (ensure (Z.of_nat (length max_amounts_in) =? asset_count) (neo_error IncorrectVecLen)) ;;
    do_join who market_id pool_shares_amount max_amounts_in).

Definition signed_withdraw_fees (origin : Origin) (proof : Proof_) (market_id block_number : Z) : NsM unit :=
  transactional (
    who ← lift (ensure_signed origin);
    check_relayed who proof block_number
      (encode_signed_withdraw_fees_params (relayer proof) market_id block_number) ;;
    do_withdraw_fees who market_id).

Definition signed_exit (origin : Origin) (proof : Proof_) (market_id pool_shares_amount_out : Z)
    (min_amounts_out : list Z) (block_number : Z) : NsM unit :=
  transactional (
    who ← lift (ensure_signed origin);
    check_relayed who proof block_number
      (encode_signed_exit_params (relayer proof) market_id pool_shares_amount_out min_amounts_out block_number) ;;
    asset_count ← asset_count_of market_id;
    min_amounts_out_len ← lift (to_u32 (length min_amounts_out));
    lift (ensure (min_amounts_out_len =? asset_count) (neo_error IncorrectVecLen)) ;;
    do_exit who market_id pool_shares_amount_out min_amounts_out).

(** ** Administration *)

(** [PalletAdminGetter] of prediction-markets. *)
Definition get_admin (s : NsState) : Res AccountId := ok_or (MarketAdmin s) (pm_error MarketAdminNotSet).

Definition ensure_admin (origin : Origin) : NsM unit :=
  who ← lift (ensure_signed origin);
  s ← get;
  admin ← lift (get_admin s);
  lift (ensure (bool_decide (who = admin)) (neo_error SenderNotMarketAdmin)).

Definition set_early_exit_fee_account (origin : Origin) (account : AccountId) : NsM unit :=
  transactional (
    ensure_admin origin ;;
    modify (set_EarlyExitFeeAccount (Some account)) ;;
    deposit_ns_event (EarlyExitFeeAccountSet account)).

Definition set_additional_swap_fee (origin : Origin) (fee : Z) : NsM unit :=
  transactional (
    ensure_admin origin ;;
    modify (set_AdditionalSwapFee (Some fee)) ;;
    deposit_ns_event (AdditionalSwapFeeSet fee)).

(** ** The proxy check *)

Inductive NsCall :=
| signed_join_call (proof : Proof_) (market_id pool_shares_amount : Z) (max_amounts_in : list Z) (block_number : Z)
| signed_exit_call (proof : Proof_) (market_id pool_shares_amount_out : Z) (min_amounts_out : list Z) (block_number : Z)
| signed_withdraw_fees_call (proof : Proof_) (market_id block_number : Z)
| other_call.

Definition neo_encoded_call_param (call : NsCall) : option (Proof_ * list Z) :=
  match call with
  | signed_join_call proof market_id pool_shares_amount max_amounts_in block_number =>
      Some (proof, encode_signed_join_params (relayer proof) market_id pool_shares_amount max_amounts_in block_number)
  | signed_exit_call proof market_id pool_shares_amount_out min_amounts_out block_number =>
      Some (proof, encode_signed_exit_params (relayer proof) market_id pool_shares_amount_out min_amounts_out block_number)
  | signed_withdraw_fees_call proof market_id block_number =>
      Some (proof, encode_signed_withdraw_fees_params (relayer proof) market_id block_number)
  | other_call => None
  end.

Definition neo_signature_is_valid (call : NsCall) : bool :=
  match neo_encoded_call_param call with
  | Some (proof, signed_payload) => ns_verify_signature proof signed_payload
  | None => false
  end.

(** ** Genesis, and the interface for prediction-markets *)

Definition GenesisConfig_build (fee : Z) : NsState -> NsState := set_AdditionalSwapFee (Some fee).

(** [DeployPoolApi]. *)
Definition api_deploy_pool (who : AccountId) (market_id amount : Z) (spot_prices : list Z) (swap_fee : Z) : NsM unit :=
  do_deploy_pool who market_id amount spot_prices swap_fee.

(** ** For the hybrid router *)

Definition amount_including_fee_surplus (amount fee_fractional : Z) : Res Z :=
  base ← PredictionMarketBase_get 128;
  fee_divisor ← ok_or (checked_sub base fee_fractional) (neo_error NeoUnexpected);
  bdiv 128 amount fee_divisor.

Definition neo_match_failure (error : DispatchError) : ApiError AmmSoftFail :=
  match error with
  | Module_ (NeoSwaps (NumericalLimits _)) => SoftFailure Numerical
  | e => HardFailure e
  end.

Definition neo_pool_exists (s : NsState) (market_id : Z) : bool := bool_decide (is_Some (Pools s !! market_id)).

Definition neo_spot_price (s : NsState) (market_id : Z) (asset : Asset) : Res Z :=
  pool ← ok_or (Pools s !! market_id) (neo_error PoolNotFound);
  pool_spot_price pool asset.

Definition neo_buy_amount_until (s : NsState) (market_id : Z) (asset : Asset) (until : Z) : Res Z :=
  pool ← ok_or (Pools s !! market_id) (neo_error PoolNotFound);
  buy_amount ← pool_buy_amount_until pool asset until;
  fee ← additional_swap_fee s;
  total_fee_fractional ← checked_add_res 128 (swap_fee pool) fee;
  amount_including_fee_surplus buy_amount total_fee_fractional.

Definition neo_sell_amount_until (s : NsState) (market_id : Z) (asset : Asset) (until : Z) : Res Z :=
  pool ← ok_or (Pools s !! market_id) (neo_error PoolNotFound);
  pool_sell_amount_until pool asset until.

Definition api_buy (who : AccountId) (market_id : Z) (asset_out : Asset) (amount_in min_amount_out : Z) :
    ST (ApiError AmmSoftFail) NsState AmmTrade := fun s =>
  let '(r, s1) := do_buy who market_id asset_out amount_in min_amount_out s in (map_err neo_match_failure r, s1).

Definition api_sell (who : AccountId) (market_id : Z) (asset_in : Asset) (amount_in min_amount_out : Z) :
    ST (ApiError AmmSoftFail) NsState AmmTrade := fun s =>
  let '(r, s1) := do_sell who market_id asset_in amount_in min_amount_out s in (map_err neo_match_failure r, s1).

(** The pallet behind the router's interface: the router owns the balances and
    the markets and lends them for a call. *)
Definition lend (c : MarketCommons) (l : Assets) (s : NsState) : NsState :=
  set_sets (mkCs l c (cs_events (sets s))) s.

Definition lent {E A} (c : MarketCommons) (m : ST E NsState A) : ST E (NsState * Assets) A := fun '(s, l) =>
  let '(r, s1) := m (lend c l s) in (r, (s1, ns_assets s1)).

#[global] Instance neo_amm : AmmApi := {|
  AmmState := NsState;
  pool_exists m s := neo_pool_exists s m;
  get_spot_price c m a s := neo_spot_price s m a;
  calculate_buy_amount_until c m a q s := neo_buy_amount_until s m a q;
  calculate_sell_amount_until c m a q s := neo_sell_amount_until s m a q;
  amm_buy c who m a x y := lent c (api_buy who m a x y);
  amm_sell c who m a x y := lent c (api_sell who m a x y) |}.
End NeoSwaps.
