(* ===== verification/NeoSwapsInv.v ===== *)
(** * The neo-swaps pallet: pools are backed

    What every operation does to a pool's account: it holds the reserves the pool
    records up to a loss that only grows when dust below the minimum balance is
    swept or a sell fails softly after it was carried out, and on top of the
    existential deposit the collateral for all fees the liquidity providers can
    still withdraw. *)

From S2P Require Import Prelude Errors FixedMath LiquidityTree LiquidityTreeFacts LiquidityTreeInv.
From S2P Require Import LiquidityTreeSpec Collections Interfaces Market MultiCurrency Fees.
From S2P Require Import OrderBook HybridRouter HybridRouterInv CompleteSets NeoMath NeoSwaps.

(** ** Amounts are [u128]s *)

Lemma to_digit_range c d : to_digit c = Some d -> 0 <= d <= 9.
Proof. unfold to_digit. case_match eqn:E; [|done]. intros [= <-]. rewrite andb_true_iff, !Z.leb_le in E. lia. Qed.

Lemma parse_digits_fits s : forall acc x, fits 128 acc -> parse_digits acc s = Some x -> fits 128 x.
Proof.
  unfold fits. induction s as [|c s IH]; cbn [parse_digits]; intros acc x Hacc Hp; [congruence|].
  apply bind_Some in Hp as (d & Hd%to_digit_range & Hp). case_match eqn:E; [|done]. apply Z.leb_le in E.
  eapply IH; [|exact Hp]. lia.
Qed.

Lemma parse_u128_fits s x : parse_u128 s = Some x -> fits 128 x.
Proof.
  unfold parse_u128. intros Hp. case_match; [done|]. eapply parse_digits_fits; [|exact Hp].
  unfold fits, umax. lia.
Qed.

Section Fits.
Context `{FixedNum}.

Lemma from_fixed_fits f x : from_fixed f = Some x -> fits 128 x.
Proof.
  unfold from_fixed, from_fixed_to_fixed_decimal. intros Hf. case_match; [done|]. case_match. case_match; [|done].
  apply bind_Some in Hf as ([inc frac] & _ & Hf). apply bind_Some in Hf as (y & Hy%parse_u128_fits & [= <-]).
  unfold fits, saturating_add in *. destruct inc; lia.
Qed.

Lemma buy_out_fits r x b y : calculate_swap_amount_out_for_buy r x b = Ok y -> fits 128 y.
Proof.
  unfold calculate_swap_amount_out_for_buy, detail_swap_amount_out_for_buy. intros Hy%ok_or_ok.
  repeat (apply bind_Some in Hy as (? & _ & Hy)). by eapply from_fixed_fits.
Qed.
Lemma sell_out_fits r x b y : calculate_swap_amount_out_for_sell r x b = Ok y -> fits 128 y.
Proof.
  unfold calculate_swap_amount_out_for_sell, detail_swap_amount_out_for_sell. intros Hy%ok_or_ok.
  repeat (apply bind_Some in Hy as (? & _ & Hy)). by eapply from_fixed_fits.
Qed.
Lemma buy_until_fits r x b y : calculate_buy_amount_until_math r x b = Ok y -> fits 128 y.
Proof.
  unfold calculate_buy_amount_until_math, detail_buy_amount_until. intros Hy%ok_or_ok.
  repeat (apply bind_Some in Hy as (? & _ & Hy)). by eapply from_fixed_fits.
Qed.
Lemma sell_until_fits r x b y : calculate_sell_amount_until_math r x b = Ok y -> fits 128 y.
Proof.
  unfold calculate_sell_amount_until_math, detail_sell_amount_until. intros Hy%ok_or_ok.
  repeat (apply bind_Some in Hy as (? & _ & Hy)). by eapply from_fixed_fits.
Qed.

Lemma mapM_length_some {A B} (f : A -> option B) l k : mapM f l = Some k -> length k = length l.
Proof. intros Hm%mapM_Some_1. symmetry. by eapply Forall2_length. Qed.

Lemma reserves_fits a ps b rs : calculate_reserves_from_spot_prices a ps = Ok (b, rs) ->
  length rs = length ps /\ Forall (fits 128) rs.
Proof.
  unfold calculate_reserves_from_spot_prices, detail_reserves_from_spot_prices. intros Hr%ok_or_ok.
  apply bind_Some in Hr as (fa & _ & Hr). apply bind_Some in Hr as (fps & Hps%mapM_length_some & Hr).
  apply bind_Some in Hr as ([fb frs] & Hc & Hr). apply bind_Some in Hr as (lq & _ & Hr).
  apply bind_Some in Hr as (rs' & Hrs & [= _ <-]). split.
  - rewrite (mapM_length_some _ _ _ Hrs), <- Hps. unfold calculate_reserve_from_spot_prices_fixed in Hc.
    case_match; [done|]. apply bind_Some in Hc as (tmp & Ht%mapM_length_some & Hc).
    apply bind_Some in Hc as (mx & _ & Hc). apply bind_Some in Hc as (lq' & _ & Hc).
    apply bind_Some in Hc as (rs2 & Hr2%mapM_length_some & [= _ <-]). congruence.
  - apply mapM_Some_1 in Hrs. clear Hc. induction Hrs as [|f r frs' rs'' Hf _ IH]; constructor; [by eapply from_fixed_fits|done].
Qed.
End Fits.

(** ** Reserves *)

(** Replacing the value of a key keeps the keys. *)
Lemma bt_keys_update {K V} `{OrdLaws K} (k : K) (v v' : V) (m : BTreeMap K V) :
  bt_get k m = Some v -> bt_keys (bt_insert k v' m) = bt_keys m.
Proof.
  unfold bt_keys. induction m as [|[k1 v1] m IH]; cbn; [done|]. destruct (cmp k k1) eqn:E; [|done|].
  - apply cmp_eq in E as ->. done.
  - intros Hg. cbn. f_equal. by apply IH.
Qed.

(** [rs'] is [rs] with every reserve [r] of [a] now [f a r]. *)
Definition remapped (f : Asset -> Z -> Z) (rs rs' : BTreeMap Asset Z) : Prop :=
  bt_sorted rs' /\ bt_keys rs' = bt_keys rs /\
  forall a r', bt_get a rs' = Some r' -> exists r, bt_get a rs = Some r /\ r' = f a r.

Lemma remapped_step (f g : Asset -> Z -> Z) (a : Asset) (r r1 : Z) rs rs' :
  bt_sorted rs -> bt_get a rs = Some r -> remapped g (bt_insert a r1 rs) rs' ->
  f a r = g a r1 -> (forall b x, b <> a -> f b x = g b x) -> remapped f rs rs'.
Proof.
  intros Hs Hr (Hs' & Hk & Hg) Ha Hb. split; [done|]. split; [by rewrite Hk, (bt_keys_update _ _ _ _ Hr)|].
  intros b r' (x & Hx & ->)%Hg. destruct (decide (b = a)) as [->|Hne].
  - rewrite bt_get_insert in Hx. injection Hx as <-. by exists r.
  - rewrite bt_get_insert_ne in Hx by done. exists x. by rewrite Hb.
Qed.

Lemma increase_ok a v p p' : increase_reserve a v p = Ok p' ->
  exists r, bt_get a (reserves p) = Some r /\ p' = set_reserves (bt_insert a (r + v) (reserves p)) p.
Proof.
  unfold increase_reserve. intros (r & Hr%ok_or_ok & Hp)%result_bind_ok.
  apply result_bind_ok in Hp as (x & [-> _]%ok_or_ok%checked_add_some & [= <-]). by exists r.
Qed.
Lemma decrease_ok a v p p' : decrease_reserve a v p = Ok p' ->
  exists r, bt_get a (reserves p) = Some r /\ v <= r /\ p' = set_reserves (bt_insert a (r - v) (reserves p)) p.
Proof.
  unfold decrease_reserve. intros (r & Hr%ok_or_ok & Hp)%result_bind_ok.
  apply result_bind_ok in Hp as (x & [-> Hle]%ok_or_ok%checked_sub_some & [= <-]). by exists r.
Qed.

Lemma bt_get_key {K V} `{OrdLaws K} (k : K) (v : V) (m : BTreeMap K V) : bt_get k m = Some v -> k ∈ bt_keys m.
Proof.
  unfold bt_keys. induction m as [|[k1 v1] m IH]; cbn; [done|]. destruct (cmp k k1) eqn:E; [|done|].
  - apply cmp_eq in E as ->. left.
  - intros Hg. right. by apply IH.
Qed.

Lemma remapped_refl rs : bt_sorted rs -> remapped (fun _ r => r) rs rs.
Proof. intros Hs. split; [done|]. split; [done|]. eauto. Qed.

Lemma remapped_ext f g rs rs' : (forall a r, f a r = g a r) -> remapped f rs rs' -> remapped g rs rs'.
Proof. intros Hfg (Hs & Hk & Hg). split_and!; [done..|]. intros a r' (r & Hr & ->)%Hg. exists r. by rewrite Hfg. Qed.

Lemma decide_cons_ne {A B} `{EqDecision A} (b a : A) (l : list A) (x y : B) : b <> a ->
  (if decide (b ∈ a :: l) then x else y) = (if decide (b ∈ l) then x else y).
Proof. intros Hne. apply decide_ext. rewrite elem_of_cons. tauto. Qed.

Lemma update_buy_ok assets out x y : forall p p',
  bt_sorted (reserves p) -> NoDup assets -> update_reserves_buy assets out x y p = Ok p' ->
  exists rs', p' = set_reserves rs' p /\
    remapped (fun a r => if decide (a ∈ assets) then r + x - (if decide (a = out) then y else 0) else r)
      (reserves p) rs' /\
    forall a r, a ∈ assets -> bt_get a (reserves p) = Some r -> a = out -> y <= r + x.
Proof.
  induction assets as [|a assets IH]; intros p p' Hs Hnd; cbn [update_reserves_buy].
  { intros [= <-]. exists (reserves p). split; [by destruct p|]. split; [|by intros ?? ?%elem_of_nil].
    eapply remapped_ext; [|by apply remapped_refl]. intros. by rewrite decide_False by apply not_elem_of_nil. }
  apply NoDup_cons in Hnd as [Hna Hnd]. intros (p1 & (r & Hr & ->)%increase_ok & Hp)%result_bind_ok.
  apply result_bind_ok in Hp as (p2 & Hp2 & Hp).
  assert (H2 : (a = out -> y <= r + x) /\
    p2 = set_reserves (bt_insert a (r + x - (if decide (a = out) then y else 0)) (reserves p)) p).
  { case_decide; [|injection Hp2 as <-; by rewrite Z.sub_0_r].
    apply decrease_ok in Hp2 as (r2 & Hr2 & Hle & ->). cbn in Hr2. rewrite bt_get_insert in Hr2. injection Hr2 as <-.
    split; [done|]. unfold set_reserves; cbn. f_equal. apply bt_insert_insert. }
  destruct H2 as [Hle ->]. apply IH in Hp as (rs' & -> & Hre & Hall); [|by apply bt_insert_sorted|done].
  exists rs'. split; [done|]. split.
  - eapply remapped_step; [done|exact Hr|exact Hre| |].
    + cbn. by rewrite (decide_True (P := a ∈ a :: assets)), (decide_False (P := a ∈ assets)) by (done || by left).
    + cbn. intros b z Hb. by rewrite (decide_cons_ne b a assets) by done.
  - intros b z [->|Hb]%elem_of_cons Hz Hout; [simplify_eq; by apply Hle|]. apply (Hall b z Hb); [|done]. cbn.
    by rewrite bt_get_insert_ne by (done || congruence).
Qed.

Lemma update_sell_ok assets ain x y : forall p p',
  bt_sorted (reserves p) -> NoDup assets -> update_reserves_sell assets ain x y p = Ok p' ->
  exists rs', p' = set_reserves rs' p /\
    remapped (fun a r => if decide (a ∈ assets) then r + (if decide (a = ain) then x else 0) - y else r)
      (reserves p) rs' /\
    forall a r, a ∈ assets -> bt_get a (reserves p) = Some r -> y <= r + (if decide (a = ain) then x else 0).
Proof.
  induction assets as [|a assets IH]; intros p p' Hs Hnd; cbn [update_reserves_sell].
  { intros [= <-]. exists (reserves p). split; [by destruct p|]. split; [|by intros ?? ?%elem_of_nil].
    eapply remapped_ext; [|by apply remapped_refl]. intros. by rewrite decide_False by apply not_elem_of_nil. }
  apply NoDup_cons in Hnd as [Hna Hnd]. intros (p1 & Hp1 & Hp)%result_bind_ok.
  apply result_bind_ok in Hp as (p2 & Hp2 & Hp).
  assert (H2 : exists r, bt_get a (reserves p) = Some r /\ y <= r + (if decide (a = ain) then x else 0) /\
    p2 = set_reserves (bt_insert a (r + (if decide (a = ain) then x else 0) - y) (reserves p)) p).
  { case_decide.
    - apply increase_ok in Hp1 as (r & Hr & ->). apply decrease_ok in Hp2 as (r2 & Hr2 & Hle & ->). cbn in Hr2.
      rewrite bt_get_insert in Hr2. injection Hr2 as <-. exists r. split_and!; [done..|].
      unfold set_reserves; cbn. f_equal. apply bt_insert_insert.
    - injection Hp1 as <-. apply decrease_ok in Hp2 as (r & Hr & Hle & ->). exists r. by rewrite Z.add_0_r. }
  destruct H2 as (r & Hr & Hle & ->).
  apply IH in Hp as (rs' & -> & Hre & Hall); [|by apply bt_insert_sorted|done].
  exists rs'. split; [done|]. split.
  - eapply remapped_step; [done|exact Hr|exact Hre| |].
    + cbn. by rewrite (decide_True (P := a ∈ a :: assets)), (decide_False (P := a ∈ assets)) by (done || by left).
    + cbn. intros b z Hb. by rewrite (decide_cons_ne b a assets) by done.
  - intros b z [->|Hb]%elem_of_cons Hz; [by simplify_eq|]. apply (Hall b z Hb). cbn.
    by rewrite bt_get_insert_ne by (done || congruence).
Qed.

(** ** The invariant *)

(** The errors the router takes for "nothing traded". *)
Definition soft (e : DispatchError) : Prop := exists n, e = neo_error (NumericalLimits n).

Class NeoLaws `{NeoSwapsConfig} : Prop := {
  neo_ledger :: MultiCurrencyLaws Assets;
  distribute_nonneg : forall m a x v l, 0 <= (distribute m a x v l).1;
  distribute_debit : forall m a x v l,
    minimum_balance a <= mc_free_balance a x l - (distribute m a x v l).1 ->
    mc_free_balance a x l - (distribute m a x v l).1 <= mc_free_balance a x (distribute m a x v l).2;
  distribute_others : forall m a x v l b w, (b, w) <> (a, x) ->
    mc_free_balance b w l <= mc_free_balance b w (distribute m a x v l).2;
  distribute_assets : forall m a x v l b w, b <> a ->
    mc_free_balance b w (distribute m a x v l).2 = mc_free_balance b w l;
  pool_account_inj : forall m m', pool_account_id m = pool_account_id m' -> m = m';
  pool_not_market : forall m m', pool_account_id m <> market_account m';
  (** the errors of the asset manager are not those of this pallet *)
  transfer_hard : forall a x y v l e l', mc_transfer a x y v l = (Err e, l') -> ~ soft e;
  deposit_hard : forall a x v l e l', mc_deposit a x v l = (Err e, l') -> ~ soft e }.

Section Backed.
Context `{NeoLaws}.
Abbreviation bal := mc_free_balance.

(** What a pool's account may lack of each outcome, by market: dust swept from
    it, and complete sets burnt by sells the pallet did not record. *)
Abbreviation Loss := (Z -> Asset -> Z).
(** After another [v] of each outcome of market [m], and dust, went missing. *)
Definition lost (m v : Z) (k : Loss) : Loss := fun m' a => k m' a + (if decide (m' = m) then v + dust a else 0).

Record pool_ok (k : Asset -> Z) (m : Z) (mk : Market) (p : Pool) (l : Assets) : Prop := {
  po_account : account_id p = pool_account_id m;
  po_sorted : bt_sorted (reserves p);
  po_keys : bt_keys (reserves p) = outcome_assets mk;
  po_collateral : collateral p = base_asset mk;
  po_swap_fee : MIN_SWAP_FEE <= swap_fee p;
  po_backed : forall a r, bt_get a (reserves p) = Some r -> 0 <= r <= bal a (account_id p) l + k a;
  po_tree : wf MaxLiquidityTreeDepth (liquidity_shares_manager p);
  po_fees : minimum_balance (collateral p) + total_fees (liquidity_shares_manager p)
              <= bal (collateral p) (account_id p) l }.

Record ns_inv (k : Loss) (s : NsState) : Prop := {
  ni_pools : forall m p, Pools s !! m = Some p ->
    exists mk, market (ns_commons s) m = Ok mk /\ pool_ok (k m) m mk p (ns_assets s);
  (** no market trades its own base asset *)
  ni_markets : forall m mk, market (ns_commons s) m = Ok mk -> base_asset mk ∉ outcome_assets mk;
  ni_loss : forall m a, 0 <= k m a }.

Lemma ns_inv_mono (k k' : Loss) s : (forall m a, k m a <= k' m a) -> ns_inv k s -> ns_inv k' s.
Proof.
  intros Hk [Hp Hm Hl]. split; [|done|intros m a; etransitivity; [apply Hl|apply Hk]].
  intros m p (mk & Hmk & [Ha Hs Hky Hc Hf Hb Ht Hfe])%Hp. exists mk. split; [done|]. split; try done.
  intros a r Hr. specialize (Hb a r Hr). specialize (Hk m a). lia.
Qed.

Lemma lost_ge m v k m' a : 0 <= v -> k m' a <= lost m v k m' a.
Proof. unfold lost. pose proof (dust_nonneg a). case_decide; lia. Qed.
Lemma lost_here m v k a : lost m v k m a = k m a + v + dust a.
Proof. unfold lost. rewrite decide_True by done. lia. Qed.

(** Balances of accounts outside [P] did not shrink. *)
Definition quiet (P : AccountId -> Prop) (l l' : Assets) : Prop :=
  forall b w, ~ P w -> bal b w l <= bal b w l'.
Lemma quiet_refl P l : quiet P l l.
Proof. intros b w _. lia. Qed.
Lemma quiet_trans P l1 l2 l3 : quiet P l1 l2 -> quiet P l2 l3 -> quiet P l1 l3.
Proof. intros H12 H23 b w Hw. specialize (H12 b w Hw). specialize (H23 b w Hw). lia. Qed.

(** A pool nobody touched stays as it was. *)
Lemma pool_ok_quiet (k k' : Asset -> Z) P m mk p l l' : pool_ok k m mk p l -> (forall a, k a <= k' a) -> quiet P l l' ->
  ~ P (pool_account_id m) -> pool_ok k' m mk p l'.
Proof.
  intros [Ha Hs Hk Hc Hf Hb Ht Hfe] Hkk Hq HP. rewrite <- Ha in HP. split; try done.
  - intros a r Hr. pose proof (Hb a r Hr). pose proof (Hq a _ HP). specialize (Hkk a). lia.
  - pose proof (Hq (collateral p) _ HP). lia.
Qed.

(** Whoever a call on the pool of [m] by [who] may debit. *)
Definition touched (who : AccountId) (m : Z) (w : AccountId) : Prop :=
  w = who \/ w = pool_account_id m \/ w = market_account m.

(** Writing one pool back. *)
Lemma ns_inv_update (k k' : Loss) s s' m who (p' : option Pool) :
  ns_inv k s -> (forall m' a, k m' a <= k' m' a) -> (forall m', who <> pool_account_id m') -> ns_commons s' = ns_commons s ->
  Pools s' = partial_alter (fun _ => p') m (Pools s) ->
  quiet (touched who m) (ns_assets s) (ns_assets s') ->
  (forall p, p' = Some p -> exists mk, market (ns_commons s) m = Ok mk /\ pool_ok (k' m) m mk p (ns_assets s')) ->
  ns_inv k' s'.
Proof.
  intros [Hp Hm Hk] Hkk Hwho Hc HP Hq Hp'. split; rewrite ?Hc; [|done|intros m' a; etransitivity; [apply Hk|apply Hkk]].
  intros m' p. rewrite HP. destruct (decide (m' = m)) as [->|Hne].
  - rewrite lookup_partial_alter_eq. apply Hp'.
  - rewrite lookup_partial_alter_ne by done. intros (mk & Hmk & Hok)%Hp. exists mk. split; [done|].
    eapply pool_ok_quiet; [exact Hok|apply Hkk|exact Hq|]. intros [Hx|[Hx|Hx]].
    + by apply (Hwho m').
    + by apply pool_account_inj in Hx.
    + by apply pool_not_market in Hx.
Qed.

(** A failed trade leaves every pool on record as it was. *)
Lemma ns_inv_unwritten (k k' : Loss) s s' m who mk p :
  ns_inv k s -> (forall m' a, k m' a <= k' m' a) -> (forall m', who <> pool_account_id m') -> ns_commons s' = ns_commons s ->
  Pools s' = Pools s -> Pools s !! m = Some p -> quiet (touched who m) (ns_assets s) (ns_assets s') ->
  market (ns_commons s) m = Ok mk -> pool_ok (k' m) m mk p (ns_assets s') -> ns_inv k' s'.
Proof.
  intros HI Hkk Hwho Hc HP Hp Hq Hmk Hok. eapply (ns_inv_update k k' s s' m who (Some p)); try done.
  - rewrite HP. change (Pools s = <[m := p]> (Pools s)). by rewrite insert_id.
  - intros q [= <-]. eauto.
Qed.

(** ** Steps of the operations *)

Definition with_assets (l : Assets) (s : NsState) : NsState := set_sets (set_cs_assets l (sets s)) s.

Lemma on_ledger_ok {A} (m : ST DispatchError Assets A) s a s' :
  on_ledger m s = (Ok a, s') -> exists l, m (ns_assets s) = (Ok a, l) /\ s' = with_assets l s.
Proof. unfold on_ledger. destruct (m (ns_assets s)) as [r l]. intros [= -> <-]. by exists l. Qed.
Lemma on_sets_ok {A} (m : ST DispatchError (CsState Assets) A) s a s' :
  on_sets m s = (Ok a, s') -> exists c, m (sets s) = (Ok a, c) /\ s' = set_sets c s.
Proof. unfold on_sets. destruct (m (sets s)) as [r c]. intros [= -> <-]. by exists c. Qed.
Lemma on_tree_ok {A} (m : ST DispatchError LiquidityTree A) p a p' :
  on_tree m p = Ok (a, p') -> exists t, m (liquidity_shares_manager p) = (Ok a, t) /\ p' = set_liquidity_shares_manager t p.
Proof.
  unfold on_tree. destruct (m _) as [r t]. intros (x & -> & [= <- <-])%result_bind_ok. by exists t.
Qed.

Lemma try_mutate_ok {R} m (f : Pool -> ST DispatchError NsState (R * Pool)) s r s' :
  try_mutate_pool m f s = (Ok r, s') ->
  exists p p' s1, Pools s !! m = Some p /\ f p s = (Ok (r, p'), s1) /\
    s' = set_Pools (<[m := p']> (Pools s1)) s1.
Proof.
  unfold try_mutate_pool. intros (s0 & s1 & [-> ->]%get_ok & Hr)%bind_ok.
  apply bind_ok in Hr as (p & s1 & [Hp%ok_or_ok ->]%lift_ok & Hr).
  apply bind_ok in Hr as ([r0 p'] & s1 & Hf & Hr).
  apply bind_ok in Hr as (u & s2 & [_ ->]%modify_ok & [-> ->]%mret_ok). by exists p, p', s1.
Qed.

Lemma bmul_nonneg x y r : 0 <= x -> 0 <= y -> bmul 128 x y = Ok r -> fits 128 r.
Proof.
  intros Hx Hy (_ & Hle & ->)%bmul_ok. pose proof BASE_pos. assert (0 <= BASE / 2) by (vm_compute; discriminate).
  assert (0 <= x * y) by nia. split; [apply Z.div_pos; lia|]. transitivity (x * y + BASE / 2); [|done].
  apply Z.div_le_upper_bound; nia.
Qed.

Record fees_taken (m : Z) (p : Pool) (x : Z) (s : NsState) (f : FeeDistribution) (p' : Pool) (s' : NsState) : Prop := {
  ft_state : s' = with_assets (distribute m (collateral p) (account_id p) x (ns_assets s)).2 s;
  ft_external : external_fees f = (distribute m (collateral p) (account_id p) x (ns_assets s)).1;
  ft_remaining : 0 <= fee_remaining f /\ fee_remaining f = x - external_fees f - swap_fees f;
  ft_swap : 0 <= swap_fees f;
  ft_tree : exists t, p' = set_liquidity_shares_manager t p /\ wf MaxLiquidityTreeDepth t /\
    total_fees t = total_fees (liquidity_shares_manager p) + swap_fees f }.

Lemma distribute_fees_ok m p x s f p' s' :
  0 <= x -> wf MaxLiquidityTreeDepth (liquidity_shares_manager p) -> MIN_SWAP_FEE <= swap_fee p ->
  distribute_fees m p x s = (Ok (f, p'), s') -> fees_taken m p x s f p' s'.
Proof.
  intros Hx Hwf Hfee. unfold distribute_fees. intros (sw & s1 & [Hsw ->]%lift_ok & Hr)%bind_ok.
  assert (Hmin : 1 <= MIN_SWAP_FEE) by (vm_compute; discriminate).
  assert (Hxm : x < umax 128).
  { apply bmul_ok in Hsw as (_ & Hle & _). assert (1 <= BASE / 2) by (vm_compute; discriminate). nia. }
  apply bmul_nonneg in Hsw; [|lia|done].
  apply bind_ok in Hr as ([u p1] & s1 & [(t & Ht & ->)%on_tree_ok ->]%lift_ok & Hr).
  apply (deposit_ok MaxLiquidityTreeDepth) in Ht as (Hwf' & Htot & _); [|done..].
  apply bind_ok in Hr as (s0 & s1 & [-> ->]%get_ok & Hr). cbn in Hr.
  pose proof (distribute_nonneg m (collateral p) (account_id p) x (ns_assets s)) as Hn.
  destruct (distribute m (collateral p) (account_id p) x (ns_assets s)) as [ext l] eqn:Hd. cbn in Hn.
  apply bind_ok in Hr as (u1 & s1 & [_ ->]%modify_ok & Hr).
  apply bind_ok in Hr as (rem & s1 & [Hrem%ok_or_ok ->]%lift_ok & [[= -> ->] ->]%mret_ok).
  apply checked_sub_some in Hrem as [-> Hle]. unfold saturating_add in *. destruct Hsw as [Hsw _].
  split; cbn; rewrite ?Hd; try done; [lia|]. by exists t.
Qed.

(** ** Trades *)

(** The balances a fee distribution leaves the pool with. *)
Lemma fees_taken_balances m p x s f p' s' :
  fees_taken m p x s f p' s' ->
  minimum_balance (collateral p) <= bal (collateral p) (account_id p) (ns_assets s) - external_fees f ->
  bal (collateral p) (account_id p) (ns_assets s) - external_fees f <= bal (collateral p) (account_id p) (ns_assets s') /\
  (forall b w, (b, w) <> (collateral p, account_id p) -> bal b w (ns_assets s) <= bal b w (ns_assets s')) /\
  forall b w, b <> collateral p -> bal b w (ns_assets s') = bal b w (ns_assets s).
Proof.
  intros [-> Hext _ _ _] Hmin. rewrite Hext in *. split_and!; [by apply distribute_debit|..].
  - intros b w Hne. by apply distribute_others.
  - intros b w Hne. by apply distribute_assets.
Qed.

(** Fees of [x] out of collateral the pool has just received. *)
Lemma fees_from_income k m mk p x l0 s f p1 s2 :
  pool_ok k m mk p l0 -> 0 <= x ->
  bal (collateral p) (account_id p) l0 + x <= bal (collateral p) (account_id p) (ns_assets s) ->
  distribute_fees m p x s = (Ok (f, p1), s2) ->
  (exists t, p1 = set_liquidity_shares_manager t p /\ wf MaxLiquidityTreeDepth t /\
     total_fees t = total_fees (liquidity_shares_manager p) + swap_fees f) /\
  0 <= fee_remaining f /\ 0 <= swap_fees f /\
  bal (collateral p) (account_id p) l0 + fee_remaining f + swap_fees f
    <= bal (collateral p) (account_id p) (ns_assets s2) /\
  (forall b w, (b, w) <> (collateral p, account_id p) -> bal b w (ns_assets s) <= bal b w (ns_assets s2)) /\
  (forall b w, b <> collateral p -> bal b w (ns_assets s2) = bal b w (ns_assets s)) /\
  exists l, s2 = with_assets l s.
Proof.
  intros Hok Hx Hin Hf. apply distribute_fees_ok in Hf as Hf; [|done|apply Hok|apply Hok].
  destruct (ft_remaining _ _ _ _ _ _ _ Hf) as [Hrem Hreq]. pose proof (ft_swap _ _ _ _ _ _ _ Hf) as Hsw.
  pose proof (wf_fees_nonneg _ _ (po_tree _ _ _ _ _ Hok)). pose proof (po_fees _ _ _ _ _ Hok).
  destruct (fees_taken_balances _ _ _ _ _ _ _ Hf) as (Hc & Ho & Ha); [lia|].
  split_and!; [apply Hf|done|done|lia|done|done|]. eexists. apply Hf.
Qed.

(** A pool whose balances follow its reserves. *)
Lemma pool_ok_moved (k k' : Asset -> Z) m mk p l l' (g : Asset -> Z -> Z) rs t :
  pool_ok k m mk p l -> remapped g (reserves p) rs -> wf MaxLiquidityTreeDepth t ->
  (forall a r, a ∈ outcome_assets mk -> bt_get a (reserves p) = Some r -> r <= bal a (account_id p) l + k a ->
     0 <= g a r <= bal a (account_id p) l' + k' a) ->
  minimum_balance (collateral p) + total_fees t <= bal (collateral p) (account_id p) l' ->
  pool_ok k' m mk (set_reserves rs (set_liquidity_shares_manager t p)) l'.
Proof.
  intros [Ha Hs Hk Hc Hfee Hb Ht Hfe] (Hsrt & Hkeys & Hget) Hwf Hg Hmin. split; cbn; try done; [by rewrite Hkeys|].
  intros a r' (r & Hr & ->)%Hget. apply Hg; [rewrite <- Hk; by eapply bt_get_key|done|by apply Hb].
Qed.

Lemma pool_ok_same (k k' : Asset -> Z) m mk p l l' : pool_ok k m mk p l ->
  (forall a r, a ∈ outcome_assets mk -> bt_get a (reserves p) = Some r -> bal a (account_id p) l + k a <= bal a (account_id p) l' + k' a) ->
  bal (collateral p) (account_id p) l <= bal (collateral p) (account_id p) l' -> pool_ok k' m mk p l'.
Proof.
  intros [Ha Hs Hk Hc Hfee Hb Ht Hfe] Hg Hle. split; try done; [|lia]. intros a r Hr. specialize (Hb a r Hr).
  specialize (Hg a r ltac:(rewrite <- Hk; by eapply bt_get_key) Hr). lia.
Qed.

(** Everything an operation reads of the pool of [m] in a state of a run. *)
Lemma pool_facts k s m p : ns_inv k s -> Pools s !! m = Some p ->
  exists mk, market (ns_commons s) m = Ok mk /\ pool_ok (k m) m mk p (ns_assets s) /\
    base_asset mk ∉ outcome_assets mk /\ collateral p = base_asset mk /\
    0 <= total_fees (liquidity_shares_manager p) /\ account_id p = pool_account_id m /\ account_id p <> market_account m.
Proof.
  intros HI Hp. destruct (ni_pools _ _ HI m p Hp) as (mk & Hmk & Hok). exists mk.
  split_and!; [done|done|by apply (ni_markets _ _ HI m)|apply Hok|eapply wf_fees_nonneg; apply Hok|apply Hok|].
  rewrite (po_account _ _ _ _ _ Hok). apply pool_not_market.
Qed.

(** *** Buying *)

(** The buyer's payment of [x] and the fees taken from it. *)
Record paid_in (who : AccountId) (m x : Z) (s : NsState) (p : Pool) (f : FeeDistribution) (p1 : Pool) (s2 : NsState) : Prop := {
  pi_pool : Pools s !! m = Some p;
  pi_moves : exists l1, mc_transfer (collateral p) who (account_id p) x (ns_assets s) = (Ok tt, l1) /\
    distribute_fees m p x (with_assets l1 s) = (Ok (f, p1), s2) }.

(** ... after which the pool's account has the rest and the swap fees more. *)
Lemma paid_in_effect k who m mk x s p f p1 s2 :
  ns_inv k s -> (forall m', who <> pool_account_id m') -> 0 <= x -> market (ns_commons s) m = Ok mk ->
  pool_ok (k m) m mk p (ns_assets s) -> paid_in who m x s p f p1 s2 ->
  (exists l, s2 = with_assets l s) /\ quiet (touched who m) (ns_assets s) (ns_assets s2) /\
  (exists t, p1 = set_liquidity_shares_manager t p /\ wf MaxLiquidityTreeDepth t /\
     total_fees t = total_fees (liquidity_shares_manager p) + swap_fees f) /\ 0 <= fee_remaining f /\ 0 <= swap_fees f /\
  bal (collateral p) (account_id p) (ns_assets s) + fee_remaining f + swap_fees f <= bal (collateral p) (account_id p) (ns_assets s2) /\
  forall b w, b <> collateral p -> bal b w (ns_assets s2) = bal b w (ns_assets s).
Proof.
  intros HI Hwho Hx Hmk Hok [Hp (l1 & Ht1 & Hfees)].
  assert (Hwa : who <> account_id p) by (rewrite (po_account _ _ _ _ _ Hok); apply Hwho).
  destruct (transfer_credit _ _ _ _ _ _ _ Hx Ht1 Hwa) as [_ Hc1].
  eapply fees_from_income in Hfees as (Htree & Hrem & Hsw & Hc2 & Ho2 & Ha2 & l2 & ->); [|done|done|cbn; lia].
  change (ns_assets (with_assets l1 s)) with l1 in *. split_and!; try done; [by exists l2|..].
  - unfold touched. rewrite <- (po_account _ _ _ _ _ Hok). intros b w Hw.
    assert (w <> who /\ w <> account_id p) as [? ?] by tauto.
    pose proof (transfer_others _ _ _ _ _ _ _ b w Hx Ht1 ltac:(congruence)). specialize (Ho2 b w ltac:(congruence)). lia.
  - intros b w Hne. rewrite (Ha2 b w Hne). exact (transfer_assets _ _ _ _ _ _ _ b w Ht1 Hne).
Qed.

(** A successful buy. *)
Lemma do_buy_run who m out x y s tr s' : do_buy who m out x y s = (Ok tr, s') ->
  exists p f p1 s2 so cs l4 p2, paid_in who m x s p f p1 s2 /\ amm_amount_in tr = x /\
    is_Some (bt_get out (reserves p)) /\ pool_swap_amount_out_for_buy p1 out (fee_remaining f) = Ok so /\
    do_buy_complete_set (account_id p1) m (fee_remaining f) (sets s2) = (Ok tt, cs) /\
    mc_transfer out (account_id p1) who (so + fee_remaining f) (cs_assets cs) = (Ok tt, l4) /\
    update_reserves_buy (assets_of p1) out (fee_remaining f) (so + fee_remaining f) p1 = Ok p2 /\
    Pools s' = <[m := p2]> (Pools s2) /\ sets s' = set_cs_assets l4 cs.
Proof.
  unfold do_buy. intros (u1 & s1 & [_ ->]%lift_ok & Hr)%bind_ok.
  apply bind_ok in Hr as (s0 & s1 & [-> ->]%get_ok & Hr).
  do 2 apply bind_ok in Hr as (? & s1 & [_ ->]%lift_ok & Hr).
  apply try_mutate_ok in Hr as (p & p' & s1 & Hp & Hr & ->).
  apply bind_ok in Hr as (u3 & s2 & [Hcont%ensure_ok%bool_decide_eq_true ->]%lift_ok & Hr).
  apply bind_ok in Hr as ([] & s2 & (l1 & Ht1 & ->)%on_ledger_ok & Hr).
  apply bind_ok in Hr as ([f p1] & s2 & Hfees & Hr).
  do 3 apply bind_ok in Hr as (? & s3 & [_ ->]%lift_ok & Hr).
  apply bind_ok in Hr as (so & s3 & [Hso ->]%lift_ok & Hr).
  apply bind_ok in Hr as (ao & s3 & [[-> _]%checked_add_res_ok ->]%lift_ok & Hr).
  apply bind_ok in Hr as (u6 & s3 & [_ ->]%lift_ok & Hr).
  apply bind_ok in Hr as ([] & s3 & (cs & Hset & ->)%on_sets_ok & Hr).
  apply bind_ok in Hr as ([] & s3 & (l4 & Ht4 & ->)%on_ledger_ok & Hr).
  apply bind_ok in Hr as (p2 & s3 & [Hup ->]%lift_ok & Hr).
  apply bind_ok in Hr as (u9 & s3 & [_ ->]%modify_ok & [[= -> ->] ->]%mret_ok).
  exists p, f, p1, s2, so, cs, l4, p2. split_and!; try done. split; [done|by exists l1].
Qed.

Lemma do_buy_inv k who m out x y s tr s' :
  ns_inv k s -> (forall m', who <> pool_account_id m') -> 0 <= x -> do_buy who m out x y s = (Ok tr, s') ->
  ns_inv (lost m 0 k) s' /\ amm_amount_in tr = x.
Proof.
  intros HI Hwho Hx (p & f & p1 & s2 & so & cs & l4 & p2 & Hpi & Htr & [r0 Hcont%bt_get_key] & Hso & Hset & Ht4 & Hup & HP & Hs)%do_buy_run.
  destruct (pool_facts _ _ _ _ HI (pi_pool _ _ _ _ _ _ _ _ Hpi)) as (mk & Hmk & Hok & Hbase & Hc & Htf & Hacc & _).
  assert (Hwa : who <> account_id p) by (rewrite Hacc; apply Hwho). rewrite (po_keys _ _ _ _ _ Hok) in Hcont.
  destruct (paid_in_effect _ _ _ _ _ _ _ _ _ _ HI Hwho Hx Hmk Hok Hpi) as ([l2 ->] & Hq2 & (t & -> & Hwf & Htot) & Hrem & Hsw & Hc2 & Ha2).
  change (ns_assets (with_assets l2 _)) with l2 in *. cbn [account_id set_liquidity_shares_manager] in *.
  apply result_bind_ok in Hso as (r & _ & [Hso _]%buy_out_fits).
  apply buy_set_ok in Hset as (mk2 & Hmk2 & _ & Hcc & _ & Ho3 & Hc3 & Hin3); [|done].
  change (cs_commons (sets _)) with (ns_commons s) in Hmk2, Hcc. rewrite Hmk in Hmk2. injection Hmk2 as <-.
  rewrite <- Hc in Ho3, Hc3. specialize (Hin3 Hbase). change (cs_assets (sets _)) with l2 in *.
  pose proof (po_fees _ _ _ _ _ Hok). specialize (Hc3 ltac:(right; lia)).
  change (assets_of (set_liquidity_shares_manager t p)) with (bt_keys (reserves p)) in Hup.
  rewrite (po_keys _ _ _ _ _ Hok) in Hup.
  apply update_buy_ok in Hup as (rs & -> & Hrs & Hout); [|apply Hok|apply outcome_assets_nodup].
  assert (Hao : 0 <= so + fee_remaining f) by lia.
  pose proof (fun b w => transfer_others _ _ _ _ _ _ _ b w Hao Ht4) as Ho4.
  assert (HA : ns_assets s' = l4) by (unfold ns_assets; by rewrite Hs).
  split; [|done]. eapply (ns_inv_update k _ s _ m who (Some _)); [done|intros; by apply lost_ge|done| |exact HP| |].
  - unfold ns_commons. rewrite Hs. exact Hcc.
  - rewrite HA. eapply quiet_trans; [exact Hq2|]. unfold touched. rewrite <- Hacc. intros b w Hw.
    assert (w <> who /\ w <> account_id p) as [? ?] by tauto.
    specialize (Ho3 b w ltac:(congruence)). specialize (Ho4 b w ltac:(congruence)). lia.
  - intros q [= <-]. exists mk. split; [done|]. rewrite HA. eapply pool_ok_moved; [exact Hok|exact Hrs|exact Hwf| |].
    + intros a r1 Hin Hr1 Hb1. cbv beta. rewrite decide_True, lost_here by done.
      pose proof (po_backed _ _ _ _ _ Hok a r1 Hr1). specialize (Hin3 a Hin). pose proof (dust_nonneg a).
      rewrite (Ha2 a (account_id p) ltac:(rewrite Hc; congruence)) in Hin3. destruct (decide (a = out)) as [->|Hne].
      * specialize (Hout out r1 Hin Hr1 eq_refl). split; [lia|]. pose proof (transfer_lower_dust _ _ _ _ _ _ _ Hao Ht4). lia.
      * specialize (Ho4 a (account_id p) ltac:(congruence)). lia.
    + specialize (Ho4 (collateral p) (account_id p) ltac:(intros [= Hx1]; rewrite Hc in Hx1; congruence)). lia.
Qed.

(** *** Which failures are soft *)

Definition hard (e : DispatchError) : Prop := ~ soft e.
#[local] Hint Extern 1 (hard _) => (by intros [? ?]) : raises.
#[local] Hint Extern 1 (hard _) => (by intros [? ?]) : core.

Lemma hard_add w x y : raises hard (checked_add_res w x y).
Proof. apply raises_ok_or. auto. Qed.
Lemma hard_mul w x y : raises hard (checked_mul_res w x y).
Proof. apply raises_ok_or. auto. Qed.
Lemma hard_div x y : raises hard (checked_div_res x y).
Proof. apply raises_ok_or. auto. Qed.
Lemma hard_base : raises hard (PredictionMarketBase_get 128).
Proof. unfold PredictionMarketBase_get. case_match; [apply raises_ok|by intros e [= <-] [? ?]]. Qed.
#[local] Hint Resolve hard_add hard_mul hard_div hard_base : raises.
Lemma hard_bmul x y : raises hard (bmul 128 x y).
Proof. unfold bmul. raises_tac. Qed.
Lemma hard_tree x p : raises hard (on_tree (deposit_fees x) p).
Proof.
  unfold on_tree. destruct (deposit_fees x _) as [r t] eqn:E. apply raises_bind; [|intros ?; apply raises_ok].
  intros e ->. unfold deposit_fees, mutate_node in E. destruct (nodes _ !! _) as [n|]; [|injection E as <- _; auto].
  unfold mbind, st_bind, get, lift in E. destruct (checked_add_res 128 (lazy_fees n) x) as [z|e'] eqn:Ez; [discriminate E|].
  injection E as <- _. by eapply hard_add.
Qed.
#[local] Hint Resolve hard_bmul hard_tree : raises.

Lemma hard_fees m p x : st_raises hard (distribute_fees m p x).
Proof.
  unfold distribute_fees. apply st_raises_bind; [apply st_raises_lift, hard_bmul|intros sw].
  apply st_raises_bind; [apply st_raises_lift, hard_tree|intros [u p1]]. apply st_raises_bind; [apply st_raises_get|intros s].
  destruct (distribute _ _ _ _ _) as [ext l]. raises_tac; auto.
Qed.
Lemma hard_reserve p a : raises hard (reserve_of p a).
Proof. apply raises_ok_or. auto. Qed.
#[local] Hint Resolve hard_fees hard_reserve : raises.
Lemma hard_prices p a x : raises hard (pool_buy_ln_argument p a x) /\ raises hard (pool_swap_amount_out_for_buy p a x) /\
  raises hard (pool_swap_amount_out_for_sell p a x).
Proof. split_and!; (apply raises_bind; [apply hard_reserve|intros r; apply raises_ok_or; auto]). Qed.
Lemma hard_transfer a x y v : st_raises hard (on_ledger (mc_transfer a x y v)).
Proof.
  intros s e s'. unfold on_ledger. destruct (mc_transfer _ _ _ _ _) as [r l] eqn:E. intros [= -> _]. by eapply transfer_hard.
Qed.
#[local] Hint Resolve hard_transfer : raises.

Lemma hard_set_assets {A} (f : ST DispatchError Assets A) : st_raises hard f -> st_raises hard (on_set_assets f).
Proof. intros Hf s e s'. unfold on_set_assets. destruct (f _) as [r l] eqn:E. intros [= -> _]. by eapply Hf. Qed.
Lemma hard_sets {A} (f : ST DispatchError (CsState Assets) A) : st_raises hard f -> st_raises hard (on_sets f).
Proof. intros Hf s e s'. unfold on_sets. destruct (f _) as [r l] eqn:E. intros [= -> _]. by eapply Hf. Qed.
Lemma hard_buy_set w m v : st_raises hard (on_sets (do_buy_complete_set w m v)).
Proof.
  apply hard_sets. unfold do_buy_complete_set, deposit_set_event, ensure_market_is_active, market. raises_tac; auto.
  - apply hard_set_assets. intros s e s'. apply transfer_hard.
  - apply hard_set_assets. intros s e s'. apply deposit_hard.
Qed.
Lemma hard_sell_set w m v : st_raises hard (on_sets (do_sell_complete_set w m v)).
Proof.
  apply hard_sets. unfold do_sell_complete_set, deposit_set_event, slash_outcome, market. raises_tac; auto.
  apply hard_set_assets. intros s e s'. apply transfer_hard.
Qed.
#[local] Hint Resolve hard_buy_set hard_sell_set : raises.
Lemma hard_adjust a v p : raises hard (increase_reserve a v p) /\ raises hard (decrease_reserve a v p).
Proof. split; unfold increase_reserve, decrease_reserve; raises_tac; auto. Qed.
Lemma hard_update_buy assets a x y : forall p, raises hard (update_reserves_buy assets a x y p).
Proof.
  induction assets as [|b assets IH]; intros p; cbn [update_reserves_buy]; [apply raises_ok|].
  apply raises_bind; [apply hard_adjust|intros p1]. apply raises_bind; [case_decide; [apply hard_adjust|apply raises_ok]|done].
Qed.
Lemma hard_update_sell assets a x y : forall p, raises hard (update_reserves_sell assets a x y p).
Proof.
  induction assets as [|b assets IH]; intros p; cbn [update_reserves_sell]; [apply raises_ok|].
  apply raises_bind; [case_decide; [apply hard_adjust|apply raises_ok]|intros p1]. apply raises_bind; [apply hard_adjust|done].
Qed.

Lemma try_mutate_soft {R} m (f : Pool -> ST DispatchError NsState (R * Pool)) s e s' : soft e ->
  try_mutate_pool m f s = (Err e, s') -> exists p, Pools s !! m = Some p /\ f p s = (Err e, s').
Proof.
  intros Hs [Hr|(s0 & s1 & [-> ->]%get_ok & Hr)]%bind_err; [discriminate Hr|].
  apply bind_err in Hr as [[->%ok_or_err _]%lift_err|(p & s1 & [Hp%ok_or_ok ->]%lift_ok & Hr)]; [by destruct Hs|].
  exists p. split; [done|]. apply bind_err in Hr as [Hr|([r p'] & s1 & _ & Hr)]; [done|].
  apply bind_err in Hr as [Hr|(u & s2 & _ & Hr)]; discriminate Hr.
Qed.

(** One [?] of a softly failing call: it did not fail here. *)
Lemma soft_bind {A B} (m : ST DispatchError NsState A) (f : A -> ST DispatchError NsState B) s e s' : soft e -> st_raises hard m ->
  (m ≫= f) s = (Err e, s') -> exists a s1, m s = (Ok a, s1) /\ f a s1 = (Err e, s').
Proof. intros Hs Hm [Hr|Hr]%bind_err; [by apply Hm in Hr|done]. Qed.

(** A buy that fails softly has taken the payment and the fees. *)
Lemma do_buy_soft who m out x y s e s' : soft e -> do_buy who m out x y s = (Err e, s') ->
  exists p f p1, paid_in who m x s p f p1 s'.
Proof.
  intros Hs Hr. unfold do_buy in Hr.
  apply soft_bind in Hr as (u1 & s1 & [_ ->]%lift_ok & Hr); [|done|raises_tac; auto].
  apply soft_bind in Hr as (s0 & s1 & [-> ->]%get_ok & Hr); [|done|raises_tac].
  apply soft_bind in Hr as (mk & s1 & [_ ->]%lift_ok & Hr); [|done|unfold market; raises_tac; auto].
  apply soft_bind in Hr as (u2 & s1 & [_ ->]%lift_ok & Hr); [|done|raises_tac; auto].
  apply try_mutate_soft in Hr as (p & Hp & Hr); [|done].
  apply soft_bind in Hr as (u3 & s1 & [_ ->]%lift_ok & Hr); [|done|raises_tac; auto].
  apply soft_bind in Hr as ([] & s1 & (l1 & Ht & ->)%on_ledger_ok & Hr); [|done|apply hard_transfer].
  apply soft_bind in Hr as ([f p1] & s1 & Hfees & Hr); [|done|apply hard_fees].
  assert (Hgoal : paid_in who m x s p f p1 s1) by (split; [done|by exists l1]). exists p, f, p1.
  apply bind_err in Hr as [[_ ->]%lift_err|(u4 & s2 & [_ ->]%lift_ok & Hr)]; [done|].
  apply soft_bind in Hr as (ln & s2 & [_ ->]%lift_ok & Hr); [|done|apply st_raises_lift, hard_prices].
  apply bind_err in Hr as [[_ ->]%lift_err|(u5 & s2 & [_ ->]%lift_ok & Hr)]; [done|]. exfalso.
  apply soft_bind in Hr as (so & s2 & [_ ->]%lift_ok & Hr); [|done|apply st_raises_lift, hard_prices].
  apply soft_bind in Hr as (ao & s2 & [_ ->]%lift_ok & Hr); [|done|apply st_raises_lift, hard_add].
  apply soft_bind in Hr as (u6 & s2 & [_ ->]%lift_ok & Hr); [|done|raises_tac; auto].
  apply soft_bind in Hr as (u7 & s2 & _ & Hr); [|done|apply hard_buy_set].
  apply soft_bind in Hr as (u8 & s3 & _ & Hr); [|done|apply hard_transfer].
  apply soft_bind in Hr as (p2 & s4 & _ & Hr); [|done|apply st_raises_lift, hard_update_buy].
  by apply soft_bind in Hr as (u9 & s5 & _ & Hr).
Qed.

Lemma do_buy_soft_inv k who m out x y s e s' :
  ns_inv k s -> (forall m', who <> pool_account_id m') -> 0 <= x -> soft e -> do_buy who m out x y s = (Err e, s') -> ns_inv k s'.
Proof.
  intros HI Hwho Hx Hs (p & f & p1 & Hpi)%do_buy_soft; [|done].
  destruct (pool_facts _ _ _ _ HI (pi_pool _ _ _ _ _ _ _ _ Hpi)) as (mk & Hmk & Hok & Hbase & Hc & Htf & Hacc & _).
  destruct (paid_in_effect _ _ _ _ _ _ _ _ _ _ HI Hwho Hx Hmk Hok Hpi) as ([l2 ->] & Hq2 & _ & Hrem & Hsw & Hc2 & Ha2).
  eapply (ns_inv_unwritten k k s _ m who mk p); try done; [apply (pi_pool _ _ _ _ _ _ _ _ Hpi)|].
  eapply pool_ok_same; [exact Hok| |lia]. intros a r Hin _. rewrite (Ha2 a) by (rewrite Hc; congruence). lia.
Qed.

(** *** Selling *)

(** The seller's payment of [x], the complete sets sold for it, the fees and the
    payout. *)
Record sold (who : AccountId) (m : Z) (ain : Asset) (x : Z) (s : NsState) (p : Pool) (out : Z) (f : FeeDistribution)
    (p1 : Pool) (s4 : NsState) : Prop := {
  sd_pool : Pools s !! m = Some p;
  sd_in : is_Some (bt_get ain (reserves p));
  sd_out : pool_swap_amount_out_for_sell p ain x = Ok out;
  sd_moves : exists l1 cs s3 l4, mc_transfer ain who (account_id p) x (ns_assets s) = (Ok tt, l1) /\
    do_sell_complete_set (account_id p) m out (sets (with_assets l1 s)) = (Ok tt, cs) /\
    distribute_fees m p out (set_sets cs (with_assets l1 s)) = (Ok (f, p1), s3) /\
    mc_transfer (collateral p) (account_id p) who (fee_remaining f) (ns_assets s3) = (Ok tt, l4) /\ s4 = with_assets l4 s3 }.

Lemma sold_effect k who m mk ain x s p out f p1 s4 :
  ns_inv k s -> (forall m', who <> pool_account_id m') -> 0 <= x -> market (ns_commons s) m = Ok mk ->
  pool_ok (k m) m mk p (ns_assets s) -> sold who m ain x s p out f p1 s4 ->
  0 < out /\ Pools s4 = Pools s /\ ns_commons s4 = ns_commons s /\ quiet (touched who m) (ns_assets s) (ns_assets s4) /\
  (exists t, p1 = set_liquidity_shares_manager t p /\ wf MaxLiquidityTreeDepth t /\
     minimum_balance (collateral p) + total_fees t <= bal (collateral p) (account_id p) (ns_assets s4)) /\
  bal (collateral p) (account_id p) (ns_assets s) <= bal (collateral p) (account_id p) (ns_assets s4) /\
  forall a, a ∈ outcome_assets mk -> let now := bal a (account_id p) (ns_assets s) + (if decide (a = ain) then x else 0) - out in
    now - dust a <= bal a (account_id p) (ns_assets s4) <= now.
Proof.
  intros HI Hwho Hx Hmk Hok [Hp [r0 Hcont%bt_get_key] Hout (l1 & cs & s3 & l4 & Ht1 & Hset & Hfees & Ht4 & ->)].
  destruct (pool_facts _ _ _ _ HI Hp) as (mk' & Hmk' & _ & Hbase & Hc & Htf & Hacc & Hma).
  assert (mk' = mk) as -> by congruence. clear Hmk'. rewrite (po_keys _ _ _ _ _ Hok) in Hcont.
  assert (Hwa : who <> account_id p) by (rewrite Hacc; apply Hwho).
  apply result_bind_ok in Hout as (r & _ & [Hout _]%sell_out_fits).
  destruct (transfer_credit _ _ _ _ _ _ _ Hx Ht1 Hwa) as [_ Hc1].
  pose proof (fun b w => transfer_others _ _ _ _ _ _ _ b w Hx Ht1) as Ho1.
  apply sell_set_ok in Hset as (mk2 & Hmk2 & Hcc & Ho2 & Hoc2 & Hc2 & Hin2 & Hup2); [|done|done].
  change (cs_commons (sets _)) with (ns_commons s) in Hmk2, Hcc. rewrite Hmk in Hmk2. injection Hmk2 as <-.
  change (cs_assets (sets _)) with l1 in *. specialize (Hc2 Hbase). destruct (Hup2 Hbase) as [Hpos Hup3]. rewrite <- Hc in Hc2.
  assert (Hcw : (collateral p, account_id p) <> (ain, who)) by congruence.
  eapply fees_from_income in Hfees as ((t & -> & Hwf & Htot) & Hrem & Hsw & Hc3 & Ho3 & Ha3 & l3 & ->);
    [|exact Hok|done|change (ns_assets (set_sets cs _)) with (cs_assets cs); specialize (Ho1 _ _ Hcw); lia].
  change (ns_assets (with_assets l3 _)) with l3 in *. change (ns_assets (set_sets cs _)) with (cs_assets cs) in *.
  change (ns_assets (with_assets l4 _)) with l4.
  pose proof (po_fees _ _ _ _ _ Hok). pose proof (fun b w => transfer_others _ _ _ _ _ _ _ b w Hrem Ht4) as Ho4.
  pose proof (transfer_lower _ _ _ _ _ _ _ Hrem Ht4 ltac:(right; lia)) as Hc4.
  split_and!; [done|done|exact Hcc| |exists t; split_and!; [done|done|lia]|lia|].
  - unfold touched. rewrite <- Hacc. intros b w Hw. assert (w <> who /\ w <> account_id p /\ w <> market_account m) as (? & ? & ?) by tauto.
    specialize (Ho1 b w ltac:(congruence)). specialize (Ho2 b w ltac:(congruence) ltac:(congruence)).
    specialize (Ho3 b w ltac:(congruence)). specialize (Ho4 b w ltac:(congruence)). lia.
  - intros a Hin now. assert (Hac : a <> collateral p) by (rewrite Hc; congruence).
    rewrite (transfer_assets _ _ _ _ _ _ _ a (account_id p) Ht4 Hac), (Ha3 a (account_id p) Hac).
    specialize (Hin2 a Hin). specialize (Hup3 a Hin). subst now. destruct (decide (a = ain)) as [->|Hne]; [lia|].
    rewrite (transfer_assets _ _ _ _ _ _ _ a (account_id p) Ht1 Hne) in *. lia.
Qed.

Lemma distribute_fees_pool m p x s f p1 s' : distribute_fees m p x s = (Ok (f, p1), s') ->
  account_id p1 = account_id p /\ collateral p1 = collateral p.
Proof.
  unfold distribute_fees. intros (sw & s1 & _ & Hr)%bind_ok.
  apply bind_ok in Hr as ([u p2] & s2 & [(t & _ & ->)%on_tree_ok _]%lift_ok & Hr).
  apply bind_ok in Hr as (s0 & s3 & _ & Hr). destruct (distribute _ _ _ _ _). cbn in Hr.
  apply bind_ok in Hr as (? & s4 & _ & Hr). by apply bind_ok in Hr as (? & s5 & _ & [[= _ ->] _]%mret_ok).
Qed.

(** A successful sell. *)
Lemma do_sell_run who m ain x y s tr s' : do_sell who m ain x y s = (Ok tr, s') ->
  exists p out f p1 s4 p2, sold who m ain x s p out f p1 s4 /\ amm_amount_in tr = x /\
    update_reserves_sell (assets_of p1) ain x out p1 = Ok p2 /\ Pools s' = <[m := p2]> (Pools s4) /\ sets s' = sets s4.
Proof.
  unfold do_sell. intros (u1 & s1 & [_ ->]%lift_ok & Hr)%bind_ok.
  apply bind_ok in Hr as (s0 & s1 & [-> ->]%get_ok & Hr).
  do 2 apply bind_ok in Hr as (? & s1 & [_ ->]%lift_ok & Hr).
  apply try_mutate_ok in Hr as (p & p' & s1 & Hp & Hr & ->).
  apply bind_ok in Hr as (u3 & s2 & [Hcont%ensure_ok%bool_decide_eq_true ->]%lift_ok & Hr).
  do 3 apply bind_ok in Hr as (? & s2 & [_ ->]%lift_ok & Hr).
  apply bind_ok in Hr as (out & s2 & [Hout ->]%lift_ok & Hr).
  apply bind_ok in Hr as ([] & s2 & (l1 & Ht1 & ->)%on_ledger_ok & Hr).
  apply bind_ok in Hr as ([] & s2 & (cs & Hset & ->)%on_sets_ok & Hr).
  apply bind_ok in Hr as ([f p1] & s3 & Hfees & Hr).
  apply bind_ok in Hr as (u7 & s4 & [_ ->]%lift_ok & Hr).
  apply bind_ok in Hr as ([] & s4 & (l4 & Ht4 & ->)%on_ledger_ok & Hr).
  apply bind_ok in Hr as (p2 & s4 & [Hup ->]%lift_ok & Hr).
  do 2 apply bind_ok in Hr as (? & s4 & [_ ->]%lift_ok & Hr).
  apply bind_ok in Hr as (u10 & s4 & [_ ->]%modify_ok & [[= -> ->] ->]%mret_ok).
  destruct (distribute_fees_pool _ _ _ _ _ _ _ Hfees) as [Ea Ec]. rewrite Ea, Ec in Ht4.
  exists p, out, f, p1, (with_assets l4 s3), p2. split_and!; [|done|done|done|done]. split; [done|done|done|]. by exists l1, cs, s3, l4.
Qed.

Lemma do_sell_inv k who m ain x y s tr s' :
  ns_inv k s -> (forall m', who <> pool_account_id m') -> 0 <= x -> do_sell who m ain x y s = (Ok tr, s') ->
  ns_inv (lost m 0 k) s' /\ amm_amount_in tr = x.
Proof.
  intros HI Hwho Hx (p & out & f & p1 & s4 & p2 & Hsd & Htr & Hup & HP & Hs)%do_sell_run.
  destruct (pool_facts _ _ _ _ HI (sd_pool _ _ _ _ _ _ _ _ _ _ Hsd)) as (mk & Hmk & Hok & _).
  destruct (sold_effect _ _ _ _ _ _ _ _ _ _ _ _ HI Hwho Hx Hmk Hok Hsd) as (Hpos & HP4 & Hcc & Hq & (t & -> & Hwf & Hf) & _ & Hin).
  change (assets_of (set_liquidity_shares_manager t p)) with (bt_keys (reserves p)) in Hup. rewrite (po_keys _ _ _ _ _ Hok) in Hup.
  apply update_sell_ok in Hup as (rs & -> & Hrs & Hout); [|apply Hok|apply outcome_assets_nodup].
  assert (HA : ns_assets s' = ns_assets s4) by (unfold ns_assets; by rewrite Hs).
  split; [|done]. rewrite HP4 in HP. eapply (ns_inv_update k _ s _ m who (Some _)); [done|intros; by apply lost_ge|done| |exact HP|by rewrite HA|].
  - unfold ns_commons in *. by rewrite Hs.
  - intros q [= <-]. exists mk. split; [done|]. rewrite HA. eapply pool_ok_moved; [exact Hok|exact Hrs|exact Hwf| |exact Hf].
    intros a r1 Hina Hr1 Hb1. cbv beta. rewrite decide_True, lost_here by done. specialize (Hout a r1 Hina Hr1).
    specialize (Hin a Hina). cbv zeta in Hin. lia.
Qed.

(** A sell that fails softly either did nothing, or it was carried out save for
    the reserves on record. *)
Lemma do_sell_soft who m ain x y s e s' : soft e -> do_sell who m ain x y s = (Err e, s') ->
  (e <> neo_error (NumericalLimits SpotPriceSlippedTooLow) /\ s' = s /\ is_Some (Pools s !! m)) \/
  (e = neo_error (NumericalLimits SpotPriceSlippedTooLow) /\ exists p out f p1, sold who m ain x s p out f p1 s').
Proof.
  intros Hs Hr. unfold do_sell in Hr.
  apply soft_bind in Hr as (u1 & s1 & [_ ->]%lift_ok & Hr); [|done|raises_tac; auto].
  apply soft_bind in Hr as (s0 & s1 & [-> ->]%get_ok & Hr); [|done|raises_tac].
  apply soft_bind in Hr as (mk & s1 & [_ ->]%lift_ok & Hr); [|done|unfold market; raises_tac; auto].
  apply soft_bind in Hr as (u2 & s1 & [_ ->]%lift_ok & Hr); [|done|raises_tac; auto].
  apply try_mutate_soft in Hr as (p & Hp & Hr); [|done].
  apply soft_bind in Hr as (u3 & s1 & [Hcont%ensure_ok%bool_decide_eq_true ->]%lift_ok & Hr); [|done|raises_tac; auto].
  apply soft_bind in Hr as (r & s1 & [_ ->]%lift_ok & Hr); [|done|apply st_raises_lift, hard_reserve].
  apply bind_err in Hr as [[->%ensure_err ->]%lift_err|(u4 & s2 & [_ ->]%lift_ok & Hr)]; [left; by split_and!|].
  apply bind_err in Hr as [[->%ensure_err ->]%lift_err|(u5 & s2 & [_ ->]%lift_ok & Hr)]; [left; by split_and!|]. right.
  apply soft_bind in Hr as (out & s2 & [Hout ->]%lift_ok & Hr); [|done|apply st_raises_lift, hard_prices].
  apply soft_bind in Hr as ([] & s2 & (l1 & Ht1 & ->)%on_ledger_ok & Hr); [|done|apply hard_transfer].
  apply soft_bind in Hr as ([] & s2 & (cs & Hset & ->)%on_sets_ok & Hr); [|done|apply hard_sell_set].
  apply soft_bind in Hr as ([f p1] & s3 & Hfees & Hr); [|done|apply hard_fees].
  destruct (distribute_fees_pool _ _ _ _ _ _ _ Hfees) as [Ea Ec]. rewrite Ea, Ec in Hr.
  apply soft_bind in Hr as (u7 & s4 & [_ ->]%lift_ok & Hr); [|done|raises_tac; auto].
  apply soft_bind in Hr as ([] & s4 & (l4 & Ht4 & ->)%on_ledger_ok & Hr); [|done|apply hard_transfer].
  apply soft_bind in Hr as (p2 & s4 & [_ ->]%lift_ok & Hr); [|done|apply st_raises_lift, hard_update_sell].
  apply soft_bind in Hr as (r2 & s4 & [_ ->]%lift_ok & Hr); [|done|apply st_raises_lift, hard_reserve].
  apply bind_err in Hr as [[->%ensure_err ->]%lift_err|(u9 & s5 & [_ ->]%lift_ok & Hr)].
  - split; [done|]. exists p, out, f, p1. split; [done|done|done|]. by exists l1, cs, s3, l4.
  - exfalso. by apply soft_bind in Hr as (u10 & s5 & _ & Hr).
Qed.

Lemma do_sell_soft_inv k who m ain x y s e s' :
  ns_inv k s -> (forall m', who <> pool_account_id m') -> 0 <= x -> soft e -> do_sell who m ain x y s = (Err e, s') ->
  (e <> neo_error (NumericalLimits SpotPriceSlippedTooLow) /\ s' = s) \/
  exists p out, Pools s !! m = Some p /\ pool_swap_amount_out_for_sell p ain x = Ok out /\ ns_inv (lost m out k) s'.
Proof.
  intros HI Hwho Hx Hs Hr. apply do_sell_soft in Hr as [(He & -> & _)|(He & p & out & f & p1 & Hsd)]; [by left| |done]. right.
  destruct (pool_facts _ _ _ _ HI (sd_pool _ _ _ _ _ _ _ _ _ _ Hsd)) as (mk & Hmk & Hok & _).
  destruct (sold_effect _ _ _ _ _ _ _ _ _ _ _ _ HI Hwho Hx Hmk Hok Hsd) as (Hpos & HP4 & Hcc & Hq & _ & Hcol & Hin).
  exists p, out. split; [apply Hsd|]. split; [apply Hsd|].
  eapply (ns_inv_unwritten k _ s _ m who mk p); try done; [intros; apply lost_ge; lia|apply Hsd|].
  eapply pool_ok_same; [exact Hok| |exact Hcol]. intros a r Hina _. rewrite lost_here. specialize (Hin a Hina). cbv zeta in Hin.
  case_decide; lia.
Qed.

(** ** Liquidity *)

Lemma pool_ok_reserves (k k' : Asset -> Z) m mk p l l' rs b t :
  pool_ok k m mk p l -> rs.*1 = (reserves p).*1 -> wf MaxLiquidityTreeDepth t ->
  (forall a r, (a, r) ∈ rs -> 0 <= r <= bal a (account_id p) l' + k' a) ->
  minimum_balance (collateral p) + total_fees t <= bal (collateral p) (account_id p) l' ->
  pool_ok k' m mk (mkPool (account_id p) rs (collateral p) b t (swap_fee p)) l'.
Proof.
  intros [Ha Hs Hk Hc Hfee Hb Ht Hfe] Hkeys Hwf Hg Hmin.
  assert (Hsrt : bt_sorted rs) by (apply (sorted_by_fmap fst); rewrite Hkeys; by apply (sorted_by_fmap fst) in Hs).
  split; cbn; try done; [unfold bt_keys in *; by rewrite Hkeys|]. intros a r Hr%bt_get_elem; [by apply Hg|done].
Qed.

Lemma join_loop who p ratio (rs : BTreeMap Asset Z) : forall maxs s amts s' rs',
  (forall a r, bt_get a (reserves p) = Some r -> 0 <= r) -> 0 <= ratio -> who <> account_id p -> NoDup rs.*1 ->
  join_transfers who p ratio (zip rs.*1 maxs) s = (Ok amts, s') ->
  map_reserves (checked_add_res 128) rs amts = Ok rs' ->
  exists l', s' = with_assets l' s /\ rs'.*1 = rs.*1 /\
    (forall b w, w <> who -> bal b w (ns_assets s) <= bal b w l') /\
    forall a r', (a, r') ∈ rs' -> exists r, (a, r) ∈ rs /\ 0 <= r' - r /\
      bal a (account_id p) (ns_assets s) + (r' - r) <= bal a (account_id p) l'.
Proof.
  assert (Hnil : forall s amts s' rs rs', (mret [] : ST DispatchError NsState (list Z)) s = (Ok amts, s') ->
    map_reserves (checked_add_res 128) rs amts = Ok rs' -> exists l', s' = with_assets l' s /\ rs'.*1 = rs.*1 /\
    (forall b w, w <> who -> bal b w (ns_assets s) <= bal b w l') /\
    forall a r', (a, r') ∈ rs' -> exists r, (a, r) ∈ rs /\ 0 <= r' - r /\
      bal a (account_id p) (ns_assets s) + (r' - r) <= bal a (account_id p) l').
  { intros s amts s' rs0 rs' [-> ->]%mret_ok Hm. exists (ns_assets s). assert (rs' = rs0) as -> by (by destruct rs0 as [|[]]; injection Hm).
    split; [by destruct s as [? ? ? []]|]. split_and!; [done|lia|]. intros a r' Hr'. exists r'. split; [done|lia]. }
  induction rs as [|[a r] rs IH]; intros maxs s amts s' rs' Hpos Hratio Hne Hnd; [apply (Hnil s amts s' [])|].
  destruct maxs as [|mx maxs]; [apply Hnil|]. cbn [zip zip_with fmap list_fmap join_transfers fst].
  apply NoDup_cons in Hnd as [Hna Hnd].
  intros (bp & s1 & [Hbp%ok_or_ok ->]%lift_ok & Hr)%bind_ok Hm.
  apply bind_ok in Hr as (am & s1 & [(_ & _ & Ham)%bmul_ceil_ok ->]%lift_ok & Hr).
  apply bind_ok in Hr as (u1 & s1 & [_ ->]%lift_ok & Hr).
  apply bind_ok in Hr as (u2 & s1 & (l1 & Ht & ->)%on_ledger_ok & Hr).
  apply bind_ok in Hr as (ams & s1 & Hr & [-> ->]%mret_ok).
  cbn [map_reserves] in Hm. apply result_bind_ok in Hm as (r1 & [-> _]%checked_add_res_ok & Hm).
  apply result_bind_ok in Hm as (rs1 & Hm & [= <-]).
  assert (Hpos0 : 0 <= am).
  { rewrite Ham. apply Z.div_pos; [|apply BASE_pos]. pose proof BASE_pos. specialize (Hpos _ _ Hbp). nia. }
  destruct (IH _ _ _ _ _ Hpos Hratio Hne Hnd Hr Hm) as (l' & -> & Hk & Hq & Hin).
  pose proof (transfer_credit _ _ _ _ _ _ _ Hpos0 Ht Hne) as [_ Hcr].
  pose proof (fun b w => transfer_others _ _ _ _ _ _ _ b w Hpos0 Ht) as Ho.
  change (ns_assets (with_assets l1 s)) with l1 in *. exists l'. split; [done|]. split_and!.
  - cbn. by f_equal.
  - intros b w Hw. specialize (Ho b w ltac:(congruence)). specialize (Hq b w Hw). lia.
  - intros b r' [[= -> ->]|Hb]%elem_of_cons.
    + exists r. split; [by left|]. specialize (Hq a (account_id p) ltac:(congruence)). lia.
    + destruct (Hin b r' Hb) as (r2 & Hr2 & ? & ?). exists r2. split; [by right|].
      specialize (Ho b (account_id p) ltac:(congruence)). lia.
Qed.

Lemma exit_loop who p ratio (rs : BTreeMap Asset Z) : forall mins s amts s' rs',
  (forall a r, bt_get a (reserves p) = Some r -> 0 <= r) -> 0 <= ratio -> who <> account_id p -> NoDup rs.*1 ->
  exit_transfers who p ratio (zip rs.*1 mins) s = (Ok amts, s') ->
  map_reserves checked_sub_res rs amts = Ok rs' ->
  exists l', s' = with_assets l' s /\ rs'.*1 = rs.*1 /\
    (forall b w, w <> account_id p \/ b ∉ rs.*1 -> bal b w (ns_assets s) <= bal b w l') /\
    forall a r', (a, r') ∈ rs' -> exists r, (a, r) ∈ rs /\ (0 <= r -> 0 <= r') /\
      bal a (account_id p) (ns_assets s) + (r' - r) - dust a <= bal a (account_id p) l'.
Proof.
  assert (Hnil : forall s amts s' rs rs', (mret [] : ST DispatchError NsState (list Z)) s = (Ok amts, s') ->
    map_reserves checked_sub_res rs amts = Ok rs' -> exists l', s' = with_assets l' s /\ rs'.*1 = rs.*1 /\
    (forall b w, w <> account_id p \/ b ∉ rs.*1 -> bal b w (ns_assets s) <= bal b w l') /\
    forall a r', (a, r') ∈ rs' -> exists r, (a, r) ∈ rs /\ (0 <= r -> 0 <= r') /\
      bal a (account_id p) (ns_assets s) + (r' - r) - dust a <= bal a (account_id p) l').
  { intros s amts s' rs0 rs' [-> ->]%mret_ok Hm. exists (ns_assets s). assert (rs' = rs0) as -> by (by destruct rs0 as [|[]]; injection Hm).
    split; [by destruct s as [? ? ? []]|]. split_and!; [done|lia|]. intros a r' Hr'. exists r'. pose proof (dust_nonneg a). split; [done|lia]. }
  induction rs as [|[a r] rs IH]; intros mins s amts s' rs' Hpos Hratio Hne Hnd; [apply (Hnil s amts s' [])|].
  destruct mins as [|mx mins]; [apply Hnil|]. cbn [zip zip_with fmap list_fmap exit_transfers fst].
  apply NoDup_cons in Hnd as [Hna Hnd].
  intros (bp & s1 & [Hbp%ok_or_ok ->]%lift_ok & Hr)%bind_ok Hm.
  apply bind_ok in Hr as (am & s1 & [(_ & _ & Ham)%bmul_floor_ok ->]%lift_ok & Hr).
  apply bind_ok in Hr as (u1 & s1 & [_ ->]%lift_ok & Hr).
  apply bind_ok in Hr as (u2 & s1 & (l1 & Ht & ->)%on_ledger_ok & Hr).
  apply bind_ok in Hr as (ams & s1 & Hr & [-> ->]%mret_ok).
  cbn [map_reserves] in Hm. apply result_bind_ok in Hm as (r1 & [-> Hle]%checked_sub_res_ok & Hm).
  apply result_bind_ok in Hm as (rs1 & Hm & [= <-]).
  assert (Hpos0 : 0 <= am).
  { rewrite Ham. apply Z.div_pos; [|apply BASE_pos]. specialize (Hpos _ _ Hbp). nia. }
  destruct (IH _ _ _ _ _ Hpos Hratio Hne Hnd Hr Hm)
    as (l' & -> & Hk & Hq & Hin).
  pose proof (transfer_lower_dust _ _ _ _ _ _ _ Hpos0 Ht) as Hdb.
  pose proof (fun b w => transfer_others _ _ _ _ _ _ _ b w Hpos0 Ht) as Ho.
  change (ns_assets (with_assets l1 s)) with l1 in *. exists l'. split; [done|]. split_and!.
  - cbn. by f_equal.
  - intros b w Hw. cbn [fmap list_fmap fst] in Hw. rewrite not_elem_of_cons in Hw.
    specialize (Ho b w ltac:(destruct Hw as [?|[? ?]]; congruence)). specialize (Hq b w ltac:(tauto)). lia.
  - intros b r' [[= -> ->]|Hb]%elem_of_cons.
    + exists r. split; [by left|]. specialize (Hq a (account_id p) ltac:(by right)). lia.
    + destruct (Hin b r' Hb) as (r2 & Hr2 & ? & ?). exists r2. split; [by right|]. split; [done|].
      assert (b ∈ rs.*1) by (apply list_elem_of_fmap; by exists (b, r2)).
      specialize (Ho b (account_id p) ltac:(intros [= ->]; by apply Hna)). lia.
Qed.

Lemma do_withdraw_fees_inv k who m s u s' :
  ns_inv k s -> (forall m', who <> pool_account_id m') -> do_withdraw_fees who m s = (Ok u, s') -> ns_inv k s'.
Proof.
  intros HI Hwho. unfold do_withdraw_fees. intros (p & p' & s1 & Hp & Hr & ->)%try_mutate_ok.
  destruct (ni_pools _ _ HI m p Hp) as (mk & Hmk & Hok).
  assert (Hwa : who <> account_id p) by (rewrite (po_account _ _ _ _ _ Hok); apply Hwho).
  apply bind_ok in Hr as ([x p1] & s2 & [(t & Ht & ->)%on_tree_ok ->]%lift_ok & Hr).
  apply withdraw_ok in Ht as (Hwf & Hx & Hfees & _); [|apply Hok]. cbn [collateral account_id set_liquidity_shares_manager] in Hr.
  apply bind_ok in Hr as (u1 & s2 & (l1 & Ht1 & ->)%on_ledger_ok & Hr).
  apply bind_ok in Hr as (u2 & s2 & [_ ->]%modify_ok & [[= -> ->] ->]%mret_ok).
  pose proof (po_fees _ _ _ _ _ Hok). pose proof (wf_fees_nonneg _ _ Hwf).
  pose proof (transfer_lower _ _ _ _ _ _ _ Hx Ht1 ltac:(right; lia)) as Hdb.
  pose proof (fun b w => transfer_others _ _ _ _ _ _ _ b w Hx Ht1) as Ho.
  eapply (ns_inv_update k k s _ m who (Some _)); [done|done|done|done|done| |].
  - change (quiet (touched who m) (ns_assets s) l1). unfold touched. rewrite <- (po_account _ _ _ _ _ Hok).
    intros b w Hw. apply Ho. intros [= _ ->]. tauto.
  - intros q [= <-]. exists mk. split; [done|]. change (ns_assets _) with l1.
    apply (pool_ok_reserves (k m) (k m) m mk p (ns_assets s)); [done..| |lia].
    intros a r Hr. pose proof (po_sorted _ _ _ _ _ Hok) as Hsrt. apply (bt_get_elem _ _ _ Hsrt) in Hr.
    pose proof (po_backed _ _ _ _ _ Hok a r Hr). apply bt_get_key in Hr. rewrite (po_keys _ _ _ _ _ Hok) in Hr.
    assert (a <> collateral p) by (rewrite (po_collateral _ _ _ _ _ Hok); pose proof (ni_markets _ _ HI m mk Hmk); congruence).
    specialize (Ho a (account_id p) ltac:(congruence)). lia.
Qed.

Lemma tot_nonneg t : wf MaxLiquidityTreeDepth t -> 0 <= tot t 0.
Proof.
  intros Hwf. rewrite tot_root; [|by eapply wf_nonempty|apply Hwf]. apply zsum_nonneg.
  eapply Forall_impl; [apply Hwf|]. intros n (Hn & _). apply Hn.
Qed.

Lemma total_view_ok p x : wf MaxLiquidityTreeDepth (liquidity_shares_manager p) ->
  tree_view total_shares p = Ok x -> x = tot (liquidity_shares_manager p) 0 /\ 0 <= x.
Proof.
  intros Hwf. unfold tree_view. rewrite (total_shares_eq MaxLiquidityTreeDepth) by done. pose proof (tot_nonneg _ Hwf).
  case_match; [|done]. cbn. intros [= <-]. done.
Qed.

Lemma backed_nonneg k m mk p l a r : pool_ok k m mk p l -> bt_get a (reserves p) = Some r -> 0 <= r.
Proof. intros Hok Hr. apply (po_backed _ _ _ _ _ Hok a r Hr). Qed.

Lemma keys_nodup k m mk p l : pool_ok k m mk p l -> NoDup (reserves p).*1.
Proof. intros Hok. change ((reserves p).*1) with (bt_keys (reserves p)). rewrite (po_keys _ _ _ _ _ Hok). apply outcome_assets_nodup. Qed.

(** The collateral is not one of the reserves. *)
Lemma collateral_apart k s m mk p : ns_inv k s -> market (ns_commons s) m = Ok mk -> pool_ok (k m) m mk p (ns_assets s) ->
  collateral p ∉ (reserves p).*1.
Proof.
  intros HI Hmk Hok. change ((reserves p).*1) with (bt_keys (reserves p)).
  rewrite (po_keys _ _ _ _ _ Hok), (po_collateral _ _ _ _ _ Hok). by apply (ni_markets _ _ HI m).
Qed.

(** A successful join: what it read, transferred and wrote. *)
Lemma do_join_run who m x maxs s u s' : do_join who m x maxs s = (Ok u, s') ->
  exists p mk total ratio amts s1 rs t info b,
    Pools s !! m = Some p /\ market (ns_commons s) m = Ok mk /\ Z.of_nat (length maxs) = outcomes mk /\
    tree_view total_shares p = Ok total /\ bdiv_ceil 128 x total = Ok ratio /\
    join_transfers who p ratio (zip (assets_of p) maxs) s = (Ok amts, s1) /\
    map_reserves (checked_add_res 128) (reserves p) amts = Ok rs /\
    join MaxLiquidityTreeDepth who x (liquidity_shares_manager p) = (Ok info, t) /\
    Pools s' = <[m := mkPool (account_id p) rs (collateral p) b t (swap_fee p)]> (Pools s1) /\ sets s' = sets s1.
Proof.
  unfold do_join. intros (u1 & s1 & [_ ->]%lift_ok & Hr)%bind_ok.
  apply bind_ok in Hr as (s0 & s1 & [-> ->]%get_ok & Hr).
  apply bind_ok in Hr as (mk & s1 & [Hmk ->]%lift_ok & Hr).
  apply bind_ok in Hr as (u2 & s1 & [_ ->]%lift_ok & Hr).
  apply bind_ok in Hr as (ac & s1 & [Hac ->]%lift_ok & Hr).
  apply bind_ok in Hr as (u3 & s1 & [Hlen%ensure_ok%Z.eqb_eq ->]%lift_ok & Hr).
  assert (Hcount : Z.of_nat (length maxs) = outcomes mk).
  { unfold to_u16 in Hac. case_match; [|done]. injection Hac as <-. done. }
  apply try_mutate_ok in Hr as (p & p' & s1 & Hp & Hr & ->).
  apply bind_ok in Hr as (total & s2 & [Htot ->]%lift_ok & Hr).
  apply bind_ok in Hr as (ratio & s2 & [Hratio ->]%lift_ok & Hr).
  apply bind_ok in Hr as (u4 & s2 & [_ ->]%lift_ok & Hr).
  apply bind_ok in Hr as (amts & s2 & Hj & Hr).
  apply bind_ok in Hr as (rs & s3 & [Hrs ->]%lift_ok & Hr).
  apply bind_ok in Hr as ([info p1] & s3 & [(t & Ht & ->)%on_tree_ok ->]%lift_ok & Hr). cbn in Ht.
  apply bind_ok in Hr as (inc & s3 & [_ ->]%lift_ok & Hr).
  apply bind_ok in Hr as (b & s3 & [_ ->]%lift_ok & Hr).
  apply bind_ok in Hr as (u5 & s3 & [_ ->]%modify_ok & Hr).
  apply bind_ok in Hr as (u6 & s3 & [_ ->]%modify_ok & [[= -> ->] ->]%mret_ok).
  by exists p, mk, total, ratio, amts, s2, rs, t, info, b.
Qed.

Lemma ceil_ratio_nonneg x total r : 0 <= x -> 0 <= total -> bdiv_ceil 128 x total = Ok r -> 0 <= r.
Proof.
  intros Hx Ht (_ & _ & Hne & ->)%bdiv_ceil_ok; [|done]. pose proof BASE_pos. apply Z.div_pos; nia.
Qed.

Lemma do_join_inv k who m x maxs s u s' :
  ns_inv k s -> (forall m', who <> pool_account_id m') -> fits 128 x -> do_join who m x maxs s = (Ok u, s') -> ns_inv k s'.
Proof.
  intros HI Hwho Hx Hj%do_join_run.
  destruct Hj as (p & mk & tt0 & ratio & amts & s1 & rs & t & info & b & Hp & Hmk & _ & Htot & Hratio & Hj & Hrs & Ht & HP & Hs).
  destruct (ni_pools _ _ HI m p Hp) as (mk' & Hmk' & Hok). assert (mk' = mk) as -> by congruence.
  assert (Hwa : who <> account_id p) by (rewrite (po_account _ _ _ _ _ Hok); apply Hwho).
  apply total_view_ok in Htot as [_ Htot]; [|apply Hok]. apply ceil_ratio_nonneg in Hratio; [|apply Hx|done].
  eapply join_loop in Hj as (l' & -> & Hk & Hq & Hin); [|intros a r; by apply (backed_nonneg _ _ _ _ _ _ _ Hok)|done|done|by eapply keys_nodup|done].
  apply join_ok in Ht as [[Hwf _ Hfees _ _] _]; [|apply Hok|done].
  assert (Ha : ns_assets s' = l') by (unfold ns_assets; by rewrite Hs).
  eapply (ns_inv_update k k s _ m who (Some _)); [done|done|done|unfold ns_commons; by rewrite Hs|exact HP|rewrite Ha|].
  - intros c w Hw. apply Hq. intros ->. apply Hw. by left.
  - intros q [= <-]. exists mk. split; [done|]. rewrite Ha.
    apply (pool_ok_reserves (k m) (k m) m mk p (ns_assets s) l' rs b t); [done|done|done| |].
    + intros a r' Hr'. destruct (Hin a r' Hr') as (r & Hr & ? & ?).
      apply (bt_get_elem _ _ _ (po_sorted _ _ _ _ _ Hok)) in Hr. pose proof (po_backed _ _ _ _ _ Hok a r Hr). lia.
    + pose proof (po_fees _ _ _ _ _ Hok). specialize (Hq (collateral p) (account_id p) ltac:(congruence)). lia.
Qed.

Lemma exit_ratio_nonneg mk x total r : 0 <= x -> 0 <= total -> exit_ratio mk x total = Ok r -> 0 <= r.
Proof.
  intros Hx Ht (r0 & (_ & _ & Hne & ->)%bdiv_floor_ok & Hr)%result_bind_ok. pose proof BASE_pos.
  assert (Hq0 : 0 <= x * BASE / total) by (apply Z.div_pos; nia).
  case_decide; [|congruence]. apply result_bind_ok in Hr as (b & [-> _]%base_get_ok & Hr).
  apply result_bind_ok in Hr as (mu & [-> Hle]%checked_sub_res_ok & (_ & _ & ->)%bmul_floor_ok).
  apply Z.div_pos; [nia|lia].
Qed.

(** Emptying a pool's account debits nobody else. *)
Lemma withdraw_loop p assets : forall s u s', for_each assets (withdraw_remaining p) s = (Ok u, s') ->
  exists l', s' = with_assets l' s /\ forall b w, w <> account_id p -> bal b w (ns_assets s) <= bal b w l'.
Proof.
  induction assets as [|a assets IH]; cbn; intros s u s'.
  { intros [_ ->]%mret_ok. exists (ns_assets s). split; [by destruct s as [? ? ? []]|lia]. }
  intros (u1 & s1 & Hw & Hr)%bind_ok. unfold withdraw_remaining in Hw.
  apply bind_ok in Hw as (s0 & s2 & [-> ->]%get_ok & (l1 & Hw & ->)%on_ledger_ok).
  apply IH in Hr as (l' & -> & Hq). exists l'. split; [done|]. intros b w Hne.
  pose proof (withdraw_others _ _ _ _ _ _ b w (free_nonneg _ _ _) Hw ltac:(congruence)). specialize (Hq b w Hne).
  change (ns_assets (with_assets l1 s)) with l1 in Hq. lia.
Qed.

(** A successful exit: what it read, transferred and wrote; the last provider
    takes the pool with them. *)
Lemma do_exit_run who m x mins s u s' : do_exit who m x mins s = (Ok u, s') ->
  exists p mk total ratio amts s1 rs t,
    Pools s !! m = Some p /\ market (ns_commons s) m = Ok mk /\
    tree_view total_shares p = Ok total /\ exit_ratio mk x total = Ok ratio /\
    exit_transfers who p ratio (zip (assets_of p) mins) s = (Ok amts, s1) /\
    map_reserves checked_sub_res (reserves p) amts = Ok rs /\
    exit MaxLiquidityTreeDepth who x (liquidity_shares_manager p) = (Ok tt, t) /\
    ((total_shares t).1 = Ok 0 /\ Pools s' = delete m (Pools s1) /\
       (exists early l2 l3, mc_transfer (collateral p) (account_id p) early
            (mc_free_balance (collateral p) (account_id p) (ns_assets s1)) (ns_assets s1) = (Ok tt, l2) /\
          (forall b w, w <> account_id p -> bal b w l2 <= bal b w l3) /\ sets s' = set_cs_assets l3 (sets s1)) \/
     (total_shares t).1 <> Ok 0 /\ sets s' = sets s1 /\
       exists b, Pools s' = <[m := mkPool (account_id p) rs (collateral p) b t (swap_fee p)]> (Pools s1)).
Proof.
  unfold do_exit. intros (u1 & s1 & [_ ->]%lift_ok & Hr)%bind_ok.
  apply bind_ok in Hr as (s0 & s1 & [-> ->]%get_ok & Hr).
  apply bind_ok in Hr as (mk & s1 & [Hmk ->]%lift_ok & Hr).
  apply bind_ok in Hr as (p & s1 & [Hp%ok_or_ok ->]%lift_ok & Hr).
  apply bind_ok in Hr as (total & s2 & [Htot ->]%lift_ok & Hr).
  apply bind_ok in Hr as (ratio & s2 & [Hratio ->]%lift_ok & Hr).
  apply bind_ok in Hr as (amts & s2 & Hj & Hr).
  apply bind_ok in Hr as (rs & s3 & [Hrs ->]%lift_ok & Hr).
  apply bind_ok in Hr as ([[] p1] & s3 & [(t & Ht & ->)%on_tree_ok ->]%lift_ok & Hr). cbn in Ht.
  apply bind_ok in Hr as (tt1 & s3 & [Htt ->]%lift_ok & Hr). unfold tree_view in Htt. cbn in Htt.
  exists p, mk, total, ratio, amts, s2, rs, t. do 7 (split; [done|]). rewrite Htt.
  destruct (Z.eqb_spec tt1 0) as [->|Hne].
  - left. apply bind_ok in Hr as (s0 & s3 & [-> ->]%get_ok & Hr).
    apply bind_ok in Hr as (ea & s3 & [_ ->]%lift_ok & Hr).
    apply bind_ok in Hr as ([] & s3 & (l2 & Ht2 & ->)%on_ledger_ok & Hr).
    apply bind_ok in Hr as (u4 & s3 & (l3 & -> & Hq3)%withdraw_loop & Hr).
    apply bind_ok in Hr as (u5 & s3 & [_ ->]%modify_ok & [_ ->]%modify_ok).
    split; [done|]. split; [done|]. by exists ea, l2, l3.
  - right. apply bind_ok in Hr as (dec & s3 & [_ ->]%lift_ok & Hr).
    apply bind_ok in Hr as (b & s3 & [_ ->]%lift_ok & Hr).
    apply bind_ok in Hr as (u3 & s3 & [_ ->]%lift_ok & Hr).
    apply bind_ok in Hr as (u5 & s3 & [_ ->]%modify_ok & [_ ->]%modify_ok).
    split; [congruence|]. split; [done|]. by exists b.
Qed.

Lemma do_exit_inv k who m x mins s u s' :
  ns_inv k s -> (forall m', who <> pool_account_id m') -> fits 128 x -> do_exit who m x mins s = (Ok u, s') -> ns_inv (lost m 0 k) s'.
Proof.
  intros HI Hwho Hx Hr%do_exit_run.
  destruct Hr as (p & mk & tt0 & ratio & amts & s1 & rs & t & Hp & Hmk & Htot & Hratio & Hj & Hrs & Ht & Hr).
  destruct (ni_pools _ _ HI m p Hp) as (mk' & Hmk' & Hok). assert (mk' = mk) as -> by congruence.
  pose proof (collateral_apart _ _ _ _ _ HI Hmk Hok) as Hapart.
  assert (Hwa : who <> account_id p) by (rewrite (po_account _ _ _ _ _ Hok); apply Hwho).
  apply total_view_ok in Htot as [_ Htot]; [|apply Hok]. apply exit_ratio_nonneg in Hratio; [|apply Hx|done].
  eapply exit_loop in Hj as (l' & -> & Hk & Hq & Hin);
    [|intros a r; by apply (backed_nonneg _ _ _ _ _ _ _ Hok)|done|done|by eapply keys_nodup|done].
  apply exit_ok in Ht as [[Hwf _ Hfees _ _] _]; [|apply Hok|done].
  assert (Hquiet : quiet (touched who m) (ns_assets s) l').
  { intros c w Hw. apply Hq. left. intros ->. apply Hw. right; left. apply Hok. }
  destruct Hr as [(_ & HP & ea & l2 & l3 & Ht2 & Hq3 & Hs)|(_ & Hs & b & HP)].
  - change (ns_assets (with_assets l' s)) with l' in Ht2.
    eapply (ns_inv_update k (lost m 0 k) s _ m who None); [done|intros; by apply lost_ge|done|unfold ns_commons; by rewrite Hs|exact HP| |done].
    eapply quiet_trans; [exact Hquiet|]. unfold ns_assets. rewrite Hs. change (quiet (touched who m) l' l3). intros c w Hw.
    assert (w <> account_id p) by (intros ->; apply Hw; right; left; apply Hok).
    pose proof (transfer_others _ _ _ _ _ _ _ c w (free_nonneg _ _ _) Ht2 ltac:(congruence)).
    specialize (Hq3 c w ltac:(done)). lia.
  - assert (Ha : ns_assets s' = l') by (unfold ns_assets; by rewrite Hs).
    eapply (ns_inv_update k (lost m 0 k) s _ m who (Some _)); [done|intros; by apply lost_ge|done|unfold ns_commons; by rewrite Hs|exact HP|by rewrite Ha|].
    intros q [= <-]. exists mk. split; [done|]. rewrite Ha.
    apply (pool_ok_reserves (k m) (lost m 0 k m) m mk p (ns_assets s) l' rs b t); [done|done|done| |].
    + intros a r' Hr'. destruct (Hin a r' Hr') as (r & Hr & ? & ?).
      apply (bt_get_elem _ _ _ (po_sorted _ _ _ _ _ Hok)) in Hr. pose proof (po_backed _ _ _ _ _ Hok a r Hr). rewrite lost_here. lia.
    + pose proof (po_fees _ _ _ _ _ Hok). specialize (Hq (collateral p) (account_id p) ltac:(by right)). lia.
Qed.

(** ** Deployment *)

Lemma bt_insert_last {K V} `{OrdLaws K} (k : K) (v : V) (m : BTreeMap K V) :
  Forall (fun x => cmp x.1 k = Lt) m -> bt_insert k v m = m ++ [(k, v)].
Proof.
  induction 1 as [|[k1 v1] m Hk _ IH]; cbn; [done|]. cbn in Hk. rewrite (cmp_sym k k1) in Hk.
  destruct (cmp k k1) eqn:E; cbn in Hk; try done. by rewrite IH.
Qed.

Lemma deploy_loop who acc l : forall rs0 s rs s', who <> acc -> Forall (fun x => 0 <= x.1) l ->
  bt_sorted (rs0 ++ (prod_swap <$> l)) -> deploy_transfers who acc l rs0 s = (Ok rs, s') ->
  rs = rs0 ++ (prod_swap <$> l) /\ exists l', s' = with_assets l' s /\
    (forall b w, w <> who -> bal b w (ns_assets s) <= bal b w l') /\
    forall v a, (v, a) ∈ l -> v <= bal a acc l'.
Proof.
  induction l as [|[v a] l IH]; cbn; intros rs0 s rs s' Hne Hpos Hs.
  { intros [-> ->]%mret_ok. rewrite app_nil_r. split; [done|]. exists (ns_assets s).
    split; [by destruct s as [? ? ? []]|]. split; [lia|by intros ?? ?%elem_of_nil]. }
  intros (u & s1 & (l1 & Ht & ->)%on_ledger_ok & Hr)%bind_ok. inversion_clear Hpos as [|?? Hv Hpos']. cbn in Hv.
  rewrite bt_insert_last in Hr.
  2:{ apply Forall_forall. intros [k z] Hin. apply list_elem_of_lookup in Hin as [i Hi].
      apply (sorted_by_lookup fst _ i (length rs0) (k, z) (a, v) Hs); [by eapply lookup_lt_Some|..].
      - by rewrite lookup_app_l by (by eapply lookup_lt_Some).
      - by rewrite list_lookup_middle. }
  apply IH in Hr as (-> & l' & -> & Hq & Hin); [|done|done|by rewrite <- app_assoc].
  split; [by rewrite <- app_assoc|]. exists l'. split; [done|].
  pose proof (transfer_credit _ _ _ _ _ _ _ Hv Ht Hne) as [_ Hcr]. pose proof (free_nonneg (ns_assets s) a acc).
  change (ns_assets (with_assets l1 s)) with l1 in Hq. split.
  - intros b w Hw. pose proof (transfer_others _ _ _ _ _ _ _ b w Hv Ht ltac:(congruence)). specialize (Hq b w Hw). lia.
  - intros v' a' [[= -> ->]|Hi]%elem_of_cons; [|by apply Hin]. specialize (Hq a acc ltac:(congruence)). lia.
Qed.

Lemma outcome_assets_length mk n : Z.of_nat n = outcomes mk -> length (outcome_assets mk) = n.
Proof.
  unfold outcomes, outcome_assets. destruct (market_type mk); [|cbn; lia]. rewrite length_fmap, length_seqZ. lia.
Qed.

Lemma prices_loop (ps : list Z) : forall s u s', for_each ps (fun p =>
    lift (ensure (MIN_SPOT_PRICE <=? p) (neo_error SpotPriceBelowMin)) ;;
    lift (ensure (p <=? MAX_SPOT_PRICE) (neo_error SpotPriceAboveMax))) s = (Ok u, s') -> s' = (s : NsState).
Proof.
  induction ps as [|p ps IH]; cbn; intros s u s'; [by intros [_ ->]%mret_ok|].
  intros (u1 & s1 & (u2 & s2 & [_ ->]%lift_ok & [_ ->]%lift_ok)%bind_ok & Hr)%bind_ok. by eapply IH.
Qed.

Lemma do_deploy_inv k who m x ps fee s u s' :
  ns_inv k s -> (forall m', who <> pool_account_id m') -> fits 128 x -> do_deploy_pool who m x ps fee s = (Ok u, s') -> ns_inv k s'.
Proof.
  intros HI Hwho Hx. unfold do_deploy_pool. intros (s0 & s1 & [-> ->]%get_ok & Hr)%bind_ok.
  apply bind_ok in Hr as (u1 & s1 & [_ ->]%lift_ok & Hr).
  apply bind_ok in Hr as (mk & s1 & [Hmk ->]%lift_ok & Hr).
  do 2 apply bind_ok in Hr as (? & s1 & [_ ->]%lift_ok & Hr).
  apply bind_ok in Hr as (ac & s1 & [Hac ->]%lift_ok & Hr).
  apply bind_ok in Hr as (u2 & s1 & [Hcount%ensure_ok%Z.eqb_eq ->]%lift_ok & Hr).
  apply bind_ok in Hr as (u3 & s1 & [_ ->]%lift_ok & Hr).
  apply bind_ok in Hr as (u4 & s1 & [Hfee%ensure_ok%Z.leb_le ->]%lift_ok & Hr).
  do 2 apply bind_ok in Hr as (? & s1 & [_ ->]%lift_ok & Hr).
  apply bind_ok in Hr as (u5 & s1 & ->%prices_loop & Hr).
  apply bind_ok in Hr as ([b amts] & s1 & [[Hlen Hamts]%reserves_fits ->]%lift_ok & Hr).
  apply bind_ok in Hr as (u6 & s1 & [_ ->]%lift_ok & Hr).
  assert (Hl : length (outcome_assets mk) = length amts).
  { rewrite Hlen. apply outcome_assets_length. unfold to_u16 in Hac. case_match; [|done]. by injection Hac as <-. }
  apply bind_ok in Hr as (rs & s1 & Hd & Hr).
  assert (Hkeys : (prod_swap <$> zip amts (outcome_assets mk)).*1 = outcome_assets mk).
  { rewrite <- list_fmap_compose. rewrite (list_fmap_ext _ snd) by (by intros ? []). by rewrite snd_zip by lia. }
  apply deploy_loop in Hd as (-> & l1 & -> & Hq1 & Hin1); [|apply Hwho| |].
  2:{ apply Forall_forall. intros [v a] Hin%elem_of_zip_l. rewrite Forall_forall in Hamts. apply (Hamts v Hin). }
  2:{ apply (sorted_by_fmap fst). cbn [app]. rewrite Hkeys. apply outcome_assets_sorted. }
  cbn [app] in Hr. set (rs := prod_swap <$> _) in *.
  apply bind_ok in Hr as (u7 & s1 & [_ ->]%lift_ok & Hr).
  apply bind_ok in Hr as (t & s1 & [Ht ->]%lift_ok & Hr).
  apply (new_ok MaxLiquidityTreeDepth) in Ht as (Hwf & Hfees & _); [|done].
  apply bind_ok in Hr as (u8 & s1 & (l2 & Ht2 & ->)%on_ledger_ok & Hr).
  apply bind_ok in Hr as (u9 & s1 & [_ ->]%modify_ok & Hr).
  apply bind_ok in Hr as (u10 & s1 & [_ ->]%modify_ok & [_ ->]%modify_ok).
  change (ns_assets (with_assets l1 s)) with l1 in Ht2. pose proof (minimum_nonneg (base_asset mk)) as Hmin.
  pose proof (fun c w => transfer_others _ _ _ _ _ _ _ c w Hmin Ht2) as Ho2.
  eapply (ns_inv_update k k s _ m who (Some _)); [done|done|done|done|done| |].
  - change (quiet (touched who m) (ns_assets s) l2). intros c w Hw.
    assert (w <> who) by (intros ->; apply Hw; by left).
    specialize (Hq1 c w ltac:(done)). specialize (Ho2 c w ltac:(congruence)). lia.
  - intros q [= <-]. exists mk. split; [done|]. change (ns_assets _) with l2.
    pose proof (transfer_credit _ _ _ _ _ _ _ Hmin Ht2 (Hwho m)) as [_ Hcr].
    assert (Hsrt : bt_sorted rs) by (apply (sorted_by_fmap fst); rewrite Hkeys; apply outcome_assets_sorted).
    split; cbn; try done.
    + intros a r Hr%bt_get_elem; [|done]. apply list_elem_of_fmap in Hr as ([v a'] & [= -> ->] & Hin).
      pose proof (Hin1 _ _ Hin). apply elem_of_zip_l in Hin. rewrite Forall_forall in Hamts. destruct (Hamts _ Hin).
      specialize (Ho2 a' (pool_account_id m) ltac:(intros [= _ E]; by apply (Hwho m))).
      pose proof (ni_loss _ _ HI m a'). lia.
    + rewrite Hfees, Hcr. pose proof (free_nonneg l1 (base_asset mk) (pool_account_id m)). lia.
Qed.
End Backed.
