(* ===== verification/NeoSwapsRuns.v ===== *)
(** * The neo-swaps pallet: runs

    The invariant of [NeoSwapsInv] along every sequence of calls, relayed calls,
    administration, trades of the hybrid router and steps of other pallets; and
    the promises of the pallet to the router ([AmmLaws]). *)

From S2P Require Import Prelude Errors FixedMath LiquidityTree LiquidityTreeFacts LiquidityTreeInv LiquidityTreeSpec.
From S2P Require Import Collections Interfaces Market MultiCurrency Fees OrderBook HybridRouter HybridRouterInv.
From S2P Require Import CompleteSets NeoMath NeoSwaps NeoSwapsInv.

Section Runs.
Context `{NeoLaws}.
Abbreviation bal := mc_free_balance.

(** ** Runs *)

(** A pool's account has no key: nobody signs for it. *)
Definition by_user (origin : Origin) : Prop :=
  forall who m, origin = Signed who -> who <> pool_account_id m.

(** What other pallets may do between the calls: spend what is not the pools',
    and change markets but not what they trade. *)
Record elsewhere (s s' : NsState) : Prop := {
  el_pools : Pools s' = Pools s;
  el_balances : forall m p b, Pools s !! m = Some p ->
    bal b (account_id p) (ns_assets s) <= bal b (account_id p) (ns_assets s');
  el_markets : forall m p mk, Pools s !! m = Some p -> market (ns_commons s) m = Ok mk ->
    exists mk', market (ns_commons s') m = Ok mk' /\ base_asset mk' = base_asset mk /\
      outcome_assets mk' = outcome_assets mk;
  el_base : forall m mk, market (ns_commons s') m = Ok mk -> base_asset mk ∉ outcome_assets mk }.

Lemma by_user_signed who : by_user (Signed who) -> forall m', who <> pool_account_id m'.
Proof. intros Hu m'. by apply Hu. Qed.

(** What the runs keep count of, by market: the operations that took outcome
    tokens from the pool's account, each of which may have swept up dust, and the
    complete sets burnt by sells that the pallet carried out but did not record. *)
Record Tally := mkTally { debits : Z -> Z; burnt : Z -> Z }.
Definition no_tally : Tally := mkTally (fun _ => 0) (fun _ => 0).
Definition count_debit (m v : Z) (t : Tally) : Tally :=
  mkTally (fun m' => debits t m' + (if decide (m' = m) then 1 else 0)) (fun m' => burnt t m' + (if decide (m' = m) then v else 0)).
(** What the account of the pool of [m] may lack of [a]. *)
Definition lacking (t : Tally) (m : Z) (a : Asset) : Z := debits t m * dust a + burnt t m.

(** A call counts if it succeeds. *)
Definition counted {A} (m : Z) (call : ST DispatchError NsState A) (s : NsState) (t : Tally) : Tally :=
  if is_ok (call s).1 then count_debit m 0 t else t.

Definition slipped (e : DispatchError) : bool :=
  match e with Module_ (NeoSwaps (NumericalLimits SpotPriceSlippedTooLow)) => true | _ => false end.
(** What a sell that failed softly burnt: everything it computed, if the price had
    slipped too low after the trade, and nothing otherwise. *)
Definition burnt_by (s : NsState) (m : Z) (a : Asset) (x : Z) (e : DispatchError) (t : Tally) : Tally :=
  if slipped e then
    match Pools s !! m with
    | Some p => match pool_swap_amount_out_for_sell p a x with Ok out => count_debit m out t | Err _ => t end
    | None => t
    end
  else t.

(** The calls, which succeed or leave the storage alone; the trades the router
    asks for, whose soft failures it swallows, keeping what they wrote (any
    other failure undoes the router's call); and the steps of other pallets. *)
Inductive ns_step : Tally -> NsState -> Tally -> NsState -> Prop :=
| step_neo_buy t s o m n a x y : by_user o -> 0 <= x ->
    ns_step t s (counted m (neo_buy o m n a x y) s t) (exec (neo_buy o m n a x y) s)
| step_neo_sell t s o m n a x y : by_user o -> 0 <= x ->
    ns_step t s (counted m (neo_sell o m n a x y) s t) (exec (neo_sell o m n a x y) s)
| step_neo_join t s o m x l : by_user o -> fits 128 x -> ns_step t s t (exec (neo_join o m x l) s)
| step_neo_exit t s o m x l : by_user o -> fits 128 x ->
    ns_step t s (counted m (neo_exit o m x l) s t) (exec (neo_exit o m x l) s)
| step_neo_withdraw t s o m : by_user o -> ns_step t s t (exec (neo_withdraw_fees o m) s)
| step_neo_deploy t s o m x l f : by_user o -> fits 128 x -> ns_step t s t (exec (deploy_pool o m x l f) s)
| step_signed_join t s o pf m x l b : by_user o -> fits 128 x -> ns_step t s t (exec (signed_join o pf m x l b) s)
| step_signed_exit t s o pf m x l b : by_user o -> fits 128 x ->
    ns_step t s (counted m (signed_exit o pf m x l b) s t) (exec (signed_exit o pf m x l b) s)
| step_signed_withdraw t s o pf m b : by_user o -> ns_step t s t (exec (signed_withdraw_fees o pf m b) s)
| step_set_account t s o a : ns_step t s t (exec (set_early_exit_fee_account o a) s)
| step_set_fee t s o x : ns_step t s t (exec (set_additional_swap_fee o x) s)
| step_market_deploy t s who m x l f s' :
    by_user (Signed who) -> fits 128 x -> api_deploy_pool who m x l f s = (Ok tt, s') -> ns_step t s t s'
| step_router_buy t s who m a x y tr s' :
    by_user (Signed who) -> 0 <= x -> api_buy who m a x y s = (Ok tr, s') -> ns_step t s (count_debit m 0 t) s'
| step_router_buy_soft t s who m a x y f s' :
    by_user (Signed who) -> 0 <= x -> api_buy who m a x y s = (Err (SoftFailure f), s') -> ns_step t s t s'
| step_router_sell t s who m a x y tr s' :
    by_user (Signed who) -> 0 <= x -> api_sell who m a x y s = (Ok tr, s') -> ns_step t s (count_debit m 0 t) s'
| step_router_sell_soft t s who m a x y f e s' :
    by_user (Signed who) -> 0 <= x -> do_sell who m a x y s = (Err e, s') -> neo_match_failure e = SoftFailure f ->
    ns_step t s (burnt_by s m a x e t) s'
| step_other t s s' : elsewhere s s' -> ns_step t s t s'.

(** Genesis, and runs from it. *)
Inductive ns_run : Tally -> NsState -> Prop :=
| ns_start s fee : Pools s = ∅ -> (forall m mk, market (ns_commons s) m = Ok mk -> base_asset mk ∉ outcome_assets mk) ->
    ns_run no_tally (GenesisConfig_build fee s)
| ns_next t s t' s' : ns_run t s -> ns_step t s t' s' -> ns_run t' s'.

Lemma exec_transactional {A} (I : NsState -> Prop) (m : ST DispatchError NsState A) s :
  I s -> triple I m (fun _ => I) -> I (exec (transactional m) s).
Proof.
  intros HI Hm. unfold exec, transactional. destruct (m s) as [[a|e] s'] eqn:Hr; cbn; [|done]. by eapply Hm.
Qed.

Lemma elsewhere_inv k s s' : ns_inv k s -> elsewhere s s' -> ns_inv k s'.
Proof.
  intros HI [HP Hb Hm He]. split; [|done|apply HI]. intros m p Hp. rewrite HP in Hp.
  destruct (ni_pools _ _ HI m p Hp) as (mk & Hmk & Hok).
  destruct (Hm m p mk Hp Hmk) as (mk' & Hmk' & Hbase & Hout). exists mk'. split; [done|].
  destruct Hok as [Ha Hs Hk Hc Hfee Hbk Ht Hfe]. split; try done; [congruence..| |].
  - intros a r Hr. specialize (Hbk a r Hr). specialize (Hb m p a Hp). lia.
  - specialize (Hb m p (collateral p) Hp). lia.
Qed.

(** The tally and the loss of [NeoSwapsInv]. *)
Lemma lacking_count m v t m' a : lacking (count_debit m v t) m' a = lost m v (lacking t) m' a.
Proof. unfold lacking, lost, count_debit. cbn. case_decide; lia. Qed.
Lemma inv_counted m v t s : ns_inv (lost m v (lacking t)) s -> ns_inv (lacking (count_debit m v t)) s.
Proof. apply ns_inv_mono. intros m' a. rewrite lacking_count. lia. Qed.

Lemma signed_user origin who m s s' :
  by_user origin -> lift (ensure_signed origin) s = (Ok who, s') -> s' = (s : NsState) /\ who <> pool_account_id m.
Proof. intros Hu [Hw ->]%lift_ok. split; [done|]. apply Hu. by destruct origin; simplify_eq/=. Qed.

Lemma asset_count_triple (I : NsState -> Prop) m : triple I (asset_count_of m) (fun _ => I).
Proof.
  intros s a s' HI (s0 & s1 & [-> ->]%get_ok & Hr)%bind_ok.
  by apply bind_ok in Hr as (mk & s1 & [_ ->]%lift_ok & [_ ->]%mret_ok).
Qed.
Lemma check_relayed_triple (I : NsState -> Prop) w pf b e : triple I (check_relayed w pf b e) (fun _ => I).
Proof.
  intros s a s' HI (u & s1 & [_ ->]%lift_ok & Hr)%bind_ok.
  apply bind_ok in Hr as (now & s1 & [_ ->]%gets_ok & Hr).
  by apply bind_ok in Hr as (u2 & s1 & [_ ->]%lift_ok & [_ ->]%lift_ok).
Qed.

(** A call after its signature check. *)
Lemma user_call {A} t origin (m : AccountId -> ST DispatchError NsState A) s :
  ns_inv (lacking t) s -> by_user origin ->
  (forall w, (forall m', w <> pool_account_id m') -> triple (ns_inv (lacking t)) (m w) (fun _ => ns_inv (lacking t))) ->
  ns_inv (lacking t) (exec (transactional (who ← lift (ensure_signed origin); m who)) s).
Proof.
  intros HI Hu Hm. apply (exec_transactional (ns_inv (lacking t))); [done|].
  intros s1 a s2 HI1 (w & s3 & [Hw ->]%lift_ok & Hr)%bind_ok.
  eapply Hm; [|exact HI1|exact Hr]. intros m'. apply Hu. by destruct origin; simplify_eq/=.
Qed.

(** ... that takes outcome tokens from the pool of [mid]. *)
Lemma user_debit {A} t mid origin (m : AccountId -> ST DispatchError NsState A) s :
  ns_inv (lacking t) s -> by_user origin ->
  (forall w, (forall m', w <> pool_account_id m') -> triple (ns_inv (lacking t)) (m w) (fun _ => ns_inv (lost mid 0 (lacking t)))) ->
  let call := transactional (who ← lift (ensure_signed origin); m who) in
  ns_inv (lacking (counted mid call s t)) (exec call s).
Proof.
  intros HI Hu Hm call. unfold counted, exec. destruct (call s) as [[a|e] s'] eqn:Hr; cbn [fst snd is_ok].
  - apply inv_counted. apply transactional_ok, bind_ok in Hr as (w & s3 & [Hw ->]%lift_ok & Hr).
    eapply Hm; [|exact HI|exact Hr]. intros m'. apply Hu. by destruct origin; simplify_eq/=.
  - by rewrite (transactional_err _ _ _ _ Hr).
Qed.

(** Walks through the checks of a call down to its operation. *)
Ltac call_checks :=
  repeat match goal with
  | |- triple _ (lift _) _ => apply triple_lift
  | |- triple _ (mret _) _ => apply triple_mret
  | |- triple _ (asset_count_of _) _ => apply asset_count_triple
  | |- triple _ (check_relayed _ _ _ _) _ => apply check_relayed_triple
  | |- triple ?I (lift _ ≫= _) _ => refine (triple_bind _ _ (fun _ => I) _ _ _ _); [|intros ?]
  | |- triple ?I (asset_count_of _ ≫= _) _ => refine (triple_bind _ _ (fun _ => I) _ _ _ _); [|intros ?]
  | |- triple ?I (check_relayed _ _ _ _ ≫= _) _ => refine (triple_bind _ _ (fun _ => I) _ _ _ _); [|intros ?]
  end.

Lemma admin_call k origin (f : NsState -> NsState) e s :
  (forall s, Pools (f s) = Pools s /\ sets (f s) = sets s) -> ns_inv k s ->
  ns_inv k (exec (transactional (ensure_admin origin ;; modify f ;; deposit_ns_event e)) s).
Proof.
  intros Hf HI. apply (exec_transactional (ns_inv k)); [done|]. intros s1 a s2 HI1.
  intros (u & s3 & Ha & (u2 & s4 & [_ ->]%modify_ok & [_ ->]%modify_ok)%bind_ok)%bind_ok.
  assert (s3 = s1) as ->.
  { apply bind_ok in Ha as (w & s4 & [_ ->]%lift_ok & Ha). apply bind_ok in Ha as (s0 & s4 & [-> ->]%get_ok & Ha).
    by apply bind_ok in Ha as (ad & s4 & [_ ->]%lift_ok & [_ ->]%lift_ok). }
  destruct (Hf s1) as [Hp Hs]. destruct HI1 as [Hpools Hmk Hl]. split; unfold ns_assets, ns_commons in *; cbn; rewrite ?Hp, ?Hs; done.
Qed.

Lemma api_run_ok {A} f (m : ST DispatchError NsState A) s a s' :
  (let '(r, s1) := m s in (map_err f r : Result (ApiError AmmSoftFail) A, s1)) = (Ok a, s') -> m s = (Ok a, s').
Proof. destruct (m s) as [[x|e] s1]; cbn; congruence. Qed.

Lemma match_soft e f : neo_match_failure e = SoftFailure f -> soft e.
Proof. destruct e as [| | | |[[]| | | | | | | | | | | |]|]; try done. by eexists. Qed.
Lemma api_run_soft {A} (m : ST DispatchError NsState A) s f s' :
  (let '(r, s1) := m s in (map_err neo_match_failure r, s1)) = (Err (SoftFailure f), s') -> exists e, soft e /\ m s = (Err e, s').
Proof. destruct (m s) as [[x|e] s1]; cbn; [done|]. intros [= Hm ->]. apply match_soft in Hm. eauto. Qed.

Lemma slipped_eq e : slipped e = true -> e = neo_error (NumericalLimits SpotPriceSlippedTooLow).
Proof. destruct e as [| | | |[[]| | | | | | | | | | | |]|]; try done. by match goal with x : NumericalLimitsError |- _ => destruct x end. Qed.

Lemma router_sell_soft_inv t s who m a x y e f s' : ns_inv (lacking t) s -> by_user (Signed who) -> 0 <= x ->
  do_sell who m a x y s = (Err e, s') -> neo_match_failure e = SoftFailure f -> ns_inv (lacking (burnt_by s m a x e t)) s'.
Proof.
  intros HI Hu Hx Hr He%match_soft. pose proof (by_user_signed _ Hu) as Hw.
  assert (Hle : forall v m' b, 0 <= v -> lacking t m' b <= lacking (count_debit m v t) m' b).
  { intros v m' b Hv. rewrite lacking_count. by apply lost_ge. }
  destruct (do_sell_soft_inv _ _ _ _ _ _ _ _ _ HI Hw Hx He Hr) as [[Hne ->]|(p & out & Hp & Hout & HI')].
  - unfold burnt_by. destruct (slipped e) eqn:Es; [by apply slipped_eq in Es|done].
  - pose proof (do_sell_soft _ _ _ _ _ _ _ _ He Hr) as [(_ & -> & _)|[-> _]].
    + unfold burnt_by. destruct (slipped e); [|done]. rewrite Hp, Hout. eapply ns_inv_mono; [|exact HI]. intros m' b. apply Hle.
      apply result_bind_ok in Hout as (r & _ & [Hout _]%sell_out_fits). done.
    + unfold burnt_by. cbn [slipped]. rewrite Hp, Hout. by apply inv_counted.
Qed.

Lemma ns_step_inv t s t' s' : ns_inv (lacking t) s -> ns_step t s t' s' -> ns_inv (lacking t') s'.
Proof.
  intros HI. destruct 1;
    try (apply user_debit; [done|done|intros w Hw; call_checks; intros s1 ? s2 HI1 Hr]);
    try (apply user_call; [done|done|intros w Hw; call_checks; intros s1 ? s2 HI1 Hr]).
  - apply bind_ok in Hr as (tr & s3 & Hr & [_ ->]%mret_ok). eapply do_buy_inv; [exact HI1|exact Hw|done|exact Hr].
  - apply bind_ok in Hr as (tr & s3 & Hr & [_ ->]%mret_ok). eapply do_sell_inv; [exact HI1|exact Hw|done|exact Hr].
  - eapply do_join_inv; [exact HI1|exact Hw|done|exact Hr].
  - eapply do_exit_inv; [exact HI1|exact Hw|done|exact Hr].
  - eapply do_withdraw_fees_inv; [exact HI1|exact Hw|exact Hr].
  - eapply do_deploy_inv; [exact HI1|exact Hw|done|exact Hr].
  - eapply do_join_inv; [exact HI1|exact Hw|done|exact Hr].
  - eapply do_exit_inv; [exact HI1|exact Hw|done|exact Hr].
  - eapply do_withdraw_fees_inv; [exact HI1|exact Hw|exact Hr].
  - by apply admin_call.
  - by apply admin_call.
  - eapply do_deploy_inv; [done|by apply by_user_signed|done|done].
  - apply inv_counted. eapply do_buy_inv; [done|by apply by_user_signed|done|by eapply api_run_ok].
  - match goal with H : api_buy _ _ _ _ _ _ = _ |- _ => apply api_run_soft in H as (e & He & Hr) end. eapply do_buy_soft_inv; [done|by apply by_user_signed|done|exact He|exact Hr].
  - apply inv_counted. eapply do_sell_inv; [done|by apply by_user_signed|done|by eapply api_run_ok].
  - by eapply router_sell_soft_inv.
  - by eapply elsewhere_inv.
Qed.

Lemma ns_run_inv t s : ns_run t s -> ns_inv (lacking t) s.
Proof.
  induction 1 as [s fee HP Hm|t s t' s' _ IH Hs]; [|by eapply ns_step_inv].
  split; [|done|unfold lacking; cbn; lia]. intros m p. cbn. by rewrite HP, lookup_empty.
Qed.

(** ** Joining and leaving *)

Lemma join_amounts who p ratio (rs : BTreeMap Asset Z) : forall maxs s amts s' rs',
  (length rs <= length maxs)%nat -> (forall a r, (a, r) ∈ rs -> bt_get a (reserves p) = Some r) ->
  join_transfers who p ratio (zip rs.*1 maxs) s = (Ok amts, s') ->
  map_reserves (checked_add_res 128) rs amts = Ok rs' ->
  Forall2 (fun x y => y.1 = x.1 /\ y.2 = x.2 + (ratio * x.2 + (BASE - 1)) / BASE) rs rs'.
Proof.
  induction rs as [|[a r] rs IH]; intros maxs s amts s' rs' Hlen Hin.
  { intros _ Hm. by injection Hm as <-. }
  destruct maxs as [|mx maxs]; [cbn in Hlen; lia|]. cbn [zip zip_with fmap list_fmap join_transfers fst].
  intros (bp & s1 & [Hbp%ok_or_ok ->]%lift_ok & Hr)%bind_ok Hm.
  apply bind_ok in Hr as (am & s1 & [(_ & _ & Ham)%bmul_ceil_ok ->]%lift_ok & Hr).
  do 2 apply bind_ok in Hr as (? & ? & _ & Hr). apply bind_ok in Hr as (ams & s2 & Hr & [-> _]%mret_ok).
  cbn [map_reserves] in Hm. apply result_bind_ok in Hm as (r1 & [-> _]%checked_add_res_ok & Hm).
  apply result_bind_ok in Hm as (rs1 & Hm & [= <-]). assert (bp = r) as -> by (specialize (Hin a r (list_elem_of_here _ _)); congruence).
  constructor; [cbn; by rewrite Ham|]. eapply IH; [by apply le_S_n| |exact Hr|exact Hm].
  intros b v Hb. apply Hin. by right.
Qed.

Lemma exit_amounts who p ratio (rs : BTreeMap Asset Z) : forall mins s amts s' rs',
  0 <= ratio -> (forall a r, (a, r) ∈ rs -> bt_get a (reserves p) = Some r /\ 0 <= r) ->
  exit_transfers who p ratio (zip rs.*1 mins) s = (Ok amts, s') ->
  map_reserves checked_sub_res rs amts = Ok rs' ->
  Forall2 (fun x y => y.1 = x.1 /\ x.2 - ratio * x.2 / BASE <= y.2) rs rs'.
Proof.
  assert (Hz : forall rs : BTreeMap Asset Z, 0 <= ratio -> (forall a r, (a, r) ∈ rs -> 0 <= r) ->
    Forall2 (fun x y : Asset * Z => y.1 = x.1 /\ x.2 - ratio * x.2 / BASE <= y.2) rs rs).
  { intros rs0 Hr Hin. apply Forall_Forall2_diag, Forall_forall. intros [a r] Har. split; [done|]. cbn.
    specialize (Hin a r Har). pose proof BASE_pos. pose proof (Z.div_pos (ratio * r) BASE ltac:(nia) ltac:(lia)). lia. }
  induction rs as [|[a r] rs IH]; intros mins s amts s' rs' Hratio Hin.
  { intros _ Hm. by injection Hm as <-. }
  destruct mins as [|mx mins].
  { intros [-> _]%mret_ok [= <-]. apply Hz; [done|]. intros b v Hb. by apply Hin in Hb as [_ ?]. }
  cbn [zip zip_with fmap list_fmap exit_transfers fst].
  intros (bp & s1 & [Hbp%ok_or_ok ->]%lift_ok & Hr)%bind_ok Hm.
  apply bind_ok in Hr as (am & s1 & [(_ & _ & Ham)%bmul_floor_ok ->]%lift_ok & Hr).
  do 2 apply bind_ok in Hr as (? & ? & _ & Hr). apply bind_ok in Hr as (ams & s2 & Hr & [-> _]%mret_ok).
  cbn [map_reserves] in Hm. apply result_bind_ok in Hm as (r1 & [-> _]%checked_sub_res_ok & Hm).
  apply result_bind_ok in Hm as (rs1 & Hm & [= <-]).
  assert (bp = r) as -> by (destruct (Hin a r (list_elem_of_here _ _)); congruence).
  constructor; [split; [done|]; cbn [fst snd]; by rewrite Ham|]. eapply IH; [done| |exact Hr|exact Hm].
  intros b v Hb. apply Hin. by right.
Qed.

Lemma exit_ratio_le mk x total r : 0 <= x -> 0 < total -> exit_ratio mk x total = Ok r -> total * r <= x * BASE.
Proof.
  intros Hx Ht (r0 & (_ & _ & Hne & ->)%bdiv_floor_ok & Hr)%result_bind_ok. pose proof BASE_pos.
  pose proof (Z.mul_div_le (x * BASE) total Ht). pose proof (Z.div_pos (x * BASE) total ltac:(nia) Ht).
  case_decide; [|by simplify_eq]. apply result_bind_ok in Hr as (b & [-> _]%base_get_ok & Hr).
  apply result_bind_ok in Hr as (mu & [-> Hle]%checked_sub_res_ok & (_ & _ & ->)%bmul_floor_ok).
  set (q := x * BASE / total) in *. assert (q * (BASE - EXIT_FEE) / BASE <= q); [|nia].
  apply Z.div_le_upper_bound; [lia|]. assert (0 <= EXIT_FEE) by done. nia.
Qed.

(** What a share ratio rounded up paid in covers what the ratio rounded down takes out. *)
Lemma ceil_floor_no_gain (T x r ri ro : Z) : 0 < T -> 0 <= x -> 0 <= r -> 0 <= ri -> 0 <= ro ->
  x * BASE <= T * ri -> (T + x) * ro <= x * BASE ->
  let i := (ri * r + (BASE - 1)) / BASE in ro * (r + i) / BASE <= i.
Proof.
  intros HT Hx Hr Hri Hro Hin Hout i. pose proof BASE_pos as HB.
  assert (Hi : ri * r <= BASE * i) by (pose proof (Z.div_mod (ri * r + (BASE - 1)) BASE ltac:(lia));
    pose proof (Z.mod_pos_bound (ri * r + (BASE - 1)) BASE HB); unfold i; nia).
  assert (Hi0 : 0 <= i) by nia.
  assert (Hxr : x * r <= T * i) by nia.
  set (o := ro * (r + i) / BASE). assert (Ho : BASE * o <= ro * (r + i)) by (apply Z.mul_div_le; lia).
  assert (Hto : (T + x) * o <= x * (r + i)) by nia. nia.
Qed.

Lemma ceil_ratio_le x total r : 0 < total -> bdiv_ceil 128 x total = Ok r -> x * BASE <= total * r.
Proof.
  intros Ht (_ & _ & _ & ->)%bdiv_ceil_ok; [|lia].
  pose proof (Z.div_mod (x * BASE + (total - 1)) total ltac:(lia)).
  pose proof (Z.mod_pos_bound (x * BASE + (total - 1)) total Ht). nia.
Qed.

(** The pool's shares. *)
Definition pool_total (p : Pool) : Z := tot (liquidity_shares_manager p) 0.

Lemma pool_after_join k s who m x maxs p s1 :
  ns_inv k s -> fits 128 x -> Pools s !! m = Some p -> do_join who m x maxs s = (Ok tt, s1) ->
  0 < pool_total p /\ exists ri p1, Pools s1 !! m = Some p1 /\ pool_total p1 = pool_total p + x /\
    0 <= ri /\ x * BASE <= pool_total p * ri /\
    Forall2 (fun r r1 => r1.1 = r.1 /\ r1.2 = r.2 + (ri * r.2 + (BASE - 1)) / BASE) (reserves p) (reserves p1).
Proof.
  intros HI Hx Hp Hj. apply do_join_run in Hj
    as (p' & mk & T & ri & amts & s3 & rs & t & info & b & Hp' & Hmk & Hlen & HT & Hri & Hj & Hrs & Ht & HP & _).
  assert (p' = p) as -> by congruence. set (p1 := mkPool _ _ _ _ _ _) in HP.
  destruct (ni_pools _ _ HI m p Hp) as (mk' & Hmk' & Hok). assert (mk' = mk) as -> by congruence.
  apply total_view_ok in HT as [-> HT]; [|apply Hok]. fold (pool_total p) in *.
  assert (pool_total p <> 0) by (apply bdiv_ceil_ok in Hri as (_ & _ & ? & _); done).
  split; [lia|]. exists ri, p1. apply join_ok in Ht as [Hm1 _]; [|apply Hok|done].
  split; [rewrite HP; apply lookup_insert_eq|]. split; [apply (sm_total _ _ _ _ _ Hm1)|].
  split; [eapply ceil_ratio_nonneg; [apply Hx|exact HT|exact Hri]|]. split; [apply ceil_ratio_le; [lia|done]|].
  eapply join_amounts; [|intros a r; by apply (bt_get_elem _ _ _ (po_sorted _ _ _ _ _ Hok))|exact Hj|exact Hrs].
  rewrite <- (length_fmap fst). change ((reserves p).*1) with (bt_keys (reserves p)). rewrite (po_keys _ _ _ _ _ Hok).
  by rewrite (outcome_assets_length _ _ Hlen).
Qed.

Lemma pool_after_exit k s who m x mins p s1 :
  ns_inv k s -> fits 128 x -> Pools s !! m = Some p -> do_exit who m x mins s = (Ok tt, s1) ->
  x < pool_total p -> exists ro p1, Pools s1 !! m = Some p1 /\ 0 <= ro /\ pool_total p * ro <= x * BASE /\
    Forall2 (fun r r1 => r1.1 = r.1 /\ r.2 - ro * r.2 / BASE <= r1.2) (reserves p) (reserves p1).
Proof.
  intros HI [Hx0 Hx] Hp He HT. apply do_exit_run in He
    as (p' & mk & T & ro & amts & s4 & rs & t & Hp' & Hmk & HT2 & Hro & He & Hrs & Ht & Hres).
  assert (p' = p) as -> by congruence. destruct (ni_pools _ _ HI m p Hp) as (mk' & _ & Hok).
  apply total_view_ok in HT2 as [-> _]; [|apply Hok]. fold (pool_total p) in *.
  apply exit_ok in Ht as [Hm _]; [|apply Hok|done]. pose proof (sm_total _ _ _ _ _ Hm). fold (pool_total p) in *.
  destruct Hres as [(Hz & _)|(_ & _ & b & HP)].
  { rewrite (total_shares_eq MaxLiquidityTreeDepth t (sm_wf _ _ _ _ _ Hm)) in Hz. cbn in Hz. case_match; [|done].
    injection Hz as Hz. lia. }
  set (p1 := mkPool _ _ _ _ _ _) in HP. exists ro, p1. split; [rewrite HP; apply lookup_insert_eq|].
  assert (Hro0 : 0 <= ro) by (apply exit_ratio_nonneg in Hro; [done|done|lia]). split; [done|].
  split; [eapply exit_ratio_le; [done|lia|exact Hro]|].
  eapply exit_amounts; [done| |exact He|exact Hrs].
  intros a r Hr. apply (bt_get_elem _ _ _ (po_sorted _ _ _ _ _ Hok)) in Hr. split; [done|by eapply backed_nonneg].
Qed.

(** C21. Joining a pool and leaving it again with the same shares never takes
    from the pool: in every run, whatever trades failed softly in it and whatever
    minimum balances the assets have, after a join of [x] pool shares directly
    followed by an exit of [x] shares by the same provider the pool still exists
    and none of the reserves it records is smaller than before the join. *)
Theorem join_exit_no_profit t s who m x maxs mins p s1 s2 :
  ns_run t s -> by_user (Signed who) -> fits 128 x -> Pools s !! m = Some p ->
  do_join who m x maxs s = (Ok tt, s1) -> do_exit who m x mins s1 = (Ok tt, s2) ->
  exists p2, Pools s2 !! m = Some p2 /\ Forall2 (fun r r2 => r2.1 = r.1 /\ r.2 <= r2.2) (reserves p) (reserves p2).
Proof.
  intros HI%ns_run_inv Hu Hx Hp Hj He. pose proof (by_user_signed _ Hu) as Hwho.
  pose proof (do_join_inv _ _ _ _ _ _ _ _ HI Hwho Hx Hj) as HI1.
  destruct (pool_after_join _ _ _ _ _ _ _ _ HI Hx Hp Hj) as (HT & ri & p1 & Hp1 & HT1 & Hri0 & Hri & Hin).
  destruct (pool_after_exit _ _ _ _ _ _ _ _ HI1 Hx Hp1 He ltac:(lia)) as (ro & p2 & Hp2 & Hro0 & Hro & Hout).
  exists p2. split; [done|]. destruct (ni_pools _ _ HI m p Hp) as (mk & _ & Hok).
  assert (Hpos : Forall (fun r => 0 <= r.2) (reserves p)).
  { apply Forall_forall. intros [a r] Hr. apply (bt_get_elem _ _ _ (po_sorted _ _ _ _ _ Hok)) in Hr.
    by eapply backed_nonneg. }
  destruct Hx as [Hx _]. rewrite HT1 in Hro. revert Hpos Hout. generalize (reserves p2).
  induction Hin as [|[a r] [a1 r1] rs rs1 [Ha Hr1] _ IH]; intros rs2 Hpos Hout; inversion_clear Hout as [|? [a2 r2] ? ? [Ha2 Hr2] Hout'];
    [constructor|]. inversion_clear Hpos as [|? ? Hr Hpos']. cbn [fst snd] in *. subst. constructor; [|by apply IH].
  split; [done|]. cbn [snd]. pose proof (ceil_floor_no_gain _ _ _ _ _ HT Hx Hr Hri0 Hro0 Hri Hro) as Hng. cbv zeta in Hng. lia.
Qed.

(** C4. Pools are backed, up to known losses.  In every run of the pallet (calls,
    relayed calls, administration, trades of the router that succeed or fail
    softly, and anything other pallets do that spends nothing of the pools'
    accounts and lists no market whose base asset is one of its outcomes), every
    pool trades exactly the outcomes of its market for the market's base asset and
    lives on the account derived from its market id.  Of each outcome that account
    holds the reserve the pool records, save what may have been swept as dust, less
    than the minimum balance for each of the [debits] (buys, sells and exits), and
    the complete sets [burnt] by sells through the router that failed only after
    they were carried out, because the price had slipped too low.  Of the collateral
    it always holds the existential deposit and every fee recorded in its liquidity
    tree; so whatever the tree hands out as a provider's fees is there to be
    transferred, as the code's comment promises. *)
Theorem pools_backed t s m p :
  ns_run t s -> Pools s !! m = Some p ->
  account_id p = pool_account_id m /\
  (exists mk, market (ns_commons s) m = Ok mk /\ assets_of p = outcome_assets mk /\ collateral p = base_asset mk) /\
  (forall a r, reserve_of p a = Ok r ->
     0 <= r <= bal a (account_id p) (ns_assets s) + debits t m * Z.max 0 (minimum_balance a - 1) + burnt t m) /\
  wf MaxLiquidityTreeDepth (liquidity_shares_manager p) /\
  minimum_balance (collateral p) + total_fees (liquidity_shares_manager p)
    <= bal (collateral p) (account_id p) (ns_assets s) /\
  (forall who x t, withdraw_fees MaxLiquidityTreeDepth who (liquidity_shares_manager p) = (Ok x, t) ->
     0 <= x /\ minimum_balance (collateral p) + total_fees t <= bal (collateral p) (account_id p) (ns_assets s) - x).
Proof.
  intros HI%ns_run_inv Hp. destruct (ni_pools _ _ HI m p Hp) as (mk & Hmk & Hok).
  pose proof (po_fees _ _ _ _ _ Hok) as Hfees. split; [apply Hok|]. split; [exists mk; split_and!; [done|apply Hok..]|].
  split; [intros a r Hr%ok_or_ok; pose proof (po_backed _ _ _ _ _ Hok a r Hr) as Hb; unfold lacking, dust in Hb; lia|].
  split; [apply Hok|]. split; [done|]. intros who x t' (_ & Hx & Hle & _)%withdraw_ok; [|apply Hok]. split; [done|lia].
Qed.

(** ** Failures the router swallows *)





(** ** The promises to the router *)

Lemma do_buy_amount who m a x y s tr s' : do_buy who m a x y s = (Ok tr, s') -> amm_amount_in tr = x.
Proof.
  unfold do_buy. intros (? & ? & _ & Hr)%bind_ok. do 3 apply bind_ok in Hr as (? & ? & _ & Hr).
  apply try_mutate_ok in Hr as (p & p' & s1 & _ & Hr & _).
  do 2 apply bind_ok in Hr as (? & ? & _ & Hr). apply bind_ok in Hr as ([fees p1] & s2 & _ & Hr).
  repeat (apply bind_ok in Hr as (? & ? & _ & Hr)). by apply mret_ok in Hr as [[= -> _] _].
Qed.

Lemma do_sell_amount who m a x y s tr s' : do_sell who m a x y s = (Ok tr, s') -> amm_amount_in tr = x.
Proof.
  unfold do_sell. intros (? & ? & _ & Hr)%bind_ok. do 3 apply bind_ok in Hr as (? & ? & _ & Hr).
  apply try_mutate_ok in Hr as (p & p' & s1 & _ & Hr & _).
  do 7 apply bind_ok in Hr as (? & ? & _ & Hr). apply bind_ok in Hr as ([fees p1] & s2 & _ & Hr).
  repeat (apply bind_ok in Hr as (? & ? & _ & Hr)). by apply mret_ok in Hr as [[= -> _] _].
Qed.

#[global] Instance neo_amm_laws : AmmLaws.
Proof.
  split; cbn.
  - intros c w m a x y [s l] tr [s' l']. unfold lent. destruct (api_buy _ _ _ _ _ _) as [r s1] eqn:E.
    intros [= -> <- <-]. apply api_run_ok in E. by eapply do_buy_amount.
  - intros c w m a x y [s l] tr [s' l']. unfold lent. destruct (api_sell _ _ _ _ _ _) as [r s1] eqn:E.
    intros [= -> <- <-]. apply api_run_ok in E. by eapply do_sell_amount.
  - intros c m a p s x. unfold neo_buy_amount_until, amount_including_fee_surplus.
    intros (q & _ & Hr)%result_bind_ok.
    apply result_bind_ok in Hr as (b & Hb & Hr). unfold pool_buy_amount_until in Hb.
    apply result_bind_ok in Hb as (? & _ & Hb). apply result_bind_ok in Hb as (? & _ & [Hb _]%buy_until_fits).
    do 2 apply result_bind_ok in Hr as (? & _ & Hr). apply result_bind_ok in Hr as (base & _ & Hr).
    apply result_bind_ok in Hr as (d & [Hd Hle]%ok_or_ok%checked_sub_some & Hr).
    apply bdiv_ok in Hr as (_ & _ & Hne & ->); [|lia].
    pose proof BASE_pos. pose proof (Z.div_pos d 2 ltac:(lia) ltac:(lia)). apply Z.div_pos; nia.
  - intros c m a p s x. unfold neo_sell_amount_until, pool_sell_amount_until.
    intros (q & _ & Hr)%result_bind_ok. do 2 apply result_bind_ok in Hr as (? & _ & Hr).
    by apply sell_until_fits in Hr as [? _].
Qed.
End Runs.
