(* ===== verification/NeoDemo.v ===== *)
(** * The neo-swaps pallet: runs

    A pool over the reference ledger, the reference numbers and the runtime's
    swap fee: the test vectors of [math.rs], concrete instances of the theorems
    on the pools, and runs through the hybrid router in which a soft failure of
    the pool is swallowed. *)

From S2P Require Import Prelude Errors FixedMath LiquidityTree LiquidityTreeFacts LiquidityTreeInv Collections Interfaces.
From S2P Require Import Market MultiCurrency Fees OrderBook OrderBookInv HybridRouter HybridRouterInv.
From S2P Require Import CompleteSets NeoMath NeoReference NeoSwaps NeoSwapsInv NeoSwapsRuns.

(** ** The environment *)

(** The runtime's minimum balances; foreign assets are not registered. *)
Definition demo_minimum : Asset -> Z := ExistentialDeposits (fun _ => None).
#[global] Instance demo_currency : MultiCurrency RefAssets := ref_currency demo_minimum.
#[global] Instance demo_currency_laws : @MultiCurrencyLaws RefAssets demo_currency.
Proof. apply ref_currency_laws. intros []; by vm_compute. Qed.

#[global] Instance pool_book : OrderBookConfig := {|
  Assets := RefAssets;
  AssetManager := demo_currency;
  ob_reserve_id := 3;
  distribute := swap_fee_distribute (Ok 99%N) (Ok (BASE / 100)) |}.

(** Accounts without a key are even, users odd. *)
Definition demo_neo_encode (x : NeoSigned) : list Z :=
  match x with
  | SignedJoin r m x l b => [0; Z.of_N r; m; x; b] ++ l
  | SignedWithdrawFees r m b => [1; Z.of_N r; m; b]
  | SignedExit r m x l b => [2; Z.of_N r; m; x; b] ++ l
  end.

#[global] Instance pool_config : NeoSwapsConfig := {|
  ns_fixed := ref_fixed;
  ns_market_accounts := fun m => Npos (encode m)~1~0;
  MaxLiquidityTreeDepth := 9;
  MaxSwapFee := 10 * CENT_BASE;
  SignedTxLifetime := 16;
  pool_account_id := fun m => Npos (encode m)~0~0;
  ns_encode := demo_neo_encode;
  ns_verify_signature pf x := signature pf =? Z.pos (encode x) |}.

#[global] Instance pool_laws : NeoLaws.
Proof.
  assert (Hfee : forall f, (Ok (BASE / 100) : Res Z) = Ok f -> 0 <= f) by (intros f [= <-]; by vm_compute).
  split.
  - exact demo_currency_laws.
  - intros. by apply swap_fee_nonneg.
  - intros m a x v l. by apply swap_fee_debit.
  - intros. by apply swap_fee_others.
  - intros. by apply swap_fee_assets.
  - intros m m' [= Heq]. by apply (inj encode) in Heq.
  - intros m m' [=].
  - intros a x y v l e l'. cbn. case_match; [done|]. by intros [= <- _] [? ?].
  - intros a x v l e l'. by intros [=].
Qed.

(** ** The test vectors of [math.rs] *)

Example buy_even : calculate_swap_amount_out_for_buy (10 * BASE) (10 * BASE) 144269504088 = Ok 58496250072.
Proof. vm_compute. reflexivity. Qed.
Example sell_even : calculate_swap_amount_out_for_sell (10 * BASE) (10 * BASE) 144269504088 = Ok 41503749928.
Proof. vm_compute. reflexivity. Qed.
Example reserves_uneven :
  calculate_reserves_from_spot_prices (20 * BASE) [3 * BASE / 4; BASE / 4]
  = Ok (144269504089, [41503749928; 200000000000]).
Proof. vm_compute. reflexivity. Qed.

(** ** Runs *)

Definition yes : Asset := CategoricalOutcome 0 0.
Definition no : Asset := CategoricalOutcome 0 1.
Definition pool_market : Market :=
  mkMarket 0 Tru 1%N Permissionless 0 2%N [] (CategoricalType 2) (BlockPeriod 1 10)
    (mkDeadlines 1 2 3) AmmCdaHybrid Active None None (Some Court) MarketBonds_default None.

(** Two users with 10000 complete sets each, whose collateral the market holds. *)
Definition demo_balances : RefAssets :=
  mkAssets (list_to_map ([((Tru, market_account 0), 20000 * BASE)] ++
    (w ← [11%N; 13%N]; a ← [Tru; yes; no]; [((a, w), 10000 * BASE)]))) ∅.
Definition demo_commons : MarketCommons := mkCommons {[ 0 := pool_market ]} (Some 1) ∅.
Definition demo_ns : NsState := GenesisConfig_build (BASE / 100)
  (mkNs ∅ (Some 15%N) None (mkCs demo_balances demo_commons []) (Some 17%N) ∅ 5 []).

(** A provider deploys a pool, a trader buys, another provider joins. *)
Definition demo_ns1 : NsState := exec (deploy_pool (Signed 11%N) 0 (100 * BASE) [4 * CENT_BASE * 10; 6 * CENT_BASE * 10] CENT_BASE) demo_ns.
Definition demo_ns2 : NsState := exec (neo_buy (Signed 13%N) 0 2 yes (20 * BASE) 0) demo_ns1.
Definition demo_ns3 : NsState := exec (do_join 13%N 0 (40 * BASE) [1000 * BASE; 1000 * BASE]) demo_ns2.
Definition demo_ns4 : NsState := exec (do_exit 13%N 0 (40 * BASE) [0; 0]) demo_ns3.

#[global] Instance pool_router : HybridRouterConfig := {|
  MaxOrders := 100;
  router_encode x := [];
  router_verify_signature pf x := false |}.
Definition demo_hr_neo : HrState := mkHr (mkOb 0 ∅ (ns_assets demo_ns1) (ns_commons demo_ns1) []) demo_ns1 ∅ [].

Lemma odd_user p : by_user (Signed (Npos p~1)).
Proof. by intros who m [= <-]. Qed.

Lemma demo_ns_start : ns_run no_tally demo_ns.
Proof.
  unfold demo_ns. apply ns_start; [done|]. intros m mk. destruct (decide (m = 0)) as [->|Hne].
  - intros [= <-]. apply (bool_decide_unpack (base_asset pool_market ∉ outcome_assets pool_market)). vm_compute. exact I.
  - cbn. unfold market, demo_ns. cbn. by rewrite lookup_singleton_ne.
Qed.

Lemma demo_ns1_run : ns_run no_tally demo_ns1.
Proof. eapply ns_next; [exact demo_ns_start|apply step_neo_deploy; [apply odd_user|by vm_compute]]. Qed.

Definition demo_tally : Tally := counted 0 (neo_buy (Signed 13%N) 0 2 yes (20 * BASE) 0) demo_ns1 no_tally.
Lemma demo_ns2_run : ns_run demo_tally demo_ns2.
Proof. eapply ns_next; [exact demo_ns1_run|]. apply step_neo_buy; [apply odd_user|by vm_compute]. Qed.

Definition demo_pool : Pool := default (mkPool 0%N [] Tru 0 (mkTree [] ∅ []) 0) (Pools demo_ns2 !! 0).
Lemma demo_pool_there : Pools demo_ns2 !! 0 = Some demo_pool.
Proof. vm_compute. reflexivity. Qed.

(** The router asks the pool for a sell after which the price is too low. *)
Definition slip_error : DispatchError := neo_error (NumericalLimits SpotPriceSlippedTooLow).
Definition demo_slipped : NsState := exec (do_sell 13%N 0 yes (1050 * BASE) 0) demo_ns1.
Definition slip_tally : Tally := burnt_by demo_ns1 0 yes (1050 * BASE) slip_error no_tally.
Lemma demo_slip : do_sell 13%N 0 yes (1050 * BASE) 0 demo_ns1 = (Err slip_error, demo_slipped).
Proof. unfold demo_slipped. apply exec_result. vm_compute. reflexivity. Qed.
Lemma demo_slipped_run : ns_run slip_tally demo_slipped.
Proof.
  eapply ns_next; [exact demo_ns1_run|]. eapply (step_router_sell_soft _ _ 13%N 0 yes (1050 * BASE) 0 Numerical);
    [apply odd_user|by vm_compute|exact demo_slip|done].
Qed.

Definition slip_pool : Pool := default (mkPool 0%N [] Tru 0 (mkTree [] ∅ []) 0) (Pools demo_slipped !! 0).
Lemma slip_pool_there : Pools demo_slipped !! 0 = Some slip_pool.
Proof. vm_compute. reflexivity. Qed.

(** After a buy the fees are there; after the slipped sell the pool records more of
    an outcome than it holds, by what was burnt at most. *)
Lemma pools_backed_witness :
  (minimum_balance Tru + total_fees (liquidity_shares_manager demo_pool) = 2000000000 /\
   2000000000 <= mc_free_balance Tru (account_id demo_pool) (ns_assets demo_ns2)) /\
  exists r, reserve_of slip_pool no = Ok r /\
    mc_free_balance no (account_id slip_pool) (ns_assets demo_slipped) < r /\
    r <= mc_free_balance no (account_id slip_pool) (ns_assets demo_slipped) + debits slip_tally 0 * 99999 + burnt slip_tally 0.
Proof.
  destruct (pools_backed demo_tally demo_ns2 0 demo_pool demo_ns2_run demo_pool_there) as (_ & _ & _ & _ & Hf & _).
  destruct (pools_backed slip_tally demo_slipped 0 slip_pool demo_slipped_run slip_pool_there) as (_ & _ & Hb & _).
  split; [split; [vm_compute; reflexivity|exact Hf]|]. destruct (reserve_of slip_pool no) as [r|e] eqn:Hr; [|vm_compute in Hr; discriminate Hr].
  exists r. split; [reflexivity|]. split; [|exact (proj2 (Hb no r Hr))]. vm_compute in Hr. injection Hr as <-. vm_compute. reflexivity.
Defined.

Lemma demo_join : do_join 13%N 0 (40 * BASE) [1000 * BASE; 1000 * BASE] demo_ns2 = (Ok tt, demo_ns3).
Proof. unfold demo_ns3. apply exec_ok. vm_compute. reflexivity. Qed.
Lemma demo_exit : do_exit 13%N 0 (40 * BASE) [0; 0] demo_ns3 = (Ok tt, demo_ns4).
Proof. unfold demo_ns4. apply exec_ok. vm_compute. reflexivity. Qed.

Lemma join_exit_no_profit_witness :
  exists p2, Pools demo_ns4 !! 0 = Some p2 /\
    Forall2 (fun r r2 => r2.1 = r.1 /\ r.2 <= r2.2) (reserves demo_pool) (reserves p2).
Proof.
  refine (join_exit_no_profit demo_tally demo_ns2 13%N 0 (40 * BASE) _ _ demo_pool demo_ns3 demo_ns4
    demo_ns2_run (odd_user _) _ demo_pool_there demo_join demo_exit).
  vm_compute. split; discriminate.
Defined.

(** ** Swallowed failures

    The pool reports its numerical limits after it moved funds; the router
    takes such an error for "nothing traded" and goes on. *)




(** What becomes of them in a whole call: a limit buy charges the buyer twice, into
    the pool and into the limit order; a limit sell pays the seller for a trade that
    the event does not report, and puts all she sold up for sale again. *)
Example limit_orders_after_soft_failures :
  (exists s e, buy (Signed 11%N) 0 2 no (1300 * BASE) (BASE - 100) [] LimitOrder demo_hr_neo = (Ok tt, s) /\
    hr_events s = [e] /\ ev_amount_out e = 0 /\
    mc_free_balance Tru 11%N (assets (book demo_hr_neo)) - mc_free_balance Tru 11%N (assets (book s)) = 2 * (1300 * BASE) /\
    maker_amount <$> Orders (book s) !! 0 = Some (1300 * BASE)) /\
  (exists s e, sell (Signed 13%N) 0 2 yes (1080 * BASE) 450000 [] LimitOrder demo_hr_neo = (Ok tt, s) /\
    hr_events s = [e] /\ ev_amount_out e = 0 /\
    mc_free_balance Tru 13%N (assets (book demo_hr_neo)) < mc_free_balance Tru 13%N (assets (book s)) /\
    maker_amount <$> Orders (book s) !! 0 = Some (1080 * BASE)).
Proof.
  split.
  - exists (exec (buy (Signed 11%N) 0 2 no (1300 * BASE) (BASE - 100) [] LimitOrder) demo_hr_neo). eexists.
    split; [apply exec_ok; vm_compute; reflexivity|]. split; [vm_compute; reflexivity|].
    do 2 (split; [vm_compute; reflexivity|]). vm_compute; reflexivity.
  - exists (exec (sell (Signed 13%N) 0 2 yes (1080 * BASE) 450000 [] LimitOrder) demo_hr_neo). eexists.
    split; [apply exec_ok; vm_compute; reflexivity|]. split; [vm_compute; reflexivity|].
    do 2 (split; [vm_compute; reflexivity|]). vm_compute; reflexivity.
Qed.
