(* ===== verification/PredictionMarkets.v ===== *)
(** * The prediction-markets pallet: state, bonds and scheduling

    [pallets/prediction-markets/src/lib.rs]: what the pallet stores and asks of
    the pallets around it, the settlement of bonds, the queues of markets to be
    closed, and the creation of markets.  The calls and the hook are in
    [PmCalls].  Balances are [u128], block numbers [u32], moments and time frames
    [u64]. *)

From S2P Require Import Prelude Errors FixedMath Collections Interfaces DisputeQueue Market GlobalDisputes MultiCurrency CompleteSets.

Definition MILLISECS_PER_BLOCK : Z := 6000.
Definition MAX_RECOVERY_TIME_FRAMES : Z := 20.

(** ** The pallets around it *)

(** [Currency: NamedReservableCurrency] over the ledger of the asset manager,
    and [Slash: OnUnbalanced]. *)
Class BondCurrency (L : Type) := {
  Imbalance : Type;
  imbalance_zero : Imbalance;
  imbalance_subsume : Imbalance -> Imbalance -> Imbalance;
  (** what could not be unreserved *)
  cur_unreserve_named : Z -> AccountId -> Z -> L -> Z * L;
  cur_slash_reserved_named : Z -> AccountId -> Z -> L -> (Imbalance * Z) * L;
  (** into the free balance of the beneficiary *)
  cur_repatriate_reserved_named : Z -> AccountId -> AccountId -> Z -> L -> Res Z * L;
  cur_resolve_creating : AccountId -> Imbalance -> L -> L;
  slash_on_unbalanced : Imbalance -> L -> L }.

(** [DisputeApi] of authorized and court, and [GlobalDisputesPalletApi]: they
    keep their own state, may move balances and reschedule the resolution of
    markets, and read the markets and the block. *)
Class DisputeMechanisms (L : Type) `{BondCurrency L} := {
  DisputeState : Type;
  dm_on_dispute : MarketCommons -> Z -> MarketDisputeMechanism -> Z -> Market ->
    ST DispatchError (DisputeState * L * MarketIdsPerDisputeBlock) unit;
  dm_on_resolution : MarketCommons -> Z -> MarketDisputeMechanism -> Z -> Market ->
    ST DispatchError (DisputeState * L * MarketIdsPerDisputeBlock) (option OutcomeReport);
  dm_exchange : MarketCommons -> Z -> MarketDisputeMechanism -> Z -> Market -> OutcomeReport -> Imbalance ->
    ST DispatchError (DisputeState * L * MarketIdsPerDisputeBlock) Imbalance;
  dm_get_auto_resolve : MarketDisputeMechanism -> Z -> Market -> DisputeState -> option Z;
  dm_has_failed : MarketCommons -> Z -> MarketDisputeMechanism -> Z -> Market -> DisputeState -> Res bool;
  dm_on_global_dispute : MarketCommons -> Z -> MarketDisputeMechanism -> Z -> Market ->
    ST DispatchError (DisputeState * L * MarketIdsPerDisputeBlock) (list GlobalDisputeItem);
  gd_does_exist : Z -> DisputeState -> bool;
  gd_determine_voting_winner : Z ->
    (DisputeState * L * MarketIdsPerDisputeBlock) -> option OutcomeReport * (DisputeState * L * MarketIdsPerDisputeBlock);
  gd_start_global_dispute : MarketCommons -> Z -> Z -> list InitialItem ->
    ST DispatchError (DisputeState * L * MarketIdsPerDisputeBlock) Z }.

(** [DeployPoolApi]: deploys on the balances and reports its provider. *)
Class DeployPools (L : Type) := {
  PoolState : Type;
  dp_deploy_pool : MarketCommons -> Z -> option AccountId -> AccountId -> Z -> Z -> list Z -> Z ->
    ST DispatchError (PoolState * L * gset (Z * AccountId)) unit }.

(** [InspectEthAsset] of eth-asset-registry: the asset of a token contract, its
    decimals and whether markets may use it. *)
Record AssetRegistry := mkRegistry {
  asset_id : Z -> option Asset;
  metadata_decimals : Asset -> option (Z * bool) }.

(** [EthEvent] as far as lifting reads it, with the receiver decoded. *)
Record LiftedData := mkLifted { token_contract : Z; receiver_address : AccountId; lifted_amount : Z }.
Inductive EthEventData :=
| LogLiftedToPredictionMarket (data : LiftedData)
| LogErc20Transfer (data : LiftedData)
| OtherEvent (tag : Z).

(** [TokenInterface] of the token manager. *)
Class TokenInterface := {
  TokenState : Type;
  deposit_tokens : Z -> AccountId -> Z -> ST DispatchError TokenState unit;
  token_process_lift : EthEventData -> ST DispatchError TokenState unit }.

(** What relayed calls sign. *)
Inductive PmSigned :=
| SignedCreate (relayer : AccountId) (nonce : Z) (base_asset : Asset) (creator_fee : Z) (oracle : AccountId)
    (period : MarketPeriod) (deadlines : Deadlines) (metadata : list Z) (market_type : MarketType)
    (dispute_mechanism : option MarketDisputeMechanism) (amount : Z) (spot_prices : list Z) (swap_fee : Z)
| SignedReport (relayer : AccountId) (nonce market_id : Z) (outcome : OutcomeReport)
| SignedWithdraw (relayer : AccountId) (nonce token : Z) (owner : AccountId) (amount : Z)
| SignedTransfer (relayer : AccountId) (nonce token : Z) (from to : AccountId) (amount : Z)
| SignedRedeem (relayer : AccountId) (nonce market_id : Z)
| SignedBuySet (relayer : AccountId) (nonce market_id amount : Z).

Class PmConfig := {
  PmAssets : Type;
  pm_multi_currency :: MultiCurrency PmAssets;
  pm_currency :: BondCurrency PmAssets;
  pm_per_things :: PerThings;
  pm_market_accounts :: MarketAccounts;
  pm_dispute_mechanisms :: DisputeMechanisms PmAssets;
  pm_deploy_pools :: DeployPools PmAssets;
  pm_token_interface :: TokenInterface;
  pm_reserve_id : Z;
  ApproveOrigin : Origin -> bool;
  CloseOrigin : Origin -> bool;
  CloseMarketEarlyOrigin : Origin -> bool;
  RejectOrigin : Origin -> bool;
  RequestEditOrigin : Origin -> bool;
  ResolveOrigin : Origin -> bool;
  AdvisoryBond : Z;
  (** percent *)
  AdvisoryBondSlashPercentage : Z;
  ValidityBond : Z;
  OracleBond : Z;
  OutsiderBond : Z;
  DisputeBond : Z;
  CloseEarlyRequestBond : Z;
  CloseEarlyDisputeBond : Z;
  CloseEarlyProtectionTimeFramePeriod : Z;
  CloseEarlyProtectionBlockPeriod : Z;
  CloseEarlyBlockPeriod : Z;
  CloseEarlyTimeFramePeriod : Z;
  MinCategories : Z;
  MaxCategories : Z;
  (** parts per billion *)
  MaxCreatorFee : Z;
  MinDisputeDuration : Z;
  MaxDisputeDuration : Z;
  MinOracleDuration : Z;
  MaxOracleDuration : Z;
  MaxGracePeriod : Z;
  MaxMarketLifetime : Z;
  MaxRejectReasonLen : Z;
  MaxEditReasonLen : Z;
  (** [WinnerFeeHandler], from the winnings fee account *)
  winner_fee : Res AccountId -> Z -> Asset -> AccountId -> Z -> PmAssets -> Z * PmAssets;
  (** SCALE encoding and account signatures *)
  pm_encode : PmSigned -> list Z;
  pm_verify_signature : Proof_ -> list Z -> bool }.

(** ** Storage *)

Section PredictionMarkets.
Context `{PmConfig}.

Inductive PmEvent :=
| BadOnInitialize
| MarketApproved (market_id : Z) (new_status : MarketStatus)
| MarketCreated (market_id : Z) (market_account : AccountId) (m : Market)
| MarketDestroyed (market_id : Z)
| MarketClosed (market_id : Z)
| MarketEarlyCloseScheduled (market_id : Z) (new_period : MarketPeriod) (state : EarlyCloseState)
| MarketEarlyCloseDisputed (market_id : Z)
| MarketEarlyCloseRejected (market_id : Z)
| MarketDisputed (market_id : Z) (new_status : MarketStatus) (who : AccountId)
| MarketExpired (market_id : Z)
| MarketRejected (market_id : Z) (reason : list Z)
| MarketReported (market_id : Z) (new_status : MarketStatus) (r : Report)
| MarketResolved (market_id : Z) (new_status : MarketStatus) (outcome : OutcomeReport)
| MarketRequestedEdit (market_id : Z) (reason : list Z)
| MarketEdited (market_id : Z) (m : Market)
| TokensRedeemed (market_id : Z) (asset : Asset) (amount payout : Z) (who : AccountId)
| GlobalDisputeStarted (market_id : Z)
| RecoveryLimitReached (last_time_frame limit_time_frame : Z)
| TokensTransferredOut (token : Z) (owner : AccountId) (amount : Z)
| MarketAdminSet (new_admin : AccountId)
| MarketCreatorAdded (account : AccountId)
| MarketCreatorRemoved (account : AccountId)
| VaultAccountSet (account : AccountId)
| AdditionalSwapFeeAccountSet (account : AccountId)
| WinningsFeeAccountSet (account : AccountId)
| MarketOracleUpdated (market_id : Z) (old_oracle new_oracle : AccountId).

(** The pallet's storage with the balances, the markets and the events of
    complete sets ([pm_sets]), the states of the pallets it calls, the block
    number and the timestamp. *)
Record PmState := mkPm {
  pm_sets : CsState PmAssets;
  MarketIdsPerCloseBlock : gmap Z (list Z);
  MarketIdsPerCloseTimeFrame : gmap Z (list Z);
  LastTimeFrame : option Z;
  MarketIdsPerReportBlock : gmap Z (list Z);
  pm_dispute_queue : MarketIdsPerDisputeBlock;
  MarketIdsForEdit : gmap Z (list Z);
  UserNonces : gmap AccountId Z;
  MarketNonces : gmap (AccountId * Z) Z;
  MarketAdmin : option AccountId;
  WhitelistedMarketCreators : gset AccountId;
  VaultAccount : option AccountId;
  WinningsFeeAccount : option AccountId;
  AdditionalSwapFeeAccount : option AccountId;
  LiquidityProviders : gset (Z * AccountId);
  pm_disputes : DisputeState;
  pm_pools : PoolState;
  pm_tokens : TokenState;
  pm_registry : AssetRegistry;
  pm_block : Z;
  pm_now : Z;
  pm_events : list PmEvent }.

Definition set_pm_sets x s :=
  mkPm x (MarketIdsPerCloseBlock s) (MarketIdsPerCloseTimeFrame s) (LastTimeFrame s) (MarketIdsPerReportBlock s) (pm_dispute_queue s) (MarketIdsForEdit s) (UserNonces s) (MarketNonces s) (MarketAdmin s) (WhitelistedMarketCreators s) (VaultAccount s) (WinningsFeeAccount s) (AdditionalSwapFeeAccount s) (LiquidityProviders s) (pm_disputes s) (pm_pools s) (pm_tokens s) (pm_registry s) (pm_block s) (pm_now s) (pm_events s).
Definition set_MarketIdsPerCloseBlock x s :=
  mkPm (pm_sets s) x (MarketIdsPerCloseTimeFrame s) (LastTimeFrame s) (MarketIdsPerReportBlock s) (pm_dispute_queue s) (MarketIdsForEdit s) (UserNonces s) (MarketNonces s) (MarketAdmin s) (WhitelistedMarketCreators s) (VaultAccount s) (WinningsFeeAccount s) (AdditionalSwapFeeAccount s) (LiquidityProviders s) (pm_disputes s) (pm_pools s) (pm_tokens s) (pm_registry s) (pm_block s) (pm_now s) (pm_events s).
Definition set_MarketIdsPerCloseTimeFrame x s :=
  mkPm (pm_sets s) (MarketIdsPerCloseBlock s) x (LastTimeFrame s) (MarketIdsPerReportBlock s) (pm_dispute_queue s) (MarketIdsForEdit s) (UserNonces s) (MarketNonces s) (MarketAdmin s) (WhitelistedMarketCreators s) (VaultAccount s) (WinningsFeeAccount s) (AdditionalSwapFeeAccount s) (LiquidityProviders s) (pm_disputes s) (pm_pools s) (pm_tokens s) (pm_registry s) (pm_block s) (pm_now s) (pm_events s).
Definition set_LastTimeFrame x s :=
  mkPm (pm_sets s) (MarketIdsPerCloseBlock s) (MarketIdsPerCloseTimeFrame s) x (MarketIdsPerReportBlock s) (pm_dispute_queue s) (MarketIdsForEdit s) (UserNonces s) (MarketNonces s) (MarketAdmin s) (WhitelistedMarketCreators s) (VaultAccount s) (WinningsFeeAccount s) (AdditionalSwapFeeAccount s) (LiquidityProviders s) (pm_disputes s) (pm_pools s) (pm_tokens s) (pm_registry s) (pm_block s) (pm_now s) (pm_events s).
Definition set_MarketIdsPerReportBlock x s :=
  mkPm (pm_sets s) (MarketIdsPerCloseBlock s) (MarketIdsPerCloseTimeFrame s) (LastTimeFrame s) x (pm_dispute_queue s) (MarketIdsForEdit s) (UserNonces s) (MarketNonces s) (MarketAdmin s) (WhitelistedMarketCreators s) (VaultAccount s) (WinningsFeeAccount s) (AdditionalSwapFeeAccount s) (LiquidityProviders s) (pm_disputes s) (pm_pools s) (pm_tokens s) (pm_registry s) (pm_block s) (pm_now s) (pm_events s).
Definition set_pm_dispute_queue x s :=
  mkPm (pm_sets s) (MarketIdsPerCloseBlock s) (MarketIdsPerCloseTimeFrame s) (LastTimeFrame s) (MarketIdsPerReportBlock s) x (MarketIdsForEdit s) (UserNonces s) (MarketNonces s) (MarketAdmin s) (WhitelistedMarketCreators s) (VaultAccount s) (WinningsFeeAccount s) (AdditionalSwapFeeAccount s) (LiquidityProviders s) (pm_disputes s) (pm_pools s) (pm_tokens s) (pm_registry s) (pm_block s) (pm_now s) (pm_events s).
Definition set_MarketIdsForEdit x s :=
  mkPm (pm_sets s) (MarketIdsPerCloseBlock s) (MarketIdsPerCloseTimeFrame s) (LastTimeFrame s) (MarketIdsPerReportBlock s) (pm_dispute_queue s) x (UserNonces s) (MarketNonces s) (MarketAdmin s) (WhitelistedMarketCreators s) (VaultAccount s) (WinningsFeeAccount s) (AdditionalSwapFeeAccount s) (LiquidityProviders s) (pm_disputes s) (pm_pools s) (pm_tokens s) (pm_registry s) (pm_block s) (pm_now s) (pm_events s).
Definition set_UserNonces x s :=
  mkPm (pm_sets s) (MarketIdsPerCloseBlock s) (MarketIdsPerCloseTimeFrame s) (LastTimeFrame s) (MarketIdsPerReportBlock s) (pm_dispute_queue s) (MarketIdsForEdit s) x (MarketNonces s) (MarketAdmin s) (WhitelistedMarketCreators s) (VaultAccount s) (WinningsFeeAccount s) (AdditionalSwapFeeAccount s) (LiquidityProviders s) (pm_disputes s) (pm_pools s) (pm_tokens s) (pm_registry s) (pm_block s) (pm_now s) (pm_events s).
Definition set_MarketNonces x s :=
  mkPm (pm_sets s) (MarketIdsPerCloseBlock s) (MarketIdsPerCloseTimeFrame s) (LastTimeFrame s) (MarketIdsPerReportBlock s) (pm_dispute_queue s) (MarketIdsForEdit s) (UserNonces s) x (MarketAdmin s) (WhitelistedMarketCreators s) (VaultAccount s) (WinningsFeeAccount s) (AdditionalSwapFeeAccount s) (LiquidityProviders s) (pm_disputes s) (pm_pools s) (pm_tokens s) (pm_registry s) (pm_block s) (pm_now s) (pm_events s).
Definition set_MarketAdmin x s :=
  mkPm (pm_sets s) (MarketIdsPerCloseBlock s) (MarketIdsPerCloseTimeFrame s) (LastTimeFrame s) (MarketIdsPerReportBlock s) (pm_dispute_queue s) (MarketIdsForEdit s) (UserNonces s) (MarketNonces s) x (WhitelistedMarketCreators s) (VaultAccount s) (WinningsFeeAccount s) (AdditionalSwapFeeAccount s) (LiquidityProviders s) (pm_disputes s) (pm_pools s) (pm_tokens s) (pm_registry s) (pm_block s) (pm_now s) (pm_events s).
Definition set_WhitelistedMarketCreators x s :=
  mkPm (pm_sets s) (MarketIdsPerCloseBlock s) (MarketIdsPerCloseTimeFrame s) (LastTimeFrame s) (MarketIdsPerReportBlock s) (pm_dispute_queue s) (MarketIdsForEdit s) (UserNonces s) (MarketNonces s) (MarketAdmin s) x (VaultAccount s) (WinningsFeeAccount s) (AdditionalSwapFeeAccount s) (LiquidityProviders s) (pm_disputes s) (pm_pools s) (pm_tokens s) (pm_registry s) (pm_block s) (pm_now s) (pm_events s).
Definition set_VaultAccount x s :=
  mkPm (pm_sets s) (MarketIdsPerCloseBlock s) (MarketIdsPerCloseTimeFrame s) (LastTimeFrame s) (MarketIdsPerReportBlock s) (pm_dispute_queue s) (MarketIdsForEdit s) (UserNonces s) (MarketNonces s) (MarketAdmin s) (WhitelistedMarketCreators s) x (WinningsFeeAccount s) (AdditionalSwapFeeAccount s) (LiquidityProviders s) (pm_disputes s) (pm_pools s) (pm_tokens s) (pm_registry s) (pm_block s) (pm_now s) (pm_events s).
Definition set_WinningsFeeAccount x s :=
  mkPm (pm_sets s) (MarketIdsPerCloseBlock s) (MarketIdsPerCloseTimeFrame s) (LastTimeFrame s) (MarketIdsPerReportBlock s) (pm_dispute_queue s) (MarketIdsForEdit s) (UserNonces s) (MarketNonces s) (MarketAdmin s) (WhitelistedMarketCreators s) (VaultAccount s) x (AdditionalSwapFeeAccount s) (LiquidityProviders s) (pm_disputes s) (pm_pools s) (pm_tokens s) (pm_registry s) (pm_block s) (pm_now s) (pm_events s).
Definition set_AdditionalSwapFeeAccount x s :=
  mkPm (pm_sets s) (MarketIdsPerCloseBlock s) (MarketIdsPerCloseTimeFrame s) (LastTimeFrame s) (MarketIdsPerReportBlock s) (pm_dispute_queue s) (MarketIdsForEdit s) (UserNonces s) (MarketNonces s) (MarketAdmin s) (WhitelistedMarketCreators s) (VaultAccount s) (WinningsFeeAccount s) x (LiquidityProviders s) (pm_disputes s) (pm_pools s) (pm_tokens s) (pm_registry s) (pm_block s) (pm_now s) (pm_events s).
Definition set_LiquidityProviders x s :=
  mkPm (pm_sets s) (MarketIdsPerCloseBlock s) (MarketIdsPerCloseTimeFrame s) (LastTimeFrame s) (MarketIdsPerReportBlock s) (pm_dispute_queue s) (MarketIdsForEdit s) (UserNonces s) (MarketNonces s) (MarketAdmin s) (WhitelistedMarketCreators s) (VaultAccount s) (WinningsFeeAccount s) (AdditionalSwapFeeAccount s) x (pm_disputes s) (pm_pools s) (pm_tokens s) (pm_registry s) (pm_block s) (pm_now s) (pm_events s).
Definition set_pm_disputes x s :=
  mkPm (pm_sets s) (MarketIdsPerCloseBlock s) (MarketIdsPerCloseTimeFrame s) (LastTimeFrame s) (MarketIdsPerReportBlock s) (pm_dispute_queue s) (MarketIdsForEdit s) (UserNonces s) (MarketNonces s) (MarketAdmin s) (WhitelistedMarketCreators s) (VaultAccount s) (WinningsFeeAccount s) (AdditionalSwapFeeAccount s) (LiquidityProviders s) x (pm_pools s) (pm_tokens s) (pm_registry s) (pm_block s) (pm_now s) (pm_events s).
Definition set_pm_pools x s :=
  mkPm (pm_sets s) (MarketIdsPerCloseBlock s) (MarketIdsPerCloseTimeFrame s) (LastTimeFrame s) (MarketIdsPerReportBlock s) (pm_dispute_queue s) (MarketIdsForEdit s) (UserNonces s) (MarketNonces s) (MarketAdmin s) (WhitelistedMarketCreators s) (VaultAccount s) (WinningsFeeAccount s) (AdditionalSwapFeeAccount s) (LiquidityProviders s) (pm_disputes s) x (pm_tokens s) (pm_registry s) (pm_block s) (pm_now s) (pm_events s).
Definition set_pm_tokens x s :=
  mkPm (pm_sets s) (MarketIdsPerCloseBlock s) (MarketIdsPerCloseTimeFrame s) (LastTimeFrame s) (MarketIdsPerReportBlock s) (pm_dispute_queue s) (MarketIdsForEdit s) (UserNonces s) (MarketNonces s) (MarketAdmin s) (WhitelistedMarketCreators s) (VaultAccount s) (WinningsFeeAccount s) (AdditionalSwapFeeAccount s) (LiquidityProviders s) (pm_disputes s) (pm_pools s) x (pm_registry s) (pm_block s) (pm_now s) (pm_events s).
Definition set_pm_block x s :=
  mkPm (pm_sets s) (MarketIdsPerCloseBlock s) (MarketIdsPerCloseTimeFrame s) (LastTimeFrame s) (MarketIdsPerReportBlock s) (pm_dispute_queue s) (MarketIdsForEdit s) (UserNonces s) (MarketNonces s) (MarketAdmin s) (WhitelistedMarketCreators s) (VaultAccount s) (WinningsFeeAccount s) (AdditionalSwapFeeAccount s) (LiquidityProviders s) (pm_disputes s) (pm_pools s) (pm_tokens s) (pm_registry s) x (pm_now s) (pm_events s).
Definition set_pm_now x s :=
  mkPm (pm_sets s) (MarketIdsPerCloseBlock s) (MarketIdsPerCloseTimeFrame s) (LastTimeFrame s) (MarketIdsPerReportBlock s) (pm_dispute_queue s) (MarketIdsForEdit s) (UserNonces s) (MarketNonces s) (MarketAdmin s) (WhitelistedMarketCreators s) (VaultAccount s) (WinningsFeeAccount s) (AdditionalSwapFeeAccount s) (LiquidityProviders s) (pm_disputes s) (pm_pools s) (pm_tokens s) (pm_registry s) (pm_block s) x (pm_events s).
Definition set_pm_events x s :=
  mkPm (pm_sets s) (MarketIdsPerCloseBlock s) (MarketIdsPerCloseTimeFrame s) (LastTimeFrame s) (MarketIdsPerReportBlock s) (pm_dispute_queue s) (MarketIdsForEdit s) (UserNonces s) (MarketNonces s) (MarketAdmin s) (WhitelistedMarketCreators s) (VaultAccount s) (WinningsFeeAccount s) (AdditionalSwapFeeAccount s) (LiquidityProviders s) (pm_disputes s) (pm_pools s) (pm_tokens s) (pm_registry s) (pm_block s) (pm_now s) x.

Abbreviation PmM := (ST DispatchError PmState).

Definition pm_assets (s : PmState) : PmAssets := cs_assets (pm_sets s).
Definition pm_commons (s : PmState) : MarketCommons := cs_commons (pm_sets s).
Definition set_pm_assets l s := set_pm_sets (set_cs_assets l (pm_sets s)) s.
Definition set_pm_commons c s := set_pm_sets (set_cs_commons c (pm_sets s)) s.
Definition deposit_pm_event (e : PmEvent) : PmM unit := modify (fun s => set_pm_events (pm_events s ++ [e]) s).

(** Operations of the asset manager, of market-commons, of the complete sets,
    of the dispute mechanisms. *)
Definition pm_on_assets {A} (m : ST DispatchError PmAssets A) : PmM A := fun s =>
  let '(r, l) := m (pm_assets s) in (r, set_pm_assets l s).
Definition pm_on_commons {A} (m : ST DispatchError MarketCommons A) : PmM A := fun s =>
  let '(r, c) := m (pm_commons s) in (r, set_pm_commons c s).
Definition pm_on_sets {A} (m : ST DispatchError (CsState PmAssets) A) : PmM A := fun s =>
  let '(r, c) := m (pm_sets s) in (r, set_pm_sets c s).
Definition dispute_world (s : PmState) : DisputeState * PmAssets * MarketIdsPerDisputeBlock :=
  (pm_disputes s, pm_assets s, pm_dispute_queue s).
Definition set_dispute_world '((d, l, q) : DisputeState * PmAssets * MarketIdsPerDisputeBlock) (s : PmState) : PmState :=
  set_pm_disputes d (set_pm_dispute_queue q (set_pm_assets l s)).
Definition on_disputes {A} (m : ST DispatchError (DisputeState * PmAssets * MarketIdsPerDisputeBlock) A) : PmM A := fun s =>
  let '(r, w) := m (dispute_world s) in (r, set_dispute_world w s).

Definition pm_market (market_id : Z) : PmM Market :=
  s ← get; lift (market (pm_commons s) market_id).
Definition pm_mutate_market (market_id : Z) (cb : Market -> Res Market) : PmM unit :=
  pm_on_commons (mutate_market market_id cb).

(** [mutate_market] with a callback that itself writes storage: the market read
    before the callback ran is what is written back. *)
Definition mutate_market_with (market_id : Z) (cb : Market -> PmM Market) : PmM unit :=
  s ← get;
  match Markets (pm_commons s) !! market_id with
  | Some m =>
      m ← cb m;
      modify (fun s => set_pm_commons (set_Markets (<[market_id := m]> (Markets (pm_commons s))) (pm_commons s)) s)
  | None => fail (commons_error MarketDoesNotExist)
  end.

Definition additional_swap_fee_account (s : PmState) : Res AccountId :=
  ok_or (AdditionalSwapFeeAccount s) (pm_error AdditionalSwapFeeAccountNotSet).
Definition winnings_fee_account (s : PmState) : Res AccountId :=
  ok_or (WinningsFeeAccount s) (pm_error WinningsFeeAccountNotSet).
Definition pm_get_admin (s : PmState) : Res AccountId := ok_or (MarketAdmin s) (pm_error MarketAdminNotSet).
Definition pm_on_liquidity_provided (market_id : Z) (provider : AccountId) (s : PmState) : PmState :=
  set_LiquidityProviders ({[ (market_id, provider) ]} ∪ LiquidityProviders s) s.

(** Genesis. *)
Definition pm_genesis_build (vault_account market_admin : option AccountId) (s : PmState) : PmState :=
  set_MarketAdmin market_admin (set_VaultAccount vault_account s).

Definition set_period x m :=
  mkMarket (market_id m) (base_asset m) (creator m) (creation m) (creator_fee m) (oracle m) (metadata m)
    (market_type m) x (deadlines m) (scoring_rule m) (status m) (report m) (resolved_outcome m)
    (dispute_mechanism m) (bonds m) (early_close m).
Definition set_bonds x m :=
  mkMarket (market_id m) (base_asset m) (creator m) (creation m) (creator_fee m) (oracle m) (metadata m)
    (market_type m) (period m) (deadlines m) (scoring_rule m) (status m) (report m) (resolved_outcome m)
    (dispute_mechanism m) x (early_close m).
Definition set_report x m :=
  mkMarket (market_id m) (base_asset m) (creator m) (creation m) (creator_fee m) (oracle m) (metadata m)
    (market_type m) (period m) (deadlines m) (scoring_rule m) (status m) x (resolved_outcome m)
    (dispute_mechanism m) (bonds m) (early_close m).
Definition set_resolved_outcome x m :=
  mkMarket (market_id m) (base_asset m) (creator m) (creation m) (creator_fee m) (oracle m) (metadata m)
    (market_type m) (period m) (deadlines m) (scoring_rule m) (status m) (report m) x
    (dispute_mechanism m) (bonds m) (early_close m).
Definition set_early_close x m :=
  mkMarket (market_id m) (base_asset m) (creator m) (creation m) (creator_fee m) (oracle m) (metadata m)
    (market_type m) (period m) (deadlines m) (scoring_rule m) (status m) (report m) (resolved_outcome m)
    (dispute_mechanism m) (bonds m) x.
Definition set_oracle x m :=
  mkMarket (market_id m) (base_asset m) (creator m) (creation m) (creator_fee m) x (metadata m)
    (market_type m) (period m) (deadlines m) (scoring_rule m) (status m) (report m) (resolved_outcome m)
    (dispute_mechanism m) (bonds m) (early_close m).

(** ** Bonds

    The macros [impl_unreserve_bond], [impl_slash_bond], [impl_repatriate_bond]
    and [impl_is_bond_pending], with the field they are instantiated at. *)

Inductive BondType := BondCreation | BondOracle | BondOutsider | BondDispute | BondCloseRequest | BondCloseDispute.

Definition get_bond (k : BondType) (b : MarketBonds) : option Bond :=
  match k with
  | BondCreation => creation_bond b | BondOracle => oracle_bond b | BondOutsider => outsider_bond b
  | BondDispute => dispute_bond b | BondCloseRequest => close_request_bond b | BondCloseDispute => close_dispute_bond b
  end.
Definition put_bond (k : BondType) (x : option Bond) (b : MarketBonds) : MarketBonds :=
  match b with
  | mkMarketBonds c o u d r e =>
      match k with
      | BondCreation => mkMarketBonds x o u d r e | BondOracle => mkMarketBonds c x u d r e
      | BondOutsider => mkMarketBonds c o x d r e | BondDispute => mkMarketBonds c o u x r e
      | BondCloseRequest => mkMarketBonds c o u d x e | BondCloseDispute => mkMarketBonds c o u d r x
      end
  end.
Definition set_market_bond (k : BondType) (b : Bond) (m : Market) : Market := set_bonds (put_bond k (Some b) (bonds m)) m.
Definition settle_bond (b : Bond) : Bond := mkBond (bond_who b) (bond_value b) true.

Definition unreserve_bond (k : BondType) (market_id : Z) : PmM unit :=
  m ← pm_market market_id;
  bond ← lift (ok_or (get_bond k (bonds m)) (pm_error MissingBond));
  if is_settled bond then mret tt
  else
    modify (fun s => set_pm_assets (cur_unreserve_named pm_reserve_id (bond_who bond) (bond_value bond) (pm_assets s)).2 s) ;;
    pm_mutate_market market_id (fun m => Ok (set_market_bond k (settle_bond bond) m)).

Definition slash_bond (k : BondType) (market_id : Z) (slash_percentage : option Z) : PmM Imbalance :=
  m ← pm_market market_id;
  bond ← lift (ok_or (get_bond k (bonds m)) (pm_error MissingBond));
  if is_settled bond then mret imbalance_zero
  else
    let value := bond_value bond in
    let '(slash_amount, unreserve_amount) :=
      match slash_percentage with
      | Some percentage =>
          let slash_amount := percent_mul_floor percentage value in
          (slash_amount, saturating_sub value slash_amount)
      | None => (value, 0)
      end in
    s ← get;
    let '((imbalance, excess), l) := cur_slash_reserved_named pm_reserve_id (bond_who bond) slash_amount (pm_assets s) in
    modify (set_pm_assets l) ;;
    (if unreserve_amount =? 0 then mret tt
     else modify (fun s => set_pm_assets (cur_unreserve_named pm_reserve_id (bond_who bond) unreserve_amount (pm_assets s)).2 s)) ;;
    pm_mutate_market market_id (fun m => Ok (set_market_bond k (settle_bond bond) m)) ;;
    mret imbalance.

Definition repatriate_bond (k : BondType) (market_id : Z) (beneficiary : AccountId) : PmM unit :=
  m ← pm_market market_id;
  bond ← lift (ok_or (get_bond k (bonds m)) (pm_error MissingBond));
  if is_settled bond then mret tt
  else
    modify (fun s => set_pm_assets
      (cur_repatriate_reserved_named pm_reserve_id (bond_who bond) beneficiary (bond_value bond) (pm_assets s)).2 s) ;;
    pm_mutate_market market_id (fun m => Ok (set_market_bond k (settle_bond bond) m)).

Definition is_bond_pending (k : BondType) (m : Market) : bool :=
  match get_bond k (bonds m) with Some bond => negb (is_settled bond) | None => false end.

(** [AssetManager::reserve_named] of a bond in the native asset. *)
Definition reserve_tru (who : AccountId) (value : Z) : PmM unit :=
  pm_on_assets (mc_reserve_named pm_reserve_id Tru who value).

(** ** Closing *)

Definition calculate_time_frame_of_moment (time : Z) : Z := saturated_into 64 time / MILLISECS_PER_BLOCK.

(** [try_push] to a queue's entry, and [remove_item] from it. *)
Definition queue_push (at_ market_id : Z) (q : gmap Z (list Z)) : Res (Z * gmap Z (list Z)) :=
  ids ← ok_or (try_push CacheSize market_id (queue_get at_ q)) (pm_error StorageOverflowPM);
  Ok (Z.of_nat (length ids), <[at_ := ids]> q).
Definition queue_remove (at_ market_id : Z) (q : gmap Z (list Z)) : Z * gmap Z (list Z) :=
  let ids := queue_get at_ q in (Z.of_nat (length ids), <[at_ := remove_item ids market_id]> q).

Definition insert_auto_close (market_id : Z) : PmM Z :=
  m ← pm_market market_id;
  s ← get;
  match period m with
  | BlockPeriod _ stop =>
      '(n, q) ← lift (queue_push stop market_id (MarketIdsPerCloseBlock s));
      modify (set_MarketIdsPerCloseBlock q) ;; mret n
  | TimestampPeriod _ stop =>
      '(n, q) ← lift (queue_push (calculate_time_frame_of_moment stop) market_id (MarketIdsPerCloseTimeFrame s));
      modify (set_MarketIdsPerCloseTimeFrame q) ;; mret n
  end.

Definition clear_auto_close (market_id : Z) : PmM Z :=
  m ← pm_market market_id;
  if bool_decide (status m = Active) || bool_decide (status m = Proposed) then
    s ← get;
    match period m with
    | BlockPeriod _ stop =>
        let '(n, q) := queue_remove stop market_id (MarketIdsPerCloseBlock s) in
        modify (set_MarketIdsPerCloseBlock q) ;; mret n
    | TimestampPeriod _ stop =>
        let '(n, q) := queue_remove (calculate_time_frame_of_moment stop) market_id (MarketIdsPerCloseTimeFrame s) in
        modify (set_MarketIdsPerCloseTimeFrame q) ;; mret n
    end
  else mret 0.

(** The callback of [close_market] settles bonds in storage while it holds the
    market it read. *)
Definition close_market (market_id : Z) : PmM unit :=
  mutate_market_with market_id (fun m =>
    lift (ensure (bool_decide (status m = Active)) (pm_error InvalidMarketStatus)) ;;
    match early_close m with
    | Some p =>
        match ec_state p with
        | ScheduledAsMarketCreator =>
            if is_bond_pending BondCloseRequest m then unreserve_bond BondCloseRequest market_id else mret tt
        | EarlyCloseDisputed =>
            (if is_bond_pending BondCloseDispute m then unreserve_bond BondCloseDispute market_id else mret tt) ;;
            (if is_bond_pending BondCloseRequest m then unreserve_bond BondCloseRequest market_id else mret tt)
        | ScheduledAsOther | EarlyCloseRejected => mret tt
        end
    | None => mret tt
    end ;;
    mret (set_status Closed m)) ;;
  deposit_pm_event (MarketClosed market_id).

Definition set_market_end (market_id : Z) : PmM unit :=
  s ← get;
  pm_mutate_market market_id (fun m =>
    Ok (set_period (match period m with
                    | BlockPeriod start _ => BlockPeriod start (pm_block s)
                    | TimestampPeriod start _ => TimestampPeriod start (pm_now s)
                    end) m)).

Definition handle_expired_advised_market (market_id : Z) (m : Market) : PmM unit :=
  lift (ensure (bool_decide (status m = Proposed)) (pm_error InvalidMarketStatus)) ;;
  unreserve_bond BondCreation market_id ;;
  unreserve_bond BondOracle market_id ;;
  pm_on_commons (remove_market market_id) ;;
  modify (fun s => set_MarketIdsForEdit (delete market_id (MarketIdsForEdit s)) s) ;;
  deposit_pm_event (MarketExpired market_id).

Definition on_market_close (market_id : Z) (m : Market) : PmM unit :=
  match status m with
  | Active => close_market market_id
  | Proposed => handle_expired_advised_market market_id m
  | _ => fail (pm_error InvalidMarketStatus)
  end.

Definition do_reject_market (market_id : Z) (m : Market) (reject_reason : list Z) : PmM unit :=
  lift (ensure (bool_decide (status m = Proposed)) (pm_error InvalidMarketStatus)) ;;
  unreserve_bond BondOracle market_id ;;
  imbalance ← slash_bond BondCreation market_id (Some AdvisoryBondSlashPercentage);
  modify (fun s => set_pm_assets (slash_on_unbalanced imbalance (pm_assets s)) s) ;;
  pm_on_commons (remove_market market_id) ;;
  modify (fun s => set_MarketIdsForEdit (delete market_id (MarketIdsForEdit s)) s) ;;
  deposit_pm_event (MarketRejected market_id reject_reason) ;;
  deposit_pm_event (MarketDestroyed market_id).

(** ** Creation *)

Definition ensure_market_is_closed (m : Market) : Res unit :=
  ensure (bool_decide (status m = Closed)) (pm_error MarketIsNotClosed).

Definition ensure_market_period_is_valid (p : MarketPeriod) (s : PmState) : Res unit :=
  match p with
  | BlockPeriod start stop =>
      let now := pm_block s in
      ensure (now <? stop) (pm_error InvalidMarketPeriod) ;;
      ensure (start <? stop) (pm_error InvalidMarketPeriod) ;;
      let lifetime := saturating_sub stop now in
      ensure (lifetime <=? MaxMarketLifetime) (pm_error MarketDurationTooLong)
  | TimestampPeriod start stop =>
      let now_frame := calculate_time_frame_of_moment (pm_now s) in
      let end_frame := calculate_time_frame_of_moment stop in
      ensure (now_frame <? end_frame) (pm_error InvalidMarketPeriod) ;;
      ensure (start <? stop) (pm_error InvalidMarketPeriod) ;;
      let lifetime := saturating_sub end_frame now_frame in
      let lifetime_max := saturated_into 64 MaxMarketLifetime in
      ensure (lifetime <=? lifetime_max) (pm_error MarketDurationTooLong)
  end.

Definition ensure_market_deadlines_are_valid (d : Deadlines) (trusted : bool) : Res unit :=
  ensure (MinOracleDuration <=? oracle_duration d) (pm_error OracleDurationSmallerThanMinOracleDuration) ;;
  (if trusted then ensure (dispute_duration d =? 0) (pm_error NonZeroDisputePeriodOnTrustedMarket)
   else
     ensure (MinDisputeDuration <=? dispute_duration d) (pm_error DisputeDurationSmallerThanMinDisputeDuration) ;;
     ensure (dispute_duration d <=? MaxDisputeDuration) (pm_error DisputeDurationGreaterThanMaxDisputeDuration)) ;;
  ensure (grace_period d <=? MaxGracePeriod) (pm_error GracePeriodGreaterThanMaxGracePeriod) ;;
  ensure (oracle_duration d <=? MaxOracleDuration) (pm_error OracleDurationGreaterThanMaxOracleDuration).

Definition ensure_market_type_is_valid (t : MarketType) : Res unit :=
  match t with
  | CategoricalType categories =>
      ensure (MinCategories <=? categories) (pm_error NotEnoughCategories) ;;
      ensure (categories <=? MaxCategories) (pm_error TooManyCategories)
  | ScalarType low high => ensure (low <? high) (pm_error InvalidOutcomeRange)
  end.

Definition valid_base_asset (a : Asset) (s : PmState) : Res bool :=
  match a with
  | Tru => Ok true
  | ForeignAsset fa =>
      match metadata_decimals (pm_registry s) (ForeignAsset fa) with
      | Some (_, allow_as_base_asset) => Ok allow_as_base_asset
      | None => Err (pm_error UnregisteredForeignAsset)
      end
  | _ => Ok false
  end.

(** The two bytes in front of a SHA3-384 hash. *)
Definition is_sha3_384 (multihash : list Z) : bool :=
  (default 0 (multihash !! 0%nat) =? 0x15) && (default 0 (multihash !! 1%nat) =? 0x30).

Definition construct_market (market_id : option Z) (base_asset : Asset) (creator : AccountId) (creator_fee : Z)
    (oracle : AccountId) (period : MarketPeriod) (deadlines : Deadlines) (metadata : list Z)
    (creation : MarketCreation) (market_type : MarketType) (dispute_mechanism : option MarketDisputeMechanism)
    (scoring_rule : ScoringRule) (report : option Report) (resolved_outcome : option OutcomeReport)
    (bonds : MarketBonds) (s : PmState) : Res MarketBuilder :=
  ensure (bool_decide (creator ∈ WhitelistedMarketCreators s)) (pm_error InvalidMarketCreator) ;;
  valid_base_asset ← valid_base_asset base_asset s;
  ensure (creator_fee <=? MaxCreatorFee) (pm_error FeeTooHigh) ;;
  ensure valid_base_asset (pm_error InvalidBaseAsset) ;;
  ensure (is_sha3_384 metadata) (pm_error InvalidMultihash) ;;
  ensure_market_period_is_valid period s ;;
  ensure_market_deadlines_are_valid deadlines (bool_decide (dispute_mechanism = None)) ;;
  ensure_market_type_is_valid market_type ;;
  let status := match creation with Permissionless => Active | Advised => Proposed end in
  let b := builder_early_close None (builder_bonds bonds (builder_resolved_outcome resolved_outcome
    (builder_report report (builder_scoring_rule scoring_rule (builder_status status
    (builder_dispute_mechanism dispute_mechanism (builder_market_type market_type (builder_creation creation
    (builder_metadata metadata (builder_deadlines deadlines (builder_period period (builder_oracle oracle
    (builder_creator_fee creator_fee (builder_creator creator (builder_base_asset base_asset MarketBuilder_new))))))))))))))) in
  Ok (match market_id with Some market_id => builder_market_id market_id b | None => b end).

Definition creation_bonds (who : AccountId) (creation : MarketCreation) : MarketBonds :=
  let value := match creation with Advised => AdvisoryBond | Permissionless => ValidityBond end in
  mkMarketBonds (Some (Bond_new who value)) (Some (Bond_new who OracleBond)) None None None None.

Definition do_create_market (who : AccountId) (base_asset : Asset) (creator_fee : Z) (oracle : AccountId)
    (period : MarketPeriod) (deadlines : Deadlines) (metadata : list Z) (creation : MarketCreation)
    (market_type : MarketType) (dispute_mechanism : option MarketDisputeMechanism) (scoring_rule : ScoringRule) :
    PmM (Z * Z) :=
  let bonds := creation_bonds who creation in
  s ← get;
  market_builder ← lift (construct_market None base_asset who creator_fee oracle period deadlines metadata creation
    market_type dispute_mechanism scoring_rule None None bonds s);
  reserve_tru who (total_amount_bonded bonds who) ;;
  '(market_id, m) ← pm_on_commons (build_market market_builder);
  ids_amount ← insert_auto_close market_id;
  deposit_pm_event (MarketCreated market_id (market_account market_id) m) ;;
  mret (ids_amount, market_id).

(** [DeployPool::deploy_pool]. *)
Definition pm_deploy_pool (who : AccountId) (market_id amount : Z) (spot_prices : list Z) (swap_fee : Z) : PmM unit :=
  fun s =>
    let '(r, (p, l, lps)) :=
      dp_deploy_pool (pm_commons s) (pm_block s) (MarketAdmin s) who market_id amount spot_prices swap_fee
        (pm_pools s, pm_assets s, LiquidityProviders s) in
    (r, set_pm_pools p (set_LiquidityProviders lps (set_pm_assets l s))).

Definition do_create_market_and_deploy_pool (who : AccountId) (base_asset : Asset) (creator_fee : Z) (oracle : AccountId)
    (period : MarketPeriod) (deadlines : Deadlines) (metadata : list Z) (market_type : MarketType)
    (dispute_mechanism : option MarketDisputeMechanism) (amount : Z) (spot_prices : list Z) (swap_fee : Z) : PmM (Z * Z) :=
  '(ids_len, market_id) ← do_create_market who base_asset creator_fee oracle period deadlines metadata Permissionless
    market_type dispute_mechanism AmmCdaHybrid;
  pm_on_sets (do_buy_complete_set who market_id amount) ;;
  pm_deploy_pool who market_id amount spot_prices swap_fee ;;
  mret (ids_len, Z.of_nat (length spot_prices)).
End PredictionMarkets.
