(* ===== verification/PmCalls.v ===== *)
(** * The prediction-markets pallet: resolution, calls and hook

    The rest of [pallets/prediction-markets/src/lib.rs] and its
    [signed_calls.rs]: reporting and resolution, redemption, lifting and
    withdrawal of tokens, every call, the relayed calls with their nonces, and
    [on_initialize]. *)

From S2P Require Import GlobalDisputes Prelude Errors FixedMath Collections Interfaces DisputeQueue Market MultiCurrency CompleteSets.
From S2P Require Import PredictionMarkets.

Section PmCalls.
Context `{PmConfig}.
Abbreviation PmM := (ST DispatchError PmState).

(** ** Resolution *)

Definition clear_auto_resolve (market_id : Z) : PmM (Z * Z) :=
  m ← pm_market market_id;
  match dispute_mechanism m with
  | None => mret (0, 0)
  | Some mechanism =>
      match status m with
      | Reported =>
          r ← lift (ok_or (report m) (pm_error MarketIsNotReported));
          s ← get;
          let '(n, q) := queue_remove (saturating_add 32 (report_at r) (dispute_duration (deadlines m))) market_id
                           (MarketIdsPerReportBlock s) in
          modify (set_MarketIdsPerReportBlock q) ;; mret (n, 0)
      | Disputed =>
          s ← get;
          match dm_get_auto_resolve mechanism market_id m (pm_disputes s) with
          | Some auto_resolve_block =>
              let '(n, q) := pm_remove_auto_resolve market_id auto_resolve_block (pm_dispute_queue s) in
              modify (set_pm_dispute_queue q) ;; mret (n, 0)
          | None => mret (0, 0)
          end
      | _ => mret (0, 0)
      end
  end.

Definition resolve_reported_market (market_id : Z) (m : Market) : PmM OutcomeReport :=
  r ← lift (ok_or (report m) (pm_error MarketIsNotReported));
  (if bool_decide (report_by r = oracle m) then unreserve_bond BondOracle market_id
   else
     repatriate_bond BondOracle market_id (report_by r) ;;
     if is_bond_pending BondOutsider m then unreserve_bond BondOutsider market_id else mret tt) ;;
  mret (report_outcome r).

Definition get_resolved_outcome (market_id : Z) (m : Market) (reported_outcome : OutcomeReport) : PmM OutcomeReport :=
  s ← get;
  let '(winner, w) := gd_determine_voting_winner market_id (dispute_world s) in
  modify (set_dispute_world w) ;;
  resolved_outcome_option ←
    (match winner with
     | Some o => mret (Some o)
     | None =>
         mechanism ← lift (ok_or (dispute_mechanism m) (pm_error NoDisputeMechanism));
         s ← get;
         on_disputes (dm_on_resolution (pm_commons s) (pm_block s) mechanism market_id m)
     end);
  mret (default reported_outcome resolved_outcome_option).

Definition settle_bonds (market_id : Z) (m : Market) (resolved_outcome : OutcomeReport) (r : Report) : PmM Imbalance :=
  let report_by_oracle := bool_decide (report_by r = oracle m) in
  let is_correct := bool_decide (report_outcome r = resolved_outcome) in
  let unreserve_outsider : PmM unit :=
    if is_bond_pending BondOutsider m then unreserve_bond BondOutsider market_id else mret tt in
  let slash_outsider : PmM Imbalance :=
    if is_bond_pending BondOutsider m then slash_bond BondOutsider market_id None else mret imbalance_zero in
  overall_imbalance ←
    (if report_by_oracle then
       if is_correct then unreserve_bond BondOracle market_id ;; mret imbalance_zero
       else
         negative_imbalance ← slash_bond BondOracle market_id None;
         mret (imbalance_subsume imbalance_zero negative_imbalance)
     else
       if is_correct then
         repatriate_bond BondOracle market_id (report_by r) ;;
         unreserve_outsider ;;
         mret imbalance_zero
       else
         oracle_imbalance ← slash_bond BondOracle market_id None;
         outsider_imbalance ← slash_outsider;
         mret (imbalance_subsume (imbalance_subsume imbalance_zero oracle_imbalance) outsider_imbalance));
  match dispute_bond (bonds m) with
  | Some bond =>
      if is_settled bond then mret overall_imbalance
      else if is_correct then
        imb ← slash_bond BondDispute market_id None;
        mret (imbalance_subsume overall_imbalance imb)
      else
        unreserve_bond BondDispute market_id ;;
        modify (fun s => set_pm_assets (cur_resolve_creating (bond_who bond) overall_imbalance (pm_assets s)) s) ;;
        mret imbalance_zero
  | None => mret overall_imbalance
  end.

Definition resolve_disputed_market (market_id : Z) (m : Market) : PmM OutcomeReport :=
  mechanism ← lift (ok_or (dispute_mechanism m) (pm_error NoDisputeMechanism));
  r ← lift (ok_or (report m) (pm_error MarketIsNotReported));
  resolved_outcome ← get_resolved_outcome market_id m (report_outcome r);
  imbalance_left ← settle_bonds market_id m resolved_outcome r;
  s ← get;
  remainder ← on_disputes (dm_exchange (pm_commons s) (pm_block s) mechanism market_id m resolved_outcome imbalance_left);
  modify (fun s => set_pm_assets (slash_on_unbalanced remainder (pm_assets s)) s) ;;
  mret resolved_outcome.

Definition pm_on_resolution (market_id : Z) (m : Market) : PmM unit :=
  (match creation m with Permissionless => unreserve_bond BondCreation market_id | Advised => mret tt end) ;;
  resolved_outcome ←
    (match status m with
     | Reported => resolve_reported_market market_id m
     | Disputed => resolve_disputed_market market_id m
     | _ => fail (pm_error InvalidMarketStatus)
     end);
  pm_mutate_market market_id (fun m => Ok (set_resolved_outcome (Some resolved_outcome) (set_status Resolved m))) ;;
  deposit_pm_event (MarketResolved market_id Resolved resolved_outcome).

(** ** Reporting *)

Definition oracle_reporting_window_expired (m : Market) (report_at : Z) (s : PmState) : Res bool :=
  match period m with
  | BlockPeriod _ stop =>
      let grace_period_end := saturating_add 32 stop (grace_period (deadlines m)) in
      ensure (grace_period_end <=? report_at) (pm_error NotAllowedToReportYet) ;;
      let oracle_duration_end := saturating_add 32 grace_period_end (oracle_duration (deadlines m)) in
      Ok (negb (report_at <=? oracle_duration_end))
  | TimestampPeriod _ stop =>
      let grace_period_in_ms := saturating_mul 64 (saturated_into 32 (grace_period (deadlines m))) MILLISECS_PER_BLOCK in
      let grace_period_end := saturating_add 64 stop grace_period_in_ms in
      let now := pm_now s in
      ensure (grace_period_end <=? now) (pm_error NotAllowedToReportYet) ;;
      let oracle_duration_in_ms := saturating_mul 64 (saturated_into 32 (oracle_duration (deadlines m))) MILLISECS_PER_BLOCK in
      let oracle_duration_end := saturating_add 64 grace_period_end oracle_duration_in_ms in
      Ok (negb (now <=? oracle_duration_end))
  end.

Definition report_market_with_dispute_mechanism (origin : Origin) (market_id : Z) (r : Report) : PmM unit :=
  sender ← lift (ensure_signed origin);
  mutate_market_with market_id (fun m =>
    s ← get;
    expired ← lift (oracle_reporting_window_expired m (report_at r) s);
    m ← (if negb expired then
           lift (ensure (bool_decide (sender = oracle m)) (pm_error ReporterNotOracle)) ;; mret m
         else if bool_decide (sender <> oracle m) then
           reserve_tru sender OutsiderBond ;;
           mret (set_market_bond BondOutsider (Bond_new sender OutsiderBond) m)
         else mret m);
    mret (set_status Reported (set_report (Some r) m))) ;;
  m ← pm_market market_id;
  let block_after_dispute_duration := saturating_add 32 (report_at r) (dispute_duration (deadlines m)) in
  s ← get;
  '(n, q) ← lift (queue_push block_after_dispute_duration market_id (MarketIdsPerReportBlock s));
  modify (set_MarketIdsPerReportBlock q).

Definition report_and_resolve_market (origin : Origin) (market_id : Z) (r : Report) : PmM unit :=
  pm_mutate_market market_id (fun m =>
    sender ← ensure_signed origin;
    ensure (bool_decide (sender = oracle m)) (pm_error ReporterNotOracle) ;;
    Ok (set_status Reported (set_report (Some r) m))) ;;
  m ← pm_market market_id;
  pm_on_resolution market_id m.

Definition do_report (who : AccountId) (origin : Origin) (outcome : OutcomeReport) (market_id : Z) : PmM unit :=
  s ← get;
  let market_report := mkReport (pm_block s) who outcome in
  m ← pm_market market_id;
  lift (ensure (bool_decide (report m = None)) (pm_error MarketAlreadyReported)) ;;
  lift (ensure_market_is_closed m) ;;
  lift (ensure (matches_outcome_report m outcome) (pm_error PmOutcomeMismatch)) ;;
  (if bool_decide (dispute_mechanism m = None) then report_and_resolve_market origin market_id market_report
   else report_market_with_dispute_mechanism origin market_id market_report) ;;
  deposit_pm_event (MarketReported market_id Reported market_report).

(** ** Redemption *)

(** Parts per billion for long and short. *)
Definition calc_payouts (final_value low high : Z) : Z * Z :=
  if final_value <=? low then (0, 10 ^ 9)
  else if high <=? final_value then (10 ^ 9, 0)
  else
    let payout_long := perbill_from_rational (saturating_sub final_value low) (saturating_sub high low) in
    (payout_long, saturating_sub (10 ^ 9) payout_long).

(** The assets to redeem, each with its payout and the balance to burn. *)
Definition winning_assets (who : AccountId) (market_id : Z) (m : Market) (outcome : OutcomeReport) (s : PmState) :
    Res (list (Asset * Z * Z)) :=
  let market_account := market_account market_id in
  match outcome with
  | Categorical category_index =>
      let winning_currency_id := CategoricalOutcome market_id category_index in
      let winning_balance := mc_free_balance winning_currency_id who (pm_assets s) in
      ensure (0 <? winning_balance) (pm_error NoWinningBalance) ;;
      ensure (winning_balance <=? mc_free_balance (base_asset m) market_account (pm_assets s))
        (pm_error InsufficientFundsInMarketAccount) ;;
      Ok [(winning_currency_id, winning_balance, winning_balance)]
  | Scalar value =>
      let long_currency_id := ScalarOutcome market_id Long in
      let short_currency_id := ScalarOutcome market_id Short in
      let long_balance := mc_free_balance long_currency_id who (pm_assets s) in
      let short_balance := mc_free_balance short_currency_id who (pm_assets s) in
      ensure ((0 <? long_balance) || (0 <? short_balance)) (pm_error NoWinningBalance) ;;
      match market_type m with
      | CategoricalType _ => Err (pm_error InvalidMarketType)
      | ScalarType low high =>
          let '(long_percent, short_percent) := calc_payouts value low high in
          let long_payout := perbill_mul_floor long_percent long_balance in
          let short_payout := perbill_mul_floor short_percent short_balance in
          ensure (saturating_add 128 long_payout short_payout
                    <=? mc_free_balance (base_asset m) market_account (pm_assets s))
            (pm_error InsufficientFundsInMarketAccount) ;;
          Ok [(long_currency_id, long_payout, long_balance); (short_currency_id, short_payout, short_balance)]
      end
  end.

Definition redeem_one (who : AccountId) (market_id : Z) (m : Market) (x : Asset * Z * Z) : PmM unit :=
  let '(currency_id, payout, balance) := x in
  let market_account := market_account market_id in
  modify (fun s => set_pm_assets (mc_slash currency_id who balance (pm_assets s)).2 s) ;;
  s ← get;
  let remaining_bal := mc_free_balance (base_asset m) market_account (pm_assets s) in
  let max_payout := Z.min payout remaining_bal in
  actual_payout ←
    (if bool_decide ((market_id, who) ∈ LiquidityProviders s) then mret max_payout
     else
       let '(paid_winner_fee, l) :=
         winner_fee (winnings_fee_account s) market_id (base_asset m) market_account max_payout (pm_assets s) in
       modify (set_pm_assets l) ;;
       mret (saturating_sub max_payout paid_winner_fee));
  pm_on_assets (mc_transfer (base_asset m) market_account who actual_payout) ;;
  if balance =? 0 then mret tt
  else deposit_pm_event (TokensRedeemed market_id currency_id balance actual_payout who).

Definition do_redeem (who : AccountId) (market_id : Z) : PmM unit :=
  m ← pm_market market_id;
  lift (ensure (bool_decide (status m = Resolved)) (pm_error MarketIsNotResolved)) ;;
  lift (ensure (is_redeemable m) (pm_error InvalidResolutionMechanism)) ;;
  outcome ← lift (ok_or (resolved_outcome m) (pm_error MarketIsNotResolved));
  s ← get;
  winners ← lift (winning_assets who market_id m outcome s);
  for_each winners (redeem_one who market_id m).

(** The pallet's own list of outcome assets. *)
Definition pm_outcome_assets (market_id : Z) (m : Market) : list Asset :=
  match market_type m with
  | CategoricalType categories => CategoricalOutcome market_id <$> seqZ 0 categories
  | ScalarType _ _ => [ScalarOutcome market_id Long; ScalarOutcome market_id Short]
  end.

(** ** Tokens from and to Ethereum *)

Inductive AssetFlowDirection := Incoming | Outgoing.

Definition adjust_fractional_places (registry : AssetRegistry) (asset : Asset) (amount : Z)
    (direction : AssetFlowDirection) : Z :=
  match metadata_decimals registry asset with
  | Some (decimals, _) =>
      let down := saturating_pow 128 10 (saturating_sub decimals DECIMALS) in
      let up := saturating_pow 128 10 (saturating_sub DECIMALS decimals) in
      match direction with
      | Incoming => if DECIMALS <? decimals then amount / down else saturating_mul 128 amount up
      | Outgoing => if DECIMALS <? decimals then saturating_mul 128 amount down else amount / up
      end
  | None => amount
  end.

Definition on_tokens {A} (m : ST DispatchError TokenState A) : PmM A := fun s =>
  let '(r, t) := m (pm_tokens s) in (r, set_pm_tokens t s).

Definition process_lift (event : EthEventData) : PmM unit :=
  s ← get;
  let event :=
    match event with
    | LogErc20Transfer data =>
        LogErc20Transfer (match VaultAccount s with
                          | Some vault => mkLifted (token_contract data) vault (lifted_amount data)
                          | None => data
                          end)
    | e => e
    end in
  match event with
  | LogLiftedToPredictionMarket data | LogErc20Transfer data =>
      match asset_id (pm_registry s) (token_contract data) with
      | Some asset =>
          let adjusted_amount := adjust_fractional_places (pm_registry s) asset (lifted_amount data) Incoming in
          if (adjusted_amount =? 0) && (0 <? lifted_amount data) then on_tokens (token_process_lift event)
          else pm_on_assets (mc_deposit asset (receiver_address data) adjusted_amount)
      | None => on_tokens (token_process_lift event)
      end
  | OtherEvent _ => mret tt
  end.

Definition on_incoming_event_processed (event : EthEventData) : PmM unit := process_lift event.
Definition on_event_processed (event : EthEventData) : PmM unit := process_lift event.

Definition do_withdraw_tokens (token : Z) (who : AccountId) (amount : Z) : PmM unit :=
  lift (ensure (negb (amount =? 0)) (pm_error PmZeroAmount)) ;;
  s ← get;
  asset ← lift (ok_or (asset_id (pm_registry s) token) (pm_error UnregisteredForeignAsset));
  lift (ensure (amount <=? mc_free_balance asset who (pm_assets s)) (pm_error NotEnoughBalance)) ;;
  lift (ensure (match asset with ForeignAsset _ => true | _ => false end) (pm_error NotForeignAsset)) ;;
  pm_on_assets (mc_withdraw asset who amount) ;;
  let amount := adjust_fractional_places (pm_registry s) asset amount Outgoing in
  on_tokens (deposit_tokens token who amount) ;;
  deposit_pm_event (TokensTransferredOut token who amount).

Definition do_transfer_tokens (token : Z) (from to : AccountId) (amount : Z) : PmM unit :=
  s ← get;
  asset ← lift (ok_or (asset_id (pm_registry s) token) (pm_error UnregisteredForeignAsset));
  pm_on_assets (mc_transfer asset from to amount).

(** ** The calls *)

Definition ensure_origin (allowed : Origin -> bool) (origin : Origin) : Res unit := ensure (allowed origin) BadOrigin.

Definition admin_move_market_to_closed (origin : Origin) (market_id : Z) : PmM unit :=
  transactional (
    lift (ensure_origin CloseOrigin origin) ;;
    m ← pm_market market_id;
    lift (ensure_market_is_active m) ;;
    clear_auto_close market_id ;;
    close_market market_id ;;
    set_market_end market_id).

Definition admin_move_market_to_resolved (origin : Origin) (market_id : Z) : PmM unit :=
  transactional (
    lift (ensure_origin ResolveOrigin origin) ;;
    m ← pm_market market_id;
    lift (ensure (bool_decide (status m = Reported) || bool_decide (status m = Disputed)) (pm_error InvalidMarketStatus)) ;;
    clear_auto_resolve market_id ;;
    m ← pm_market market_id;
    pm_on_resolution market_id m ;;
    lift (ensure (bool_decide (status m = Reported) || bool_decide (status m = Disputed)) (pm_error InvalidMarketStatus))).

Definition approve_market (origin : Origin) (market_id : Z) : PmM unit :=
  transactional (
    lift (ensure_origin ApproveOrigin origin) ;;
    s ← get;
    pm_mutate_market market_id (fun m =>
      ensure (bool_decide (status m = Proposed)) (pm_error MarketIsNotProposed) ;;
      ensure (bool_decide (MarketIdsForEdit s !! market_id = None)) (pm_error MarketEditRequestAlreadyInProgress) ;;
      Ok (set_status Active m)) ;;
    unreserve_bond BondCreation market_id ;;
    deposit_pm_event (MarketApproved market_id Active)).

Definition request_edit (origin : Origin) (market_id : Z) (edit_reason : list Z) : PmM unit :=
  transactional (
    lift (ensure_origin RequestEditOrigin origin) ;;
    lift (ensure (Z.of_nat (length edit_reason) <=? MaxEditReasonLen) (pm_error EditReasonLengthExceedsMaxEditReasonLen)) ;;
    m ← pm_market market_id;
    lift (ensure (bool_decide (status m = Proposed)) (pm_error MarketIsNotProposed)) ;;
    s ← get;
    lift (ensure (bool_decide (MarketIdsForEdit s !! market_id = None)) (pm_error MarketEditRequestAlreadyInProgress)) ;;
    modify (fun s => set_MarketIdsForEdit (<[market_id := edit_reason]> (MarketIdsForEdit s)) s) ;;
    deposit_pm_event (MarketRequestedEdit market_id edit_reason)).

Definition pm_buy_complete_set (origin : Origin) (market_id amount : Z) : PmM unit :=
  pm_on_sets (buy_complete_set origin market_id amount).
Definition pm_sell_complete_set (origin : Origin) (market_id amount : Z) : PmM unit :=
  pm_on_sets (sell_complete_set origin market_id amount).

Definition dispute (origin : Origin) (market_id : Z) : PmM unit :=
  transactional (
    who ← lift (ensure_signed origin);
    m ← pm_market market_id;
    lift (ensure (bool_decide (status m = Reported)) (pm_error InvalidMarketStatus)) ;;
    mechanism ← lift (ok_or (dispute_mechanism m) (pm_error NoDisputeMechanism));
    s ← get;
    on_disputes (dm_on_dispute (pm_commons s) (pm_block s) mechanism market_id m) ;;
    reserve_tru who DisputeBond ;;
    pm_mutate_market market_id (fun m =>
      Ok (set_market_bond BondDispute (Bond_new who DisputeBond) (set_status Disputed m))) ;;
    deposit_pm_event (MarketDisputed market_id Disputed who)).

Definition create_market (origin : Origin) (base_asset : Asset) (creator_fee : Z) (oracle : AccountId)
    (period : MarketPeriod) (deadlines : Deadlines) (metadata : list Z) (creation : MarketCreation)
    (market_type : MarketType) (dispute_mechanism : option MarketDisputeMechanism) (scoring_rule : ScoringRule) : PmM unit :=
  transactional (
    sender ← lift (ensure_signed origin);
    do_create_market sender base_asset creator_fee oracle period deadlines metadata creation market_type
      dispute_mechanism scoring_rule ;;
    mret tt).

Definition edit_market (origin : Origin) (base_asset : Asset) (market_id : Z) (oracle : AccountId)
    (period : MarketPeriod) (deadlines : Deadlines) (metadata : list Z) (market_type : MarketType)
    (dispute_mechanism : option MarketDisputeMechanism) (scoring_rule : ScoringRule) : PmM unit :=
  transactional (
    sender ← lift (ensure_signed origin);
    s ← get;
    lift (ensure (bool_decide (is_Some (MarketIdsForEdit s !! market_id))) (pm_error MarketEditNotRequested)) ;;
    old_market ← pm_market market_id;
    lift (ensure (bool_decide (creator old_market = sender)) (pm_error EditorNotCreator)) ;;
    lift (ensure (bool_decide (status old_market = Proposed)) (pm_error InvalidMarketStatus)) ;;
    clear_auto_close market_id ;;
    s ← get;
    market_builder ← lift (construct_market (Some market_id) base_asset (creator old_market) (creator_fee old_market)
      oracle period deadlines metadata (creation old_market) market_type dispute_mechanism scoring_rule
      (report old_market) (resolved_outcome old_market) (bonds old_market) s);
    edited_market ← lift (build market_builder);
    pm_mutate_market market_id (fun _ => Ok edited_market) ;;
    insert_auto_close market_id ;;
    modify (fun s => set_MarketIdsForEdit (delete market_id (MarketIdsForEdit s)) s) ;;
    deposit_pm_event (MarketEdited market_id edited_market)).

Definition redeem_shares (origin : Origin) (market_id : Z) : PmM unit :=
  transactional (
    who ← lift (ensure_signed origin);
    do_redeem who market_id).

Definition reject_market (origin : Origin) (market_id : Z) (reject_reason : list Z) : PmM unit :=
  transactional (
    lift (ensure_origin RejectOrigin origin) ;;
    m ← pm_market market_id;
    clear_auto_close market_id ;;
    lift (ensure (Z.of_nat (length reject_reason) <=? MaxRejectReasonLen)
            (pm_error RejectReasonLengthExceedsMaxRejectReasonLen)) ;;
    do_reject_market market_id m reject_reason).

Definition pm_report (origin : Origin) (market_id : Z) (outcome : OutcomeReport) : PmM unit :=
  transactional (
    sender ← lift (ensure_signed origin);
    do_report sender origin outcome market_id).

Definition start_global_dispute (origin : Origin) (market_id : Z) : PmM unit :=
  transactional (
    lift (ensure_signed origin) ;;
    m ← pm_market market_id;
    mechanism ← lift (ok_or (dispute_mechanism m) (pm_error NoDisputeMechanism));
    lift (ensure (bool_decide (status m = Disputed) || bool_decide (status m = Reported)) (pm_error InvalidMarketStatus)) ;;
    lift (ensure (bool_decide (mechanism = Court)) (pm_error InvalidDisputeMechanism)) ;;
    s ← get;
    lift (ensure (negb (gd_does_exist market_id (pm_disputes s))) (pm_error GlobalDisputeExistsAlready)) ;;
    r ← lift (ok_or (report m) (pm_error MarketIsNotReported));
    has_failed ← lift (dm_has_failed (pm_commons s) (pm_block s) mechanism market_id m (pm_disputes s));
    lift (ensure has_failed (pm_error MarketDisputeMechanismNotFailed)) ;;
    gd_items ← on_disputes (dm_on_global_dispute (pm_commons s) (pm_block s) mechanism market_id m);
    let initial_items := mkInitialItem (report_outcome r) (report_by r) 0 ::
      ((fun i => mkInitialItem (gdi_outcome i) (gdi_owner i) (initial_vote_amount i)) <$> gd_items) in
    clear_auto_resolve market_id ;;
    (if bool_decide (status m = Reported) then pm_mutate_market market_id (fun m => Ok (set_status Disputed m))
     else mret tt) ;;
    s ← get;
    on_disputes (gd_start_global_dispute (pm_commons s) (pm_block s) market_id initial_items) ;;
    deposit_pm_event (GlobalDisputeStarted market_id)).

Definition create_market_and_deploy_pool (origin : Origin) (base_asset : Asset) (creator_fee : Z) (oracle : AccountId)
    (period : MarketPeriod) (deadlines : Deadlines) (metadata : list Z) (market_type : MarketType)
    (dispute_mechanism : option MarketDisputeMechanism) (amount : Z) (spot_prices : list Z) (swap_fee : Z) : PmM unit :=
  transactional (
    who ← lift (ensure_signed origin);
    do_create_market_and_deploy_pool who base_asset creator_fee oracle period deadlines metadata market_type
      dispute_mechanism amount spot_prices swap_fee ;;
    mret tt).

(** ** Early close *)

(** The closure [get_new_period]. *)
Definition get_new_period (m : Market) (block_period time_frame_period : Z) (s : PmState) : Res MarketPeriod :=
  match period m with
  | BlockPeriod start stop =>
      let close_time := saturating_add 32 (pm_block s) block_period in
      ensure (close_time <? stop) (pm_error EarlyCloseRequestTooLate) ;;
      Ok (BlockPeriod start close_time)
  | TimestampPeriod start stop =>
      let close_time := saturating_add 64 (pm_now s) time_frame_period in
      ensure (close_time <? stop) (pm_error EarlyCloseRequestTooLate) ;;
      Ok (TimestampPeriod start close_time)
  end.

(** The bonds an earlier schedule left behind, or the bond of a new request;
    the new period. *)
Definition schedule_bonds (is_authorized : bool) (market_creator : option AccountId) (market_id : Z) (m : Market) :
    PmM MarketPeriod :=
  match early_close m with
  | Some p =>
      lift (ensure is_authorized (pm_error OnlyAuthorizedCanScheduleEarlyClose)) ;;
      match ec_state p with
      | EarlyCloseDisputed =>
          (if is_bond_pending BondCloseDispute m then repatriate_bond BondCloseDispute market_id (creator m) else mret tt) ;;
          (if is_bond_pending BondCloseRequest m then unreserve_bond BondCloseRequest market_id else mret tt)
      | EarlyCloseRejected => mret tt
      | ScheduledAsMarketCreator | ScheduledAsOther => fail (pm_error InvalidEarlyCloseState)
      end ;;
      s ← get;
      lift (get_new_period m CloseEarlyProtectionBlockPeriod CloseEarlyProtectionTimeFramePeriod s)
  | None =>
      '(block_period, time_frame_period) ←
        (if is_authorized then mret (CloseEarlyProtectionBlockPeriod, CloseEarlyProtectionTimeFramePeriod)
         else
           market_creator ← lift (ok_or market_creator (pm_error RequesterNotCreator));
           reserve_tru market_creator CloseEarlyRequestBond ;;
           pm_mutate_market market_id (fun m =>
             Ok (set_market_bond BondCloseRequest (Bond_new market_creator CloseEarlyRequestBond) m)) ;;
           mret (CloseEarlyBlockPeriod, CloseEarlyTimeFramePeriod));
      s ← get;
      lift (get_new_period m block_period time_frame_period s)
  end.

Definition schedule_early_close (origin : Origin) (market_id : Z) : PmM unit :=
  transactional (
    let is_authorized := CloseMarketEarlyOrigin origin in
    '(m, market_creator) ←
      (if negb is_authorized then
         who ← lift (ensure_signed origin);
         m ← pm_market market_id;
         lift (ensure (bool_decide (creator m = who)) (pm_error RequesterNotCreator)) ;;
         mret (m, Some who)
       else m ← pm_market market_id; mret (m, None));
    lift (ensure_market_is_active m) ;;
    new_period ← schedule_bonds is_authorized market_creator market_id m;
    clear_auto_close market_id ;;
    let state := if is_authorized : bool then ScheduledAsOther else ScheduledAsMarketCreator in
    pm_mutate_market market_id (fun m =>
      let old_market_period := period m in
      Ok (set_early_close (Some (mkEarlyClose old_market_period new_period state)) (set_period new_period m))) ;;
    insert_auto_close market_id ;;
    deposit_pm_event (MarketEarlyCloseScheduled market_id new_period state)).

Definition dispute_early_close (origin : Origin) (market_id : Z) : PmM unit :=
  transactional (
    who ← lift (ensure_signed origin);
    m ← pm_market market_id;
    lift (ensure_market_is_active m) ;;
    early ← lift (ok_or (early_close m) (pm_error NoEarlyCloseScheduled));
    lift match ec_state early with
         | ScheduledAsMarketCreator => Ok tt
         | _ => Err (pm_error InvalidEarlyCloseState)
         end ;;
    reserve_tru who CloseEarlyDisputeBond ;;
    clear_auto_close market_id ;;
    pm_mutate_market market_id (fun m =>
      Ok (set_early_close (Some (mkEarlyClose (ec_old early) (ec_new early) EarlyCloseDisputed))
           (set_market_bond BondCloseDispute (Bond_new who CloseEarlyDisputeBond) (set_period (ec_old early) m)))) ;;
    insert_auto_close market_id ;;
    deposit_pm_event (MarketEarlyCloseDisputed market_id)).

Definition reject_early_close (origin : Origin) (market_id : Z) : PmM unit :=
  transactional (
    lift (ensure_origin CloseMarketEarlyOrigin origin) ;;
    m ← pm_market market_id;
    lift (ensure_market_is_active m) ;;
    early ← lift (ok_or (early_close m) (pm_error NoEarlyCloseScheduled));
    match ec_state early with
    | EarlyCloseDisputed => mret tt
    | ScheduledAsOther =>
        clear_auto_close market_id ;;
        pm_mutate_market market_id (fun m => Ok (set_period (ec_old early) m)) ;;
        insert_auto_close market_id ;;
        mret tt
    | ScheduledAsMarketCreator | EarlyCloseRejected => fail (pm_error InvalidEarlyCloseState)
    end ;;
    match close_dispute_bond (bonds m) with
    | Some disputor_bond =>
        repatriate_bond BondCloseRequest market_id (bond_who disputor_bond) ;;
        unreserve_bond BondCloseDispute market_id
    | None => mret tt
    end ;;
    pm_mutate_market market_id (fun m =>
      Ok (set_early_close (Some (mkEarlyClose (ec_old early) (ec_new early) EarlyCloseRejected)) m)) ;;
    deposit_pm_event (MarketEarlyCloseRejected market_id)).

Definition close_trusted_market (origin : Origin) (market_id : Z) : PmM unit :=
  transactional (
    who ← lift (ensure_signed origin);
    m ← pm_market market_id;
    lift (ensure (bool_decide (creator m = who)) (pm_error CallerNotMarketCreator)) ;;
    lift (ensure (bool_decide (dispute_mechanism m = None)) (pm_error MarketIsNotTrusted)) ;;
    lift (ensure_market_is_active m) ;;
    clear_auto_close market_id ;;
    close_market market_id ;;
    set_market_end market_id).

Definition manually_close_market (origin : Origin) (market_id : Z) : PmM unit :=
  transactional (
    lift (ensure_signed origin) ;;
    m ← pm_market market_id;
    s ← get;
    match period m with
    | BlockPeriod _ _ => fail (pm_error NotAllowedForBlockBasedMarkets)
    | TimestampPeriod _ stop =>
        if stop <=? pm_now s then
          let time_frame := calculate_time_frame_of_moment stop in
          let ids := queue_get time_frame (MarketIdsPerCloseTimeFrame s) in
          pos ← lift (ok_or (position market_id ids) (pm_error MarketNotInCloseTimeFrameList));
          modify (set_MarketIdsPerCloseTimeFrame
                    (<[time_frame := swap_remove pos ids]> (MarketIdsPerCloseTimeFrame s))) ;;
          on_market_close market_id m ;;
          set_market_end market_id
        else fail (pm_error MarketPeriodEndNotAlreadyReachedYet)
    end).

(** ** Administration *)

Definition ensure_market_admin (origin : Origin) : PmM unit :=
  who ← lift (ensure_signed origin);
  s ← get;
  market_admin ← lift (ok_or (MarketAdmin s) (pm_error MarketAdminNotSet));
  lift (ensure (bool_decide (who = market_admin)) (pm_error PmSenderNotMarketAdmin)).

Inductive AdminConfig := AdminMarketAdmin (account : AccountId) | AdminVaultAccount (account : AccountId).

Definition set_config_option (origin : Origin) (config : AdminConfig) : PmM unit :=
  transactional (
    lift (ensure_root origin) ;;
    match config with
    | AdminMarketAdmin account =>
        modify (set_MarketAdmin (Some account)) ;; deposit_pm_event (MarketAdminSet account)
    | AdminVaultAccount account =>
        modify (set_VaultAccount (Some account)) ;; deposit_pm_event (VaultAccountSet account)
    end).

Definition whitelist_market_creator (origin : Origin) (account : AccountId) : PmM unit :=
  transactional (
    ensure_market_admin origin ;;
    s ← get;
    if bool_decide (account ∈ WhitelistedMarketCreators s) then mret tt
    else
      modify (set_WhitelistedMarketCreators ({[ account ]} ∪ WhitelistedMarketCreators s)) ;;
      deposit_pm_event (MarketCreatorAdded account)).

Definition remove_market_creator (origin : Origin) (account : AccountId) : PmM unit :=
  transactional (
    ensure_market_admin origin ;;
    s ← get;
    if bool_decide (account ∈ WhitelistedMarketCreators s) then
      modify (set_WhitelistedMarketCreators (WhitelistedMarketCreators s ∖ {[ account ]})) ;;
      deposit_pm_event (MarketCreatorRemoved account)
    else mret tt).

Definition set_winnings_fee_account (origin : Origin) (account : AccountId) : PmM unit :=
  transactional (
    ensure_market_admin origin ;;
    modify (set_WinningsFeeAccount (Some account)) ;;
    deposit_pm_event (WinningsFeeAccountSet account)).

Definition set_additional_swap_fee_account (origin : Origin) (account : AccountId) : PmM unit :=
  transactional (
    ensure_market_admin origin ;;
    modify (set_AdditionalSwapFeeAccount (Some account)) ;;
    deposit_pm_event (AdditionalSwapFeeAccountSet account)).

(** A call is dispatched in a storage layer, annotated or not. *)
Definition admin_update_market_oracle (origin : Origin) (market_id : Z) (new_oracle : AccountId) : PmM unit :=
  transactional (
    ensure_market_admin origin ;;
    m ← pm_market market_id;
    lift (ensure (bool_decide (report m = None)) (pm_error MarketAlreadyReported)) ;;
    lift (ensure (bool_decide (dispute_mechanism m = None)) (pm_error MarketCanBeDisputed)) ;;
    lift (ensure_market_is_closed m) ;;
    s ← get;
    reporting_window_expired ← lift (oracle_reporting_window_expired m (pm_block s) s);
    lift (ensure reporting_window_expired (pm_error OracleReportingWindowNotExpired)) ;;
    pm_mutate_market market_id (fun m => Ok (set_oracle new_oracle m)) ;;
    deposit_pm_event (MarketOracleUpdated market_id (oracle m) new_oracle)).

Definition withdraw_tokens (origin : Origin) (token amount : Z) : PmM unit :=
  transactional (
    who ← lift (ensure_signed origin);
    do_withdraw_tokens token who amount).

(** ** Relayed calls *)

Definition encode_signed_redeem_shares_params relayer nonce market_id := pm_encode (SignedRedeem relayer nonce market_id).
Definition encode_signed_buy_complete_set_params relayer nonce market_id amount :=
  pm_encode (SignedBuySet relayer nonce market_id amount).
Definition encode_signed_create_market_and_deploy_pool_params relayer nonce base_asset creator_fee oracle period
    deadlines metadata market_type dispute_mechanism amount spot_prices swap_fee :=
  pm_encode (SignedCreate relayer nonce base_asset creator_fee oracle period deadlines metadata market_type
    dispute_mechanism amount spot_prices swap_fee).
Definition encode_signed_report_params relayer nonce market_id outcome :=
  pm_encode (SignedReport relayer nonce market_id outcome).
Definition encode_signed_withdraw_params relayer nonce token owner amount :=
  pm_encode (SignedWithdraw relayer nonce token owner amount).
Definition encode_signed_transfer_params relayer nonce token from to amount :=
  pm_encode (SignedTransfer relayer nonce token from to amount).

Definition user_nonce (who : AccountId) (s : PmState) : Z := default 0 (UserNonces s !! who).
Definition market_nonce (who : AccountId) (market_id : Z) (s : PmState) : Z := default 0 (MarketNonces s !! (who, market_id)).

(** [*n += 1] panics at the end of the [u64] range. *)
Definition bump_user_nonce (who : AccountId) : PmM unit :=
  s ← get;
  n ← lift (ok_or (checked_add 64 (user_nonce who s) 1) Panicked);
  modify (set_UserNonces (<[who := n]> (UserNonces s))).
Definition bump_market_nonce (who : AccountId) (market_id : Z) : PmM unit :=
  s ← get;
  n ← lift (ok_or (checked_add 64 (market_nonce who market_id s) 1) Panicked);
  modify (set_MarketNonces (<[(who, market_id) := n]> (MarketNonces s))).

(** The signer's check and the signature's, which the relayed calls share. *)
Definition check_signed (origin : Origin) (proof : Proof_) (payload : PmState -> list Z)
    (e : PredictionMarketsError) : PmM AccountId :=
  who ← lift (ensure_signed origin);
  lift (ensure (bool_decide (who = signer proof)) (pm_error PmSenderIsNotSigner)) ;;
  s ← get;
  lift (ensure (pm_verify_signature proof (payload s)) (pm_error e)) ;;
  mret who.

Definition signed_create_market_and_deploy_pool (origin : Origin) (proof : Proof_) (base_asset : Asset) (creator_fee : Z)
    (oracle : AccountId) (period : MarketPeriod) (deadlines : Deadlines) (metadata : list Z) (market_type : MarketType)
    (dispute_mechanism : option MarketDisputeMechanism) (amount : Z) (spot_prices : list Z) (swap_fee : Z) : PmM unit :=
  transactional (
    who ← check_signed origin proof (fun s =>
      encode_signed_create_market_and_deploy_pool_params (relayer proof) (user_nonce (signer proof) s) base_asset
        creator_fee oracle period deadlines metadata market_type dispute_mechanism amount spot_prices swap_fee)
      UnauthorizedSignedCreateMarketTransaction;
    do_create_market_and_deploy_pool who base_asset creator_fee oracle period deadlines metadata market_type
      dispute_mechanism amount spot_prices swap_fee ;;
    bump_user_nonce who).

Definition signed_report (origin : Origin) (proof : Proof_) (market_id : Z) (outcome : OutcomeReport) : PmM unit :=
  transactional (
    who ← check_signed origin proof (fun s =>
      encode_signed_report_params (relayer proof) (market_nonce (signer proof) market_id s) market_id outcome)
      UnauthorizedSignedReportTransaction;
    bump_market_nonce who market_id ;;
    do_report who origin outcome market_id).

Definition signed_withdraw_tokens (origin : Origin) (proof : Proof_) (token amount : Z) : PmM unit :=
  transactional (
    who ← check_signed origin proof (fun s =>
      encode_signed_withdraw_params (relayer proof) (user_nonce (signer proof) s) token (signer proof) amount)
      UnauthorizedSignedWithdrawTransaction;
    do_withdraw_tokens token who amount ;;
    bump_user_nonce who).

Definition signed_transfer_asset (origin : Origin) (proof : Proof_) (token : Z) (to : AccountId) (amount : Z) : PmM unit :=
  transactional (
    who ← check_signed origin proof (fun s =>
      encode_signed_transfer_params (relayer proof) (user_nonce (signer proof) s) token (signer proof) to amount)
      UnauthorizedSignedTransferTransaction;
    do_transfer_tokens token who to amount ;;
    bump_user_nonce who).

Definition signed_redeem_shares (origin : Origin) (proof : Proof_) (market_id : Z) : PmM unit :=
  transactional (
    who ← check_signed origin proof (fun s =>
      encode_signed_redeem_shares_params (relayer proof) (market_nonce (signer proof) market_id s) market_id)
      UnauthorizedSignedRedeemTransaction;
    do_redeem who market_id ;;
    bump_market_nonce who market_id).

Definition signed_buy_complete_set (origin : Origin) (proof : Proof_) (market_id amount : Z) : PmM unit :=
  transactional (
    sender ← check_signed origin proof (fun s =>
      encode_signed_buy_complete_set_params (relayer proof) (market_nonce (signer proof) market_id s) market_id amount)
      UnauthorizedSignedRedeemTransaction;
    pm_on_sets (do_buy_complete_set sender market_id amount) ;;
    bump_market_nonce sender market_id ;;
    m ← pm_market market_id;
    mret tt).

(** The proxy check. *)
Inductive PmCall :=
| call_create (proof : Proof_) (base_asset : Asset) (creator_fee : Z) (oracle : AccountId) (period : MarketPeriod)
    (deadlines : Deadlines) (metadata : list Z) (market_type : MarketType)
    (dispute_mechanism : option MarketDisputeMechanism) (amount : Z) (spot_prices : list Z) (swap_fee : Z)
| call_report (proof : Proof_) (market_id : Z) (outcome : OutcomeReport)
| call_withdraw (proof : Proof_) (token amount : Z)
| call_transfer (proof : Proof_) (token : Z) (to : AccountId) (amount : Z)
| call_redeem (proof : Proof_) (market_id : Z)
| call_buy_set (proof : Proof_) (market_id amount : Z)
| call_other.

Definition pm_encoded_call_param (call : PmCall) (s : PmState) : option (Proof_ * list Z) :=
  match call with
  | call_create proof base_asset creator_fee oracle period deadlines metadata market_type dispute_mechanism amount
      spot_prices swap_fee =>
      Some (proof, encode_signed_create_market_and_deploy_pool_params (relayer proof) (user_nonce (signer proof) s)
        base_asset creator_fee oracle period deadlines metadata market_type dispute_mechanism amount spot_prices swap_fee)
  | call_report proof market_id outcome =>
      Some (proof, encode_signed_report_params (relayer proof) (market_nonce (signer proof) market_id s) market_id outcome)
  | call_withdraw proof token amount =>
      Some (proof, encode_signed_withdraw_params (relayer proof) (user_nonce (signer proof) s) token (signer proof) amount)
  | call_transfer proof token to amount =>
      Some (proof, encode_signed_transfer_params (relayer proof) (user_nonce (signer proof) s) token (signer proof) to amount)
  | call_redeem proof market_id =>
      Some (proof, encode_signed_redeem_shares_params (relayer proof) (market_nonce (signer proof) market_id s) market_id)
  | call_buy_set proof market_id amount =>
      Some (proof, encode_signed_buy_complete_set_params (relayer proof) (market_nonce (signer proof) market_id s) market_id amount)
  | call_other => None
  end.

Definition pm_signature_is_valid (call : PmCall) (s : PmState) : bool :=
  match pm_encoded_call_param call s with
  | Some (proof, signed_payload) => pm_verify_signature proof signed_payload
  | None => false
  end.

(** ** The hook *)

(** Close what ends at this block. *)
Definition close_due (ids : list Z) : PmM unit :=
  for_each ids (fun market_id => m ← pm_market market_id; on_market_close market_id m).

Definition market_status_manager (block_number last_time_frame current_time_frame : Z) : PmM unit :=
  s ← get;
  close_due (queue_get block_number (MarketIdsPerCloseBlock s)) ;;
  modify (fun s => set_MarketIdsPerCloseBlock (delete block_number (MarketIdsPerCloseBlock s)) s) ;;
  let start := saturating_add 64 last_time_frame 1 in
  let end_ := current_time_frame in
  let diff := saturating_sub end_ start in
  start ←
    (if MAX_RECOVERY_TIME_FRAMES <? diff then
       let limit_time_frame := saturating_sub end_ MAX_RECOVERY_TIME_FRAMES in
       deposit_pm_event (RecoveryLimitReached last_time_frame limit_time_frame) ;;
       mret limit_time_frame
     else mret start);
  for_each (seqZ start (end_ - start + 1)) (fun time_frame =>
    s ← get;
    close_due (queue_get time_frame (MarketIdsPerCloseTimeFrame s)) ;;
    modify (fun s => set_MarketIdsPerCloseTimeFrame (delete time_frame (MarketIdsPerCloseTimeFrame s)) s)).

Definition resolution_manager (now : Z) : PmM unit :=
  s ← get;
  for_each (queue_get now (MarketIdsPerReportBlock s)) (fun id =>
    m ← pm_market id;
    if bool_decide (status m = Reported) then pm_on_resolution id m else mret tt) ;;
  modify (fun s => set_MarketIdsPerReportBlock (delete now (MarketIdsPerReportBlock s)) s) ;;
  s ← get;
  for_each (queue_get now (pm_dispute_queue s)) (fun id =>
    m ← pm_market id;
    pm_on_resolution id m) ;;
  modify (fun s => set_pm_dispute_queue (delete now (pm_dispute_queue s)) s).

Inductive TransactionOutcome := Commit | Rollback.
Definition with_transaction (f : PmState -> TransactionOutcome * PmState) (s : PmState) : PmState :=
  match f s with (Commit, s') => s' | (Rollback, _) => s end.

(** Both managers run, whatever the first one returns. *)
Definition pm_on_initialize (now : Z) (s : PmState) : PmState :=
  if now <=? 1 then s
  else
    let current_time_frame := saturating_add 64 (calculate_time_frame_of_moment (pm_now s)) 1 in
    let last_time_frame := default (saturating_sub current_time_frame 1) (LastTimeFrame s) in
    with_transaction (fun s =>
      let '(close, s) := market_status_manager now last_time_frame current_time_frame s in
      let '(resolve, s) := resolution_manager now s in
      let s := set_LastTimeFrame (Some current_time_frame) s in
      match close, resolve with
      | Ok _, Ok _ => (Commit, s)
      | _, _ => (Rollback, exec (deposit_pm_event BadOnInitialize) s)
      end) s.

(** [DisputeResolutionApi::resolve], which the dispute pallets call. *)
Definition pm_resolve (market_id : Z) (m : Market) : PmM unit := pm_on_resolution market_id m.
End PmCalls.
