(* ===== verification/PmInv.v ===== *)
(** * The prediction-markets pallet: bonds and schedules

    What every run keeps: the shape of a market's bonds follows its status, the
    reserve under the pallet's name covers every open bond, and the queues of
    markets to be closed list exactly the open markets, each under its end. *)

From S2P Require Import Prelude Errors FixedMath Collections Interfaces DisputeQueue Market MultiCurrency CompleteSets.
From S2P Require Import PredictionMarkets PmCalls.

(** ** The laws of the pallets around it *)

Class PmLaws `{PmConfig} : Prop := {
  pm_ledger :: MultiCurrencyLaws PmAssets;
  (** the currency reserves the native asset of the asset manager *)
  unreserve_keeps : forall w v l x, 0 <= v <= mc_reserved pm_reserve_id Tru w l ->
    mc_reserved pm_reserve_id Tru x l - (if decide (x = w) then v else 0)
      <= mc_reserved pm_reserve_id Tru x (cur_unreserve_named pm_reserve_id w v l).2;
  slash_reserved_keeps : forall w v l x, 0 <= v <= mc_reserved pm_reserve_id Tru w l ->
    mc_reserved pm_reserve_id Tru x l - (if decide (x = w) then v else 0)
      <= mc_reserved pm_reserve_id Tru x (cur_slash_reserved_named pm_reserve_id w v l).2;
  repatriate_keeps : forall w y v l x, 0 <= v <= mc_reserved pm_reserve_id Tru w l ->
    mc_reserved pm_reserve_id Tru x l - (if decide (x = w) then v else 0)
      <= mc_reserved pm_reserve_id Tru x (cur_repatriate_reserved_named pm_reserve_id w y v l).2;
  resolve_creating_keeps : forall w i l x,
    mc_reserved pm_reserve_id Tru x l <= mc_reserved pm_reserve_id Tru x (cur_resolve_creating w i l);
  on_unbalanced_keeps : forall i l x,
    mc_reserved pm_reserve_id Tru x l <= mc_reserved pm_reserve_id Tru x (slash_on_unbalanced i l);
  winner_fee_keeps : forall r m a y v l x,
    mc_reserved pm_reserve_id Tru x l <= mc_reserved pm_reserve_id Tru x (winner_fee r m a y v l).2;
  (** the pallets it calls leave its reserve alone *)
  on_dispute_keeps : forall c n d i m w r w' x, dm_on_dispute c n d i m w = (Ok r, w') ->
    mc_reserved pm_reserve_id Tru x w.1.2 <= mc_reserved pm_reserve_id Tru x w'.1.2;
  on_resolution_keeps : forall c n d i m w r w' x, dm_on_resolution c n d i m w = (Ok r, w') ->
    mc_reserved pm_reserve_id Tru x w.1.2 <= mc_reserved pm_reserve_id Tru x w'.1.2;
  exchange_keeps : forall c n d i m o b w r w' x, dm_exchange c n d i m o b w = (Ok r, w') ->
    mc_reserved pm_reserve_id Tru x w.1.2 <= mc_reserved pm_reserve_id Tru x w'.1.2;
  on_global_dispute_keeps : forall c n d i m w r w' x, dm_on_global_dispute c n d i m w = (Ok r, w') ->
    mc_reserved pm_reserve_id Tru x w.1.2 <= mc_reserved pm_reserve_id Tru x w'.1.2;
  voting_winner_keeps : forall i w x,
    mc_reserved pm_reserve_id Tru x w.1.2 <= mc_reserved pm_reserve_id Tru x (gd_determine_voting_winner i w).2.1.2;
  start_global_keeps : forall c n i l w r w' x, gd_start_global_dispute c n i l w = (Ok r, w') ->
    mc_reserved pm_reserve_id Tru x w.1.2 <= mc_reserved pm_reserve_id Tru x w'.1.2;
  deploy_keeps : forall c n a who i x l f w r w' y, dp_deploy_pool c n a who i x l f w = (Ok r, w') ->
    mc_reserved pm_reserve_id Tru y w.1.2 <= mc_reserved pm_reserve_id Tru y w'.1.2;
  slash_reserve_id : forall a x v l m l' y, mc_slash a x v l = (m, l') ->
    mc_reserved pm_reserve_id Tru y l = mc_reserved pm_reserve_id Tru y l';
  (** amounts are unsigned *)
  bonds_nonneg : Forall (Z.le 0) [AdvisoryBond; ValidityBond; OracleBond; OutsiderBond; DisputeBond;
                                  CloseEarlyRequestBond; CloseEarlyDisputeBond];
  bonds_fit : Z.max AdvisoryBond ValidityBond + OracleBond <= umax 128;
  percent_part : forall v, 0 <= v -> 0 <= percent_mul_floor AdvisoryBondSlashPercentage v <= v }.

#[global] Instance bond_type_eq_dec : EqDecision BondType.
Proof. solve_decision. Defined.

(** ** What the invariant is about *)

Section Views.
Context `{PmLaws}.

(** The part of the state the invariant reads. *)
Record View := mkView {
  v_markets : gmap Z Market;
  v_counter : Z;
  v_block : gmap Z (list Z);
  v_frame : gmap Z (list Z) }.
Definition view (s : PmState) : View :=
  mkView (Markets (pm_commons s)) (default 0 (MarketCounter (pm_commons s)))
    (MarketIdsPerCloseBlock s) (MarketIdsPerCloseTimeFrame s).
Definition put_market (id : Z) (m : Market) (v : View) : View :=
  mkView (<[id := m]> (v_markets v)) (v_counter v) (v_block v) (v_frame v).
Definition drop_market (id : Z) (v : View) : View :=
  mkView (delete id (v_markets v)) (v_counter v) (v_block v) (v_frame v).

(** What the pallet has reserved of the native asset. *)
Definition held_for (s : PmState) (w : AccountId) : Z := mc_reserved pm_reserve_id Tru w (pm_assets s).

(** ** Open bonds *)

Definition is_open (m : Market) : bool := match status m with Proposed | Active => true | _ => false end.
Definition is_close_bond (k : BondType) : bool :=
  match k with BondCloseRequest | BondCloseDispute => true | _ => false end.

Definition due (w : AccountId) (b : option Bond) : Z :=
  match b with
  | Some b => if is_settled b then 0 else if decide (w = bond_who b) then bond_value b else 0
  | None => 0
  end.

(** What [w] has at stake in a market.  The bonds of an early close are counted
    while the market is proposed or active: [close_market] releases them without
    recording it, so that in a closed market a bond recorded as unsettled may
    have been paid back. *)
Definition owed (w : AccountId) (m : Market) : Z :=
  due w (creation_bond (bonds m)) + due w (oracle_bond (bonds m)) + due w (outsider_bond (bonds m)) +
  due w (dispute_bond (bonds m)) +
  (if is_open m then due w (close_request_bond (bonds m)) + due w (close_dispute_bond (bonds m)) else 0).

Definition total_owed (v : View) (w : AccountId) : Z := map_sum (owed w <$> v_markets v).
Definition covered (s : PmState) : Prop := forall w, total_owed (view s) w <= held_for s w.

Definition values_ok (m : Market) : Prop := forall k b, get_bond k (bonds m) = Some b -> 0 <= bond_value b.
Definition markets_values_ok (v : View) : Prop := map_Forall (fun _ m => values_ok m) (v_markets v).

Lemma due_nonneg w b : (forall x, b = Some x -> 0 <= bond_value x) -> 0 <= due w b.
Proof. intros Hb. destruct b as [x|]; cbn; [|lia]. specialize (Hb x eq_refl). repeat case_match; lia. Qed.

Lemma due_le_owed w m k b : values_ok m -> get_bond k (bonds m) = Some b ->
  (is_close_bond k = true -> is_open m = true) -> due w (Some b) <= owed w m.
Proof.
  intros Hv Hb Ho. unfold owed.
  pose proof (due_nonneg w _ (Hv BondCreation)). pose proof (due_nonneg w _ (Hv BondOracle)).
  pose proof (due_nonneg w _ (Hv BondOutsider)). pose proof (due_nonneg w _ (Hv BondDispute)).
  pose proof (due_nonneg w _ (Hv BondCloseRequest)). pose proof (due_nonneg w _ (Hv BondCloseDispute)).
  unfold get_bond in *. destruct k; cbn [is_close_bond] in Ho; rewrite Hb in *; try rewrite Ho by done; try case_match; lia.
Qed.

Lemma owed_nonneg w m : values_ok m -> 0 <= owed w m.
Proof.
  intros Hv. unfold owed.
  pose proof (due_nonneg w _ (Hv BondCreation)). pose proof (due_nonneg w _ (Hv BondOracle)).
  pose proof (due_nonneg w _ (Hv BondOutsider)). pose proof (due_nonneg w _ (Hv BondDispute)).
  pose proof (due_nonneg w _ (Hv BondCloseRequest)). pose proof (due_nonneg w _ (Hv BondCloseDispute)).
  unfold get_bond in *. case_match; lia.
Qed.

Lemma owed_le_total v id m w : markets_values_ok v -> v_markets v !! id = Some m -> owed w m <= total_owed v w.
Proof.
  intros Hv Hm. unfold total_owed. pose proof (map_sum_lookup (owed w <$> v_markets v) id) as Hl.
  rewrite lookup_fmap, Hm in Hl. cbn in Hl. apply Hl. apply map_Forall_fmap.
  eapply map_Forall_impl; [exact Hv|]. intros i x Hx. by apply owed_nonneg.
Qed.

Lemma total_put id m v w : total_owed (put_market id m v) w =
  total_owed v w - default 0 (owed w <$> v_markets v !! id) + owed w m.
Proof. unfold total_owed. cbn. by rewrite fmap_insert, map_sum_insert, lookup_fmap. Qed.
Lemma total_drop id v w : total_owed (drop_market id v) w = total_owed v w - default 0 (owed w <$> v_markets v !! id).
Proof. unfold total_owed. cbn. by rewrite fmap_delete, map_sum_delete, lookup_fmap. Qed.

(** ** Settling a bond *)

(** The market with the bond marked as settled. *)
Definition mark (k : BondType) (m : Market) : Market :=
  match get_bond k (bonds m) with Some b => set_market_bond k (settle_bond b) m | None => m end.

Lemma get_put_bond k j x b : get_bond j (put_bond k x b) = if decide (j = k) then x else get_bond j b.
Proof. destruct b, k, j; cbn; by case_decide. Qed.

Lemma owed_mark w m k b : get_bond k (bonds m) = Some b -> (is_close_bond k = true -> is_open m = true) ->
  owed w (mark k m) = owed w m - due w (Some b).
Proof.
  intros Hb Ho. unfold mark. rewrite Hb. unfold owed.
  change (is_open (set_market_bond k (settle_bond b) m)) with (is_open m).
  assert (Hz : due w (Some (settle_bond b)) = 0) by done.
  unfold get_bond in Hb. destruct m as [? ? ? ? ? ? ? ? ? ? ? ? ? ? ? [c o u d r e] ?]. cbn -[due is_open] in *.
  destruct k; cbn -[due is_open] in *; subst; try rewrite Ho by done; try case_match; lia.
Qed.

Lemma values_mark k m : values_ok m -> values_ok (mark k m).
Proof.
  intros Hv j b. unfold mark. destruct (get_bond k (bonds m)) as [c|] eqn:Hc; [|apply Hv].
  cbn. rewrite get_put_bond. case_decide as Hd; [|apply Hv]. intros [= <-]. exact (Hv k c Hc).
Qed.

(** Already settled bonds stay as they are. *)
Lemma mark_settled k m b : get_bond k (bonds m) = Some b -> is_settled b = true -> mark k m = m.
Proof.
  intros Hb Hs. unfold mark. rewrite Hb. destruct m as [? ? ? ? ? ? ? ? ? ? ? ? ? ? ? [c o u d r e] ?]. cbn in *.
  unfold set_market_bond, set_bonds. cbn. f_equal. destruct b as [x y z]; cbn in *; subst. destruct k; cbn in *; by subst.
Qed.

(** ** Steps *)

(** The bond [k] of market [id] is settled: marked, and released from the
    reserve unless it was settled before. *)
Definition settles (k : BondType) (id : Z) (s s' : PmState) : Prop :=
  exists m b, v_markets (view s) !! id = Some m /\ get_bond k (bonds m) = Some b /\
    view s' = put_market id (mark k m) (view s) /\
    (0 <= due (bond_who b) (Some b) <= held_for s (bond_who b) ->
     forall w, held_for s w - due w (Some b) <= held_for s' w).

(** The reserve only grows and the view stays. *)
Definition spares (s s' : PmState) : Prop := view s' = view s /\ forall w, held_for s w <= held_for s' w.

#[global] Instance spares_refl : Reflexive spares.
Proof. intros s. split; [done|lia]. Qed.
#[global] Instance spares_trans : Transitive spares.
Proof. intros s1 s2 s3 [Hv Hh] [Hv' Hh']. split; [congruence|]. intros w. specialize (Hh w). specialize (Hh' w). lia. Qed.

Lemma spares_covered s s' : spares s s' -> covered s -> covered s'.
Proof. intros [Hv Hh] Hc w. rewrite Hv. specialize (Hc w). specialize (Hh w). lia. Qed.

Lemma pm_market_ok id s m s' : pm_market id s = (Ok m, s') -> v_markets (view s) !! id = Some m /\ s' = s.
Proof. intros (s0 & s1 & [-> ->]%get_ok & [Hm%ok_or_ok ->]%lift_ok)%bind_ok. done. Qed.

Lemma set_pm_assets_same s : set_pm_assets (pm_assets s) s = s.
Proof. by destruct s as [[]]. Qed.

Lemma pm_on_commons_ok {A} (f : ST DispatchError MarketCommons A) s a s' :
  pm_on_commons f s = (Ok a, s') -> exists c, f (pm_commons s) = (Ok a, c) /\ s' = set_pm_commons c s.
Proof. unfold pm_on_commons. destruct (f (pm_commons s)) as [r c]. intros [= -> <-]. by exists c. Qed.
Lemma pm_on_assets_ok {A} (f : ST DispatchError PmAssets A) s a s' :
  pm_on_assets f s = (Ok a, s') -> exists l, f (pm_assets s) = (Ok a, l) /\ s' = set_pm_assets l s.
Proof. unfold pm_on_assets. destruct (f (pm_assets s)) as [r l]. intros [= -> <-]. by exists l. Qed.

Lemma mutate_ok id f s u s' : pm_mutate_market id f s = (Ok u, s') ->
  exists m m', v_markets (view s) !! id = Some m /\ f m = Ok m' /\
    view s' = put_market id m' (view s) /\ pm_assets s' = pm_assets s.
Proof.
  intros (c & Hc & ->)%pm_on_commons_ok. unfold mutate_market in Hc.
  apply bind_ok in Hc as (o & c1 & [-> ->]%gets_ok & Hc).
  destruct (Markets (pm_commons s) !! id) as [m|] eqn:Hm; [|done].
  apply bind_ok in Hc as (m' & c1 & [Hf ->]%lift_ok & [_ ->]%modify_ok). by exists m, m'.
Qed.

Lemma view_assets l s : view (set_pm_assets l s) = view s.
Proof. by destruct s as [[]]. Qed.

Lemma put_same id m v : v_markets v !! id = Some m -> put_market id m v = v.
Proof. intros Hm. unfold put_market. rewrite insert_id by done. by destruct v. Qed.

Lemma settled_same k id s m b : v_markets (view s) !! id = Some m -> get_bond k (bonds m) = Some b ->
  is_settled b = true -> settles k id s s.
Proof.
  intros Hm Hb Hs. exists m, b. split; [done|]. split; [done|]. rewrite (mark_settled _ _ _ Hb Hs).
  split; [by rewrite put_same|]. intros _ w. cbn. rewrite Hs. lia.
Qed.

(** The common end of the three ways to settle. *)
Lemma settle_market k id s m b l u s' :
  v_markets (view s) !! id = Some m -> get_bond k (bonds m) = Some b -> is_settled b = false ->
  (0 <= bond_value b <= held_for s (bond_who b) -> forall w,
     held_for s w - (if decide (w = bond_who b) then bond_value b else 0) <= mc_reserved pm_reserve_id Tru w l) ->
  pm_mutate_market id (fun m => Ok (set_market_bond k (settle_bond b) m)) (set_pm_assets l s) = (Ok u, s') ->
  settles k id s s'.
Proof.
  intros Hm Hb Hs Hl (m1 & m' & Hm1 & [= <-] & Hv & Ha)%mutate_ok. rewrite view_assets in Hm1, Hv.
  assert (m1 = m) as -> by congruence. exists m, b. split; [done|]. split; [done|].
  unfold mark. rewrite Hb. split; [done|]. unfold due. rewrite Hs, decide_True by done. intros Hle w.
  unfold held_for at 2. rewrite Ha. by apply Hl.
Qed.

Lemma unreserve_bond_ok k id s u s' : unreserve_bond k id s = (Ok u, s') -> settles k id s s'.
Proof.
  intros (m & s1 & [Hm ->]%pm_market_ok & Hr)%bind_ok.
  apply bind_ok in Hr as (b & s1 & [Hb%ok_or_ok ->]%lift_ok & Hr). destruct (is_settled b) eqn:Hs.
  { apply mret_ok in Hr as [_ ->]. by eapply settled_same. }
  apply bind_ok in Hr as (u1 & s1 & [_ ->]%modify_ok & Hr). eapply settle_market; [done|done|done| |exact Hr].
  intros Hle w. by apply unreserve_keeps.
Qed.

Lemma repatriate_bond_ok k id y s u s' : repatriate_bond k id y s = (Ok u, s') -> settles k id s s'.
Proof.
  intros (m & s1 & [Hm ->]%pm_market_ok & Hr)%bind_ok.
  apply bind_ok in Hr as (b & s1 & [Hb%ok_or_ok ->]%lift_ok & Hr). destruct (is_settled b) eqn:Hs.
  { apply mret_ok in Hr as [_ ->]. by eapply settled_same. }
  apply bind_ok in Hr as (u1 & s1 & [_ ->]%modify_ok & Hr). eapply settle_market; [done|done|done| |exact Hr].
  intros Hle w. by apply repatriate_keeps.
Qed.

Lemma slash_bond_ok k id p s i s' :
  (forall x v, p = Some x -> 0 <= v -> 0 <= percent_mul_floor x v <= v) ->
  slash_bond k id p s = (Ok i, s') -> settles k id s s'.
Proof.
  intros Hp (m & s1 & [Hm ->]%pm_market_ok & Hr)%bind_ok.
  apply bind_ok in Hr as (b & s1 & [Hb%ok_or_ok ->]%lift_ok & Hr). destruct (is_settled b) eqn:Hs.
  { apply mret_ok in Hr as [_ ->]. by eapply settled_same. }
  cbv zeta in Hr. set (amounts := match p with
                  | Some x => (percent_mul_floor x (bond_value b), saturating_sub (bond_value b) (percent_mul_floor x (bond_value b)))
                  | None => (bond_value b, 0)
                  end) in Hr.
  assert (Ham : 0 <= bond_value b -> 0 <= amounts.1 /\ 0 <= amounts.2 /\ amounts.1 + amounts.2 = bond_value b).
  { intros Hv. unfold amounts. destruct p as [x|]; cbn; [|lia]. specialize (Hp x _ eq_refl Hv). unfold saturating_sub. lia. }
  destruct amounts as [sa ua]. cbn in Ham. apply bind_ok in Hr as (s0 & s1 & [-> ->]%get_ok & Hr).
  destruct (cur_slash_reserved_named _ _ _ _) as [[im ex] l1] eqn:Hsl.
  apply bind_ok in Hr as (u1 & s1 & [_ ->]%modify_ok & Hr). apply bind_ok in Hr as (u2 & s1 & Hu & Hr).
  apply bind_ok in Hr as (u3 & s2 & Hr & [_ ->]%mret_ok).
  assert (Hs1 : exists l2, s1 = set_pm_assets l2 s /\ (0 <= bond_value b <= held_for s (bond_who b) -> forall w,
    held_for s w - (if decide (w = bond_who b) then bond_value b else 0) <= mc_reserved pm_reserve_id Tru w l2)).
  { assert (H1 : 0 <= bond_value b <= held_for s (bond_who b) -> forall w,
      held_for s w - (if decide (w = bond_who b) then sa else 0) <= mc_reserved pm_reserve_id Tru w l1).
    { intros Hle w. pose proof (slash_reserved_keeps (bond_who b) sa (pm_assets s) w) as Hk. rewrite Hsl in Hk.
      apply Hk. unfold held_for in Hle. lia. }
    destruct (Z.eqb_spec ua 0) as [->|Hne].
    - apply mret_ok in Hu as [_ ->]. exists l1. split; [done|]. intros Hle w. specialize (H1 Hle w).
      assert (sa = bond_value b) as -> by lia. done.
    - apply modify_ok in Hu as [_ ->]. eexists. split; [reflexivity|]. intros Hle w. specialize (Ham (proj1 Hle)).
      pose proof (H1 Hle (bond_who b)) as Hw. rewrite decide_True in Hw by done. specialize (H1 Hle w).
      pose proof (unreserve_keeps (bond_who b) ua l1 w ltac:(lia)) as Hk. cbv [pm_assets set_pm_assets set_pm_sets] in Hk |- *.
      cbn [pm_sets cs_assets set_cs_assets]. case_decide; lia. }
  destruct Hs1 as (l2 & -> & Hl2). by eapply settle_market.
Qed.

(** The reserve covers the open bonds, with [d] to spare. *)
Definition covered_with (d : AccountId -> Z) (s : PmState) : Prop := forall w, total_owed (view s) w + d w <= held_for s w.

(** Settling keeps the reserve sufficient. *)
Lemma settles_covered d k id s s' : (forall w, 0 <= d w) -> covered_with d s -> markets_values_ok (view s) -> settles k id s s' ->
  (is_close_bond k = true -> forall m, v_markets (view s) !! id = Some m -> is_open m = true) ->
  covered_with d s' /\ markets_values_ok (view s').
Proof.
  intros Hd0 Hc Hv (m & b & Hm & Hb & Hview & Hh) Ho.
  assert (Hlive : is_close_bond k = true -> is_open m = true) by (intros Hk; by eapply Ho).
  assert (Hmv : values_ok m) by (by eapply (map_Forall_lookup_1 _ _ _ _ Hv)).
  assert (Hd : forall w, due w (Some b) <= held_for s w).
  { intros w. etransitivity; [by apply (due_le_owed w m k b)|].
    pose proof (owed_le_total _ _ _ w Hv Hm). specialize (Hc w). specialize (Hd0 w). lia. }
  split.
  - intros w. rewrite Hview, total_put, Hm. change (default 0 (owed w <$> Some m)) with (owed w m).
    rewrite (owed_mark w m k b) by done. specialize (Hc w).
    assert (Hw := Hh ltac:(split; [apply due_nonneg; intros x [= <-]; by eapply Hmv|apply Hd]) w). lia.
  - rewrite Hview. apply map_Forall_insert_2; [by apply values_mark|done].
Qed.
End Views.
