(* ===== verification/PmSchedule.v ===== *)
(** * The prediction-markets pallet: the queues of markets to be closed

    [MarketIdsPerCloseBlock] and [MarketIdsPerCloseTimeFrame] as one family of
    slots, the agreement of the slots with the markets, and how closing, creating
    and rescheduling keep it. *)

From S2P Require Import Prelude Errors Collections Interfaces DisputeQueue Market MultiCurrency CompleteSets.
From S2P Require Import PredictionMarkets PmCalls PmInv.

(** ** Removing an item that occurs once *)

Lemma position_none item l : position item l = None -> item ∉ l.
Proof.
  induction l as [|x l IH]; cbn; [by intros _ ?%elem_of_nil|]. destruct (Z.eqb_spec x item) as [->|Hne]; [done|].
  destruct (position item l); [done|]. intros _ [->|Hin]%elem_of_cons; [done|]. by apply IH.
Qed.

Lemma remove_item_spec items item x : NoDup items ->
  NoDup (remove_item items item) /\ (x ∈ remove_item items item <-> x <> item /\ x ∈ items).
Proof.
  intros Hnd. unfold remove_item. destruct (position item items) as [i|] eqn:Hp.
  - apply position_some, swap_remove_perm in Hp. rewrite Hp in Hnd. apply NoDup_cons in Hnd as [Hni Hnd].
    split; [done|]. rewrite Hp at 2. rewrite elem_of_cons. split; [|tauto].
    intros Hx. split; [|by right]. intros ->. done.
  - apply position_none in Hp. split; [done|]. split; [|tauto]. intros Hx. split; [|done]. intros ->. done.
Qed.

(** ** Slots *)

(** A block ([true]) or a time frame. *)
Abbreviation Slot := (bool * Z)%type.

Definition market_slot (m : Market) : Slot :=
  match period m with
  | BlockPeriod _ stop => (true, stop)
  | TimestampPeriod _ stop => (false, calculate_time_frame_of_moment stop)
  end.

Definition close_queue (v : View) (q : Slot) : list Z := queue_get q.2 (if q.1 then v_block v else v_frame v).
Definition put_queue (q : Slot) (ids : list Z) (v : View) : View :=
  if q.1 then mkView (v_markets v) (v_counter v) (<[q.2 := ids]> (v_block v)) (v_frame v)
  else mkView (v_markets v) (v_counter v) (v_block v) (<[q.2 := ids]> (v_frame v)).
Definition drop_queue (q : Slot) (v : View) : View :=
  if q.1 then mkView (v_markets v) (v_counter v) (delete q.2 (v_block v)) (v_frame v)
  else mkView (v_markets v) (v_counter v) (v_block v) (delete q.2 (v_frame v)).

Lemma close_queue_put q ids v q' :
  close_queue (put_queue q ids v) q' = if decide (q' = q) then ids else close_queue v q'.
Proof.
  destruct q as [[] b], q' as [[] b']; unfold close_queue, put_queue, queue_get; cbn; case_decide as Hd;
    simplify_eq; rewrite ?lookup_insert_eq, ?lookup_insert_ne by congruence; done.
Qed.
Lemma close_queue_drop q v q' : close_queue (drop_queue q v) q' = if decide (q' = q) then [] else close_queue v q'.
Proof.
  destruct q as [[] b], q' as [[] b']; unfold close_queue, drop_queue, queue_get; cbn; case_decide as Hd;
    simplify_eq; rewrite ?lookup_delete_eq, ?lookup_delete_ne by congruence; done.
Qed.
Lemma put_queue_markets q ids v : v_markets (put_queue q ids v) = v_markets v.
Proof. by destruct q as [[] b]. Qed.
Lemma drop_queue_markets q v : v_markets (drop_queue q v) = v_markets v.
Proof. by destruct q as [[] b]. Qed.
Lemma put_queue_counter q ids v : v_counter (put_queue q ids v) = v_counter v.
Proof. by destruct q as [[] b]. Qed.
Lemma drop_queue_counter q v : v_counter (drop_queue q v) = v_counter v.
Proof. by destruct q as [[] b]. Qed.
Lemma close_queue_market id m v q : close_queue (put_market id m v) q = close_queue v q.
Proof. done. Qed.
Lemma close_queue_drop_market id v q : close_queue (drop_market id v) q = close_queue v q.
Proof. done. Qed.

(** ** Agreement *)

(** Market [id] is open and ends at [q]. *)
Definition scheduled (v : View) (q : Slot) (id : Z) : Prop :=
  exists m, v_markets v !! id = Some m /\ is_open m = true /\ market_slot m = q.

Definition queues_nodup (v : View) : Prop := forall q, NoDup (close_queue v q).

Definition sched_ok (v : View) : Prop :=
  queues_nodup v /\ forall q i, i ∈ close_queue v q <-> scheduled v q i.
(** The same for all markets but [id], which is in no queue. *)
Definition sched_but (id : Z) (v : View) : Prop :=
  queues_nodup v /\ forall q i, i ∈ close_queue v q <-> i <> id /\ scheduled v q i.
(** Slot [q] is being emptied; [todo] is what is still open there. *)
Definition sched_due (q : Slot) (todo : list Z) (v : View) : Prop :=
  queues_nodup v /\ NoDup todo /\ (forall q' i, q' <> q -> i ∈ close_queue v q' <-> scheduled v q' i) /\
  (forall i, scheduled v q i <-> i ∈ todo).

Lemma scheduled_put id m v q i :
  scheduled (put_market id m v) q i <-> if decide (i = id) then is_open m = true /\ market_slot m = q else scheduled v q i.
Proof.
  unfold scheduled. cbn. case_decide as Hd; [subst|].
  - rewrite lookup_insert_eq. split; [by intros (x & [= <-] & ?)|]. intros Hm. by exists m.
  - by rewrite lookup_insert_ne by done.
Qed.
Lemma scheduled_drop id v q i : scheduled (drop_market id v) q i <-> i <> id /\ scheduled v q i.
Proof.
  unfold scheduled. cbn. destruct (decide (i = id)) as [->|Hd].
  - rewrite lookup_delete_eq. naive_solver.
  - rewrite lookup_delete_ne by done. naive_solver.
Qed.
Lemma scheduled_queue q ids v q' i : scheduled (put_queue q ids v) q' i <-> scheduled v q' i.
Proof. unfold scheduled. by rewrite put_queue_markets. Qed.
Lemma scheduled_drop_queue q v q' i : scheduled (drop_queue q v) q' i <-> scheduled v q' i.
Proof. unfold scheduled. by rewrite drop_queue_markets. Qed.

(** A market that stays open with its end, or that was not open. *)
Lemma sched_same id m m' v : sched_ok v -> v_markets v !! id = Some m -> is_open m' = is_open m ->
  (is_open m = true -> market_slot m' = market_slot m) -> sched_ok (put_market id m' v).
Proof.
  intros [Hn Hs] Hm Ho Hslot. split; [done|]. intros q i. rewrite close_queue_market, scheduled_put, Hs.
  case_decide as Hd; [subst|done]. unfold scheduled. rewrite Hm, Ho. split.
  - intros (x & [= <-] & Hx & <-). auto.
  - intros [Hx <-]. exists m. rewrite Hslot by done. auto.
Qed.

Lemma sched_clear id m v : sched_ok v -> v_markets v !! id = Some m ->
  sched_but id (put_queue (market_slot m) (remove_item (close_queue v (market_slot m)) id) v).
Proof.
  intros [Hn Hs] Hm. split.
  - intros q. rewrite close_queue_put. case_decide; [|apply Hn]. apply (remove_item_spec _ _ 0), Hn.
  - intros q i. rewrite close_queue_put, scheduled_queue. case_decide as Hd.
    + subst. rewrite (proj2 (remove_item_spec _ _ _ (Hn _))), Hs. done.
    + rewrite Hs. split; [|tauto]. intros Hi. split; [|done]. intros ->. destruct Hi as (x & Hx & _ & <-).
      apply Hd. congruence.
Qed.

Lemma sched_fresh id v : sched_ok v -> (forall m, v_markets v !! id = Some m -> is_open m = false) -> sched_but id v.
Proof.
  intros [Hn Hs] Hid. split; [done|]. intros q i. rewrite Hs. split; [|tauto]. intros Hi. split; [|done].
  intros ->. destruct Hi as (m & Hm & Ho & _). specialize (Hid m Hm). congruence.
Qed.
Lemma sched_but_put id m v : sched_but id v -> sched_but id (put_market id m v).
Proof.
  intros [Hn Hs]. split; [done|]. intros q i. rewrite close_queue_market, Hs, scheduled_put. case_decide; naive_solver.
Qed.
Lemma sched_but_drop id v : sched_but id v -> sched_but id (drop_market id v).
Proof.
  intros [Hn Hs]. split; [done|]. intros q i. rewrite close_queue_drop_market, Hs, scheduled_drop. naive_solver.
Qed.
Lemma sched_done id v : sched_but id v -> (forall m, v_markets v !! id = Some m -> is_open m = false) -> sched_ok v.
Proof.
  intros [Hn Hs] Hid. split; [done|]. intros q i. rewrite Hs. split; [tauto|]. intros Hi. split; [|done].
  intros ->. destruct Hi as (m & Hm & Ho & _). specialize (Hid m Hm). congruence.
Qed.
Lemma sched_push id m v : sched_but id v -> v_markets v !! id = Some m -> is_open m = true ->
  sched_ok (put_queue (market_slot m) (close_queue v (market_slot m) ++ [id]) v).
Proof.
  intros [Hn Hs] Hm Ho. split.
  - intros q. rewrite close_queue_put. case_decide; [|apply Hn]. apply NoDup_app. split; [apply Hn|].
    split; [|apply NoDup_singleton]. intros i Hi ->%list_elem_of_singleton. apply Hs in Hi as [? _]. done.
  - intros q i. rewrite close_queue_put, scheduled_queue.
    assert (Hid : scheduled v q id <-> q = market_slot m).
    { unfold scheduled. rewrite Hm. split; [by intros (x & [= <-] & _ & ->)|]. intros ->. by exists m. }
    case_decide as Hd.
    + subst. rewrite elem_of_app, list_elem_of_singleton, Hs. destruct (decide (i = id)) as [->|]; [tauto|]. tauto.
    + rewrite Hs. destruct (decide (i = id)) as [->|]; tauto.
Qed.

(** Emptying a slot. *)
Lemma sched_due_start q v : sched_ok v -> sched_due q (close_queue v q) v.
Proof. intros [Hn Hs]. split; [done|]. split; [apply Hn|]. split; [intros; apply Hs|]. intros i. by rewrite Hs. Qed.
Lemma sched_due_put q id todo m v : sched_due q (id :: todo) v -> is_open m = false -> sched_due q todo (put_market id m v).
Proof.
  intros (Hn & [Hid Hnd]%NoDup_cons & Ho & Hq) Hm. split; [done|]. split; [done|]. split.
  - intros q' i Hne. rewrite close_queue_market, (Ho q' i Hne), scheduled_put. case_decide as Hd; [subst|done].
    split; [|by intros [? _]; congruence]. intros (x & Hx & Hox & <-).
    assert (scheduled v q id) as (y & Hy & _ & Hs) by (apply Hq; left). congruence.
  - intros i. rewrite scheduled_put. case_decide as Hd; [subst|rewrite Hq, elem_of_cons; tauto].
    split; [by intros [? _]; congruence|done].
Qed.
Lemma sched_due_drop q id todo v : sched_due q (id :: todo) v -> sched_due q todo (drop_market id v).
Proof.
  intros (Hn & [Hid Hnd]%NoDup_cons & Ho & Hq). split; [done|]. split; [done|]. split.
  - intros q' i Hne. rewrite close_queue_drop_market, (Ho q' i Hne), scheduled_drop. split; [|tauto]. intros Hi.
    split; [|done]. intros ->. destruct Hi as (x & Hx & _ & <-).
    assert (scheduled v q id) as (y & Hy & _ & Hs) by (apply Hq; left). congruence.
  - intros i. rewrite scheduled_drop, Hq, elem_of_cons. split; [tauto|]. intros Hi. split; [|by right]. intros ->. done.
Qed.
Lemma sched_due_end q v : sched_due q [] v -> sched_ok (drop_queue q v).
Proof.
  intros (Hn & _ & Ho & Hq). split.
  - intros q'. rewrite close_queue_drop. case_decide; [constructor|apply Hn].
  - intros q' i. rewrite close_queue_drop, scheduled_drop_queue. case_decide as Hd; [subst|by apply Ho].
    by rewrite Hq.
Qed.
