(* ===== verification/PmLife.v ===== *)
(** * The prediction-markets pallet: the life of a market

    What a market looks like in each status, and what the operations of the
    pallet do to the markets, the reserve and the queues. *)

From S2P Require Import Prelude Errors FixedMath Collections Interfaces DisputeQueue Market MultiCurrency CompleteSets.
From S2P Require Import PredictionMarkets PmCalls PmInv PmSchedule.

(** ** The shape of a market *)

Lemma mark_set k m : mark k m = set_bonds (put_bond k (settle_bond <$> get_bond k (bonds m)) (bonds m)) m.
Proof. unfold mark. destruct m as [? ? ? ? ? ? ? ? ? ? ? ? ? ? ? [? ? ? ? ? ?] ?], k; cbn; by case_match. Qed.

Definition bond_is (settled : bool) (b : option Bond) : Prop := exists x, b = Some x /\ is_settled x = settled.
Definition settled_if_any (b : option Bond) : Prop := forall x, b = Some x -> is_settled x = true.

(** Is the creation bond settled? *)
Definition creation_settled (c : MarketCreation) (st : MarketStatus) : bool :=
  match st with
  | Proposed => false
  | Resolved => true
  | _ => match c with Advised => true | Permissionless => false end
  end.

(** The bonds of an early close, by its state. *)
Definition early_ok (m : Market) : Prop :=
  match early_close m with
  | None => close_request_bond (bonds m) = None /\ close_dispute_bond (bonds m) = None
  | Some p =>
      match ec_state p with
      | ScheduledAsMarketCreator => bond_is false (close_request_bond (bonds m)) /\ close_dispute_bond (bonds m) = None
      | EarlyCloseDisputed => bond_is false (close_request_bond (bonds m)) /\ bond_is false (close_dispute_bond (bonds m))
      | ScheduledAsOther | EarlyCloseRejected =>
          (close_request_bond (bonds m) = None /\ close_dispute_bond (bonds m) = None) \/
          (bond_is true (close_request_bond (bonds m)) /\ bond_is true (close_dispute_bond (bonds m)))
      end
  end.

(** The outsider's bond exists only after a report by someone but the oracle. *)
Definition outsider_ok (m : Market) : Prop :=
  match status m with
  | Proposed | Active | Closed => outsider_bond (bonds m) = None
  | Reported | Disputed => outsider_bond (bonds m) = None \/
      bond_is false (outsider_bond (bonds m)) /\ exists r, report m = Some r /\ report_by r <> oracle m
  | Resolved => settled_if_any (outsider_bond (bonds m))
  end.

Definition dispute_ok (m : Market) : Prop :=
  match status m with
  | Proposed | Active | Closed | Reported => dispute_bond (bonds m) = None
  | Disputed => is_Some (dispute_mechanism m) /\ (dispute_bond (bonds m) = None \/ bond_is false (dispute_bond (bonds m)))
  | Resolved => settled_if_any (dispute_bond (bonds m))
  end.

Definition report_ok (m : Market) : Prop :=
  match status m with
  | Proposed => creation m = Advised /\ report m = None /\ resolved_outcome m = None /\ early_close m = None
  | Active | Closed => report m = None /\ resolved_outcome m = None
  | Reported | Disputed => is_Some (report m) /\ resolved_outcome m = None
  | Resolved => is_Some (report m) /\ is_Some (resolved_outcome m)
  end.

Definition is_resolved (m : Market) : bool := match status m with Resolved => true | _ => false end.

Record market_ok (m : Market) : Prop := {
  mo_values : values_ok m;
  mo_creation : bond_is (creation_settled (creation m) (status m)) (creation_bond (bonds m));
  mo_oracle : bond_is (is_resolved m) (oracle_bond (bonds m));
  mo_outsider : outsider_ok m;
  mo_dispute : dispute_ok m;
  mo_early : is_open m = true -> early_ok m;
  mo_report : report_ok m }.

(** Resolution settles every bond that is left. *)
Definition resolve_market (o : OutcomeReport) (m : Market) : Market :=
  set_resolved_outcome (Some o) (set_status Resolved
    (mark BondDispute (mark BondOutsider (mark BondOracle
      (match creation m with Permissionless => mark BondCreation m | Advised => m end))))).

(** Computes with the fields of a market whose status is known. *)
Ltac shape_facts :=
  repeat match goal with
  | H : bond_is _ (Some _) |- _ => let x := fresh in destruct H as (x & [= <-] & H)
  | H : bond_is _ None |- _ => by destruct H as (? & ? & _)
  | H : bond_is _ ?b |- _ => is_var b; destruct H as (? & -> & H)
  | H : is_Some _ |- _ => destruct H as [? ->]
  | H : _ /\ _ |- _ => destruct H
  | H : true = true -> _ |- _ => specialize (H eq_refl)
  | H : ?x = None |- _ => is_var x; subst x
  end.
Ltac shape m :=
  unfold is_resolved, outsider_ok, dispute_ok, report_ok, early_ok, resolve_market in *; rewrite ?mark_set in *;
  destruct m as [? ? ? ? ? ? ? ? ? ? ? ? ? ? ? [? ? ? ? ? ?] ?]; cbn -[owed due bond_is settled_if_any] in *; subst;
  cbn -[owed due bond_is settled_if_any] in *; shape_facts; subst; cbn -[owed due bond_is settled_if_any] in *.

Create HintDb shape.

Lemma values_get m : values_ok m <-> forall k, match get_bond k (bonds m) with Some b => 0 <= bond_value b | None => True end.
Proof. split; intros Hv k; [destruct (get_bond k _) eqn:E; [by eapply Hv|done]|]. intros b Hb. specialize (Hv k). by rewrite Hb in Hv. Qed.

Lemma values_put k b m : values_ok m -> 0 <= bond_value b -> values_ok (set_market_bond k b m).
Proof. intros Hv Hb j x. cbn. rewrite get_put_bond. case_decide; [by intros [= <-]|apply Hv]. Qed.

Lemma mark_not_pending k m : is_bond_pending k m = false -> mark k m = m.
Proof.
  unfold is_bond_pending. intros Hp. destruct (get_bond k (bonds m)) as [b|] eqn:Hb.
  - eapply mark_settled; [done|]. by destruct (is_settled b).
  - unfold mark. by rewrite Hb.
Qed.

Lemma bond_is_some b : bond_is (is_settled b) (Some b).
Proof. by exists b. Qed.
Lemma bond_is_eq b x : is_settled b = x -> bond_is x (Some b).
Proof. by exists b. Qed.
Lemma settled_none : settled_if_any None.
Proof. done. Qed.
Lemma settled_some b : is_settled b = true -> settled_if_any (Some b).
Proof. by intros Hb x [= <-]. Qed.
Lemma settled_settle b : settled_if_any (settle_bond <$> b).
Proof. by destruct b; [intros x [= <-]|intros x]. Qed.
#[export] Hint Resolve bond_is_some bond_is_eq settled_none settled_some settled_settle : shape.

Lemma approved_ok m : market_ok m -> status m = Proposed -> market_ok (mark BondCreation (set_status Active m)).
Proof.
  intros [Hv Hc Ho Hu Hd He Hr] Hs.
  split; [by apply (values_mark BondCreation (set_status Active m))|..]; clear Hv; shape m; eauto with shape.
Qed.

Lemma closed_ok m : market_ok m -> status m = Active -> market_ok (set_status Closed m).
Proof. intros [Hv Hc Ho Hu Hd He Hr] Hs. split; [exact Hv|..]; clear Hv; shape m; eauto with shape; done. Qed.

Lemma period_ok p m : market_ok m -> market_ok (set_period p m).
Proof. intros [Hv Hc Ho Hu Hd He Hr]. by split. Qed.

Lemma oracle_ok a m : market_ok m -> status m = Closed -> market_ok (set_oracle a m).
Proof. intros [Hv Hc Ho Hu Hd He Hr] Hs. split; [exact Hv|..]; clear Hv; shape m; eauto with shape; done. Qed.

Lemma reported_ok r m : market_ok m -> status m = Closed -> market_ok (set_status Reported (set_report (Some r) m)).
Proof. intros [Hv Hc Ho Hu Hd He Hr] Hs. split; [exact Hv|..]; clear Hv; shape m; eauto with shape; done. Qed.

Lemma outsider_reported_ok r b m : market_ok m -> status m = Closed -> 0 <= bond_value b -> is_settled b = false ->
  report_by r <> oracle m -> market_ok (set_status Reported (set_report (Some r) (set_market_bond BondOutsider b m))).
Proof.
  intros [Hv Hc Ho Hu Hd He Hr] Hs Hb0 Hb Hne. split; [by apply values_put|..]; clear Hv; shape m; eauto 10 with shape; done.
Qed.

Lemma disputed_ok b m : market_ok m -> status m = Reported -> is_Some (dispute_mechanism m) -> 0 <= bond_value b ->
  is_settled b = false -> market_ok (set_market_bond BondDispute b (set_status Disputed m)).
Proof.
  intros [Hv Hc Ho Hu Hd He Hr] Hs Hm Hb0 Hb. split; [by apply values_put|..]; clear Hv; shape m; eauto 10 with shape; done.
Qed.

Lemma global_disputed_ok m : market_ok m -> status m = Reported -> is_Some (dispute_mechanism m) ->
  market_ok (set_status Disputed m).
Proof. intros [Hv Hc Ho Hu Hd He Hr] Hs Hm. split; [exact Hv|..]; clear Hv; shape m; eauto 10 with shape; done. Qed.

Lemma resolved_ok o m : market_ok m -> status m = Reported \/ status m = Disputed -> market_ok (resolve_market o m).
Proof.
  intros [Hv Hc Ho Hu Hd He Hr] Hs. split.
  { unfold resolve_market. apply (values_mark BondDispute), (values_mark BondOutsider), (values_mark BondOracle).
    destruct (creation m); [by apply values_mark|done]. }
  all: clear Hv; destruct (creation m) eqn:Hk; destruct Hs as [Hs|Hs]; shape m; eauto with shape; done.
Qed.

(** *** Early closes *)

Lemma scheduled_other_ok a b p m : market_ok m -> status m = Active ->
  (early_close m = None \/ exists e, early_close m = Some e /\ ec_state e = EarlyCloseRejected) ->
  market_ok (set_early_close (Some (mkEarlyClose a b ScheduledAsOther)) (set_period p m)).
Proof.
  intros [Hv Hc Ho Hu Hd He Hr] Hs Hx. split; [exact Hv|..]; clear Hv;
    (destruct Hx as [Hx|(e & Hx & Hx')]; [|destruct e]; shape m; eauto with shape).
Qed.

Lemma scheduled_creator_ok a b p x m : market_ok m -> status m = Active -> early_close m = None ->
  0 <= bond_value x -> is_settled x = false ->
  market_ok (set_early_close (Some (mkEarlyClose a b ScheduledAsMarketCreator))
    (set_period p (set_market_bond BondCloseRequest x m))).
Proof.
  intros [Hv Hc Ho Hu Hd He Hr] Hs Hx Hx0 Hxs. split; [by apply values_put|..]; clear Hv; shape m; eauto with shape.
Qed.

Lemma scheduled_over_dispute_ok a b p e m : market_ok m -> status m = Active ->
  early_close m = Some e -> ec_state e = EarlyCloseDisputed ->
  market_ok (set_early_close (Some (mkEarlyClose a b ScheduledAsOther))
    (set_period p (mark BondCloseRequest (mark BondCloseDispute m)))).
Proof.
  intros [Hv Hc Ho Hu Hd He Hr] Hs Hx Hx'. destruct e. split; [by apply values_mark, values_mark|..]; clear Hv; shape m; eauto 8 with shape.
Qed.

Lemma early_disputed_ok a b p x e m : market_ok m -> status m = Active ->
  early_close m = Some e -> ec_state e = ScheduledAsMarketCreator -> 0 <= bond_value x -> is_settled x = false ->
  market_ok (set_early_close (Some (mkEarlyClose a b EarlyCloseDisputed))
    (set_market_bond BondCloseDispute x (set_period p m))).
Proof.
  intros [Hv Hc Ho Hu Hd He Hr] Hs Hx Hx' Hx0 Hxs. destruct e. split; [by apply values_put|..]; clear Hv; shape m; eauto with shape.
Qed.

Lemma early_rejected_ok a b e m : market_ok m -> status m = Active ->
  early_close m = Some e -> ec_state e = EarlyCloseDisputed ->
  market_ok (set_early_close (Some (mkEarlyClose a b EarlyCloseRejected)) (mark BondCloseDispute (mark BondCloseRequest m))).
Proof.
  intros [Hv Hc Ho Hu Hd He Hr] Hs Hx Hx'. destruct e. split; [by apply values_mark, values_mark|..]; clear Hv; shape m; eauto 8 with shape.
Qed.

Lemma early_withdrawn_ok a b p e m : market_ok m -> status m = Active ->
  early_close m = Some e -> ec_state e = ScheduledAsOther ->
  market_ok (set_early_close (Some (mkEarlyClose a b EarlyCloseRejected)) (set_period p m)).
Proof.
  intros [Hv Hc Ho Hu Hd He Hr] Hs Hx Hx'. destruct e. split; [exact Hv|..]; clear Hv; shape m; eauto with shape.
Qed.
