(* ===== verification/PmMoves.v ===== *)
(** * The prediction-markets pallet: what its operations do to a market

    A run of the pallet works on one market at a time: [stands id v m d s] says
    that the state [s] is the view [v] with market [id] being [m], and that the
    reserve covers the open bonds with [d] to spare.  Each operation has a rule
    that moves it. *)

From S2P Require Import Prelude Errors FixedMath Collections Interfaces DisputeQueue Market MultiCurrency CompleteSets.
From S2P Require Import PredictionMarkets PmCalls PmInv PmSchedule PmLife.

Section Moves.
Context `{PmLaws}.

Definition stands (id : Z) (v : View) (m : Market) (d : AccountId -> Z) (s : PmState) : Prop :=
  view s = put_market id m v /\ covered_with d s /\ markets_values_ok (view s).
Definition nothing : AccountId -> Z := fun _ => 0.
Definition extra (who : AccountId) (x : Z) : AccountId -> Z := fun w => if decide (w = who) then x else 0.

(** ** Views *)

Lemma put_put id m m' v : put_market id m' (put_market id m v) = put_market id m' v.
Proof. unfold put_market. cbn. by rewrite insert_insert_eq. Qed.
Lemma put_market_queue id m q ids v : put_market id m (put_queue q ids v) = put_queue q ids (put_market id m v).
Proof. by destruct q as [[] b]. Qed.
Lemma drop_put id m v : drop_market id (put_market id m v) = drop_market id v.
Proof. unfold drop_market, put_market. cbn. by rewrite delete_insert_eq. Qed.
Lemma total_queue q ids v w : total_owed (put_queue q ids v) w = total_owed v w.
Proof. unfold total_owed. by rewrite put_queue_markets. Qed.

Lemma stands_lookup id v m d s : stands id v m d s -> v_markets (view s) !! id = Some m.
Proof. intros (-> & _). cbn. apply lookup_insert_eq. Qed.
Lemma stands_values id v m d s : stands id v m d s -> values_ok m.
Proof. intros Hs. eapply (map_Forall_lookup_1 _ _ _ _ (proj2 (proj2 Hs))). by eapply stands_lookup. Qed.

Lemma stands_start id s m : v_markets (view s) !! id = Some m -> covered s -> markets_values_ok (view s) ->
  stands id (view s) m nothing s.
Proof. intros Hm Hc Hv. split; [by rewrite put_same|]. split; [|done]. intros w. specialize (Hc w). unfold nothing. lia. Qed.

Lemma stands_market id v m d s m' s' : stands id v m d s -> pm_market id s = (Ok m', s') -> m' = m /\ s' = s.
Proof. intros Hs [Hm ->]%pm_market_ok. apply stands_lookup in Hs. by simplify_eq. Qed.

(** ** Operations that spare markets, queues and reserve *)

Definition sparing {A} (c : ST DispatchError PmState A) : Prop := forall s a s', c s = (Ok a, s') -> spares s s'.

Lemma stands_spares id v m d s s' : spares s s' -> stands id v m d s -> stands id v m d s'.
Proof.
  intros [Hv Hh] (Hs & Hc & Hm). unfold stands, covered_with. rewrite Hv. split; [done|]. split; [|done].
  intros w. specialize (Hc w). specialize (Hh w). lia.
Qed.
Lemma stands_sparing {A} (c : ST DispatchError PmState A) id v m d s a s' : sparing c -> stands id v m d s ->
  c s = (Ok a, s') -> stands id v m d s'.
Proof. intros Hc Hs Hr. eapply stands_spares; [by eapply Hc|done]. Qed.

Lemma sparing_bind {A B} (c : ST DispatchError PmState A) (f : A -> ST DispatchError PmState B) :
  sparing c -> (forall a, sparing (f a)) -> sparing (c ≫= f).
Proof. intros Hc Hf s b s' (a & s1 & Ha & Hb)%bind_ok. etransitivity; [by eapply Hc|by eapply Hf]. Qed.
Lemma sparing_lift {A} (r : Res A) : sparing (lift r).
Proof. by intros s a s' [_ ->]%lift_ok. Qed.
Lemma sparing_mret {A} (x : A) : sparing (mret x).
Proof. by intros s a s' [_ ->]%mret_ok. Qed.
Lemma sparing_get : sparing get.
Proof. by intros s a s' [_ ->]%get_ok. Qed.
Lemma sparing_fail {A} e : sparing (fail e : ST DispatchError PmState A).
Proof. by intros s a s' ?. Qed.
Lemma sparing_market id : sparing (pm_market id).
Proof. by intros s a s' [_ ->]%pm_market_ok. Qed.
Lemma sparing_modify f : (forall s, spares s (f s)) -> sparing (modify f).
Proof. intros Hf s a s' [_ ->]%modify_ok. apply Hf. Qed.
Lemma sparing_event e : sparing (deposit_pm_event e).
Proof. by apply sparing_modify. Qed.
Lemma sparing_transactional {A} (c : ST DispatchError PmState A) : sparing c -> sparing (transactional c).
Proof. intros Hc s a s' Hr%transactional_ok. by eapply Hc. Qed.
Lemma sparing_for_each {A} (xs : list A) f : (forall x, sparing (f x)) -> sparing (for_each xs f).
Proof.
  intros Hf. induction xs as [|x xs IH]; cbn; [apply sparing_mret|]. apply sparing_bind; [apply Hf|done].
Qed.

Lemma spares_assets l s : (forall w, held_for s w <= mc_reserved pm_reserve_id Tru w l) -> spares s (set_pm_assets l s).
Proof. intros Hl. split; [apply view_assets|]. exact Hl. Qed.
Lemma sparing_assets {A} (f : ST DispatchError PmAssets A) :
  (forall l a l' w, f l = (Ok a, l') -> mc_reserved pm_reserve_id Tru w l <= mc_reserved pm_reserve_id Tru w l') ->
  sparing (pm_on_assets f).
Proof. intros Hf s a s' (l & Hl & ->)%pm_on_assets_ok. apply spares_assets. intros w. by eapply Hf. Qed.
Lemma sparing_modify_assets f :
  (forall l w, mc_reserved pm_reserve_id Tru w l <= mc_reserved pm_reserve_id Tru w (f l)) ->
  sparing (modify (fun s => set_pm_assets (f (pm_assets s)) s)).
Proof. intros Hf. apply sparing_modify. intros s. apply spares_assets. intros w. apply Hf. Qed.
Lemma sparing_disputes {A} (f : ST DispatchError (DisputeState * PmAssets * MarketIdsPerDisputeBlock) A) :
  (forall w a w' x, f w = (Ok a, w') -> mc_reserved pm_reserve_id Tru x w.1.2 <= mc_reserved pm_reserve_id Tru x w'.1.2) ->
  sparing (on_disputes f).
Proof.
  intros Hf s a s' Hr. unfold on_disputes in Hr. destruct (f (dispute_world s)) as [r [[d' l'] q']] eqn:Hd. injection Hr as -> <-.
  split; [done|]. intros w. exact (Hf _ _ _ w Hd).
Qed.

(** ** Operations on one market *)

Lemma stands_settles k id v m d s s' : (forall w, 0 <= d w) -> settles k id s s' ->
  (is_close_bond k = true -> is_open m = true) -> stands id v m d s -> stands id v (mark k m) d s'.
Proof.
  intros Hd Hk Ho Hs. pose proof (stands_lookup _ _ _ _ _ Hs) as Hl. destruct Hs as (Hv & Hc & Hm).
  destruct (settles_covered d k id s s' Hd Hc Hm Hk) as [Hc' Hm'].
  { intros Hx m1 Hm1. rewrite Hl in Hm1. injection Hm1 as <-. auto. }
  destruct Hk as (m1 & b & Hm1 & Hb & Hv' & _). rewrite Hl in Hm1. injection Hm1 as <-.
  split; [by rewrite Hv', Hv, put_put|]. done.
Qed.

Lemma stands_mutate id f v m d s u s' m' d' : stands id v m d s -> pm_mutate_market id f s = (Ok u, s') ->
  f m = Ok m' -> (forall w, owed w m' + d' w <= owed w m + d w) -> values_ok m' -> stands id v m' d' s'.
Proof.
  intros Hs (m0 & m1 & Hm0 & Hf & Hv' & Ha)%mutate_ok Hf' Hle Hvs.
  pose proof (stands_lookup _ _ _ _ _ Hs) as Hl. destruct Hs as (Hv & Hc & Hm).
  rewrite Hl in Hm0. injection Hm0 as <-. rewrite Hf' in Hf. injection Hf as <-.
  split; [by rewrite Hv', Hv, put_put|]. unfold covered_with. rewrite Hv'. split.
  - intros w. rewrite total_put, Hl. change (default 0 (owed w <$> Some m)) with (owed w m).
    specialize (Hc w). specialize (Hle w). unfold held_for in *. rewrite Ha. lia.
  - by apply map_Forall_insert_2.
Qed.

Lemma reserve_tru_ok who x s u s' : 0 <= x -> reserve_tru who x s = (Ok u, s') ->
  view s' = view s /\ forall w, held_for s' w = held_for s w + extra who x w.
Proof.
  intros Hx (l & Hl & ->)%pm_on_assets_ok. split; [apply view_assets|]. intros w.
  pose proof (reserve_reserved _ _ _ _ _ _ _ Tru w Hx Hl) as Hr. unfold held_for, extra.
  change (pm_assets (set_pm_assets l s)) with l. rewrite Hr. unfold at_entry.
  repeat case_decide; repeat case_bool_decide; naive_solver.
Qed.

Lemma stands_reserve who x id v m s u s' : 0 <= x -> stands id v m nothing s -> reserve_tru who x s = (Ok u, s') ->
  stands id v m (extra who x) s'.
Proof.
  intros Hx (Hv & Hc & Hm) Hr. destruct (reserve_tru_ok _ _ _ _ _ Hx Hr) as [Hview Hh].
  unfold stands, covered_with. rewrite Hview. split; [done|]. split; [|done].
  intros w. rewrite Hh. specialize (Hc w). unfold nothing in Hc. lia.
Qed.

Lemma stands_queue q ids id v m d s s' : stands id v m d s -> view s' = put_queue q ids (view s) ->
  pm_assets s' = pm_assets s -> stands id (put_queue q ids v) m d s'.
Proof.
  intros (Hv & Hc & Hm) Hq Ha. unfold stands, covered_with. rewrite Hq. split; [by rewrite put_market_queue, Hv|].
  split; [|unfold markets_values_ok; by rewrite put_queue_markets].
  intros w. rewrite total_queue. unfold held_for. rewrite Ha. apply Hc.
Qed.

Lemma stands_clear id v m d s n s' : stands id v m d s -> is_open m = true -> clear_auto_close id s = (Ok n, s') ->
  stands id (put_queue (market_slot m) (remove_item (close_queue v (market_slot m)) id) v) m d s'.
Proof.
  intros Hs Ho (m1 & s1 & Hm1 & Hr)%bind_ok. destruct (stands_market _ _ _ _ _ _ _ Hs Hm1) as [-> ->].
  assert (bool_decide (status m = Active) || bool_decide (status m = Proposed) = true) as Hst.
  { unfold is_open in Ho. by destruct (status m). }
  rewrite Hst in Hr. apply bind_ok in Hr as (s0 & s1 & [-> ->]%get_ok & Hr).
  assert (close_queue v (market_slot m) = close_queue (view s) (market_slot m)) as -> by (by rewrite (proj1 Hs)).
  unfold market_slot in *. destruct (period m) as [a b|a b]; cbn in Hr;
    apply bind_ok in Hr as (u & s2 & [_ ->]%modify_ok & [_ ->]%mret_ok); by eapply stands_queue.
Qed.

Lemma try_push_ok c (x : Z) l l' : try_push c x l = Some l' -> l' = l ++ [x].
Proof. unfold try_push. case_match; congruence. Qed.

Lemma stands_insert id v m d s n s' : stands id v m d s -> insert_auto_close id s = (Ok n, s') ->
  stands id (put_queue (market_slot m) (close_queue v (market_slot m) ++ [id]) v) m d s'.
Proof.
  intros Hs (m1 & s1 & Hm1 & Hr)%bind_ok. destruct (stands_market _ _ _ _ _ _ _ Hs Hm1) as [-> ->].
  apply bind_ok in Hr as (s0 & s1 & [-> ->]%get_ok & Hr).
  assert (close_queue v (market_slot m) = close_queue (view s) (market_slot m)) as -> by (by rewrite (proj1 Hs)).
  unfold market_slot in *. destruct (period m) as [a b|a b];
    apply bind_ok in Hr as ([k q] & s1 & [Hq ->]%lift_ok & Hr);
    apply result_bind_ok in Hq as (ids & Hids%ok_or_ok%try_push_ok & [= <- <-]); subst ids;
    apply bind_ok in Hr as (u & s2 & [_ ->]%modify_ok & [_ ->]%mret_ok); by eapply stands_queue.
Qed.

(** *** Settling *)

Lemma nothing_nonneg : forall w, 0 <= nothing w.
Proof. unfold nothing. lia. Qed.
Lemma extra_nonneg who x : 0 <= x -> forall w, 0 <= extra who x w.
Proof. intros Hx w. unfold extra. case_decide; lia. Qed.

Definition settleable (k : BondType) (m : Market) : Prop := is_close_bond k = true -> is_open m = true.

Lemma stands_unreserve k id v m s u s' : stands id v m nothing s -> settleable k m ->
  unreserve_bond k id s = (Ok u, s') -> stands id v (mark k m) nothing s'.
Proof. intros Hs Hk Hr%unreserve_bond_ok. eapply stands_settles; [apply nothing_nonneg|done..]. Qed.
Lemma stands_repatriate k y id v m s u s' : stands id v m nothing s -> settleable k m ->
  repatriate_bond k id y s = (Ok u, s') -> stands id v (mark k m) nothing s'.
Proof. intros Hs Hk Hr%repatriate_bond_ok. eapply stands_settles; [apply nothing_nonneg|done..]. Qed.
Lemma stands_slash k p id v m s i s' : stands id v m nothing s -> settleable k m ->
  p = None \/ p = Some AdvisoryBondSlashPercentage ->
  slash_bond k id p s = (Ok i, s') -> stands id v (mark k m) nothing s'.
Proof.
  intros Hs Hk Hp Hr. apply slash_bond_ok in Hr.
  - eapply stands_settles; [apply nothing_nonneg|done..].
  - intros x y -> Hy. destruct Hp as [|[= ->]]; [done|]. by apply percent_part.
Qed.

(** A settlement guarded by the market read before. *)
Lemma stands_if_pending k m0 (c : ST DispatchError PmState unit) id v m s u s' :
  stands id v m nothing s -> get_bond k (bonds m) = get_bond k (bonds m0) ->
  (c s = (Ok u, s') -> stands id v (mark k m) nothing s') ->
  (if is_bond_pending k m0 then c else mret tt) s = (Ok u, s') -> stands id v (mark k m) nothing s'.
Proof.
  intros Hs Hb Hc Hr. destruct (is_bond_pending k m0) eqn:Hp; [auto|]. apply mret_ok in Hr as [_ ->].
  rewrite mark_not_pending; [done|]. unfold is_bond_pending in *. by rewrite Hb.
Qed.

Lemma get_mark_ne k j m : j <> k -> get_bond j (bonds (mark k m)) = get_bond j (bonds m).
Proof. intros Hne. rewrite mark_set. cbn. by rewrite get_put_bond, decide_False. Qed.
Lemma mark_status k m : status (mark k m) = status m.
Proof. by rewrite mark_set. Qed.
Lemma mark_open k m : is_open (mark k m) = is_open m.
Proof. unfold is_open. by rewrite mark_status. Qed.

Lemma owed_put w k b m : settleable k m ->
  owed w (set_market_bond k b m) = owed w m - due w (get_bond k (bonds m)) + due w (Some b).
Proof.
  intros Hk. unfold owed, settleable in *. destruct m as [? ? ? ? ? ? ? ? ? ? ? ? ? ? ? [? ? ? ? ? ?] ?].
  destruct k; cbn -[due is_open] in *; unfold is_open in *; cbn -[due] in *; try case_match; try lia; specialize (Hk eq_refl); done.
Qed.
Lemma due_new w who x : due w (Some (Bond_new who x)) = extra who x w.
Proof. done. Qed.

(** ** Removal *)

Lemma removed_ok id v m s u s' : stands id v m nothing s -> pm_on_commons (remove_market id) s = (Ok u, s') ->
  view s' = drop_market id v /\ covered s' /\ markets_values_ok (view s').
Proof.
  intros Hs (c & Hc & ->)%pm_on_commons_ok. pose proof (stands_lookup _ _ _ _ _ Hs) as Hl.
  pose proof (stands_values _ _ _ _ _ Hs) as Hval. destruct Hs as (Hv & Hcov & Hm).
  apply bind_ok in Hc as (c0 & c1 & [-> ->]%get_ok & Hc). case_bool_decide; [|done]. apply modify_ok in Hc as [_ ->].
  assert (Hd : view (set_pm_commons (set_Markets (delete id (Markets (pm_commons s))) (pm_commons s)) s) = drop_market id (view s))
    by done.
  unfold covered. rewrite Hd. split; [by rewrite Hv, drop_put|]. split.
  - intros w. rewrite total_drop, Hl. change (default 0 (owed w <$> Some m)) with (owed w m).
    pose proof (owed_nonneg w m Hval). specialize (Hcov w). unfold nothing in Hcov.
    match goal with |- _ <= ?h => change h with (held_for s w) end. lia.
  - by apply map_Forall_delete.
Qed.

Lemma removed_spares (s s' : PmState) v : spares s s' -> view s = v /\ covered s /\ markets_values_ok (view s) ->
  view s' = v /\ covered s' /\ markets_values_ok (view s').
Proof. intros Hs (Hv & Hc & Hm). pose proof (spares_covered _ _ Hs Hc). destruct Hs as [-> _]. done. Qed.

(** The end of an advised market that was never approved. *)
Lemma expired_ok id v m s u s' : stands id v m nothing s -> handle_expired_advised_market id m s = (Ok u, s') ->
  status m = Proposed /\ view s' = drop_market id v /\ covered s' /\ markets_values_ok (view s').
Proof.
  intros Hs (u1 & s1 & [Hst%ensure_ok%bool_decide_eq_true ->]%lift_ok & Hr)%bind_ok. split; [done|].
  apply bind_ok in Hr as (u2 & s2 & H2 & Hr). eapply stands_unreserve in H2; [|done|done].
  apply bind_ok in Hr as (u3 & s3 & H3 & Hr). eapply stands_unreserve in H3; [|done|done].
  apply bind_ok in Hr as (u4 & s4 & H4 & Hr). eapply removed_ok in H4; [|done].
  apply bind_ok in Hr as (u5 & s5 & H5 & Hr). eapply removed_spares in H4; [|eapply sparing_modify, H5; done].
  eapply removed_spares; [|exact H4]. eapply sparing_event, Hr.
Qed.

Lemma rejected_ok id v m r s u s' : stands id v m nothing s -> do_reject_market id m r s = (Ok u, s') ->
  status m = Proposed /\ view s' = drop_market id v /\ covered s' /\ markets_values_ok (view s').
Proof.
  intros Hs (u1 & s1 & [Hst%ensure_ok%bool_decide_eq_true ->]%lift_ok & Hr)%bind_ok. split; [done|].
  apply bind_ok in Hr as (u2 & s2 & H2 & Hr). eapply stands_unreserve in H2; [|done|done].
  apply bind_ok in Hr as (i & s3 & H3 & Hr). eapply stands_slash in H3; [|done|done|by right].
  apply bind_ok in Hr as (u4 & s4 & H4 & Hr).
  eapply stands_sparing in H4; [|apply sparing_modify_assets; intros; apply on_unbalanced_keeps|done].
  apply bind_ok in Hr as (u5 & s5 & H5 & Hr). eapply removed_ok in H5; [|done].
  apply bind_ok in Hr as (u6 & s6 & H6 & Hr). eapply removed_spares in H5; [|eapply sparing_modify, H6; done].
  apply bind_ok in Hr as (u7 & s7 & H7 & Hr). eapply removed_spares in H5; [|eapply sparing_event, H7].
  eapply removed_spares; [|exact H5]. eapply sparing_event, Hr.
Qed.

(** ** Closing *)

Lemma mutate_with_ok id cb s u s' : mutate_market_with id cb s = (Ok u, s') ->
  exists m m' s1, v_markets (view s) !! id = Some m /\ cb m s = (Ok m', s1) /\
    view s' = put_market id m' (view s1) /\ pm_assets s' = pm_assets s1.
Proof.
  intros (s0 & s1 & [-> ->]%get_ok & Hr)%bind_ok. destruct (Markets (pm_commons s) !! id) as [m|] eqn:Hm; [|done].
  apply bind_ok in Hr as (m' & s2 & Hcb & [_ ->]%modify_ok). by exists m, m', s2.
Qed.

(** The write-back of a market over what the callback left. *)
Lemma stands_write id v m d s m' d' s' : stands id v m d s -> view s' = put_market id m' (view s) ->
  pm_assets s' = pm_assets s -> (forall w, owed w m' + d' w <= owed w m + d w) -> values_ok m' -> stands id v m' d' s'.
Proof.
  intros Hs Hv' Ha Hle Hvs. pose proof (stands_lookup _ _ _ _ _ Hs) as Hl. destruct Hs as (Hv & Hc & Hm).
  split; [by rewrite Hv', Hv, put_put|]. unfold covered_with. rewrite Hv'. split.
  - intros w. rewrite total_put, Hl. change (default 0 (owed w <$> Some m)) with (owed w m).
    specialize (Hc w). specialize (Hle w). unfold held_for in *. rewrite Ha. lia.
  - by apply map_Forall_insert_2.
Qed.

(** The bonds of an early close no longer count once the market is closed. *)
Lemma owed_closed w m m1 : values_ok m1 -> (forall k, is_close_bond k = false -> get_bond k (bonds m1) = get_bond k (bonds m)) ->
  owed w (set_status Closed m) <= owed w m1.
Proof.
  intros Hv Hk. unfold owed. cbn -[due].
  pose proof (Hk BondCreation eq_refl) as Hc. pose proof (Hk BondOracle eq_refl) as Ho.
  pose proof (Hk BondOutsider eq_refl) as Hu. pose proof (Hk BondDispute eq_refl) as Hd. cbn in Hc, Ho, Hu, Hd.
  rewrite Hc, Ho, Hu, Hd. pose proof (due_nonneg w _ (Hv BondCloseRequest)).
  pose proof (due_nonneg w _ (Hv BondCloseDispute)). cbn -[due] in *. case_match; lia.
Qed.

Lemma close_ok id v m s u s' : stands id v m nothing s -> close_market id s = (Ok u, s') ->
  status m = Active /\ stands id v (set_status Closed m) nothing s'.
Proof.
  intros Hs (u0 & s2 & (m0 & m' & s1 & Hm0 & Hcb & Hv' & Ha)%mutate_with_ok & He)%bind_ok.
  rewrite (stands_lookup _ _ _ _ _ Hs) in Hm0. injection Hm0 as <-.
  apply bind_ok in Hcb as (u1 & s3 & [Hst%ensure_ok%bool_decide_eq_true ->]%lift_ok & Hcb). split; [done|].
  apply bind_ok in Hcb as (u2 & s3 & Hcb & [-> ->]%mret_ok).
  assert (Hop : is_open m = true) by (unfold is_open; by rewrite Hst).
  assert (exists m1, stands id v m1 nothing s3 /\ forall k, is_close_bond k = false -> get_bond k (bonds m1) = get_bond k (bonds m))
    as (m1 & Hs1 & Hk).
  { destruct (early_close m) as [p|]; [|apply mret_ok in Hcb as [_ ->]; by exists m].
    destruct (ec_state p); try (apply mret_ok in Hcb as [_ ->]; by exists m).
    - eapply stands_if_pending in Hcb; [|done|done|intros Hx; eapply stands_unreserve; [done|by intros _|done]].
      eexists. split; [done|]. intros k Hk. apply get_mark_ne. by destruct k.
    - apply bind_ok in Hcb as (u3 & s4 & H3 & Hcb).
      eapply stands_if_pending in H3; [|done|done|intros Hx; eapply stands_unreserve; [done|by intros _|done]].
      eapply stands_if_pending in Hcb; [|done|by rewrite get_mark_ne|
        intros Hx; eapply stands_unreserve; [done|intros _; by rewrite mark_open|done]].
      eexists. split; [done|]. intros k Hk. rewrite !get_mark_ne; by destruct k. }
  eapply stands_sparing; [apply sparing_event| |exact He]. eapply (stands_write _ _ _ _ _ _ _ _ Hs1 Hv' Ha).
  - intros w. pose proof (owed_closed w m m1 (stands_values _ _ _ _ _ Hs1) Hk). unfold nothing. lia.
  - exact (stands_values _ _ _ _ _ Hs).
Qed.

Lemma market_end_ok id v m s u s' : stands id v m nothing s -> set_market_end id s = (Ok u, s') ->
  exists p, stands id v (set_period p m) nothing s'.
Proof.
  intros Hs (s0 & s1 & [-> ->]%get_ok & Hr)%bind_ok. eexists.
  eapply stands_mutate; [exact Hs|exact Hr|reflexivity|intros w; done|exact (stands_values _ _ _ _ _ Hs)].
Qed.

(** ** Resolution *)

Lemma mark_absent k m : get_bond k (bonds m) = None -> mark k m = m.
Proof. intros Hk. unfold mark. by rewrite Hk. Qed.

(** The bonds that resolution settles after the creation bond. *)
Section Resolution.
Context (id : Z) (v : View) (m m1 : Market).
Hypothesis agree : forall k, k <> BondCreation -> get_bond k (bonds m1) = get_bond k (bonds m).
Hypothesis by_oracle : forall r, report m = Some r -> report_by r = oracle m -> outsider_bond (bonds m) = None.

Lemma outsider_left r : report m = Some r -> report_by r = oracle m ->
  mark BondOutsider (mark BondOracle m1) = mark BondOracle m1.
Proof. intros Hr Hb. apply mark_absent. rewrite get_mark_ne, agree by done. by eapply by_oracle. Qed.

Lemma pending_outsider (c : ST DispatchError PmState unit) s u s' : stands id v (mark BondOracle m1) nothing s ->
  (c s = (Ok u, s') -> stands id v (mark BondOutsider (mark BondOracle m1)) nothing s') ->
  (if is_bond_pending BondOutsider m then c else mret tt) s = (Ok u, s') ->
  stands id v (mark BondOutsider (mark BondOracle m1)) nothing s'.
Proof. intros Hs Hc. apply stands_if_pending; [done| |done]. by rewrite get_mark_ne, agree. Qed.

Lemma reported_bonds_ok s o s' : stands id v m1 nothing s -> resolve_reported_market id m s = (Ok o, s') ->
  stands id v (mark BondOutsider (mark BondOracle m1)) nothing s'.
Proof.
  intros Hs (r & s1 & [Hrep%ok_or_ok ->]%lift_ok & Hr)%bind_ok.
  apply bind_ok in Hr as (u & s2 & Hr & [_ ->]%mret_ok). case_bool_decide as Hb.
  - eapply stands_unreserve in Hr; [|done|done]. by rewrite (outsider_left r).
  - apply bind_ok in Hr as (u1 & s3 & H1 & Hr). eapply stands_repatriate in H1; [|done|done].
    eapply pending_outsider; [done| |exact Hr]. intros Hx. by eapply stands_unreserve.
Qed.

Lemma reporter_bonds_ok (b c : bool) r s i s' : stands id v m1 nothing s -> report m = Some r ->
  b = bool_decide (report_by r = oracle m) ->
  (if b then
     if c then unreserve_bond BondOracle id ;; mret imbalance_zero
     else negative_imbalance ← slash_bond BondOracle id None; mret (imbalance_subsume imbalance_zero negative_imbalance)
   else
     if c then
       repatriate_bond BondOracle id (report_by r) ;;
       (if is_bond_pending BondOutsider m then unreserve_bond BondOutsider id else mret tt) ;;
       mret imbalance_zero
     else
       oracle_imbalance ← slash_bond BondOracle id None;
       outsider_imbalance ← (if is_bond_pending BondOutsider m then slash_bond BondOutsider id None else mret imbalance_zero);
       mret (imbalance_subsume (imbalance_subsume imbalance_zero oracle_imbalance) outsider_imbalance)) s = (Ok i, s') ->
  stands id v (mark BondOutsider (mark BondOracle m1)) nothing s'.
Proof.
  intros Hs Hrep -> Hr. case_bool_decide as Hb; destruct c; apply bind_ok in Hr as (x & s1 & H1 & Hr).
  - apply mret_ok in Hr as [_ ->]. eapply stands_unreserve in H1; [|done|done]. by rewrite (outsider_left r).
  - apply mret_ok in Hr as [_ ->]. eapply stands_slash in H1; [|done|done|by left]. by rewrite (outsider_left r).
  - eapply stands_repatriate in H1; [|done|done]. apply bind_ok in Hr as (y & s2 & Hr & [_ ->]%mret_ok).
    eapply pending_outsider; [done| |exact Hr]. intros Hx. by eapply stands_unreserve.
  - eapply stands_slash in H1; [|done|done|by left]. apply bind_ok in Hr as (y & s2 & Hr & [_ ->]%mret_ok).
    destruct (is_bond_pending BondOutsider m) eqn:Hp.
    + eapply stands_slash in Hr; [done|done|done|by left].
    + apply mret_ok in Hr as [_ ->]. rewrite mark_not_pending; [done|]. unfold is_bond_pending in *.
      by rewrite get_mark_ne, agree.
Qed.

Lemma settle_bonds_ok o r s i s' : stands id v m1 nothing s -> report m = Some r ->
  settle_bonds id m o r s = (Ok i, s') ->
  stands id v (mark BondDispute (mark BondOutsider (mark BondOracle m1))) nothing s'.
Proof.
  intros Hs Hrep (im & s1 & H1 & Hr)%bind_ok. eapply reporter_bonds_ok in H1; [|done..].
  assert (Hd : get_bond BondDispute (bonds (mark BondOutsider (mark BondOracle m1))) = dispute_bond (bonds m)).
  { by rewrite !get_mark_ne, agree. }
  destruct (dispute_bond (bonds m)) as [b|].
  2:{ apply mret_ok in Hr as [_ ->]. by rewrite mark_absent. }
  destruct (is_settled b) eqn:Hb.
  { apply mret_ok in Hr as [_ ->]. by rewrite (mark_settled _ _ _ Hd Hb). }
  case_bool_decide as Hc.
  - apply bind_ok in Hr as (j & s2 & Hr & [_ ->]%mret_ok). eapply stands_slash in Hr; [done|done|done|by left].
  - apply bind_ok in Hr as (j & s2 & H2 & Hr). eapply stands_unreserve in H2; [|done|done].
    apply bind_ok in Hr as (j' & s3 & H3 & [_ ->]%mret_ok).
    eapply stands_sparing; [|exact H2|exact H3].
    apply (sparing_modify_assets (cur_resolve_creating _ _)). intros. apply resolve_creating_keeps.
Qed.

Lemma sparing_resolved_outcome o : sparing (get_resolved_outcome id m o).
Proof.
  intros s a s' (s0 & s1 & [-> ->]%get_ok & Hr)%bind_ok. pose proof (voting_winner_keeps id (dispute_world s)) as Hk.
  destruct (gd_determine_voting_winner id (dispute_world s)) as [win [[d l] q]]. cbn in Hk.
  apply bind_ok in Hr as (u & s2 & [_ ->]%modify_ok & Hr). apply bind_ok in Hr as (x & s2 & Hx & [_ ->]%mret_ok).
  transitivity (set_dispute_world (d, l, q) s); [by split|]. destruct win as [z|]; [by apply mret_ok in Hx as [_ ->]|].
  apply bind_ok in Hx as (mech & s3 & [_ ->]%lift_ok & Hx). apply bind_ok in Hx as (s4 & s5 & [-> ->]%get_ok & Hx).
  eapply sparing_disputes, Hx. intros. by eapply on_resolution_keeps.
Qed.

Lemma disputed_bonds_ok s o s' : stands id v m1 nothing s -> resolve_disputed_market id m s = (Ok o, s') ->
  stands id v (mark BondDispute (mark BondOutsider (mark BondOracle m1))) nothing s'.
Proof.
  intros Hs (mech & s1 & [_ ->]%lift_ok & Hr)%bind_ok. apply bind_ok in Hr as (r & s1 & [Hrep%ok_or_ok ->]%lift_ok & Hr).
  apply bind_ok in Hr as (o1 & s1 & H1 & Hr). eapply stands_sparing in H1; [|apply sparing_resolved_outcome|done].
  apply bind_ok in Hr as (i & s2 & H2 & Hr). eapply settle_bonds_ok in H2; [|done..].
  apply bind_ok in Hr as (s3 & s4 & [-> ->]%get_ok & Hr). apply bind_ok in Hr as (x & s4 & H3 & Hr).
  eapply stands_sparing in H3; [|apply sparing_disputes; intros; by eapply exchange_keeps|done].
  apply bind_ok in Hr as (y & s5 & H4 & [_ ->]%mret_ok). eapply stands_sparing; [|exact H3|exact H4].
  apply (sparing_modify_assets (slash_on_unbalanced _)). intros. apply on_unbalanced_keeps.
Qed.
End Resolution.

Lemma oracle_no_outsider m r : market_ok m -> status m = Reported \/ status m = Disputed -> report m = Some r ->
  report_by r = oracle m -> outsider_bond (bonds m) = None.
Proof.
  intros Hm Hst Hr Hb. pose proof (mo_outsider _ Hm) as Hu. unfold outsider_ok in Hu.
  destruct Hst as [Hst|Hst]; rewrite Hst in Hu; (destruct Hu as [|(_ & r' & Hr' & Hne)]; [done|congruence]).
Qed.

Lemma owed_ended w m m' : is_open m = false -> is_open m' = false -> bonds m' = bonds m -> owed w m' = owed w m.
Proof. intros Hm Hm' Hb. unfold owed. by rewrite Hm, Hm', Hb. Qed.

Lemma resolution_ok id v m s u s' : stands id v m nothing s -> market_ok m -> pm_on_resolution id m s = (Ok u, s') ->
  (status m = Reported \/ status m = Disputed) /\ exists o, stands id v (resolve_market o m) nothing s'.
Proof.
  intros Hs Hm (u1 & s1 & H1 & Hr)%bind_ok.
  pose (m1 := match creation m with Permissionless => mark BondCreation m | Advised => m end).
  assert (Hs1 : stands id v m1 nothing s1).
  { unfold m1. destruct (creation m); [by eapply stands_unreserve|by apply mret_ok in H1 as [_ ->]]. }
  assert (Hag : forall k, k <> BondCreation -> get_bond k (bonds m1) = get_bond k (bonds m)).
  { intros k Hk. unfold m1. destruct (creation m); [by apply get_mark_ne|done]. }
  apply bind_ok in Hr as (o & s2 & H2 & Hr).
  assert (Hst : status m = Reported \/ status m = Disputed) by (destruct (status m); naive_solver).
  split; [done|]. exists o.
  assert (Hs2 : stands id v (mark BondDispute (mark BondOutsider (mark BondOracle m1))) nothing s2).
  { pose proof (oracle_no_outsider m) as Hno. destruct Hst as [Hst|Hst]; rewrite Hst in H2.
    - eapply reported_bonds_ok in H2; [|done|by intros; eapply Hno; auto|done].
      rewrite mark_absent; [done|]. rewrite !get_mark_ne, Hag by done.
      pose proof (mo_dispute _ Hm) as Hd. unfold dispute_ok in Hd. by rewrite Hst in Hd.
    - eapply disputed_bonds_ok in H2; [done|done|by intros; eapply Hno; auto|done]. }
  apply bind_ok in Hr as (u3 & s3 & H3 & Hr). eapply stands_sparing; [apply sparing_event| |exact Hr].
  eapply stands_mutate; [exact Hs2|exact H3|reflexivity| |exact (stands_values _ _ _ _ _ Hs2)].
  intros w. rewrite (owed_ended w (mark BondDispute (mark BondOutsider (mark BondOracle m1)))); [done| |done|done].
  rewrite !mark_open. unfold m1. destruct (creation m); rewrite ?mark_open; unfold is_open; by destruct Hst as [-> | ->].
Qed.
End Moves.
