(* ===== verification/PmRuns.v ===== *)
(** * The prediction-markets pallet: the invariant and its runs

    Every open bond is backed by the reserve, every market has the shape of its
    status, and every open market is queued to be closed at its end.  All calls,
    the hook and what happens in other pallets keep this. *)

From S2P Require Import Prelude Errors FixedMath Collections Interfaces DisputeQueue Market MultiCurrency CompleteSets.
From S2P Require Import PredictionMarkets PmCalls PmInv PmSchedule PmLife PmMoves.

(** ** The life of a market *)

Definition rank (st : MarketStatus) : Z :=
  match st with Proposed => 0 | Active => 1 | Closed => 2 | Reported => 3 | Disputed => 4 | Resolved => 5 end.

(** The change of status one operation may make. *)
Definition moves_on (a b : MarketStatus) : bool :=
  match a, b with
  | Proposed, (Proposed | Active) | Active, (Active | Closed) | Closed, (Closed | Reported)
  | Reported, (Reported | Disputed | Resolved) | Disputed, (Disputed | Resolved) => true
  | _, _ => false
  end.

(** What may become of the entry of [id] when the next fresh id was [c]: the
    status never goes back, only a proposed market is removed, a resolved one
    never changes, and a new one gets a fresh id. *)
Definition life (c id : Z) (o o' : option Market) : Prop :=
  match o, o' with
  | Some m, Some m' => m' = m \/ (status m <> Resolved /\ rank (status m) <= rank (status m'))
  | Some m, None => status m = Proposed
  | None, Some _ => c <= id
  | None, None => True
  end.

Lemma life_refl c id o : life c id o o.
Proof. destruct o; cbn; auto. Qed.
Lemma life_new c id o : (is_Some o -> id < c) -> forall x, c <= id -> life c id o x.
Proof. intros Ho x Hc. destruct o as [m|], x; cbn; try done; specialize (Ho ltac:(by eexists)); lia. Qed.
Lemma life_moved c id o m m' : life c id o (Some m) -> moves_on (status m) (status m') = true -> life c id o (Some m').
Proof.
  destruct o as [m0|]; cbn; [|done]. intros Hl Hm. right. destruct Hl as [->|[Hr Hl]].
  - destruct (status m0), (status m'); cbn in *; done || lia.
  - split; [done|]. destruct (status m), (status m'); cbn in *; done || lia.
Qed.
Lemma life_dropped c id o m : life c id o (Some m) -> status m = Proposed -> life c id o None.
Proof. destruct o as [m0|]; cbn; [|done]. intros [->|[_ Hl]] Hm; [done|]. rewrite Hm in Hl. by destruct (status m0). Qed.

(** One view of the markets evolves into another. *)
Record evolves (v v' : View) : Prop := {
  ev_ids : forall id, is_Some (v_markets v !! id) -> id < v_counter v;
  ev_counter : v_counter v <= v_counter v';
  ev_life : forall id, life (v_counter v) id (v_markets v !! id) (v_markets v' !! id) }.

Section Runs.
Context `{PmLaws}.
Abbreviation PmM := (ST DispatchError PmState).
(** Where the run started. *)
Context (v0 : View).

Record pm_inv (s : PmState) : Prop := {
  inv_shapes : map_Forall (fun _ m => market_ok m) (v_markets (view s));
  inv_ids : forall id, is_Some (v_markets (view s) !! id) -> id < v_counter (view s);
  inv_sched : sched_ok (view s);
  inv_covered : covered s;
  inv_evolves : evolves v0 (view s) }.

Definition preserves {A} (c : PmM A) : Prop := forall s a s', pm_inv s -> c s = (Ok a, s') -> pm_inv s'.

Lemma inv_values s : pm_inv s -> markets_values_ok (view s).
Proof. intros Hi. eapply map_Forall_impl; [by apply inv_shapes|]. intros i m Hm. apply Hm. Qed.
Lemma inv_market id m s : pm_inv s -> v_markets (view s) !! id = Some m -> market_ok m.
Proof. intros Hi Hm. exact (map_Forall_lookup_1 _ _ _ _ (inv_shapes _ Hi) Hm). Qed.
Lemma inv_stands id m s : pm_inv s -> v_markets (view s) !! id = Some m -> stands id (view s) m nothing s.
Proof. intros Hi Hm. apply stands_start; [done|by apply inv_covered|by apply inv_values]. Qed.

Lemma inv_spares s s' : spares s s' -> pm_inv s -> pm_inv s'.
Proof.
  intros Hs [Hm Hid Hq Hc He]. pose proof (spares_covered _ _ Hs Hc) as Hc'. destruct Hs as [Hv _].
  split; rewrite ?Hv; done.
Qed.
Lemma preserves_sparing {A} (c : PmM A) : sparing c -> preserves c.
Proof. intros Hc s a s' Hi Hr. by eapply inv_spares, Hi; eapply Hc. Qed.
Lemma preserves_bind {A B} (c : PmM A) (f : A -> PmM B) : preserves c -> (forall a, preserves (f a)) -> preserves (c ≫= f).
Proof. intros Hc Hf s b s' Hi (a & s1 & Ha & Hb)%bind_ok. eapply Hf, Hb. by eapply Hc. Qed.
Lemma preserves_transactional {A} (c : PmM A) : preserves c -> preserves (transactional c).
Proof. intros Hc s a s' Hi Hr%transactional_ok. by eapply Hc. Qed.

(** How an operation on one market restores the invariant. *)
Lemma inv_changed id v m m' s s' : pm_inv s -> v_markets (view s) !! id = Some m ->
  v_markets v = v_markets (view s) -> v_counter v = v_counter (view s) ->
  stands id v m' nothing s' -> market_ok m' -> sched_ok (put_market id m' v) ->
  moves_on (status m) (status m') = true -> pm_inv s'.
Proof.
  intros [Hm Hid Hq Hc [He1 He2 He3]] Hl Hvm Hvc (Hv & Hcov & _) Hok Hsched Hmv. split.
  - rewrite Hv. cbn. rewrite Hvm. by apply map_Forall_insert_2.
  - intros j Hj. rewrite Hv in Hj |- *. cbn in *. rewrite Hvm in Hj. rewrite Hvc.
    destruct (decide (j = id)) as [->|]; [apply Hid; by rewrite Hl|]. rewrite lookup_insert_ne in Hj by done. auto.
  - by rewrite Hv.
  - intros w. specialize (Hcov w). unfold nothing in Hcov. lia.
  - rewrite Hv. split; [done|cbn; by rewrite Hvc|]. intros j. cbn. rewrite Hvm.
    destruct (decide (j = id)) as [->|]; [|by rewrite lookup_insert_ne].
    rewrite lookup_insert_eq. specialize (He3 id). rewrite Hl in He3. by eapply life_moved.
Qed.
(** A market whose place in the queues stays. *)
Lemma inv_same id m m' s s' : pm_inv s -> v_markets (view s) !! id = Some m -> stands id (view s) m' nothing s' ->
  market_ok m' -> is_open m' = is_open m -> (is_open m = true -> market_slot m' = market_slot m) ->
  moves_on (status m) (status m') = true -> pm_inv s'.
Proof. intros Hi Hl Hs Hok Ho Hsl Hmv. eapply inv_changed; [done..| |done]. eapply sched_same; [by apply inv_sched|done..]. Qed.
(** A market that leaves its queue and is no longer open. *)
Lemma inv_cleared id m m' s s' : pm_inv s -> v_markets (view s) !! id = Some m ->
  stands id (put_queue (market_slot m) (remove_item (close_queue (view s) (market_slot m)) id) (view s)) m' nothing s' ->
  market_ok m' -> is_open m' = false -> moves_on (status m) (status m') = true -> pm_inv s'.
Proof.
  intros Hi Hl Hs Hok Ho Hmv. eapply inv_changed; [done|done| | |done|done| |done].
  - apply put_queue_markets.
  - apply put_queue_counter.
  - eapply (sched_done id); [apply sched_but_put, sched_clear; [by apply inv_sched|done]|].
    cbn. rewrite lookup_insert_eq. by intros ? [= <-].
Qed.
(** A market that moves to another queue. *)
Lemma inv_moved id m m' s s' : let v := put_queue (market_slot m) (remove_item (close_queue (view s) (market_slot m)) id) (view s) in
  pm_inv s -> v_markets (view s) !! id = Some m ->
  stands id (put_queue (market_slot m') (close_queue v (market_slot m') ++ [id]) v) m' nothing s' ->
  market_ok m' -> is_open m' = true -> moves_on (status m) (status m') = true -> pm_inv s'.
Proof.
  intros v Hi Hl Hs Hok Ho Hmv. eapply inv_changed; [done|done| | |done|done| |done].
  - unfold v. by rewrite !put_queue_markets.
  - unfold v. by rewrite !put_queue_counter.
  - rewrite put_market_queue. rewrite <- (close_queue_market id m' v). apply sched_push; [|apply lookup_insert_eq|done].
    apply sched_but_put, sched_clear; [by apply inv_sched|done].
Qed.
(** A market that is removed from its queue and from the storage. *)
Lemma inv_dropped id m s s' : let v := put_queue (market_slot m) (remove_item (close_queue (view s) (market_slot m)) id) (view s) in
  pm_inv s -> v_markets (view s) !! id = Some m -> view s' = drop_market id v -> covered s' -> status m = Proposed -> pm_inv s'.
Proof.
  intros v [Hm Hid Hq Hc [He1 He2 He3]] Hl Hv Hc' Hst. assert (Hvm : v_markets v = v_markets (view s)) by apply put_queue_markets.
  assert (Hvc : v_counter v = v_counter (view s)) by apply put_queue_counter. split.
  - rewrite Hv. cbn. rewrite Hvm. by apply map_Forall_delete.
  - intros j Hj. rewrite Hv in Hj |- *. cbn in *. rewrite Hvm in Hj. rewrite Hvc.
    destruct (decide (j = id)) as [->|]; [rewrite lookup_delete_eq in Hj; by destruct Hj|]. rewrite lookup_delete_ne in Hj by done. auto.
  - rewrite Hv. eapply (sched_done id); [by apply sched_but_drop, sched_clear|]. cbn. by rewrite lookup_delete_eq.
  - done.
  - rewrite Hv. split; [done|cbn; by rewrite Hvc|]. intros j. cbn. rewrite Hvm.
    destruct (decide (j = id)) as [->|]; [|by rewrite lookup_delete_ne].
    rewrite lookup_delete_eq. specialize (He3 id). rewrite Hl in He3. by eapply life_dropped.
Qed.

(** ** The calls *)

Lemma ensure_active_ok m u : ensure_market_is_active m = Ok u -> status m = Active.
Proof. intros Hm%ensure_ok. by apply bool_decide_eq_true in Hm. Qed.

(** Closing ahead of the end. *)
Lemma closing_inv id : preserves (m ← pm_market id; lift (ensure_market_is_active m) ;;
  clear_auto_close id ;; close_market id ;; set_market_end id).
Proof.
  intros s u s' Hi (m & s1 & [Hm ->]%pm_market_ok & Hr)%bind_ok.
  apply bind_ok in Hr as (u1 & s1 & [Hst%ensure_active_ok ->]%lift_ok & Hr).
  pose proof (inv_stands _ _ _ Hi Hm) as Hs. pose proof (inv_market _ _ _ Hi Hm) as Hok.
  apply bind_ok in Hr as (n & s2 & H2 & Hr). eapply stands_clear in H2; [|done|by unfold is_open; rewrite Hst].
  apply bind_ok in Hr as (u3 & s3 & H3 & Hr). eapply close_ok in H3 as [_ H3]; [|done].
  eapply market_end_ok in Hr as [p Hr]; [|done]. eapply inv_cleared; [done|done|done| |done|cbn; by rewrite Hst].
  by apply period_ok, closed_ok.
Qed.

Lemma approve_inv origin id : preserves (approve_market origin id).
Proof.
  apply preserves_transactional. intros s u s' Hi (u1 & s1 & [_ ->]%lift_ok & Hr)%bind_ok.
  apply bind_ok in Hr as (s0 & s1 & [-> ->]%get_ok & Hr). apply bind_ok in Hr as (u2 & s2 & H2 & Hr).
  pose proof H2 as H2'. apply mutate_ok in H2' as (m & m' & Hm & Hf & _).
  pose proof (inv_stands _ _ _ Hi Hm) as Hs. pose proof (inv_market _ _ _ Hi Hm) as Hok.
  pose proof Hf as Hf'. apply result_bind_ok in Hf' as (u3 & Hst%ensure_ok%bool_decide_eq_true & Hf').
  apply result_bind_ok in Hf' as (u4 & _ & [= <-]).
  eapply stands_mutate in H2; [|done|done| |exact (stands_values _ _ _ _ _ Hs)].
  2:{ intros w. unfold owed, is_open. cbn -[due]. rewrite Hst. done. }
  apply bind_ok in Hr as (u5 & s3 & H3 & Hr). eapply stands_unreserve in H3; [|done|done].
  eapply stands_sparing in Hr; [|apply sparing_event|done].
  eapply inv_same; [done|done|done|by apply approved_ok| | |by rewrite mark_status, Hst].
  - rewrite mark_open. unfold is_open. cbn. by rewrite Hst.
  - intros _. unfold market_slot. by rewrite mark_set.
Qed.

Lemma resolving_inv id m s u s' : pm_inv s -> v_markets (view s) !! id = Some m -> pm_on_resolution id m s = (Ok u, s') -> pm_inv s'.
Proof.
  intros Hi Hm Hr. pose proof (inv_market _ _ _ Hi Hm) as Hok.
  eapply resolution_ok in Hr as [Hst [o Hr]]; [|by apply inv_stands|done].
  eapply inv_same; [done|done|done|by apply resolved_ok| | |by cbn; destruct Hst as [-> | ->]]; unfold is_open.
  - unfold resolve_market. cbn. by destruct Hst as [-> | ->].
  - by destruct Hst as [-> | ->].
Qed.

Lemma sparing_clear_resolve id : sparing (clear_auto_resolve id).
Proof.
  unfold clear_auto_resolve. apply sparing_bind; [apply sparing_market|]. intros m.
  repeat first [apply sparing_mret | apply sparing_get | apply sparing_lift | apply sparing_bind; [|intros ?] | case_match
               | apply sparing_modify; done].
Qed.

Lemma admin_resolve_inv origin id : preserves (admin_move_market_to_resolved origin id).
Proof.
  apply preserves_transactional. intros s u s' Hi (u1 & s1 & [_ ->]%lift_ok & Hr)%bind_ok.
  apply bind_ok in Hr as (m & s1 & [Hm ->]%pm_market_ok & Hr). apply bind_ok in Hr as (u2 & s1 & [_ ->]%lift_ok & Hr).
  apply bind_ok in Hr as (n & s2 & H2 & Hr). apply sparing_clear_resolve in H2.
  apply bind_ok in Hr as (m' & s3 & [Hm' ->]%pm_market_ok & Hr). apply bind_ok in Hr as (u3 & s3 & Hr & [_ ->]%lift_ok).
  eapply resolving_inv; [by eapply inv_spares|done|done].
Qed.

Lemma bond_nonneg : 0 <= OutsiderBond /\ 0 <= DisputeBond /\ 0 <= CloseEarlyRequestBond /\ 0 <= CloseEarlyDisputeBond /\
  0 <= AdvisoryBond /\ 0 <= ValidityBond /\ 0 <= OracleBond.
Proof. pose proof bonds_nonneg as Hb. rewrite !Forall_cons in Hb. tauto. Qed.

Lemma dispute_inv origin id : preserves (dispute origin id).
Proof.
  apply preserves_transactional. intros s u s' Hi (who & s1 & [_ ->]%lift_ok & Hr)%bind_ok.
  apply bind_ok in Hr as (m & s1 & [Hm ->]%pm_market_ok & Hr).
  apply bind_ok in Hr as (u1 & s1 & [Hst%ensure_ok%bool_decide_eq_true ->]%lift_ok & Hr).
  apply bind_ok in Hr as (mech & s1 & [Hmech%ok_or_ok ->]%lift_ok & Hr). apply bind_ok in Hr as (s0 & s1 & [-> ->]%get_ok & Hr).
  pose proof (inv_stands _ _ _ Hi Hm) as Hs. pose proof (inv_market _ _ _ Hi Hm) as Hok.
  pose proof (mo_dispute _ Hok) as Hd. unfold dispute_ok in Hd. rewrite Hst in Hd.
  apply bind_ok in Hr as (u2 & s2 & H2 & Hr).
  eapply stands_sparing in H2; [|apply sparing_disputes; intros; by eapply on_dispute_keeps|done].
  apply bind_ok in Hr as (u3 & s3 & H3 & Hr). eapply stands_reserve in H3; [|apply bond_nonneg|done].
  apply bind_ok in Hr as (u4 & s4 & H4 & Hr).
  eapply (stands_mutate _ _ _ _ _ _ _ _ _ nothing) in H4; [|done|done| |].
  - eapply stands_sparing in Hr; [|apply sparing_event|done].
    eapply inv_same; [done|done|done| | | |cbn; by rewrite Hst].
    + apply disputed_ok; [done|done|by rewrite Hmech|apply bond_nonneg|done].
    + unfold is_open. cbn. by rewrite Hst.
    + unfold is_open. by rewrite Hst.
  - intros w. rewrite owed_put, due_new by done. change (get_bond BondDispute (bonds (set_status Disputed m))) with (dispute_bond (bonds m)).
    rewrite Hd. unfold nothing. rewrite (owed_ended w m (set_status Disputed m)); [cbn; lia| |done|done]. unfold is_open. by rewrite Hst.
  - apply values_put; [exact (stands_values _ _ _ _ _ Hs)|apply bond_nonneg].
Qed.

Lemma global_dispute_inv origin id : preserves (start_global_dispute origin id).
Proof.
  apply preserves_transactional. intros s u s' Hi (who & s1 & [_ ->]%lift_ok & Hr)%bind_ok.
  apply bind_ok in Hr as (m & s1 & [Hm ->]%pm_market_ok & Hr).
  apply bind_ok in Hr as (mech & s1 & [Hmech%ok_or_ok ->]%lift_ok & Hr).
  apply bind_ok in Hr as (u1 & s1 & [Hdr%ensure_ok%orb_true_iff ->]%lift_ok & Hr).
  apply bind_ok in Hr as (u2 & s1 & [_ ->]%lift_ok & Hr).
  apply bind_ok in Hr as (s0 & s1 & [-> ->]%get_ok & Hr). apply bind_ok in Hr as (u3 & s1 & [_ ->]%lift_ok & Hr).
  apply bind_ok in Hr as (r & s1 & [_ ->]%lift_ok & Hr). apply bind_ok in Hr as (hf & s1 & [_ ->]%lift_ok & Hr).
  apply bind_ok in Hr as (u4 & s1 & [_ ->]%lift_ok & Hr). apply bind_ok in Hr as (items & s2 & H2 & Hr).
  pose proof (inv_stands _ _ _ Hi Hm) as Hs. pose proof (inv_market _ _ _ Hi Hm) as Hok.
  eapply stands_sparing in H2; [|apply sparing_disputes; intros; by eapply on_global_dispute_keeps|done].
  apply bind_ok in Hr as (n & s3 & H3 & Hr). eapply stands_sparing in H3; [|apply sparing_clear_resolve|done].
  apply bind_ok in Hr as (u5 & s4 & H4 & Hr). apply bind_ok in Hr as (s5 & s6 & [-> ->]%get_ok & Hr).
  apply bind_ok in Hr as (k & s6 & H6 & Hr).
  case_bool_decide as Hst.
  - eapply stands_mutate in H4; [|done|done|intros w; rewrite (owed_ended w m); [done| |done|done]|exact (stands_values _ _ _ _ _ Hs)].
    2:{ unfold is_open. by rewrite Hst. }
    eapply stands_sparing in H6; [|apply sparing_disputes; intros; by eapply start_global_keeps|done].
    eapply stands_sparing in Hr; [|apply sparing_event|done].
    eapply inv_same; [done|done|done|apply global_disputed_ok; [done|done|by rewrite Hmech]| | |cbn; by rewrite Hst].
    + unfold is_open. cbn. by rewrite Hst.
    + unfold is_open. by rewrite Hst.
  - apply mret_ok in H4 as [_ ->].
    eapply stands_sparing in H6; [|apply sparing_disputes; intros; by eapply start_global_keeps|done].
    eapply stands_sparing in Hr; [|apply sparing_event|done].
    eapply inv_same; [done|done|done|done|done|done|].
    destruct Hdr as [Hd%bool_decide_eq_true|Hd]; [by rewrite Hd|done].
Qed.

Lemma update_oracle_inv origin id a : preserves (admin_update_market_oracle origin id a).
Proof.
  apply preserves_transactional. intros s u s' Hi (u1 & s1 & H1 & Hr)%bind_ok.
  assert (s1 = s) as ->.
  { apply bind_ok in H1 as (w & s2 & [_ ->]%lift_ok & H1). apply bind_ok in H1 as (x & s2 & [-> ->]%get_ok & H1).
    apply bind_ok in H1 as (y & s2 & [_ ->]%lift_ok & [_ ->]%lift_ok). done. }
  apply bind_ok in Hr as (m & s1 & [Hm ->]%pm_market_ok & Hr). apply bind_ok in Hr as (u2 & s1 & [_ ->]%lift_ok & Hr).
  apply bind_ok in Hr as (u3 & s1 & [_ ->]%lift_ok & Hr).
  apply bind_ok in Hr as (u4 & s1 & [Hst%ensure_ok%bool_decide_eq_true ->]%lift_ok & Hr).
  apply bind_ok in Hr as (s0 & s1 & [-> ->]%get_ok & Hr). apply bind_ok in Hr as (e & s1 & [_ ->]%lift_ok & Hr).
  apply bind_ok in Hr as (u5 & s1 & [_ ->]%lift_ok & Hr). apply bind_ok in Hr as (u6 & s2 & H2 & Hr).
  pose proof (inv_stands _ _ _ Hi Hm) as Hs. pose proof (inv_market _ _ _ Hi Hm) as Hok.
  eapply stands_mutate in H2; [|done|done|intros w; reflexivity|exact (stands_values _ _ _ _ _ Hs)].
  eapply stands_sparing in Hr; [|apply sparing_event|done]. eapply inv_same; [done|done|done|by apply oracle_ok|done|done|cbn; by rewrite Hst].
Qed.

Lemma reject_inv origin id r : preserves (reject_market origin id r).
Proof.
  apply preserves_transactional. intros s u s' Hi (u1 & s1 & [_ ->]%lift_ok & Hr)%bind_ok.
  apply bind_ok in Hr as (m & s1 & [Hm ->]%pm_market_ok & Hr). apply bind_ok in Hr as (n & s2 & H2 & Hr).
  apply bind_ok in Hr as (u3 & s3 & [_ ->]%lift_ok & Hr).
  pose proof (inv_stands _ _ _ Hi Hm) as Hs.
  assert (Hst : status m = Proposed).
  { by apply bind_ok in Hr as (x & s4 & [Hst%ensure_ok%bool_decide_eq_true ->]%lift_ok & _). }
  eapply stands_clear in H2; [|done|by unfold is_open; rewrite Hst].
  eapply rejected_ok in Hr as (_ & Hv & Hc & _); [|done]. by eapply inv_dropped.
Qed.

(** *** Reports *)

Lemma report_resolve_inv origin id r m s u s' : pm_inv s -> v_markets (view s) !! id = Some m -> status m = Closed ->
  report_and_resolve_market origin id r s = (Ok u, s') -> pm_inv s'.
Proof.
  intros Hi Hm Hst (u1 & s1 & H1 & Hr)%bind_ok.
  pose proof (inv_stands _ _ _ Hi Hm) as Hs. pose proof (inv_market _ _ _ Hi Hm) as Hok.
  pose proof H1 as H1'. apply mutate_ok in H1' as (m0 & m' & Hm0 & Hf & _). rewrite Hm in Hm0. injection Hm0 as <-.
  pose proof Hf as Hf'. apply result_bind_ok in Hf' as (w & _ & Hf'). apply result_bind_ok in Hf' as (w' & _ & [= <-]).
  eapply stands_mutate in H1; [|done|done|intros x; rewrite (owed_ended x m); [done|unfold is_open; by rewrite Hst|done|done]
    |exact (stands_values _ _ _ _ _ Hs)].
  apply bind_ok in Hr as (m1 & s2 & Hm1 & Hr). destruct (stands_market _ _ _ _ _ _ _ H1 Hm1) as [-> ->].
  eapply resolving_inv; [|by eapply stands_lookup|done].
  eapply inv_same; [done|done|done|by apply reported_ok| | |]; unfold is_open; cbn; by rewrite Hst.
Qed.

(** The report written back by the callback. *)
Lemma report_written r id v m d m1 s1 s2 : stands id v m1 d s1 -> market_ok m1 -> status m1 = Closed ->
  view s2 = put_market id m (view s1) -> pm_assets s2 = pm_assets s1 ->
  m = set_status Reported (set_report (Some r) m1) -> d = nothing ->
  market_ok m /\ stands id v m nothing s2.
Proof.
  intros Hs Hok Hst Hv Ha -> ->. split; [by apply reported_ok|].
  eapply stands_write; [exact Hs|exact Hv|exact Ha| |exact (stands_values _ _ _ _ _ Hs)].
  intros x. rewrite (owed_ended x m1); [done|unfold is_open; by rewrite Hst|done|done].
Qed.
Lemma outsider_report_written r who id v m m1 s1 s2 : stands id v m1 (extra who OutsiderBond) s1 -> market_ok m1 ->
  status m1 = Closed -> report_by r <> oracle m1 ->
  view s2 = put_market id m (view s1) -> pm_assets s2 = pm_assets s1 ->
  m = set_status Reported (set_report (Some r) (set_market_bond BondOutsider (Bond_new who OutsiderBond) m1)) ->
  market_ok m /\ stands id v m nothing s2.
Proof.
  intros Hs Hok Hst Hne Hv Ha ->. split; [apply outsider_reported_ok; [done|done|apply bond_nonneg|done|done]|].
  eapply stands_write; [exact Hs|exact Hv|exact Ha| |apply values_put; [exact (stands_values _ _ _ _ _ Hs)|apply bond_nonneg]].
  intros x. rewrite (owed_ended x (set_market_bond BondOutsider (Bond_new who OutsiderBond) m1));
    [|unfold is_open; cbn; by rewrite Hst|done|done].
  rewrite owed_put, due_new by done. unfold nothing.
  pose proof (mo_outsider _ Hok) as Hu. unfold outsider_ok in Hu. rewrite Hst in Hu.
  change (get_bond BondOutsider (bonds m1)) with (outsider_bond (bonds m1)). rewrite Hu. cbn; lia.
Qed.

Lemma report_with_inv origin who id o n m s u s' : pm_inv s -> v_markets (view s) !! id = Some m -> status m = Closed ->
  ensure_signed origin = Ok who ->
  report_market_with_dispute_mechanism origin id (mkReport n who o) s = (Ok u, s') -> pm_inv s'.
Proof.
  intros Hi Hm Hst Hor (w & s1 & [Hw ->]%lift_ok & Hr)%bind_ok. rewrite Hor in Hw. injection Hw as <-.
  pose proof (inv_stands _ _ _ Hi Hm) as Hs. pose proof (inv_market _ _ _ Hi Hm) as Hok.
  apply bind_ok in Hr as (u1 & s2 & H1 & Hr). apply mutate_with_ok in H1 as (m0 & m' & s1 & Hm0 & Hcb & Hv' & Ha).
  rewrite Hm in Hm0. injection Hm0 as <-. apply bind_ok in Hcb as (s0 & s3 & [-> ->]%get_ok & Hcb).
  apply bind_ok in Hcb as (ex & s3 & [_ ->]%lift_ok & Hcb). apply bind_ok in Hcb as (m1 & s3 & H3 & [Hm' ->]%mret_ok).
  assert (Hend : market_ok m' /\ stands id (view s) m' nothing s2).
  { destruct ex; cbn in H3.
    - case_bool_decide as Hne; [|apply mret_ok in H3 as [-> ->]; by eapply report_written].
      apply bind_ok in H3 as (u2 & s4 & H4 & [-> ->]%mret_ok). eapply stands_reserve in H4; [|apply bond_nonneg|done].
      eapply (outsider_report_written (mkReport n who o)); [exact H4|done|done|exact Hne|done|done|exact Hm'].
    - apply bind_ok in H3 as (u2 & s4 & [_ ->]%lift_ok & [-> ->]%mret_ok). by eapply report_written. }
  destruct Hend as [Hok2 Hs2].
  eapply preserves_sparing, Hr.
  - apply sparing_bind; [apply sparing_market|]. intros m3. apply sparing_bind; [apply sparing_get|]. intros s4.
    apply sparing_bind; [apply sparing_lift|]. intros [k q]. by apply sparing_modify.
  - assert (Ho : is_open m = false) by (unfold is_open; by rewrite Hst).
    eapply inv_same; [done|done|done|done|by rewrite Ho, Hm'|by rewrite Ho|by rewrite Hm', Hst].
Qed.

Lemma do_report_inv who origin o id : ensure_signed origin = Ok who -> preserves (do_report who origin o id).
Proof.
  intros Hor s u s' Hi (s0 & s1 & [-> ->]%get_ok & Hr)%bind_ok. apply bind_ok in Hr as (m & s1 & [Hm ->]%pm_market_ok & Hr).
  apply bind_ok in Hr as (u1 & s1 & [_ ->]%lift_ok & Hr).
  apply bind_ok in Hr as (u2 & s1 & [Hst%ensure_ok%bool_decide_eq_true ->]%lift_ok & Hr).
  apply bind_ok in Hr as (u3 & s1 & [_ ->]%lift_ok & Hr). apply bind_ok in Hr as (u4 & s2 & H2 & Hr).
  eapply preserves_sparing, Hr; [apply sparing_event|]. case_bool_decide.
  - by eapply report_resolve_inv.
  - by eapply report_with_inv.
Qed.
Lemma report_inv origin id o : preserves (pm_report origin id o).
Proof.
  apply preserves_transactional. intros s u s' Hi (who & s1 & [Hor ->]%lift_ok & Hr)%bind_ok. by eapply do_report_inv.
Qed.

(** *** Early closes *)

Lemma active_open m : status m = Active -> is_open m = true.
Proof. intros Hst. unfold is_open. by rewrite Hst. Qed.

Lemma schedule_bonds_ok (auth : bool) c id m v s p s' : stands id v m nothing s -> market_ok m -> status m = Active ->
  schedule_bonds auth c id m s = (Ok p, s') ->
  exists m1, stands id v m1 nothing s' /\ status m1 = Active /\ market_slot m1 = market_slot m /\
    forall a, market_ok (set_early_close (Some (mkEarlyClose a p (if auth then ScheduledAsOther else ScheduledAsMarketCreator)))
      (set_period p m1)).
Proof.
  intros Hs Hok Hst Hr. pose proof (active_open m Hst) as Hop. unfold schedule_bonds in Hr.
  destruct (early_close m) as [e|] eqn:He.
  - apply bind_ok in Hr as (u & s1 & [Hauth%ensure_ok ->]%lift_ok & Hr). subst auth.
    apply bind_ok in Hr as (u1 & s1 & H1 & Hr). apply bind_ok in Hr as (s2 & s3 & [-> ->]%get_ok & Hr).
    apply lift_ok in Hr as [_ ->]. destruct (ec_state e) eqn:Hst'; try done.
    + apply bind_ok in H1 as (u2 & s2 & H2 & H1).
      eapply stands_if_pending in H2; [|done|done|intros Hx; eapply stands_repatriate; [done|by intros _|done]].
      eapply stands_if_pending in H1; [|done|by rewrite get_mark_ne|
        intros Hx; eapply stands_unreserve; [done|intros _; by rewrite mark_open|done]].
      eexists. split; [done|]. rewrite !mark_status. split; [done|]. split; [unfold market_slot; by rewrite !mark_set|].
      intros a. by eapply scheduled_over_dispute_ok.
    + apply mret_ok in H1 as [_ ->]. exists m. split; [done|]. split; [done|]. split; [done|].
      intros a. apply scheduled_other_ok; [done|done|right; eauto].
  - apply bind_ok in Hr as ([bp tp] & s1 & H1 & Hr). apply bind_ok in Hr as (s2 & s3 & [-> ->]%get_ok & Hr).
    apply lift_ok in Hr as [_ ->]. destruct auth.
    + apply mret_ok in H1 as [_ ->]. exists m. split; [done|]. split; [done|]. split; [done|].
      intros a. apply scheduled_other_ok; [done|done|by left].
    + apply bind_ok in H1 as (w & s2 & [_ ->]%lift_ok & H1). apply bind_ok in H1 as (u & s2 & H2 & H1).
      eapply stands_reserve in H2; [|apply bond_nonneg|done].
      apply bind_ok in H1 as (u1 & s3 & H3 & [_ ->]%mret_ok). pose proof (mo_early _ Hok Hop) as Hec.
      unfold early_ok in Hec. rewrite He in Hec. destruct Hec as [Hreq _].
      eapply (stands_mutate _ _ _ _ _ _ _ _ _ nothing) in H3; [|done|done| |].
      * eexists. split; [done|]. split; [done|]. split; [done|]. intros a.
        apply scheduled_creator_ok; [done|done|done|apply bond_nonneg|done].
      * intros x. rewrite owed_put, due_new by by intros _.
        change (get_bond BondCloseRequest (bonds m)) with (close_request_bond (bonds m)). rewrite Hreq. unfold nothing. cbn; lia.
      * apply values_put; [exact (stands_values _ _ _ _ _ Hs)|apply bond_nonneg].
Qed.

Lemma owed_same w m m' : bonds m' = bonds m -> status m' = status m -> owed w m' = owed w m.
Proof. intros Hb Hst. unfold owed, is_open. by rewrite Hb, Hst. Qed.

(** The market moves to the queue of its new end. *)
Lemma reschedule_ok id f m m' v s u n k s1 s2 s3 d :
  stands id v m d s -> is_open m = true -> clear_auto_close id s = (Ok n, s1) -> pm_mutate_market id f s1 = (Ok u, s2) ->
  insert_auto_close id s2 = (Ok k, s3) -> f m = Ok m' -> (forall w, owed w m' + nothing w <= owed w m + d w) -> values_ok m' ->
  let v1 := put_queue (market_slot m) (remove_item (close_queue v (market_slot m)) id) v in
  stands id (put_queue (market_slot m') (close_queue v1 (market_slot m') ++ [id]) v1) m' nothing s3.
Proof.
  intros Hs Ho H1 H2 H3 Hf Hle Hv v1. eapply stands_clear in H1; [|done|done]. eapply stands_mutate in H2; [|done..].
  by eapply stands_insert in H3.
Qed.

Lemma schedule_inv origin id : preserves (schedule_early_close origin id).
Proof.
  apply preserves_transactional. intros s u s' Hi ([m c] & s1 & H1 & Hr)%bind_ok.
  assert (v_markets (view s) !! id = Some m /\ s1 = s) as [Hm ->].
  { destruct (negb (CloseMarketEarlyOrigin origin)); [apply bind_ok in H1 as (w & s2 & [_ ->]%lift_ok & H1)|];
      apply bind_ok in H1 as (m0 & s2 & [Hm0 ->]%pm_market_ok & H1);
      try apply bind_ok in H1 as (u0 & s2 & [_ ->]%lift_ok & H1); apply mret_ok in H1 as [[= -> ->] ->]; done. }
  clear H1. apply bind_ok in Hr as (u1 & s1 & [Hst%ensure_active_ok ->]%lift_ok & Hr).
  pose proof (inv_stands _ _ _ Hi Hm) as Hs. pose proof (inv_market _ _ _ Hi Hm) as Hok.
  apply bind_ok in Hr as (p & s2 & H2 & Hr). eapply schedule_bonds_ok in H2 as (m1 & Hs1 & Hst1 & Hslot & Hok1); [|done..].
  pose proof (active_open _ Hst1) as Ho1.
  apply bind_ok in Hr as (n & s3 & H3 & Hr). apply bind_ok in Hr as (u4 & s4 & H4 & Hr).
  apply bind_ok in Hr as (k & s5 & H5 & Hr).
  eapply reschedule_ok in H5; [|exact Hs1|done|exact H3|exact H4|reflexivity|
    intros w; rewrite (owed_same w m1); done|exact (stands_values _ _ _ _ _ Hs1)].
  eapply stands_sparing in Hr; [|apply sparing_event|exact H5]. rewrite Hslot in Hr.
  eapply inv_moved; [done|exact Hm|exact Hr|apply Hok1|exact Ho1|cbn; by rewrite Hst1, Hst].
Qed.

Lemma dispute_early_inv origin id : preserves (dispute_early_close origin id).
Proof.
  apply preserves_transactional. intros s u s' Hi (who & s1 & [_ ->]%lift_ok & Hr)%bind_ok.
  apply bind_ok in Hr as (m & s1 & [Hm ->]%pm_market_ok & Hr).
  apply bind_ok in Hr as (u1 & s1 & [Hst%ensure_active_ok ->]%lift_ok & Hr).
  apply bind_ok in Hr as (e & s1 & [He%ok_or_ok ->]%lift_ok & Hr). apply bind_ok in Hr as (u2 & s1 & [Hes ->]%lift_ok & Hr).
  assert (Hstate : ec_state e = ScheduledAsMarketCreator) by (by destruct (ec_state e)).
  pose proof (inv_stands _ _ _ Hi Hm) as Hs. pose proof (inv_market _ _ _ Hi Hm) as Hok. pose proof (active_open m Hst) as Hop.
  apply bind_ok in Hr as (u3 & s2 & H2 & Hr). eapply stands_reserve in H2; [|apply bond_nonneg|done].
  apply bind_ok in Hr as (n & s3 & H3 & Hr). apply bind_ok in Hr as (u4 & s4 & H4 & Hr). apply bind_ok in Hr as (k & s5 & H5 & Hr).
  pose proof (mo_early _ Hok Hop) as Hec. unfold early_ok in Hec. rewrite He, Hstate in Hec. destruct Hec as [_ Hcd].
  eapply reschedule_ok in H5; [|exact H2|done|exact H3|exact H4|reflexivity| |].
  - eapply stands_sparing in Hr; [|apply sparing_event|exact H5]. eapply inv_moved; [done|exact Hm|exact Hr| |exact Hop|cbn; by rewrite Hst].
    by eapply early_disputed_ok; [..|apply bond_nonneg|].
  - intros w. rewrite (owed_same w (set_market_bond BondCloseDispute (Bond_new who CloseEarlyDisputeBond) (set_period (ec_old e) m)))
      by done.
    rewrite owed_put, due_new by by intros _. rewrite (owed_same w m (set_period _ m)) by done.
    change (get_bond BondCloseDispute (bonds (set_period (ec_old e) m))) with (close_dispute_bond (bonds m)).
    rewrite Hcd. unfold nothing. cbn; lia.
  - apply (values_put BondCloseDispute _ m); [exact (stands_values _ _ _ _ _ Hs)|apply bond_nonneg].
Qed.

Lemma rejected_bonds_ok id v m m1 s u s' : stands id v m1 nothing s -> bonds m1 = bonds m -> is_open m1 = true ->
  match close_dispute_bond (bonds m) with
  | Some disputor_bond =>
      repatriate_bond BondCloseRequest id (bond_who disputor_bond) ;; unreserve_bond BondCloseDispute id
  | None => mret tt
  end s = (Ok u, s') ->
  stands id v (match close_dispute_bond (bonds m) with
               | Some _ => mark BondCloseDispute (mark BondCloseRequest m1)
               | None => m1
               end) nothing s'.
Proof.
  intros Hs Hb Ho Hr. destruct (close_dispute_bond (bonds m)) as [x|]; [|by apply mret_ok in Hr as [_ ->]].
  apply bind_ok in Hr as (u1 & s1 & H1 & Hr). eapply stands_repatriate in H1; [|done|by intros _].
  eapply stands_unreserve; [done|intros _; by rewrite mark_open|done].
Qed.

Lemma early_close_settled_ok id v m e s u s' : stands id v m nothing s ->
  pm_mutate_market id (fun m => Ok (set_early_close e m)) s = (Ok u, s') -> stands id v (set_early_close e m) nothing s'.
Proof.
  intros Hs Hr. eapply stands_mutate; [exact Hs|exact Hr|reflexivity| |exact (stands_values _ _ _ _ _ Hs)].
  intros w. by rewrite (owed_same w m).
Qed.

Lemma reject_early_inv origin id : preserves (reject_early_close origin id).
Proof.
  apply preserves_transactional. intros s u s' Hi (u0 & s1 & [_ ->]%lift_ok & Hr)%bind_ok.
  apply bind_ok in Hr as (m & s1 & [Hm ->]%pm_market_ok & Hr).
  apply bind_ok in Hr as (u1 & s1 & [Hst%ensure_active_ok ->]%lift_ok & Hr).
  apply bind_ok in Hr as (e & s1 & [He%ok_or_ok ->]%lift_ok & Hr).
  pose proof (inv_stands _ _ _ Hi Hm) as Hs. pose proof (inv_market _ _ _ Hi Hm) as Hok. pose proof (active_open m Hst) as Hop.
  pose proof (mo_early _ Hok Hop) as Hec. unfold early_ok in Hec. rewrite He in Hec.
  apply bind_ok in Hr as (u2 & s2 & H2 & Hr). apply bind_ok in Hr as (u3 & s3 & H3 & Hr). apply bind_ok in Hr as (u4 & s4 & H4 & Hr).
  destruct (ec_state e) eqn:Hes; try done.
  - apply bind_ok in H2 as (n & s5 & H5 & H2). apply bind_ok in H2 as (u5 & s6 & H6 & H2).
    apply bind_ok in H2 as (k & s7 & H7 & [_ ->]%mret_ok).
    eapply reschedule_ok in H7; [|exact Hs|done|exact H5|exact H6|reflexivity|intros w; by rewrite (owed_same w m)
      |exact (stands_values _ _ _ _ _ Hs)].
    eapply rejected_bonds_ok in H3; [|exact H7|done|done].
    assert (Hsame : match close_dispute_bond (bonds m) with
                    | Some _ => mark BondCloseDispute (mark BondCloseRequest (set_period (ec_old e) m))
                    | None => set_period (ec_old e) m
                    end = set_period (ec_old e) m).
    { destruct Hec as [[_ ->]|[(x & Hx & Hxs) (y & Hy & Hys)]]; [done|]. rewrite Hy.
      rewrite (mark_settled BondCloseRequest _ x) by done. by rewrite (mark_settled BondCloseDispute _ y). }
    rewrite Hsame in H3. apply early_close_settled_ok with (1 := H3) in H4.
    eapply stands_sparing in Hr; [|apply sparing_event|exact H4].
    eapply (inv_moved id m); [done|exact Hm|exact Hr|by eapply early_withdrawn_ok|exact Hop|cbn; by rewrite Hst].
  - apply mret_ok in H2 as [_ ->]. eapply rejected_bonds_ok in H3; [|exact Hs|done|done].
    destruct Hec as [_ (y & Hy & Hys)]. rewrite Hy in H3. apply early_close_settled_ok with (1 := H3) in H4.
    eapply stands_sparing in Hr; [|apply sparing_event|exact H4].
    eapply inv_same; [done|exact Hm|exact Hr|by eapply early_rejected_ok| | |cbn; by rewrite !mark_status, Hst].
    + change (is_open (mark BondCloseDispute (mark BondCloseRequest m)) = is_open m). by rewrite !mark_open.
    + intros _. unfold market_slot. cbn. by rewrite !mark_set.
Qed.

(** *** Creation and edits *)

Definition new_status (c : MarketCreation) : MarketStatus := match c with Permissionless => Active | Advised => Proposed end.

Lemma constructed mid ba cr fee orc per dl md c ty dm sr rep res bs s b id m :
  construct_market mid ba cr fee orc per dl md c ty dm sr rep res bs s = Ok b ->
  build (match mid with Some _ => b | None => builder_market_id id b end) = Ok m ->
  m = mkMarket (default id mid) ba cr c fee orc md ty per dl sr (new_status c) rep res dm bs None.
Proof.
  intros Hc Hb. unfold construct_market in Hc. do 8 apply result_bind_ok in Hc as (? & _ & Hc). injection Hc as <-.
  destruct mid; cbn in Hb; by injection Hb as <-.
Qed.

Lemma edited_ok m i ba orc per dl md ty dm sr : market_ok m -> status m = Proposed ->
  market_ok (mkMarket i ba (creator m) (creation m) (creator_fee m) orc md ty per dl sr (new_status (creation m))
    (report m) (resolved_outcome m) dm (bonds m) None).
Proof.
  intros [Hv Hc Ho Hu Hd He Hr] Hst. unfold report_ok in Hr. rewrite Hst in Hr. destruct Hr as (Hcr & Hr1 & Hr2 & Hr3).
  rewrite Hcr. split; [exact Hv|..]; clear Hv; shape m; eauto with shape.
Qed.

Lemma created_ok who i ba fee orc per dl md c ty dm sr :
  market_ok (mkMarket i ba who c fee orc md ty per dl sr (new_status c) None None dm (creation_bonds who c) None).
Proof.
  pose proof bond_nonneg as (_ & _ & _ & _ & Ha & Hv & Ho).
  split; cbn; unfold outsider_ok, dispute_ok, early_ok, report_ok; destruct c; cbn; try done;
    try by (eexists; split; [reflexivity|done]).
  all: intros k b; destruct k; cbn; by intros [= <-].
Qed.

Lemma edit_inv origin ba id orc per dl md ty dm sr : preserves (edit_market origin ba id orc per dl md ty dm sr).
Proof.
  apply preserves_transactional. intros s u s' Hi (who & s1 & [_ ->]%lift_ok & Hr)%bind_ok.
  apply bind_ok in Hr as (s0 & s1 & [-> ->]%get_ok & Hr). apply bind_ok in Hr as (u0 & s1 & [_ ->]%lift_ok & Hr).
  apply bind_ok in Hr as (m & s1 & [Hm ->]%pm_market_ok & Hr). apply bind_ok in Hr as (u1 & s1 & [_ ->]%lift_ok & Hr).
  apply bind_ok in Hr as (u2 & s1 & [Hst%ensure_ok%bool_decide_eq_true ->]%lift_ok & Hr).
  pose proof (inv_stands _ _ _ Hi Hm) as Hs. pose proof (inv_market _ _ _ Hi Hm) as Hok.
  assert (Hop : is_open m = true) by (unfold is_open; by rewrite Hst).
  apply bind_ok in Hr as (n & s3 & H3 & Hr). apply bind_ok in Hr as (s2 & s4 & [-> ->]%get_ok & Hr).
  apply bind_ok in Hr as (b & s4 & [Hb ->]%lift_ok & Hr). apply bind_ok in Hr as (em & s4 & [Hem ->]%lift_ok & Hr).
  apply bind_ok in Hr as (u4 & s4 & H4 & Hr). apply bind_ok in Hr as (k & s5 & H5 & Hr). apply bind_ok in Hr as (u6 & s6 & H6 & Hr).
  pose proof (constructed _ _ _ _ _ _ _ _ _ _ _ _ _ _ _ _ _ 0 em Hb Hem) as Heq.
  assert (Hok' : market_ok em) by (rewrite Heq; by apply edited_ok).
  assert (Hst' : status em = Proposed).
  { rewrite Heq. cbn. pose proof (mo_report _ Hok) as Hrep. unfold report_ok in Hrep. rewrite Hst in Hrep. by destruct Hrep as [-> _]. }
  eapply reschedule_ok in H5; [|exact Hs|done|exact H3|exact H4|reflexivity|intros w; rewrite (owed_same w m em); [done|by rewrite Heq|congruence]
    |apply Hok'].
  eapply stands_sparing in H6; [|by apply sparing_modify|exact H5]. eapply stands_sparing in Hr; [|apply sparing_event|exact H6].
  eapply inv_moved; [done|exact Hm|exact Hr|done|unfold is_open; by rewrite Hst'|by rewrite Hst', Hst].
Qed.

(** A new market under the next id. *)
Lemma inv_created id m s s1 s' n : pm_inv s -> id = v_counter (view s) ->
  view s1 = mkView (<[id := m]> (v_markets (view s))) (id + 1) (v_block (view s)) (v_frame (view s)) ->
  (forall w, held_for s w + owed w m <= held_for s1 w) -> market_ok m -> is_open m = true ->
  insert_auto_close id s1 = (Ok n, s') -> pm_inv s'.
Proof.
  intros Hi -> Hv Hh Hok Ho Hr. set (id := v_counter (view s)) in *.
  pose (v := mkView (v_markets (view s)) (id + 1) (v_block (view s)) (v_frame (view s))).
  assert (Hnew : v_markets (view s) !! id = None).
  { destruct (v_markets (view s) !! id) eqn:Hl; [|done]. pose proof (inv_ids _ Hi id) as Hlt. rewrite Hl in Hlt.
    specialize (Hlt ltac:(by eexists)). unfold id in *. lia. }
  assert (Hs : stands id v m nothing s1).
  { split; [done|]. unfold covered_with, markets_values_ok. rewrite Hv. split.
    - intros w. change (mkView _ _ _ _) with (put_market id m v). rewrite total_put.
      change (v_markets v) with (v_markets (view s)). rewrite Hnew. change (total_owed v w) with (total_owed (view s) w).
      change (default 0 (owed w <$> None)) with 0. pose proof (inv_covered _ Hi w). specialize (Hh w). unfold nothing. lia.
    - apply map_Forall_insert_2; [apply Hok|by apply inv_values]. }
  eapply stands_insert in Hr as (Hv' & Hc & _); [|exact Hs].
  assert (Hput : forall q ids, v_markets (put_market id m (put_queue q ids v)) = <[id := m]> (v_markets (view s))).
  { intros q ids. cbn. by rewrite put_queue_markets. }
  assert (Hcnt : forall q ids, v_counter (put_market id m (put_queue q ids v)) = id + 1).
  { intros q ids. cbn. by rewrite put_queue_counter. }
  split.
  - rewrite Hv', Hput. apply map_Forall_insert_2; [done|by apply inv_shapes].
  - intros j. rewrite Hv', Hput, Hcnt. destruct (decide (j = id)) as [->|]; [lia|]. rewrite lookup_insert_ne by done. intros Hj%inv_ids; [|done]. fold id in Hj. lia.
  - rewrite Hv', put_market_queue, <- (close_queue_market id m v). apply sched_push; [|apply lookup_insert_eq|done].
    apply sched_but_put. assert (Hso : sched_ok v) by exact (inv_sched _ Hi).
    apply sched_fresh; [done|].
    change (v_markets v) with (v_markets (view s)). by rewrite Hnew.
  - intros w. specialize (Hc w). unfold nothing in Hc. lia.
  - destruct (inv_evolves _ Hi) as [He1 He2 He3]. fold id in He2. split; [done|rewrite Hv', Hcnt; lia|].
    intros j. rewrite Hv', Hput. destruct (decide (j = id)) as [->|]; [|by rewrite lookup_insert_ne].
    apply life_new; [apply He1|done].
Qed.

Lemma total_created who c w : owed w (mkMarket 0 Tru who c 0 0%N [] (CategoricalType 0) (BlockPeriod 0 0) (mkDeadlines 0 0 0) AmmCdaHybrid
  (new_status c) None None None (creation_bonds who c) None) = extra who (total_amount_bonded (creation_bonds who c) who) w.
Proof.
  pose proof bonds_fit. pose proof bond_nonneg as (_ & _ & _ & _ & Ha & Hv & Ho).
  unfold owed, total_amount_bonded, saturating_add, extra. destruct c; cbn -[Z.pow]; rewrite !N.eqb_refl; case_decide; cbn -[Z.pow]; unfold umax in *; lia.
Qed.

Lemma do_create_inv who ba fee orc per dl md c ty dm sr : preserves (do_create_market who ba fee orc per dl md c ty dm sr).
Proof.
  intros s r s' Hi (s0 & s1 & [-> ->]%get_ok & Hr)%bind_ok. apply bind_ok in Hr as (b & s1 & [Hb ->]%lift_ok & Hr).
  apply bind_ok in Hr as (u & s1 & H1 & Hr). apply bind_ok in Hr as ([id m] & s2 & H2 & Hr).
  apply bind_ok in Hr as (n & s3 & H3 & Hr). apply bind_ok in Hr as (u4 & s4 & H4 & [_ ->]%mret_ok).
  set (total := total_amount_bonded (creation_bonds who c) who) in *.
  assert (Htot : 0 <= total).
  { pose proof (total_created who c who) as Ht. fold total in Ht. unfold extra in Ht. rewrite decide_True in Ht by done. rewrite <- Ht.
    apply owed_nonneg. apply (created_ok who 0 Tru 0 0%N (BlockPeriod 0 0) (mkDeadlines 0 0 0) [] c (CategoricalType 0) None AmmCdaHybrid). }
  destruct (reserve_tru_ok _ _ _ _ _ Htot H1) as [Hv1 Hh1]. apply pm_on_commons_ok in H2 as (cm & Hcm & ->).
  apply build_market_spec in Hcm as [(i & m0 & [= <- <-] & Hid & Hbuild & ->)|(e & ? & _)]; [|done].
  pose proof (constructed None _ _ _ _ _ _ _ _ _ _ _ _ _ _ _ _ id m Hb Hbuild) as Hm. cbn in Hm.
  eapply inv_spares; [by eapply sparing_event|]. eapply inv_created; [exact Hi| | | | | |exact H3].
  - change (default 0 (MarketCounter (pm_commons s1))) with (v_counter (view s1)) in Hid. by rewrite Hv1 in Hid.
  - transitivity (mkView (<[id := m]> (v_markets (view s1))) (id + 1) (v_block (view s1)) (v_frame (view s1))); [done|by rewrite Hv1].
  - intros w. change (held_for _ w) with (held_for s1 w) at 2. rewrite Hh1. unfold total. rewrite <- total_created.
    apply Z.eq_le_incl. f_equal. by rewrite Hm.
  - rewrite Hm. apply created_ok.
  - rewrite Hm. by destruct c.
Qed.

(** *** Complete sets, pools, redemption and tokens *)

(** The part of complete sets' state the invariant reads. *)
Definition sets_kept (c0 c : CsState PmAssets) : Prop := cs_commons c = cs_commons c0 /\
  forall w, mc_reserved pm_reserve_id Tru w (cs_assets c0) <= mc_reserved pm_reserve_id Tru w (cs_assets c).
Definition sets_keeping {A} (f : ST DispatchError (CsState PmAssets) A) : Prop :=
  forall c0, triple (sets_kept c0) f (fun _ => sets_kept c0).

Lemma sparing_sets {A} (f : ST DispatchError (CsState PmAssets) A) : sets_keeping f -> sparing (pm_on_sets f).
Proof.
  intros Hf s a s' Hr. unfold pm_on_sets in Hr. destruct (f (pm_sets s)) as [r c] eqn:Hc. injection Hr as -> <-.
  destruct (Hf (pm_sets s) _ _ _ ltac:(split; [done|lia]) Hc) as [Hcm Hh]. split; [|exact Hh].
  unfold view, pm_commons. cbn. by rewrite Hcm.
Qed.
Lemma sets_assets {A} (f : ST DispatchError PmAssets A) :
  (forall l a l' w, f l = (Ok a, l') -> mc_reserved pm_reserve_id Tru w l' = mc_reserved pm_reserve_id Tru w l) ->
  sets_keeping (on_set_assets f).
Proof.
  intros Hf c0 c a c' [Hc Hh] (l & Hl & ->)%on_set_assets_ok. split; [done|]. intros w. cbn. rewrite (Hf _ _ _ _ Hl). apply Hh.
Qed.
Lemma sets_bind {A B} (c : ST DispatchError (CsState PmAssets) A) (f : A -> ST DispatchError (CsState PmAssets) B) :
  sets_keeping c -> (forall a, sets_keeping (f a)) -> sets_keeping (c ≫= f).
Proof. intros Hc Hf c0. eapply triple_bind; [apply Hc|]. intros a. apply Hf. Qed.
Lemma sets_for_each {A} (xs : list A) f : (forall x, sets_keeping (f x)) -> sets_keeping (for_each xs f).
Proof. intros Hf c0. apply triple_for_each. intros x _. apply Hf. Qed.
Lemma sets_event e : sets_keeping (deposit_set_event e).
Proof. intros c0. by apply triple_modify. Qed.

Ltac sets_step :=
  repeat first
    [ simple apply sets_bind; [|intros ?] | intros ?; apply triple_lift | intros ?; apply triple_get | intros ?; apply triple_mret
    | apply sets_event | apply sets_for_each; intros ? ].

Lemma do_buy_sets who id x : sets_keeping (do_buy_complete_set who id x).
Proof.
  unfold do_buy_complete_set. sets_step.
  - apply sets_assets. intros. by eapply transfer_reserved.
  - apply sets_assets. intros. by eapply deposit_reserved.
Qed.
Lemma do_sell_sets who id x : sets_keeping (do_sell_complete_set who id x).
Proof.
  unfold do_sell_complete_set. sets_step.
  - intros c0. apply triple_modify. intros c [Hc Hh]. split; [done|]. intros w. etransitivity; [apply Hh|]. cbn.
    apply Z.eq_le_incl. by eapply slash_reserve_id, surjective_pairing.
  - apply sets_assets. intros. by eapply transfer_reserved.
Qed.
Lemma buy_sets origin id x : sets_keeping (buy_complete_set origin id x).
Proof. intros c0. apply triple_transactional. revert c0. match goal with |- forall c0, triple _ ?f _ => change (sets_keeping f) end. sets_step. apply do_buy_sets. Qed.
Lemma sell_sets origin id x : sets_keeping (sell_complete_set origin id x).
Proof. intros c0. apply triple_transactional. revert c0. match goal with |- forall c0, triple _ ?f _ => change (sets_keeping f) end. sets_step. apply do_sell_sets. Qed.

Lemma sparing_deploy who id x sp f : sparing (pm_deploy_pool who id x sp f).
Proof.
  intros s a s' Hr. unfold pm_deploy_pool in Hr.
  destruct (dp_deploy_pool _ _ _ _ _ _ _ _ _) as [r [[pl l] lps]] eqn:Hd. injection Hr as -> <-. split; [done|].
  intros w. exact (deploy_keeps _ _ _ _ _ _ _ _ _ _ _ w Hd).
Qed.

Lemma create_deploy_inv who ba fee orc per dl md ty dm x sp f :
  preserves (do_create_market_and_deploy_pool who ba fee orc per dl md ty dm x sp f).
Proof.
  unfold do_create_market_and_deploy_pool. apply preserves_bind; [apply do_create_inv|]. intros [n id].
  apply preserves_sparing, sparing_bind; [apply sparing_sets, do_buy_sets|]. intros u.
  apply sparing_bind; [apply sparing_deploy|]. intros u'. apply sparing_mret.
Qed.

Ltac sparing_step :=
  repeat first
    [ apply sparing_transactional | apply sparing_bind; [|intros ?] | apply sparing_lift | apply sparing_get
    | apply sparing_mret | apply sparing_fail | apply sparing_market | apply sparing_event
    | apply sparing_for_each; intros ? | case_match | apply sparing_modify; intros; by split ].

Lemma sparing_transfer a x y v : sparing (pm_on_assets (mc_transfer a x y v)).
Proof. apply sparing_assets. intros. apply Z.eq_le_incl. symmetry. by eapply transfer_reserved. Qed.
Lemma sparing_deposit a x v : sparing (pm_on_assets (mc_deposit a x v)).
Proof. apply sparing_assets. intros. apply Z.eq_le_incl. symmetry. by eapply deposit_reserved. Qed.
Lemma sparing_withdraw a x v : sparing (pm_on_assets (mc_withdraw a x v)).
Proof. apply sparing_assets. intros. apply Z.eq_le_incl. symmetry. by eapply withdraw_reserved. Qed.
Lemma sparing_tokens {A} (f : ST DispatchError TokenState A) : sparing (on_tokens f).
Proof. intros s a s' Hr. unfold on_tokens in Hr. destruct (f (pm_tokens s)) as [r t]. injection Hr as -> <-. done. Qed.

Lemma sparing_redeem_one who id m x : sparing (redeem_one who id m x).
Proof.
  destruct x as [[c p] b]. unfold redeem_one. apply sparing_bind.
  { apply (sparing_modify_assets (fun l => (mc_slash c who b l).2)). intros l w. apply Z.eq_le_incl.
    by eapply slash_reserve_id, surjective_pairing. }
  intros _ s u s' (s0 & s1 & [-> ->]%get_ok & Hr)%bind_ok. apply bind_ok in Hr as (x & s1 & H1 & Hr).
  transitivity s1.
  - case_bool_decide; [by apply mret_ok in H1 as [_ ->]|].
    pose proof (winner_fee_keeps (winnings_fee_account s) id (base_asset m) (market_account id)
      (Z.min p (mc_free_balance (base_asset m) (market_account id) (pm_assets s))) (pm_assets s)) as Hk.
    destruct (winner_fee _ _ _ _ _ _) as [paid l]. apply bind_ok in H1 as (u1 & s2 & [_ ->]%modify_ok & [_ ->]%mret_ok).
    by apply spares_assets.
  - eapply (sparing_bind (pm_on_assets _)), Hr; [apply sparing_transfer|]. intros u'. sparing_step.
Qed.
Lemma sparing_redeem who id : sparing (do_redeem who id).
Proof. unfold do_redeem. sparing_step. apply sparing_redeem_one. Qed.
Lemma sparing_lift_tokens e : sparing (process_lift e).
Proof.
  unfold process_lift. apply sparing_bind; [apply sparing_get|]. intros s0.
  repeat first [apply sparing_tokens | apply sparing_deposit | apply sparing_mret | case_match].
Qed.
Lemma sparing_withdraw_tokens t who x : sparing (do_withdraw_tokens t who x).
Proof. unfold do_withdraw_tokens. sparing_step; first [apply sparing_withdraw|apply sparing_tokens]. Qed.
Lemma sparing_transfer_tokens t x y v : sparing (do_transfer_tokens t x y v).
Proof. unfold do_transfer_tokens. sparing_step. apply sparing_transfer. Qed.
Lemma sparing_admin origin : sparing (ensure_market_admin origin).
Proof. unfold ensure_market_admin. sparing_step. Qed.
Lemma sparing_check_signed origin proof p e : sparing (check_signed origin proof p e).
Proof. unfold check_signed. sparing_step. Qed.
Lemma sparing_user_nonce who : sparing (bump_user_nonce who).
Proof. unfold bump_user_nonce. sparing_step. Qed.
Lemma sparing_market_nonce who id : sparing (bump_market_nonce who id).
Proof. unfold bump_market_nonce. sparing_step. Qed.
End Runs.
