(* ===== verification/PmHook.v ===== *)
(** * The prediction-markets pallet: the hook and every run

    Closing at the end of markets never fails and closes exactly the markets that
    are due; the invariant of [PmRuns] holds in every state that calls, hook and
    the other pallets can reach. *)

From S2P Require Import Prelude Errors FixedMath Collections Interfaces DisputeQueue Market MultiCurrency CompleteSets.
From S2P Require Import PredictionMarkets PmCalls PmInv PmSchedule PmLife PmMoves PmRuns.

Section Hook.
Context `{PmLaws}.
Abbreviation PmM := (ST DispatchError PmState).
Context (v0 : View).
Abbreviation pm_inv := (pm_inv v0).
Abbreviation preserves := (preserves v0).

(** ** Closing by hand *)

Lemma remove_item_at pos id ids : position id ids = Some pos -> remove_item ids id = swap_remove pos ids.
Proof. intros Hp. unfold remove_item. by rewrite Hp. Qed.

Lemma manual_close_inv origin id : preserves (manually_close_market origin id).
Proof.
  apply preserves_transactional. intros s u s' Hi (w & s1 & [_ ->]%lift_ok & Hr)%bind_ok.
  apply bind_ok in Hr as (m & s1 & [Hm ->]%pm_market_ok & Hr). apply bind_ok in Hr as (s0 & s1 & [-> ->]%get_ok & Hr).
  pose proof (inv_stands _ _ _ _ Hi Hm) as Hs. pose proof (inv_market _ _ _ _ Hi Hm) as Hok.
  destruct (period m) as [a b|a stop] eqn:Hp; [done|]. destruct (stop <=? pm_now s); [|done].
  apply bind_ok in Hr as (pos & s1 & [Hpos%ok_or_ok ->]%lift_ok & Hr).
  apply bind_ok in Hr as (u1 & s2 & [_ ->]%modify_ok & Hr).
  assert (Hslot : market_slot m = (false, calculate_time_frame_of_moment stop)) by (unfold market_slot; by rewrite Hp).
  set (s1 := set_MarketIdsPerCloseTimeFrame _ s) in Hr.
  eapply (stands_queue (market_slot m) (remove_item (close_queue (view s) (market_slot m)) id) _ _ _ _ _ s1) in Hs; [| |done].
  2:{ rewrite Hslot. unfold close_queue. cbn. by rewrite (remove_item_at _ _ _ Hpos). }
  apply bind_ok in Hr as (u3 & s3 & H3 & Hr). unfold on_market_close in H3. destruct (status m) eqn:Hst; try done.
  - eapply expired_ok in H3 as (_ & Hv & _); [|exact Hs]. apply bind_ok in Hr as (s4 & s5 & [-> ->]%get_ok & Hr).
    apply mutate_ok in Hr as (m1 & m2 & Hm1 & _). rewrite Hv in Hm1. cbn in Hm1. by rewrite lookup_delete_eq in Hm1.
  - eapply close_ok in H3 as [_ H3]; [|exact Hs]. eapply market_end_ok in Hr as [p' Hr]; [|exact H3].
    eapply inv_cleared; [done|exact Hm|exact Hr| |done|cbn; by rewrite Hst]. by apply period_ok, closed_ok.
Qed.

(** ** Closing in the hook *)

(** Settling a bond that exists succeeds. *)
Lemma mutate_total id f s m m' : v_markets (view s) !! id = Some m -> f m = Ok m' ->
  exists s', pm_mutate_market id f s = (Ok tt, s').
Proof.
  intros Hm Hf. unfold pm_mutate_market, pm_on_commons, mutate_market, mbind, st_bind, gets.
  change (Markets (pm_commons s) !! id = Some m) in Hm. rewrite Hm. unfold lift. rewrite Hf. by eexists.
Qed.
Lemma bind_total {A B} (c : PmM A) (f : A -> PmM B) s a s1 r : c s = (Ok a, s1) -> f a s1 = r -> (c ≫= f) s = r.
Proof. intros Hc Hf. unfold mbind, st_bind. by rewrite Hc. Qed.
Lemma market_total id s m : v_markets (view s) !! id = Some m -> pm_market id s = (Ok m, s).
Proof.
  intros Hm. change (Markets (pm_commons s) !! id = Some m) in Hm.
  unfold pm_market, mbind, st_bind, get, lift, market. by rewrite Hm.
Qed.

Lemma unreserve_total k id s m b : v_markets (view s) !! id = Some m -> get_bond k (bonds m) = Some b ->
  exists s', unreserve_bond k id s = (Ok tt, s').
Proof.
  intros Hm Hb. unfold unreserve_bond. unfold mbind at 1, st_bind at 1. rewrite (market_total _ _ _ Hm).
  unfold mbind at 1, st_bind at 1, lift. rewrite Hb. cbn [ok_or]. destruct (is_settled b); [by eexists|].
  unfold mbind, st_bind, modify. by eapply mutate_total.
Qed.

Lemma pending_total k id s m0 m : v_markets (view s) !! id = Some m -> get_bond k (bonds m) = get_bond k (bonds m0) ->
  exists s', (if is_bond_pending k m0 then unreserve_bond k id else mret tt) s = (Ok tt, s').
Proof.
  intros Hm Hb. unfold is_bond_pending. destruct (get_bond k (bonds m0)) as [b|] eqn:Hk; [|by eexists].
  destruct (negb (is_settled b)); [|by eexists]. by eapply unreserve_total.
Qed.

Lemma close_total id v m s : stands id v m nothing s -> status m = Active -> exists s', close_market id s = (Ok tt, s').
Proof.
  intros Hs Hst. pose proof (stands_lookup _ _ _ _ _ Hs) as Hm.
  assert (Hcb : exists s1, (match early_close m with
    | Some p =>
        match ec_state p with
        | ScheduledAsMarketCreator =>
            if is_bond_pending BondCloseRequest m then unreserve_bond BondCloseRequest id else mret tt
        | EarlyCloseDisputed =>
            (if is_bond_pending BondCloseDispute m then unreserve_bond BondCloseDispute id else mret tt) ;;
            (if is_bond_pending BondCloseRequest m then unreserve_bond BondCloseRequest id else mret tt)
        | ScheduledAsOther | EarlyCloseRejected => mret tt
        end
    | None => mret tt
    end : PmM unit) s = (Ok tt, s1)).
  { destruct (early_close m) as [p|]; [|by eexists]. destruct (ec_state p); try by eexists.
    - by eapply pending_total.
    - destruct (pending_total BondCloseDispute id s m m Hm eq_refl) as [s1 H1].
      eapply stands_if_pending in H1 as Hs1; [|done|done|intros Hx; eapply stands_unreserve; [done|by intros _; apply active_open|done]].
      destruct (pending_total BondCloseRequest id s1 m (mark BondCloseDispute m)) as [s2 H2];
        [by eapply stands_lookup|by rewrite get_mark_ne|]. exists s2. by eapply bind_total. }
  destruct Hcb as [s1 Hcb]. eexists. unfold close_market, mutate_market_with. eapply bind_total.
  - unfold mbind at 1, st_bind at 1, get. change (Markets (pm_commons s) !! id = Some m) in Hm. rewrite Hm.
    eapply bind_total; [|reflexivity]. rewrite Hst. eapply bind_total; [reflexivity|]. by eapply bind_total.
  - reflexivity.
Qed.

Lemma expired_total id v m s : stands id v m nothing s -> market_ok m -> status m = Proposed ->
  exists s', handle_expired_advised_market id m s = (Ok tt, s').
Proof.
  intros Hs Hok Hst. destruct (mo_creation _ Hok) as (b & Hb & _). destruct (mo_oracle _ Hok) as (c & Hc & _).
  destruct (unreserve_total BondCreation id s m b) as [s1 H1]; [by eapply stands_lookup|done|].
  eapply stands_unreserve in H1 as Hs1; [|done|done].
  destruct (unreserve_total BondOracle id s1 (mark BondCreation m) c) as [s2 H2]; [by eapply stands_lookup|by rewrite get_mark_ne|].
  eapply stands_unreserve in H2 as Hs2; [|done|done]. apply stands_lookup in Hs2.
  eexists. unfold handle_expired_advised_market. rewrite Hst. eapply bind_total; [reflexivity|].
  eapply bind_total; [done|]. eapply bind_total; [done|]. eapply bind_total.
  - unfold pm_on_commons, remove_market, mbind, st_bind, get.
    change (Markets (pm_commons s2) !! id = Some (mark BondOracle (mark BondCreation m))) in Hs2. rewrite Hs2.
    rewrite bool_decide_eq_true_2 by by eexists. reflexivity.
  - reflexivity.
Qed.

(** What becomes of a market when the slots [qs] are due: an active market is
    closed, a proposed one expires. *)
Definition end_market (m : Market) : option Market :=
  match status m with Proposed => None | Active => Some (set_status Closed m) | _ => Some m end.
Definition ended_at (qs : list Slot) (o : option Market) : option Market :=
  m ← o; if is_open m && bool_decide (market_slot m ∈ qs) then end_market m else Some m.

Lemma ended_at_app qs qs' o : ended_at (qs ++ qs') o = ended_at qs' (ended_at qs o).
Proof.
  destruct o as [m|]; [|done]. unfold ended_at. cbn.
  rewrite (bool_decide_ext _ (market_slot m ∈ qs \/ market_slot m ∈ qs')) by apply elem_of_app. rewrite bool_decide_or.
  unfold is_open, end_market. destruct (status m) eqn:Hst; cbn; rewrite ?Hst; try done;
    destruct (bool_decide (market_slot m ∈ qs)), (bool_decide (market_slot m ∈ qs')) eqn:Hq; cbn; rewrite ?Hst, ?Hq; done.
Qed.

(** The invariant while slot [q] is being emptied. *)
Record due_inv (q : Slot) (todo : list Z) (s : PmState) : Prop := {
  di_shapes : map_Forall (fun _ m => market_ok m) (v_markets (view s));
  di_ids : forall id, is_Some (v_markets (view s) !! id) -> id < v_counter (view s);
  di_sched : sched_due q todo (view s);
  di_covered : covered s;
  di_evolves : evolves v0 (view s) }.

Lemma close_one_run q id todo s : due_inv q (id :: todo) s ->
  exists m s', v_markets (view s) !! id = Some m /\ (m ← pm_market id; on_market_close id m) s = (Ok tt, s') /\
    due_inv q todo s' /\ (forall q', close_queue (view s') q' = close_queue (view s) q') /\
    forall j, v_markets (view s') !! j = if decide (j = id) then end_market m else v_markets (view s) !! j.
Proof.
  intros [Hsh Hid Hd Hc [He1 He2 He3]]. pose proof Hd as (_ & _ & _ & Hin).
  assert (scheduled (view s) q id) as (m & Hm & Ho & Hslot) by (apply Hin; left). exists m.
  assert (Hok : market_ok m) by exact (map_Forall_lookup_1 _ _ _ _ Hsh Hm).
  assert (Hv : markets_values_ok (view s)) by (eapply map_Forall_impl; [exact Hsh|]; intros i x Hx; apply Hx).
  pose proof (stands_start _ _ _ Hm Hc Hv) as Hs. unfold end_market.
  assert (Hlt : id < v_counter (view s)) by (apply Hid; by rewrite Hm).
  unfold is_open in Ho. destruct (status m) eqn:Hst; try done.
  - destruct (expired_total _ _ _ _ Hs Hok Hst) as [s' Hr].
    destruct (expired_ok _ _ _ _ _ _ Hs Hr) as (_ & Hv' & Hc' & _). exists s'. split; [done|]. split.
    { eapply bind_total; [by apply market_total|]. unfold on_market_close. by rewrite Hst. }
    split; [|split; [by rewrite Hv'|]].
    + split; rewrite ?Hv'; [by apply map_Forall_delete| |by apply sched_due_drop|done|].
      * intros j. cbn. destruct (decide (j = id)) as [->|]; [rewrite lookup_delete_eq; by intros []|].
        rewrite lookup_delete_ne by done. apply Hid.
      * split; [done|done|]. intros j. cbn. destruct (decide (j = id)) as [->|]; [|by rewrite lookup_delete_ne].
        rewrite lookup_delete_eq. specialize (He3 id). rewrite Hm in He3. by eapply life_dropped.
    + intros j. rewrite Hv'. cbn. case_decide as Hj; [subst; by rewrite lookup_delete_eq|by rewrite lookup_delete_ne].
  - destruct (close_total _ _ _ _ Hs Hst) as [s' Hr].
    destruct (close_ok _ _ _ _ _ _ Hs Hr) as (_ & Hv' & Hc' & _). exists s'. split; [done|]. split.
    { eapply bind_total; [by apply market_total|]. unfold on_market_close. by rewrite Hst. }
    split; [|split; [by rewrite Hv'|]].
    + split; rewrite ?Hv'; [|intros j; cbn|by apply sched_due_put| |].
      * apply map_Forall_insert_2; [by apply closed_ok|done].
      * destruct (decide (j = id)) as [->|]; [done|]. rewrite lookup_insert_ne by done. apply Hid.
      * intros w. specialize (Hc' w). unfold nothing in Hc'. lia.
      * split; [done|done|]. intros j. cbn. destruct (decide (j = id)) as [->|]; [|by rewrite lookup_insert_ne].
        rewrite lookup_insert_eq. specialize (He3 id). rewrite Hm in He3. eapply life_moved; [done|]. cbn. by rewrite Hst.
    + intros j. rewrite Hv'. cbn. case_decide as Hj; [subst; by rewrite lookup_insert_eq|by rewrite lookup_insert_ne].
Qed.

Lemma close_due_run q todo : forall s, due_inv q todo s ->
  exists s', close_due todo s = (Ok tt, s') /\ due_inv q [] s' /\ (forall q', close_queue (view s') q' = close_queue (view s) q') /\
    forall j, v_markets (view s') !! j = (if decide (j ∈ todo) then v_markets (view s) !! j ≫= end_market else v_markets (view s) !! j).
Proof.
  induction todo as [|id todo IH]; intros s Hs.
  { exists s. split_and!; [done..|]. intros j. case_decide as Hj; [by apply elem_of_nil in Hj|done]. }
  destruct (close_one_run _ _ _ _ Hs) as (m & s1 & Hm & H1 & Hs1 & Hq1 & Hv1).
  destruct (IH _ Hs1) as (s2 & H2 & Hs2 & Hq2 & Hv2). exists s2. split; [by eapply bind_total|].
  split; [done|]. split; [intros q'; by rewrite Hq2|]. intros j. rewrite Hv2, Hv1.
  pose proof (di_sched _ _ _ Hs) as (_ & [Hnin _]%NoDup_cons & _).
  destruct (decide (j = id)) as [->|Hne].
  - rewrite decide_False, decide_True by (done || left). by rewrite Hm.
  - repeat case_decide; set_solver.
Qed.

Lemma slot_run q (f : PmState -> PmState) s :
  (forall s, view (f s) = drop_queue q (view s) /\ pm_assets (f s) = pm_assets s) -> pm_inv s ->
  exists s1, close_due (close_queue (view s) q) s = (Ok tt, s1) /\ pm_inv (f s1) /\
    forall j, v_markets (view (f s1)) !! j = ended_at [q] (v_markets (view s) !! j).
Proof.
  intros Hf [Hsh Hid Hso Hc He].
  destruct (close_due_run q (close_queue (view s) q) s) as (s1 & H1 & [Hsh1 Hid1 Hd1 Hc1 He1] & _ & Hv1).
  { split; [done|done|by apply sched_due_start|done|done]. }
  exists s1. split; [done|]. destruct (Hf s1) as [Hv Ha]. split.
  - split; rewrite ?Hv, ?drop_queue_markets, ?drop_queue_counter; [done|done|by apply sched_due_end| |].
    + intros w. rewrite Hv. unfold held_for. rewrite Ha. unfold total_owed. rewrite drop_queue_markets. apply Hc1.
    + destruct He1 as [Ha1 Ha2 Ha3]. split; rewrite ?drop_queue_counter, ?drop_queue_markets; done.
  - intros j. rewrite Hv, drop_queue_markets, Hv1. pose proof (proj2 Hso q j) as Hj. unfold scheduled in Hj.
    unfold ended_at. destruct (v_markets (view s) !! j) as [m|]; cbn; [|by case_decide].
    rewrite (bool_decide_ext _ (market_slot m = q)) by apply list_elem_of_singleton.
    case_decide as Hin.
    + apply Hj in Hin as (m' & [= <-] & -> & ->). by rewrite bool_decide_eq_true_2.
    + destruct (is_open m) eqn:Ho; [|done]. case_bool_decide as Hq; [|done]. contradict Hin. apply Hj. by exists m.
Qed.

(** The slots a run of the hook closes: its block, and the time frames since the
    last run, at most [MAX_RECOVERY_TIME_FRAMES] back. *)
Definition recovery_start (last current : Z) : Z :=
  let start := saturating_add 64 last 1 in
  if MAX_RECOVERY_TIME_FRAMES <? saturating_sub current start then saturating_sub current MAX_RECOVERY_TIME_FRAMES else start.
Definition due_frames (last current : Z) : list Z :=
  seqZ (recovery_start last current) (current - recovery_start last current + 1).
Definition due_slots (n last current : Z) : list Slot := (true, n) :: ((fun t => (false, t)) <$> due_frames last current).

Definition close_frame (time_frame : Z) : PmM unit :=
  s ← get;
  close_due (queue_get time_frame (MarketIdsPerCloseTimeFrame s)) ;;
  modify (fun s => set_MarketIdsPerCloseTimeFrame (delete time_frame (MarketIdsPerCloseTimeFrame s)) s).

Lemma frames_run ts : forall s, pm_inv s ->
  exists s', for_each ts close_frame s = (Ok tt, s') /\ pm_inv s' /\
    forall j, v_markets (view s') !! j = ended_at ((fun t => (false, t)) <$> ts) (v_markets (view s) !! j).
Proof.
  induction ts as [|t ts IH]; intros s Hi.
  { exists s. split; [done|]. split; [done|]. intros j. destruct (v_markets (view s) !! j) as [m|]; [|done]. cbn.
    rewrite bool_decide_eq_false_2 by apply not_elem_of_nil. by rewrite andb_false_r. }
  destruct (slot_run (false, t) (fun s => set_MarketIdsPerCloseTimeFrame (delete t (MarketIdsPerCloseTimeFrame s)) s) s)
    as (s1 & H1 & Hi1 & Hv1); [done|done|].
  destruct (IH _ Hi1) as (s2 & H2 & Hi2 & Hv2). exists s2. split; [|split; [done|]].
  - eapply bind_total; [|exact H2]. unfold close_frame. eapply bind_total; [reflexivity|]. eapply bind_total; [exact H1|reflexivity].
  - intros j. rewrite Hv2, Hv1. change ((fun t => (false, t)) <$> t :: ts) with ([(false, t)] ++ ((fun t => (false, t)) <$> ts)).
    by rewrite ended_at_app.
Qed.

Lemma manager_run n last current s : pm_inv s ->
  exists s', market_status_manager n last current s = (Ok tt, s') /\ pm_inv s' /\
    forall j, v_markets (view s') !! j = ended_at (due_slots n last current) (v_markets (view s) !! j).
Proof.
  intros Hi.
  destruct (slot_run (true, n) (fun s => set_MarketIdsPerCloseBlock (delete n (MarketIdsPerCloseBlock s)) s) s)
    as (s1 & H1 & Hi1 & Hv1); [done|done|].
  set (s2 := set_MarketIdsPerCloseBlock _ s1) in *.
  assert (Hst : exists s3, ((if MAX_RECOVERY_TIME_FRAMES <? saturating_sub current (saturating_add 64 last 1) then
       deposit_pm_event (RecoveryLimitReached last (saturating_sub current MAX_RECOVERY_TIME_FRAMES)) ;;
       mret (saturating_sub current MAX_RECOVERY_TIME_FRAMES)
     else mret (saturating_add 64 last 1)) : PmM Z) s2 = (Ok (recovery_start last current), s3) /\ spares s2 s3).
  { unfold recovery_start. destruct (_ <? _); eexists; (split; [reflexivity|done]). }
  destruct Hst as (s3 & H3 & Hs3). pose proof (inv_spares _ _ _ Hs3 Hi1) as Hi3.
  destruct (frames_run (due_frames last current) s3 Hi3) as (s4 & H4 & Hi4 & Hv4). exists s4. split; [|split; [done|]].
  - unfold market_status_manager. eapply bind_total; [reflexivity|]. eapply bind_total; [exact H1|].
    eapply bind_total; [reflexivity|]. eapply bind_total; [exact H3|]. exact H4.
  - intros j. rewrite Hv4, (proj1 Hs3), Hv1. exact (eq_sym (ended_at_app [(true, n)] _ _)).
Qed.

Lemma resolve_stored_inv id : preserves (m ← pm_market id; pm_on_resolution id m).
Proof. intros s u s' Hi (m & s1 & [Hm ->]%pm_market_ok & Hr)%bind_ok. by eapply resolving_inv. Qed.

Lemma preserves_for_each {A} (xs : list A) (f : A -> PmM unit) : (forall x, preserves (f x)) -> preserves (for_each xs f).
Proof.
  intros Hf s u s' Hi. apply (triple_for_each pm_inv); [|done]. intros x _ s1 u1 s2 Hi1. by apply (Hf x).
Qed.

Lemma resolution_manager_inv n : preserves (resolution_manager n).
Proof.
  unfold resolution_manager. apply preserves_bind; [apply preserves_sparing, sparing_get|]. intros s0.
  apply preserves_bind.
  { apply preserves_for_each. intros id s u s' Hi (m & s1 & [Hm ->]%pm_market_ok & Hr)%bind_ok.
    case_bool_decide; [by eapply resolving_inv|]. by apply mret_ok in Hr as [_ ->]. }
  intros _. apply preserves_bind; [by apply preserves_sparing, sparing_modify|]. intros _.
  apply preserves_bind; [apply preserves_sparing, sparing_get|]. intros s1.
  apply preserves_bind; [apply preserves_for_each; intros id; apply resolve_stored_inv|]. intros _.
  by apply preserves_sparing, sparing_modify.
Qed.

Lemma pm_on_initialize_inv n s : pm_inv s -> pm_inv (pm_on_initialize n s).
Proof.
  intros Hi. unfold pm_on_initialize. destruct (n <=? 1); [done|]. unfold with_transaction. cbv zeta.
  destruct (manager_run n (default (saturating_sub (saturating_add 64 (calculate_time_frame_of_moment (pm_now s)) 1) 1) (LastTimeFrame s))
    (saturating_add 64 (calculate_time_frame_of_moment (pm_now s)) 1) s Hi) as (s1 & H1 & Hi1 & _).
  rewrite H1. destruct (resolution_manager n s1) as [[u|e] s2] eqn:H2; [|done].
  eapply (inv_spares _ s2); [done|]. by eapply resolution_manager_inv.
Qed.
End Hook.

(** ** Runs *)

Section AllRuns.
Context `{PmLaws}.
Abbreviation PmM := (ST DispatchError PmState).

(** Every dispatchable call. *)
Inductive pm_call : PmM unit -> Prop :=
| op_admin_close origin id : pm_call (admin_move_market_to_closed origin id)
| op_admin_resolve origin id : pm_call (admin_move_market_to_resolved origin id)
| op_approve origin id : pm_call (approve_market origin id)
| op_request_edit origin id r : pm_call (request_edit origin id r)
| op_buy_set origin id x : pm_call (pm_buy_complete_set origin id x)
| op_sell_set origin id x : pm_call (pm_sell_complete_set origin id x)
| op_dispute origin id : pm_call (dispute origin id)
| op_create origin ba fee orc per dl md c ty dm sr : pm_call (create_market origin ba fee orc per dl md c ty dm sr)
| op_edit origin ba id orc per dl md ty dm sr : pm_call (edit_market origin ba id orc per dl md ty dm sr)
| op_redeem origin id : pm_call (redeem_shares origin id)
| op_reject origin id r : pm_call (reject_market origin id r)
| op_report origin id o : pm_call (pm_report origin id o)
| op_global_dispute origin id : pm_call (start_global_dispute origin id)
| op_create_deploy origin ba fee orc per dl md ty dm x sp f :
    pm_call (create_market_and_deploy_pool origin ba fee orc per dl md ty dm x sp f)
| op_schedule origin id : pm_call (schedule_early_close origin id)
| op_dispute_early origin id : pm_call (dispute_early_close origin id)
| op_reject_early origin id : pm_call (reject_early_close origin id)
| op_close_trusted origin id : pm_call (close_trusted_market origin id)
| op_manual_close origin id : pm_call (manually_close_market origin id)
| op_config origin c : pm_call (set_config_option origin c)
| op_whitelist origin a : pm_call (whitelist_market_creator origin a)
| op_unlist origin a : pm_call (remove_market_creator origin a)
| op_winnings origin a : pm_call (set_winnings_fee_account origin a)
| op_swap_fee origin a : pm_call (set_additional_swap_fee_account origin a)
| op_oracle origin id a : pm_call (admin_update_market_oracle origin id a)
| op_withdraw origin t x : pm_call (withdraw_tokens origin t x)
| op_signed_create origin p ba fee orc per dl md ty dm x sp f :
    pm_call (signed_create_market_and_deploy_pool origin p ba fee orc per dl md ty dm x sp f)
| op_signed_report origin p id o : pm_call (signed_report origin p id o)
| op_signed_withdraw origin p t x : pm_call (signed_withdraw_tokens origin p t x)
| op_signed_transfer origin p t a x : pm_call (signed_transfer_asset origin p t a x)
| op_signed_redeem origin p id : pm_call (signed_redeem_shares origin p id)
| op_signed_buy origin p id x : pm_call (signed_buy_complete_set origin p id x).

(** A call, the hook, a lifted deposit, a resolution asked for by a dispute
    pallet, or something that leaves markets, queues and reserve alone (other
    pallets, the clock). *)
Inductive pm_step : PmState -> PmState -> Prop :=
| step_call c s r s' : pm_call c -> c s = (r, s') -> pm_step s s'
| step_hook n s : pm_step s (pm_on_initialize n s)
| step_lifted e s s' : on_event_processed e s = (Ok tt, s') -> pm_step s s'
| step_resolve id m s s' : Markets (pm_commons s) !! id = Some m -> pm_resolve id m s = (Ok tt, s') -> pm_step s s'
| step_elsewhere s s' : spares s s' -> pm_step s s'.

Definition pm_start (s : PmState) : Prop :=
  Markets (pm_commons s) = ∅ /\ MarketIdsPerCloseBlock s = ∅ /\ MarketIdsPerCloseTimeFrame s = ∅.
Definition pm_reachable (s : PmState) : Prop := exists s0, pm_start s0 /\ rtc pm_step s0 s.

Lemma call_err c s e s' : pm_call c -> c s = (Err e, s') -> s' = s.
Proof.
  destruct 1; try (intros Hr; by apply transactional_err in Hr);
    unfold pm_buy_complete_set, pm_sell_complete_set, pm_on_sets;
    match goal with |- context [?f (pm_sets s)] => destruct (f (pm_sets s)) as [r c] eqn:Hc end;
    intros [= -> <-]; apply transactional_err in Hc as ->; by destruct s.
Qed.

Ltac sparing_call :=
  apply preserves_sparing, sparing_transactional;
  repeat first
    [ apply sparing_admin | apply sparing_check_signed | apply sparing_redeem | apply sparing_withdraw_tokens
    | apply sparing_transfer_tokens | apply sparing_user_nonce | apply sparing_market_nonce
    | apply sparing_lift | apply sparing_get | apply sparing_mret | apply sparing_market | apply sparing_event
    | apply sparing_sets, do_buy_sets
    | simple apply sparing_bind; [|intros ?] | apply sparing_modify; intros; by split | case_match ].

Lemma call_inv v0 c : pm_call c -> preserves v0 c.
Proof.
  destruct 1; try solve [sparing_call].
  - apply preserves_transactional. unfold admin_move_market_to_closed.
    apply preserves_bind; [apply preserves_sparing, sparing_lift|]. intros _. apply closing_inv.
  - apply admin_resolve_inv.
  - apply approve_inv.
  - apply preserves_sparing, sparing_sets, buy_sets.
  - apply preserves_sparing, sparing_sets, sell_sets.
  - apply dispute_inv.
  - apply preserves_transactional, preserves_bind; [apply preserves_sparing, sparing_lift|]. intros who.
    apply preserves_bind; [apply do_create_inv|]. intros _. apply preserves_sparing, sparing_mret.
  - apply edit_inv.
  - apply reject_inv.
  - apply report_inv.
  - apply global_dispute_inv.
  - apply preserves_transactional, preserves_bind; [apply preserves_sparing, sparing_lift|]. intros who.
    apply preserves_bind; [apply create_deploy_inv|]. intros _. apply preserves_sparing, sparing_mret.
  - apply schedule_inv.
  - apply dispute_early_inv.
  - apply reject_early_inv.
  - apply preserves_transactional. intros s u s' Hi (who & s1 & [_ ->]%lift_ok & Hr)%bind_ok.
    apply bind_ok in Hr as (m & s1 & [Hm ->]%pm_market_ok & Hr). apply bind_ok in Hr as (u1 & s1 & [_ ->]%lift_ok & Hr).
    apply bind_ok in Hr as (u2 & s1 & [_ ->]%lift_ok & Hr). eapply (closing_inv _ id); [exact Hi|].
    eapply bind_total; [by apply market_total|]. exact Hr.
  - apply manual_close_inv.
  - apply update_oracle_inv.
  - apply preserves_transactional, preserves_bind; [apply preserves_sparing, sparing_check_signed|]. intros who.
    apply preserves_bind; [apply create_deploy_inv|]. intros _. apply preserves_sparing, sparing_user_nonce.
  - apply preserves_transactional. intros s u s' Hi (who & s1 & H1 & Hr)%bind_ok.
    pose proof (sparing_check_signed _ _ _ _ _ _ _ H1) as Hs1. pose proof (inv_spares _ _ _ Hs1 Hi) as Hi1.
    apply bind_ok in H1 as (w & s2 & [Hor ->]%lift_ok & H1).
    apply bind_ok in H1 as (u1 & s2 & [_ ->]%lift_ok & H1). apply bind_ok in H1 as (s3 & s2 & [-> ->]%get_ok & H1).
    apply bind_ok in H1 as (u2 & s2 & [_ ->]%lift_ok & [-> ->]%mret_ok).
    apply bind_ok in Hr as (u3 & s2 & H2 & Hr). apply sparing_market_nonce in H2.
    eapply do_report_inv; [exact Hor|by eapply inv_spares|exact Hr].
Qed.

Lemma step_inv v0 s s' : pm_step s s' -> pm_inv v0 s -> pm_inv v0 s'.
Proof.
  intros Hst Hi. destruct Hst as [c s r s' Hc Hr|n s|e s s' Hr|id m s s' Hm Hr|s s' Hs].
  - destruct r as [[]|e]; [by eapply call_inv|]. by rewrite (call_err _ _ _ _ Hc Hr).
  - by apply pm_on_initialize_inv.
  - eapply preserves_sparing; [apply (sparing_lift_tokens e)|exact Hi|exact Hr].
  - by eapply (resolving_inv v0 id m).
  - by eapply inv_spares.
Qed.
Lemma steps_inv v0 s s' : rtc pm_step s s' -> pm_inv v0 s -> pm_inv v0 s'.
Proof. induction 1 as [|s1 s2 s3 Hst _ IH]; [done|]. intros Hi. apply IH. by eapply step_inv. Qed.

(** The invariant may be counted from any state of a run. *)
Lemma inv_here v0 s : pm_inv v0 s -> pm_inv (view s) s.
Proof.
  intros [Hsh Hid Hso Hc He]. split; [done..|]. split; [done|done|]. intros id. apply life_refl.
Qed.

Lemma start_inv s : pm_start s -> pm_inv (view s) s.
Proof.
  intros (Hm & Hb & Hf).
  assert (Hempty : v_markets (view s) = ∅) by exact Hm.
  assert (Hnone : forall id, v_markets (view s) !! id = None) by (intros id; rewrite Hempty; apply lookup_empty).
  apply (inv_here (view s)). split.
  - rewrite Hempty. apply map_Forall_empty.
  - intros id Hid. rewrite Hnone in Hid. by destruct Hid.
  - assert (Hq : forall q, close_queue (view s) q = []).
    { intros [[] b]; unfold close_queue, queue_get; cbn; rewrite ?Hb, ?Hf; by rewrite lookup_empty. }
    split; [intros q; rewrite Hq; constructor|]. intros q i. rewrite Hq. unfold scheduled. rewrite Hnone. split.
    + by intros ?%elem_of_nil.
    + by intros (m & ? & _).
  - intros w. unfold total_owed. rewrite Hempty, fmap_empty. apply reserved_nonneg.
  - split; [|done|intros id; apply life_refl]. intros id Hid. rewrite Hnone in Hid. by destruct Hid.
Qed.

Lemma reachable_inv s : pm_reachable s -> pm_inv (view s) s.
Proof. intros (s0 & Hs0 & Hr). eapply inv_here, steps_inv; [exact Hr|]. by apply start_inv. Qed.

(** ** Theorems *)

Lemma close_keeps_record v id m s u s' : pm_inv v s -> Markets (pm_commons s) !! id = Some m ->
  close_market id s = (Ok u, s') -> Markets (pm_commons s') !! id = Some (set_status Closed m).
Proof.
  intros Hi Hm Hr. eapply close_ok in Hr as [_ Hs]; [|by eapply inv_stands]. exact (stands_lookup _ _ _ _ _ Hs).
Qed.

(** C1. In every reachable state of the prediction-markets pallet each market has
    the creation, oracle, outsider and dispute bonds its status and creation call
    for, settled or unsettled as they should be, and while it is proposed or
    active also the bonds of an early close its early-close state calls for.  The
    reserve the pallet holds in each account covers, over all markets together,
    the bonds of that account that are recorded as unsettled: the creation,
    oracle, outsider and dispute bonds of every market, and the early-close bonds
    of the proposed and active ones.  The early-close bonds of a market that has
    been closed are not covered and need not be: closing releases the pending
    ones but leaves the market's record as it was but for the status, so that
    they stay recorded as unsettled. *)
Theorem bonds_backed s : pm_reachable s ->
  (forall id m, Markets (pm_commons s) !! id = Some m -> market_ok m) /\
  (forall w, map_sum (owed w <$> Markets (pm_commons s)) <= mc_reserved pm_reserve_id Tru w (pm_assets s)) /\
  forall id m u s', Markets (pm_commons s) !! id = Some m -> close_market id s = (Ok u, s') ->
    Markets (pm_commons s') !! id = Some (set_status Closed m).
Proof.
  intros Hr%reachable_inv. split_and!; [|exact (inv_covered _ _ Hr)|].
  - intros id m Hm. exact (map_Forall_lookup_1 _ _ _ _ (inv_shapes _ _ Hr) Hm).
  - intros id m u s' Hm Hc. by eapply close_keeps_record.
Qed.

(** C5. From a reachable state on, whatever is called and whatever the hook and
    the other pallets do: a market's status never goes back, only a proposed
    market disappears, a resolved market is never changed again, and a market
    that appears has an id that was never used before. *)
Theorem market_lifecycle s s' id : pm_reachable s -> rtc pm_step s s' ->
  life (default 0 (MarketCounter (pm_commons s))) id (Markets (pm_commons s) !! id) (Markets (pm_commons s') !! id).
Proof. intros Hi%reachable_inv Hr. exact (ev_life _ _ (inv_evolves _ _ (steps_inv _ _ _ Hr Hi)) id). Qed.

(** C9. In every reachable state the hook's closing of markets succeeds, and it
    ends exactly the open markets whose end is the current block or one of the
    time frames since the last run, of which it goes back twenty from the current
    one (so that up to twenty-one frames are covered): active ones become closed,
    proposed ones are removed, all other markets stay. *)
Theorem auto_close_complete n last current s : pm_reachable s ->
  exists s', market_status_manager n last current s = (Ok tt, s') /\
    forall id, Markets (pm_commons s') !! id = ended_at (due_slots n last current) (Markets (pm_commons s) !! id).
Proof. intros Hi%reachable_inv. destruct (manager_run _ n last current s Hi) as (s' & Hr & _ & Hv). by exists s'. Qed.

(** A failing resolution undoes the whole hook: nothing of the block's
    closings, of the time frames or of the event that should report it remains. *)
Theorem failed_resolution_loses_hook n s s1 e s2 : pm_reachable s -> 1 < n ->
  let current := saturating_add 64 (calculate_time_frame_of_moment (pm_now s)) 1 in
  market_status_manager n (default (saturating_sub current 1) (LastTimeFrame s)) current s = (Ok tt, s1) ->
  resolution_manager n s1 = (Err e, s2) -> pm_on_initialize n s = s.
Proof.
  intros _ Hn current H1 H2. unfold pm_on_initialize. rewrite (proj2 (Z.leb_gt n 1)) by lia. unfold with_transaction.
  fold current. by rewrite H1, H2.
Qed.

(** Closing by hand a proposed market whose time has passed always fails: the
    market is removed before its end is rewritten. *)
Theorem manual_close_of_proposed_fails origin id m s :
  Markets (pm_commons s) !! id = Some m -> status m = Proposed ->
  exists e, manually_close_market origin id s = (Err e, s).
Proof.
  intros Hm Hst. destruct (manually_close_market origin id s) as [[u|e] s'] eqn:Hr.
  2:{ exists e. by apply transactional_err in Hr as ->. }
  exfalso. apply transactional_ok, bind_ok in Hr as (w & s1 & [_ ->]%lift_ok & Hr).
  apply bind_ok in Hr as (m0 & s1 & [Hm0 ->]%pm_market_ok & Hr). apply bind_ok in Hr as (s0 & s1 & [-> ->]%get_ok & Hr).
  assert (m0 = m) as -> by (change (Markets (pm_commons s) !! id = Some m0) in Hm0; congruence).
  destruct (period m) as [a b|a stop]; [done|]. destruct (stop <=? pm_now s); [|done].
  apply bind_ok in Hr as (pos & s1 & _ & Hr). apply bind_ok in Hr as (u1 & s2 & _ & Hr).
  apply bind_ok in Hr as (u3 & s3 & H3 & Hr). unfold on_market_close in H3. rewrite Hst in H3.
  apply bind_ok in Hr as (s4 & s5 & [-> ->]%get_ok & Hr). apply mutate_ok in Hr as (m1 & m2 & Hm1 & _).
  do 3 apply bind_ok in H3 as (? & ? & _ & H3). apply bind_ok in H3 as (u4 & s6 & H4 & H3).
  apply bind_ok in H3 as (u5 & s7 & [_ ->]%modify_ok & [_ ->]%modify_ok).
  apply pm_on_commons_ok in H4 as (c & Hc & ->). apply bind_ok in Hc as (c0 & c1 & [-> ->]%get_ok & Hc).
  case_bool_decide; [|done]. apply modify_ok in Hc as [_ ->]. cbn in Hm1. by rewrite lookup_delete_eq in Hm1.
Qed.

(** Closing writes back the market it read before it released the bonds of an
    early close: they stay on record as open. *)
Theorem close_forgets_settlement id m s u s' : pm_reachable s -> Markets (pm_commons s) !! id = Some m ->
  close_market id s = (Ok u, s') -> Markets (pm_commons s') !! id = Some (set_status Closed m).
Proof. intros Hi%reachable_inv. by apply (close_keeps_record _ _ _ _ _ _ Hi). Qed.
End AllRuns.
