(* ===== verification/PmRedeem.v ===== *)
(** * The prediction-markets pallet: payouts, redemption and relayed calls

    What a complete set of a scalar market pays, what redeeming burns and takes
    from the market's account, and the agreement of the relayed calls with the check the
    proxy pallet makes of them. *)

From S2P Require Import Prelude Errors FixedMath Collections Interfaces Market MultiCurrency CompleteSets.
From S2P Require Import PredictionMarkets PmCalls PmInv.

(** ** Payouts of scalar markets *)

Section Payouts.
Context `{PmConfig} `{!PerThingsLaws}.

Lemma from_rational_le p q : 0 <= p -> 0 < q -> 0 <= perbill_from_rational p q <= 10 ^ 9.
Proof.
  intros Hp Hq. rewrite perbill_from_rational_spec by lia. rewrite (Z.max_l q 1) by lia. split.
  - apply Z.div_pos; [|lia]. apply Z.mul_nonneg_nonneg; [lia|by vm_compute].
  - apply Z.div_le_upper_bound; [lia|]. apply Z.mul_le_mono_nonneg_r; [by vm_compute|lia].
Qed.
Lemma from_rational_mono p p' q : 0 <= p <= p' -> 0 < q -> perbill_from_rational p q <= perbill_from_rational p' q.
Proof.
  intros Hp Hq. rewrite !perbill_from_rational_spec by lia. apply Z.div_le_mono; [lia|].
  apply Z.mul_le_mono_nonneg_r; [by vm_compute|lia].
Qed.

Lemma calc_payouts_sum v low high :
  let '(long, short) := calc_payouts v low high in 0 <= long /\ 0 <= short /\ long + short = 10 ^ 9.
Proof.
  unfold calc_payouts. destruct (Z.leb_spec v low); [done|]. destruct (Z.leb_spec high v); [done|].
  pose proof (from_rational_le (saturating_sub v low) (saturating_sub high low)) as Hl.
  unfold saturating_sub in *. specialize (Hl ltac:(lia) ltac:(lia)). lia.
Qed.

Lemma floor_split p q x : 0 <= p -> 0 <= q -> p + q = 10 ^ 9 -> 0 <= x ->
  x - 1 <= p * x / 10 ^ 9 + q * x / 10 ^ 9 <= x.
Proof.
  intros Hp Hq Hpq Hx. assert (Hb : 10 ^ 9 = 1000000000) by done. rewrite Hb in *.
  pose proof (Z.div_mod (p * x) 1000000000 ltac:(lia)). pose proof (Z.div_mod (q * x) 1000000000 ltac:(lia)).
  pose proof (Z.mod_pos_bound (p * x) 1000000000 ltac:(lia)). pose proof (Z.mod_pos_bound (q * x) 1000000000 ltac:(lia)). nia.
Qed.

(** C18. Whatever value a scalar market resolves to, the long and the short token
    together pay a whole: a complete set of [x] of each pays [x], short of at most
    one unit for rounding and never more; the share of long never falls when the
    value rises. *)
Theorem scalar_payouts v v' low high x : low < high -> 0 <= x -> v <= v' ->
  let '(long, short) := calc_payouts v low high in
  x - 1 <= perbill_mul_floor long x + perbill_mul_floor short x <= x /\
  long <= (calc_payouts v' low high).1 /\ (calc_payouts v' low high).2 <= short.
Proof.
  intros Hlh Hx Hv. pose proof (calc_payouts_sum v low high) as Hs. pose proof (calc_payouts_sum v' low high) as Hs'.
  destruct (calc_payouts v low high) as [l sh] eqn:Hc. destruct (calc_payouts v' low high) as [l' sh'] eqn:Hc'.
  destruct Hs as (Hl & Hsh & Hsum), Hs' as (Hl' & Hsh' & Hsum'). cbn [fst snd]. split.
  - rewrite !perbill_mul_floor_spec by lia. by apply floor_split.
  - assert (l <= l'); [|lia]. unfold calc_payouts in Hc, Hc'.
    destruct (Z.leb_spec v low), (Z.leb_spec high v), (Z.leb_spec v' low), (Z.leb_spec high v'); simplify_eq; try lia.
    apply from_rational_mono; unfold saturating_sub; lia.
Qed.
End Payouts.

(** ** Redemption *)

(** What the pallet expects of the handler of winner fees: at most the amount,
    in the asset and from the account it names, which may be reaped. *)
Class WinnerFeeLaws `{PmConfig} : Prop := {
  winner_fee_part : forall r m a x v l, 0 <= v ->
    let '(paid, l') := winner_fee r m a x v l in
    0 <= paid <= v /\ mc_free_balance a x l - paid - dust a <= mc_free_balance a x l' /\
    (forall b w, (b, w) <> (a, x) -> mc_free_balance b w l <= mc_free_balance b w l') /\
    forall b w, b <> a -> mc_free_balance b w l' = mc_free_balance b w l }.

Section Redeem.
Context `{PmConfig} `{!MultiCurrencyLaws PmAssets} `{!WinnerFeeLaws} `{!PerThingsLaws}.

(** All of an account's tokens are slashed, and no other asset. *)
Lemma slash_all c w l : mc_free_balance c w (mc_slash c w (mc_free_balance c w l) l).2 = 0.
Proof.
  pose proof (free_nonneg l c w).
  destruct (slash_debit c w _ l _ _ (conj (free_nonneg l c w) (Z.le_refl _)) (surjective_pairing _)) as [_ ->]; [left|]; lia.
Qed.

(** One line of a redemption burns the tokens, takes at most the payout (and
    twice the dust, for the fee and for the payment) from the market, and moves
    no other asset. *)
Lemma redeem_one_run who id m c p b s u s' : 0 <= p -> c <> base_asset m ->
  b = mc_free_balance c who (pm_assets s) -> redeem_one who id m (c, p, b) s = (Ok u, s') ->
  mc_free_balance (base_asset m) (market_account id) (pm_assets s) - p - 2 * dust (base_asset m)
    <= mc_free_balance (base_asset m) (market_account id) (pm_assets s') /\
  mc_free_balance c who (pm_assets s') = 0 /\
  forall d w, d <> base_asset m -> d <> c -> mc_free_balance d w (pm_assets s') = mc_free_balance d w (pm_assets s).
Proof.
  intros Hp Hne ->. set (x := market_account id). set (a := base_asset m) in *.
  intros (u0 & s1 & [_ ->]%modify_ok & Hr)%bind_ok. apply bind_ok in Hr as (s0 & s1 & [-> ->]%get_ok & Hr).
  pose proof (slash_all c who (pm_assets s)) as Hburn. set (l1 := (mc_slash c who _ (pm_assets s)).2) in *.
  assert (Hl1 : forall d w, d <> c -> mc_free_balance d w l1 = mc_free_balance d w (pm_assets s)).
  { intros d w Hd. by eapply slash_assets; [apply surjective_pairing|]. }
  change (pm_assets (set_pm_assets l1 s)) with l1 in Hr. fold a x in Hr.
  set (pay := Z.min p (mc_free_balance a x l1)) in Hr. pose proof (free_nonneg l1 a x) as Hf1.
  assert (Hpay : 0 <= pay <= p) by (unfold pay; lia). pose proof (dust_nonneg a).
  apply bind_ok in Hr as (v & s2 & Hq2 & Hr). cbv zeta in Hq2. fold a x pay in Hq2.
  assert (Hs2 : 0 <= v <= pay /\ mc_free_balance a x l1 - (pay - v) - dust a <= mc_free_balance a x (pm_assets s2) /\
    forall d w, d <> a -> mc_free_balance d w (pm_assets s2) = mc_free_balance d w l1).
  { case_bool_decide.
    - apply mret_ok in Hq2 as [-> ->]. change (pm_assets (set_pm_assets l1 s)) with l1. split_and!; (done || lia).
    - pose proof (winner_fee_part (winnings_fee_account (set_pm_assets l1 s)) id a x pay l1 (proj1 Hpay)) as Hw.
      destruct (winner_fee _ id a x pay l1) as [paid l2].
      apply bind_ok in Hq2 as (u1 & s3 & [_ ->]%modify_ok & [-> ->]%mret_ok). destruct Hw as (Hpd & Hd & _ & Ho).
      change (pm_assets (set_pm_assets l2 (set_pm_assets l1 s))) with l2. unfold saturating_sub. split_and!; (done || lia). }
  destruct Hs2 as (Hv & Hs2 & Ho2). apply bind_ok in Hr as (u2 & s3 & (l3 & Ht & ->)%pm_on_assets_ok & Hr).
  assert (Hs' : pm_assets s' = l3) by (case_match; [by apply mret_ok in Hr as [_ ->]|by apply modify_ok in Hr as [_ ->]]).
  rewrite Hs'. fold a x in Ht. pose proof (transfer_lower_dust _ _ _ _ _ _ _ (proj1 Hv) Ht).
  assert (Ho3 : forall d w, d <> a -> mc_free_balance d w l3 = mc_free_balance d w l1).
  { intros d w Hd. rewrite (transfer_assets _ _ _ _ _ _ _ d w Ht Hd). by apply Ho2. }
  split_and!; [rewrite <- (Hl1 a x) by done; lia|by rewrite Ho3|]. intros d w Hd Hdc. rewrite Ho3 by done. by apply Hl1.
Qed.

(** What the tokens of [who] are worth, and how many kinds of them there are. *)
Definition redemption_value (who : AccountId) (id : Z) (m : Market) (o : OutcomeReport) (l : PmAssets) : Z :=
  match o with
  | Categorical c => mc_free_balance (CategoricalOutcome id c) who l
  | Scalar v =>
      match market_type m with
      | ScalarType low high =>
          let '(long, short) := calc_payouts v low high in
          perbill_mul_floor long (mc_free_balance (ScalarOutcome id Long) who l) +
          perbill_mul_floor short (mc_free_balance (ScalarOutcome id Short) who l)
      | CategoricalType _ => 0
      end
  end.
Definition redeemed_assets (id : Z) (o : OutcomeReport) : list Asset :=
  match o with Categorical c => [CategoricalOutcome id c] | Scalar _ => [ScalarOutcome id Long; ScalarOutcome id Short] end.

Lemma perbill_floor_nonneg p x : 0 <= p <= 10 ^ 9 -> 0 <= x -> 0 <= perbill_mul_floor p x.
Proof. intros Hp Hx. rewrite perbill_mul_floor_spec by done. apply Z.div_pos; [|by vm_compute]. apply Z.mul_nonneg_nonneg; lia. Qed.

(** C17. A redemption that succeeds, of a categorical or a scalar market whose
    base asset is none of its outcome tokens, is of a resolved market and of some
    tokens of the resolved outcome the redeemer holds; it burns all of them and
    takes at most what they are worth from the market's account: a unit of the
    base asset for every winning token, or for every long and every short token
    its share of a unit rounded down.  Where those payments make the account fall
    below the minimum balance, at most that balance less one is swept up with
    each of them (the fee and the payment, once for every kind of token). *)
Theorem redeem_bounded who id m s u s' : Markets (pm_commons s) !! id = Some m ->
  (forall o, base_asset m ∉ redeemed_assets id o) ->
  do_redeem who id s = (Ok u, s') ->
  status m = Resolved /\ exists o, resolved_outcome m = Some o /\
    (exists a, a ∈ redeemed_assets id o /\ 0 < mc_free_balance a who (pm_assets s)) /\
    (forall a, a ∈ redeemed_assets id o -> mc_free_balance a who (pm_assets s') = 0) /\
    mc_free_balance (base_asset m) (market_account id) (pm_assets s) - redemption_value who id m o (pm_assets s)
      - 2 * Z.of_nat (length (redeemed_assets id o)) * dust (base_asset m)
    <= mc_free_balance (base_asset m) (market_account id) (pm_assets s').
Proof.
  intros Hm Hba (m0 & s1 & [Hm0 ->]%pm_market_ok & Hr)%bind_ok.
  assert (m0 = m) as -> by (change (Markets (pm_commons s) !! id = Some m0) in Hm0; congruence).
  apply bind_ok in Hr as (u1 & s1 & [Hst%ensure_ok%bool_decide_eq_true ->]%lift_ok & Hr). split; [done|].
  apply bind_ok in Hr as (u2 & s1 & [_ ->]%lift_ok & Hr).
  apply bind_ok in Hr as (o & s1 & [Ho%ok_or_ok ->]%lift_ok & Hr). exists o. split; [done|]. specialize (Hba o).
  apply bind_ok in Hr as (s0 & s1 & [-> ->]%get_ok & Hr). apply bind_ok in Hr as (ws & s1 & [Hw ->]%lift_ok & Hr).
  pose proof (fun a => free_nonneg (pm_assets s) a who) as Hnn. destruct o as [c|v].
  - apply result_bind_ok in Hw as (u3 & Hpos%ensure_ok%Z.ltb_lt & Hw).
    apply result_bind_ok in Hw as (u4 & _ & [= <-]). apply bind_ok in Hr as (u5 & s2 & Hq2 & [_ ->]%mret_ok).
    cbn in Hba. apply redeem_one_run in Hq2 as (Hd & Hz & _); [|done|set_solver|done].
    split; [exists (CategoricalOutcome id c); cbn; set_solver|]. cbn -[Z.mul]. split; [|lia]. intros a ->%list_elem_of_singleton. done.
  - apply result_bind_ok in Hw as (u3 & Hpos%ensure_ok & Hw). unfold redemption_value. destruct (market_type m) as [k|low high]; [done|].
    pose proof (calc_payouts_sum v low high) as Hc. destruct (calc_payouts v low high) as [lg sh].
    apply result_bind_ok in Hw as (u4 & _ & [= <-]). apply bind_ok in Hr as (u5 & s2 & Hq2 & Hr).
    apply bind_ok in Hr as (u6 & s3 & Hq3 & [_ ->]%mret_ok). cbn in Hba.
    apply redeem_one_run in Hq2 as (Hd2 & Hz2 & Hk2); [|apply perbill_floor_nonneg; [lia|done]|set_solver|done].
    apply redeem_one_run in Hq3 as (Hd3 & Hz3 & Hk3); [|apply perbill_floor_nonneg; [lia|done]|set_solver|by rewrite Hk2 by set_solver].
    split; [|split].
    + apply orb_true_iff in Hpos as [?%Z.ltb_lt|?%Z.ltb_lt]; [exists (ScalarOutcome id Long)|exists (ScalarOutcome id Short)]; cbn; set_solver.
    + intros a Ha. cbn in Ha. apply elem_of_cons in Ha as [-> | ->%list_elem_of_singleton]; [|done]. by rewrite Hk3 by set_solver.
    + cbn -[Z.mul]. lia.
Qed.
End Redeem.

(** ** Relayed calls and the proxy *)

Section Relayed.
Context `{PmConfig}.
Abbreviation PmM := (ST DispatchError PmState).

(** The dispatchable behind a call, what it does once its signature is checked,
    and its error when it is not. *)
Definition dispatch (origin : Origin) (call : PmCall) : PmM unit :=
  match call with
  | call_create p ba fee orc per dl md ty dm x sp f =>
      signed_create_market_and_deploy_pool origin p ba fee orc per dl md ty dm x sp f
  | call_report p id o => signed_report origin p id o
  | call_withdraw p t x => signed_withdraw_tokens origin p t x
  | call_transfer p t to x => signed_transfer_asset origin p t to x
  | call_redeem p id => signed_redeem_shares origin p id
  | call_buy_set p id x => signed_buy_complete_set origin p id x
  | call_other => mret tt
  end.
Definition body (call : PmCall) (who : AccountId) : PmM unit :=
  match call with
  | call_create p ba fee orc per dl md ty dm x sp f =>
      do_create_market_and_deploy_pool who ba fee orc per dl md ty dm x sp f ;; bump_user_nonce who
  | call_report p id o => bump_market_nonce who id ;; do_report who (Signed who) o id
  | call_withdraw p t x => do_withdraw_tokens t who x ;; bump_user_nonce who
  | call_transfer p t to x => do_transfer_tokens t who to x ;; bump_user_nonce who
  | call_redeem p id => do_redeem who id ;; bump_market_nonce who id
  | call_buy_set p id x => pm_on_sets (do_buy_complete_set who id x) ;; bump_market_nonce who id ;; m ← pm_market id; mret tt
  | call_other => mret tt
  end.
Definition unauthorized (call : PmCall) : PredictionMarketsError :=
  match call with
  | call_create _ _ _ _ _ _ _ _ _ _ _ _ => UnauthorizedSignedCreateMarketTransaction
  | call_report _ _ _ => UnauthorizedSignedReportTransaction
  | call_withdraw _ _ _ => UnauthorizedSignedWithdrawTransaction
  | call_transfer _ _ _ _ => UnauthorizedSignedTransferTransaction
  | _ => UnauthorizedSignedRedeemTransaction
  end.

Lemma check_signed_run who proof payload e s (f : AccountId -> PmM unit) : who = signer proof ->
  transactional (check_signed (Signed who) proof payload e ≫= f) s =
  if pm_verify_signature proof (payload s) then transactional (f who) s else (Err (pm_error e), s).
Proof.
  intros ->. unfold check_signed, transactional, mbind, st_bind, lift, get. cbn. rewrite bool_decide_eq_true_2 by done. cbn.
  by destruct (pm_verify_signature proof (payload s)).
Qed.
Lemma check_signed_other who proof payload e s (f : AccountId -> PmM unit) : who <> signer proof ->
  transactional (check_signed (Signed who) proof payload e ≫= f) s = (Err (pm_error PmSenderIsNotSigner), s).
Proof.
  intros Hne. unfold check_signed, transactional, mbind, st_bind, lift, get, ensure_signed, ensure.
  by rewrite bool_decide_eq_false_2.
Qed.

(** The check the proxy makes of a relayed call and the one the call makes
    itself agree: sent by its signer, the call runs exactly when the proxy finds
    its signature valid, and otherwise fails as unauthorized and changes nothing;
    sent by anyone else it fails. *)
Theorem proxy_check_agrees call proof payload s : pm_encoded_call_param call s = Some (proof, payload) ->
  dispatch (Signed (signer proof)) call s =
    (if pm_signature_is_valid call s then transactional (body call (signer proof)) s else (Err (pm_error (unauthorized call)), s)) /\
  forall who, who <> signer proof -> dispatch (Signed who) call s = (Err (pm_error PmSenderIsNotSigner), s).
Proof.
  intros Hp. split.
  - unfold pm_signature_is_valid. rewrite Hp. destruct call; cbn in Hp; try done; injection Hp as <- <-;
      (etransitivity; [by apply check_signed_run|reflexivity]).
  - intros who Hne. destruct call; cbn in Hp; try done; injection Hp as <- _;
      (etransitivity; [by apply check_signed_other|reflexivity]).
Qed.
End Relayed.
