(* ===== verification/PmDemo.v ===== *)
(** * The prediction-markets pallet: runs

    The pallet over the reference ledger, with the runtime's winner fee and
    dispute mechanisms that do nothing: concrete runs, and instances of the
    theorems on it. *)

From S2P Require Import Prelude Errors FixedMath Collections Interfaces ReferenceEnv DisputeQueue Market MultiCurrency Fees.
From S2P Require Import CompleteSets PredictionMarkets PmCalls PmInv PmSchedule PmLife PmMoves PmRuns PmHook PmRedeem.

(** ** The environment *)

Definition pm_demo_id : Z := 9.

#[global] Instance demo_bond_currency : BondCurrency RefAssets := {|
  Imbalance := Z;
  imbalance_zero := 0;
  imbalance_subsume := Z.add;
  cur_unreserve_named r w v l := ra_release r Tru w w v l;
  cur_slash_reserved_named r w v l :=
    let taken := Z.min v (ra_reserved_of r Tru w l) in
    ((taken, v - taken), ra_set_reserved r Tru w (ra_reserved_of r Tru w l - taken) l);
  cur_repatriate_reserved_named r x y v l := let '(m, l') := ra_release r Tru x y v l in (Ok m, l');
  cur_resolve_creating w i l := ra_add Tru w i l;
  slash_on_unbalanced i l := l |}.

#[global] Instance demo_mechanisms : DisputeMechanisms RefAssets := {|
  DisputeState := unit;
  dm_on_dispute c n d i m w := (Ok tt, w);
  dm_on_resolution c n d i m w := (Ok None, w);
  dm_exchange c n d i m o b w := (Ok b, w);
  dm_get_auto_resolve d i m st := None;
  dm_has_failed c n d i m st := Ok false;
  dm_on_global_dispute c n d i m w := (Ok [], w);
  gd_does_exist i st := false;
  gd_determine_voting_winner i w := (None, w);
  gd_start_global_dispute c n i l w := (Ok 0, w) |}.

#[global] Instance demo_pools : DeployPools RefAssets := {|
  PoolState := unit;
  dp_deploy_pool c n a w i x l f st := (Ok tt, st) |}.

#[global] Instance demo_tokens : TokenInterface := {|
  TokenState := unit;
  deposit_tokens t w x st := (Ok tt, st);
  token_process_lift e st := (Ok tt, st) |}.

Definition demo_pm_encode (x : PmSigned) : list Z :=
  match x with
  | SignedCreate r n _ _ _ _ _ _ _ _ a _ _ => [0; Z.of_N r; n; a]
  | SignedReport r n i _ => [1; Z.of_N r; n; i]
  | SignedWithdraw r n t o a => [2; Z.of_N r; n; t; Z.of_N o; a]
  | SignedTransfer r n t a b x => [3; Z.of_N r; n; t; Z.of_N a; Z.of_N b; x]
  | SignedRedeem r n i => [4; Z.of_N r; n; i]
  | SignedBuySet r n i a => [5; Z.of_N r; n; i; a]
  end.

Definition is_root (o : Origin) : bool := match o with Root => true | _ => false end.

#[global] Instance demo_pm : PmConfig := {|
  PmAssets := RefAssets;
  pm_multi_currency := ref_assets;
  pm_currency := demo_bond_currency;
  pm_per_things := ref_per_things;
  pm_market_accounts := fun m => Npos (encode m)~1~0;
  pm_dispute_mechanisms := demo_mechanisms;
  pm_deploy_pools := demo_pools;
  pm_token_interface := demo_tokens;
  pm_reserve_id := pm_demo_id;
  ApproveOrigin := is_root;
  CloseOrigin := is_root;
  CloseMarketEarlyOrigin := is_root;
  RejectOrigin := is_root;
  RequestEditOrigin := is_root;
  ResolveOrigin := is_root;
  AdvisoryBond := 200;
  AdvisoryBondSlashPercentage := 30;
  ValidityBond := 50;
  OracleBond := 80;
  OutsiderBond := 160;
  DisputeBond := 300;
  CloseEarlyRequestBond := 40;
  CloseEarlyDisputeBond := 60;
  CloseEarlyProtectionTimeFramePeriod := 6000;
  CloseEarlyProtectionBlockPeriod := 5;
  CloseEarlyBlockPeriod := 10;
  CloseEarlyTimeFramePeriod := 60000;
  MinCategories := 2;
  MaxCategories := 64;
  MaxCreatorFee := 10 ^ 7;
  MinDisputeDuration := 10;
  MaxDisputeDuration := 1000;
  MinOracleDuration := 10;
  MaxOracleDuration := 1000;
  MaxGracePeriod := 1000;
  MaxMarketLifetime := 100000;
  MaxRejectReasonLen := 1024;
  MaxEditReasonLen := 1024;
  winner_fee r m a y v l := winner_fee_distribute r (5 * 10 ^ 7) m a y v l;
  pm_encode := demo_pm_encode;
  pm_verify_signature pf x := signature pf =? Z.pos (encode x) |}.

Lemma release_keeps r w y v l x : 0 <= v <= ra_reserved_of r Tru w l ->
  ra_reserved_of r Tru x l - (if decide (x = w) then v else 0) <= ra_reserved_of r Tru x (ra_release r Tru w y v l).2.
Proof.
  intros Hv. destruct (ra_release r Tru w y v l) as [m l'] eqn:Hr.
  apply ra_release_spec in Hr as (-> & Hl & _); [|lia]. cbn [snd]. rewrite Hl. unfold at_entry.
  repeat case_decide; simplify_eq; lia.
Qed.

#[global] Instance demo_pm_laws : PmLaws.
Proof.
  split; cbn -[ra_release Z.pow]; try (intros; simplify_eq; cbn; lia).
  - apply ref_assets_laws.
  - intros. by apply release_keeps.
  - intros w v l x Hv. rewrite ra_set_reserved_of by lia. unfold at_entry. repeat case_decide; simplify_eq; lia.
  - intros w y v l x Hv. pose proof (release_keeps pm_demo_id w y v l x Hv). by destruct (ra_release pm_demo_id Tru w y v l).
  - intros w i l x. change (ra_reserved_of pm_demo_id Tru x (ra_add Tru w i l)) with (ra_reserved_of pm_demo_id Tru x l). lia.
  - intros r m a y v l x. unfold winner_fee_distribute, winner_fee_do_distribute, mbind, st_bind, lift.
    destruct r as [rc|]; [|cbn; lia]. cbn -[mc_transfer Z.pow].
    destruct (mc_transfer a y rc (5 * 10 ^ 7 * v / 10 ^ 9) l) as [res l'] eqn:Ht.
    pose proof (transfer_reserved _ _ _ _ _ _ _ pm_demo_id Tru x Ht) as Hk. cbn in Hk. destruct res; cbn; lia.
  - by intros a x v l m l' y [= <- <-].
  - repeat constructor; lia.
  - by vm_compute.
  - intros v Hv. split; [apply Z.div_pos; lia|apply Z.div_le_upper_bound; lia].
Qed.

#[global] Instance demo_fee_laws : WinnerFeeLaws.
Proof. split. intros r m a x v l Hv. by apply winner_fee_charged. Qed.

(** ** A run *)

Definition alice : AccountId := 1%N.
Definition bob : AccountId := 3%N.

(** Funded accounts, an administrator, a whitelisted creator. *)
Definition pm_genesis : PmState :=
  mkPm (mkCs (mkAssets (list_to_map [((Tru, alice), 10000); ((Tru, bob), 5000); ((ForeignAsset 5, alice), 900)]) ∅) (mkCommons ∅ None ∅) [])
    ∅ ∅ None ∅ ∅ ∅ ∅ ∅ (Some alice) {[ alice ]} None (Some 99%N) None ∅ tt tt tt
    (mkRegistry (fun _ => None) (fun a => if decide (a = ForeignAsset 5) then Some (10, true) else None)) 2 12000 [].

Definition demo_metadata : list Z := [0x15; 0x30; 7].
Definition demo_deadlines : Deadlines := mkDeadlines 0 10 10.
Definition demo_create (c : MarketCreation) (p : MarketPeriod) (d : option MarketDisputeMechanism) : ST DispatchError PmState unit :=
  create_market (Signed alice) Tru 0 bob p
    (match d with Some _ => demo_deadlines | None => mkDeadlines 0 10 0 end) demo_metadata c (CategoricalType 2) d AmmCdaHybrid.

(** Market 0 is active until block 20, market 1 proposed until a moment. *)
Definition pm_demo1 : PmState := exec (demo_create Permissionless (BlockPeriod 0 20) None) pm_genesis.
Definition pm_demo2 : PmState := exec (demo_create Advised (TimestampPeriod 0 30000) (Some Authorized)) pm_demo1.

Lemma pm_demo_reach c s s' : pm_reachable s -> pm_call c -> c s = (Ok tt, s') -> pm_reachable s'.
Proof.
  intros (s0 & Hs0 & Hr) Hc He. exists s0. split; [done|]. eapply rtc_r; [exact Hr|]. by eapply step_call.
Qed.
Lemma pm_genesis_reachable : pm_reachable pm_genesis.
Proof. exists pm_genesis. split; [done|apply rtc_refl]. Qed.
Lemma pm_demo1_reachable : pm_reachable pm_demo1.
Proof.
  eapply pm_demo_reach; [apply pm_genesis_reachable|apply op_create|]. apply exec_ok. vm_compute. reflexivity.
Qed.
Lemma pm_demo2_reachable : pm_reachable pm_demo2.
Proof. eapply pm_demo_reach; [apply pm_demo1_reachable|apply op_create|]. apply exec_ok. vm_compute. reflexivity. Qed.

Example demo_bonds : mc_reserved pm_demo_id Tru alice (pm_assets pm_demo2) = 410.
Proof. vm_compute. reflexivity. Qed.

(** ** The theorems at work *)

Lemma bonds_backed_witness :
  (forall id m, Markets (pm_commons pm_demo2) !! id = Some m -> market_ok m) /\
  (forall w, map_sum (owed w <$> Markets (pm_commons pm_demo2)) <= mc_reserved pm_demo_id Tru w (pm_assets pm_demo2)) /\
  forall m, Markets (pm_commons pm_demo2) !! 0 = Some m ->
    Markets (pm_commons (exec (close_market 0) pm_demo2)) !! 0 = Some (set_status Closed m).
Proof.
  destruct (bonds_backed pm_demo2 pm_demo2_reachable) as (Hok & Hcov & Hcl). split; [exact Hok|]. split; [exact Hcov|].
  intros m Hm. apply (Hcl 0 m tt (exec (close_market 0) pm_demo2) Hm). apply exec_ok. vm_compute. reflexivity.
Defined.

Lemma market_lifecycle_witness :
  life 1 1 None (Markets (pm_commons pm_demo2) !! 1) /\
  life 1 0 (Markets (pm_commons pm_demo1) !! 0) (Markets (pm_commons pm_demo2) !! 0).
Proof.
  assert (Hr : rtc pm_step pm_demo1 pm_demo2).
  { apply rtc_once. eapply step_call; [apply op_create|]. apply exec_ok. vm_compute. reflexivity. }
  split; [exact (market_lifecycle pm_demo1 pm_demo2 1 pm_demo1_reachable Hr)|].
  exact (market_lifecycle pm_demo1 pm_demo2 0 pm_demo1_reachable Hr).
Defined.

(** At block 20 market 0 is closed and, five frames on, market 1 expires. *)
Lemma auto_close_complete_witness :
  (exists s', market_status_manager 20 3 6 pm_demo2 = (Ok tt, s') /\
    forall id, Markets (pm_commons s') !! id = ended_at (due_slots 20 3 6) (Markets (pm_commons pm_demo2) !! id)) /\
  status <$> ended_at (due_slots 20 3 6) (Markets (pm_commons pm_demo2) !! 0) = Some Closed /\
  ended_at (due_slots 20 3 6) (Markets (pm_commons pm_demo2) !! 1) = None.
Proof.
  split; [exact (auto_close_complete 20 3 6 pm_demo2 pm_demo2_reachable)|]. split; vm_compute; reflexivity.
Defined.

(** A dispute pallet has left an id without a market in the queue of block 20. *)
Definition pm_stuck : PmState := set_pm_dispute_queue {[ 20 := [7] ]} pm_demo2.
Lemma spares_dispute_queue q s : spares s (set_pm_dispute_queue q s).
Proof. split; [done|]. intros w. apply Z.le_refl. Qed.
Lemma pm_stuck_reachable : pm_reachable pm_stuck.
Proof.
  destruct pm_demo2_reachable as (s0 & Hs0 & Hr). exists s0. split; [done|]. eapply rtc_r; [exact Hr|].
  apply step_elsewhere, spares_dispute_queue.
Qed.
Lemma failed_resolution_loses_hook_witness : pm_on_initialize 20 pm_stuck = pm_stuck /\
  (exists m, Markets (pm_commons pm_stuck) !! 0 = Some m /\ market_slot m = (true, 20) /\ status m = Active).
Proof.
  split.
  - destruct (market_status_manager 20 2 3 pm_stuck) as [r s1] eqn:H1.
    assert (Hr : r = Ok tt) by (change r with (r, s1).1; rewrite <- H1; vm_compute; reflexivity). subst r.
    destruct (resolution_manager 20 s1) as [r2 s2] eqn:H2.
    assert (exists e, r2 = Err e) as [e ->].
    { change r2 with (r2, s2).1. rewrite <- H2. change s1 with (Ok tt : Res unit, s1).2. rewrite <- H1.
      eexists. vm_compute. reflexivity. }
    eapply (failed_resolution_loses_hook 20 pm_stuck s1 e s2 pm_stuck_reachable); [lia|exact H1|exact H2].
  - eexists. split; [vm_compute; reflexivity|]. split; vm_compute; reflexivity.
Defined.

(** The proposed market 1 after its end. *)
Definition pm_late : PmState := set_pm_now 40000 pm_demo2.
Lemma manual_close_of_proposed_fails_witness : exists e, manually_close_market (Signed bob) 1 pm_late = (Err e, pm_late).
Proof.
  destruct (Markets (pm_commons pm_late) !! 1) as [m|] eqn:Hm; [|by vm_compute in Hm].
  eapply (manual_close_of_proposed_fails (Signed bob) 1 m pm_late Hm).
  assert (status <$> Some m = Some Proposed) as [= Hst]; [|exact Hst]. rewrite <- Hm. vm_compute. reflexivity.
Defined.

Lemma scalar_payouts_witness : let '(long, short) := calc_payouts 30 0 100 in
  1000 - 1 <= perbill_mul_floor long 1000 + perbill_mul_floor short 1000 <= 1000 /\
  long <= (calc_payouts 60 0 100).1 /\ (calc_payouts 60 0 100).2 <= short.
Proof. exact (scalar_payouts 30 60 0 100 1000 ltac:(lia) ltac:(lia) ltac:(lia)). Defined.

(** A market in a foreign asset: sold, closed, reported by its oracle, redeemed. *)
Definition pm_sold : PmState :=
  exec (create_market (Signed alice) (ForeignAsset 5) 0 bob (BlockPeriod 0 20) (mkDeadlines 0 10 0) demo_metadata
    Permissionless (CategoricalType 2) None AmmCdaHybrid ;; pm_buy_complete_set (Signed alice) 0 300) pm_genesis.
Definition pm_over : PmState := pm_on_initialize 20 (set_pm_block 20 pm_sold).
Definition pm_resolved : PmState := exec (pm_report (Signed bob) 0 (Categorical 1)) pm_over.

Example pm_resolved_status : status <$> Markets (pm_commons pm_resolved) !! 0 = Some Resolved.
Proof. vm_compute. reflexivity. Qed.

Lemma foreign_not_redeemed n id o : ForeignAsset n ∉ redeemed_assets id o.
Proof. destruct o; cbn; set_solver. Qed.

Lemma redeem_bounded_witness : exists m s',
  Markets (pm_commons pm_resolved) !! 0 = Some m /\ do_redeem alice 0 pm_resolved = (Ok tt, s') /\
  mc_free_balance (CategoricalOutcome 0 1) alice (pm_assets s') = 0 /\
  mc_free_balance (base_asset m) (market_account 0) (pm_assets pm_resolved) - 300
    <= mc_free_balance (base_asset m) (market_account 0) (pm_assets s').
Proof.
  destruct (Markets (pm_commons pm_resolved) !! 0) as [m|] eqn:Hm; [|by vm_compute in Hm].
  assert (Hr : do_redeem alice 0 pm_resolved = (Ok tt, exec (do_redeem alice 0) pm_resolved)).
  { apply exec_ok. vm_compute. reflexivity. }
  assert ((fun m => (base_asset m, resolved_outcome m)) <$> Some m = Some (ForeignAsset 5, Some (Categorical 1))) as [= Hba Hro].
  { rewrite <- Hm. vm_compute. reflexivity. }
  exists m, (exec (do_redeem alice 0) pm_resolved). split; [done|]. split; [exact Hr|].
  destruct (redeem_bounded alice 0 m pm_resolved tt (exec (do_redeem alice 0) pm_resolved) Hm)
    as (_ & o & Ho & _ & Hz & Hb); [|exact Hr|].
  { intros o. rewrite Hba. apply foreign_not_redeemed. }
  rewrite Hro in Ho. injection Ho as <-. split; [exact (Hz _ (list_elem_of_here _ _))|].
  assert (Hbal : redemption_value alice 0 m (Categorical 1) (pm_assets pm_resolved) = 300) by (vm_compute; reflexivity).
  rewrite Hbal, Hba in Hb. rewrite Hba. change (dust (ForeignAsset 5)) with 0 in Hb. rewrite Z.mul_0_r, Z.sub_0_r in Hb. exact Hb.
Defined.

Lemma proxy_check_agrees_witness : let proof := mkProof alice bob 5 in
  dispatch (Signed alice) (call_redeem proof 0) pm_resolved = (Err (pm_error UnauthorizedSignedRedeemTransaction), pm_resolved).
Proof.
  intros proof. destruct (proxy_check_agrees (call_redeem proof 0) proof _ pm_resolved eq_refl) as [Hd _].
  etransitivity; [exact Hd|]. reflexivity.
Defined.
