(* ===== verification/CourtTypes.v ===== *)
(** * The court pallet: data, configuration and storage

    [pallets/court/src/types.rs] and the [Config], storage and event
    declarations of [pallets/court/src/lib.rs].  Balances and ids are [u128],
    block numbers and draw weights [u32], hashes and lookup sources numbers.
    The storage record also carries the state the pallet reaches through its
    [Config]: the block number, the ledger, the markets, the resolution queue
    and the events deposited so far. *)

From S2P Require Import Prelude Errors Collections Interfaces Market.

(** ** types.rs *)

Inductive VoteItemType := OutcomeVotes | BinaryVotes.
Inductive VoteItem := Outcome (report : OutcomeReport) | Binary (b : bool).

Definition into_outcome (v : VoteItem) : option OutcomeReport :=
  match v with Outcome report => Some report | Binary _ => None end.

#[global] Instance vote_item_eq_dec : EqDecision VoteItem.
Proof. solve_decision. Defined.

(** The derived orders. *)
#[global] Instance ord_outcome_report : Ord OutcomeReport := fun x y =>
  match x, y with
  | Categorical i, Categorical j => Z.compare i j
  | Scalar i, Scalar j => Z.compare i j
  | Categorical _, Scalar _ => Lt
  | Scalar _, Categorical _ => Gt
  end.
#[global] Instance ord_vote_item : Ord VoteItem := fun x y =>
  match x, y with
  | Outcome i, Outcome j => cmp i j
  | Binary i, Binary j => cmp i j
  | Outcome _, Binary _ => Lt
  | Binary _, Outcome _ => Gt
  end.

#[global] Instance ord_laws_outcome_report : OrdLaws OutcomeReport.
Proof.
  split.
  - intros [i|i] [j|j]; cbn; rewrite ?Z.compare_eq_iff; split; congruence.
  - intros [i|i] [j|j]; cbn; [apply Z.compare_antisym|done|done|apply Z.compare_antisym].
  - intros [i|i] [j|j] [k|k]; cbn; rewrite ?Z.compare_lt_iff; try done; lia.
Qed.
#[global] Instance ord_laws_vote_item : OrdLaws VoteItem.
Proof.
  split.
  - intros [i|i] [j|j]; cbn; rewrite ?cmp_eq; split; congruence.
  - intros [i|i] [j|j]; cbn; [apply cmp_sym|done|done|apply cmp_sym].
  - intros [i|i] [j|j] [k|k]; cbn; try done; apply cmp_trans.
Qed.

Record CourtParticipantInfo := mkInfo {
  pi_stake : Z;
  pi_active_lock : Z;
  pi_prepare_exit_at : option Z;
  pi_delegations : option (list AccountId) }.

Record RawCommitment := mkRawCommitment {
  rc_juror : AccountId; rc_vote_item : VoteItem; rc_salt : Z }.

Inductive Vote :=
| Delegated (delegated_stakes : list (AccountId * Z))
| Drawn
| Secret (commitment : Z)
| Revealed (commitment : Z) (vote_item : VoteItem) (salt : Z)
| Denounced (commitment : Z) (vote_item : VoteItem) (salt : Z).

Inductive CourtStatus := CourtOpen | CourtClosed (winner : VoteItem) | Reassigned.

Record AppealInfo := mkAppeal {
  backer : AccountId; bond : Z; appealed_vote_item : VoteItem }.

Record RoundTiming := mkTiming { pre_vote : Z; vote_end : Z; aggregation : Z; appeal_end : Z }.

Record CourtInfo := mkCourt {
  court_status : CourtStatus;
  appeals : list AppealInfo;
  round_ends : RoundTiming;
  vote_item_type : VoteItemType }.

Definition CourtInfo_new (round_timing : RoundTiming) (vote_item_type : VoteItemType) : CourtInfo :=
  let pre_vote := pre_vote round_timing in
  let vote := saturating_add 32 pre_vote (vote_end round_timing) in
  let aggregation := saturating_add 32 vote (aggregation round_timing) in
  let appeal := saturating_add 32 aggregation (appeal_end round_timing) in
  mkCourt CourtOpen [] (mkTiming pre_vote vote aggregation appeal) vote_item_type.

Definition update_round (round_timing : RoundTiming) (c : CourtInfo) : CourtInfo :=
  let pre_vote := pre_vote round_timing in
  let vote := saturating_add 32 pre_vote (vote_end round_timing) in
  let aggregation := saturating_add 32 vote (aggregation round_timing) in
  let appeal := saturating_add 32 aggregation (appeal_end round_timing) in
  mkCourt (court_status c) (appeals c) (mkTiming pre_vote vote aggregation appeal) (vote_item_type c).

Record Draw := mkDraw {
  draw_participant : AccountId; draw_weight : Z; draw_vote : Vote; draw_slashable : Z }.

Record CourtPoolItem := mkPoolItem {
  stake : Z;
  court_participant : AccountId;
  consumed_stake : Z;
  joined_at : Z;
  uneligible_index : Z;
  uneligible_stake : Z }.

Record SelectionValue := mkSelection {
  sel_weight : Z; sel_slashable : Z; sel_delegated_stakes : list (AccountId * Z) }.

Inductive SelectionAdd :=
| SelfStake (lock : Z)
| DelegationStake (delegated_juror : AccountId) (lock : Z)
| DelegationWeight.

Record SelfInfo := mkSelfInfo { si_slashable : Z; si_vote_item : VoteItem }.
Record JurorVoteWithStakes := mkJurorVote {
  self_info : option SelfInfo; jv_delegations : list (AccountId * Z) }.
Definition JurorVoteWithStakes_default : JurorVoteWithStakes := mkJurorVote None [].

Inductive SelectionError := NoValidDelegatedJuror | SelectionSearchFailed.

(** ** The configuration *)

Class CourtConfig := {
  AppealBond : Z;
  BlocksPerYear : Z;
  VotePeriod : Z;
  AggregationPeriod : Z;
  AppealPeriod : Z;
  LockId : Z;
  InflationPeriod : Z;
  MaxAppeals : Z;
  MaxSelectedDraws : Z;
  MaxDelegations : Z;
  MaxCourtParticipants : Z;
  MaxYearlyInflation : Z;
  MinJurorStake : Z;
  RequestInterval : Z;
  Ledger : Type;
  court_currency :: Currency Ledger;
  ResolveQueue : Type;
  court_resolution :: DisputeResolutionApi ResolveQueue;
  court_random :: RandomSource;
  court_per_things :: PerThings;
  (** [T::Hashing::hash_of(&(juror, vote_item, salt))] *)
  hash_of : AccountId -> VoteItem -> Z -> Z;
  (** [T::Lookup::lookup] *)
  lookup_account : Z -> Res AccountId;
  MonetaryGovernanceOrigin : Origin -> bool;
  (** [T::Slash::on_unbalanced] *)
  on_unbalanced : NegativeImbalance -> Ledger -> Ledger;
  (** [PalletId] and its derived accounts *)
  reserve_id : Z;
  reward_pot : Z -> AccountId;
  treasury_account_id : AccountId }.

(** ** Storage and events *)

Section Storage.
Context `{CourtConfig}.

Inductive Event :=
| CourtOpened (market_id : Z) (court_info : CourtInfo)
| JurorJoined (juror : AccountId) (stake : Z)
| ExitPrepared (court_participant : AccountId)
| ExitedCourt (court_participant : AccountId) (exit_amount active_lock : Z)
| JurorVoted (court_id : Z) (juror : AccountId) (commitment : Z)
| JurorRevealedVote (juror : AccountId) (court_id : Z) (vote_item : VoteItem) (salt : Z)
    (slashable_amount draw_weight : Z)
| DenouncedJurorVote (denouncer juror : AccountId) (court_id : Z) (vote_item : VoteItem) (salt : Z)
| DelegatorJoined (delegator : AccountId) (stake : Z) (delegated_jurors : list AccountId)
| CourtAppealed (court_id : Z) (appeal_info : AppealInfo) (new_round_ends : option RoundTiming)
| MintedInCourt (court_participant : AccountId) (amount : Z)
| StakesReassigned (court_id : Z)
| InflationSet (inflation : Z).

Record CourtState := mkState {
  CourtPool : list CourtPoolItem;
  Participants : gmap AccountId CourtParticipantInfo;
  SelectionNonce : Z;
  SelectedDraws : gmap Z (list Draw);
  Courts : gmap Z CourtInfo;
  NextCourtId : Z;
  MarketIdToCourtId : gmap Z Z;
  CourtIdToMarketId : gmap Z Z;
  RequestBlock : Z;
  YearlyInflation : Z;
  block_number : Z;
  ledger : Ledger;
  commons : MarketCommons;
  queue : ResolveQueue;
  events : list Event }.

Definition set_CourtPool x s := mkState x (Participants s) (SelectionNonce s) (SelectedDraws s)
  (Courts s) (NextCourtId s) (MarketIdToCourtId s) (CourtIdToMarketId s) (RequestBlock s)
  (YearlyInflation s) (block_number s) (ledger s) (commons s) (queue s) (events s).
Definition set_Participants x s := mkState (CourtPool s) x (SelectionNonce s) (SelectedDraws s)
  (Courts s) (NextCourtId s) (MarketIdToCourtId s) (CourtIdToMarketId s) (RequestBlock s)
  (YearlyInflation s) (block_number s) (ledger s) (commons s) (queue s) (events s).
Definition set_SelectionNonce x s := mkState (CourtPool s) (Participants s) x (SelectedDraws s)
  (Courts s) (NextCourtId s) (MarketIdToCourtId s) (CourtIdToMarketId s) (RequestBlock s)
  (YearlyInflation s) (block_number s) (ledger s) (commons s) (queue s) (events s).
Definition set_SelectedDraws x s := mkState (CourtPool s) (Participants s) (SelectionNonce s) x
  (Courts s) (NextCourtId s) (MarketIdToCourtId s) (CourtIdToMarketId s) (RequestBlock s)
  (YearlyInflation s) (block_number s) (ledger s) (commons s) (queue s) (events s).
Definition set_Courts x s := mkState (CourtPool s) (Participants s) (SelectionNonce s)
  (SelectedDraws s) x (NextCourtId s) (MarketIdToCourtId s) (CourtIdToMarketId s) (RequestBlock
  s) (YearlyInflation s) (block_number s) (ledger s) (commons s) (queue s) (events s).
Definition set_NextCourtId x s := mkState (CourtPool s) (Participants s) (SelectionNonce s)
  (SelectedDraws s) (Courts s) x (MarketIdToCourtId s) (CourtIdToMarketId s) (RequestBlock s)
  (YearlyInflation s) (block_number s) (ledger s) (commons s) (queue s) (events s).
Definition set_MarketIdToCourtId x s := mkState (CourtPool s) (Participants s) (SelectionNonce
  s) (SelectedDraws s) (Courts s) (NextCourtId s) x (CourtIdToMarketId s) (RequestBlock s)
  (YearlyInflation s) (block_number s) (ledger s) (commons s) (queue s) (events s).
Definition set_CourtIdToMarketId x s := mkState (CourtPool s) (Participants s) (SelectionNonce
  s) (SelectedDraws s) (Courts s) (NextCourtId s) (MarketIdToCourtId s) x (RequestBlock s)
  (YearlyInflation s) (block_number s) (ledger s) (commons s) (queue s) (events s).
Definition set_RequestBlock x s := mkState (CourtPool s) (Participants s) (SelectionNonce s)
  (SelectedDraws s) (Courts s) (NextCourtId s) (MarketIdToCourtId s) (CourtIdToMarketId s) x
  (YearlyInflation s) (block_number s) (ledger s) (commons s) (queue s) (events s).
Definition set_YearlyInflation x s := mkState (CourtPool s) (Participants s) (SelectionNonce s)
  (SelectedDraws s) (Courts s) (NextCourtId s) (MarketIdToCourtId s) (CourtIdToMarketId s)
  (RequestBlock s) x (block_number s) (ledger s) (commons s) (queue s) (events s).
Definition set_block_number x s := mkState (CourtPool s) (Participants s) (SelectionNonce s)
  (SelectedDraws s) (Courts s) (NextCourtId s) (MarketIdToCourtId s) (CourtIdToMarketId s)
  (RequestBlock s) (YearlyInflation s) x (ledger s) (commons s) (queue s) (events s).
Definition set_ledger x s := mkState (CourtPool s) (Participants s) (SelectionNonce s)
  (SelectedDraws s) (Courts s) (NextCourtId s) (MarketIdToCourtId s) (CourtIdToMarketId s)
  (RequestBlock s) (YearlyInflation s) (block_number s) x (commons s) (queue s) (events s).
Definition set_commons x s := mkState (CourtPool s) (Participants s) (SelectionNonce s)
  (SelectedDraws s) (Courts s) (NextCourtId s) (MarketIdToCourtId s) (CourtIdToMarketId s)
  (RequestBlock s) (YearlyInflation s) (block_number s) (ledger s) x (queue s) (events s).
Definition set_queue x s := mkState (CourtPool s) (Participants s) (SelectionNonce s)
  (SelectedDraws s) (Courts s) (NextCourtId s) (MarketIdToCourtId s) (CourtIdToMarketId s)
  (RequestBlock s) (YearlyInflation s) (block_number s) (ledger s) (commons s) x (events s).
Definition set_events x s := mkState (CourtPool s) (Participants s) (SelectionNonce s)
  (SelectedDraws s) (Courts s) (NextCourtId s) (MarketIdToCourtId s) (CourtIdToMarketId s)
  (RequestBlock s) (YearlyInflation s) (block_number s) (ledger s) (commons s) (queue s) x.

Abbreviation CourtM := (ST DispatchError CourtState).

Definition court_error (e : CourtError) : DispatchError := Module_ (CourtErr e).

(** [StorageValue::mutate] style updates. *)
Definition deposit_event (e : Event) : CourtM unit :=
  modify (fun s => set_events (events s ++ [e]) s).
Definition put_pool (p : list CourtPoolItem) : CourtM unit := modify (set_CourtPool p).
Definition insert_participant (who : AccountId) (i : CourtParticipantInfo) : CourtM unit :=
  modify (fun s => set_Participants (<[who := i]> (Participants s)) s).
Definition insert_court (court_id : Z) (c : CourtInfo) : CourtM unit :=
  modify (fun s => set_Courts (<[court_id := c]> (Courts s)) s).
Definition insert_draws (court_id : Z) (d : list Draw) : CourtM unit :=
  modify (fun s => set_SelectedDraws (<[court_id := d]> (SelectedDraws s)) s).
(** [SelectedDraws::get] has an empty default. *)
Definition draws_of (court_id : Z) (s : CourtState) : list Draw :=
  default [] (SelectedDraws s !! court_id).
(** A change of the ledger that returns a value. *)
Definition on_ledger {A} (f : Ledger -> A * Ledger) : CourtM A := fun s =>
  let '(a, l) := f (ledger s) in (Ok a, set_ledger l s).
End Storage.

Abbreviation CourtM := (ST DispatchError CourtState).
