(* ===== verification/CourtPool.v ===== *)
(** * The court pallet: the juror pool

    [join_court], [delegate], [prepare_exit_court], [exit_court] and their
    helpers in [pallets/court/src/lib.rs].  Debug assertions are off, as in
    a release build; the weights the calls return are left out. *)

From S2P Require Import Prelude Errors FixedMath Collections Interfaces Market CourtTypes.

Section Pool.
Context `{CourtConfig}.

(** The key the pool is sorted by. *)
Definition pool_key (i : CourtPoolItem) : Z * AccountId := (stake i, court_participant i).

Definition get_pool_item (pool : list CourtPoolItem) (st : Z) (who : AccountId) :
    Res (option (nat * CourtPoolItem)) :=
  match binary_search_by_key (st, who) pool_key pool with
  | Found i =>
      pool_item ← ok_or (pool !! i) (court_error (Unexpected BinarySearchByKeyFailed));
      Ok (Some (i, pool_item))
  | NotFound _ => Ok None
  end.

Definition get_uneligible_stake (pool_item_opt : option CourtPoolItem)
    (amount current_period_index : Z) : Res Z :=
  match pool_item_opt with
  | None => Ok amount
  | Some pool_item =>
      if negb (current_period_index =? uneligible_index pool_item)
      then checked_sub_res amount (stake pool_item)
      else
        additional_uneligible_stake ← checked_sub_res amount (stake pool_item);
        checked_add_res 128 (uneligible_stake pool_item) additional_uneligible_stake
  end.

Definition get_initial_joined_at (prev_pool_item : option CourtPoolItem) (now : Z) : Z :=
  match prev_pool_item with Some i => joined_at i | None => now end.

Definition is_full (p : list CourtPoolItem) : bool :=
  MaxCourtParticipants <=? Z.of_nat (length p).

(** [p.windows(2).all(...)]: what the pool logs an error for when it fails. *)
Definition is_sorted_and_all_greater_than_lowest (p : list CourtPoolItem) (lowest_stake : Z) : bool :=
  forallb (fun '(x, y) => (stake x <=? stake y) && (lowest_stake <=? stake x)) (zip p (drop 1 p)).

Definition remove_weakest_if_full (p : list CourtPoolItem) (amount : Z) :
    Res (list CourtPoolItem) :=
  if is_full p then
    let lowest_stake := default 0 (stake <$> head p) in
    ensure (lowest_stake <? amount) (court_error AmountBelowLowestJuror) ;;
    '(_, p) ← ok_or (vec_remove 0 p) Panicked;
    Ok p
  else Ok p.

Definition handle_existing_participant (who : AccountId) (amount : Z) (pool : list CourtPoolItem)
    (prev_p_info : CourtParticipantInfo) :
    Res (list CourtPoolItem * Z * option CourtPoolItem) :=
  ensure (pi_stake prev_p_info <=? amount) (court_error AmountBelowLastJoin) ;;
  o ← get_pool_item pool (pi_stake prev_p_info) who;
  match o with
  | Some (index, pool_item) =>
      '(_, pool) ← ok_or (vec_remove index pool) Panicked;
      Ok (pool, consumed_stake pool_item, Some pool_item)
  | None =>
      pool ← remove_weakest_if_full pool amount;
      Ok (pool, pi_active_lock prev_p_info, None)
  end.

Definition do_join_court (who : AccountId) (amount : Z) (delegations : option (list AccountId)) :
    CourtM Z :=
  lift (ensure (MinJurorStake <=? amount) (court_error BelowMinJurorStake)) ;;
  s ← get;
  lift (ensure (amount <=? free_balance (ledger s) who) (court_error AmountExceedsBalance)) ;;
  let now := block_number s in
  '(pool, prev_pool_item_opt, active_lock, consumed_stake) ←
    match Participants s !! who with
    | Some prev_p_info =>
        '(pruned_pool, old_consumed_stake, prev_pool_item_opt) ←
          lift (handle_existing_participant who amount (CourtPool s) prev_p_info);
        mret (pruned_pool, prev_pool_item_opt, pi_active_lock prev_p_info, old_consumed_stake)
    | None =>
        pool ← lift (remove_weakest_if_full (CourtPool s) amount);
        mret (pool, None, 0, 0)
    end;
  current_period_index ← lift (ok_or (checked_div now InflationPeriod)
    (court_error (Unexpected InflationPeriodIsZero)));
  uneligible_stake ← lift (get_uneligible_stake prev_pool_item_opt amount current_period_index);
  let joined_at := get_initial_joined_at prev_pool_item_opt now in
  pool ← lift match binary_search_by_key (amount, who) pool_key pool with
    | Found _ => Err (court_error CourtParticipantTwiceInPool)
    | NotFound i =>
        ok_or (try_insert MaxCourtParticipants i
          (mkPoolItem amount who consumed_stake joined_at current_period_index uneligible_stake) pool)
          (court_error MaxCourtParticipantsReached)
    end;
  modify (fun s => set_ledger (set_lock LockId who amount (ledger s)) s) ;;
  put_pool pool ;;
  insert_participant who (mkInfo amount active_lock None delegations) ;;
  mret (Z.of_nat (length pool)).

Definition join_court (origin : Origin) (amount : Z) : CourtM unit := transactional (
  who ← lift (ensure_signed origin);
  do_join_court who amount None ;;
  deposit_event (JurorJoined who amount)).

(** The juror is in the pool and not a delegator herself. *)
Definition is_valid_delegation (s : CourtState) (pretended_juror : AccountId) : bool :=
  match Participants s !! pretended_juror with
  | Some info =>
      match get_pool_item (CourtPool s) (pi_stake info) pretended_juror with
      | Ok (Some _) => match pi_delegations info with None => true | Some _ => false end
      | _ => false
      end
  | None => false
  end.

(** [zip(iter, iter.skip(1)).any(|(x, y)| x == y)] *)
Definition has_duplicates (l : list AccountId) : bool :=
  existsb (fun '(x, y) => (x =? y)%N) (zip l (drop 1 l)).

Definition delegate (origin : Origin) (amount : Z) (delegations : list AccountId) : CourtM unit :=
  transactional (
  who ← lift (ensure_signed origin);
  lift (ensure (negb (bool_decide (delegations = []))) (court_error NoDelegations)) ;;
  lift (ensure (Z.of_nat (length delegations) <=? MaxDelegations)
          (court_error MaxDelegationsReached)) ;;
  s ← get;
  lift (ensure (forallb (is_valid_delegation s) delegations)
          (court_error DelegatedToInvalidJuror)) ;;
  let sorted_delegations := merge_sort N.le delegations in
  lift (ensure (negb (has_duplicates sorted_delegations))
          (court_error IdenticalDelegationsNotAllowed)) ;;
  lift (ensure (negb (bool_decide (who ∈ sorted_delegations)))
          (court_error SelfDelegationNotAllowed)) ;;
  do_join_court who amount (Some sorted_delegations) ;;
  deposit_event (DelegatorJoined who amount delegations)).

Definition set_prepare_exit_at x i :=
  mkInfo (pi_stake i) (pi_active_lock i) x (pi_delegations i).
Definition set_pi_stake x i :=
  mkInfo x (pi_active_lock i) (pi_prepare_exit_at i) (pi_delegations i).
Definition set_active_lock x i :=
  mkInfo (pi_stake i) x (pi_prepare_exit_at i) (pi_delegations i).

Definition prepare_exit_court (origin : Origin) : CourtM unit := transactional (
  who ← lift (ensure_signed origin);
  s ← get;
  prev_p_info ← lift (ok_or (Participants s !! who) (court_error JurorDoesNotExist));
  lift (ensure (negb (bool_decide (is_Some (pi_prepare_exit_at prev_p_info))))
          (court_error AlreadyPreparedExit)) ;;
  o ← lift (get_pool_item (CourtPool s) (pi_stake prev_p_info) who);
  match o with
  | Some (index, _) =>
      '(_, pool) ← lift (ok_or (vec_remove index (CourtPool s)) Panicked);
      put_pool pool
  | None => mret tt
  end ;;
  insert_participant who (set_prepare_exit_at (Some (block_number s)) prev_p_info) ;;
  deposit_event (ExitPrepared who)).

Definition exit_court (origin : Origin) (court_participant : Z) : CourtM unit := transactional (
  lift (ensure_signed origin) ;;
  who ← lift (lookup_account court_participant);
  s ← get;
  prev_p_info ← lift (ok_or (Participants s !! who) (court_error JurorDoesNotExist));
  let now := block_number s in
  prepare_exit_at ← lift (ok_or (pi_prepare_exit_at prev_p_info)
    (court_error PrepareExitAtNotPresent));
  lift (ensure (InflationPeriod <=? saturating_sub now prepare_exit_at)
          (court_error PrematureExit)) ;;
  '(exit_amount, active_lock) ←
    (if pi_active_lock prev_p_info =? 0 then
       modify (fun s => set_ledger (remove_lock LockId who (ledger s)) s) ;;
       modify (fun s => set_Participants (delete who (Participants s)) s) ;;
       mret (pi_stake prev_p_info, 0)
     else
       let active_lock := pi_active_lock prev_p_info in
       let exit_amount := saturating_sub (pi_stake prev_p_info) active_lock in
       modify (fun s => set_ledger (set_lock LockId who active_lock (ledger s)) s) ;;
       insert_participant who (set_pi_stake active_lock prev_p_info) ;;
       mret (exit_amount, active_lock));
  deposit_event (ExitedCourt who exit_amount active_lock)).
End Pool.
