(* ===== verification/CourtSelection.v ===== *)
(** * The court pallet: drawing jurors

    The random selection of jurors and delegators for a court round in
    [pallets/court/src/lib.rs]: the nonce and generator, the partial
    Fisher-Yates shuffle, the map from random sections to pool items, the
    delegation of drawn weights, and the draws stored for the round. *)

From S2P Require Import Prelude Errors FixedMath Collections Interfaces Market CourtTypes CourtPool.

Definition INITIAL_DRAWS_NUM : Z := 31.
Definition APPEAL_BASIS : Z := 2.

Section Selection.
Context `{CourtConfig}.

(** ** Randomness *)

Definition get_random_seed (now nonce : Z) : list Z := take 32 (random now nonce).

Definition rng : CourtM Rng :=
  s ← get;
  let nonce := SelectionNonce s in
  modify (set_SelectionNonce (wrapping_add 64 nonce 1)) ;;
  mret (from_seed (get_random_seed (block_number s) nonce)).

(** The loop of [get_n_random_section_ends] from index [i], [n] iterations;
    [gen_range] panics on an empty range. *)
Fixpoint section_ends_loop (n : nat) (i sections_len : Z) (swaps : BTreeMap Z Z)
    (ends : BTreeMap Z unit) (r : Rng) : Res (BTreeMap Z unit) :=
  match n with
  | O => Ok ends
  | S n =>
      let visited_i := default i (bt_get i swaps) in
      ensure (i <? sections_len) Panicked ;;
      let '(unused_random_index, r) := gen_range i sections_len r in
      let unused_random_number := default unused_random_index (bt_get unused_random_index swaps) in
      let swaps := bt_insert i unused_random_number swaps in
      let swaps := bt_insert unused_random_index visited_i swaps in
      let random_index := saturating_add 128 unused_random_number 1 in
      let random_section_end := saturating_mul 128 random_index MinJurorStake in
      section_ends_loop n (i + 1) sections_len swaps (bt_insert_set random_section_end ends) r
  end.

Definition get_n_random_section_ends (n max : Z) : CourtM (BTreeMap Z unit) :=
  r ← rng;
  let sections_len := default 0 (checked_div max MinJurorStake) in
  lift (section_ends_loop (Z.to_nat n) 0 sections_len [] [] r).

(** ** Selections *)

Abbreviation Selections := (BTreeMap AccountId SelectionValue).

Definition add_active_lock (who : AccountId) (lock_added : Z) : CourtM unit :=
  s ← get;
  match Participants s !! who with
  | Some p_info =>
      insert_participant who
        (set_active_lock (saturating_add 128 (pi_active_lock p_info) lock_added) p_info)
  | None => mret tt
  end.

Definition add_delegated_juror (delegated_stakes : list (AccountId * Z))
    (delegated_juror : AccountId) (amount : Z) : Res (list (AccountId * Z)) :=
  match binary_search_by_key delegated_juror fst delegated_stakes with
  | Found index =>
      '(j, delegated_stake) ← ok_or (delegated_stakes !! index)
        (court_error (Unexpected BinarySearchByKeyFailed));
      Ok (<[index := (j, saturating_add 128 delegated_stake amount)]> delegated_stakes)
  | NotFound index =>
      Ok (default delegated_stakes
            (try_insert MaxDelegations index (delegated_juror, amount) delegated_stakes))
  end.

Definition update_selections (selections : Selections) (who : AccountId) (sel_add : SelectionAdd) :
    Res Selections :=
  match bt_get who selections with
  | Some (mkSelection weight slashable delegated_stakes) =>
      match sel_add with
      | SelfStake lock =>
          Ok (bt_insert who (mkSelection (saturating_add 32 weight 1)
                (saturating_add 128 slashable lock) delegated_stakes) selections)
      | DelegationStake delegated_juror lock =>
          delegated_stakes ← add_delegated_juror delegated_stakes delegated_juror lock;
          Ok (bt_insert who (mkSelection weight (saturating_add 128 slashable lock)
                delegated_stakes) selections)
      | DelegationWeight =>
          Ok (bt_insert who (mkSelection (saturating_add 32 weight 1) slashable delegated_stakes)
                selections)
      end
  | None =>
      match sel_add with
      | SelfStake lock => Ok (bt_insert who (mkSelection 1 lock []) selections)
      | DelegationStake delegated_juror lock =>
          delegated_stakes ← add_delegated_juror [] delegated_juror lock;
          Ok (bt_insert who (mkSelection 0 lock delegated_stakes) selections)
      | DelegationWeight => Ok (bt_insert who (mkSelection 1 0 []) selections)
      end
  end.

(** The delegated jurors that are jurors of the pool, in order. *)
Fixpoint valid_delegated_jurors (s : CourtState) (delegations : list AccountId) :
    Result SelectionError (list AccountId) :=
  match delegations with
  | [] => Ok []
  | delegated_juror :: rest =>
      match Participants s !! delegated_juror with
      | Some info =>
          match pi_delegations info with
          | Some _ => valid_delegated_jurors s rest
          | None =>
              pool_item ← map_err (fun _ => SelectionSearchFailed)
                (get_pool_item (CourtPool s) (pi_stake info) delegated_juror);
              valid ← valid_delegated_jurors s rest;
              Ok (match pool_item with Some _ => delegated_juror :: valid | None => valid end)
          end
      | None => valid_delegated_jurors s rest
      end
  end.

Definition get_valid_delegated_juror (delegations : list AccountId) :
    ST SelectionError CourtState (option AccountId) := fun s =>
  match rng s with
  | (Ok r, s) =>
      match valid_delegated_jurors s delegations with
      | Ok valid => (Ok (if decide (valid = []) then None else valid !! choose_index (length valid) r), s)
      | Err e => (Err e, s)
      end
  | (Err _, s) => (Err SelectionSearchFailed, s)
  end.

Definition add_to_selections (selections : Selections) (who : AccountId) (lock_added : Z) :
    ST SelectionError CourtState Selections :=
  s ← get;
  let search_failed {A} (r : Res A) := map_err (fun _ => SelectionSearchFailed) r in
  match Participants s !! who ≫= pi_delegations with
  | Some delegations =>
      o ← get_valid_delegated_juror delegations;
      delegated_juror ← lift (ok_or o NoValidDelegatedJuror);
      selections ← lift (search_failed (update_selections selections delegated_juror DelegationWeight));
      lift (search_failed (update_selections selections who
        (DelegationStake delegated_juror lock_added)))
  | None =>
      lift (search_failed (update_selections selections who (SelfStake lock_added)))
  end.

Definition set_consumed_stake x i :=
  mkPoolItem (stake i) (court_participant i) x (joined_at i) (uneligible_index i) (uneligible_stake i).

(** The first loop of [get_selections]: the pool, the selections and the
    invalid indices so far. *)
Fixpoint selections_loop (random_section_ends : list Z) (cumulative_section_ends : list (Z * bool))
    (pool : list CourtPoolItem) (selections : Selections) (invalid_juror_indices : list nat) :
    CourtM (list CourtPoolItem * Selections * list nat) :=
  match random_section_ends with
  | [] => mret (pool, selections, invalid_juror_indices)
  | random_section_end :: rest =>
      let range_index :=
        match binary_search_by_key (random_section_end, false) id cumulative_section_ends with
        | Found i => i
        | NotFound i => i
        end in
      match pool !! range_index with
      | Some pool_item =>
          let unconsumed := saturating_sub (stake pool_item) (consumed_stake pool_item) in
          let lock_added := Z.min unconsumed MinJurorStake in
          r ← attempt (add_to_selections selections (court_participant pool_item) lock_added);
          '(selections, invalid_juror_indices) ←
            match r with
            | Ok selections => mret (selections, invalid_juror_indices)
            | Err NoValidDelegatedJuror => mret (selections, invalid_juror_indices ++ [range_index])
            | Err SelectionSearchFailed => fail (court_error (Unexpected BinarySearchByKeyFailed))
            end;
          add_active_lock (court_participant pool_item) lock_added ;;
          let pool_item :=
            set_consumed_stake (saturating_add 128 (consumed_stake pool_item) lock_added) pool_item in
          selections_loop rest cumulative_section_ends (<[range_index := pool_item]> pool)
            selections invalid_juror_indices
      | None =>
          selections_loop rest cumulative_section_ends pool selections invalid_juror_indices
      end
  end.

(** [for i in invalid_juror_indices { pool.remove(i); }] *)
Fixpoint remove_indices (is_ : list nat) (pool : list CourtPoolItem) : Res (list CourtPoolItem) :=
  match is_ with
  | [] => Ok pool
  | i :: is_ =>
      '(_, pool) ← ok_or (vec_remove i pool) Panicked;
      remove_indices is_ pool
  end.

Definition get_selections (pool : list CourtPoolItem) (random_section_ends : list Z)
    (cumulative_section_ends : list (Z * bool)) : CourtM (list CourtPoolItem * Selections) :=
  '(pool, selections, invalid_juror_indices) ←
    selections_loop random_section_ends cumulative_section_ends pool [] [];
  pool ← lift (remove_indices invalid_juror_indices pool);
  mret (pool, selections).

Definition convert_selections_to_draws (selections : Selections) : list Draw :=
  (fun '(who, mkSelection weight slashable delegated_stakes) =>
     mkDraw who weight
       (if decide (delegated_stakes = []) then Drawn else Delegated delegated_stakes) slashable)
    <$> selections.

(** ** The draw of a round *)

(** The multiples of [MinJurorStake] a pool item still has to offer. *)
Definition unconsumed_sections (pool_item : CourtPoolItem) : Res Z :=
  let unconsumed := saturating_sub (stake pool_item) (consumed_stake pool_item) in
  remainder ← checked_rem_res unconsumed MinJurorStake;
  Ok (saturating_sub unconsumed remainder).

(** The loop of [choose_multiple_weighted] over the pool. *)
Fixpoint section_ends_of_pool (pool : list CourtPoolItem) (total_unconsumed running_total : Z) :
    Res (Z * list (Z * bool)) :=
  match pool with
  | [] => Ok (total_unconsumed, [])
  | pool_item :: pool =>
      unconsumed ← unconsumed_sections pool_item;
      let total_unconsumed := saturating_add 128 total_unconsumed unconsumed in
      let running_total := saturating_add 128 running_total unconsumed in
      '(total, rest) ← section_ends_of_pool pool total_unconsumed running_total;
      Ok (total, (running_total, unconsumed =? 0) :: rest)
  end.

Definition choose_multiple_weighted (draw_weight : Z) : CourtM (list Draw) :=
  pool ← gets CourtPool;
  '(total_unconsumed, cumulative_section_ends) ← lift (section_ends_of_pool pool 0 0);
  let required_stake := saturating_mul 128 draw_weight MinJurorStake in
  lift (ensure (required_stake <=? total_unconsumed)
          (court_error NotEnoughJurorsAndDelegatorsStake)) ;;
  random_section_ends ← get_n_random_section_ends draw_weight total_unconsumed;
  '(pool, selections) ← get_selections pool (bt_keys random_section_ends) cumulative_section_ends;
  put_pool pool ;;
  mret (convert_selections_to_draws selections).

Definition unlock_participants_from_last_draw (last_draws : list Draw) : CourtM unit :=
  for_each last_draws (fun old_draw =>
    s ← get;
    match Participants s !! draw_participant old_draw with
    | Some p_info =>
        insert_participant (draw_participant old_draw)
          (set_active_lock (saturating_sub (pi_active_lock p_info) (draw_slashable old_draw)) p_info)
    | None => mret tt
    end).

(** The runtime runs as wasm32: [usize] is 32 bits wide. *)
Definition necessary_draws_weight (appeals_len : Z) : Z :=
  saturating_add 32
    (saturating_mul 32 (saturating_pow 32 APPEAL_BASIS appeals_len) INITIAL_DRAWS_NUM)
    (saturating_sub (saturating_pow 32 APPEAL_BASIS appeals_len) 1).

Definition select_participants (appeal_number : Z) : CourtM (list Draw) :=
  random_jurors ← choose_multiple_weighted (necessary_draws_weight appeal_number);
  mret (truncate_from MaxSelectedDraws random_jurors).
End Selection.
Abbreviation Selections := (BTreeMap AccountId SelectionValue).
