(* ===== verification/CourtVoting.v ===== *)
(** * The court pallet: votes, appeals and the dispute API

    Voting, denouncing, revealing, appealing and reassigning stakes, the
    inflation hook, and the [DisputeApi] implementation of
    [pallets/court/src/lib.rs].  The log lines of [handle_inflation] and the
    weights are left out. *)

From S2P Require Import Prelude Errors FixedMath Collections Interfaces Market CourtTypes.
From S2P Require Import CourtPool CourtSelection.

Definition APPEAL_BOND_BASIS : Z := 2.

Section Voting.
Context `{CourtConfig}.

(** ** Votes *)

Definition set_draw_vote v d := mkDraw (draw_participant d) (draw_weight d) v (draw_slashable d).

Definition check_vote_item (court : CourtInfo) (vote_item : VoteItem) : Res unit :=
  match vote_item_type court with
  | OutcomeVotes =>
      ensure (match vote_item with Outcome _ => true | _ => false end)
        (court_error InvalidVoteItemForOutcomeCourt)
  | BinaryVotes =>
      ensure (match vote_item with Binary _ => true | _ => false end)
        (court_error InvalidVoteItemForBinaryCourt)
  end.

Definition compare_commitment (hashed_commitment : Z) (raw_commitment : RawCommitment) : Res unit :=
  let '(mkRawCommitment juror vote_item salt) := raw_commitment in
  ensure (hashed_commitment =? hash_of juror vote_item salt) (court_error CommitmentHashMismatch).

Definition get_hashed_commitment (vote : Vote) (raw_commitment : RawCommitment) : Res Z :=
  match vote with
  | Secret commitment =>
      compare_commitment commitment raw_commitment ;;
      Ok commitment
  | Drawn => Err (court_error JurorDidNotVote)
  | Delegated _ => Err (court_error JurorDelegated)
  | Revealed _ _ _ => Err (court_error VoteAlreadyRevealed)
  | Denounced _ _ _ => Err (court_error VoteAlreadyDenounced)
  end.

Definition vote (origin : Origin) (court_id commitment_vote : Z) : CourtM unit := transactional (
  who ← lift (ensure_signed origin);
  s ← get;
  court ← lift (ok_or (Courts s !! court_id) (court_error CourtNotFound));
  let now := block_number s in
  lift (ensure ((pre_vote (round_ends court) <? now) && (now <=? vote_end (round_ends court)))
          (court_error NotInVotingPeriod)) ;;
  let draws := draws_of court_id s in
  match binary_search_by_key who draw_participant draws with
  | Found index =>
      draw ← lift (ok_or (draws !! index) (court_error (Unexpected BinarySearchByKeyFailed)));
      lift (ensure (match draw_vote draw with Drawn | Secret _ => true | _ => false end)
              (court_error InvalidVoteState)) ;;
      insert_draws court_id (<[index := set_draw_vote (Secret commitment_vote) draw]> draws)
  | NotFound _ => fail (court_error CallerNotInSelectedDraws)
  end ;;
  deposit_event (JurorVoted court_id who commitment_vote)).

(** The guard [denounce_vote] and [reveal_vote] share: the vote item is an
    outcome of the market, if the court belongs to one. *)
Definition check_market_outcome (s : CourtState) (court_id : Z) (vote_item : VoteItem) : Res unit :=
  match CourtIdToMarketId s !! court_id with
  | Some market_id =>
      m ← market (commons s) market_id;
      outcome ← ok_or (into_outcome vote_item) (court_error VoteItemIsNoOutcome);
      ensure (matches_outcome_report m outcome) (court_error OutcomeMismatch)
  | None => Ok tt
  end.

Definition denounce_vote (origin : Origin) (court_id juror : Z) (vote_item : VoteItem) (salt : Z) :
    CourtM unit := transactional (
  denouncer ← lift (ensure_signed origin);
  s ← get;
  lift (check_market_outcome s court_id vote_item) ;;
  juror ← lift (lookup_account juror);
  lift (ensure (negb (denouncer =? juror)%N) (court_error CallerDenouncedItself)) ;;
  lift (ensure (bool_decide (is_Some (Participants s !! juror))) (court_error JurorDoesNotExist)) ;;
  court ← lift (ok_or (Courts s !! court_id) (court_error CourtNotFound));
  lift (check_vote_item court vote_item) ;;
  let now := block_number s in
  lift (ensure ((pre_vote (round_ends court) <? now) && (now <=? vote_end (round_ends court)))
          (court_error NotInVotingPeriod)) ;;
  let draws := draws_of court_id s in
  match binary_search_by_key juror draw_participant draws with
  | Found index =>
      draw ← lift (ok_or (draws !! index) (court_error (Unexpected BinarySearchByKeyFailed)));
      commitment ← lift (get_hashed_commitment (draw_vote draw)
                           (mkRawCommitment juror vote_item salt));
      insert_draws court_id
        (<[index := set_draw_vote (Denounced commitment vote_item salt) draw]> draws)
  | NotFound _ => fail (court_error JurorNotDrawn)
  end ;;
  deposit_event (DenouncedJurorVote denouncer juror court_id vote_item salt)).

Definition reveal_vote (origin : Origin) (court_id : Z) (vote_item : VoteItem) (salt : Z) :
    CourtM unit := transactional (
  who ← lift (ensure_signed origin);
  s ← get;
  lift (check_market_outcome s court_id vote_item) ;;
  lift (ensure (bool_decide (is_Some (Participants s !! who)))
          (court_error CallerIsNotACourtParticipant)) ;;
  court ← lift (ok_or (Courts s !! court_id) (court_error CourtNotFound));
  lift (check_vote_item court vote_item) ;;
  let now := block_number s in
  lift (ensure ((vote_end (round_ends court) <? now) && (now <=? aggregation (round_ends court)))
          (court_error NotInAggregationPeriod)) ;;
  let draws := draws_of court_id s in
  '(slashable_amount, weight) ←
    match binary_search_by_key who draw_participant draws with
    | Found index =>
        draw ← lift (ok_or (draws !! index) (court_error (Unexpected BinarySearchByKeyFailed)));
        commitment ← lift (get_hashed_commitment (draw_vote draw)
                             (mkRawCommitment who vote_item salt));
        insert_draws court_id
          (<[index := set_draw_vote (Revealed commitment vote_item salt) draw]> draws) ;;
        mret (draw_slashable draw, draw_weight draw)
    | NotFound _ => fail (court_error CallerNotInSelectedDraws)
    end;
  deposit_event (JurorRevealedVote who court_id vote_item salt slashable_amount weight)).

(** ** Winners *)

Definition add_score (scores : BTreeMap VoteItem Z) (draw : Draw) : BTreeMap VoteItem Z :=
  match draw_vote draw with
  | Revealed _ vote_item _ =>
      match bt_get vote_item scores with
      | Some el => bt_insert vote_item (saturating_add 32 el (draw_weight draw)) scores
      | None => bt_insert vote_item (draw_weight draw) scores
      end
  | _ => scores
  end.

(** The loop over the third and further scores. *)
Fixpoint best_two (rest : list (VoteItem * Z)) (best second : VoteItem * Z) :
    (VoteItem * Z) * (VoteItem * Z) :=
  match rest with
  | [] => (best, second)
  | el :: rest =>
      if best.2 <? el.2 then best_two rest el best
      else if second.2 <? el.2 then best_two rest best el
      else best_two rest best second
  end.

Definition get_winner (draws : list Draw) (last_winner : option VoteItem) : option VoteItem :=
  let scores := fold_left add_score draws [] in
  match scores with
  | [] => None
  | [best_score] => Some best_score.1
  | first :: second :: rest =>
      let '(best_score, second_best_score) :=
        if first.2 <? second.2 then best_two rest second first else best_two rest first second in
      if best_score.2 =? second_best_score.2 then last_winner else Some best_score.1
  end.

Definition get_latest_winner_vote_item (s : CourtState) (court_id : Z) (last_draws : list Draw) :
    Res VoteItem :=
  court ← ok_or (Courts s !! court_id) (court_error CourtNotFound);
  let last_winner := appealed_vote_item <$> last (appeals court) in
  market_id ← ok_or (CourtIdToMarketId s !! court_id) (court_error CourtIdToMarketIdNotFound);
  m ← market (commons s) market_id;
  report ← ok_or (report m) (court_error MarketReportNotFound);
  Ok (default (Outcome (report_outcome report)) (get_winner last_draws last_winner)).

(** ** Appeals *)

Definition ensure_dispute_mechanism (m : Market) : Res unit :=
  ensure (bool_decide (dispute_mechanism m = Some Court))
    (court_error MarketDoesNotHaveCourtMechanism).

Definition check_appealable_market (s : CourtState) (court_id : Z) (court : CourtInfo) (now : Z) :
    Res unit :=
  match CourtIdToMarketId s !! court_id with
  | Some market_id =>
      m ← market (commons s) market_id;
      ensure (bool_decide (status m = Disputed)) (court_error MarketIsNotDisputed) ;;
      ensure_dispute_mechanism m
  | None => Ok tt
  end ;;
  ensure ((aggregation (round_ends court) <? now) && (now <? appeal_end (round_ends court)))
    (court_error NotInAppealPeriod).

Definition get_appeal_bond (n : Z) : Z :=
  saturating_mul 128 AppealBond (saturating_pow 32 APPEAL_BOND_BASIS n).

(** [DisputeResolution] calls on the queue. *)
Definition queue_add (market_id resolve_at : Z) : CourtM Z := fun s =>
  let '(r, q) := add_auto_resolve market_id resolve_at (queue s) in (r, set_queue q s).
Definition queue_remove (market_id resolve_at : Z) : CourtM Z := fun s =>
  let '(n, q) := remove_auto_resolve market_id resolve_at (queue s) in (Ok n, set_queue q s).

Definition set_appeals x c := mkCourt (court_status c) x (round_ends c) (vote_item_type c).
Definition set_court_status x c := mkCourt x (appeals c) (round_ends c) (vote_item_type c).

(** The round timing of a new round. *)
Definition round_timing (request_block : Z) : RoundTiming :=
  mkTiming request_block VotePeriod AggregationPeriod AppealPeriod.

Definition appeal (origin : Origin) (court_id : Z) : CourtM unit := transactional (
  who ← lift (ensure_signed origin);
  s ← get;
  court ← lift (ok_or (Courts s !! court_id) (court_error CourtNotFound));
  let appeal_number := saturating_add 32 (Z.of_nat (length (appeals court))) 1 in
  lift (ensure (appeal_number <=? MaxAppeals) (court_error MaxAppealsReached)) ;;
  let bond := get_appeal_bond appeal_number in
  lift (ensure (can_reserve (ledger s) who bond) (court_error AppealBondExceedsBalance)) ;;
  lift (check_appealable_market s court_id court (block_number s)) ;;
  let old_draws := draws_of court_id s in
  appealed_vote_item ← lift (get_latest_winner_vote_item s court_id old_draws);
  let appeal_info := mkAppeal who bond appealed_vote_item in
  pushed ← lift (ok_or (try_push MaxAppeals appeal_info (appeals court))
                   (court_error MaxAppealsReached));
  let court := set_appeals pushed court in
  let last_resolve_at := appeal_end (round_ends court) in
  '(court, new_round_ends) ←
    (if appeal_number <? MaxAppeals then
       new_draws ← select_participants appeal_number;
       request_block ← gets RequestBlock;
       let court := update_round (round_timing request_block) court in
       let new_resolve_at := appeal_end (round_ends court) in
       match CourtIdToMarketId s !! court_id with
       | Some market_id => queue_add market_id new_resolve_at ;; mret tt
       | None => mret tt
       end ;;
       insert_draws court_id new_draws ;;
       unlock_participants_from_last_draw old_draws ;;
       mret (court, Some (round_ends court))
     else mret (court, None));
  match CourtIdToMarketId s !! court_id with
  | Some market_id => queue_remove market_id last_resolve_at ;; mret tt
  | None => mret tt
  end ;;
  l ← gets ledger;
  l ← lift (reserve_named reserve_id who bond l);
  modify (set_ledger l) ;;
  insert_court court_id court ;;
  deposit_event (CourtAppealed court_id appeal_info new_round_ends)).

(** ** Reassigning stakes *)

Abbreviation JurorsToStakes := (BTreeMap AccountId JurorVoteWithStakes).

(** Slash an account into the reward pot of the court. *)
Definition slash_juror (court_id : Z) (who : AccountId) (slashable : Z) : CourtM unit :=
  on_ledger (fun l =>
    let '((imbalance, _), l) := slash who slashable l in
    (tt, resolve_creating (reward_pot court_id) imbalance l)).

(** The delegation of [delegated_stake] by [delegator] to the juror [j]. *)
Definition add_delegation (delegator : AccountId) (jurors_to_stakes : JurorsToStakes)
    (j : AccountId) (delegated_stake : Z) : Res JurorsToStakes :=
  let jv := default JurorVoteWithStakes_default (bt_get j jurors_to_stakes) in
  delegations ←
    match binary_search_by_key delegator fst (jv_delegations jv) with
    | Found i =>
        '(d, st) ← ok_or (jv_delegations jv !! i) (court_error (Unexpected BinarySearchByKeyFailed));
        Ok (<[i := (d, saturating_add 128 st delegated_stake)]> (jv_delegations jv))
    | NotFound i => Ok (vec_insert i (delegator, delegated_stake) (jv_delegations jv))
    end;
  Ok (bt_insert j (mkJurorVote (self_info jv) delegations) jurors_to_stakes).

Fixpoint add_delegations (delegator : AccountId) (jurors_to_stakes : JurorsToStakes)
    (delegated_stakes : list (AccountId * Z)) : Res JurorsToStakes :=
  match delegated_stakes with
  | [] => Ok jurors_to_stakes
  | (j, delegated_stake) :: rest =>
      jurors_to_stakes ← add_delegation delegator jurors_to_stakes j delegated_stake;
      add_delegations delegator jurors_to_stakes rest
  end.

Definition handle_vote (court_id : Z) (jurors_to_stakes : JurorsToStakes) (draw : Draw) :
    CourtM JurorsToStakes :=
  match draw_vote draw with
  | Drawn | Secret _ | Denounced _ _ _ =>
      slash_juror court_id (draw_participant draw) (draw_slashable draw) ;;
      mret jurors_to_stakes
  | Revealed _ vote_item _ =>
      let jv := default JurorVoteWithStakes_default (bt_get (draw_participant draw) jurors_to_stakes) in
      mret (bt_insert (draw_participant draw)
              (mkJurorVote (Some (mkSelfInfo (draw_slashable draw) vote_item)) (jv_delegations jv))
              jurors_to_stakes)
  | Delegated delegated_stakes =>
      lift (add_delegations (draw_participant draw) jurors_to_stakes delegated_stakes)
  end.

(** [for draw in draws]: release the lock of the draw, then handle its vote. *)
Fixpoint handle_draws (court_id : Z) (draws : list Draw) (jurors_to_stakes : JurorsToStakes) :
    CourtM JurorsToStakes :=
  match draws with
  | [] => mret jurors_to_stakes
  | draw :: draws =>
      s ← get;
      match Participants s !! draw_participant draw with
      | Some p_info =>
          insert_participant (draw_participant draw)
            (set_active_lock (saturating_sub (pi_active_lock p_info) (draw_slashable draw)) p_info)
      | None => mret tt
      end ;;
      jurors_to_stakes ← handle_vote court_id jurors_to_stakes draw;
      handle_draws court_id draws jurors_to_stakes
  end.

(** Slash every account of the list, collecting the imbalances. *)
Fixpoint slash_all (l : Ledger) (total : NegativeImbalance) (xs : list (AccountId * Z)) :
    NegativeImbalance * Ledger :=
  match xs with
  | [] => (total, l)
  | (who, slashable) :: xs =>
      let '((imb, _), l) := slash who slashable l in slash_all l (subsume total imb) xs
  end.

(** The loop over the jurors: incentives, total winner stake, winners, ledger. *)
Fixpoint split_winners (jurors_to_stakes : JurorsToStakes) (winner_vote_item : VoteItem)
    (l : Ledger) (total_incentives : NegativeImbalance) (total_winner_stake : Z)
    (winners : list (AccountId * Z)) : NegativeImbalance * Z * list (AccountId * Z) * Ledger :=
  match jurors_to_stakes with
  | [] => (total_incentives, total_winner_stake, winners, l)
  | (juror, mkJurorVote (Some (mkSelfInfo slashable vote_item)) delegations) :: rest =>
      if decide (vote_item = winner_vote_item) then
        let total_delegation_stake :=
          fold_left (fun acc '(_, delegator_stake) => saturating_add 128 acc delegator_stake)
            delegations 0 in
        split_winners rest winner_vote_item l total_incentives
          (saturating_add 128 (saturating_add 128 total_winner_stake slashable) total_delegation_stake)
          (winners ++ (juror, slashable) :: delegations)
      else
        let '((imb, _), l) := slash juror slashable l in
        let total_incentives := subsume total_incentives imb in
        let '(imb, l) := slash_all l zero_imbalance delegations in
        split_winners rest winner_vote_item l (subsume total_incentives imb) total_winner_stake winners
  | (_, mkJurorVote None delegations) :: rest =>
      let '(imb, l) := slash_all l zero_imbalance delegations in
      split_winners rest winner_vote_item l (subsume total_incentives imb) total_winner_stake winners
  end.

(** The loop over the winners. *)
Fixpoint pay_winners (winners : list (AccountId * Z)) (total_winner_stake total_reward : Z)
    (l : Ledger) (total_incentives : NegativeImbalance) : NegativeImbalance * Ledger :=
  match winners with
  | [] => (total_incentives, l)
  | (winner, risked_amount) :: winners =>
      let share := perquintill_from_rational risked_amount total_winner_stake in
      let reward_per_each := perquintill_mul share total_reward in
      let '(actual_reward, leftover) := split_imbalance total_incentives reward_per_each in
      pay_winners winners total_winner_stake total_reward (resolve_creating winner actual_reward l)
        leftover
  end.

Definition slash_losers_to_award_winners (court_id : Z) (jurors_to_stakes : JurorsToStakes)
    (winner_vote_item : VoteItem) (l : Ledger) : Ledger :=
  let '(total_incentives, total_winner_stake, winners, l) :=
    split_winners jurors_to_stakes winner_vote_item l zero_imbalance 0 [] in
  let reward := free_balance l (reward_pot court_id) in
  let '((imb, _), l) := slash (reward_pot court_id) reward l in
  let total_incentives := subsume total_incentives imb in
  let total_reward := peek total_incentives in
  let '(total_incentives, l) := pay_winners winners total_winner_stake total_reward l total_incentives in
  if peek total_incentives =? 0 then l else on_unbalanced total_incentives l.

Definition reassign_court_stakes (origin : Origin) (court_id : Z) : CourtM unit := transactional (
  lift (ensure_signed origin) ;;
  s ← get;
  court ← lift (ok_or (Courts s !! court_id) (court_error CourtNotFound));
  winner ← lift match court_status court with
    | CourtClosed winner => Ok winner
    | Reassigned => Err (court_error CourtAlreadyReassigned)
    | CourtOpen => Err (court_error CourtNotClosed)
    end;
  jurors_to_stakes ← handle_draws court_id (draws_of court_id s) [];
  on_ledger (fun l => (tt, slash_losers_to_award_winners court_id jurors_to_stakes winner l)) ;;
  insert_court court_id (set_court_status Reassigned court) ;;
  modify (fun s => set_SelectedDraws (delete court_id (SelectedDraws s)) s) ;;
  deposit_event (StakesReassigned court_id)).

(** ** Inflation *)

Definition set_inflation (origin : Origin) (inflation : Z) : CourtM unit := transactional (
  lift (ensure (MonetaryGovernanceOrigin origin) BadOrigin) ;;
  lift (ensure (inflation <=? MaxYearlyInflation)
          (court_error InflationExceedsMaxYearlyInflation)) ;;
  modify (set_YearlyInflation inflation) ;;
  deposit_event (InflationSet inflation)).

Definition eligible_stake (current_period_index : option Z) (pool_item : CourtPoolItem) : Z :=
  match current_period_index with
  | Some index =>
      if negb (index =? uneligible_index pool_item) then stake pool_item
      else saturating_sub (stake pool_item) (uneligible_stake pool_item)
  | None => saturating_sub (stake pool_item) (uneligible_stake pool_item)
  end.

(** The loop that mints the shares of the pool items. *)
Fixpoint mint_shares (pool : list CourtPoolItem) (index : option Z)
    (total_eligible_stake inflation_period_mint : Z) (total_mint : NegativeImbalance) :
    CourtM NegativeImbalance :=
  match pool with
  | [] => mret total_mint
  | pool_item :: pool =>
      let eligible := eligible_stake index pool_item in
      if eligible =? 0 then mint_shares pool index total_eligible_stake inflation_period_mint total_mint
      else
        let share := perquintill_from_rational eligible total_eligible_stake in
        let mint := perquintill_mul_floor share inflation_period_mint in
        let '(mint_imb, remainder) := split_imbalance total_mint mint in
        let mint_amount := peek mint_imb in
        o ← on_ledger (resolve_into_existing (court_participant pool_item) mint_imb);
        match o with
        | None => deposit_event (MintedInCourt (court_participant pool_item) mint_amount)
        | Some imb => on_ledger (fun l => (tt, drop_imbalance imb l))
        end ;;
        mint_shares pool index total_eligible_stake inflation_period_mint remainder
  end.

Definition handle_inflation (now : Z) : CourtM unit :=
  match checked_rem now InflationPeriod with
  | Some 0 =>
      s ← get;
      let yearly_inflation_rate := YearlyInflation s in
      if yearly_inflation_rate =? 0 then mret tt else
      let total_supply := total_issuance (ledger s) in
      let yearly_inflation_amount := perbill_mul_floor yearly_inflation_rate total_supply in
      let issue_per_block := yearly_inflation_amount / Z.max BlocksPerYear 1 in
      let inflation_period_mint := saturating_mul 128 issue_per_block InflationPeriod in
      if yearly_inflation_amount <? inflation_period_mint then mret tt else
      let current_period_index := (fun x => saturating_sub x 1) <$> checked_div now InflationPeriod in
      let total_eligible_stake :=
        fold_left (fun acc pool_item =>
          saturating_add 128 (eligible_stake current_period_index pool_item) acc) (CourtPool s) 0 in
      if total_eligible_stake =? 0 then mret tt else
      total_mint ← on_ledger (issue inflation_period_mint);
      total_mint ← mint_shares (CourtPool s) current_period_index total_eligible_stake
                     inflation_period_mint total_mint;
      let remainder := peek total_mint in
      if remainder =? 0 then mret tt
      else on_ledger (fun l => (tt, burn remainder (drop_imbalance total_mint l)))
  | _ => mret tt
  end.

Definition on_initialize (now : Z) : CourtM unit :=
  handle_inflation now ;;
  request_block ← gets RequestBlock;
  if request_block <=? now
  then modify (set_RequestBlock (saturating_add 32 now RequestInterval))
  else mret tt.

(** ** The dispute API *)

Definition on_dispute (market_id : Z) (m : Market) : CourtM unit :=
  lift (ensure_dispute_mechanism m) ;;
  court_id ← gets NextCourtId;
  next_court_id ← lift (ok_or (checked_add 128 court_id 1) (court_error MaxCourtIdReached));
  new_draws ← select_participants 0;
  request_block ← gets RequestBlock;
  let court := CourtInfo_new (round_timing request_block) OutcomeVotes in
  queue_add market_id (appeal_end (round_ends court)) ;;
  insert_draws court_id new_draws ;;
  insert_court court_id court ;;
  modify (fun s => set_MarketIdToCourtId (<[market_id := court_id]> (MarketIdToCourtId s)) s) ;;
  modify (fun s => set_CourtIdToMarketId (<[court_id := market_id]> (CourtIdToMarketId s)) s) ;;
  modify (set_NextCourtId next_court_id) ;;
  deposit_event (CourtOpened market_id court).

(** The court of a market. *)
Definition court_of (s : CourtState) (market_id : Z) : Res Z :=
  ok_or (MarketIdToCourtId s !! market_id) (court_error MarketIdToCourtIdNotFound).

Definition on_resolution (market_id : Z) (m : Market) : CourtM (option OutcomeReport) :=
  lift (ensure_dispute_mechanism m) ;;
  s ← get;
  court_id ← lift (court_of s market_id);
  court ← lift (ok_or (Courts s !! court_id) (court_error CourtNotFound));
  let draws := draws_of court_id s in
  winner_vote_item ← lift (get_latest_winner_vote_item s court_id draws);
  unlock_participants_from_last_draw draws ;;
  insert_court court_id (set_court_status (CourtClosed winner_vote_item) court) ;;
  winner_outcome ← lift (ok_or (into_outcome winner_vote_item) (court_error WinnerVoteItemIsNoOutcome));
  mret (Some winner_outcome).

(** The loop of [exchange] over the appeals. *)
Fixpoint exchange_appeals (l : list AppealInfo) (resolved_outcome : OutcomeReport)
    (overall_imbalance : NegativeImbalance) : CourtM NegativeImbalance :=
  match l with
  | [] => mret overall_imbalance
  | mkAppeal backer bond appealed :: l =>
      appealed_vote_item_as_outcome ← lift (ok_or (into_outcome appealed)
        (court_error AppealedVoteItemIsNoOutcome));
      if decide (resolved_outcome = appealed_vote_item_as_outcome) then
        '(imb, _) ← on_ledger (slash_reserved_named reserve_id backer bond);
        exchange_appeals l resolved_outcome (subsume overall_imbalance imb)
      else
        on_ledger (unreserve_named reserve_id backer bond) ;;
        exchange_appeals l resolved_outcome overall_imbalance
  end.

Definition exchange (market_id : Z) (m : Market) (resolved_outcome : OutcomeReport)
    (overall_imbalance : NegativeImbalance) : CourtM NegativeImbalance :=
  lift (ensure_dispute_mechanism m) ;;
  s ← get;
  court_id ← lift (court_of s market_id);
  court ← lift (ok_or (Courts s !! court_id) (court_error CourtNotFound));
  exchange_appeals (appeals court) resolved_outcome overall_imbalance.

Definition get_auto_resolve (s : CourtState) (market_id : Z) (m : Market) : option Z :=
  if decide (dispute_mechanism m = Some Court) then
    court_id ← MarketIdToCourtId s !! market_id;
    court ← Courts s !! court_id;
    Some (appeal_end (round_ends court))
  else None.

Definition pool_unconsumed_stake (pool : list CourtPoolItem) : Z :=
  fold_left (fun acc pool_item =>
    let unconsumed := saturating_sub (stake pool_item) (consumed_stake pool_item) in
    let remainder := match checked_rem_res unconsumed MinJurorStake with Ok r => r | Err _ => 0 end in
    saturating_add 128 acc (saturating_sub unconsumed remainder)) pool 0.

Definition has_failed (s : CourtState) (market_id : Z) (m : Market) : Res bool :=
  ensure_dispute_mechanism m ;;
  let now := block_number s in
  court_id ← court_of s market_id;
  let unconsumed := pool_unconsumed_stake (CourtPool s) in
  match Courts s !! court_id with
  | Some court =>
      let appeal_number := saturating_add 32 (Z.of_nat (length (appeals court))) 1 in
      let required_stake := saturating_mul 128 (necessary_draws_weight appeal_number) MinJurorStake in
      let valid_period := is_ok (check_appealable_market s court_id court now) in
      Ok ((MaxAppeals <=? Z.of_nat (length (appeals court))) ||
          (valid_period && (unconsumed <? required_stake)))
  | None =>
      report ← ok_or (report m) (court_error MarketReportNotFound);
      let report_block := report_at report in
      let block_after_dispute_duration :=
        saturating_add 32 report_block (dispute_duration (deadlines m)) in
      let during_dispute_duration :=
        (report_block <=? now) && (now <? block_after_dispute_duration) in
      let required_stake := saturating_mul 128 (necessary_draws_weight 0) MinJurorStake in
      Ok (during_dispute_duration && (unconsumed <? required_stake))
  end.

(** The global-dispute items of the appealed outcomes other than the oracle's. *)
Definition appealed_outcomes (oracle_outcome : OutcomeReport) (l : list AppealInfo) :
    list GlobalDisputeItem :=
  omap (fun a =>
    match into_outcome (appealed_vote_item a) with
    | Some outcome =>
        if decide (outcome = oracle_outcome) then None
        else Some (mkGlobalDisputeItem treasury_account_id outcome 0)
    | None => None
    end) l.

(** Release the draws of a court and forget it. *)
Definition remove_court (court_id : Z) : CourtM unit :=
  old_draws ← gets (draws_of court_id);
  unlock_participants_from_last_draw old_draws ;;
  modify (fun s => set_SelectedDraws (delete court_id (SelectedDraws s)) s) ;;
  modify (fun s => set_Courts (delete court_id (Courts s)) s).

Definition on_global_dispute (market_id : Z) (m : Market) : CourtM (list GlobalDisputeItem) :=
  lift (ensure_dispute_mechanism m) ;;
  s ← get;
  match MarketIdToCourtId s !! market_id with
  | Some court_id =>
      court ← lift (ok_or (Courts s !! court_id) (court_error CourtNotFound));
      report ← lift (ok_or (report m) (court_error MarketReportNotFound));
      remove_court court_id ;;
      mret (appealed_outcomes (report_outcome report) (appeals court))
  | None => mret []
  end.

Definition clear (market_id : Z) (m : Market) : CourtM unit :=
  lift (ensure_dispute_mechanism m) ;;
  s ← get;
  court_id ← lift (court_of s market_id);
  remove_court court_id.
End Voting.
