(* ===== verification/CourtInv.v ===== *)
(** * The court pallet: the storage invariant

    A step relation of every call of the pallet, and the invariant all
    reachable storages satisfy: the pool is strictly sorted, bounded and agrees
    with the participants; the draws of a court are strictly sorted by account
    (what [vote], [denounce_vote] and [reveal_vote] binary-search); the round
    ends of a court are ordered; and the two market/court maps agree. *)

From S2P Require Import Prelude Errors FixedMath Collections Interfaces Market CourtTypes.
From S2P Require Import CourtPool CourtSelection CourtVoting.

Section Invariant.
Context `{CourtConfig}.

(** ** The invariant *)

Abbreviation Key := (Z * AccountId)%type.

(** Every pool entry belongs to a participant with that stake, who has not
    prepared to exit. *)
Definition pool_matches (keys : list Key) (ps : gmap AccountId CourtParticipantInfo) : Prop :=
  forall st who, (st, who) ∈ keys ->
    exists i, ps !! who = Some i /\ pi_stake i = st /\ pi_prepare_exit_at i = None.

Definition pool_inv (keys : list Key) (ps : gmap AccountId CourtParticipantInfo) : Prop :=
  sorted_by id keys /\ Z.of_nat (length keys) <= MaxCourtParticipants /\ pool_matches keys ps.

Definition draws_ok (ds : list Draw) : Prop :=
  sorted_by draw_participant ds /\ Z.of_nat (length ds) <= MaxSelectedDraws.

Definition timing_ok (t : RoundTiming) : Prop :=
  pre_vote t <= vote_end t /\ vote_end t <= aggregation t /\ aggregation t <= appeal_end t.

Definition court_ok (c : CourtInfo) : Prop :=
  Z.of_nat (length (appeals c)) <= MaxAppeals /\ timing_ok (round_ends c).

Definition ids_inv (s : CourtState) : Prop :=
  0 <= NextCourtId s /\
  (forall m c, MarketIdToCourtId s !! m = Some c -> CourtIdToMarketId s !! c = Some m) /\
  (forall c m, CourtIdToMarketId s !! c = Some m -> 0 <= c < NextCourtId s).

Definition court_inv (s : CourtState) : Prop :=
  pool_inv (pool_key <$> CourtPool s) (Participants s) /\
  map_Forall (fun _ => draws_ok) (SelectedDraws s) /\
  map_Forall (fun _ => court_ok) (Courts s) /\
  ids_inv s /\
  RequestBlock s <= umax 32.

(** The constants are unsigned. *)
Definition config_ok : Prop :=
  0 <= MaxCourtParticipants /\ 0 <= MaxSelectedDraws /\ 0 <= MaxAppeals /\
  0 <= VotePeriod /\ 0 <= AggregationPeriod /\ 0 <= AppealPeriod.

(** ** The pool *)

Lemma pool_keys_sorted s : court_inv s -> sorted_by pool_key (CourtPool s).
Proof. intros [[Hs _] _]. by apply sorted_by_fmap. Qed.

Lemma pool_inv_sublist keys keys' ps :
  sublist keys' keys -> pool_inv keys ps -> pool_inv keys' ps.
Proof.
  intros Hsub (Hs & Hl & Hm). split_and!.
  - by eapply sorted_by_sublist.
  - apply sublist_length in Hsub. lia.
  - intros st who Hin. apply Hm. by eapply elem_of_sublist.
Qed.

(** An account is in the pool at most once, under the stake it has. *)
Lemma pool_inv_participant keys ps who i st :
  pool_inv keys ps -> ps !! who = Some i -> (st, who) ∈ keys -> st = pi_stake i.
Proof. intros (_ & _ & Hm) Hi (i' & Hi' & <- & _)%Hm. congruence. Qed.

Lemma pool_inv_insert keys ps who st i k :
  pool_inv keys ps -> (forall st', (st', who) ∉ keys) ->
  binary_search_by_key (st, who) id keys = NotFound k ->
  Z.of_nat (length keys) < MaxCourtParticipants ->
  pi_stake i = st -> pi_prepare_exit_at i = None ->
  pool_inv (vec_insert k (st, who) keys) (<[who := i]> ps).
Proof.
  intros (Hs & Hl & Hm) Hno Hk Hlt Hst Hex. split_and!.
  - by apply (sorted_by_insert id).
  - rewrite length_vec_insert. lia.
  - intros st' who' [[= -> ->]|Hin]%elem_of_vec_insert.
    + exists i. by rewrite lookup_insert_eq.
    + destruct (Hm _ _ Hin) as (i' & Hi' & ?). exists i'.
      rewrite lookup_insert_ne; [done|]. intros ->. by apply (Hno st').
Qed.

(** Writing a participant who is not in the pool. *)
Lemma pool_inv_outsider keys ps who o :
  pool_inv keys ps -> (forall st, (st, who) ∉ keys) ->
  pool_inv keys (partial_alter (fun _ => o) who ps).
Proof.
  intros (Hs & Hl & Hm) Hno. split_and!; [done..|]. intros st who' Hin.
  destruct (Hm _ _ Hin) as (i & Hi & ?). exists i. rewrite lookup_partial_alter_ne; [done|].
  intros ->. by apply (Hno st).
Qed.

(** [get_pool_item] finds exactly the items of the pool. *)
Lemma get_pool_item_spec pool st who r :
  sorted_by pool_key pool -> get_pool_item pool st who = r ->
  (exists i item, r = Ok (Some (i, item)) /\ pool !! i = Some item /\ pool_key item = (st, who)) \/
  (r = Ok None /\ (st, who) ∉ (pool_key <$> pool)).
Proof.
  intros Hs <-. unfold get_pool_item.
  destruct (binary_search_by_key _ _ _) as [i|i] eqn:Hb.
  - left. apply search_key_found_inv in Hb as (x & Hx & Hk). rewrite Hx. cbn. eauto.
  - right. split; [done|]. apply (search_key_not_found pool_key) in Hb as [_ Hb]; [|done].
    intros (x & Hk & Hin)%list_elem_of_fmap. by apply (Hb x).
Qed.

(** Removing the only entry of an account leaves none. *)
Lemma pool_delete_absent pool i item ps :
  pool_inv (pool_key <$> pool) ps -> pool !! i = Some item ->
  forall st, (st, court_participant item) ∉ pool_key <$> delete i pool.
Proof.
  intros Hinv Hi st Hin. pose proof Hinv as (Hs & _ & Hm).
  assert (Hin' : pool_key item ∈ pool_key <$> pool)
    by (apply list_elem_of_fmap; eexists; split; [done|by eapply list_elem_of_lookup_2]).
  destruct (Hm _ _ Hin') as (p & Hp & Hst & _).
  assert ((st, court_participant item) ∈ pool_key <$> pool) as Hin2.
  { rewrite list_fmap_delete in Hin. eapply elem_of_sublist; [exact Hin|]. apply sublist_delete. }
  rewrite (pool_inv_participant _ _ _ _ _ Hinv Hp Hin2), Hst in Hin. clear Hin2.
  apply sorted_by_fmap, (sorted_by_NoDup pool_key) in Hs.
  rewrite list_fmap_delete in Hin. apply list_elem_of_lookup in Hin as (j & Hj).
  assert (Hki : (pool_key <$> pool) !! i = Some (pool_key item)) by (by rewrite list_lookup_fmap, Hi).
  destruct (decide (j < i)%nat) as [Hlt|Hge].
  - rewrite list_lookup_delete_lt in Hj by done.
    assert (j = i) by (by eapply NoDup_lookup). lia.
  - rewrite list_lookup_delete_ge in Hj by lia.
    assert (S j = i) by (by eapply NoDup_lookup). lia.
Qed.

(** ** Joining and leaving *)

Lemma remove_weakest_ok p amount p' :
  remove_weakest_if_full p amount = Ok p' ->
  (is_full p = false /\ p' = p) \/
  (is_full p = true /\ exists lowest, p = lowest :: p' /\ stake lowest < amount).
Proof.
  unfold remove_weakest_if_full. destruct (is_full p); [|by intros [= <-]; left].
  intros (_ & Hlt%ensure_ok%Z.ltb_lt & H1)%result_bind_ok. right. split; [done|].
  apply result_bind_ok in H1 as ([x q] & Hr%ok_or_ok & [= <-]).
  apply vec_remove_some in Hr as [Hx ->]. destruct p as [|y p]; simpl in *; [done|]. eauto.
Qed.

(** What is left of the pool when [who] is about to be inserted: her own entry
    is taken out, or, if she has none and the pool is full, the lowest. *)
Definition pruned (pool : list CourtPoolItem) (who : AccountId) (amount : Z)
    (pool' : list CourtPoolItem) : Prop :=
  (exists i item, pool !! i = Some item /\ court_participant item = who /\ pool' = delete i pool) \/
  (forall st, (st, who) ∉ pool_key <$> pool) /\
    ((is_full pool = false /\ pool' = pool) \/
     (is_full pool = true /\ exists lowest, pool = lowest :: pool' /\ stake lowest < amount)).

Lemma pruned_spec pool ps who amount pool' :
  pool_inv (pool_key <$> pool) ps -> pruned pool who amount pool' ->
  sublist pool' pool /\ forall st, (st, who) ∉ pool_key <$> pool'.
Proof.
  intros Hinv [(i & item & Hi & <- & ->)|[Habs [[_ ->]|[_ (x & -> & _)]]]].
  - split; [apply sublist_delete|]. by eapply pool_delete_absent.
  - done.
  - split; [by apply sublist_cons|]. intros st Hin. apply (Habs st). by right.
Qed.

Lemma handle_existing_ok pool ps who amount info pool' c o :
  pool_inv (pool_key <$> pool) ps -> ps !! who = Some info ->
  handle_existing_participant who amount pool info = Ok (pool', c, o) ->
  pi_stake info <= amount /\ pruned pool who amount pool'.
Proof.
  intros Hinv Hi Hr. pose proof Hinv as (Hs & _ & _). apply sorted_by_fmap in Hs.
  unfold handle_existing_participant in Hr.
  apply result_bind_ok in Hr as (_ & Hge%ensure_ok%Z.leb_le & Hr).
  split; [done|].
  apply result_bind_ok in Hr as (r & Hget & Hr).
  apply get_pool_item_spec in Hget as [(i & item & [= ->] & Hitem & Hkey)|[[= ->] Habs]]; [| |done].
  - apply result_bind_ok in Hr as ([x q] & Hrem%ok_or_ok & [= <- <- <-]).
    apply vec_remove_some in Hrem as [_ ->]. left. injection Hkey as _ <-. eauto.
  - apply result_bind_ok in Hr as (q & Hq%remove_weakest_ok & [= <- <- <-]).
    right. split; [|done]. intros st Hin.
    by rewrite (pool_inv_participant _ _ _ _ _ Hinv Hi Hin) in Hin.
Qed.

(** The writes [do_join_court] ends with. *)
Lemma do_join_court_ok s who amount ds n s' :
  court_inv s -> do_join_court who amount ds s = (Ok n, s') ->
  MinJurorStake <= amount <= free_balance (ledger s) who /\
  (forall info, Participants s !! who = Some info -> pi_stake info <= amount) /\
  exists pool item k,
    pruned (CourtPool s) who amount pool /\
    binary_search_by_key (amount, who) pool_key pool = NotFound k /\
    Z.of_nat (length pool) < MaxCourtParticipants /\
    pool_key item = (amount, who) /\
    s' = set_Participants (<[who := mkInfo amount
             (default 0 (pi_active_lock <$> Participants s !! who)) None ds]> (Participants s))
           (set_CourtPool (vec_insert k item pool)
              (set_ledger (set_lock LockId who amount (ledger s)) s)).
Proof.
  intros Hinv Hr. pose proof Hinv as ((Hs & Hl & Hm) & _). unfold do_join_court in Hr.
  apply bind_ok in Hr as (? & s0 & [Hmin%ensure_ok%Z.leb_le ->]%lift_ok & Hr).
  apply bind_ok in Hr as (s1 & ? & [-> ->]%get_ok & Hr).
  apply bind_ok in Hr as (? & ? & [Hfree%ensure_ok%Z.leb_le ->]%lift_ok & Hr).
  apply bind_ok in Hr as ([[[pool prev] lock] cons] & s2 & Hpool & Hr).
  assert (s2 = s /\ lock = default 0 (pi_active_lock <$> Participants s !! who) /\
          (forall info, Participants s !! who = Some info -> pi_stake info <= amount) /\
          pruned (CourtPool s) who amount pool)
    as (-> & -> & Hst & Hpr).
  { destruct (Participants s !! who) as [info|] eqn:Hi.
    - apply bind_ok in Hpool as ([[q c] o] & ? & [Hh ->]%lift_ok & [[= -> -> -> ->] ->]%mret_ok).
      apply (handle_existing_ok _ (Participants s)) in Hh as (? & ?); [|apply Hinv|done].
      split_and!; [done..| |done]. by intros ? [= <-].
    - apply bind_ok in Hpool as (q & ? & [Hh ->]%lift_ok & [[= -> -> -> ->] ->]%mret_ok).
      apply remove_weakest_ok in Hh. split_and!; [done..|].
      right. split; [|done]. intros st (i & Hi' & _)%Hm. congruence. }
  apply bind_ok in Hr as (idx & ? & [_ ->]%lift_ok & Hr).
  apply bind_ok in Hr as (un & ? & [_ ->]%lift_ok & Hr).
  apply bind_ok in Hr as (pool' & ? & [Hins ->]%lift_ok & Hr).
  apply bind_ok in Hr as (? & ? & [_ ->]%modify_ok & Hr).
  apply bind_ok in Hr as (? & ? & [_ ->]%modify_ok & Hr).
  apply bind_ok in Hr as (? & ? & [_ ->]%modify_ok & [_ ->]%mret_ok).
  split_and!; [lia..|done|].
  destruct (binary_search_by_key _ _ _) as [k|k] eqn:Hb; [done|].
  apply ok_or_ok in Hins. unfold try_insert in Hins.
  destruct (Z.ltb_spec (Z.of_nat (length pool)) MaxCourtParticipants); [|done].
  injection Hins as <-. eexists pool, _, k. split_and!; [done..| |]; [|reflexivity]. done.
Qed.

Lemma vec_insert_fmap {A B} (f : A -> B) k x l :
  f <$> vec_insert k x l = vec_insert k (f x) (f <$> l).
Proof. unfold vec_insert. by rewrite fmap_app, fmap_cons, fmap_take, fmap_drop. Qed.

Lemma binary_search_fmap {A K} `{Ord K} (key : A -> K) k l :
  binary_search_by_key k key l = binary_search_by_key k id (key <$> l).
Proof.
  unfold binary_search_by_key, binary_search_by. rewrite length_fmap.
  assert (Hg : forall n a b, binary_search_loop (fun x => cmp (key x) k) l n a b =
      binary_search_loop (fun x => cmp (id x) k) (key <$> l) n a b); [|apply Hg].
  induction n as [|n IH]; intros a b; simpl; [done|]. rewrite list_lookup_fmap.
  destruct (l !! _); simpl; [|done]. by rewrite !IH.
Qed.

Lemma do_join_court_inv who amount ds :
  triple court_inv (do_join_court who amount ds) (fun _ => court_inv).
Proof.
  intros s n s' Hinv Hr. pose proof Hinv as (Hp & Hd & Hc & Hi & Hrb).
  apply do_join_court_ok in Hr as (_ & _ & pool & item & k & Hpr & Hb & Hlt & Hk & ->); [|done].
  destruct (pruned_spec _ _ _ _ _ Hp Hpr) as [Hsub Habs].
  split; [|by split_and!]. cbn. rewrite vec_insert_fmap, Hk.
  apply pool_inv_insert; [|done| |by rewrite length_fmap|done..].
  - eapply pool_inv_sublist; [|exact Hp]. by apply list_sublist_fmap.
  - by rewrite <- binary_search_fmap.
Qed.

Lemma prepare_exit_court_inv origin :
  triple court_inv (prepare_exit_court origin) (fun _ => court_inv).
Proof.
  apply triple_transactional. intros s u s' Hinv Hr. pose proof Hinv as (Hp & Hrest).
  apply bind_ok in Hr as (who & ? & [_ ->]%lift_ok & Hr).
  apply bind_ok in Hr as (? & ? & [-> ->]%get_ok & Hr).
  apply bind_ok in Hr as (info & ? & [Hi%ok_or_ok ->]%lift_ok & Hr).
  apply bind_ok in Hr as (? & ? & [_ ->]%lift_ok & Hr).
  apply bind_ok in Hr as (o & ? & [Hget ->]%lift_ok & Hr).
  apply bind_ok in Hr as (? & s1 & Hpool & Hr).
  apply bind_ok in Hr as (? & ? & [_ ->]%modify_ok & [_ ->]%modify_ok).
  assert (exists pool', s1 = set_CourtPool pool' s /\ sublist pool' (CourtPool s) /\
          forall st, (st, who) ∉ pool_key <$> pool') as (pool' & -> & Hsub & Habs).
  { apply get_pool_item_spec in Hget as [(i & item & [= ->] & Hitem & Hkey)|[[= ->] Habs]];
      [..|by apply pool_keys_sorted].
    - apply bind_ok in Hpool as ([it q] & ? & [Hrem%ok_or_ok ->]%lift_ok & [_ ->]%modify_ok).
      apply vec_remove_some in Hrem as [_ ->]. eexists. split; [reflexivity|].
      split; [apply sublist_delete|]. injection Hkey as _ <-. by eapply pool_delete_absent.
    - apply mret_ok in Hpool as [_ ->]. exists (CourtPool s). split_and!; [by destruct s|done|].
      intros st Hin. by rewrite (pool_inv_participant _ _ _ _ _ Hp Hi Hin) in Hin. }
  split; [|exact Hrest]. apply pool_inv_outsider; [|done].
  eapply pool_inv_sublist; [by apply list_sublist_fmap|exact Hp].
Qed.

Lemma exit_court_inv origin who :
  triple court_inv (exit_court origin who) (fun _ => court_inv).
Proof.
  apply triple_transactional. intros s u s' Hinv Hr. pose proof Hinv as (Hp & Hrest).
  apply bind_ok in Hr as (? & ? & [_ ->]%lift_ok & Hr).
  apply bind_ok in Hr as (a & ? & [_ ->]%lift_ok & Hr).
  apply bind_ok in Hr as (? & ? & [-> ->]%get_ok & Hr).
  apply bind_ok in Hr as (info & ? & [Hi%ok_or_ok ->]%lift_ok & Hr).
  apply bind_ok in Hr as (at_ & ? & [Hat%ok_or_ok ->]%lift_ok & Hr).
  apply bind_ok in Hr as (? & ? & [_ ->]%lift_ok & Hr).
  assert (Habs : forall st, (st, a) ∉ pool_key <$> CourtPool s).
  { intros st (i & Hi' & _ & Hn)%Hp. congruence. }
  apply bind_ok in Hr as ([ea al] & s1 & Hs1 & [_ ->]%modify_ok).
  destruct (pi_active_lock info =? 0).
  - apply bind_ok in Hs1 as (? & ? & [_ ->]%modify_ok & Hs1).
    apply bind_ok in Hs1 as (? & ? & [_ ->]%modify_ok & [_ ->]%mret_ok).
    split; [|exact Hrest]. by apply (pool_inv_outsider _ _ _ None).
  - apply bind_ok in Hs1 as (? & ? & [_ ->]%modify_ok & Hs1).
    apply bind_ok in Hs1 as (? & ? & [_ ->]%modify_ok & [_ ->]%mret_ok).
    split; [|exact Hrest]. by apply (pool_inv_outsider _ _ _ (Some _)).
Qed.

Lemma deposit_event_inv e : triple court_inv (deposit_event e) (fun _ => court_inv).
Proof. by apply triple_modify. Qed.

Lemma join_court_inv origin amount : triple court_inv (join_court origin amount) (fun _ => court_inv).
Proof.
  apply triple_transactional. eapply triple_bind; [apply triple_lift|]. intros who.
  eapply triple_bind; [apply do_join_court_inv|]. intros ?. apply deposit_event_inv.
Qed.

Lemma delegate_inv origin amount ds :
  triple court_inv (delegate origin amount ds) (fun _ => court_inv).
Proof.
  apply triple_transactional.
  repeat (eapply triple_bind; [first [apply triple_lift|apply triple_get]|intros ?]).
  eapply triple_bind; [apply do_join_court_inv|]. intros ?. apply deposit_event_inv.
Qed.

(** ** Changes of locks and nonces only *)

(** The storage with locks and the nonce blanked: what drawing jurors and
    releasing draws leave alone. *)
Definition frame (s : CourtState) : CourtState :=
  set_SelectionNonce 0 (set_Participants (set_active_lock 0 <$> Participants s) s).

Lemma frame_participant s s' who i :
  frame s = frame s' -> Participants s !! who = Some i ->
  exists i', Participants s' !! who = Some i' /\ set_active_lock 0 i = set_active_lock 0 i'.
Proof.
  intros Hf Hi. apply (f_equal (fun s => Participants s !! who)) in Hf. cbn in Hf.
  rewrite !lookup_fmap, Hi in Hf. destruct (Participants s' !! who) as [i'|]; [|done].
  injection Hf as ???. exists i'. split; [done|]. unfold set_active_lock. congruence.
Qed.

Lemma frame_inv s s' : frame s = frame s' -> court_inv s -> court_inv s'.
Proof.
  intros Hf ((Hs & Hl & Hm) & Hd & Hc & Hi & Hr).
  pose proof (f_equal CourtPool Hf) as Hpool. cbn in Hpool.
  split_and!; [split_and!|..].
  - by rewrite <- Hpool.
  - by rewrite <- Hpool.
  - rewrite <- Hpool. intros st who (i & Hi' & Hst & Hex)%Hm.
    destruct (frame_participant _ _ _ _ Hf Hi') as (i' & ? & Heq). exists i'.
    injection Heq as ???. split_and!; congruence.
  - pose proof (f_equal SelectedDraws Hf) as E. cbn in E. by rewrite <- E.
  - pose proof (f_equal Courts Hf) as E. cbn in E. by rewrite <- E.
  - unfold ids_inv in *. pose proof (f_equal NextCourtId Hf) as E1.
    pose proof (f_equal MarketIdToCourtId Hf) as E2. pose proof (f_equal CourtIdToMarketId Hf) as E3.
    cbn in E1, E2, E3. by rewrite <- E1, <- E2, <- E3.
  - pose proof (f_equal RequestBlock Hf) as E. cbn in E. by rewrite <- E.
Qed.

Lemma frame_relock s who i x :
  Participants s !! who = Some i ->
  frame (set_Participants (<[who := set_active_lock x i]> (Participants s)) s) = frame s.
Proof.
  intros Hi. unfold frame. cbn [Participants set_Participants].
  rewrite fmap_insert, insert_id; [done|]. by rewrite lookup_fmap, Hi.
Qed.

(** [keeps_frame m]: a successful or failed run of [m] changes locks and the
    nonce only. *)
Definition keeps_frame {E A} (m : ST E CourtState A) : Prop :=
  forall s r s', m s = (r, s') -> frame s' = frame s.

Lemma keeps_frame_bind {E A B} (m : ST E CourtState A) (f : A -> ST E CourtState B) :
  keeps_frame m -> (forall a, keeps_frame (f a)) -> keeps_frame (m ≫= f).
Proof.
  intros Hm Hf s r s'. unfold mbind, st_bind. destruct (m s) as [[a|e] s1] eqn:Hs.
  - intros Hr. etransitivity; [by eapply Hf|by eapply Hm].
  - intros [= _ <-]. by eapply Hm.
Qed.
Lemma keeps_frame_lift {E A} (r : Result E A) : keeps_frame (lift r).
Proof. by intros s r' s' [= _ <-]. Qed.
Lemma keeps_frame_mret {E A} (a : A) : keeps_frame (mret a : ST E CourtState A).
Proof. by intros s r' s' [= _ <-]. Qed.
Lemma keeps_frame_fail {E A} (e : E) : keeps_frame (fail e : ST E CourtState A).
Proof. by intros s r' s' [= _ <-]. Qed.
Lemma keeps_frame_attempt {E F A} (m : ST F CourtState A) :
  keeps_frame m -> keeps_frame (attempt m : ST E CourtState _).
Proof. intros Hm s r s'. unfold attempt. destruct (m s) eqn:Hs. intros [= _ <-]. by eapply Hm. Qed.

Lemma keeps_frame_relock who f :
  keeps_frame (s ← get;
    match Participants s !! who with
    | Some i => insert_participant who (set_active_lock (f i) i)
    | None => mret tt
    end).
Proof.
  intros s r s'. unfold mbind, st_bind. cbn.
  destruct (Participants s !! who) as [i|] eqn:Hi; intros [= _ <-]; [by apply frame_relock|done].
Qed.

Lemma keeps_frame_for_each {E A} (xs : list A) (f : A -> ST E CourtState unit) :
  (forall x, keeps_frame (f x)) -> keeps_frame (for_each xs f).
Proof.
  intros Hf. induction xs as [|x xs IH]; [apply keeps_frame_mret|].
  by apply keeps_frame_bind.
Qed.

Lemma rng_frame : keeps_frame rng.
Proof. by intros s r s' [= _ <-]. Qed.

Lemma get_valid_delegated_juror_frame ds : keeps_frame (get_valid_delegated_juror ds).
Proof.
  intros s r s'. unfold get_valid_delegated_juror. destruct (rng s) as [[g|e] s1] eqn:Hg;
    apply rng_frame in Hg; [destruct (valid_delegated_jurors s1 ds)|]; by intros [= _ <-].
Qed.

Lemma add_to_selections_frame sel who lock : keeps_frame (add_to_selections sel who lock).
Proof.
  intros s r s'. unfold add_to_selections. unfold mbind at 1, st_bind at 1. cbn [get].
  destruct (Participants s !! who ≫= pi_delegations) as [ds|].
  - apply keeps_frame_bind; [apply get_valid_delegated_juror_frame|]. intros o.
    apply keeps_frame_bind; [apply keeps_frame_lift|]. intros j.
    apply keeps_frame_bind; [apply keeps_frame_lift|]. intros sel'. apply keeps_frame_lift.
  - apply keeps_frame_lift.
Qed.

Lemma selections_loop_frame ends cum pool sel inv_ :
  keeps_frame (selections_loop ends cum pool sel inv_).
Proof.
  revert pool sel inv_. induction ends as [|e ends IH]; intros pool sel inv_; simpl.
  { apply keeps_frame_mret. }
  destruct (pool !! _) as [item|]; [|apply IH].
  apply keeps_frame_bind; [apply keeps_frame_attempt, add_to_selections_frame|]. intros r.
  apply keeps_frame_bind.
  { destruct r as [?|[]]; [apply keeps_frame_mret..|apply keeps_frame_fail]. }
  intros [sel' inv'].
  apply keeps_frame_bind; [apply (keeps_frame_relock _ (fun i => saturating_add 128 (pi_active_lock i) _))|].
  intros []. apply IH.
Qed.

Lemma unlock_frame ds : keeps_frame (unlock_participants_from_last_draw ds).
Proof.
  apply keeps_frame_for_each. intros d.
  apply (keeps_frame_relock _ (fun i => saturating_sub (pi_active_lock i) (draw_slashable d))).
Qed.

Lemma keeps_frame_inv {A} (m : CourtM A) :
  keeps_frame m -> triple court_inv m (fun _ => court_inv).
Proof. intros Hm s a s' Hinv Hr. eapply frame_inv; [|exact Hinv]. symmetry. by eapply Hm. Qed.

(** ** Drawing jurors *)

Lemma update_selections_sorted sel who a sel' :
  bt_sorted sel -> update_selections sel who a = Ok sel' -> bt_sorted sel'.
Proof.
  intros Hs. unfold update_selections. destruct (bt_get who sel) as [[w sl ds]|]; destruct a;
    try (intros [= <-]; by apply bt_insert_sorted);
    intros (x & _ & [= <-])%result_bind_ok; by apply bt_insert_sorted.
Qed.

Lemma add_to_selections_sorted sel who lock s sel' s' :
  bt_sorted sel -> add_to_selections sel who lock s = (Ok sel', s') -> bt_sorted sel'.
Proof.
  intros Hs Hr. unfold add_to_selections in Hr. apply bind_ok in Hr as (? & ? & [-> ->]%get_ok & Hr).
  destruct (Participants s !! who ≫= pi_delegations) as [ds|].
  - apply bind_ok in Hr as (o & ? & _ & Hr). apply bind_ok in Hr as (j & ? & _ & Hr).
    apply bind_ok in Hr as (sel1 & ? & [H1%map_err_ok ->]%lift_ok & [H2%map_err_ok _]%lift_ok).
    eapply update_selections_sorted, H2. by eapply update_selections_sorted, H1.
  - apply lift_ok in Hr as [H1%map_err_ok _]. by eapply update_selections_sorted, H1.
Qed.

(** The loop never changes the keys of the pool and keeps the selections in
    account order. *)
Lemma selections_loop_ok ends cum pool sel inv_ s pool' sel' inv' s' :
  bt_sorted sel ->
  selections_loop ends cum pool sel inv_ s = (Ok (pool', sel', inv'), s') ->
  pool_key <$> pool' = pool_key <$> pool /\ bt_sorted sel'.
Proof.
  revert pool sel inv_ s. induction ends as [|e ends IH]; intros pool sel inv_ s Hs; simpl.
  { by intros [[= <- <- <-] ->]%mret_ok. }
  set (k := match binary_search_by_key _ _ _ with Found i => i | NotFound i => i end).
  destruct (pool !! k) as [item|] eqn:Hk; [|by apply IH].
  intros Hr. apply bind_ok in Hr as (r & s1 & Hadd%attempt_ok & Hr).
  apply bind_ok in Hr as ([sel1 inv1] & s2 & H1 & Hr).
  assert (bt_sorted sel1).
  { destruct r as [sel2|[]]; [| |discriminate H1]; apply mret_ok in H1 as [[= -> ->] _]; [|done].
    by eapply add_to_selections_sorted. }
  apply bind_ok in Hr as (? & s3 & _ & Hr).
  apply IH in Hr as [Hkeys ?]; [|done]. split; [|done].
  rewrite Hkeys. rewrite list_fmap_insert. apply list_insert_id.
  by rewrite list_lookup_fmap, Hk.
Qed.

Lemma remove_indices_sublist is_ pool pool' : remove_indices is_ pool = Ok pool' -> sublist pool' pool.
Proof.
  revert pool. induction is_ as [|i is_ IH]; intros pool; simpl; [by intros [= <-]|].
  intros ([x q] & Hr%ok_or_ok & H1)%result_bind_ok. apply vec_remove_some in Hr as [_ ->].
  etransitivity; [by apply IH|apply sublist_delete].
Qed.

Lemma convert_selections_keys sel : draw_participant <$> convert_selections_to_draws sel = sel.*1.
Proof.
  unfold convert_selections_to_draws. rewrite <- list_fmap_compose. apply list_fmap_ext.
  by intros i [who []] _.
Qed.

Lemma choose_multiple_weighted_ok w s ds s' :
  court_inv s -> choose_multiple_weighted w s = (Ok ds, s') ->
  sorted_by draw_participant ds /\ court_inv s' /\
  exists pool, frame s' = set_CourtPool pool (frame s) /\
    sublist (pool_key <$> pool) (pool_key <$> CourtPool s).
Proof.
  intros Hinv Hr. unfold choose_multiple_weighted in Hr.
  apply bind_ok in Hr as (? & ? & [-> ->]%gets_ok & Hr).
  apply bind_ok in Hr as ([total cum] & ? & [_ ->]%lift_ok & Hr).
  apply bind_ok in Hr as (? & ? & [_ ->]%lift_ok & Hr).
  apply bind_ok in Hr as (ends & s1 & Hends & Hr).
  assert (Hf1 : frame s1 = frame s).
  { apply bind_ok in Hends as (g & s0 & Hg & [_ ->]%lift_ok). by eapply rng_frame. }
  apply bind_ok in Hr as ([pool' sel'] & s2 & Hsel & Hr).
  apply bind_ok in Hr as (? & ? & [_ ->]%modify_ok & [-> ->]%mret_ok).
  unfold get_selections in Hsel. apply bind_ok in Hsel as ([[p sel] bad] & s3 & Hloop & Hsel).
  apply bind_ok in Hsel as (q & ? & [Hrem ->]%lift_ok & [[= -> ->] ->]%mret_ok).
  pose proof (selections_loop_frame _ _ _ _ _ _ _ _ Hloop) as Hf2.
  apply selections_loop_ok in Hloop as [Hkeys Hsorted]; [|constructor].
  apply remove_indices_sublist, (list_sublist_fmap pool_key) in Hrem. rewrite Hkeys in Hrem.
  split; [|split].
  - apply sorted_by_fmap. rewrite convert_selections_keys. by apply sorted_by_fmap in Hsorted.
  - assert (Hinv3 : court_inv s3) by (eapply frame_inv; [|exact Hinv]; congruence).
    pose proof (f_equal CourtPool (eq_trans Hf2 Hf1)) as Epool. cbn in Epool.
    destruct Hinv3 as [Hp Hrest]. split; [|exact Hrest]. cbn.
    eapply pool_inv_sublist; [|exact Hp]. by rewrite Epool.
  - exists q. split; [|done]. rewrite <- Hf1, <- Hf2. done.
Qed.

Lemma select_participants_ok n :
  config_ok -> triple court_inv (select_participants n) (fun ds s => draws_ok ds /\ court_inv s).
Proof.
  intros Hcfg s ds s' Hinv Hr. unfold select_participants in Hr.
  apply bind_ok in Hr as (ds0 & s1 & Hc & [-> ->]%mret_ok).
  apply choose_multiple_weighted_ok in Hc as (Hs & Hi & _); [|done].
  split; [|done]. unfold truncate_from. split.
  - eapply sorted_by_sublist; [apply sublist_take|exact Hs].
  - rewrite length_take. destruct Hcfg as (_ & ? & _). lia.
Qed.

(** ** Storage writes that keep the invariant *)

Lemma insert_draws_inv court_id ds :
  draws_ok ds -> triple court_inv (insert_draws court_id ds) (fun _ => court_inv).
Proof.
  intros Hds. apply triple_modify. intros s (Hp & Hd & Hc & Hi & Hr).
  split_and!; try done. by apply map_Forall_insert_2.
Qed.
Lemma insert_court_inv court_id c :
  court_ok c -> triple court_inv (insert_court court_id c) (fun _ => court_inv).
Proof.
  intros Hok. apply triple_modify. intros s (Hp & Hd & Hc & Hi & Hr).
  split_and!; try done. by apply map_Forall_insert_2.
Qed.
Lemma delete_draws_inv court_id :
  triple court_inv (modify (fun s => set_SelectedDraws (delete court_id (SelectedDraws s)) s) : CourtM unit)
    (fun _ => court_inv).
Proof.
  apply triple_modify. intros s (Hp & Hd & Hc & Hi & Hr).
  split_and!; try done. by apply map_Forall_delete.
Qed.
Lemma delete_court_inv court_id :
  triple court_inv (modify (fun s => set_Courts (delete court_id (Courts s)) s) : CourtM unit)
    (fun _ => court_inv).
Proof.
  apply triple_modify. intros s (Hp & Hd & Hc & Hi & Hr).
  split_and!; try done. by apply map_Forall_delete.
Qed.
Lemma on_ledger_inv {A} (f : Ledger -> A * Ledger) :
  triple court_inv (on_ledger f) (fun _ => court_inv).
Proof. intros s a s' Hinv. unfold on_ledger. destruct (f (ledger s)). by intros [= _ <-]. Qed.
Lemma queue_add_inv m b : triple court_inv (queue_add m b) (fun _ => court_inv).
Proof. intros s a s' Hinv. unfold queue_add. destruct (add_auto_resolve _ _ _). by intros [= _ <-]. Qed.
Lemma queue_remove_inv m b : triple court_inv (queue_remove m b) (fun _ => court_inv).
Proof.
  intros s a s' Hinv. unfold queue_remove. destruct (remove_auto_resolve _ _ _). by intros [= _ <-].
Qed.

Lemma draws_of_ok s court_id : config_ok -> court_inv s -> draws_ok (draws_of court_id s).
Proof.
  intros Hcfg (_ & Hd & _). unfold draws_of. destruct (SelectedDraws s !! court_id) as [ds|] eqn:E.
  - by apply (Hd court_id).
  - split; [constructor|]. destruct Hcfg as (_ & ? & _). cbn. lia.
Qed.

(** Changing the vote of a draw. *)
Lemma revote_ok ds k d v :
  draws_ok ds -> ds !! k = Some d -> draws_ok (<[k := set_draw_vote v d]> ds).
Proof.
  intros [Hs Hl] Hk. split; [|by rewrite length_insert].
  eapply sorted_by_same_keys; [|exact Hs]. rewrite list_fmap_insert. apply list_insert_id.
  by rewrite list_lookup_fmap, Hk.
Qed.

Lemma saturating_add_ge w a b : 0 <= b -> a <= umax w -> a <= saturating_add w a b <= umax w.
Proof. unfold saturating_add. lia. Qed.

Lemma new_timing_ok rb :
  config_ok -> rb <= umax 32 ->
  timing_ok (round_ends (CourtInfo_new (round_timing rb) OutcomeVotes)) /\
  forall c, timing_ok (round_ends (update_round (round_timing rb) c)).
Proof.
  intros (_ & _ & _ & Hv & Ha & Hp) Hrb. unfold timing_ok. cbn.
  pose proof (saturating_add_ge 32 rb VotePeriod Hv Hrb) as H1.
  pose proof (saturating_add_ge 32 _ AggregationPeriod Ha (proj2 H1)) as H2.
  pose proof (saturating_add_ge 32 _ AppealPeriod Hp (proj2 H2)) as H3. split; intros; lia.
Qed.

(** The steps of a call that keep the invariant without further ado. *)
Ltac inv_step :=
  first
    [ apply triple_lift | apply triple_get | apply triple_gets | apply triple_mret
    | apply triple_fail | apply deposit_event_inv | apply on_ledger_inv | apply queue_add_inv
    | apply queue_remove_inv | apply delete_draws_inv | apply delete_court_inv
    | apply keeps_frame_inv, unlock_frame | by apply triple_modify
    | (eapply triple_bind; [inv_step|intros ?]) ].

Ltac inv_steps := repeat inv_step.

(** ** The calls *)

Lemma vote_inv origin court_id commitment :
  config_ok -> triple court_inv (vote origin court_id commitment) (fun _ => court_inv).
Proof.
  intros Hcfg. apply triple_transactional. intros s u s' Hinv Hr.
  apply bind_ok in Hr as (who & ? & [_ ->]%lift_ok & Hr).
  apply bind_ok in Hr as (? & ? & [-> ->]%get_ok & Hr).
  repeat (apply bind_ok in Hr as (? & ? & [_ ->]%lift_ok & Hr)).
  apply bind_ok in Hr as (? & s1 & Hm & Hr). eapply deposit_event_inv; [|exact Hr].
  destruct (binary_search_by_key _ _ _) as [k|k]; [|discriminate Hm].
  apply bind_ok in Hm as (d & ? & [Hd%ok_or_ok ->]%lift_ok & Hm).
  apply bind_ok in Hm as (? & ? & [_ ->]%lift_ok & Hm).
  eapply insert_draws_inv; [|exact Hinv|exact Hm]. apply revote_ok; [by apply draws_of_ok|done].
Qed.

Lemma denounce_vote_inv origin court_id juror item salt :
  config_ok -> triple court_inv (denounce_vote origin court_id juror item salt) (fun _ => court_inv).
Proof.
  intros Hcfg. apply triple_transactional. intros s u s' Hinv Hr.
  apply bind_ok in Hr as (who & ? & [_ ->]%lift_ok & Hr).
  apply bind_ok in Hr as (? & ? & [-> ->]%get_ok & Hr).
  repeat (apply bind_ok in Hr as (? & ? & [_ ->]%lift_ok & Hr)).
  apply bind_ok in Hr as (? & s1 & Hm & Hr). eapply deposit_event_inv; [|exact Hr].
  destruct (binary_search_by_key _ _ _) as [k|k]; [|discriminate Hm].
  apply bind_ok in Hm as (d & ? & [Hd%ok_or_ok ->]%lift_ok & Hm).
  apply bind_ok in Hm as (? & ? & [_ ->]%lift_ok & Hm).
  eapply insert_draws_inv; [|exact Hinv|exact Hm]. apply revote_ok; [by apply draws_of_ok|done].
Qed.

Lemma reveal_vote_inv origin court_id item salt :
  config_ok -> triple court_inv (reveal_vote origin court_id item salt) (fun _ => court_inv).
Proof.
  intros Hcfg. apply triple_transactional. intros s u s' Hinv Hr.
  apply bind_ok in Hr as (who & ? & [_ ->]%lift_ok & Hr).
  apply bind_ok in Hr as (? & ? & [-> ->]%get_ok & Hr).
  repeat (apply bind_ok in Hr as (? & ? & [_ ->]%lift_ok & Hr)).
  apply bind_ok in Hr as ([sl w] & s1 & Hm & Hr). eapply deposit_event_inv; [|exact Hr].
  destruct (binary_search_by_key _ _ _) as [k|k]; [|discriminate Hm].
  apply bind_ok in Hm as (d & ? & [Hd%ok_or_ok ->]%lift_ok & Hm).
  apply bind_ok in Hm as (? & ? & [_ ->]%lift_ok & Hm).
  apply bind_ok in Hm as (? & ? & Hm & [_ ->]%mret_ok).
  eapply insert_draws_inv; [|exact Hinv|exact Hm]. apply revote_ok; [by apply draws_of_ok|done].
Qed.

(** The part of [appeal] that starts a new round. *)
Lemma new_round_inv n court_id old_draws c mo :
  config_ok -> Z.of_nat (length (appeals c)) <= MaxAppeals ->
  triple court_inv
    (new_draws ← select_participants n;
     request_block ← gets RequestBlock;
     let c := update_round (round_timing request_block) c in
     match mo with
     | Some market_id => queue_add market_id (appeal_end (round_ends c)) ;; mret tt
     | None => mret tt
     end ;;
     insert_draws court_id new_draws ;;
     unlock_participants_from_last_draw old_draws ;;
     mret (c, Some (round_ends c)))
    (fun p s => court_ok p.1 /\ court_inv s).
Proof.
  intros Hcfg Hlen. eapply triple_bind; [by apply select_participants_ok|]. intros ds.
  intros s p s' [Hds Hinv] Hr.
  apply bind_ok in Hr as (? & ? & [-> ->]%gets_ok & Hr). cbv zeta in Hr.
  apply bind_ok in Hr as (? & s1 & Hq & Hr).
  assert (court_inv s1).
  { destruct mo; [apply bind_ok in Hq as (? & s2 & Hq & [_ ->]%mret_ok);
      by eapply queue_add_inv|by apply mret_ok in Hq as [_ ->]]. }
  apply bind_ok in Hr as (? & s2 & Hins & Hr). apply insert_draws_inv in Hins; [|done..].
  apply bind_ok in Hr as (? & s3 & Hun & [-> ->]%mret_ok).
  apply (keeps_frame_inv _ (unlock_frame _)) in Hun; [|done].
  split; [|done]. split; [done|]. apply new_timing_ok; [done|]. apply Hinv.
Qed.

Lemma appeal_inv origin court_id :
  config_ok -> triple court_inv (appeal origin court_id) (fun _ => court_inv).
Proof.
  intros Hcfg. apply triple_transactional. intros s u s' Hinv Hr.
  apply bind_ok in Hr as (who & ? & [_ ->]%lift_ok & Hr).
  apply bind_ok in Hr as (? & ? & [-> ->]%get_ok & Hr).
  apply bind_ok in Hr as (c & ? & [Hc%ok_or_ok ->]%lift_ok & Hr). cbv zeta in Hr.
  apply bind_ok in Hr as (? & ? & [_ ->]%lift_ok & Hr).
  apply bind_ok in Hr as (? & ? & [_ ->]%lift_ok & Hr).
  apply bind_ok in Hr as (? & ? & [_ ->]%lift_ok & Hr).
  apply bind_ok in Hr as (item & ? & [_ ->]%lift_ok & Hr).
  apply bind_ok in Hr as (pushed & ? & [Hp%ok_or_ok ->]%lift_ok & Hr).
  assert (Hlen : Z.of_nat (length pushed) <= MaxAppeals).
  { unfold try_push in Hp. destruct (Z.ltb_spec (Z.of_nat (length (appeals c))) MaxAppeals); [|done].
    injection Hp as <-. rewrite length_app. cbn. lia. }
  apply bind_ok in Hr as ([c' ends] & s1 & Hround & Hr).
  assert (court_ok c' /\ court_inv s1) as [Hok Hinv1].
  { destruct (_ <? _).
    - eapply (new_round_inv _ _ _ (set_appeals pushed c)) in Hround; done.
    - apply mret_ok in Hround as [[= -> ->] ->]. split; [|done]. split; [done|].
      destruct Hinv as (_ & _ & Hcs & _). by destruct (Hcs court_id c Hc) as [_ ?]. }
  apply bind_ok in Hr as (? & s2 & Hq & Hr).
  assert (court_inv s2).
  { destruct (CourtIdToMarketId s !! court_id); [apply bind_ok in Hq as (? & s3 & Hq & [_ ->]%mret_ok);
      by eapply queue_remove_inv|by apply mret_ok in Hq as [_ ->]]. }
  revert Hr. clear Hq Hround Hp. intros Hr.
  apply bind_ok in Hr as (? & ? & [-> ->]%gets_ok & Hr).
  apply bind_ok in Hr as (l & ? & [_ ->]%lift_ok & Hr).
  apply bind_ok in Hr as (? & ? & [_ ->]%modify_ok & Hr).
  apply bind_ok in Hr as (? & s3 & Hins & Hr). eapply deposit_event_inv; [|exact Hr].
  eapply insert_court_inv; [exact Hok| |exact Hins]. done.
Qed.

Lemma handle_draws_inv court_id ds jts :
  triple court_inv (handle_draws court_id ds jts) (fun _ => court_inv).
Proof.
  revert jts. induction ds as [|d ds IH]; intros jts; simpl; [apply triple_mret|].
  intros s a s' Hinv Hr. apply bind_ok in Hr as (? & ? & [-> ->]%get_ok & Hr).
  apply bind_ok in Hr as (? & s1 & Hl & Hr).
  assert (Hinv1 : court_inv s1).
  { eapply frame_inv; [|exact Hinv]. destruct (Participants s !! _) as [i|] eqn:Hi.
    - apply modify_ok in Hl as [_ ->]. symmetry. by apply frame_relock.
    - by apply mret_ok in Hl as [_ ->]. }
  apply bind_ok in Hr as (jts' & s2 & Hv & Hr). eapply IH; [|exact Hr].
  assert (Hvote : triple court_inv (handle_vote court_id jts d) (fun _ => court_inv))
    by (unfold handle_vote, slash_juror; destruct (draw_vote d); inv_steps).
  by eapply Hvote.
Qed.

Lemma reassign_court_stakes_inv origin court_id :
  triple court_inv (reassign_court_stakes origin court_id) (fun _ => court_inv).
Proof.
  apply triple_transactional. intros s u s' Hinv Hr.
  apply bind_ok in Hr as (? & ? & [_ ->]%lift_ok & Hr).
  apply bind_ok in Hr as (? & ? & [-> ->]%get_ok & Hr).
  apply bind_ok in Hr as (c & ? & [Hc%ok_or_ok ->]%lift_ok & Hr).
  assert (Hok : court_ok (set_court_status Reassigned c))
    by (destruct Hinv as (_ & _ & Hcs & _); exact (Hcs court_id c Hc)).
  apply bind_ok in Hr as (w & ? & [_ ->]%lift_ok & Hr).
  apply bind_ok in Hr as (jts & s1 & H1 & Hr). apply handle_draws_inv in H1; [|done].
  revert Hr. revert H1. revert s1 u s'.
  change (triple court_inv (
    on_ledger (fun l => (tt, slash_losers_to_award_winners court_id jts w l)) ;;
    insert_court court_id (set_court_status Reassigned c) ;;
    modify (fun s => set_SelectedDraws (delete court_id (SelectedDraws s)) s) ;;
    deposit_event (StakesReassigned court_id)) (fun _ => court_inv)).
  eapply triple_bind; [apply on_ledger_inv|intros ?].
  eapply triple_bind; [by apply insert_court_inv|intros ?]. inv_steps.
Qed.

Lemma mint_shares_inv pool index total mint imb :
  triple court_inv (mint_shares pool index total mint imb) (fun _ => court_inv).
Proof.
  revert imb. induction pool as [|p pool IH]; intros imb; simpl; [apply triple_mret|].
  destruct (_ =? 0); [apply IH|]. destruct (split_imbalance _ _) as [i r].
  eapply triple_bind; [apply on_ledger_inv|]. intros o.
  eapply triple_bind; [destruct o; inv_steps|]. intros ?. apply IH.
Qed.

Lemma on_initialize_inv now : triple court_inv (on_initialize now) (fun _ => court_inv).
Proof.
  eapply triple_bind with (Q := fun _ => court_inv).
  { unfold handle_inflation. destruct (checked_rem now InflationPeriod) as [[|?|?]|]; [|inv_step..].
    eapply triple_bind; [apply triple_get|]. intros s.
    destruct (_ =? 0); [inv_step|]. destruct (_ <? _); [inv_step|].
    destruct (fold_left _ _ _ =? 0); [inv_step|].
    eapply triple_bind; [apply on_ledger_inv|]. intros imb.
    eapply triple_bind; [apply mint_shares_inv|]. intros imb'.
    destruct (_ =? 0); inv_step. }
  intros _. eapply triple_bind; [apply triple_gets|]. intros rb. destruct (rb <=? now); [|inv_step].
  apply triple_modify. intros s (Hp & Hd & Hc & Hi & Hr). split_and!; try done.
  cbn. unfold saturating_add. lia.
Qed.

Lemma on_dispute_inv market_id m :
  config_ok -> triple court_inv (on_dispute market_id m) (fun _ => court_inv).
Proof.
  intros Hcfg s u s' Hinv Hr. unfold on_dispute in Hr.
  apply bind_ok in Hr as (? & ? & [_ ->]%lift_ok & Hr).
  apply bind_ok in Hr as (? & ? & [-> ->]%gets_ok & Hr).
  apply bind_ok in Hr as (next & ? & [[-> _]%ok_or_ok%checked_add_some ->]%lift_ok & Hr).
  apply bind_ok in Hr as (ds & s1 & Hsel & Hr).
  assert (Hnext : NextCourtId s1 = NextCourtId s).
  { apply bind_ok in Hsel as (? & ? & Hc & [_ ->]%mret_ok).
    apply choose_multiple_weighted_ok in Hc as (_ & _ & q & Hf & _); [|done].
    by apply (f_equal NextCourtId) in Hf. }
  rewrite <- Hnext in Hr. clear Hnext.
  apply select_participants_ok in Hsel as [Hds Hinv1]; [|done..].
  apply bind_ok in Hr as (? & ? & [-> ->]%gets_ok & Hr). cbv zeta in Hr.
  apply bind_ok in Hr as (? & s2 & Hq & Hr).
  assert (exists q, s2 = set_queue q s1) as [q ->].
  { unfold queue_add in Hq. destruct (add_auto_resolve _ _ _). injection Hq as _ <-. eauto. }
  apply bind_ok in Hr as (? & ? & [_ ->]%modify_ok & Hr).
  apply bind_ok in Hr as (? & ? & [_ ->]%modify_ok & Hr).
  apply bind_ok in Hr as (? & ? & [_ ->]%modify_ok & Hr).
  apply bind_ok in Hr as (? & ? & [_ ->]%modify_ok & Hr).
  apply bind_ok in Hr as (? & ? & [_ ->]%modify_ok & [_ ->]%modify_ok).
  destruct Hinv1 as (Hp & Hd & Hc & (H0 & Hmc & Hcm) & Hrb). split_and!; try done.
  - by apply map_Forall_insert_2.
  - apply map_Forall_insert_2; [|done]. split; [cbn; destruct Hcfg as (_ & _ & ? & _); lia|].
    by apply new_timing_ok.
  - split_and!; cbn; [lia| |].
    + intros m' c [[<- <-]|[Hne Hc']]%lookup_insert_Some; [by rewrite lookup_insert_eq|].
      apply Hmc in Hc'. rewrite lookup_insert_ne; [done|]. intros <-. apply Hcm in Hc'. lia.
    + intros c m' [[<- <-]|[Hne Hc']]%lookup_insert_Some; [lia|]. apply Hcm in Hc'. lia.
Qed.

Lemma on_resolution_inv market_id m :
  triple court_inv (on_resolution market_id m) (fun _ => court_inv).
Proof.
  intros s o s' Hinv Hr. unfold on_resolution in Hr.
  apply bind_ok in Hr as (? & ? & [_ ->]%lift_ok & Hr).
  apply bind_ok in Hr as (? & ? & [-> ->]%get_ok & Hr).
  apply bind_ok in Hr as (id & ? & [_ ->]%lift_ok & Hr).
  apply bind_ok in Hr as (c & ? & [Hc%ok_or_ok ->]%lift_ok & Hr).
  apply bind_ok in Hr as (w & ? & [_ ->]%lift_ok & Hr).
  apply bind_ok in Hr as (? & s1 & Hun & Hr).
  apply (keeps_frame_inv _ (unlock_frame _)) in Hun; [|done].
  apply bind_ok in Hr as (? & s2 & Hins & Hr).
  apply bind_ok in Hr as (? & ? & [_ ->]%lift_ok & [_ ->]%mret_ok).
  eapply insert_court_inv; [|exact Hun|exact Hins].
  destruct Hinv as (_ & _ & Hcs & _). exact (Hcs id c Hc).
Qed.

Lemma exchange_inv market_id m o imb :
  triple court_inv (exchange market_id m o imb) (fun _ => court_inv).
Proof.
  do 4 (eapply triple_bind; [inv_step|intros ?]). revert imb.
  generalize (appeals a2). intros l. induction l as [|[b v i] l IH]; intros imb; simpl; [inv_step|].
  eapply triple_bind; [inv_step|intros out]. case_decide.
  - eapply triple_bind; [inv_step|]. intros [j z]. apply IH.
  - eapply triple_bind; [inv_step|]. intros z. apply IH.
Qed.

Lemma remove_court_inv court_id : triple court_inv (remove_court court_id) (fun _ => court_inv).
Proof. unfold remove_court. inv_steps. Qed.

Lemma on_global_dispute_inv market_id m :
  triple court_inv (on_global_dispute market_id m) (fun _ => court_inv).
Proof.
  do 2 (eapply triple_bind; [inv_step|intros ?]). destruct (MarketIdToCourtId _ !! _); [|inv_step].
  do 2 (eapply triple_bind; [inv_step|intros ?]).
  eapply triple_bind; [apply remove_court_inv|intros ?; inv_step].
Qed.

Lemma clear_inv market_id m : triple court_inv (clear market_id m) (fun _ => court_inv).
Proof. do 3 (eapply triple_bind; [inv_step|intros ?]). apply remove_court_inv. Qed.

Lemma set_inflation_inv origin x : triple court_inv (set_inflation origin x) (fun _ => court_inv).
Proof. apply triple_transactional. inv_steps. Qed.
End Invariant.
