(* ===== verification/CourtSpec.v ===== *)
(** * The court pallet: the properties of its pool

    The step relation of the whole pallet, the invariant of its reachable
    storages, what joining the court does and cannot do, and that a court that
    was removed stays removed. *)

From S2P Require Import Prelude Errors FixedMath Collections Interfaces Market CourtTypes.
From S2P Require Import CourtPool CourtSelection CourtVoting CourtInv.

Section Steps.
Context `{CourtConfig}.

(** A successful call of the pallet, or a step of the chain around it, which
    may change the block number, the ledger, the markets and the queue.  A
    failed call is rolled back. *)
Inductive court_step (s : CourtState) : CourtState -> Prop :=
| step_join o amount s' : join_court o amount s = (Ok tt, s') -> court_step s s'
| step_delegate o amount ds s' : delegate o amount ds s = (Ok tt, s') -> court_step s s'
| step_prepare_exit o s' : prepare_exit_court o s = (Ok tt, s') -> court_step s s'
| step_exit o who s' : exit_court o who s = (Ok tt, s') -> court_step s s'
| step_vote o c h s' : vote o c h s = (Ok tt, s') -> court_step s s'
| step_denounce o c j v h s' : denounce_vote o c j v h s = (Ok tt, s') -> court_step s s'
| step_reveal o c v h s' : reveal_vote o c v h s = (Ok tt, s') -> court_step s s'
| step_appeal o c s' : appeal o c s = (Ok tt, s') -> court_step s s'
| step_reassign o c s' : reassign_court_stakes o c s = (Ok tt, s') -> court_step s s'
| step_set_inflation o x s' : set_inflation o x s = (Ok tt, s') -> court_step s s'
| step_on_initialize now s' : on_initialize now s = (Ok tt, s') -> court_step s s'
| step_on_dispute i m s' : on_dispute i m s = (Ok tt, s') -> court_step s s'
| step_on_resolution i m r s' : on_resolution i m s = (Ok r, s') -> court_step s s'
| step_exchange i m o imb r s' : exchange i m o imb s = (Ok r, s') -> court_step s s'
| step_on_global_dispute i m r s' : on_global_dispute i m s = (Ok r, s') -> court_step s s'
| step_clear i m s' : clear i m s = (Ok tt, s') -> court_step s s'
| step_outside b l ms q :
    court_step s (set_block_number b (set_ledger l (set_commons ms (set_queue q s)))).

(** The empty storage. *)
Definition court_genesis (l : Ledger) (ms : MarketCommons) (q : ResolveQueue) : CourtState :=
  mkState [] ∅ 0 ∅ ∅ 0 ∅ ∅ 0 0 0 l ms q [].

Inductive court_reachable : CourtState -> Prop :=
| reachable_genesis l ms q : court_reachable (court_genesis l ms q)
| reachable_step s s' : court_reachable s -> court_step s s' -> court_reachable s'.

Lemma court_genesis_inv l ms q : config_ok -> court_inv (court_genesis l ms q).
Proof.
  intros (? & ? & ? & _). split_and!; [split_and!|..]; cbn.
  - constructor.
  - lia.
  - by intros ?? ?%elem_of_nil.
  - apply map_Forall_empty.
  - apply map_Forall_empty.
  - split_and!; [cbn; lia|by intros ?? ?|by intros ?? ?].
  - vm_compute. congruence.
Qed.

Lemma court_step_inv s s' : config_ok -> court_step s s' -> court_inv s -> court_inv s'.
Proof.
  intros Hcfg [] Hinv;
    [ eapply join_court_inv | eapply delegate_inv | eapply prepare_exit_court_inv
    | eapply exit_court_inv | eapply vote_inv | eapply denounce_vote_inv | eapply reveal_vote_inv
    | eapply appeal_inv | eapply reassign_court_stakes_inv | eapply set_inflation_inv
    | eapply on_initialize_inv | eapply on_dispute_inv | eapply on_resolution_inv
    | eapply exchange_inv | eapply on_global_dispute_inv | eapply clear_inv | exact Hinv ];
    eassumption.
Qed.

(** C3. The court storage invariant: in every reachable storage the pool is
    strictly sorted by stake and account, holds no account twice, respects the
    participant bound, and each entry is a participant with exactly that stake
    who has not prepared to exit; the draws of every court are strictly sorted
    by account and bounded; every court has at most [MaxAppeals] appeals and
    ordered round ends; and the market of a court's market is that court. *)
Theorem court_invariant s :
  config_ok -> court_reachable s ->
  sorted_by pool_key (CourtPool s) /\
  NoDup (court_participant <$> CourtPool s) /\
  Z.of_nat (length (CourtPool s)) <= MaxCourtParticipants /\
  (forall item, item ∈ CourtPool s -> exists i, Participants s !! court_participant item = Some i /\
     pi_stake i = stake item /\ pi_prepare_exit_at i = None) /\
  (forall c ds, SelectedDraws s !! c = Some ds -> draws_ok ds) /\
  (forall c court, Courts s !! c = Some court -> court_ok court) /\
  (forall m c, MarketIdToCourtId s !! m = Some c -> CourtIdToMarketId s !! c = Some m).
Proof.
  intros Hcfg Hr. assert (Hinv : court_inv s).
  { induction Hr as [|s s' _ IH Hs]; [by apply court_genesis_inv|by eapply court_step_inv]. }
  pose proof Hinv as ((Hs & Hl & Hm) & Hd & Hc & (_ & Hmc & _) & _).
  assert (Hin : forall item, item ∈ CourtPool s ->
    exists i, Participants s !! court_participant item = Some i /\
      pi_stake i = stake item /\ pi_prepare_exit_at i = None).
  { intros item Hitem. apply Hm. apply list_elem_of_fmap. eauto. }
  split_and!; [by apply pool_keys_sorted| |by rewrite length_fmap in Hl|done|done|done|done].
  apply pool_keys_sorted in Hinv as Hsort. apply sorted_by_NoDup in Hsort.
  apply NoDup_fmap_2_strong.
  - intros x y Hx Hy Heq. destruct (Hin x Hx) as (i & Hi & Hsx & _), (Hin y Hy) as (j & Hj & Hsy & _).
    rewrite Heq in Hi. assert (i = j) as -> by congruence.
    assert (Hk : pool_key x = pool_key y) by (unfold pool_key; congruence).
    apply list_elem_of_lookup in Hx as (a & Ha), Hy as (b & Hb).
    assert (a = b) as -> by (eapply (sorted_by_inj pool_key); eauto using pool_keys_sorted).
    congruence.
  - by eapply NoDup_fmap_1.
Qed.

(** Joining the court: a successful [join_court] requires a stake of at
    least [MinJurorStake] covered by the free balance and no lower than
    before; afterwards the juror is a participant with exactly that stake, her
    active lock unchanged, her funds locked, and the pool is the old one with
    her entry inserted once: only her own old entry may have left, or, if she
    had none and the pool was full, its lowest-staked entry, whose stake is
    below hers. Every other participant is untouched. *)
Theorem join_court_correct s who amount s' :
  court_inv s -> join_court (Signed who) amount s = (Ok tt, s') ->
  MinJurorStake <= amount <= free_balance (ledger s) who /\
  (forall i, Participants s !! who = Some i -> pi_stake i <= amount) /\
  Participants s' !! who =
    Some (mkInfo amount (default 0 (pi_active_lock <$> Participants s !! who)) None None) /\
  (forall a, a <> who -> Participants s' !! a = Participants s !! a) /\
  ledger s' = set_lock LockId who amount (ledger s) /\
  exists pool item, pruned (CourtPool s) who amount pool /\
    CourtPool s' ≡ₚ item :: pool /\ pool_key item = (amount, who) /\
    sorted_by pool_key (CourtPool s').
Proof.
  intros Hinv Hr. assert (Hinv' : court_inv s') by (by eapply join_court_inv).
  apply transactional_ok in Hr. apply bind_ok in Hr as (? & ? & [[= <-] ->]%lift_ok & Hr).
  apply bind_ok in Hr as (n & s1 & Hj & [_ ->]%modify_ok).
  apply do_join_court_ok in Hj as (Hmin & Hst & pool & item & k & Hpr & Hb & Hlt & Hk & ->); [|done].
  split_and!; [lia..|done| | |done|]; cbn.
  - by rewrite lookup_insert_eq.
  - intros a Ha. by rewrite lookup_insert_ne.
  - exists pool, item. split_and!; [done| |done|exact (pool_keys_sorted _ Hinv')].
    unfold vec_insert. rewrite <- Permutation_middle. by rewrite take_drop.
Qed.

Lemma remove_weakest_err p amount e :
  0 < MaxCourtParticipants ->
  remove_weakest_if_full p amount = Err e -> e = court_error AmountBelowLowestJuror.
Proof.
  intros Hmax. unfold remove_weakest_if_full, is_full.
  destruct (Z.leb_spec MaxCourtParticipants (Z.of_nat (length p))) as [Hfull|]; [|done].
  intros [Hr|(_ & _ & Hr)]%result_bind_err.
  - unfold ensure in Hr. case_match; congruence.
  - destruct p as [|x p]; [cbn in Hfull; lia|]. discriminate Hr.
Qed.

Lemma prune_room s who amount pool :
  court_inv s -> 0 < MaxCourtParticipants -> pruned (CourtPool s) who amount pool ->
  Z.of_nat (length pool) < MaxCourtParticipants.
Proof.
  intros ((_ & Hl & _) & _) Hmax Hp. rewrite length_fmap in Hl.
  destruct Hp as [(i & item & Hi & _ & ->)|[_ [[Hf ->]|[_ (x & Hx & _)]]]].
  - rewrite length_delete by eauto. apply lookup_lt_Some in Hi. lia.
  - unfold is_full in Hf. apply Z.leb_gt in Hf. lia.
  - rewrite Hx in Hl. cbn in Hl. lia.
Qed.

Lemma handle_existing_err s who amount info e :
  court_inv s -> 0 < MaxCourtParticipants -> Participants s !! who = Some info ->
  handle_existing_participant who amount (CourtPool s) info = Err e ->
  e = court_error AmountBelowLastJoin \/ e = court_error AmountBelowLowestJuror.
Proof.
  intros Hinv Hmax Hi Hr. unfold handle_existing_participant in Hr.
  apply result_bind_err in Hr as [?%ensure_err|(_ & _ & Hr)]; [by left|right].
  apply result_bind_err in Hr as [Hr|(o & Ho & Hr)];
    [destruct (get_pool_item_spec _ _ _ _ (pool_keys_sorted _ Hinv) Hr) as [(? & ? & ? & _)|[? _]]; done|].
  destruct (get_pool_item_spec _ _ _ _ (pool_keys_sorted _ Hinv) Ho)
    as [(i & item & [= ->] & Hitem & _)|[[= ->] _]].
  - rewrite (vec_remove_eq _ _ _ Hitem) in Hr. discriminate Hr.
  - apply result_bind_err in Hr as [Hr|(? & _ & Hr)]; [by eapply remove_weakest_err|done].
Qed.

Lemma handle_existing_prev who amount pool info pool' c item :
  handle_existing_participant who amount pool info = Ok (pool', c, Some item) ->
  stake item <= amount.
Proof.
  intros Hr. unfold handle_existing_participant in Hr.
  apply result_bind_ok in Hr as (_ & Hge%ensure_ok%Z.leb_le & Hr).
  apply result_bind_ok in Hr as (o & Ho & Hr). destruct o as [[i it]|].
  - apply result_bind_ok in Hr as ([x q] & _ & [= <- <- <-]).
    unfold get_pool_item in Ho. destruct (binary_search_by_key _ _ _) eqn:Hb; [|done].
    apply search_key_found_inv in Hb as (y & Hy & [= Hst _]). rewrite Hy in Ho. injection Ho as <- <-.
    lia.
  - apply result_bind_ok in Hr as (q & _ & Hr). done.
Qed.

Lemma get_uneligible_err amount idx o e :
  (forall item, o = Some item -> stake item <= amount) ->
  get_uneligible_stake o amount idx = Err e -> e = Arithmetic Overflow.
Proof.
  intros Hle. unfold get_uneligible_stake. destruct o as [item|]; [|done].
  specialize (Hle item eq_refl).
  assert (Hs : checked_sub_res amount (stake item) = Ok (amount - stake item))
    by (apply checked_sub_res_ok; lia).
  rewrite Hs. destruct (negb _); [done|]. cbn. apply ok_or_err.
Qed.

(** The pool [do_join_court] inserts into, whichever branch it took. *)
Lemma do_join_court_err s who amount ds e s' :
  court_inv s -> 0 < MaxCourtParticipants -> do_join_court who amount ds s = (Err e, s') ->
  e = court_error BelowMinJurorStake \/ e = court_error AmountExceedsBalance \/
  e = court_error AmountBelowLastJoin \/ e = court_error AmountBelowLowestJuror \/
  (e = court_error (Unexpected InflationPeriodIsZero) /\ InflationPeriod = 0) \/
  e = Arithmetic Overflow.
Proof.
  intros Hinv Hmax Hr. pose proof Hinv as (Hp & _).
  unfold do_join_court in Hr.
  apply bind_err in Hr as [[?%ensure_err _]%lift_err|(? & ? & [_ ->]%lift_ok & Hr)]; [tauto|].
  apply bind_err in Hr as [?|(? & ? & [-> ->]%get_ok & Hr)]; [done|].
  apply bind_err in Hr as [[?%ensure_err _]%lift_err|(? & ? & [_ ->]%lift_ok & Hr)]; [tauto|].
  cbv zeta in Hr.
  apply bind_err in Hr as [Hr|([[[pool prev] lock] cons] & s2 & Hpool & Hr)].
  { destruct (Participants s !! who) as [info|] eqn:Hi;
      apply bind_err in Hr as [[Hr _]%lift_err|(px & ? & _ & Hr)].
    - apply handle_existing_err in Hr; tauto.
    - by destruct px as [[? ?] ?].
    - apply remove_weakest_err in Hr; tauto.
    - done. }
  assert (s2 = s /\ pruned (CourtPool s) who amount pool /\
          (forall item, prev = Some item -> stake item <= amount)) as (-> & Hpr & Hprev).
  { destruct (Participants s !! who) as [info|] eqn:Hi.
    - apply bind_ok in Hpool as ([[q c] o] & ? & [Hh ->]%lift_ok & [[= -> -> -> ->] ->]%mret_ok).
      pose proof Hh as [Hle ?]%(handle_existing_ok _ (Participants s)); [|done..].
      split_and!; [done..|]. intros item ->. by eapply handle_existing_prev.
    - apply bind_ok in Hpool as (q & ? & [Hh ->]%lift_ok & [[= -> -> -> ->] ->]%mret_ok).
      apply remove_weakest_ok in Hh. split_and!; [done| |done].
      right. split; [|done]. intros st (i & Hi' & _)%Hp. congruence. }
  apply bind_err in Hr as [[Hr _]%lift_err|(idx & ? & [_ ->]%lift_ok & Hr)].
  { unfold checked_div in Hr. destruct (Z.eqb_spec InflationPeriod 0); [|done]. 
    injection Hr as <-. tauto. }
  apply bind_err in Hr as [[?%get_uneligible_err _]%lift_err|(un & ? & [_ ->]%lift_ok & Hr)];
    [tauto|done|].
  apply bind_err in Hr as [[Hr _]%lift_err|(? & ? & _ & Hr)]; [exfalso|].
  - destruct (pruned_spec _ _ _ _ _ Hp Hpr) as [Hsub Habs].
    destruct (binary_search_by_key _ _ _) as [k|k] eqn:Hb.
    + apply search_key_found_inv in Hb as (it & Hx & Hk). apply (Habs amount).
      apply list_elem_of_fmap. exists it. split; [done|]. by eapply list_elem_of_lookup_2.
    + pose proof (prune_room _ _ _ _ Hinv Hmax Hpr) as Hroom.
      unfold try_insert in Hr. apply Z.ltb_lt in Hroom. by rewrite Hroom in Hr.
  - repeat (apply bind_err in Hr as [?|(? & ? & _ & Hr)]; [done|]). done.
Qed.

(** The errors of joining: in a storage that satisfies the invariant
    [join_court] never panics and never reaches the branches the code calls
    impossible (a participant twice in the pool, a full pool after making
    room, a failed search); the errors left are the documented ones, an
    inflation period of zero, and overflow of the uneligible stake. *)
Theorem join_court_errors s who amount e s' :
  court_inv s -> 0 < MaxCourtParticipants ->
  join_court (Signed who) amount s = (Err e, s') ->
  s' = s /\
  (e = court_error BelowMinJurorStake \/ e = court_error AmountExceedsBalance \/
   e = court_error AmountBelowLastJoin \/ e = court_error AmountBelowLowestJuror \/
   (e = court_error (Unexpected InflationPeriodIsZero) /\ InflationPeriod = 0) \/
   e = Arithmetic Overflow).
Proof.
  intros Hinv Hmax Hr. split; [by eapply transactional_err|].
  apply transactional_err_inv in Hr as (s1 & Hr).
  apply bind_err in Hr as [[? _]%lift_err|(? & ? & [[= <-] ->]%lift_ok & Hr)]; [done|].
  apply bind_err in Hr as [Hr|(? & ? & _ & Hr)]; [|discriminate Hr].
  by apply do_join_court_err in Hr.
Qed.
End Steps.
(** ** Removed courts *)

Section Removed.
Context `{CourtConfig}.

(** The markets' courts stay as they are, and no court but [c0] appears. *)
Definition registry (c0 : option Z) (s s' : CourtState) : Prop :=
  MarketIdToCourtId s' = MarketIdToCourtId s /\ NextCourtId s' = NextCourtId s /\
  forall c, c0 <> Some c -> Courts s !! c = None -> Courts s' !! c = None.
#[local] Instance registry_refl c0 : Reflexive (registry c0).
Proof. done. Qed.
#[local] Instance registry_trans c0 : Transitive (registry c0).
Proof. intros s1 s2 s3 (H1 & H2 & H3) (H4 & H5 & H6). split_and!; [congruence..|]. intros c Hc Hn. by apply H6, H3. Qed.

Lemma registry_modify c0 f : (forall s, registry c0 s (f s)) -> keeps (registry c0) (modify f : CourtM unit).
Proof. intros Hf s. apply Hf. Qed.
Lemma registry_ledger {A} c0 (f : Ledger -> A * Ledger) : keeps (registry c0) (on_ledger f).
Proof. intros s. unfold on_ledger. by destruct (f (ledger s)). Qed.
Lemma registry_add c0 m b : keeps (registry c0) (queue_add m b).
Proof. intros s. unfold queue_add. by destruct (add_auto_resolve _ _ _). Qed.
Lemma registry_remove c0 m b : keeps (registry c0) (queue_remove m b).
Proof. intros s. unfold queue_remove. by destruct (remove_auto_resolve _ _ _). Qed.
Lemma registry_draws c0 c d : keeps (registry c0) (insert_draws c d).
Proof. by apply registry_modify. Qed.
Lemma registry_event c0 e : keeps (registry c0) (deposit_event e).
Proof. by apply registry_modify. Qed.
Lemma registry_insert c k : keeps (registry (Some c)) (insert_court c k).
Proof. apply registry_modify. intros s. split_and!; [done..|]. intros c' Hne Hn. cbn. rewrite lookup_insert_ne; congruence. Qed.
Lemma registry_transactional {A} c0 (m : CourtM A) : keeps (registry c0) m -> keeps (registry c0) (transactional m).
Proof. intros Hm s. specialize (Hm s). unfold transactional. by destruct (m s) as [[a|e] s']. Qed.
Lemma registry_frame {A} c0 (m : CourtM A) : keeps_frame m -> keeps (registry c0) m.
Proof.
  intros Hm s. destruct (m s) as [r s'] eqn:Hr. apply Hm in Hr. cbn.
  pose proof (f_equal MarketIdToCourtId Hr) as E1. pose proof (f_equal NextCourtId Hr) as E2. pose proof (f_equal Courts Hr) as E3.
  cbn in E1, E2, E3. split_and!; [done..|]. intros c _. by rewrite E3.
Qed.
Lemma registry_unlock c0 ds : keeps (registry c0) (unlock_participants_from_last_draw ds).
Proof. apply registry_frame, unlock_frame. Qed.
#[local] Hint Resolve registry_ledger registry_add registry_remove registry_draws registry_event registry_insert registry_unlock : keeps.
#[local] Hint Extern 1 (keeps (registry _) (modify _)) => (by apply registry_modify) : keeps.
#[local] Hint Extern 1 (keeps (registry _) (put_pool _)) => (by apply registry_modify) : keeps.
#[local] Hint Extern 1 (keeps (registry _) (insert_participant _ _)) => (by apply registry_modify) : keeps.

Lemma registry_select c0 n : keeps (registry c0) (select_participants n).
Proof.
  unfold select_participants, choose_multiple_weighted, get_n_random_section_ends, get_selections.
  keeps_tac.
  - apply registry_frame, rng_frame.
  - apply registry_frame, selections_loop_frame.
Qed.
#[local] Hint Resolve registry_select : keeps.
Lemma registry_join c0 w x ds : keeps (registry c0) (do_join_court w x ds).
Proof. unfold do_join_court. keeps_tac. Qed.
#[local] Hint Resolve registry_join : keeps.
Lemma registry_delete c0 c : keeps (registry c0) (remove_court c).
Proof.
  unfold remove_court. keeps_tac. apply registry_modify. intros s. split_and!; [done..|]. intros c' _ Hn. cbn.
  destruct (decide (c = c')) as [->|]; [apply lookup_delete_eq|by rewrite lookup_delete_ne].
Qed.
#[local] Hint Resolve registry_delete : keeps.

Lemma registry_handover c0 i m : keeps (registry c0) (on_global_dispute i m).
Proof. unfold on_global_dispute. keeps_tac. Qed.

(** The calls that write no court. *)
Lemma registry_calls c0 :
  (forall o x, keeps (registry c0) (join_court o x)) /\ (forall o x ds, keeps (registry c0) (delegate o x ds)) /\
  (forall o, keeps (registry c0) (prepare_exit_court o)) /\ (forall o w, keeps (registry c0) (exit_court o w)) /\
  (forall o c h, keeps (registry c0) (vote o c h)) /\ (forall o c j v h, keeps (registry c0) (denounce_vote o c j v h)) /\
  (forall o c v h, keeps (registry c0) (reveal_vote o c v h)) /\ (forall o x, keeps (registry c0) (set_inflation o x)) /\
  (forall i m, keeps (registry c0) (clear i m)).
Proof.
  split_and!; intros; try apply registry_transactional;
    unfold clear; keeps_tac.
Qed.

Lemma registry_appeal o c : keeps (registry (Some c)) (appeal o c).
Proof. apply registry_transactional. cbv zeta. keeps_tac. Qed.
Lemma registry_handle_draws c0 c ds : forall jts, keeps (registry c0) (handle_draws c ds jts).
Proof. induction ds as [|d ds IH]; intros jts; cbn [handle_draws]; [keeps_tac|]. unfold handle_vote, slash_juror. keeps_tac. Qed.
#[local] Hint Resolve registry_handle_draws : keeps.
Lemma registry_reassign o c : keeps (registry (Some c)) (reassign_court_stakes o c).
Proof. apply registry_transactional. cbv zeta. keeps_tac. Qed.
Lemma registry_exchange c0 i m o b : keeps (registry c0) (exchange i m o b).
Proof.
  unfold exchange. keeps_tac. match goal with |- keeps _ (exchange_appeals ?l _ _) => generalize l end.
  intros l. revert b. induction l as [|[w x v] l IH]; intros b; cbn [exchange_appeals]; keeps_tac.
Qed.
Lemma registry_hook c0 n : keeps (registry c0) (on_initialize n).
Proof.
  assert (Hm : forall pool i t x b, keeps (registry c0) (mint_shares pool i t x b)).
  { induction pool as [|p pool IH]; intros i t x b; cbn [mint_shares]; cbv zeta; keeps_tac. }
  unfold on_initialize, handle_inflation. cbv zeta. keeps_tac.
Qed.

(** A step that opens a court for the market. *)
Definition opens_court (id : Z) (s s' : CourtState) : Prop := exists m, on_dispute id m s = (Ok tt, s').

Lemma opened_elsewhere i m c s s' : on_dispute i m s = (Ok tt, s') -> c < NextCourtId s -> Courts s !! c = None ->
  c < NextCourtId s' /\ Courts s' !! c = None /\ forall id, id <> i -> MarketIdToCourtId s' !! id = MarketIdToCourtId s !! id.
Proof.
  intros Hr Hc Hn. apply bind_ok in Hr as (u & s1 & [_ ->]%lift_ok & Hr). apply bind_ok in Hr as (cid & s1 & [-> ->]%gets_ok & Hr).
  apply bind_ok in Hr as (nx & s1 & [[-> _]%ok_or_ok%checked_add_some ->]%lift_ok & Hr).
  apply bind_ok in Hr as (ds & s1 & Hsel & Hr). apply (keeps_ok _ _ _ _ _ (registry_select None _)) in Hsel as (E1 & E2 & E3).
  apply bind_ok in Hr as (rb & s2 & [-> ->]%gets_ok & Hr). cbv zeta in Hr. apply bind_ok in Hr as (k & s2 & Hq & Hr).
  apply (keeps_ok _ _ _ _ _ (registry_add None _ _)) in Hq as (F1 & F2 & F3).
  do 5 (apply bind_ok in Hr as (? & ? & [_ ->]%modify_ok & Hr)). apply modify_ok in Hr as [_ ->]. cbn. split_and!; [lia| |].
  - rewrite lookup_insert_ne by lia. by apply F3; [|apply E3].
  - intros id Hne. rewrite lookup_insert_ne by done. congruence.
Qed.

(** A court that was removed never comes back: court ids are never used again,
    and a market keeps its court until another one is opened for it. *)
Lemma removed_step id c s s' : court_step s s' -> c < NextCourtId s -> Courts s !! c = None ->
  MarketIdToCourtId s !! id = Some c ->
  (c < NextCourtId s' /\ Courts s' !! c = None) /\ (MarketIdToCourtId s' !! id = Some c \/ opens_court id s s').
Proof.
  intros Hst Hc Hn Hid.
  assert (Hreg : forall c0, registry c0 s s' -> c0 <> Some c ->
    (c < NextCourtId s' /\ Courts s' !! c = None) /\ (MarketIdToCourtId s' !! id = Some c \/ opens_court id s s')).
  { intros c0 (E1 & E2 & E3) Hne. rewrite E1, E2. auto. }
  destruct (registry_calls None) as (K1 & K2 & K3 & K4 & K5 & K6 & K7 & K8 & K9).
  destruct Hst as [o x s' Hr|o x ds s' Hr|o s' Hr|o w s' Hr|o k h s' Hr|o k j v h s' Hr|o k v h s' Hr|o k s' Hr|o k s' Hr
    |o x s' Hr|n s' Hr|i m s' Hr|i m r s' Hr|i m r b x s' Hr|i m r s' Hr|i m s' Hr|b l ms q];
    try (by apply (Hreg None); [first [exact (keeps_ok _ _ _ _ _ (K1 _ _) Hr)|exact (keeps_ok _ _ _ _ _ (K2 _ _ _) Hr)
      |exact (keeps_ok _ _ _ _ _ (K3 _) Hr)|exact (keeps_ok _ _ _ _ _ (K4 _ _) Hr)|exact (keeps_ok _ _ _ _ _ (K5 _ _ _) Hr)
      |exact (keeps_ok _ _ _ _ _ (K6 _ _ _ _ _) Hr)|exact (keeps_ok _ _ _ _ _ (K7 _ _ _ _) Hr)|exact (keeps_ok _ _ _ _ _ (K8 _ _) Hr)
      |exact (keeps_ok _ _ _ _ _ (K9 _ _) Hr)|exact (keeps_ok _ _ _ _ _ (registry_handover _ _ _) Hr)
      |exact (keeps_ok _ _ _ _ _ (registry_hook _ _) Hr)|exact (keeps_ok _ _ _ _ _ (registry_exchange _ _ _ _ _) Hr)]|]).
  - apply (Hreg (Some k)); [exact (keeps_ok _ _ _ _ _ (registry_appeal _ _) Hr)|]. intros [= ->].
    apply transactional_ok in Hr. apply bind_ok in Hr as (w & s1 & [_ ->]%lift_ok & Hr).
    apply bind_ok in Hr as (s0 & s1 & [-> ->]%get_ok & Hr). apply bind_ok in Hr as (ct & s1 & [Hct%ok_or_ok ->]%lift_ok & _). congruence.
  - apply (Hreg (Some k)); [exact (keeps_ok _ _ _ _ _ (registry_reassign _ _) Hr)|]. intros [= ->].
    apply transactional_ok in Hr. apply bind_ok in Hr as (w & s1 & [_ ->]%lift_ok & Hr).
    apply bind_ok in Hr as (s0 & s1 & [-> ->]%get_ok & Hr). apply bind_ok in Hr as (ct & s1 & [Hct%ok_or_ok ->]%lift_ok & _). congruence.
  - destruct (opened_elsewhere _ _ _ _ _ Hr Hc Hn) as (Hc' & Hn' & Hothers). split; [done|].
    destruct (decide (id = i)) as [<-|Hne]; [right; by exists m|left]. by rewrite Hothers.
  - apply bind_ok in Hr as (u & s1 & [_ ->]%lift_ok & Hr). apply bind_ok in Hr as (s0 & s1 & [-> ->]%get_ok & Hr).
    apply bind_ok in Hr as (k & s1 & [Hk%ok_or_ok ->]%lift_ok & Hr). apply bind_ok in Hr as (ct & s1 & [Hct%ok_or_ok ->]%lift_ok & Hr).
    assert (k <> c) by congruence. apply (Hreg (Some k)); [|congruence].
    apply bind_ok in Hr as (it & s1 & [_ ->]%lift_ok & Hr).
    refine (keeps_ok _ _ _ _ _ _ Hr). keeps_tac.
  - by apply (Hreg None).
Qed.

(** While no other court is opened for the market. *)
Lemma removed_run id c s s' : rtc (fun s s' => court_step s s' /\ ~ opens_court id s s') s s' -> c < NextCourtId s ->
  Courts s !! c = None -> MarketIdToCourtId s !! id = Some c ->
  Courts s' !! c = None /\ MarketIdToCourtId s' !! id = Some c.
Proof.
  induction 1 as [s|s s1 s2 [Hst Hop] _ IH]; [done|]. intros Hc Hn Hid.
  destruct (removed_step _ _ _ _ Hst Hc Hn Hid) as [[Hc1 Hn1] [Hid1|?]]; [|done]. by apply IH.
Qed.
End Removed.
