(* ===== verification/CourtDraw.v ===== *)
(** * The court pallet: the properties of the draw

    The partial Fisher-Yates shuffle, the weights of the drawn jurors, the
    number of draws per round, and the removal of delegators without a valid
    juror. *)

From S2P Require Import Prelude Errors FixedMath Collections Interfaces Market CourtTypes.
From S2P Require Import CourtPool CourtSelection CourtVoting CourtInv.

(** ** The shuffle *)

(** What the sparse array [swaps] has at index [j]. *)
Definition swap_value (swaps : BTreeMap Z Z) (j : Z) : Z := default j (bt_get j swaps).

Lemma swap_value_insert swaps k v j :
  bt_sorted swaps -> swap_value (bt_insert k v swaps) j = if decide (j = k) then v else swap_value swaps j.
Proof.
  intros Hs. unfold swap_value. case_decide as Hj.
  - subst. by rewrite bt_get_insert.
  - by rewrite bt_get_insert_ne.
Qed.

(** [swaps] is a permutation of the sections. *)
Definition shuffles (len : Z) (swaps : BTreeMap Z Z) : Prop :=
  bt_sorted swaps /\
  (forall j, 0 <= j < len -> 0 <= swap_value swaps j < len) /\
  (forall j k, 0 <= j < len -> 0 <= k < len -> swap_value swaps j = swap_value swaps k -> j = k).

(** The two writes of an iteration exchange two entries. *)
Lemma shuffles_swap len swaps i r :
  shuffles len swaps -> 0 <= i < len -> 0 <= r < len ->
  let swaps' := bt_insert r (swap_value swaps i) (bt_insert i (swap_value swaps r) swaps) in
  shuffles len swaps' /\
  swap_value swaps' i = swap_value swaps r /\
  (forall j, j <> i -> j <> r -> swap_value swaps' j = swap_value swaps j).
Proof.
  intros (Hs & Hrange & Hinj) Hi Hr. cbv zeta.
  assert (Hv : forall j, swap_value (bt_insert r (swap_value swaps i)
      (bt_insert i (swap_value swaps r) swaps)) j =
    if decide (j = r) then swap_value swaps i
    else if decide (j = i) then swap_value swaps r else swap_value swaps j).
  { intros j. rewrite swap_value_insert by (by apply bt_insert_sorted).
    case_decide; [done|]. by rewrite swap_value_insert. }
  split_and!.
  - split_and!.
    + by repeat apply bt_insert_sorted.
    + intros j Hj. rewrite Hv. repeat case_decide; by apply Hrange.
    + intros j k Hj Hk. rewrite !Hv.
      repeat case_decide; intros E; apply Hinj in E; try lia.
  - rewrite Hv. repeat case_decide; congruence.
  - intros j Hji Hjr. rewrite Hv. repeat case_decide; congruence.
Qed.

Section Draw.
Context `{CourtConfig}.

Lemma elem_of_bt_keys {V} k (m : BTreeMap Z V) : k ∈ bt_keys m <-> exists v, (k, v) ∈ m.
Proof.
  unfold bt_keys. rewrite list_elem_of_fmap. split.
  - intros ([k' v] & -> & Hin). eauto.
  - intros [v Hin]. exists (k, v). done.
Qed.

Lemma section_end_exact len k :
  0 < MinJurorStake -> len * MinJurorStake <= umax 128 -> 0 <= k < len ->
  saturating_mul 128 (saturating_add 128 k 1) MinJurorStake = (k + 1) * MinJurorStake.
Proof.
  intros Hmin Hlen Hk. unfold saturating_mul, saturating_add.
  assert ((k + 1) * MinJurorStake <= len * MinJurorStake) by (apply Z.mul_le_mono_nonneg_r; lia).
  assert (k + 1 <= (k + 1) * MinJurorStake) by nia. rewrite (Z.min_l (k + 1)) by lia. lia.
Qed.

(** The section ends collected so far are those of the indices below [i]. *)
Definition collected (i : Z) (swaps : BTreeMap Z Z) (ends : BTreeMap Z unit) : Prop :=
  bt_sorted ends /\ Z.of_nat (length ends) = i /\
  forall e, e ∈ bt_keys ends <-> exists j, 0 <= j < i /\ e = (swap_value swaps j + 1) * MinJurorStake.

Lemma collected_step len i r swaps ends :
  0 < MinJurorStake -> shuffles len swaps -> 0 <= i <= r -> r < len -> collected i swaps ends ->
  collected (i + 1) (bt_insert r (swap_value swaps i) (bt_insert i (swap_value swaps r) swaps))
    (bt_insert_set ((swap_value swaps r + 1) * MinJurorStake) ends).
Proof.
  intros Hmin Hsh Hir Hr (Hes & Hlen & Hkeys).
  destruct (shuffles_swap len swaps i r Hsh ltac:(lia) ltac:(lia)) as (_ & Hvi & Hvo).
  assert (Hnew : bt_get ((swap_value swaps r + 1) * MinJurorStake) ends = None).
  { apply eq_None_not_Some. intros [[] Hin]. apply bt_get_elem in Hin; [|done].
    destruct (proj1 (Hkeys ((swap_value swaps r + 1) * MinJurorStake))) as (j & Hj & Heq).
    { apply elem_of_bt_keys. eauto. }
    apply Z.mul_reg_r in Heq; [|lia]. destruct Hsh as (_ & _ & Hinj).
    assert (r = j) by (apply Hinj; lia). lia. }
  split_and!.
  - by apply bt_insert_sorted.
  - unfold bt_insert_set. rewrite length_bt_insert, Hnew by done. lia.
  - intros e. assert (Hin : e ∈ bt_keys (bt_insert_set ((swap_value swaps r + 1) * MinJurorStake) ends)
      <-> e = (swap_value swaps r + 1) * MinJurorStake \/ e ∈ bt_keys ends).
    { rewrite !elem_of_bt_keys. unfold bt_insert_set.
      setoid_rewrite <- bt_get_elem; [|by apply bt_insert_sorted|done].
      destruct (decide (e = (swap_value swaps r + 1) * MinJurorStake)) as [->|Hne].
      - split; [by left|]. intros _. exists tt. apply bt_get_insert.
      - setoid_rewrite bt_get_insert_ne; [|done..]. split; [by right|]. by intros [|]. }
    rewrite Hin, Hkeys. split.
    + intros [->|(j & Hj & ->)].
      * exists i. split; [lia|]. by rewrite Hvi.
      * exists j. split; [lia|]. rewrite Hvo by lia. done.
    + intros (j & Hj & ->). destruct (decide (j = i)) as [->|Hne]; [left; by rewrite Hvi|].
      right. exists j. split; [lia|]. by rewrite Hvo by lia.
Qed.

Lemma section_ends_loop_spec `{!RandomLaws} n i len swaps ends r :
  0 < MinJurorStake -> len * MinJurorStake <= umax 128 ->
  0 <= i -> i + Z.of_nat n <= len -> shuffles len swaps -> collected i swaps ends ->
  exists ends' swaps', section_ends_loop n i len swaps ends r = Ok ends' /\
    shuffles len swaps' /\ collected (i + Z.of_nat n) swaps' ends'.
Proof.
  intros Hmin Hmax. revert i swaps ends r. induction n as [|n IH]; intros i swaps ends r Hi Hn Hsh Hc; simpl.
  { exists ends, swaps. split_and!; [done|done|]. change (Z.of_nat 0) with 0. by rewrite Z.add_0_r. }
  destruct (Z.ltb_spec i len); [|lia]. cbn.
  destruct (gen_range i len r) as [k r'] eqn:Hg.
  pose proof (gen_range_in i len r ltac:(lia)) as Hk. rewrite Hg in Hk. cbn in Hk.
  fold (swap_value swaps i). fold (swap_value swaps k).
  assert (Hvk : 0 <= swap_value swaps k < len) by (destruct Hsh as (_ & Hr & _); apply Hr; lia).
  rewrite (section_end_exact len) by done.
  destruct (IH (i + 1) (bt_insert k (swap_value swaps i) (bt_insert i (swap_value swaps k) swaps))
    (bt_insert_set ((swap_value swaps k + 1) * MinJurorStake) ends) r')
    as (ends' & swaps' & Hr & Hsh' & Hc'); [lia..| | |].
  - apply shuffles_swap; [done|lia|lia].
  - apply (collected_step len); [done..|lia|lia|done].
  - exists ends', swaps'. split_and!; [done..|]. by replace (i + Z.of_nat (S n)) with (i + 1 + Z.of_nat n) by lia.
Qed.

(** The random sections: when the pool offers at least [n] sections of
    [MinJurorStake], [get_n_random_section_ends] succeeds, whatever the
    generator returns in its ranges, and gives exactly [n] section ends, in
    ascending order and pairwise distinct, each a multiple of [MinJurorStake]
    between [MinJurorStake] and the total; only the nonce changes. *)
Theorem random_section_ends `{!RandomLaws} n max s :
  0 < MinJurorStake -> 0 <= n <= max / MinJurorStake -> max <= umax 128 ->
  exists ends, get_n_random_section_ends n max s =
      (Ok ends, set_SelectionNonce (wrapping_add 64 (SelectionNonce s) 1) s) /\
    Z.of_nat (length (bt_keys ends)) = n /\
    StronglySorted Z.lt (bt_keys ends) /\
    forall e, e ∈ bt_keys ends ->
      exists k, e = k * MinJurorStake /\ 1 <= k <= max / MinJurorStake.
Proof.
  intros Hmin Hn Hmax. unfold get_n_random_section_ends, rng, mbind, st_bind. cbn.
  unfold checked_div. destruct (Z.eqb_spec MinJurorStake 0); [lia|]. cbn. unfold lift.
  set (len := max / MinJurorStake) in *.
  assert (len * MinJurorStake <= max) by (unfold len; rewrite Z.mul_comm; apply Z.mul_div_le; lia).
  destruct (section_ends_loop_spec (Z.to_nat n) 0 len [] []
    (from_seed (get_random_seed (block_number s) (SelectionNonce s))))
    as (ends & swaps & Hr & (_ & Hrange & _) & (Hs & Hlen & Hkeys)); [lia..| | |].
  - split_and!; [constructor|unfold swap_value; cbn; lia|unfold swap_value; cbn; lia].
  - split_and!; [constructor|done|]. intros e. cbn. split; [by intros ?%elem_of_nil|].
    intros (j & Hj & _). lia.
  - exists ends. unfold ensure. rewrite Hr. split_and!; [done| | |].
    + unfold bt_keys. rewrite length_fmap. lia.
    + apply sorted_by_fmap in Hs. revert Hs. unfold sorted_by. cbn. unfold bt_keys.
      induction 1 as [|x l _ IH Hx]; constructor; [done|].
      eapply Forall_impl; [exact Hx|]. intros y. apply Z.compare_lt_iff.
    + intros e (j & Hj & ->)%Hkeys. exists (swap_value swaps j + 1). split; [done|].
      assert (0 <= swap_value swaps j < len) by (apply Hrange; lia). lia.
Qed.

(** ** The weights of a draw *)

Definition weights (sel : Selections) : Z := zsum (fun x => sel_weight x.2) sel.

(** Selections with unsigned weights in account order. *)
Definition sel_ok (sel : Selections) : Prop :=
  bt_sorted sel /\ Forall (fun x => 0 <= sel_weight x.2) sel.

Lemma sel_ok_get sel who v : sel_ok sel -> bt_get who sel = Some v -> 0 <= sel_weight v <= weights sel.
Proof.
  intros [Hs Hf] Hg. apply bt_get_elem in Hg; [|done].
  apply list_elem_of_lookup in Hg as (i & Hi). pose proof Hf as Hf'. rewrite Forall_lookup in Hf'.
  split; [exact (Hf' _ _ Hi)|]. exact (zsum_lookup_le (fun x => sel_weight x.2) _ _ _ Hf Hi).
Qed.

Lemma sel_ok_insert sel who v : sel_ok sel -> 0 <= sel_weight v -> sel_ok (bt_insert who v sel).
Proof.
  intros [Hs Hf] Hv. split; [by apply bt_insert_sorted|]. apply Forall_forall.
  intros x [->|Hx]%elem_of_bt_insert; [done|]. rewrite Forall_forall in Hf. by apply Hf.
Qed.

Definition added_weight (a : SelectionAdd) : Z :=
  match a with SelfStake _ | DelegationWeight => 1 | DelegationStake _ _ => 0 end.

Lemma update_selections_weights sel who a sel' :
  sel_ok sel -> weights sel < umax 32 -> update_selections sel who a = Ok sel' ->
  sel_ok sel' /\ weights sel' = weights sel + added_weight a /\ (length sel' <= S (length sel))%nat.
Proof.
  intros Hok Hlt Hr. pose proof Hok as [Hs _]. unfold update_selections in Hr.
  assert (Hins : forall v, 0 <= sel_weight v ->
    sel_weight v = from_option sel_weight 0 (bt_get who sel) + added_weight a ->
    sel' = bt_insert who v sel ->
    sel_ok sel' /\ weights sel' = weights sel + added_weight a /\ (length sel' <= S (length sel))%nat).
  { intros v Hv Hw ->. split_and!; [by apply sel_ok_insert| |].
    - unfold weights. rewrite (zsum_bt_insert sel_weight) by done. lia.
    - rewrite length_bt_insert by done. destruct (bt_get who sel); lia. }
  destruct (bt_get who sel) as [[w sl ds]|] eqn:Hg; cbn in Hins.
  - pose proof (sel_ok_get _ _ _ Hok Hg) as Hw. cbn in Hw.
    assert (saturating_add 32 w 1 = w + 1) as Hsat by (unfold saturating_add; lia).
    destruct a; cbn in Hr; rewrite ?Hsat in Hr.
    + injection Hr as <-. by eapply Hins; [| |done]; cbn; lia.
    + apply result_bind_ok in Hr as (x & _ & [= <-]). by eapply Hins; [| |done]; cbn; lia.
    + injection Hr as <-. by eapply Hins; [| |done]; cbn; lia.
  - destruct a; cbn in Hr.
    + injection Hr as <-. by eapply Hins; [| |done]; cbn; lia.
    + injection Hr as <-. by eapply Hins; [| |done]; cbn; lia.
    + injection Hr as <-. by eapply Hins; [| |done]; cbn; lia.
Qed.

(** One random section adds one weight and at most two accounts. *)
Lemma add_to_selections_weights sel who lock s sel' s' :
  sel_ok sel -> weights sel + 1 < umax 32 -> add_to_selections sel who lock s = (Ok sel', s') ->
  sel_ok sel' /\ weights sel' = weights sel + 1 /\ (length sel' <= length sel + 2)%nat.
Proof.
  intros Hs Hlt Hr. unfold add_to_selections in Hr. apply bind_ok in Hr as (? & ? & [-> ->]%get_ok & Hr).
  destruct (Participants s !! who ≫= pi_delegations) as [ds|].
  - apply bind_ok in Hr as (o & ? & _ & Hr). apply bind_ok in Hr as (j & ? & _ & Hr).
    apply bind_ok in Hr as (sel1 & ? & [H1%map_err_ok ->]%lift_ok & [H2%map_err_ok _]%lift_ok).
    apply update_selections_weights in H1 as (Hs1 & Hw1 & Hl1); [|done|lia]. cbn in Hw1.
    apply update_selections_weights in H2 as (Hs2 & Hw2 & Hl2); [|done|lia]. cbn in Hw2.
    split_and!; [done|lia|lia].
  - apply lift_ok in Hr as [H1%map_err_ok _].
    apply update_selections_weights in H1 as (Hs1 & Hw1 & Hl1); [|done|lia]. cbn in Hw1.
    split_and!; [done|lia|lia].
Qed.

(** What a pool item has left to be drawn. *)
Definition unconsumed (i : CourtPoolItem) : Z := saturating_sub (stake i) (consumed_stake i).

Lemma unconsumed_sections_ok i x :
  0 < MinJurorStake -> unconsumed_sections i = Ok x -> 0 <= x <= unconsumed i.
Proof.
  intros Hmin. unfold unconsumed_sections. fold (unconsumed i).
  assert (0 <= unconsumed i) by (unfold unconsumed, saturating_sub; lia).
  intros (r & [-> _]%checked_rem_res_ok & [= <-])%result_bind_ok. unfold saturating_sub.
  pose proof (Z.mod_pos_bound (unconsumed i) MinJurorStake Hmin).
  pose proof (Z.mod_le (unconsumed i) MinJurorStake). lia.
Qed.

(** The order of the cumulative section ends: equal ends only for items with
    nothing left. *)
Definition cum_lt (a b : Z * bool) : Prop := a.1 < b.1 \/ (a.1 = b.1 /\ b.2 = true).

Lemma section_ends_of_pool_spec pool t total cum :
  0 < MinJurorStake -> 0 <= t -> t + zsum unconsumed pool <= umax 128 ->
  section_ends_of_pool pool t t = Ok (total, cum) ->
  length cum = length pool /\ t <= total <= t + zsum unconsumed pool /\
  Forall (fun c => c.1 <= total /\ cum_lt (t, true) c) cum /\
  StronglySorted cum_lt cum /\
  total = from_option fst t (last cum).
Proof.
  intros Hmin. revert t total cum. induction pool as [|i pool IH]; intros t total cum Ht Hsum;
    cbn [section_ends_of_pool].
  { intros [= <- <-]. cbn. split_and!; [done|lia|lia|constructor|constructor|done]. }
  rewrite zsum_cons in *.
  intros (x & Hx & Hr)%result_bind_ok. apply unconsumed_sections_ok in Hx; [|done].
  assert (0 <= zsum unconsumed pool).
  { apply zsum_nonneg, Forall_forall. intros y _. unfold unconsumed, saturating_sub. lia. }
  assert (saturating_add 128 t x = t + x) as Hsat by (unfold saturating_add; lia).
  rewrite Hsat in Hr. apply result_bind_ok in Hr as ([tot rest] & Hrest & [= <- <-]).
  apply IH in Hrest as (Hl & Htot & Hf & Hs & Hlast); [|lia..].
  assert (Hhead : cum_lt (t, true) (t + x, x =? 0)).
  { unfold cum_lt. cbn. destruct (Z.eqb_spec x 0); [right; split; [lia|done]|left; lia]. }
  split_and!; [cbn; by f_equal|lia|lia| | |].
  - constructor; [by split; [cbn; lia|]|]. eapply Forall_impl; [exact Hf|].
    intros [c z] [Hc Hlt]. split; [done|]. unfold cum_lt in *. cbn in *.
    destruct Hlt as [?|[? ->]]; [left; lia|].
    destruct (decide (x = 0)); [right; split; [lia|done]|left; lia].
  - constructor; [done|]. eapply Forall_impl; [exact Hf|]. intros [c z] [_ Hlt]. exact Hlt.
  - rewrite Hlast, last_cons. by destruct (last rest).
Qed.

Lemma cum_ascending cum e : StronglySorted cum_lt cum -> ascending (fun c => cmp c (e, false)) cum.
Proof.
  intros Hs i j x y Hij Hx Hy. assert (Hlt : cum_lt x y).
  { revert i j Hij Hx Hy. induction Hs as [|z l Hs IH Hz]; intros [|i] [|j] Hij Hx Hy; simplify_eq/=; try lia.
    - rewrite Forall_lookup in Hz. by apply (Hz j).
    - eapply IH; [|done..]. lia. }
  destruct x as [x bx], y as [y by_]. unfold cum_lt in Hlt. cbn in Hlt. unfold cmp, ord_prod. cbn.
  change (cmp x e) with (Z.compare x e). change (cmp y e) with (Z.compare y e).
  destruct (Z.compare_spec x e), (Z.compare_spec y e), bx, by_; cbn; split_and!; try done; lia.
Qed.

(** The search of a section end up to the total hits an item of the pool. *)
Lemma range_index_lt cum e total t :
  StronglySorted cum_lt cum -> total = from_option fst t (last cum) -> t < e <= total ->
  (match binary_search_by_key (e, false) id cum with Found i => i | NotFound i => i end
     < length cum)%nat.
Proof.
  intros Hs Htot He. destruct (binary_search_by_key _ _ _) as [i|i] eqn:Hb.
  - apply binary_search_by_found in Hb as (x & Hx & _). by eapply lookup_lt_Some.
  - apply binary_search_by_not_found in Hb as (Hi & Hlo & _); [|by apply cum_ascending].
    destruct (decide (i < length cum)%nat) as [|Hge]; [done|].
    destruct (last cum) as [c|] eqn:Hlast; cbn in Htot; [|lia].
    rewrite last_lookup in Hlast. assert (Hc : cmp c (e, false) = Lt).
    { apply (Hlo (pred (length cum))); [|done]. apply lookup_lt_Some in Hlast. lia. }
    destruct c as [c z]. cbn in Htot. unfold cmp, ord_prod in Hc. cbn in Hc.
    change (cmp c e) with (Z.compare c e) in Hc.
    destruct (Z.compare_spec c e); [by destruct z|lia|done].
Qed.

Lemma selections_loop_weights ends cum pool sel bad s pool' sel' bad' s' :
  (forall e, e ∈ ends ->
    (match binary_search_by_key (e, false) id cum with Found i => i | NotFound i => i end
       < length pool)%nat) ->
  sel_ok sel -> weights sel + Z.of_nat (length ends) < umax 32 ->
  selections_loop ends cum pool sel bad s = (Ok (pool', sel', bad'), s') ->
  sel_ok sel' /\
  weights sel' + Z.of_nat (length bad') = weights sel + Z.of_nat (length bad) + Z.of_nat (length ends) /\
  (length bad <= length bad')%nat /\ (length sel' <= length sel + 2 * length ends)%nat.
Proof.
  revert pool sel bad s. induction ends as [|e ends IH]; intros pool sel bad s Hidx Hok Hlt; cbn [selections_loop].
  { intros [[= <- <- <-] ->]%mret_ok. cbn. split_and!; [done|lia..]. }
  pose proof (Hidx e ltac:(by left)) as Hin.
  remember (match binary_search_by_key (e, false) id cum with Found i => i | NotFound i => i end) as k eqn:Ek.
  clear Ek. apply lookup_lt_is_Some in Hin as [item Hitem]. rewrite Hitem.
  intros Hr. apply bind_ok in Hr as (r & s1 & Hadd%attempt_ok & Hr).
  apply bind_ok in Hr as ([sel1 bad1] & s2 & H1 & Hr). cbn [length] in Hlt |- *.
  assert (sel_ok sel1 /\ weights sel1 + Z.of_nat (length bad1) = weights sel + Z.of_nat (length bad) + 1 /\
    (length bad <= length bad1)%nat /\ (length sel1 <= length sel + 2)%nat) as (Hok1 & Hw1 & Hb1 & Hl1).
  { destruct r as [sel2|[]]; [| |discriminate H1]; apply mret_ok in H1 as [[= -> ->] _].
    - apply add_to_selections_weights in Hadd as (? & ? & ?); [|done|lia]. split_and!; [done|lia..].
    - rewrite length_app. cbn. split_and!; [done|lia..]. }
  apply bind_ok in Hr as (? & s3 & _ & Hr).
  apply IH in Hr as (? & ? & ? & ?); [|by intros e' He'; rewrite length_insert; apply Hidx; right|done|lia].
  split_and!; [done|lia..].
Qed.

(** Without delegators no draw is lost. *)
Definition no_delegators (s : CourtState) : Prop :=
  forall who, Participants s !! who ≫= pi_delegations = None.

Lemma no_delegators_frame s s' : frame s' = frame s -> no_delegators s -> no_delegators s'.
Proof.
  intros Hf Hn who. specialize (Hn who). destruct (Participants s' !! who) as [i|] eqn:Hi; [|done].
  destruct (frame_participant _ _ _ _ Hf Hi) as (i' & Hi' & Heq). rewrite Hi' in Hn. cbn in *.
  injection Heq as ???. congruence.
Qed.

Lemma add_to_selections_no_delegator sel who lock s e s' :
  no_delegators s -> add_to_selections sel who lock s = (Err e, s') -> e = SelectionSearchFailed.
Proof.
  intros Hn Hr. unfold add_to_selections in Hr.
  apply bind_err in Hr as [?|(? & ? & [-> ->]%get_ok & Hr)]; [done|].
  rewrite (Hn who) in Hr. apply lift_err in Hr as [Hr _].
  destruct (update_selections _ _ _); cbn in Hr; congruence.
Qed.

Lemma selections_loop_no_bad ends cum pool sel bad s pool' sel' bad' s' :
  no_delegators s -> selections_loop ends cum pool sel bad s = (Ok (pool', sel', bad'), s') ->
  bad' = bad.
Proof.
  revert pool sel bad s. induction ends as [|e ends IH]; intros pool sel bad s Hn; cbn [selections_loop].
  { by intros [[= <- <- <-] ->]%mret_ok. }
  destruct (pool !! _) as [item|]; [|by apply IH].
  intros Hr. apply bind_ok in Hr as (r & s1 & Hadd%attempt_ok & Hr).
  pose proof (add_to_selections_frame _ _ _ _ _ _ Hadd) as Hf1.
  apply bind_ok in Hr as ([sel1 bad1] & s2 & H1 & Hr).
  assert (bad1 = bad /\ s2 = s1) as [-> ->].
  { destruct r as [sel2|[]]; [| |discriminate H1].
    - by apply mret_ok in H1 as [[= -> ->] ->].
    - apply add_to_selections_no_delegator in Hadd; done. }
  apply bind_ok in Hr as (? & s3 & Hlock & Hr). apply IH in Hr; [done|].
  eapply no_delegators_frame; [|exact Hn]. etransitivity; [|exact Hf1].
  by eapply (keeps_frame_relock _ (fun i => saturating_add 128 (pi_active_lock i) _)).
Qed.

(** The weight of a draw: [choose_multiple_weighted] with weight [w] gives
    draws of at most [2 * w] accounts, in account order, whose weights add up
    to [w] less the number of sections drawn from delegators without a valid
    juror; with no delegators around nothing is lost and the pool keeps all
    its entries. *)
Theorem draw_weights `{!RandomLaws} w s ds s' :
  court_inv s -> 0 < MinJurorStake -> 0 <= w < umax 32 -> w * MinJurorStake <= umax 128 ->
  zsum unconsumed (CourtPool s) <= umax 128 ->
  choose_multiple_weighted w s = (Ok ds, s') ->
  sorted_by draw_participant ds /\ Z.of_nat (length ds) <= 2 * w /\
  exists lost, 0 <= lost /\ zsum draw_weight ds = w - lost /\
    (no_delegators s -> lost = 0 /\ pool_key <$> CourtPool s' = pool_key <$> CourtPool s).
Proof.
  intros Hinv Hmin Hw Hwmin Hsum Hr.
  split; [by apply choose_multiple_weighted_ok in Hr as [? _]|].
  unfold choose_multiple_weighted in Hr.
  apply bind_ok in Hr as (? & ? & [-> ->]%gets_ok & Hr).
  apply bind_ok in Hr as ([total cum] & ? & [Hcum ->]%lift_ok & Hr).
  apply section_ends_of_pool_spec in Hcum as (Hlen & Htot & _ & Hsorted & Hlast); [|lia..].
  apply bind_ok in Hr as (? & ? & [Hreq%ensure_ok%Z.leb_le ->]%lift_ok & Hr).
  unfold saturating_mul in Hreq. rewrite Z.min_l in Hreq by lia.
  apply bind_ok in Hr as (ends & s1 & Hends & Hr).
  destruct (random_section_ends w total s) as (ends' & Hends' & Hn & _ & Hin);
    [done|split; [lia|apply Z.div_le_lower_bound; lia]|lia|].
  rewrite Hends in Hends'. injection Hends' as -> ->.
  apply bind_ok in Hr as ([pool' sel'] & s2 & Hsel & Hr).
  apply bind_ok in Hr as (? & ? & [_ ->]%modify_ok & [-> ->]%mret_ok).
  unfold get_selections in Hsel. apply bind_ok in Hsel as ([[p sel] bad] & s3 & Hloop & Hsel).
  apply bind_ok in Hsel as (q & ? & [Hrem ->]%lift_ok & [[= -> ->] ->]%mret_ok).
  pose proof Hloop as (Hok & Hwt & _ & Hl)%selections_loop_weights; [| |by split; constructor|cbn; lia].
  2:{ intros e (k & -> & Hk)%Hin. rewrite <- Hlen. apply (range_index_lt _ _ total 0); [done..|].
      pose proof (Z.mul_div_le total MinJurorStake Hmin). nia. }
  split; [unfold convert_selections_to_draws; rewrite length_fmap; cbn in Hl; lia|].
  exists (Z.of_nat (length bad)). split; [lia|]. split.
  - unfold convert_selections_to_draws. rewrite zsum_fmap. cbn in Hwt.
    rewrite (zsum_ext _ (fun x => sel_weight x.2)) by (by intros [who []] _). unfold weights in Hwt. lia.
  - intros Hnd. pose proof Hloop as Hb%selections_loop_no_bad; [|done]. subst bad.
    split; [done|]. injection Hrem as <-. cbn.
    by apply selections_loop_ok in Hloop as [-> _]; [|constructor].
Qed.
End Draw.

(** ** The number of draws of a round *)

(** The draw weight of round [n] is [2^n * 31 + 2^n - 1 = 32 * 2^n - 1], as
    the comment in the code says, with no saturation up to 26 appeals. *)
Theorem necessary_draws_weight_eq n :
  0 <= n <= 26 -> necessary_draws_weight n = 32 * 2 ^ n - 1.
Proof.
  intros Hn. assert (Hp : 1 <= 2 ^ n <= 2 ^ 26).
  { split; [|by apply Z.pow_le_mono_r; lia]. pose proof (Z.pow_pos_nonneg 2 n). lia. }
  unfold necessary_draws_weight, saturating_add, saturating_mul, saturating_sub, saturating_pow,
    APPEAL_BASIS, INITIAL_DRAWS_NUM.
  change (umax 32) with 4294967295. change (2 ^ 26) with 67108864 in Hp. lia.
Qed.

(** ** Removing delegators without a valid juror *)

(** Delegators without a valid juror: the indices of drawn delegators whose
    jurors are all gone are removed from the pool one after the other, without
    accounting for the shift, so a delegator at index [i] that was drawn [n]
    times takes the [n - 1] pool entries after hers with her, and the call
    panics if fewer than [n] entries are left from [i] on. *)
Theorem invalid_delegator_removal (pool : list CourtPoolItem) (i n : nat) :
  remove_indices (replicate n i) pool =
  if decide (n = 0 \/ (i + n <= length pool)%nat)%nat
  then Ok (take i pool ++ drop (i + n) pool) else Err Panicked.
Proof.
  revert pool. induction n as [|n IH]; intros pool; simpl.
  { by rewrite Nat.add_0_r, take_drop. }
  destruct (pool !! i) as [x|] eqn:Hx.
  - rewrite (vec_remove_eq _ _ _ Hx). cbn. rewrite IH. apply lookup_lt_Some in Hx as Hlt.
    rewrite length_delete by eauto. rewrite delete_take_drop.
    destruct (decide (S n = 0%nat \/ (i + S n <= length pool)%nat)) as [Hle|Hgt].
    + rewrite decide_True by lia. f_equal. rewrite take_app_le by (rewrite length_take; lia).
      rewrite take_take, Nat.min_id. f_equal. rewrite drop_app_ge by (rewrite length_take; lia).
      rewrite length_take, drop_drop. f_equal. lia.
    + rewrite decide_False by lia. done.
  - unfold vec_remove. rewrite Hx. cbn. apply lookup_ge_None in Hx. rewrite decide_False by lia. done.
Qed.
