(* ===== verification/CourtRuling.v ===== *)
(** * The court pallet: the properties of votes and rulings

    The winner of a round, committing and revealing votes, and what an appeal
    does. *)

From S2P Require Import Prelude Errors FixedMath Collections Interfaces Market CourtTypes.
From S2P Require Import CourtPool CourtSelection CourtVoting CourtInv.

(** ** The winner of a round *)

(** The weight a draw gives to a vote item. *)
Definition revealed_weight (v : VoteItem) (d : Draw) : Z :=
  match draw_vote d with
  | Revealed _ v' _ => if decide (v' = v) then draw_weight d else 0
  | _ => 0
  end.
Definition score (ds : list Draw) (v : VoteItem) : Z := zsum (revealed_weight v) ds.

Definition revealed_item (d : Draw) : option VoteItem :=
  match draw_vote d with Revealed _ v _ => Some v | _ => None end.

(** Somebody revealed a vote for [v]. *)
Definition voted (ds : list Draw) (v : VoteItem) : Prop := exists d, d ∈ ds /\ revealed_item d = Some v.

(** [v] got more weight than every other item that was voted for. *)
Definition plurality (ds : list Draw) (v : VoteItem) : Prop :=
  voted ds v /\ forall v', voted ds v' -> v' <> v -> score ds v' < score ds v.

Lemma revealed_weight_cases v d :
  (revealed_item d = Some v /\ revealed_weight v d = draw_weight d) \/
  (revealed_item d <> Some v /\ revealed_weight v d = 0).
Proof.
  unfold revealed_item, revealed_weight. destruct (draw_vote d); try (right; split; congruence).
  case_decide; [subst; by left|right]. split; congruence.
Qed.

Lemma add_score_get scores d v :
  bt_sorted scores -> 
  bt_sorted (add_score scores d) /\
  bt_get v (add_score scores d) =
    if decide (revealed_item d = Some v)
    then Some (match bt_get v scores with
               | Some el => saturating_add 32 el (draw_weight d)
               | None => draw_weight d end)
    else bt_get v scores.
Proof.
  intros Hs. unfold add_score, revealed_item. destruct (draw_vote d) as [| | |h v' t|];
    try (by rewrite decide_False).
  assert (Hins : forall x, bt_sorted (bt_insert v' x scores) /\
    bt_get v (bt_insert v' x scores) = if decide (v' = v) then Some x else bt_get v scores).
  { intros x. split; [by apply bt_insert_sorted|]. case_decide as Hv.
    - subst. apply bt_get_insert.
    - by apply bt_get_insert_ne. }
  destruct (decide (v' = v)) as [->|Hne].
  - rewrite decide_True by done. destruct (bt_get v scores); apply Hins.
  - rewrite decide_False by congruence. destruct (bt_get v' scores); apply Hins.
Qed.

(** The score table holds the items voted for, with their exact scores. *)
Lemma scores_get ds scores v :
  bt_sorted scores -> Forall (fun d => 0 <= draw_weight d) ds ->
  0 <= default 0 (bt_get v scores) ->
  default 0 (bt_get v scores) + zsum draw_weight ds <= umax 32 ->
  bt_sorted (fold_left add_score ds scores) /\
  bt_get v (fold_left add_score ds scores) =
    if bool_decide (Exists (fun d => revealed_item d = Some v) ds) || bool_decide (is_Some (bt_get v scores))
    then Some (default 0 (bt_get v scores) + score ds v) else None.
Proof.
  intros Hs Hf. revert scores Hs. induction Hf as [|d ds Hd Hf IH]; intros scores Hs H0 Hmax; cbn [fold_left].
  { split; [done|]. rewrite (bool_decide_false (Exists _ [])) by (by intros ?%Exists_nil). simpl.
    unfold score. cbn. destruct (bt_get v scores); cbn; [|done]. by rewrite Z.add_0_r. }
  destruct (add_score_get scores d v Hs) as [Hs' Hget].
  pose proof (zsum_nonneg draw_weight ds Hf) as Hnn. rewrite zsum_cons in Hmax.
  assert (Hval : bt_get v (add_score scores d) =
    if bool_decide (revealed_item d = Some v) || bool_decide (is_Some (bt_get v scores))
    then Some (default 0 (bt_get v scores) + revealed_weight v d) else None).
  { rewrite Hget. destruct (revealed_weight_cases v d) as [[He Hw]|[He Hw]]; rewrite Hw.
    - rewrite decide_True, bool_decide_true by done. cbn. f_equal.
      destruct (bt_get v scores); cbn in *; unfold saturating_add; lia.
    - rewrite decide_False, (bool_decide_false (revealed_item d = Some v)) by done. cbn.
      destruct (bt_get v scores); cbn; [|done]. by rewrite Z.add_0_r. }
  assert (Hw : 0 <= revealed_weight v d <= draw_weight d)
    by (destruct (revealed_weight_cases v d) as [[_ ->]|[_ ->]]; lia).
  destruct (IH (add_score scores d) Hs') as [Hsort Hfin].
  { rewrite Hval. destruct (_ || _); cbn; lia. }
  { rewrite Hval. destruct (_ || _); cbn; lia. }
  split; [done|]. rewrite Hfin, Hval. unfold score. rewrite zsum_cons.
  rewrite (bool_decide_ext (Exists _ (d :: ds))
    (revealed_item d = Some v \/ Exists (fun d => revealed_item d = Some v) ds)) by apply Exists_cons.
  rewrite bool_decide_or.
  destruct (bool_decide (revealed_item d = Some v)) eqn:E1, (bool_decide (is_Some (bt_get v scores))) eqn:E2,
    (bool_decide (Exists (fun d => revealed_item d = Some v) ds)) eqn:E3; cbn; try done; f_equal; try lia.
  all: destruct (revealed_weight_cases v d) as [[He Hw']|[He Hw']]; try lia.
  all: apply bool_decide_eq_false in E1, E2; try done.
  all: apply eq_None_not_Some in E2; rewrite E2; cbn; lia.
Qed.

Lemma scores_elem ds v x :
  Forall (fun d => 0 <= draw_weight d) ds -> zsum draw_weight ds <= umax 32 ->
  bt_sorted (fold_left add_score ds []) /\
  ((v, x) ∈ fold_left add_score ds [] <-> voted ds v /\ x = score ds v).
Proof.
  intros Hf Hmax. destruct (scores_get ds [] v) as [Hs Hg]; [constructor|done|cbn; lia|cbn; lia|].
  split; [done|]. rewrite <- bt_get_elem by done. rewrite Hg. cbn. rewrite orb_false_r.
  assert (Hv : voted ds v <-> Exists (fun d => revealed_item d = Some v) ds)
    by (unfold voted; by rewrite list.Exists_exists).
  rewrite Hv. case_bool_decide; [|split; [done|by intros []]].
  split; [intros [= <-]; done|intros [_ ->]; done].
Qed.

(** [best] and [second] are the two best scores among those in [seen]. *)
Definition top_two (seen : VoteItem * Z -> Prop) (best second : VoteItem * Z) : Prop :=
  seen best /\ seen second /\ best <> second /\ second.2 <= best.2 /\
  forall x, seen x -> x <> best -> x.2 <= second.2.

(** The scan keeps the two best scores. *)
Lemma best_two_spec rest seen best second b s2 :
  top_two seen best second -> (forall x, x ∈ rest -> ~ seen x) -> NoDup rest ->
  best_two rest best second = (b, s2) ->
  top_two (fun x => seen x \/ x ∈ rest) b s2.
Proof.
  revert seen best second. induction rest as [|el rest IH]; intros seen best second Htop Hnew Hnd; simpl.
  { intros [= <- <-]. destruct Htop as (? & ? & ? & ? & Hall). split_and!; [by left|by left|done..|].
    intros x [Hx|Hx%elem_of_nil]; [by apply Hall|done]. }
  apply NoDup_cons in Hnd as [Hel Hnd]. pose proof (Hnew el ltac:(by left)) as Hn.
  assert (Hstep : forall b' s', top_two (fun x => seen x \/ x = el) b' s' ->
    best_two rest b' s' = (b, s2) -> top_two (fun x => seen x \/ x ∈ el :: rest) b s2).
  { intros b' s' Ht Hr. apply (IH _ _ _ Ht) in Hr; [| |done].
    - destruct Hr as (H1 & H2 & H3 & H4 & H5).
      split_and!; [rewrite elem_of_cons; tauto|rewrite elem_of_cons; tauto|done|done|].
      intros x Hx. apply H5. rewrite elem_of_cons in Hx. tauto.
    - intros x Hx [Hsx| ->]; [|done]. by apply (Hnew x); [right|]. }
  destruct Htop as (Hb & Hs & Hne & Hle & Hall).
  destruct (Z.ltb_spec best.2 el.2); [|destruct (Z.ltb_spec second.2 el.2)]; apply Hstep.
  - split_and!; [by right|by left|by intros ->|lia|]. intros x [Hx| ->] Hxe; [|done].
    destruct (decide (x = best)) as [->|Hxb]; [lia|]. specialize (Hall x Hx Hxb). lia.
  - split_and!; [by left|by right|by intros ->|lia|]. intros x [Hx| ->] Hxe; [|lia].
    specialize (Hall x Hx Hxe). lia.
  - split_and!; [by left|by left|done|done|]. intros x [Hx| ->] Hxe; [|lia]. by apply Hall.
Qed.

Lemma two_best_spec f1 f2 rest :
  NoDup (f1 :: f2 :: rest) ->
  exists b s2, (if f1.2 <? f2.2 then best_two rest f2 f1 else best_two rest f1 f2) = (b, s2) /\
    top_two (fun x => x ∈ f1 :: f2 :: rest) b s2.
Proof.
  intros [Hn1 [Hn2 Hnd]%NoDup_cons]%NoDup_cons.
  assert (Hne : f1 <> f2) by (intros ->; apply Hn1; by left).
  assert (Hgen : forall p q, top_two (fun x => x = f1 \/ x = f2) p q ->
    exists b s2, best_two rest p q = (b, s2) /\ top_two (fun x => x ∈ f1 :: f2 :: rest) b s2).
  { intros p q Hpq. destruct (best_two rest p q) as [b s2] eqn:Hr. exists b, s2. split; [done|].
    apply (best_two_spec _ _ _ _ _ _ Hpq) in Hr as (H1 & H2 & H3 & H4 & H5); [| |done].
    - split_and!; try done; try (rewrite !elem_of_cons; tauto).
      intros x Hx. apply H5. rewrite !elem_of_cons in Hx. tauto.
    - intros x Hx [->| ->]; [apply Hn1; by right|done]. }
  destruct (Z.ltb_spec f1.2 f2.2); apply Hgen; split_and!; try tauto; try done; try lia.
  all: intros x [->| ->] ?; done || lia.
Qed.

(** C15. The winner of a round is the vote item with strictly more revealed
    weight than every other; if several items share the highest weight the
    winner of the previous round stands, and if nobody revealed a vote there
    is no winner. These cases are exhaustive. *)
Theorem get_winner_spec ds last_winner :
  Forall (fun d => 0 <= draw_weight d) ds -> zsum draw_weight ds <= umax 32 ->
  ((forall v, ~ voted ds v) -> get_winner ds last_winner = None) /\
  (forall v, plurality ds v -> get_winner ds last_winner = Some v) /\
  ((exists v, voted ds v) -> (forall v, ~ plurality ds v) -> get_winner ds last_winner = last_winner).
Proof.
  intros Hf Hmax. pose proof (fun v x => scores_elem ds v x Hf Hmax) as Hsc.
  unfold get_winner. set (scores := fold_left add_score ds []) in *.
  assert (Hs : bt_sorted scores) by apply (Hsc (Binary true) 0).
  assert (Hin : forall v x, (v, x) ∈ scores <-> voted ds v /\ x = score ds v) by (intros; apply Hsc).
  clearbody scores. clear Hsc.
  destruct scores as [|f1 [|f2 rest]].
  - assert (Hno : forall v, ~ voted ds v).
    { intros v Hv. assert ((v, score ds v) ∈ []) as ?%elem_of_nil by (by apply Hin). done. }
    split_and!; [done|intros v [Hv _]; by apply Hno in Hv|intros [v Hv]; by apply Hno in Hv].
  - destruct f1 as [v1 x1]. destruct (proj1 (Hin v1 x1)) as [Hv1 ->]; [by left|]. cbn.
    assert (Honly : forall v, voted ds v -> v = v1).
    { intros v Hv. assert ((v, score ds v) ∈ [(v1, score ds v1)]) as Hi by (by apply Hin).
      apply list_elem_of_singleton in Hi. congruence. }
    split_and!.
    + intros Hno. by apply Hno in Hv1.
    + intros v [Hv%Honly _]. by subst.
    + intros _ Hnp. destruct (Hnp v1). split; [done|]. by intros v' ->%Honly.
  - apply sorted_by_NoDup in Hs as Hnd. apply NoDup_fmap_1 in Hnd.
    destruct (two_best_spec f1 f2 rest Hnd) as (b & s2 & -> & Htop).
    destruct b as [vb xb], s2 as [vs xs]. destruct Htop as (Hb & Hs2 & Hbs & Hle & Hall). cbn in *.
    apply Hin in Hb as [Hvb ->], Hs2 as [Hvs ->].
    assert (Hvne : vb <> vs) by congruence.
    assert (Hother : forall v, voted ds v -> v <> vb -> score ds v <= score ds vs).
    { intros v Hv Hvv. apply (Hall (v, score ds v)); [by apply Hin|congruence]. }
    split_and!.
    + intros Hno. by apply Hno in Hvb.
    + intros v [Hv Hpl]. destruct (decide (v = vb)) as [->|Hvv].
      * specialize (Hpl vs Hvs (not_eq_sym Hvne)). destruct (Z.eqb_spec (score ds vb) (score ds vs)); [lia|done].
      * specialize (Hpl vb Hvb (not_eq_sym Hvv)). specialize (Hother v Hv Hvv). lia.
    + intros _ Hnp. destruct (Z.eqb_spec (score ds vb) (score ds vs)) as [|Hd]; [done|].
      destruct (Hnp vb). split; [done|]. intros v Hv Hvv. specialize (Hother v Hv Hvv). lia.
Qed.

(** ** Committing and revealing *)

Section Votes.
Context `{CourtConfig}.

(** What a successful [vote] did. *)
Lemma vote_ok s who c h s' :
  vote (Signed who) c h s = (Ok tt, s') ->
  exists court k d,
    Courts s !! c = Some court /\
    pre_vote (round_ends court) < block_number s <= vote_end (round_ends court) /\
    draws_of c s !! k = Some d /\ draw_participant d = who /\
    (draw_vote d = Drawn \/ exists h', draw_vote d = Secret h') /\
    s' = set_events (events s ++ [JurorVoted c who h])
           (set_SelectedDraws (<[c := <[k := set_draw_vote (Secret h) d]> (draws_of c s)]>
              (SelectedDraws s)) s).
Proof.
  intros Hr%transactional_ok.
  apply bind_ok in Hr as (? & ? & [[= <-] ->]%lift_ok & Hr).
  apply bind_ok in Hr as (? & ? & [-> ->]%get_ok & Hr).
  apply bind_ok in Hr as (court & ? & [Hc%ok_or_ok ->]%lift_ok & Hr).
  apply bind_ok in Hr as (? & ? & [[Hlo%Z.ltb_lt Hhi%Z.leb_le]%ensure_ok%andb_prop ->]%lift_ok & Hr).
  apply bind_ok in Hr as (? & s1 & Hm & [_ ->]%modify_ok).
  destruct (binary_search_by_key _ _ _) as [k|k] eqn:Hb; [|discriminate Hm].
  apply bind_ok in Hm as (d & ? & [Hd%ok_or_ok ->]%lift_ok & Hm).
  apply bind_ok in Hm as (? & ? & [Hv%ensure_ok ->]%lift_ok & [_ ->]%modify_ok).
  apply search_key_found_inv in Hb as (d' & Hd' & Hk). assert (d' = d) as -> by congruence.
  exists court, k, d. split_and!; try done. destruct (draw_vote d); eauto; done.
Qed.

(** What a successful [reveal_vote] found and did. *)
Lemma reveal_vote_ok s who c item salt s' :
  reveal_vote (Signed who) c item salt s = (Ok tt, s') ->
  exists court k d,
    Courts s !! c = Some court /\
    vote_end (round_ends court) < block_number s <= aggregation (round_ends court) /\
    draws_of c s !! k = Some d /\ draw_participant d = who /\
    draw_vote d = Secret (hash_of who item salt) /\
    s' = set_events (events s ++
             [JurorRevealedVote who c item salt (draw_slashable d) (draw_weight d)])
           (set_SelectedDraws
              (<[c := <[k := set_draw_vote (Revealed (hash_of who item salt) item salt) d]>
                        (draws_of c s)]> (SelectedDraws s)) s).
Proof.
  intros Hr%transactional_ok.
  apply bind_ok in Hr as (? & ? & [[= <-] ->]%lift_ok & Hr).
  apply bind_ok in Hr as (? & ? & [-> ->]%get_ok & Hr).
  apply bind_ok in Hr as (? & ? & [_ ->]%lift_ok & Hr).
  apply bind_ok in Hr as (? & ? & [_ ->]%lift_ok & Hr).
  apply bind_ok in Hr as (court & ? & [Hc%ok_or_ok ->]%lift_ok & Hr).
  apply bind_ok in Hr as (? & ? & [_ ->]%lift_ok & Hr).
  apply bind_ok in Hr as (? & ? & [[Hlo%Z.ltb_lt Hhi%Z.leb_le]%ensure_ok%andb_prop ->]%lift_ok & Hr).
  apply bind_ok in Hr as ([sl w] & s1 & Hm & [_ ->]%modify_ok).
  destruct (binary_search_by_key _ _ _) as [k|k] eqn:Hb; [|discriminate Hm].
  apply bind_ok in Hm as (d & ? & [Hd%ok_or_ok ->]%lift_ok & Hm).
  apply bind_ok in Hm as (h & ? & [Hh ->]%lift_ok & Hm).
  apply bind_ok in Hm as (? & ? & [_ ->]%modify_ok & [[= -> ->] ->]%mret_ok).
  apply search_key_found_inv in Hb as (d' & Hd' & Hk). assert (d' = d) as -> by congruence.
  unfold get_hashed_commitment in Hh. destruct (draw_vote d) as [| |h'| |] eqn:Hv; try done.
  apply result_bind_ok in Hh as (? & Heq%ensure_ok%Z.eqb_eq & [= <-]). subst h'.
  by exists court, k, d.
Qed.

(** When [reveal_vote] succeeds. *)
Lemma reveal_vote_run s who c item salt court k d :
  sorted_by draw_participant (draws_of c s) ->
  check_market_outcome s c item = Ok tt -> is_Some (Participants s !! who) ->
  Courts s !! c = Some court -> check_vote_item court item = Ok tt ->
  vote_end (round_ends court) < block_number s <= aggregation (round_ends court) ->
  draws_of c s !! k = Some d -> draw_participant d = who ->
  draw_vote d = Secret (hash_of who item salt) ->
  exists s', reveal_vote (Signed who) c item salt s = (Ok tt, s').
Proof.
  intros Hs Hm Hp Hc Hi [Hlo%Z.ltb_lt Hhi%Z.leb_le] Hd Hw Hv.
  assert (Hb : binary_search_by_key who draw_participant (draws_of c s) = Found k)
    by (rewrite <- Hw; by apply search_key_found).
  eexists.
  unfold reveal_vote, transactional, mbind, st_bind, lift, get. cbn [ensure_signed].
  rewrite Hm, bool_decide_true by done. cbn [ensure].
  rewrite Hc. cbn [ok_or]. rewrite Hi, Hlo, Hhi. cbn [andb ensure].
  rewrite Hb, Hd. cbn [ok_or].
  unfold get_hashed_commitment, compare_commitment, mbind, result_bind. rewrite Hv.
  rewrite Z.eqb_refl. cbn. reflexivity.
Qed.

(** C16. Commit and reveal: a juror who voted with the hash of her name, a vote
    item and a salt can reveal exactly that vote in the aggregation period and
    nothing that hashes differently; the reveal turns her draw, and no other,
    from [Secret] to [Revealed], and once the aggregation period has begun no
    vote is accepted any more. *)
Theorem commit_reveal s who c item salt s1 b court :
  config_ok -> court_inv s -> vote (Signed who) c (hash_of who item salt) s = (Ok tt, s1) ->
  Courts s !! c = Some court -> check_vote_item court item = Ok tt ->
  check_market_outcome s c item = Ok tt -> is_Some (Participants s !! who) ->
  vote_end (round_ends court) < b <= aggregation (round_ends court) ->
  let s2 := set_block_number b s1 in
  (exists s3 k d, reveal_vote (Signed who) c item salt s2 = (Ok tt, s3) /\
     draws_of c s1 !! k = Some d /\ draw_participant d = who /\
     draws_of c s3 = <[k := set_draw_vote (Revealed (hash_of who item salt) item salt) d]> (draws_of c s1)) /\
  (forall item' salt' s3, reveal_vote (Signed who) c item' salt' s2 = (Ok tt, s3) ->
     hash_of who item' salt' = hash_of who item salt) /\
  (forall who' h s3, vote (Signed who') c h s2 <> (Ok tt, s3)).
Proof.
  intros Hcfg Hinv Hv Hc Hi Hm Hp Hb. cbv zeta.
  apply vote_ok in Hv as (court' & k & d & Hc' & _ & Hd & Hw & _ & Hs1).
  assert (court' = court) as -> by congruence.
  assert (Hdraws : draws_of c s1 =
    <[k := set_draw_vote (Secret (hash_of who item salt)) d]> (draws_of c s))
    by (rewrite Hs1; unfold draws_of; cbn; by rewrite lookup_insert_eq).
  assert (Hk : draws_of c s1 !! k = Some (set_draw_vote (Secret (hash_of who item salt)) d))
    by (rewrite Hdraws, list_lookup_insert_eq; [done|by eapply lookup_lt_Some]).
  assert (Hsorted : sorted_by draw_participant (draws_of c s1)).
  { rewrite Hdraws. apply revote_ok; [|done]. by apply draws_of_ok. }
  assert (Hc1 : Courts (set_block_number b s1) !! c = Some court) by (by rewrite Hs1).
  split_and!.
  - destruct (reveal_vote_run (set_block_number b s1) who c item salt court k
      (set_draw_vote (Secret (hash_of who item salt)) d)) as [s3 Hr]; try done.
    1, 2: by rewrite Hs1.
    pose proof Hr as (? & k' & d' & _ & _ & Hd' & Hw' & _ & Hs3)%reveal_vote_ok.
    exists s3, k', d'. split_and!; [done..|]. rewrite Hs3. unfold draws_of. cbn.
    by rewrite lookup_insert_eq.
  - intros item' salt' s3 (? & k' & d' & _ & _ & Hd' & Hw' & Hsec & _)%reveal_vote_ok.
    assert (k' = k) as ->.
    { eapply (sorted_by_inj draw_participant); [exact Hsorted|exact Hd'|exact Hk|]. cbn. congruence. }
    change (draws_of c (set_block_number b s1)) with (draws_of c s1) in Hd'.
    rewrite Hk in Hd'. injection Hd' as <-. cbn in Hsec. congruence.
  - intros who' h s3 (court' & _ & _ & Hc2 & Htime & _)%vote_ok.
    assert (court' = court) as -> by congruence. cbn in Htime. lia.
Qed.
End Votes.
