(* ===== verification/CourtStakes.v ===== *)
(** * The court pallet: the properties of stakes

    Reassigning the stakes of a closed court conserves funds; the locks a
    resolution and a reassignment release; the effect of an appeal. *)

From S2P Require Import Prelude Errors FixedMath Collections Interfaces Market CourtTypes.
From S2P Require Import CourtPool CourtSelection CourtVoting CourtInv.

(** ** Reassigning conserves funds *)

Section Conservation.
Context `{CourtConfig} {ok : Ledger -> Prop} `{!CurrencyLaws Ledger ok, !PerThingsLaws}.

(** The handler of slashed funds deposits what it is given (the treasury). *)
Definition handler_keeps_funds : Prop :=
  forall i l, ok l -> held l + peek i <= umax 128 ->
    ok (on_unbalanced i l) /\ held (on_unbalanced i l) = held l + peek i.

(** A ledger and an imbalance taken from it that make up [total] together. *)
Definition balanced (total : Z) (i : NegativeImbalance) (l : Ledger) : Prop :=
  ok l /\ held l + peek i = total /\ total <= umax 128.

Lemma balanced_start l : ok l -> balanced (held l) zero_imbalance l.
Proof.
  intros Hl. split; [done|]. rewrite peek_zero. split; [lia|].
  by destruct (held_range (L := Ledger) l Hl).
Qed.

Lemma balanced_bounds total i l : balanced total i l -> 0 <= held l /\ 0 <= peek i /\ held l <= total.
Proof.
  intros (Hl & Hsum & _). pose proof (held_range (L := Ledger) l Hl).
  pose proof (peek_nonneg (L := Ledger) i). lia.
Qed.

(** Taking more out of the ledger. *)
Lemma balanced_subsume total i j l l' :
  balanced total i l -> ok l' -> held l' + peek j = held l -> balanced total (subsume i j) l'.
Proof.
  intros Hb Hl' Hj. pose proof (balanced_bounds _ _ _ Hb) as (_ & Hi & _).
  destruct Hb as (Hl & Hsum & Hmax). split_and!; [done| |done].
  pose proof (held_range (L := Ledger) l' Hl').
  rewrite (peek_subsume (L := Ledger)) by lia. lia.
Qed.

Lemma slash_balanced total i who v l imb m l' :
  0 <= v -> balanced total i l -> slash who v l = ((imb, m), l') -> balanced total (subsume i imb) l'.
Proof.
  intros Hv Hb Hs. pose proof Hb as (Hl & _). destruct (slash_held (L := Ledger) l who v Hv Hl) as [Hl' Hh].
  rewrite Hs in Hl', Hh. cbn in Hl', Hh. by eapply balanced_subsume.
Qed.

Abbreviation amounts_ok := (Forall (fun p : AccountId * Z => 0 <= p.2)).

Lemma slash_all_balanced total i xs l i' l' :
  amounts_ok xs -> balanced total i l -> slash_all l i xs = (i', l') -> balanced total i' l'.
Proof.
  intros Hxs. revert i l. induction Hxs as [|[who v] xs Hv Hxs IH]; intros i l Hb; cbn [slash_all].
  { by intros [= <- <-]. }
  destruct (slash who v l) as [[imb m] l1] eqn:Hs. apply IH. by eapply slash_balanced.
Qed.

Lemma slash_all_subsume total i xs l i' l' :
  amounts_ok xs -> balanced total i l -> slash_all l zero_imbalance xs = (i', l') ->
  balanced total (subsume i i') l'.
Proof.
  intros Hxs Hb Hs. pose proof Hb as (Hl & _).
  apply (slash_all_balanced (held l)) in Hs as (Hl' & Hh & _); [|done|by apply balanced_start].
  by eapply balanced_subsume.
Qed.

Definition juror_ok (jv : JurorVoteWithStakes) : Prop :=
  amounts_ok (jv_delegations jv) /\ from_option (fun i => 0 <= si_slashable i) True (self_info jv).

Lemma split_winners_balanced total jts w l i stk winners i' stk' winners' l' :
  Forall (fun p => juror_ok p.2) jts -> balanced total i l -> amounts_ok winners -> 0 <= stk ->
  split_winners jts w l i stk winners = (i', stk', winners', l') ->
  balanced total i' l' /\ amounts_ok winners' /\ 0 <= stk'.
Proof.
  intros Hj. revert l i stk winners.
  induction Hj as [|[juror [si ds]] jts [Hds Hsi] Hj IH]; intros l i stk winners Hb Hw Hstk;
    cbn [split_winners].
  { by intros [= <- <- <- <-]. }
  cbn in Hds, Hsi. destruct si as [[slashable item]|]; cbn in Hsi.
  - case_decide.
    + apply IH; [done| |].
      * apply Forall_app. split; [done|]. by constructor.
      * assert (Hfold : forall acc, 0 <= acc -> 0 <= fold_left (fun acc '(_, st) =>
          saturating_add 128 acc st) ds acc).
        { clear -Hds. induction Hds as [|[a v] ds Hv _ IH]; intros acc Hacc; cbn [fold_left]; [done|].
          apply IH. unfold saturating_add. cbn in Hv. pose proof umax_128. lia. }
        specialize (Hfold 0 ltac:(lia)). unfold saturating_add at 1 2. pose proof umax_128. lia.
    + destruct (slash juror slashable l) as [[imb m] l1] eqn:Hs.
      destruct (slash_all l1 zero_imbalance ds) as [imb2 l2] eqn:Hs2.
      apply IH; [|done..]. eapply slash_all_subsume; [exact Hds| |exact Hs2].
      eapply slash_balanced; [exact Hsi|exact Hb|exact Hs].
  - destruct (slash_all l zero_imbalance ds) as [imb2 l2] eqn:Hs2.
    apply IH; [|done..]. eapply slash_all_subsume; [exact Hds|exact Hb|exact Hs2].
Qed.

Lemma pay_winners_balanced total winners stk reward l i i' l' :
  amounts_ok winners -> 0 <= stk -> 0 <= reward -> balanced total i l ->
  pay_winners winners stk reward l i = (i', l') -> balanced total i' l'.
Proof.
  intros Hw Hstk Hrew. revert l i. induction Hw as [|[who v] winners Hv Hw IH]; intros l i Hb;
    cbn [pay_winners]. { by intros [= <- <-]. }
  cbn in Hv. set (each := perquintill_mul _ reward).
  assert (Heach : 0 <= each).
  { apply perquintill_mul_nonneg; [|done]. rewrite perquintill_from_rational_spec by done.
    apply Z.div_pos; [|lia]. apply Z.mul_nonneg_nonneg; lia. }
  destruct (split_imbalance i each) as [a b] eqn:Hsp. apply IH.
  pose proof (split_sum (L := Ledger) i each Heach) as Hsum. rewrite Hsp in Hsum. cbn in Hsum.
  pose proof (balanced_bounds _ _ _ Hb) as (_ & _ & _). destruct Hb as (Hl & Hh & Hmax).
  pose proof (peek_nonneg (L := Ledger) b).
  destruct (resolve_creating_held (L := Ledger) l who a Hl) as [Hl' Hh']; [lia|].
  split_and!; [done|lia|done].
Qed.

Lemma slash_losers_conserves court_id jts w l :
  handler_keeps_funds -> Forall (fun p => juror_ok p.2) jts -> ok l ->
  ok (slash_losers_to_award_winners court_id jts w l) /\
  held (slash_losers_to_award_winners court_id jts w l) = held l.
Proof.
  intros Hh Hj Hl. unfold slash_losers_to_award_winners.
  destruct (split_winners jts w l zero_imbalance 0 []) as [[[i stk] winners] l1] eqn:H1.
  apply (split_winners_balanced (held l)) in H1 as (Hb & Hw & Hstk); [|done|by apply balanced_start|constructor|lia].
  pose proof Hb as (Hl1 & _). destruct (free_balance_held (L := Ledger) l1 (reward_pot court_id) Hl1) as [Hf _].
  destruct (slash (reward_pot court_id) _ l1) as [[imb m] l2] eqn:H2.
  apply (slash_balanced _ _ _ _ _ _ _ _ Hf Hb) in H2.
  destruct (pay_winners winners stk _ l2 _) as [rest l3] eqn:H3.
  eapply pay_winners_balanced in H3 as (Hl3 & Hh3 & Hmax); [|done|done|apply peek_nonneg|exact H2].
  destruct (Z.eqb_spec (peek rest) 0) as [E|_]; [split; [done|lia]|].
  destruct (Hh rest l3 Hl3) as [? ->]; [lia|]. split; [done|lia].
Qed.

(** The stakes of a draw are unsigned. *)
Definition draw_ok (d : Draw) : Prop :=
  0 <= draw_slashable d /\
  match draw_vote d with Delegated ds => amounts_ok ds | _ => True end.

Definition jts_ok (jts : BTreeMap AccountId JurorVoteWithStakes) : Prop :=
  bt_sorted jts /\ Forall (fun p => juror_ok p.2) jts.

Lemma jts_ok_insert jts who jv : jts_ok jts -> juror_ok jv -> jts_ok (bt_insert who jv jts).
Proof.
  intros [Hs Hf] Hjv. split; [by apply bt_insert_sorted|]. apply Forall_forall.
  intros x [->|Hx]%elem_of_bt_insert; [done|]. rewrite Forall_forall in Hf. by apply Hf.
Qed.

Lemma jts_ok_get jts who :
  jts_ok jts -> juror_ok (default JurorVoteWithStakes_default (bt_get who jts)).
Proof.
  intros [Hs Hf]. destruct (bt_get who jts) as [jv|] eqn:Hg; cbn.
  - apply bt_get_elem in Hg; [|done]. rewrite Forall_forall in Hf. by apply Hf in Hg.
  - by split; [constructor|].
Qed.

Lemma add_delegation_ok delegator jts j x jts' :
  jts_ok jts -> 0 <= x -> add_delegation delegator jts j x = Ok jts' -> jts_ok jts'.
Proof.
  intros Hj Hx Hr. unfold add_delegation in Hr. apply result_bind_ok in Hr as (ds & Hds & [= <-]).
  pose proof (jts_ok_get _ j Hj) as [Hd Hsi]. apply jts_ok_insert; [done|]. split; [|done]. cbn.
  destruct (binary_search_by_key _ _ _) as [k|k].
  - apply result_bind_ok in Hds as ([d st] & Hk%ok_or_ok & [= <-]).
    apply Forall_insert; [done|]. cbn. rewrite Forall_lookup in Hd. specialize (Hd _ _ Hk). cbn in Hd.
    unfold saturating_add. pose proof umax_128. lia.
  - injection Hds as <-. unfold vec_insert. apply Forall_app. split; [by apply Forall_take|].
    constructor; [done|by apply Forall_drop].
Qed.

Lemma add_delegations_ok delegator ds jts jts' :
  jts_ok jts -> amounts_ok ds -> add_delegations delegator jts ds = Ok jts' -> jts_ok jts'.
Proof.
  intros Hj Hds. revert jts Hj. induction Hds as [|[j x] ds Hx _ IH]; intros jts Hj; cbn [add_delegations].
  { by intros [= <-]. }
  intros (j1 & H1 & H2)%result_bind_ok. eapply IH; [|exact H2]. by eapply add_delegation_ok.
Qed.

Lemma slash_juror_conserves court_id who v s s' :
  0 <= v -> ok (ledger s) -> slash_juror court_id who v s = (Ok tt, s') ->
  ok (ledger s') /\ held (ledger s') = held (ledger s).
Proof.
  intros Hv Hl. unfold slash_juror, on_ledger.
  destruct (slash_held (L := Ledger) (ledger s) who v Hv Hl) as [Hl' Hh].
  destruct (slash who v (ledger s)) as [[imb m] l1]. cbn in Hl', Hh. intros [= <-]. cbn.
  pose proof (held_range (L := Ledger) (ledger s) Hl).
  destruct (resolve_creating_held (L := Ledger) l1 (reward_pot court_id) imb Hl') as [? ->]; [lia|].
  split; [done|lia].
Qed.

Lemma handle_vote_ok court_id jts d s jts' s' :
  jts_ok jts -> draw_ok d -> ok (ledger s) -> handle_vote court_id jts d s = (Ok jts', s') ->
  jts_ok jts' /\ ok (ledger s') /\ held (ledger s') = held (ledger s) /\
  Participants s' = Participants s.
Proof.
  intros Hj [Hsl Hdv] Hl Hr. unfold handle_vote in Hr.
  assert (Hslash : (slash_juror court_id (draw_participant d) (draw_slashable d) ;; mret jts) s =
      (Ok jts', s') -> jts_ok jts' /\ ok (ledger s') /\ held (ledger s') = held (ledger s) /\
      Participants s' = Participants s).
  { intros Hr'. apply bind_ok in Hr' as ([] & s1 & H1 & [-> ->]%mret_ok).
    pose proof (slash_juror_conserves _ _ _ _ _ Hsl Hl H1) as [? ?].
    split; [done|]. split_and!; [done|done|]. unfold slash_juror, on_ledger in H1.
    destruct (slash _ _ _) as [[??]?]. by injection H1 as <-. }
  destruct (draw_vote d); try by apply Hslash.
  - apply lift_ok in Hr as [Hr ->]. split; [exact (add_delegations_ok _ _ _ _ Hj Hdv Hr)|done].
  - apply mret_ok in Hr as [-> ->]. split; [|done]. apply jts_ok_insert; [done|].
    split; [|done]. apply (jts_ok_get _ (draw_participant d) Hj).
Qed.

Lemma handle_draws_ok court_id ds jts s jts' s' :
  jts_ok jts -> Forall draw_ok ds -> ok (ledger s) -> handle_draws court_id ds jts s = (Ok jts', s') ->
  jts_ok jts' /\ ok (ledger s') /\ held (ledger s') = held (ledger s).
Proof.
  intros Hj Hds. revert jts s Hj. induction Hds as [|d ds Hd _ IH]; intros jts s Hj Hl; cbn [handle_draws].
  { by intros [-> ->]%mret_ok. }
  intros Hr. apply bind_ok in Hr as (? & ? & [-> ->]%get_ok & Hr).
  apply bind_ok in Hr as (? & s1 & Hlock & Hr).
  assert (Hl1 : ledger s1 = ledger s).
  { destruct (Participants s !! _); [by apply modify_ok in Hlock as [_ ->]|by apply mret_ok in Hlock as [_ ->]]. }
  apply bind_ok in Hr as (j1 & s2 & Hv & Hr).
  apply handle_vote_ok in Hv as (Hj1 & Hok & Hh & _); [|done|done|by rewrite Hl1].
  apply IH in Hr as (? & ? & ?); [|done..]. split; [done|]. split; [done|congruence].
Qed.

(** C8. Reassigning stakes conserves funds: whatever the draws and their votes,
    what [reassign_court_stakes] slashes from losers, tardy, denounced and
    delegating participants and from the reward pot is paid out to the winners
    or handed to the slash handler, to the last unit; the court is then
    reassigned, its draws are gone, and a second reassignment fails. *)
Theorem reassign_conserves s who c s' :
  handler_keeps_funds -> ok (ledger s) -> Forall draw_ok (draws_of c s) ->
  reassign_court_stakes (Signed who) c s = (Ok tt, s') ->
  held (ledger s') = held (ledger s) /\
  draws_of c s' = [] /\
  (exists court, Courts s' !! c = Some court /\ court_status court = Reassigned) /\
  (forall o, reassign_court_stakes (Signed o) c s' = (Err (court_error CourtAlreadyReassigned), s')).
Proof.
  intros Hh Hl Hds Hr%transactional_ok.
  apply bind_ok in Hr as (? & ? & [_ ->]%lift_ok & Hr).
  apply bind_ok in Hr as (? & ? & [-> ->]%get_ok & Hr).
  apply bind_ok in Hr as (court & ? & [Hc%ok_or_ok ->]%lift_ok & Hr).
  apply bind_ok in Hr as (w & ? & [_ ->]%lift_ok & Hr).
  apply bind_ok in Hr as (jts & s1 & H1 & Hr).
  apply handle_draws_ok in H1 as ([_ Hj] & Hl1 & Hh1); [|by split; constructor|done..].
  apply bind_ok in Hr as (? & ? & [= <- <-] & Hr).
  apply bind_ok in Hr as (? & ? & [_ ->]%modify_ok & Hr).
  apply bind_ok in Hr as (? & ? & [_ ->]%modify_ok & [_ ->]%modify_ok).
  assert (Hst : Courts (set_Courts (<[c := set_court_status Reassigned court]> (Courts s1)) s1) !! c =
    Some (set_court_status Reassigned court)) by (cbn; by rewrite lookup_insert_eq).
  split_and!.
  - cbn. destruct (slash_losers_conserves c jts w (ledger s1) Hh Hj Hl1) as [_ ->]. done.
  - unfold draws_of. cbn. by rewrite lookup_delete_eq.
  - eexists. split; [exact Hst|done].
  - intros o. unfold reassign_court_stakes, transactional, mbind, st_bind, lift, get.
    cbn [ensure_signed]. cbn -[lookup]. cbn in Hst. rewrite Hst. done.
Qed.
End Conservation.

(** ** Releasing locks *)

Section Locks.
Context `{CourtConfig}.

Definition released (x : Z) (i : CourtParticipantInfo) : CourtParticipantInfo :=
  set_active_lock (saturating_sub (pi_active_lock i) x) i.

(** One iteration of the releasing loops. *)
Definition release (d : Draw) (ps : gmap AccountId CourtParticipantInfo) :
    gmap AccountId CourtParticipantInfo :=
  match ps !! draw_participant d with
  | Some i => <[draw_participant d := released (draw_slashable d) i]> ps
  | None => ps
  end.

Lemma release_other d ps who : draw_participant d <> who -> release d ps !! who = ps !! who.
Proof. intros Hne. unfold release. case_match; [by rewrite lookup_insert_ne|done]. Qed.
Lemma release_self d ps i :
  ps !! draw_participant d = Some i ->
  release d ps !! draw_participant d = Some (released (draw_slashable d) i).
Proof. intros Hi. unfold release. by rewrite Hi, lookup_insert_eq. Qed.

(** A drawn participant is released once per loop over sorted draws. *)
Lemma release_all ds d ps i :
  sorted_by draw_participant ds -> d ∈ ds -> ps !! draw_participant d = Some i ->
  foldl (fun ps d => release d ps) ps ds !! draw_participant d = Some (released (draw_slashable d) i).
Proof.
  intros Hs. revert ps. induction Hs as [|x ds Hs IH Hx]; intros ps Hin Hi; [by apply elem_of_nil in Hin|].
  rewrite Forall_forall in Hx. cbn [foldl]. apply elem_of_cons in Hin as [->|Hin].
  - assert (Hrest : forall l ps', (forall y, y ∈ l -> draw_participant y <> draw_participant x) ->
      foldl (fun ps d => release d ps) ps' l !! draw_participant x = ps' !! draw_participant x).
    { induction l as [|y l IHl]; intros ps' Hl; cbn [foldl]; [done|].
      rewrite IHl by (intros z Hz; apply Hl; by right). apply release_other, Hl. by left. }
    rewrite Hrest; [by apply release_self|]. intros y Hy Heq. apply Hx in Hy.
    by apply (cmp_lt_ne _ _ Hy).
  - apply IH; [done|]. rewrite release_other; [done|]. intros Heq. apply Hx in Hin.
    by apply (cmp_lt_ne _ _ Hin).
Qed.

Lemma unlock_participants ds s s' :
  unlock_participants_from_last_draw ds s = (Ok tt, s') ->
  s' = set_Participants (foldl (fun ps d => release d ps) (Participants s) ds) s.
Proof.
  unfold unlock_participants_from_last_draw. revert s. induction ds as [|d ds IH]; intros s; cbn [for_each].
  { intros [_ ->]%mret_ok. by destruct s. }
  intros ([] & s1 & H1 & H2)%bind_ok. apply IH in H2 as ->.
  apply bind_ok in H1 as (? & ? & [-> ->]%get_ok & H1).
  assert (s1 = set_Participants (release d (Participants s)) s) as ->; [|done].
  unfold release. destruct (Participants s !! draw_participant d).
  - by apply modify_ok in H1 as [_ ->].
  - apply mret_ok in H1 as [_ ->]. by destruct s.
Qed.

Lemma handle_draws_participants c ds jts s jts' s' :
  handle_draws c ds jts s = (Ok jts', s') ->
  Participants s' = foldl (fun ps d => release d ps) (Participants s) ds.
Proof.
  revert jts s. induction ds as [|d ds IH]; intros jts s; cbn [handle_draws]; [by intros [_ ->]%mret_ok|].
  intros Hr. apply bind_ok in Hr as (? & ? & [-> ->]%get_ok & Hr).
  apply bind_ok in Hr as (? & s1 & Hl & Hr). apply bind_ok in Hr as (j1 & s2 & Hv & Hr).
  apply IH in Hr as ->. cbn [foldl]. f_equal.
  assert (Hp1 : Participants s1 = release d (Participants s)).
  { unfold release. destruct (Participants s !! draw_participant d);
      [by apply modify_ok in Hl as [_ ->]|by apply mret_ok in Hl as [_ ->]]. }
  rewrite <- Hp1. unfold handle_vote, slash_juror in Hv.
  destruct (draw_vote d); try (by apply lift_ok in Hv as [_ ->]); try (by apply mret_ok in Hv as [_ ->]);
    apply bind_ok in Hv as (? & ? & Hs & [_ ->]%mret_ok); unfold on_ledger in Hs;
    destruct (slash _ _ _) as [[??]?]; by injection Hs as _ <-.
Qed.

(** Locks are released twice: resolving a market releases the slashable
    amount of every draw of its court from the participant's active lock, and
    reassigning the stakes of the court releases the same amount again, so a
    participant drawn in two courts loses the lock of the one that is still
    open. *)
Theorem resolution_releases_twice s mid m o s1 c who s2 d i :
  config_ok -> court_inv s -> MarketIdToCourtId s !! mid = Some c ->
  on_resolution mid m s = (Ok o, s1) ->
  reassign_court_stakes (Signed who) c s1 = (Ok tt, s2) ->
  d ∈ draws_of c s -> Participants s !! draw_participant d = Some i ->
  Participants s2 !! draw_participant d =
    Some (released (draw_slashable d) (released (draw_slashable d) i)).
Proof.
  intros Hcfg Hinv Hmid Hres Hre Hd Hi. destruct (draws_of_ok s c Hcfg Hinv) as [Hs _].
  unfold on_resolution in Hres.
  apply bind_ok in Hres as (? & ? & [_ ->]%lift_ok & Hr).
  apply bind_ok in Hr as (? & ? & [-> ->]%get_ok & Hr).
  apply bind_ok in Hr as (c' & ? & [Hc'%ok_or_ok ->]%lift_ok & Hr).
  assert (c' = c) as -> by congruence.
  apply bind_ok in Hr as (court & ? & [Hc%ok_or_ok ->]%lift_ok & Hr).
  apply bind_ok in Hr as (w & ? & [_ ->]%lift_ok & Hr).
  apply bind_ok in Hr as ([] & ? & ->%unlock_participants & Hr).
  apply bind_ok in Hr as (? & ? & [_ ->]%modify_ok & Hr).
  apply bind_ok in Hr as (? & ? & [_ ->]%lift_ok & [_ ->]%mret_ok).
  apply transactional_ok in Hre.
  apply bind_ok in Hre as (? & ? & [_ ->]%lift_ok & Hr).
  apply bind_ok in Hr as (? & ? & [-> ->]%get_ok & Hr).
  apply bind_ok in Hr as (court' & ? & [_ ->]%lift_ok & Hr).
  apply bind_ok in Hr as (w' & ? & [_ ->]%lift_ok & Hr).
  apply bind_ok in Hr as (jts & s3 & H1 & Hr). apply handle_draws_participants in H1.
  apply bind_ok in Hr as (? & ? & [= <- <-] & Hr).
  apply bind_ok in Hr as (? & ? & [_ ->]%modify_ok & Hr).
  apply bind_ok in Hr as (? & ? & [_ ->]%modify_ok & [_ ->]%modify_ok).
  cbn. rewrite H1. cbn. apply release_all; [done..|]. by apply release_all.
Qed.

(** ** Appeals *)

Lemma select_participants_frame n s ds s' :
  court_inv s -> select_participants n s = (Ok ds, s') ->
  exists pool, frame s' = set_CourtPool pool (frame s).
Proof.
  intros Hinv Hr. apply bind_ok in Hr as (? & ? & Hc & [_ ->]%mret_ok).
  apply choose_multiple_weighted_ok in Hc as (_ & _ & q & Hf & _); [eauto|done].
Qed.

(** What starting a new round leaves behind. *)
Lemma new_round_spec n c old_draws court mo s court' ends s' :
  court_inv s ->
  (new_draws ← select_participants n;
   request_block ← gets RequestBlock;
   let court := update_round (round_timing request_block) court in
   let new_resolve_at := appeal_end (round_ends court) in
   match mo with
   | Some market_id => queue_add market_id new_resolve_at ;; mret tt
   | None => mret tt
   end ;;
   insert_draws c new_draws ;;
   unlock_participants_from_last_draw old_draws ;;
   mret (court, Some (round_ends court))) s = (Ok (court', ends), s') ->
  court' = update_round (round_timing (RequestBlock s)) court /\ ledger s' = ledger s /\
  forall m, mo = Some m ->
    exists k, add_auto_resolve m (appeal_end (round_ends court')) (queue s) = (Ok k, queue s').
Proof.
  intros Hinv Hr. apply bind_ok in Hr as (ds & s1 & Hsel & Hr).
  apply select_participants_frame in Hsel as [pool Hf]; [|done].
  pose proof (f_equal ledger Hf) as El. pose proof (f_equal queue Hf) as Eq.
  pose proof (f_equal RequestBlock Hf) as Er. cbn in El, Eq, Er.
  apply bind_ok in Hr as (? & ? & [-> ->]%gets_ok & Hr). cbv zeta in Hr.
  apply bind_ok in Hr as (? & s2 & Hq & Hr).
  apply bind_ok in Hr as (? & ? & [_ ->]%modify_ok & Hr).
  apply bind_ok in Hr as ([] & ? & ->%unlock_participants & [[= -> ->] ->]%mret_ok).
  rewrite Er in *. split; [done|]. cbn [ledger queue set_Participants set_SelectedDraws].
  destruct mo as [m|].
  - apply bind_ok in Hq as (k & ? & Hq & [_ ->]%mret_ok). unfold queue_add in Hq.
    destruct (add_auto_resolve _ _ _) as [r q] eqn:Ha. injection Hq as -> <-. cbn.
    split; [done|]. intros ? [= <-]. exists k. by rewrite <- Eq.
  - apply mret_ok in Hq as [_ ->]. split; [done|]. discriminate.
Qed.

(** Appeals: a successful appeal is the [n]-th of at most [MaxAppeals], is
    made between the end of the aggregation and the end of the appeal period,
    reserves the [n]-th bond, and appends exactly one entry, for the item the
    court would have resolved to. Before the last appeal a new round starts at
    the request block and the market is queued for resolution at its end; the
    last appeal starts no round. *)
Theorem appeal_correct `{!DisputeResolutionLaws ResolveQueue} s who c court s' :
  court_inv s -> MaxAppeals <= umax 32 -> Courts s !! c = Some court ->
  appeal (Signed who) c s = (Ok tt, s') ->
  let n := Z.of_nat (length (appeals court)) + 1 in
  n <= MaxAppeals /\
  aggregation (round_ends court) < block_number s < appeal_end (round_ends court) /\
  reserve_named reserve_id who (get_appeal_bond n) (ledger s) = Ok (ledger s') /\
  exists court' item,
    get_latest_winner_vote_item s c (draws_of c s) = Ok item /\
    Courts s' !! c = Some court' /\
    appeals court' = appeals court ++ [mkAppeal who (get_appeal_bond n) item] /\
    (n < MaxAppeals ->
       round_ends court' = round_ends (update_round (round_timing (RequestBlock s)) court) /\
       (forall m, CourtIdToMarketId s !! c = Some m ->
          appeal_end (round_ends court') <> appeal_end (round_ends court) ->
          auto_resolve_exists m (appeal_end (round_ends court')) (queue s') = true)) /\
    (n = MaxAppeals -> round_ends court' = round_ends court /\ draws_of c s' = draws_of c s).
Proof.
  intros Hinv Hmax Hc Hr%transactional_ok. cbv zeta.
  apply bind_ok in Hr as (? & ? & [[= <-] ->]%lift_ok & Hr).
  apply bind_ok in Hr as (? & ? & [-> ->]%get_ok & Hr).
  apply bind_ok in Hr as (court0 & ? & [Hc0%ok_or_ok ->]%lift_ok & Hr).
  assert (court0 = court) as -> by congruence. cbv zeta in Hr.
  apply bind_ok in Hr as (? & ? & [Hn%ensure_ok%Z.leb_le ->]%lift_ok & Hr).
  apply bind_ok in Hr as (? & ? & [_ ->]%lift_ok & Hr).
  apply bind_ok in Hr as (? & ? & [Happ ->]%lift_ok & Hr).
  apply bind_ok in Hr as (item & ? & [Hitem ->]%lift_ok & Hr).
  apply bind_ok in Hr as (pushed & ? & [Hp%ok_or_ok ->]%lift_ok & Hr).
  unfold try_push in Hp. destruct (Z.ltb_spec (Z.of_nat (length (appeals court))) MaxAppeals); [|done].
  injection Hp as <-.
  assert (Hsat : saturating_add 32 (Z.of_nat (length (appeals court))) 1 =
    Z.of_nat (length (appeals court)) + 1) by (unfold saturating_add; lia).
  rewrite Hsat in *. clear Hsat.
  apply result_bind_ok in Happ as (? & _ & [Hlo%Z.ltb_lt Hhi%Z.ltb_lt]%ensure_ok%andb_prop).
  apply bind_ok in Hr as ([court' ends] & s1 & Hround & Hr).
  apply bind_ok in Hr as (? & s2 & Hq & Hr).
  apply bind_ok in Hr as (? & ? & [-> ->]%gets_ok & Hr).
  apply bind_ok in Hr as (l & ? & [Hres ->]%lift_ok & Hr).
  apply bind_ok in Hr as (? & ? & [_ ->]%modify_ok & Hr).
  apply bind_ok in Hr as (? & ? & [_ ->]%modify_ok & [_ ->]%modify_ok).
  assert (Hq2 : ledger s2 = ledger s1 /\ SelectedDraws s2 = SelectedDraws s1 /\
    forall m, CourtIdToMarketId s !! c = Some m -> exists k,
      remove_auto_resolve m (appeal_end (round_ends court)) (queue s1) = (k, queue s2)).
  { destruct (CourtIdToMarketId s !! c) as [m|].
    - apply bind_ok in Hq as (k & ? & Hq & [_ ->]%mret_ok). unfold queue_remove in Hq.
      destruct (remove_auto_resolve _ _ _) as [k' q] eqn:Hrem. injection Hq as -> <-.
      split_and!; [done..|]. intros ? [= <-]. exists k. exact Hrem.
    - apply mret_ok in Hq as [_ ->]. done. }
  destruct Hq2 as (El2 & Ed2 & Hrem). cbn [ledger set_events set_Courts set_ledger queue Courts].
  split_and!; [done|done|done| |]; destruct (Z.ltb_spec (Z.of_nat (length (appeals court)) + 1) MaxAppeals) as [Hlt|Hge].
  - apply new_round_spec in Hround as (_ & El & _); [|done]. congruence.
  - apply mret_ok in Hround as [_ ->]. congruence.
  - apply new_round_spec in Hround as (-> & _ & Hadd); [|done].
    eexists _, item. split_and!; [done|by rewrite lookup_insert_eq|done| |lia].
    intros _. split; [done|]. intros m Hm Hne. destruct (Hadd m Hm) as (k & Hk), (Hrem m Hm) as (k' & Hk').
    rewrite (remove_other _ _ _ _ _ _ _ Hk') by congruence. by eapply add_exists.
  - apply mret_ok in Hround as [[= -> ->] ->].
    eexists _, item. split_and!; [done|by rewrite lookup_insert_eq|done|lia|].
    intros _. split; [done|]. unfold draws_of. cbn. by rewrite Ed2.
Qed.
End Locks.
