(* ===== verification/CourtDemo.v ===== *)
(** * The court pallet: runs with the constants of the runtime

    The configuration of [runtime/src/lib.rs] over the reference services, a
    dispute on it from the first juror to the reassignment of stakes, and
    concrete instances of the court theorems along it. *)

From S2P Require Import Prelude Errors FixedMath Collections Interfaces ReferenceEnv DisputeQueue.
From S2P Require Import Market CourtTypes CourtPool CourtSelection CourtVoting CourtInv.
From S2P Require Import CourtSpec CourtDraw CourtRuling CourtStakes.

Definition BLOCKS_PER_DAY : Z := 14400.

(** [parameter_types!] and [impl pallet_pm_court::Config for Runtime]; the hash
    and the derived accounts are numbers. *)
#[global] Instance runtime_court : CourtConfig := {|
  AppealBond := 2000 * BASE;
  BlocksPerYear := BLOCKS_PER_DAY * 36525 / 100;
  VotePeriod := 3 * BLOCKS_PER_DAY;
  AggregationPeriod := 3 * BLOCKS_PER_DAY;
  AppealPeriod := BLOCKS_PER_DAY;
  LockId := 1;
  InflationPeriod := 30 * BLOCKS_PER_DAY;
  MaxAppeals := 4;
  MaxSelectedDraws := 510;
  MaxDelegations := 5;
  MaxCourtParticipants := 1000;
  MaxYearlyInflation := 10 ^ 8;
  MinJurorStake := 500 * BASE;
  RequestInterval := 7 * BLOCKS_PER_DAY;
  Ledger := RefLedger;
  court_currency := ref_currency;
  ResolveQueue := MarketIdsPerDisputeBlock;
  court_resolution := pm_dispute_resolution;
  court_random := ref_random;
  court_per_things := ref_per_things;
  hash_of who item salt :=
    Z.of_N who * 1000 + salt * 10 + match item with Outcome (Categorical i) => i | _ => 0 end;
  lookup_account z := Ok (Z.to_N z);
  MonetaryGovernanceOrigin o := match o with Root => true | _ => false end;
  on_unbalanced i l := resolve_creating (2%N : AccountId) i l;
  reserve_id := 7;
  reward_pot c := Z.to_N (1000 + c);
  treasury_account_id := 2%N |}.

(** A reported and disputed market with the court as its mechanism. *)
Definition disputed_market : Market :=
  mkMarket 0 Tru 1%N Permissionless 0 2%N [] (CategoricalType 3) (BlockPeriod 1 10)
    (mkDeadlines 1 2 3) AmmCdaHybrid Disputed (Some (mkReport 5 2%N (Categorical 0))) None
    (Some Court) MarketBonds_default None.

Definition demo_genesis : CourtState :=
  court_genesis
    (mkLedger (list_to_map [(10%N, 10 ^ 6 * BASE); (11%N, 10 ^ 6 * BASE); (12%N, 10 ^ 6 * BASE)])
       ∅ ∅ (3 * 10 ^ 6 * BASE))
    (mkCommons {[ 0 := disputed_market ]} (Some 1) ∅) ∅.

Definition at_block (b : Z) (s : CourtState) : CourtState := set_block_number b s.

Lemma at_block_step b s : court_step s (at_block b s).
Proof.
  destruct s as [pool ps n ds cs nc mc cm rb yi bn l ms q ev].
  apply (step_outside (mkState pool ps n ds cs nc mc cm rb yi bn l ms q ev) b l ms q).
Qed.

Lemma at_block_inv b s : court_inv s -> court_inv (at_block b s).
Proof. done. Qed.

(** Two jurors join, a block begins, the market is disputed. *)
Definition s_joined1 := exec (join_court (Signed 10%N) (20000 * BASE)) demo_genesis.
Definition s_joined := exec (join_court (Signed 11%N) (30000 * BASE)) s_joined1.
Definition s_block := exec (on_initialize 1) s_joined.
Definition s_court := exec (on_dispute 0 disputed_market) s_block.
(** Both vote for outcome 1. *)
Definition vote_start := RequestBlock s_court + 1.
Definition h10 := hash_of 10%N (Outcome (Categorical 1)) 3.
Definition h11 := hash_of 11%N (Outcome (Categorical 1)) 4.
Definition s_voted1 := exec (vote (Signed 10%N) 0 h10) (at_block vote_start s_court).
Definition s_voted := exec (vote (Signed 11%N) 0 h11) s_voted1.
(** One reveals, the other does not. *)
Definition reveal_start := vote_start + 3 * BLOCKS_PER_DAY.
Definition s_revealed :=
  exec (reveal_vote (Signed 10%N) 0 (Outcome (Categorical 1)) 3) (at_block reveal_start s_voted).
Definition appeal_start := reveal_start + 3 * BLOCKS_PER_DAY.
Definition s_counted := at_block appeal_start (exec (on_initialize appeal_start) s_revealed).
Definition s_appealed := exec (appeal (Signed 12%N) 0) s_counted.
Definition s_resolved := exec (on_resolution 0 disputed_market) s_revealed.
Definition s_reassigned := exec (reassign_court_stakes (Signed 12%N) 0) s_resolved.

Lemma runtime_config_ok : config_ok.
Proof. vm_compute. split_and!; congruence. Qed.

(** A run that evaluates to a success is a step. *)
Ltac demo_run :=
  match goal with |- _ = (_, ?s) => unfold s end; apply exec_ok; vm_compute; reflexivity.

Lemma court_invariant_witness :
  court_reachable s_voted /\ sorted_by pool_key (CourtPool s_voted).
Proof.
  assert (Hr : court_reachable s_voted).
  { apply (reachable_step s_voted1); [|apply (step_vote _ (Signed 11%N) 0 h11); demo_run].
    apply (reachable_step (at_block vote_start s_court)); [|apply (step_vote _ (Signed 10%N) 0 h10); demo_run].
    apply (reachable_step s_court).
    2:{ apply at_block_step. }
    apply (reachable_step s_block); [|apply (step_on_dispute _ 0 disputed_market); demo_run].
    apply (reachable_step s_joined); [|apply (step_on_initialize _ 1); demo_run].
    apply (reachable_step s_joined1); [|apply (step_join _ (Signed 11%N) (30000 * BASE)); demo_run].
    apply (reachable_step demo_genesis); [apply reachable_genesis|].
    apply (step_join _ (Signed 10%N) (20000 * BASE)). demo_run. }
  split; [exact Hr|]. apply (court_invariant s_voted runtime_config_ok Hr).
Defined.

Lemma demo_genesis_inv : court_inv demo_genesis.
Proof. apply court_genesis_inv, runtime_config_ok. Qed.
Lemma s_joined1_inv : court_inv s_joined1.
Proof.
  apply (join_court_inv (Signed 10%N) (20000 * BASE) demo_genesis tt); [apply demo_genesis_inv|demo_run].
Qed.
Lemma s_joined_inv : court_inv s_joined.
Proof.
  apply (join_court_inv (Signed 11%N) (30000 * BASE) s_joined1 tt); [apply s_joined1_inv|demo_run].
Qed.
Lemma s_block_inv : court_inv s_block.
Proof. apply (on_initialize_inv 1 s_joined tt); [apply s_joined_inv|demo_run]. Qed.
Lemma s_court_inv : court_inv s_court.
Proof.
  apply (on_dispute_inv 0 disputed_market runtime_config_ok s_block tt); [apply s_block_inv|demo_run].
Qed.
Lemma s_voted_inv : court_inv s_voted.
Proof.
  apply (vote_inv (Signed 11%N) 0 h11 runtime_config_ok s_voted1 tt); [|demo_run].
  apply (vote_inv (Signed 10%N) 0 h10 runtime_config_ok (at_block vote_start s_court) tt);
    [apply at_block_inv, s_court_inv|demo_run].
Qed.
Lemma s_revealed_inv : court_inv s_revealed.
Proof.
  apply (reveal_vote_inv (Signed 10%N) 0 (Outcome (Categorical 1)) 3 runtime_config_ok
    (at_block reveal_start s_voted) tt); [apply at_block_inv, s_voted_inv|demo_run].
Qed.
Lemma s_counted_inv : court_inv s_counted.
Proof.
  apply at_block_inv, (on_initialize_inv appeal_start s_revealed tt); [apply s_revealed_inv|].
  apply exec_ok; vm_compute; reflexivity.
Qed.

Lemma join_court_correct_witness :
  Participants s_joined !! 11%N = Some (mkInfo (30000 * BASE) 0 None None).
Proof.
  destruct (join_court_correct s_joined1 11%N (30000 * BASE) s_joined s_joined1_inv)
    as (_ & _ & Hp & _); [demo_run|]. rewrite Hp. reflexivity.
Defined.

Lemma join_court_errors_witness :
  exists e, join_court (Signed 12%N) 5 s_joined = (Err e, s_joined) /\
    e = court_error BelowMinJurorStake.
Proof.
  assert (Hr : join_court (Signed 12%N) 5 s_joined = (Err (court_error BelowMinJurorStake), s_joined))
    by reflexivity.
  exists (court_error BelowMinJurorStake). split; [exact Hr|].
  destruct (join_court_errors s_joined 12%N 5 _ s_joined s_joined_inv ltac:(by vm_compute) Hr)
    as [_ [E|_]]; [exact E|reflexivity].
Defined.

Lemma random_section_ends_witness :
  exists ends, fst (get_n_random_section_ends 3 (10 * 500 * BASE) s_block) = Ok ends /\
    Z.of_nat (length (bt_keys ends)) = 3.
Proof.
  destruct (random_section_ends 3 (10 * 500 * BASE) s_block) as (ends & Hr & Hl & _);
    [by vm_compute|by vm_compute|by vm_compute|]. 
  exists ends. split; [exact (f_equal fst Hr)|exact Hl].
Defined.

Lemma draw_weights_witness :
  exists ds s', choose_multiple_weighted 31 s_block = (Ok ds, s') /\ Z.of_nat (length ds) <= 62.
Proof.
  assert (H1 : 0 < MinJurorStake) by (by vm_compute).
  assert (H2 : 0 <= 31 < umax 32) by (by vm_compute).
  assert (H3 : 31 * MinJurorStake <= umax 128) by (by vm_compute).
  assert (H4 : zsum unconsumed (CourtPool s_block) <= umax 128) by (by vm_compute).
  destruct (choose_multiple_weighted 31 s_block) as [[ds|e] s'] eqn:Hr.
  2:{ assert (Hok : is_ok (choose_multiple_weighted 31 s_block).1 = true) by (by vm_compute).
      rewrite Hr in Hok. discriminate Hok. }
  exists ds, s'. split; [reflexivity|].
  destruct (draw_weights 31 s_block ds s' s_block_inv H1 H2 H3 H4 Hr) as (_ & Hl & _). exact Hl.
Defined.

Lemma necessary_draws_weight_witness : necessary_draws_weight 3 = 255.
Proof. rewrite (necessary_draws_weight_eq 3); [reflexivity|lia]. Defined.

(** Outcome 1 gets weight 14, outcome 0 weight 9, one juror does not reveal. *)
Definition demo_draws : list Draw :=
  [mkDraw 10%N 14 (Revealed 5 (Outcome (Categorical 1)) 1) 0;
   mkDraw 11%N 9 (Revealed 6 (Outcome (Categorical 0)) 1) 0;
   mkDraw 12%N 8 (Secret 7) 0].

Lemma get_winner_spec_witness :
  plurality demo_draws (Outcome (Categorical 1)) /\
  get_winner demo_draws None = Some (Outcome (Categorical 1)).
Proof.
  assert (Hp : plurality demo_draws (Outcome (Categorical 1))).
  { split; [eexists; split; [left|reflexivity]|].
    intros v' (d & Hd & Hv) Hne. unfold demo_draws in Hd. rewrite !elem_of_cons in Hd.
    destruct Hd as [->|[->|[->|Hd%elem_of_nil]]]; [|vm_compute; injection Hv as <-; reflexivity|done|done].
    injection Hv as <-. done. }
  split; [exact Hp|]. apply (get_winner_spec demo_draws None); [|by vm_compute|exact Hp].
  repeat constructor; cbn; lia.
Defined.

Lemma s_court_0 : exists court, Courts (at_block vote_start s_court) !! 0 = Some court /\
  court = CourtInfo_new (round_timing (RequestBlock s_court)) OutcomeVotes.
Proof. eexists. split; [vm_compute; reflexivity|]. vm_compute. reflexivity. Qed.

Lemma commit_reveal_witness :
  exists s3, reveal_vote (Signed 10%N) 0 (Outcome (Categorical 1)) 3
    (at_block reveal_start s_voted1) = (Ok tt, s3).
Proof.
  destruct s_court_0 as (court & Hc & Hcourt).
  assert (Hi : check_vote_item court (Outcome (Categorical 1)) = Ok tt)
    by (rewrite Hcourt; reflexivity).
  assert (Hm : check_market_outcome (at_block vote_start s_court) 0 (Outcome (Categorical 1)) = Ok tt)
    by (vm_compute; reflexivity).
  assert (Hp : is_Some (Participants (at_block vote_start s_court) !! 10%N))
    by (apply is_Some_alt; vm_compute; exact I).
  assert (Hb : vote_end (round_ends court) < reveal_start <= aggregation (round_ends court))
    by (rewrite Hcourt; split; vm_compute; congruence).
  destruct (commit_reveal (at_block vote_start s_court) 10%N 0 (Outcome (Categorical 1)) 3
    s_voted1 reveal_start court runtime_config_ok (at_block_inv _ _ s_court_inv)
    ltac:(demo_run) Hc Hi Hm Hp Hb) as [(s3 & k & d & Hr & _) _].
  exists s3. exact Hr.
Defined.

Lemma s_resolved_run : on_resolution 0 disputed_market s_revealed = (Ok (Some (Categorical 1)), s_resolved).
Proof. unfold s_resolved. apply exec_result. vm_compute. reflexivity. Qed.
Lemma s_reassigned_run : reassign_court_stakes (Signed 12%N) 0 s_resolved = (Ok tt, s_reassigned).
Proof. demo_run. Qed.

Lemma reassign_conserves_witness : held (ledger s_reassigned) = held (ledger s_resolved).
Proof.
  assert (Hh : handler_keeps_funds (ok := rl_ok)).
  { intros i l Hl Hle. apply (resolve_creating_held (L := RefLedger)); done. }
  assert (Hok : rl_ok (ledger s_resolved)).
  { split_and!; [apply map_Forall_to_list..|]; vm_compute; repeat constructor; discriminate. }
  assert (Hd : Forall draw_ok (draws_of 0 s_resolved)).
  { vm_compute. repeat constructor; discriminate. }
  apply (reassign_conserves s_resolved 12%N 0 s_reassigned Hh Hok Hd s_reassigned_run).
Defined.

Lemma resolution_releases_twice_witness :
  pi_active_lock <$> Participants s_revealed !! 10%N = Some (7000 * BASE) /\
  pi_active_lock <$> Participants s_reassigned !! 10%N = Some 0.
Proof.
  split; [vm_compute; reflexivity|].
  destruct (draws_of 0 s_revealed) as [|d ds] eqn:Hds; [vm_compute in Hds; discriminate Hds|].
  assert (Hw : draw_participant d = 10%N /\ draw_slashable d = 7000 * BASE)
    by (vm_compute in Hds; injection Hds as <- _; split; reflexivity).
  destruct Hw as [Hw Hsl].
  destruct (Participants s_revealed !! 10%N) as [i|] eqn:Hi; [|vm_compute in Hi; discriminate Hi].
  assert (Hl : pi_active_lock i = 7000 * BASE)
    by (vm_compute in Hi; injection Hi as <-; reflexivity).
  rewrite <- Hw in Hi |- *.
  rewrite (resolution_releases_twice s_revealed 0 disputed_market (Some (Categorical 1)) s_resolved 0
    12%N s_reassigned d i runtime_config_ok s_revealed_inv ltac:(vm_compute; reflexivity)
    s_resolved_run s_reassigned_run ltac:(rewrite Hds; left) Hi).
  cbn. rewrite Hl, Hsl. reflexivity.
Defined.

Lemma appeal_correct_witness :
  exists court', Courts s_appealed !! 0 = Some court' /\ length (appeals court') = 1%nat.
Proof.
  destruct (Courts s_counted !! 0) as [court|] eqn:Hc; [|vm_compute in Hc; discriminate Hc].
  assert (Ha : appeals court = []) by (vm_compute in Hc; injection Hc as <-; reflexivity).
  destruct (appeal_correct s_counted 12%N 0 court s_appealed s_counted_inv ltac:(by vm_compute) Hc
    ltac:(demo_run)) as (_ & _ & _ & court' & item & _ & Hc' & Happ & _).
  exists court'. split; [exact Hc'|]. rewrite Happ, Ha. reflexivity.
Defined.

(** ** A dispute that panics *)

(** A juror joins, a delegator backs her, and the juror leaves the pool. *)
Definition s_backed := exec (delegate (Signed 11%N) (20000 * BASE) [10%N]) s_joined1.
Definition s_orphaned := exec (on_initialize 1) (exec (prepare_exit_court (Signed 10%N)) s_backed).

(** A dispute can panic: with the runtime's constants, when the only juror
    of a delegator has left the pool and the delegator's stake alone covers the
    draw, every section hits the delegator and [on_dispute] panics removing her
    from the pool a second time; the market cannot be disputed. *)
Example dispute_panics :
  is_ok (delegate (Signed 11%N) (20000 * BASE) [10%N] s_joined1).1 = true /\
  is_ok (prepare_exit_court (Signed 10%N) s_backed).1 = true /\
  (on_dispute 0 disputed_market s_orphaned).1 = Err Panicked.
Proof. vm_compute. split_and!; reflexivity. Qed.
