(* ===== verification/Disputes.v ===== *)
(** * The dispute mechanisms together

    Prediction-markets behind its interface to authorized, court and
    global-disputes, with the three pallets themselves in place of the
    interface, over one ledger and one queue: which outcome a disputed market
    resolves to, and what becomes of a market that is handed from court to a
    global dispute. *)

From S2P Require Import CourtTypes CourtPool CourtSelection CourtVoting CourtInv CourtSpec Authorized GlobalDisputes.
From S2P Require Import Prelude Errors FixedMath Collections Interfaces Balances DisputeQueue Market MultiCurrency CompleteSets.
From S2P Require Import PredictionMarkets PmCalls.

(** ** The pallets over one ledger *)

(** The constants of the pallets, with the currency they share; their own
    ledgers and queues are not used. *)
Class DisputePallets (L : Type) := {
  dp_currency :: Currency L;
  dp_balances :: Balances L;
  dp_court : CourtConfig;
  dp_global_disputes : GdConfig;
  dp_authorized : AuthorizedConfig;
  (** [Slash::on_unbalanced] and [repatriate_reserved_named] into free balance *)
  dp_unbalanced : NegativeImbalance -> L -> L;
  dp_repatriate : Z -> AccountId -> AccountId -> Z -> L -> Res Z * L }.

#[export] Instance joint_court {L} `{DisputePallets L} : CourtConfig := {|
  AppealBond := @AppealBond dp_court;
  BlocksPerYear := @BlocksPerYear dp_court;
  VotePeriod := @VotePeriod dp_court;
  AggregationPeriod := @AggregationPeriod dp_court;
  AppealPeriod := @AppealPeriod dp_court;
  LockId := @LockId dp_court;
  InflationPeriod := @InflationPeriod dp_court;
  MaxAppeals := @MaxAppeals dp_court;
  MaxSelectedDraws := @MaxSelectedDraws dp_court;
  MaxDelegations := @MaxDelegations dp_court;
  MaxCourtParticipants := @MaxCourtParticipants dp_court;
  MaxYearlyInflation := @MaxYearlyInflation dp_court;
  MinJurorStake := @MinJurorStake dp_court;
  RequestInterval := @RequestInterval dp_court;
  Ledger := L;
  court_currency := dp_currency;
  ResolveQueue := MarketIdsPerDisputeBlock;
  court_resolution := pm_dispute_resolution;
  court_random := @court_random dp_court;
  court_per_things := @court_per_things dp_court;
  hash_of := @hash_of dp_court;
  lookup_account := @lookup_account dp_court;
  MonetaryGovernanceOrigin := @MonetaryGovernanceOrigin dp_court;
  on_unbalanced := dp_unbalanced;
  reserve_id := @reserve_id dp_court;
  reward_pot := @reward_pot dp_court;
  treasury_account_id := @treasury_account_id dp_court |}.

#[export] Instance joint_global_disputes {L} `{DisputePallets L} : GdConfig := {|
  GdLedger := L;
  gd_balances := dp_balances;
  GdQueue := MarketIdsPerDisputeBlock;
  gd_dispute_resolution := pm_dispute_resolution;
  AddOutcomePeriod := @AddOutcomePeriod dp_global_disputes;
  GdVotingPeriod := @GdVotingPeriod dp_global_disputes;
  GlobalDisputeLockId := @GlobalDisputeLockId dp_global_disputes;
  MaxGlobalDisputeVotes := @MaxGlobalDisputeVotes dp_global_disputes;
  MaxOwners := @MaxOwners dp_global_disputes;
  MinOutcomeVoteAmount := @MinOutcomeVoteAmount dp_global_disputes;
  RemoveKeysLimit := @RemoveKeysLimit dp_global_disputes;
  VotingOutcomeFee := @VotingOutcomeFee dp_global_disputes;
  reward_account := @reward_account dp_global_disputes;
  gd_lookup := @gd_lookup dp_global_disputes;
  gd_iter := @gd_iter dp_global_disputes |}.

#[export] Instance joint_authorized {L} `{DisputePallets L} : AuthorizedConfig := {|
  AuthQueue := MarketIdsPerDisputeBlock;
  auth_dispute_resolution := pm_dispute_resolution;
  CorrectionPeriod := @CorrectionPeriod dp_authorized;
  AuthorizedDisputeResolutionOrigin := @AuthorizedDisputeResolutionOrigin dp_authorized;
  AuthImbalance := NegativeImbalance |}.

#[export] Instance joint_bonds {L} `{DisputePallets L} : BondCurrency L := {|
  Imbalance := NegativeImbalance;
  imbalance_zero := zero_imbalance;
  imbalance_subsume := subsume;
  cur_unreserve_named := unreserve_named;
  cur_slash_reserved_named := slash_reserved_named;
  cur_repatriate_reserved_named := dp_repatriate;
  cur_resolve_creating := resolve_creating;
  slash_on_unbalanced := dp_unbalanced |}.

Section Mechanisms.
Context {L : Type} `{DisputePallets L}.

(** The storages of the pallets.  Ledger, queue, markets and block are those of
    the caller; the copies the records carry are replaced on entry. *)
Record Mechanisms := mkMechanisms { d_auth : AuthState; d_gd : GdState; d_court : CourtState }.

Abbreviation World := (Mechanisms * L * MarketIdsPerDisputeBlock)%type.

Definition auth_view (d : Mechanisms) (q : MarketIdsPerDisputeBlock) (c : MarketCommons) (n : Z) : AuthState :=
  mkAuth (AuthorizedOutcomeReports (d_auth d)) q c n (auth_events (d_auth d)).
Definition gd_view (d : Mechanisms) (l : L) (q : MarketIdsPerDisputeBlock) (c : MarketCommons) (n : Z) : GdState :=
  mkGd (H := joint_global_disputes) l (Locks (d_gd d)) (Outcomes (d_gd d)) (GlobalDisputesInfo (d_gd d)) q c n (gd_events (d_gd d)).
Definition court_view (d : Mechanisms) (l : L) (q : MarketIdsPerDisputeBlock) (c : MarketCommons) (n : Z) : CourtState :=
  set_block_number n (set_ledger (l : @Ledger joint_court) (set_commons c (set_queue (q : @ResolveQueue joint_court) (d_court d)))).

Definition in_auth {A} (c : MarketCommons) (n : Z) (f : ST DispatchError AuthState A) : ST DispatchError World A :=
  fun '(d, l, q) => let '(r, a) := f (auth_view d q c n) in
    (r, (mkMechanisms a (d_gd d) (d_court d), l, auth_queue a)).
Definition in_gd {A} (c : MarketCommons) (n : Z) (f : ST DispatchError GdState A) : ST DispatchError World A :=
  fun '(d, l, q) => let '(r, g) := f (gd_view d l q c n) in
    (r, (mkMechanisms (d_auth d) g (d_court d), gd_ledger g, gd_queue g)).
Definition in_court {A} (c : MarketCommons) (n : Z) (f : ST DispatchError CourtState A) : ST DispatchError World A :=
  fun '(d, l, q) => let '(r, k) := f (court_view d l q c n) in
    (r, (mkMechanisms (d_auth d) (d_gd d) k, ledger k, queue k)).

#[export] Instance joint_mechanisms : DisputeMechanisms L := {|
  DisputeState := Mechanisms;
  dm_on_dispute c n mechanism id m :=
    match mechanism with
    | Authorized => in_auth c n (auth_on_dispute id m)
    | Court => in_court c n (on_dispute id m)
    end;
  dm_on_resolution c n mechanism id m :=
    match mechanism with
    | Authorized => in_auth c n (auth_on_resolution id m)
    | Court => in_court c n (on_resolution id m)
    end;
  dm_exchange c n mechanism id m o b :=
    match mechanism with
    | Authorized => in_auth c n (auth_exchange id m o (b : @AuthImbalance joint_authorized))
    | Court => in_court c n (exchange id m o b)
    end;
  dm_get_auto_resolve mechanism id m d :=
    match mechanism with
    | Authorized => auth_get_auto_resolve id m (d_auth d)
    | Court => get_auto_resolve (d_court d) id m
    end;
  dm_has_failed c n mechanism id m d :=
    match mechanism with
    | Authorized => auth_has_failed id m
    | Court => has_failed (set_block_number n (set_commons c (d_court d))) id m
    end;
  dm_on_global_dispute c n mechanism id m :=
    match mechanism with
    | Authorized => in_auth c n (auth_on_global_dispute id m)
    | Court => in_court c n (on_global_dispute id m)
    end;
  gd_does_exist id d := does_exist id (d_gd d);
  gd_determine_voting_winner id w :=
    let '(r, w') := in_gd (gd_commons (d_gd w.1.1)) (gd_block (d_gd w.1.1)) (determine_voting_winner id) w in
    (match r with Ok o => o | Err _ => None end, w');
  gd_start_global_dispute c n id items := in_gd c n (GlobalDisputes.start_global_dispute id items) |}.
End Mechanisms.

(** Prediction-markets over these mechanisms. *)
Class Runtime := {
  rt_pm : PmConfig;
  rt_disputes :: DisputePallets (@PmAssets rt_pm) }.

#[export] Instance joint_pm `{Runtime} : PmConfig := {|
  PmAssets := @PmAssets rt_pm;
  pm_multi_currency := @pm_multi_currency rt_pm;
  pm_currency := joint_bonds;
  pm_per_things := @pm_per_things rt_pm;
  pm_market_accounts := @pm_market_accounts rt_pm;
  pm_dispute_mechanisms := joint_mechanisms;
  pm_deploy_pools := @pm_deploy_pools rt_pm;
  pm_token_interface := @pm_token_interface rt_pm;
  pm_reserve_id := @pm_reserve_id rt_pm;
  ApproveOrigin := @ApproveOrigin rt_pm;
  CloseOrigin := @CloseOrigin rt_pm;
  CloseMarketEarlyOrigin := @CloseMarketEarlyOrigin rt_pm;
  RejectOrigin := @RejectOrigin rt_pm;
  RequestEditOrigin := @RequestEditOrigin rt_pm;
  ResolveOrigin := @ResolveOrigin rt_pm;
  AdvisoryBond := @AdvisoryBond rt_pm;
  AdvisoryBondSlashPercentage := @AdvisoryBondSlashPercentage rt_pm;
  ValidityBond := @ValidityBond rt_pm;
  OracleBond := @OracleBond rt_pm;
  OutsiderBond := @OutsiderBond rt_pm;
  DisputeBond := @DisputeBond rt_pm;
  CloseEarlyRequestBond := @CloseEarlyRequestBond rt_pm;
  CloseEarlyDisputeBond := @CloseEarlyDisputeBond rt_pm;
  CloseEarlyProtectionTimeFramePeriod := @CloseEarlyProtectionTimeFramePeriod rt_pm;
  CloseEarlyProtectionBlockPeriod := @CloseEarlyProtectionBlockPeriod rt_pm;
  CloseEarlyBlockPeriod := @CloseEarlyBlockPeriod rt_pm;
  CloseEarlyTimeFramePeriod := @CloseEarlyTimeFramePeriod rt_pm;
  MinCategories := @MinCategories rt_pm;
  MaxCategories := @MaxCategories rt_pm;
  MaxCreatorFee := @MaxCreatorFee rt_pm;
  MinDisputeDuration := @MinDisputeDuration rt_pm;
  MaxDisputeDuration := @MaxDisputeDuration rt_pm;
  MinOracleDuration := @MinOracleDuration rt_pm;
  MaxOracleDuration := @MaxOracleDuration rt_pm;
  MaxGracePeriod := @MaxGracePeriod rt_pm;
  MaxMarketLifetime := @MaxMarketLifetime rt_pm;
  MaxRejectReasonLen := @MaxRejectReasonLen rt_pm;
  MaxEditReasonLen := @MaxEditReasonLen rt_pm;
  winner_fee := @winner_fee rt_pm;
  pm_encode := @pm_encode rt_pm;
  pm_verify_signature := @pm_verify_signature rt_pm |}.

Section Resolution.
Context `{Runtime}.
Abbreviation PmM := (ST DispatchError PmState).

Definition auth_reports (s : PmState) : gmap Z AuthorityReport := AuthorizedOutcomeReports (d_auth (pm_disputes s)).
Definition gd_infos (s : PmState) : gmap Z GlobalDisputeInfo := GlobalDisputesInfo (d_gd (pm_disputes s)).
Definition court_state (s : PmState) : CourtState :=
  court_view (pm_disputes s) (pm_assets s) (pm_dispute_queue s) (pm_commons s) (pm_block s).

(** Who decides a disputed market with the report [r], and how. *)
Inductive decided_by (s : PmState) (id : Z) (m : Market) (r : Report) : OutcomeReport -> Prop :=
| by_global_dispute g : gd_infos s !! id = Some g -> decided_by s id m r (winner_outcome g)
| by_authority a : gd_infos s !! id = None -> dispute_mechanism m = Some Authorized -> auth_reports s !! id = Some a ->
    decided_by s id m r (ar_outcome a)
| by_report : gd_infos s !! id = None -> dispute_mechanism m = Some Authorized -> auth_reports s !! id = None ->
    decided_by s id m r (report_outcome r)
| by_court court_id item o : gd_infos s !! id = None -> dispute_mechanism m = Some Court ->
    MarketIdToCourtId (court_state s) !! id = Some court_id ->
    get_latest_winner_vote_item (court_state s) court_id (draws_of court_id (court_state s)) = Ok item ->
    into_outcome item = Some o -> decided_by s id m r o.

(** Settling a bond leaves the mechanisms and the reports alone. *)
Definition bonds_only (s s' : PmState) : Prop :=
  pm_disputes s' = pm_disputes s /\ forall id, report <$> Markets (pm_commons s') !! id = report <$> Markets (pm_commons s) !! id.

#[local] Instance bonds_only_refl : Reflexive bonds_only.
Proof. done. Qed.
#[local] Instance bonds_only_trans : Transitive bonds_only.
Proof. intros s1 s2 s3 [H1 H2] [H3 H4]. split; [congruence|]. intros id. by rewrite H4, H2. Qed.

Lemma bonds_only_assets f : keeps bonds_only (modify (fun s => set_pm_assets (f (pm_assets s)) s) : PmM unit).
Proof. done. Qed.

Lemma bonds_only_mutate k b id : keeps bonds_only (pm_mutate_market id (fun m => Ok (set_market_bond k b m))).
Proof.
  intros s. unfold pm_mutate_market, pm_on_commons, mutate_market, mbind, st_bind, gets, lift, modify, fail.
  destruct (Markets (pm_commons s) !! id) as [m|] eqn:Hm; cbn; [|done]. split; [done|]. intros id'. cbn.
  destruct (decide (id = id')) as [<-|Hne]; [|by rewrite lookup_insert_ne]. by rewrite lookup_insert_eq, Hm.
Qed.

Lemma bonds_only_unreserve k id : keeps bonds_only (unreserve_bond k id).
Proof.
  unfold unreserve_bond, pm_market. refine (keeps_bind _ _ _ _ _); [keeps_tac|]. intros m.
  refine (keeps_bind _ _ _ _ _); [keeps_tac|]. intros b. destruct (is_settled b); [by apply keeps_mret|].
  refine (keeps_bind _ _ _ _ _); [done|]. intros _. apply bonds_only_mutate.
Qed.

Lemma court_state_bonds s s' court_id : bonds_only s s' ->
  get_latest_winner_vote_item (court_state s') court_id (draws_of court_id (court_state s')) =
    get_latest_winner_vote_item (court_state s) court_id (draws_of court_id (court_state s)).
Proof.
  intros [Hd Hr]. unfold get_latest_winner_vote_item, court_state. rewrite Hd. cbn.
  destruct (Courts _ !! court_id) as [court|]; cbn; [|done]. destruct (CourtIdToMarketId _ !! court_id) as [mid|]; cbn; [|done].
  specialize (Hr mid). unfold market. change (draws_of court_id (court_view (pm_disputes s) (pm_assets s') (pm_dispute_queue s') (pm_commons s') (pm_block s')))
    with (draws_of court_id (court_view (pm_disputes s) (pm_assets s) (pm_dispute_queue s) (pm_commons s) (pm_block s))).
  destruct (Markets (pm_commons s') !! mid), (Markets (pm_commons s) !! mid); cbn in *; [|done..]. by injection Hr as ->.
Qed.

(** Runs of the mechanisms inside the pallet. *)
Lemma on_disputes_run {A} (f : ST DispatchError (DisputeState * PmAssets * MarketIdsPerDisputeBlock) A) s r s' :
  on_disputes f s = (r, s') -> exists w, f (dispute_world s) = (r, w) /\ s' = set_dispute_world w s.
Proof. unfold on_disputes. destruct (f (dispute_world s)) as [r' w]. intros [= <- <-]. by exists w. Qed.
Lemma in_auth_run {A} c n (f : ST DispatchError AuthState A) d (l : PmAssets) q r w :
  in_auth c n f (d, l, q) = (r, w) ->
  exists a, f (auth_view d q c n) = (r, a) /\ w = (mkMechanisms a (d_gd d) (d_court d), l, auth_queue a).
Proof. cbn. destruct (f (auth_view d q c n)) as [r' a]. intros [= <- <-]. by exists a. Qed.
Lemma in_gd_run {A} c n (f : ST DispatchError GdState A) d (l : PmAssets) q r w :
  in_gd c n f (d, l, q) = (r, w) ->
  exists g, f (gd_view d l q c n) = (r, g) /\ w = (mkMechanisms (d_auth d) g (d_court d), gd_ledger g, gd_queue g).
Proof. cbn. destruct (f (gd_view d l q c n)) as [r' g]. intros [= <- <-]. by exists g. Qed.
Lemma in_court_run {A} c n (f : ST DispatchError CourtState A) d (l : PmAssets) q r w :
  in_court c n f (d, l, q) = (r, w) ->
  exists k, f (court_view d l q c n) = (r, k) /\ w = (mkMechanisms (d_auth d) (d_gd d) k, ledger k, queue k).
Proof. cbn. destruct (f (court_view d l q c n)) as [r' k]. intros [= <- <-]. by exists k. Qed.

Lemma auth_resolution_run id m s o s' : auth_on_resolution id m s = (Ok o, s') -> o = ar_outcome <$> AuthorizedOutcomeReports s !! id.
Proof.
  intros Hr. apply bind_ok in Hr as (u & s1 & [_ ->]%lift_ok & Hr). apply bind_ok in Hr as (s0 & s1 & [-> ->]%get_ok & Hr).
  by apply bind_ok in Hr as (u1 & s1 & _ & [-> _]%mret_ok).
Qed.
Lemma court_resolution_run id m (k : CourtState) oo k' : on_resolution id m k = (Ok oo, k') ->
  exists cid item o, oo = Some o /\ MarketIdToCourtId k !! id = Some cid /\
    get_latest_winner_vote_item k cid (draws_of cid k) = Ok item /\ into_outcome item = Some o.
Proof.
  intros Hr. apply bind_ok in Hr as (u & s1 & [_ ->]%lift_ok & Hr). apply bind_ok in Hr as (s0 & s1 & [-> ->]%get_ok & Hr).
  apply bind_ok in Hr as (cid & s1 & [Hcid%ok_or_ok ->]%lift_ok & Hr). apply bind_ok in Hr as (court & s1 & [_ ->]%lift_ok & Hr).
  apply bind_ok in Hr as (item & s1 & [Hitem ->]%lift_ok & Hr). apply bind_ok in Hr as (u1 & s1 & _ & Hr).
  apply bind_ok in Hr as (u2 & s2 & _ & Hr). apply bind_ok in Hr as (o & s3 & [Ho%ok_or_ok ->]%lift_ok & [-> _]%mret_ok).
  by exists cid, item, o.
Qed.

(** What [get_resolved_outcome] returns. *)
Lemma resolved_outcome_decided s id m r o s' : get_resolved_outcome id m (report_outcome r) s = (Ok o, s') -> decided_by s id m r o.
Proof.
  intros Hr. apply bind_ok in Hr as (s0 & s1 & [-> ->]%get_ok & Hr).
  destruct (gd_determine_voting_winner id (dispute_world s)) as [winner w] eqn:Hw.
  apply bind_ok in Hr as (u & s1 & [_ ->]%modify_ok & Hr). apply bind_ok in Hr as (oo & s2 & Ho & [-> ->]%mret_ok).
  cbn in Hw. unfold determine_voting_winner, in_gd, mbind, st_bind, get, modify, mret, st_ret, deposit_gd_event in Hw. cbn in Hw.
  destruct (GlobalDisputesInfo (d_gd (pm_disputes s)) !! id) as [g|] eqn:Hg; cbn in Hw.
  - injection Hw as <- <-. apply mret_ok in Ho as [-> ->]. by apply by_global_dispute.
  - injection Hw as <- <-. apply bind_ok in Ho as (mech & s3 & [Hmech%ok_or_ok ->]%lift_ok & Ho).
    apply bind_ok in Ho as (s0 & s3 & [-> ->]%get_ok & Ho).
    apply on_disputes_run in Ho as (w & Ho & _). cbn in Ho. destruct mech.
    + apply in_auth_run in Ho as (a & Ho & _). apply auth_resolution_run in Ho as ->. cbn.
      destruct (AuthorizedOutcomeReports (d_auth (pm_disputes s)) !! id) as [a0|] eqn:Ha; cbn; [by eapply by_authority|by apply by_report].
    + apply in_court_run in Ho as (k & Ho & _). apply court_resolution_run in Ho as (cid & item & o & -> & Hcid & Hitem & Hout).
      cbn. by eapply (by_court _ _ _ _ cid item).
Qed.

Lemma decided_by_bonds s s' id m r o : bonds_only s s' -> decided_by s' id m r o -> decided_by s id m r o.
Proof.
  intros Hb Hd. pose proof Hb as [Hds _]. unfold gd_infos, auth_reports in *.
  destruct Hd as [g Hg|a Hg Hm Ha|Hg Hm Ha|cid item o Hg Hm Hc Hi Ho]; unfold gd_infos, auth_reports in *; rewrite Hds in *.
  - by apply by_global_dispute.
  - by eapply by_authority.
  - by apply by_report.
  - rewrite (court_state_bonds s s' cid Hb) in Hi. eapply by_court; [done|done| |exact Hi|exact Ho].
    unfold court_state in *. by rewrite Hds in Hc.
Qed.

Lemma pm_mutate_ok id (f : Market -> Market) s s' : pm_mutate_market id (fun m => Ok (f m)) s = (Ok tt, s') ->
  exists m, Markets (pm_commons s) !! id = Some m /\ Markets (pm_commons s') !! id = Some (f m).
Proof.
  unfold pm_mutate_market, pm_on_commons, mutate_market, mbind, st_bind, gets, lift, modify, fail.
  destruct (Markets (pm_commons s) !! id) as [m|] eqn:Hm; cbn; [|done]. intros [= <-]. exists m. split; [done|]. cbn.
  by rewrite lookup_insert_eq.
Qed.

(** C10. A disputed market resolves to the leader of its global dispute if there
    is one; otherwise an authorized market to what the authority reported last,
    or to the oracle's report if it did not, and a court market to the ruling of
    its court. *)
Theorem disputed_outcome s id m r s' : pm_on_resolution id m s = (Ok tt, s') -> status m = Disputed -> report m = Some r ->
  exists o m', decided_by s id m r o /\ Markets (pm_commons s') !! id = Some m' /\
    status m' = Resolved /\ resolved_outcome m' = Some o.
Proof.
  intros Hr Hst Hrep. apply bind_ok in Hr as (u & s1 & Hc & Hr).
  assert (Hb : bonds_only s s1).
  { destruct (creation m); [|by apply mret_ok in Hc as [_ ->]]. exact (keeps_ok _ _ _ _ _ (bonds_only_unreserve _ _) Hc). }
  apply bind_ok in Hr as (o & s2 & Ho & Hr). rewrite Hst in Ho.
  apply bind_ok in Ho as (mech & s3 & [_ ->]%lift_ok & Ho). apply bind_ok in Ho as (r' & s3 & [Hr'%ok_or_ok ->]%lift_ok & Ho).
  rewrite Hrep in Hr'. injection Hr' as <-. apply bind_ok in Ho as (o' & s3 & Hdec%resolved_outcome_decided & Ho).
  assert (Hoo : o = o').
  { apply bind_ok in Ho as (i & s4 & _ & Ho). apply bind_ok in Ho as (s5 & s6 & _ & Ho).
    apply bind_ok in Ho as (rem & s7 & _ & Ho). by apply bind_ok in Ho as (u1 & s8 & _ & [-> _]%mret_ok). }
  subst o'. apply bind_ok in Hr as ([] & s4 & (m' & _ & Hm')%pm_mutate_ok & [_ ->]%modify_ok).
  eexists o, _. split_and!; [by eapply decided_by_bonds|exact Hm'|done|done].
Qed.

(** ** From court to a global dispute *)

(** The court of the market was removed, or never opened. *)
Definition court_gone (id : Z) (s : PmState) : Prop :=
  forall court_id, MarketIdToCourtId (d_court (pm_disputes s)) !! id = Some court_id ->
    Courts (d_court (pm_disputes s)) !! court_id = None.

Definition same_disputes (s s' : PmState) : Prop := pm_disputes s' = pm_disputes s.
#[local] Instance same_disputes_refl : Reflexive same_disputes.
Proof. done. Qed.
#[local] Instance same_disputes_trans : Transitive same_disputes.
Proof. intros s1 s2 s3 H1 H2. unfold same_disputes in *. congruence. Qed.

Lemma same_disputes_mutate id f : keeps same_disputes (pm_mutate_market id f).
Proof. intros s. unfold pm_mutate_market, pm_on_commons. by destruct (mutate_market id f (pm_commons s)). Qed.
Lemma same_disputes_market id : keeps same_disputes (pm_market id).
Proof. unfold pm_market. keeps_tac. Qed.
Lemma same_disputes_unreserve k id : keeps same_disputes (unreserve_bond k id).
Proof. intros s. apply (bonds_only_unreserve k id s). Qed.
Lemma same_disputes_assets f : keeps same_disputes (modify (fun s => set_pm_assets (f s) s) : PmM unit).
Proof. done. Qed.
#[local] Hint Resolve same_disputes_mutate same_disputes_market same_disputes_unreserve same_disputes_assets : keeps.

Lemma same_disputes_slash k id p : keeps same_disputes (slash_bond k id p).
Proof.
  unfold slash_bond. refine (keeps_bind _ _ _ _ _); [keeps_tac|]. intros m. refine (keeps_bind _ _ _ _ _); [keeps_tac|]. intros b.
  destruct (is_settled b); [by apply keeps_mret|]. destruct (match p with Some _ => _ | None => _ end) as [v u].
  refine (keeps_bind _ _ _ _ _); [keeps_tac|]. intros s. destruct (cur_slash_reserved_named _ _ _ _) as [[i e] l].
  refine (keeps_bind _ _ _ _ _); [done|]. intros _. keeps_tac.
Qed.
Lemma same_disputes_repatriate k id w : keeps same_disputes (repatriate_bond k id w).
Proof.
  unfold repatriate_bond. refine (keeps_bind _ _ _ _ _); [keeps_tac|]. intros m. refine (keeps_bind _ _ _ _ _); [keeps_tac|]. intros b.
  destruct (is_settled b); [by apply keeps_mret|]. keeps_tac.
Qed.
#[local] Hint Resolve same_disputes_slash same_disputes_repatriate : keeps.
Lemma same_disputes_settle id m o r : keeps same_disputes (settle_bonds id m o r).
Proof. unfold settle_bonds. keeps_tac. Qed.

(** Without the court, nothing resolves the market. *)
Lemma gone_court_resolution id m s u s' : status m = Disputed -> dispute_mechanism m = Some Court -> court_gone id s ->
  pm_on_resolution id m s <> (Ok u, s').
Proof.
  intros Hst Hmech Hgone Hr. apply bind_ok in Hr as (u1 & s1 & Hc & Hr).
  assert (Hd1 : pm_disputes s1 = pm_disputes s).
  { destruct (creation m); [|by apply mret_ok in Hc as [_ ->]]. exact (keeps_ok _ _ _ _ _ (same_disputes_unreserve _ _) Hc). }
  apply bind_ok in Hr as (o & s2 & Ho & _). rewrite Hst in Ho.
  apply bind_ok in Ho as (mech & s3 & [Hm%ok_or_ok ->]%lift_ok & Ho). rewrite Hmech in Hm. injection Hm as <-.
  apply bind_ok in Ho as (r & s3 & [_ ->]%lift_ok & Ho). apply bind_ok in Ho as (o' & s3 & Hres & Ho).
  assert (Hd3 : d_court (pm_disputes s3) = d_court (pm_disputes s)).
  { clear Ho. apply bind_ok in Hres as (s0 & s4 & [-> ->]%get_ok & Hres).
    destruct (gd_determine_voting_winner id (dispute_world s1)) as [winner w] eqn:Hw.
    apply bind_ok in Hres as (u2 & s4 & [_ ->]%modify_ok & Hres). apply bind_ok in Hres as (oo & s5 & Hoo & [_ ->]%mret_ok).
    assert (Hdw : d_court w.1.1 = d_court (pm_disputes s)).
    { cbn in Hw. destruct (determine_voting_winner id _) as [rr g]. injection Hw as _ <-. cbn. by rewrite Hd1. }
    destruct winner as [o''|]; [apply mret_ok in Hoo as [_ ->]; by destruct w as [[d l] q]|].
    exfalso. apply bind_ok in Hoo as (mech & s6 & [Hm%ok_or_ok ->]%lift_ok & Hoo). rewrite Hmech in Hm. injection Hm as <-.
    apply bind_ok in Hoo as (s0 & s6 & [-> ->]%get_ok & Hoo). apply on_disputes_run in Hoo as (w' & Hoo & _). destruct w as [[d l] q].
    apply in_court_run in Hoo as (k & Hoo & _). apply bind_ok in Hoo as (u3 & s6 & [_ ->]%lift_ok & Hoo).
    apply bind_ok in Hoo as (s0 & s6 & [-> ->]%get_ok & Hoo). apply bind_ok in Hoo as (cid & s6 & [Hcid%ok_or_ok ->]%lift_ok & Hoo).
    apply bind_ok in Hoo as (ct & s6 & [Hct%ok_or_ok ->]%lift_ok & _). cbn in Hcid, Hct, Hdw. rewrite Hdw in *.
    by rewrite (Hgone _ Hcid) in Hct. }
  apply bind_ok in Ho as (i & s4 & Hset & Ho). apply (keeps_ok _ _ _ _ _ (same_disputes_settle _ _ _ _)) in Hset.
  apply bind_ok in Ho as (s0 & s5 & [-> ->]%get_ok & Ho). apply bind_ok in Ho as (rem & s5 & Hex & _).
  apply on_disputes_run in Hex as (w & Hex & _). apply in_court_run in Hex as (k & Hex & _).
  apply bind_ok in Hex as (u3 & s6 & [_ ->]%lift_ok & Hex). apply bind_ok in Hex as (s0 & s6 & [-> ->]%get_ok & Hex).
  apply bind_ok in Hex as (cid & s6 & [Hcid%ok_or_ok ->]%lift_ok & Hex).
  apply bind_ok in Hex as (ct & s6 & [Hct%ok_or_ok ->]%lift_ok & _). cbn in Hcid, Hct. rewrite Hset, Hd3 in *.
  by rewrite (Hgone _ Hcid) in Hct.
Qed.

(** Handing a market over removes its court and leaves the queue alone. *)
Lemma court_global_dispute_run id m (k : CourtState) items k' : on_global_dispute id m k = (Ok items, k') ->
  MarketIdToCourtId k' = MarketIdToCourtId k /\ queue k' = queue k /\
  forall court_id, MarketIdToCourtId k !! id = Some court_id ->
    (exists court, Courts k !! court_id = Some court) /\ Courts k' !! court_id = None.
Proof.
  intros Hr. apply bind_ok in Hr as (u & s1 & [_ ->]%lift_ok & Hr). apply bind_ok in Hr as (s0 & s1 & [-> ->]%get_ok & Hr).
  destruct (MarketIdToCourtId k !! id) as [cid|] eqn:Hcid; [|apply mret_ok in Hr as [_ ->]; by split_and!].
  apply bind_ok in Hr as (court & s1 & [Hct%ok_or_ok ->]%lift_ok & Hr). apply bind_ok in Hr as (r & s1 & [_ ->]%lift_ok & Hr).
  apply bind_ok in Hr as (u2 & s1 & Hrem & [_ ->]%mret_ok). apply bind_ok in Hrem as (ds & s2 & [-> ->]%gets_ok & Hrem).
  apply bind_ok in Hrem as (u3 & s2 & Hun & Hrem). apply (unlock_frame _) in Hun.
  apply bind_ok in Hrem as (u4 & s3 & [_ ->]%modify_ok & [_ ->]%modify_ok). cbn.
  pose proof (f_equal MarketIdToCourtId Hun) as E1. pose proof (f_equal queue Hun) as E2. cbn in E1, E2.
  split_and!; [done|done|]. intros cid' [= <-]. split; [by exists court|]. apply lookup_delete_eq.
Qed.

(** The global dispute that starts is stored, and the queue keeps what it had. *)
Lemma gd_start_run id items (g : GdState) n g' : GlobalDisputes.start_global_dispute id items g = (Ok n, g') ->
  is_Some (GlobalDisputesInfo g' !! id) /\
  forall b, pm_auto_resolve_exists id b (gd_queue g) = true -> pm_auto_resolve_exists id b (gd_queue g') = true.
Proof.
  intros Hr. apply bind_ok in Hr as (s0 & s1 & [-> ->]%get_ok & Hr). apply bind_ok in Hr as (m & s1 & [_ ->]%lift_ok & Hr).
  apply bind_ok in Hr as (u & s1 & [_ ->]%lift_ok & Hr). apply bind_ok in Hr as (u1 & s1 & Hit & Hr).
  assert (Hq1 : gd_queue s1 = gd_queue g).
  { clear Hr. revert g Hit. induction items as [|it items IH]; intros g Hit; [by apply mret_ok in Hit as [_ ->]|].
    apply bind_ok in Hit as (u2 & s2 & Hp & Hit). rewrite (IH _ Hit). clear - Hp.
    apply bind_ok in Hp as (u3 & s3 & [_ ->]%lift_ok & Hp). apply bind_ok in Hp as (s0 & s3 & [-> ->]%get_ok & Hp).
    destruct (outcomes_of id g !! item_outcome it) as [i|].
    - apply bind_ok in Hp as (ws & s3 & [_ ->]%lift_ok & Hp). apply bind_ok in Hp as (ws' & s3 & [_ ->]%lift_ok & Hp).
      by apply bind_ok in Hp as (u4 & s3 & [_ ->]%modify_ok & [_ ->]%modify_ok).
    - destruct (try_push _ _ _); [|by apply mret_ok in Hp as [_ ->]].
      by apply bind_ok in Hp as (u4 & s3 & [_ ->]%modify_ok & [_ ->]%modify_ok). }
  apply bind_ok in Hr as (ids & s2 & Hadd & Hr). apply bind_ok in Hr as (gi & s3 & Hgi & Hr).
  apply bind_ok in Hgi as (s4 & s5 & [-> ->]%get_ok & [_ ->]%lift_ok).
  apply bind_ok in Hr as (u2 & s3 & [_ ->]%modify_ok & [_ ->]%mret_ok). split; [cbn; rewrite lookup_insert_eq; eauto|].
  intros b Hb. cbn. unfold gd_on_queue in Hadd. destruct (add_auto_resolve _ _ _) as [rq q] eqn:Ha. injection Hadd as -> <-. cbn.
  rewrite Hq1 in Ha. match type of Ha with add_auto_resolve _ ?e _ = _ => destruct (decide (b = e)) as [->|Hne] end.
  - exact (add_exists _ _ _ _ _ Ha).
  - pose proof (add_other _ _ _ _ _ id b Ha) as Ho. change (pm_auto_resolve_exists id b q = true). rewrite <- Hb. apply Ho. congruence.
Qed.

(** The entry of a market whose court is gone is not found. *)
Lemma clear_without_court id m s r s' : Markets (pm_commons s) !! id = Some m -> dispute_mechanism m = Some Court ->
  court_gone id s -> clear_auto_resolve id s = (Ok r, s') ->
  pm_disputes s' = pm_disputes s /\ pm_commons s' = pm_commons s /\ (status m = Disputed -> pm_dispute_queue s' = pm_dispute_queue s).
Proof.
  intros Hm Hmech Hgone Hr. apply bind_ok in Hr as (m1 & s3 & Hm1 & Hr).
  apply bind_ok in Hm1 as (s0 & s4 & [-> ->]%get_ok & [Hm1%ok_or_ok ->]%lift_ok). assert (m1 = m) as -> by congruence. rewrite Hmech in Hr.
  destruct (status m); try (apply mret_ok in Hr as [_ ->]; by split_and!).
  - apply bind_ok in Hr as (r1 & s3 & [_ ->]%lift_ok & Hr). apply bind_ok in Hr as (s0 & s3 & [-> ->]%get_ok & Hr).
    destruct (queue_remove _ _ _) as [n q]. by apply bind_ok in Hr as (u5 & s3 & [_ ->]%modify_ok & [_ ->]%mret_ok).
  - apply bind_ok in Hr as (s0 & s3 & [-> ->]%get_ok & Hr). cbn in Hr. unfold get_auto_resolve in Hr.
    rewrite decide_True in Hr by done. destruct (MarketIdToCourtId (d_court (pm_disputes s)) !! id) as [cid|] eqn:Hcid; cbn in Hr.
    + rewrite (Hgone _ Hcid) in Hr. by apply mret_ok in Hr as [_ ->].
    + by apply mret_ok in Hr as [_ ->].
Qed.

(** A disputed market is not disputed again. *)
Lemma disputed_no_dispute id m s : Markets (pm_commons s) !! id = Some m -> status m = Disputed ->
  forall origin u s', dispute origin id s <> (Ok u, s').
Proof.
  intros Hm Hst origin u s' Hr%transactional_ok. apply bind_ok in Hr as (w & s1 & [_ ->]%lift_ok & Hr).
  apply bind_ok in Hr as (m0 & s1 & Hm0 & Hr). apply bind_ok in Hm0 as (s0 & s2 & [-> ->]%get_ok & [Hm0%ok_or_ok ->]%lift_ok).
  apply bind_ok in Hr as (u1 & s1 & [Hrep%ensure_ok%bool_decide_eq_true ->]%lift_ok & _). assert (m0 = m) by congruence. congruence.
Qed.

(** What the handover does to the market's record. *)
Lemma handover_status id m s u s' : Markets (pm_commons s) !! id = Some m -> status m = Disputed \/ status m = Reported ->
  (if bool_decide (status m = Reported) then pm_mutate_market id (fun m => Ok (set_status Disputed m)) else mret tt) s = (Ok u, s') ->
  pm_disputes s' = pm_disputes s /\ pm_dispute_queue s' = pm_dispute_queue s /\
  exists m', Markets (pm_commons s') !! id = Some m' /\ status m' = Disputed /\ dispute_mechanism m' = dispute_mechanism m.
Proof.
  intros Hm Hst Hr. case_bool_decide as Hrep.
  - destruct u. pose proof (pm_mutate_ok _ _ _ _ Hr) as (m0 & Hm0 & Hm'). assert (m0 = m) as -> by congruence.
    unfold pm_mutate_market, pm_on_commons in Hr. destruct (mutate_market _ _ _) as [rm cm]. injection Hr as _ <-.
    split_and!; [done..|]. by eexists.
  - apply mret_ok in Hr as [_ ->]. split_and!; [done..|]. exists m. split_and!; [done| |done]. by destruct Hst.
Qed.

(** A step of the court that opens no court for the market: any call of the
    pallet, its hook, and what prediction-markets asks of it, but for a dispute of
    that very market. *)
Definition court_goes_on (id : Z) (k k' : CourtState) : Prop := court_step k k' /\ ~ opens_court id k k'.

(** C26. Prediction-markets hands a market from court to a global dispute only if
    it has a court, and court removes that court.  The market is disputed from
    then on and stays queued at the end of the court's appeal period (its court is
    already gone when the entry is looked up).  The removed court never comes
    back, whatever is called on the court pallet, unless prediction-markets opens
    another one for the market; and while the market is disputed, prediction-markets
    neither opens one (another dispute of it fails) nor can resolve it: resolving
    fails whatever the votes, since the exchange of the appeal bonds asks for the
    removed court. *)
Theorem court_handover_stuck w id s s' : ids_inv (d_court (pm_disputes s)) ->
  PmCalls.start_global_dispute (Signed w) id s = (Ok tt, s') ->
  exists m court_id court m', Markets (pm_commons s) !! id = Some m /\ dispute_mechanism m = Some Court /\
    MarketIdToCourtId (d_court (pm_disputes s)) !! id = Some court_id /\
    Courts (d_court (pm_disputes s)) !! court_id = Some court /\
    (status m = Disputed -> auto_resolve_exists id (appeal_end (round_ends court)) (pm_dispute_queue s) = true ->
       auto_resolve_exists id (appeal_end (round_ends court)) (pm_dispute_queue s') = true) /\
    is_Some (gd_infos s' !! id) /\
    Markets (pm_commons s') !! id = Some m' /\ status m' = Disputed /\ dispute_mechanism m' = Some Court /\
    forall s2, rtc (court_goes_on id) (d_court (pm_disputes s')) (d_court (pm_disputes s2)) ->
      MarketIdToCourtId (d_court (pm_disputes s2)) !! id = Some court_id /\
      Courts (d_court (pm_disputes s2)) !! court_id = None /\
      forall m2, Markets (pm_commons s2) !! id = Some m2 -> status m2 = Disputed -> dispute_mechanism m2 = Some Court ->
        (forall u s3, pm_on_resolution id m2 s2 <> (Ok u, s3)) /\ forall origin u s3, dispute origin id s2 <> (Ok u, s3).
Proof.
  intros Hids0 Hr%transactional_ok. apply bind_ok in Hr as (u & s1 & [_ ->]%lift_ok & Hr).
  apply bind_ok in Hr as (m & s1 & Hm & Hr). apply bind_ok in Hm as (s0 & s2 & [-> ->]%get_ok & [Hm%ok_or_ok ->]%lift_ok).
  apply bind_ok in Hr as (mech & s1 & [Hmech%ok_or_ok ->]%lift_ok & Hr). apply bind_ok in Hr as (u1 & s1 & [Hst%ensure_ok ->]%lift_ok & Hr).
  apply bind_ok in Hr as (u2 & s1 & [Hc%ensure_ok ->]%lift_ok & Hr). apply bool_decide_eq_true in Hc as ->.
  apply bind_ok in Hr as (s0 & s1 & [-> ->]%get_ok & Hr). apply bind_ok in Hr as (u3 & s1 & [_ ->]%lift_ok & Hr).
  apply bind_ok in Hr as (r & s1 & [_ ->]%lift_ok & Hr). apply bind_ok in Hr as (hf & s1 & [Hhf ->]%lift_ok & Hr).
  apply bind_ok in Hr as (u4 & s1 & [_ ->]%lift_ok & Hr). apply bind_ok in Hr as (items & s1 & Hod & Hr).
  assert (Hcid : exists cid, MarketIdToCourtId (d_court (pm_disputes s)) !! id = Some cid).
  { cbn in Hhf. unfold has_failed in Hhf. apply result_bind_ok in Hhf as (u5 & _ & Hhf).
    apply result_bind_ok in Hhf as (cid & Hcid%ok_or_ok & _). by exists cid. }
  destruct Hcid as [cid Hcid]. apply on_disputes_run in Hod as (w1 & Hod & ->). apply in_court_run in Hod as (k & Hk & ->).
  pose proof (keeps_ok _ _ _ _ _ (registry_handover None _ _) Hk) as (_ & Hnext & _).
  apply court_global_dispute_run in Hk as (Hids & Hq & Hcourts). cbn in Hids, Hq, Hnext. destruct (Hcourts cid Hcid) as [[court Hct] Hno].
  apply bind_ok in Hr as (cl & s2 & Hclear & Hr). set (s1 := set_dispute_world _ s) in *.
  assert (Hgone1 : court_gone id s1).
  { intros cid' Hcid'. cbn in Hcid' |- *. rewrite Hids in Hcid'. assert (cid' = cid) as -> by congruence. exact Hno. }
  destruct (clear_without_court id m s1 _ _ Hm Hmech Hgone1 Hclear) as (Hd2 & Hc2 & Hq2).
  apply bind_ok in Hr as (u5 & s3 & Hset & Hr). assert (Hm2 : Markets (pm_commons s2) !! id = Some m) by (by rewrite Hc2).
  apply (handover_status _ _ _ _ _ Hm2) in Hset as (Hd3 & Hq3 & m' & Hm' & Hst' & Hmech');
    [|by apply orb_true_iff in Hst as [?%bool_decide_eq_true|?%bool_decide_eq_true]; [left|right]].
  apply bind_ok in Hr as (s0 & s4 & [-> ->]%get_ok & Hr).
  apply bind_ok in Hr as (n & s4 & Hgd & [_ ->]%modify_ok). apply on_disputes_run in Hgd as (w2 & Hgd & ->).
  apply in_gd_run in Hgd as (g & Hg & ->). apply gd_start_run in Hg as [Hinfo Hqueue].
  exists m, cid, court, m'. do 4 (split; [done|]). split.
  { intros Hd Hex. apply Hqueue. cbn. rewrite Hq3, Hq2 by done. cbn. by rewrite Hq. }
  split; [done|]. split; [done|]. split; [done|]. split; [congruence|]. intros s5 Hrun.
  assert (Hd5 : d_court (pm_disputes s3) = k) by (by rewrite Hd3, Hd2). cbn in Hrun. rewrite Hd5 in Hrun.
  destruct (removed_run id cid _ _ Hrun) as [Hno5 Hcid5]; [rewrite Hnext|exact Hno|by rewrite Hids|].
  { destruct Hids0 as (_ & Hmc & Hcm). by destruct (Hcm _ _ (Hmc _ _ Hcid)). }
  split; [done|]. split; [done|]. intros m2 Hmk2 Hst2 Hmech2. split.
  - intros u6 s6. apply gone_court_resolution; [done|done|]. intros cid' Hcid'. assert (cid' = cid) as -> by congruence. done.
  - by apply (disputed_no_dispute id m2).
Qed.
End Resolution.
