(* ===== verification/DisputesDemo.v ===== *)
(** * The dispute mechanisms together: runs

    The pallets over the reference assets with the native asset as their
    currency: an authority's market resolved as the authority said, and a court
    market handed to a global dispute. *)

From S2P Require Import CourtTypes CourtInv CourtPool CourtSelection CourtVoting CourtDemo Authorized GlobalDisputes GlobalDisputesDemo.
From S2P Require Import Prelude Errors FixedMath Collections Interfaces ReferenceEnv Balances DisputeQueue Market MultiCurrency CompleteSets.
From S2P Require Import PredictionMarkets PmCalls PmDemo Disputes.

(** The native asset of the reference assets, without locks and issuance. *)
Definition tru_move (a b : AccountId) (v : Z) (l : RefAssets) : RefAssets := ra_add Tru b v (ra_add Tru a (- v) l).

#[global] Instance asset_currency : Currency RefAssets := {|
  NegativeImbalance := N;
  zero_imbalance := 0%N;
  peek := Z.of_N;
  subsume i j := (i + j)%N;
  split_imbalance i v := (N.min i (Z.to_N v), (i - N.min i (Z.to_N v))%N);
  free_balance l a := ra_free_of Tru a l;
  total_issuance l := 0;
  set_lock _ _ _ l := l;
  remove_lock _ _ l := l;
  can_reserve l a v := v <=? ra_free_of Tru a l;
  reserve_named r a v l :=
    if v <=? ra_free_of Tru a l
    then Ok (ra_set_reserved r Tru a (ra_reserved_of r Tru a l + v) (ra_add Tru a (- v) l))
    else Err (Other "InsufficientBalance");
  unreserve_named r a v l := ra_release r Tru a a v l;
  slash_reserved_named r a v l :=
    let x := Z.min v (ra_reserved_of r Tru a l) in
    ((Z.to_N x, v - x), ra_set_reserved r Tru a (ra_reserved_of r Tru a l - x) l);
  slash a v l := let x := Z.min v (ra_free_of Tru a l) in ((Z.to_N x, v - x), ra_add Tru a (- x) l);
  resolve_creating a i l := ra_add Tru a (Z.of_N i) l;
  resolve_into_existing a i l := (None, ra_add Tru a (Z.of_N i) l);
  issue v l := (Z.to_N v, l);
  burn _ l := l;
  drop_imbalance _ l := l;
  held l := 0 |}.

#[global] Instance asset_balances : Balances RefAssets := {|
  b_free l a := ra_free_of Tru a l;
  Balances.minimum_balance := 5;
  b_transfer a b v k l :=
    if v <=? ra_free_of Tru a l then (Ok tt, tru_move a b v l) else (Err (Other "InsufficientBalance"), l);
  b_set_lock _ _ _ l := l;
  b_extend_lock _ _ _ l := l;
  b_remove_lock _ _ l := l;
  b_locked _ _ _ := 0 |}.

Definition demo_authorized : AuthorizedConfig := {|
  AuthQueue := MarketIdsPerDisputeBlock;
  auth_dispute_resolution := pm_dispute_resolution;
  CorrectionPeriod := 7200;
  AuthorizedDisputeResolutionOrigin := is_root;
  AuthImbalance := N |}.

#[global] Instance demo_pallets : DisputePallets RefAssets := {|
  dp_currency := asset_currency;
  dp_balances := asset_balances;
  dp_court := runtime_court;
  dp_global_disputes := demo_gd;
  dp_authorized := demo_authorized;
  dp_unbalanced i l := ra_add Tru 2%N (Z.of_N i) l;
  dp_repatriate r x y v l := let '(m, l') := ra_release r Tru x y v l in (Ok m, l') |}.

#[global] Instance demo_runtime : Runtime := {| rt_pm := demo_pm; rt_disputes := demo_pallets |}.

(** Market 7 is the authority's, market 8 the court's; both are disputed. *)
Definition joint_market (id : Z) (d : MarketDisputeMechanism) : Market :=
  mkMarket id Tru 1%N Permissionless 0 3%N [] (CategoricalType 3) (BlockPeriod 0 5) (mkDeadlines 0 1 1)
    AmmCdaHybrid Disputed (Some (mkReport 6 3%N (Categorical 0))) None (Some d)
    (mkMarketBonds (Some (Bond_new 1%N 50)) (Some (Bond_new 1%N 80)) None (Some (Bond_new 4%N 300)) None None) None.
Definition joint_commons : MarketCommons :=
  mkCommons (<[7 := joint_market 7 Authorized]> (<[8 := joint_market 8 Court]> ∅)) (Some 9) ∅.
Definition joint_assets : RefAssets := mkAssets ∅
  (<[(pm_demo_id, (Tru, 1%N)) := 260]> (<[(pm_demo_id, (Tru, 4%N)) := 600]> ∅)).

Definition joint_court_info : CourtInfo :=
  mkCourt CourtOpen (replicate 4 (mkAppeal 4%N 10 (Outcome (Categorical 1)))) (mkTiming 10 20 30 40) OutcomeVotes.
Definition joint_court_state : CourtState (H := joint_court) :=
  mkState (H := joint_court) [] ∅ 0 ∅ {[ 0 := joint_court_info ]} 1 {[ 8 := 0 ]} {[ 0 := 8 ]} 0 0 0 joint_assets joint_commons ∅ [].
Definition joint_disputes : Mechanisms :=
  mkMechanisms (mkAuth (H := joint_authorized) {[ 7 := mkAuthorityReport 35 (Categorical 2) ]} ∅ joint_commons 0 [])
    (mkGd (H := joint_global_disputes) joint_assets ∅ ∅ ∅ ∅ joint_commons 0 []) joint_court_state.
Definition joint0 : PmState (H := joint_pm) :=
  mkPm (H := joint_pm) (mkCs joint_assets joint_commons []) ∅ ∅ None ∅ (<[35 := [7]]> (<[40 := [8]]> ∅)) ∅ ∅ ∅ None ∅ None None None ∅
    joint_disputes tt tt (mkRegistry (fun _ => None) (fun _ => None)) 35 0 [].

(** The authority's outcome wins over the oracle's. *)
Example authority_overrules :
  (Markets (pm_commons (H := joint_pm) (exec (pm_on_resolution (H := joint_pm) 7 (joint_market 7 Authorized)) joint0)) !! 7) ≫= resolved_outcome
    = Some (Categorical 2).
Proof. vm_compute. reflexivity. Qed.

Lemma disputed_outcome_witness : exists s' o m',
  pm_on_resolution (H := joint_pm) 7 (joint_market 7 Authorized) joint0 = (Ok tt, s') /\
  decided_by joint0 7 (joint_market 7 Authorized) (mkReport 6 3%N (Categorical 0)) o /\
  Markets (pm_commons s') !! 7 = Some m' /\ resolved_outcome m' = Some o.
Proof.
  assert (Hr : exists s', pm_on_resolution (H := joint_pm) 7 (joint_market 7 Authorized) joint0 = (Ok tt, s'))
    by (eexists; apply exec_ok; vm_compute; reflexivity).
  destruct Hr as [s' Hr].
  destruct (disputed_outcome joint0 7 (joint_market 7 Authorized) (mkReport 6 3%N (Categorical 0)) s' Hr eq_refl eq_refl) as (o & m' & Hd & Hm & _ & Ho).
  exists s', o, m'. split; [exact Hr|]. split; [exact Hd|]. split; [exact Hm|exact Ho].
Defined.

Lemma joint0_ids : ids_inv (d_court (pm_disputes (H := joint_pm) joint0)).
Proof.
  split_and!; cbn; [lia| |].
  - intros m c [<- <-]%lookup_singleton_Some. by rewrite lookup_singleton_eq.
  - intros c m [<- <-]%lookup_singleton_Some. lia.
Qed.

(** The court market can neither be resolved nor disputed again once it was
    handed over. *)
Lemma court_handover_stuck_witness : exists s',
  PmCalls.start_global_dispute (H := joint_pm) (Signed 4%N) 8 joint0 = (Ok tt, s') /\
  (forall u s3, pm_on_resolution (H := joint_pm) 8 (joint_market 8 Court) s' <> (Ok u, s3)) /\
  forall origin u s3, dispute (H := joint_pm) origin 8 s' <> (Ok u, s3).
Proof.
  assert (Hr : exists s', PmCalls.start_global_dispute (H := joint_pm) (Signed 4%N) 8 joint0 = (Ok tt, s') /\
    Markets (pm_commons s') !! 8 = Some (joint_market 8 Court)).
  { eexists. split; [apply exec_ok; vm_compute; reflexivity|vm_compute; reflexivity]. }
  destruct Hr as (s' & Hr & Hm).
  destruct (court_handover_stuck 4%N 8 joint0 s' joint0_ids Hr) as (m & cid & court & m' & _ & _ & _ & _ & _ & _ & _ & _ & _ & Hrun).
  destruct (Hrun s' (rtc_refl _ _)) as (_ & _ & Hno). exists s'. split; [exact Hr|].
  exact (Hno (joint_market 8 Court) Hm eq_refl eq_refl).
Defined.

Definition auth0 : AuthState (H := demo_authorized) := mkAuth (H := demo_authorized) ∅ ∅ joint_commons 20 [].

Lemma authority_decides_witness : exists s' s2,
  authorize_market_outcome (H := demo_authorized) Root 7 (Categorical 1) auth0 = (Ok tt, s') /\
  auth_get_auto_resolve (H := demo_authorized) 7 (joint_market 7 Authorized) s' = Some 7220 /\
  auth_on_resolution (H := demo_authorized) 7 (joint_market 7 Authorized) s' = (Ok (Some (Categorical 1)), s2).
Proof.
  assert (Hr : exists s', authorize_market_outcome (H := demo_authorized) Root 7 (Categorical 1) auth0 = (Ok tt, s'))
    by (eexists; apply exec_ok; vm_compute; reflexivity).
  destruct Hr as [s' Hr]. assert (Hq : reports_queued (H := demo_authorized) auth0) by (intros id r Hn; change ((∅ : gmap Z AuthorityReport) !! id = Some r) in Hn; by rewrite lookup_empty in Hn).
  assert (Hm : Markets (auth_commons auth0) !! 7 = Some (joint_market 7 Authorized)) by (vm_compute; reflexivity).
  destruct (authority_decides (H := demo_authorized) (DisputeResolutionLaws0 := pm_dispute_resolution_laws) Root 7 (Categorical 1) auth0 s'
    (joint_market 7 Authorized) Hq Hr Hm) as (_ & _ & Hget & _ & s2 & Hres & _).
  exists s', s2. split; [exact Hr|]. split; [exact Hget|exact Hres].
Defined.
