(* ===== verification/Watchtower.v ===== *)
(** * The watchtower pallet

    [pallets/watchtower/src/{lib,types,queue,vote,proxy}.rs]: proposals, the
    ring queue of internal proposals, voting, finalisation and clean-up.  Hashes, identifiers and signatures
    are numbers; block numbers, weights and vote counts [u32], the ends of the
    queue [u64].  Weight refunds and logs are left out. *)

From S2P Require Import Prelude Errors Collections Interfaces.

(** ** types.rs, and the types of [sp_avn_common::watchtower] it builds on

    Of the latter, the variants the pallets and their tests name; [OtherRule]
    and [OtherProposal] are any variant they do not. *)

Inductive ProposalType := Summary | Anchor | Governance | OtherProposal.
Inductive ProposalSource := Internal (t : ProposalType) | External.
Inductive DecisionRule := SimpleMajority | OtherRule.
Inductive ProposalStatusEnum :=
  Unknown | Queued | Active | Cancelled | Expired | Resolved (passed : bool).
Inductive RawPayload := RawInline (data : list Z) | RawUri (data : list Z).
Inductive Payload := Inline (data : list Z) | Uri (data : list Z).

#[global] Instance proposal_status_eq_dec : EqDecision ProposalStatusEnum.
Proof. solve_decision. Defined.
#[global] Instance decision_rule_eq_dec : EqDecision DecisionRule.
Proof. solve_decision. Defined.

Record ProposalRequest := mkRequest {
  req_title : list Z;
  req_payload : RawPayload;
  req_threshold : Z;
  req_source : ProposalSource;
  req_decision_rule : DecisionRule;
  req_external_ref : Z;
  req_created_at : Z;
  req_vote_duration : option Z }.

Record Proposal := mkProposal {
  title : list Z;
  payload : Payload;
  threshold : Z;
  source : ProposalSource;
  decision_rule : DecisionRule;
  external_ref : Z;
  proposer : option AccountId;
  created_at : Z;
  vote_duration : Z;
  end_at : option Z }.

Definition set_end_at x p :=
  mkProposal (title p) (payload p) (threshold p) (source p) (decision_rule p) (external_ref p)
    (proposer p) (created_at p) (vote_duration p) x.

Record Vote := mkVote { in_favors : Z; againsts : Z }.
Definition Vote_default : Vote := mkVote 0 0.

Inductive AdminConfig := ConfigMinVotingPeriod (period : Z) | ConfigAdminAccount (a : option AccountId).

(** What is signed: the contexts and parameters of [proxy.rs]. *)
Inductive SignedPayload :=
| SignedSubmitExternalProposal (relayer : AccountId) (proposal : ProposalRequest) (block_number : Z)
| SignedSubmitVote (relayer : AccountId) (proposal_id : Z) (in_favor : bool) (block_number : Z)
| UnsignedVote (proposal_id : Z) (in_favor : bool) (watchtower : AccountId).

(** ** The configuration *)

(** [WatchtowerHooks]: what happens to the state of the pallets behind it. *)
Class WatchtowerHooks (H : Type) := {
  on_proposal_submitted : Z -> Z -> Proposal -> H -> Res unit * H;
  on_voting_completed : Z -> Z -> ProposalStatusEnum -> H -> H }.

Class WatchtowerConfig := {
  SignedTxLifetime : Z;
  MaxTitleLen : Z;
  MaxInlineLen : Z;
  MaxUriLen : Z;
  MaxInternalProposalLen : Z;
  wt_per_things :: PerThings;
  HooksState : Type;
  wt_hooks :: WatchtowerHooks HooksState;
  (** [ExternalProposerOrigin::ensure_origin], which may depend on the pallet's
      administrator *)
  ExternalProposerOrigin : option AccountId -> Origin -> Res (option AccountId);
  (** [NodesInterface], over the state of the node registry *)
  NodesState : Type;
  is_authorized_watchtower : NodesState -> AccountId -> bool;
  is_watchtower_owner : NodesState -> AccountId -> bool;
  get_authorized_watchtowers_count : NodesState -> Z;
  get_watchtower_voting_weight : NodesState -> AccountId -> Z;
  get_node_signing_key : NodesState -> AccountId -> option Z;
  (** SCALE encoding, account and session-key signatures *)
  encode : SignedPayload -> list Z;
  verify_signature : Proof_ -> list Z -> bool;
  verify_session_signature : Z -> list Z -> Z -> bool;
  (** [ProposalStatusEnum::default] *)
  default_status : ProposalStatusEnum;
  (** [blake2_256] of the reference, creation block and duration *)
  proposal_hash : Z -> Z -> Z -> Z;
  (** the remaining weight of [on_idle] *)
  Meter : Type;
  consume_expiry_status : Meter -> option Meter;
  consume_finalise : Meter -> option Meter;
  consume_reads : Z -> Meter -> option Meter;
  consume_writes : Z -> Meter -> option Meter;
  (** the order storage iterates over keys in *)
  id_order : list Z -> list Z;
  voter_order : list AccountId -> list AccountId }.

Section Watchtower.
Context `{WatchtowerConfig}.

(** ** Storage *)

Inductive Event :=
| ProposalSubmitted (proposal_id external_ref : Z) (status : ProposalStatusEnum)
| VoteSubmitted (voter : AccountId) (proposal_id : Z) (in_favor : bool) (vote_weight : Z)
| VotingEnded (proposal_id external_ref : Z) (consensus_result : ProposalStatusEnum)
| ProposalCleaned (proposal_id : Z)
| MinVotingPeriodSet (new_period : Z)
| AdminAccountSet (new_admin : option AccountId).

Record WtState := mkWt {
  MinVotingPeriod : Z;
  ExternalRef : gmap Z Z;
  Proposals : gmap Z Proposal;
  ProposalStatus : gmap Z ProposalStatusEnum;
  Votes : gmap Z Vote;
  Voters : gmap Z (gmap AccountId bool);
  ActiveInternalProposal : option Z;
  InternalProposalQueue : gmap (Z * Z) Z;
  Head : Z;
  Tail : Z;
  ProposalsToRemove : gset Z;
  AdminAccount : option AccountId;
  block_number : Z;
  nodes : NodesState;
  hooks : HooksState;
  events : list Event }.

Definition set_MinVotingPeriod x s := mkWt x (ExternalRef s) (Proposals s) (ProposalStatus s)
  (Votes s) (Voters s) (ActiveInternalProposal s) (InternalProposalQueue s) (Head s) (Tail s)
  (ProposalsToRemove s) (AdminAccount s) (block_number s) (nodes s) (hooks s) (events s).
Definition set_ExternalRef x s := mkWt (MinVotingPeriod s) x (Proposals s) (ProposalStatus s)
  (Votes s) (Voters s) (ActiveInternalProposal s) (InternalProposalQueue s) (Head s) (Tail s)
  (ProposalsToRemove s) (AdminAccount s) (block_number s) (nodes s) (hooks s) (events s).
Definition set_Proposals x s := mkWt (MinVotingPeriod s) (ExternalRef s) x (ProposalStatus s)
  (Votes s) (Voters s) (ActiveInternalProposal s) (InternalProposalQueue s) (Head s) (Tail s)
  (ProposalsToRemove s) (AdminAccount s) (block_number s) (nodes s) (hooks s) (events s).
Definition set_ProposalStatus x s := mkWt (MinVotingPeriod s) (ExternalRef s) (Proposals s) x
  (Votes s) (Voters s) (ActiveInternalProposal s) (InternalProposalQueue s) (Head s) (Tail s)
  (ProposalsToRemove s) (AdminAccount s) (block_number s) (nodes s) (hooks s) (events s).
Definition set_Votes x s := mkWt (MinVotingPeriod s) (ExternalRef s) (Proposals s)
  (ProposalStatus s) x (Voters s) (ActiveInternalProposal s) (InternalProposalQueue s) (Head s)
  (Tail s) (ProposalsToRemove s) (AdminAccount s) (block_number s) (nodes s) (hooks s) (events
  s).
Definition set_Voters x s := mkWt (MinVotingPeriod s) (ExternalRef s) (Proposals s)
  (ProposalStatus s) (Votes s) x (ActiveInternalProposal s) (InternalProposalQueue s) (Head s)
  (Tail s) (ProposalsToRemove s) (AdminAccount s) (block_number s) (nodes s) (hooks s) (events
  s).
Definition set_ActiveInternalProposal x s := mkWt (MinVotingPeriod s) (ExternalRef s) (Proposals
  s) (ProposalStatus s) (Votes s) (Voters s) x (InternalProposalQueue s) (Head s) (Tail s)
  (ProposalsToRemove s) (AdminAccount s) (block_number s) (nodes s) (hooks s) (events s).
Definition set_InternalProposalQueue x s := mkWt (MinVotingPeriod s) (ExternalRef s) (Proposals
  s) (ProposalStatus s) (Votes s) (Voters s) (ActiveInternalProposal s) x (Head s) (Tail s)
  (ProposalsToRemove s) (AdminAccount s) (block_number s) (nodes s) (hooks s) (events s).
Definition set_Head x s := mkWt (MinVotingPeriod s) (ExternalRef s) (Proposals s)
  (ProposalStatus s) (Votes s) (Voters s) (ActiveInternalProposal s) (InternalProposalQueue s) x
  (Tail s) (ProposalsToRemove s) (AdminAccount s) (block_number s) (nodes s) (hooks s) (events
  s).
Definition set_Tail x s := mkWt (MinVotingPeriod s) (ExternalRef s) (Proposals s)
  (ProposalStatus s) (Votes s) (Voters s) (ActiveInternalProposal s) (InternalProposalQueue s)
  (Head s) x (ProposalsToRemove s) (AdminAccount s) (block_number s) (nodes s) (hooks s) (events
  s).
Definition set_ProposalsToRemove x s := mkWt (MinVotingPeriod s) (ExternalRef s) (Proposals s)
  (ProposalStatus s) (Votes s) (Voters s) (ActiveInternalProposal s) (InternalProposalQueue s)
  (Head s) (Tail s) x (AdminAccount s) (block_number s) (nodes s) (hooks s) (events s).
Definition set_AdminAccount x s := mkWt (MinVotingPeriod s) (ExternalRef s) (Proposals s)
  (ProposalStatus s) (Votes s) (Voters s) (ActiveInternalProposal s) (InternalProposalQueue s)
  (Head s) (Tail s) (ProposalsToRemove s) x (block_number s) (nodes s) (hooks s) (events s).
Definition set_block_number x s := mkWt (MinVotingPeriod s) (ExternalRef s) (Proposals s)
  (ProposalStatus s) (Votes s) (Voters s) (ActiveInternalProposal s) (InternalProposalQueue s)
  (Head s) (Tail s) (ProposalsToRemove s) (AdminAccount s) x (nodes s) (hooks s) (events s).
Definition set_nodes x s := mkWt (MinVotingPeriod s) (ExternalRef s) (Proposals s)
  (ProposalStatus s) (Votes s) (Voters s) (ActiveInternalProposal s) (InternalProposalQueue s)
  (Head s) (Tail s) (ProposalsToRemove s) (AdminAccount s) (block_number s) x (hooks s) (events
  s).
Definition set_hooks x s := mkWt (MinVotingPeriod s) (ExternalRef s) (Proposals s)
  (ProposalStatus s) (Votes s) (Voters s) (ActiveInternalProposal s) (InternalProposalQueue s)
  (Head s) (Tail s) (ProposalsToRemove s) (AdminAccount s) (block_number s) (nodes s) x (events
  s).
Definition set_events x s := mkWt (MinVotingPeriod s) (ExternalRef s) (Proposals s)
  (ProposalStatus s) (Votes s) (Voters s) (ActiveInternalProposal s) (InternalProposalQueue s)
  (Head s) (Tail s) (ProposalsToRemove s) (AdminAccount s) (block_number s) (nodes s) (hooks s)
  x.

Abbreviation WtM := (ST DispatchError WtState).

Definition wt_error (e : WatchtowerError) : DispatchError := Module_ (WatchtowerErr e).
Definition deposit_event (e : Event) : WtM unit := modify (fun s => set_events (events s ++ [e]) s).
Definition put_status (i : Z) (x : ProposalStatusEnum) : WtM unit :=
  modify (fun s => set_ProposalStatus (<[i := x]> (ProposalStatus s)) s).
(** The value queries have defaults. *)
Definition status_of (s : WtState) (i : Z) : ProposalStatusEnum := default default_status (ProposalStatus s !! i).
Definition votes_of (s : WtState) (i : Z) : Vote := default Vote_default (Votes s !! i).
Definition voters_of (s : WtState) (i : Z) : gmap AccountId bool := default ∅ (Voters s !! i).

(** Hooks run on their own state. *)
Definition run_submitted_hook (proposal_id : Z) (p : Proposal) : WtM unit := fun s =>
  let '(r, h) := on_proposal_submitted (block_number s) proposal_id p (hooks s) in (r, set_hooks h s).
Definition run_completed_hook (proposal_id ref : Z) (x : ProposalStatusEnum) : WtM unit :=
  modify (fun s => set_hooks (on_voting_completed proposal_id ref x (hooks s)) s).

(** ** types.rs: building proposals *)

Definition to_payload (raw : RawPayload) : Res Payload :=
  match raw with
  | RawInline data =>
      ensure (Z.of_nat (length data) <=? MaxInlineLen) (wt_error InvalidInlinePayload) ;; Ok (Inline data)
  | RawUri data =>
      ensure (Z.of_nat (length data) <=? MaxUriLen) (wt_error InvalidUri) ;; Ok (Uri data)
  end.

Definition is_valid (min_voting_period current_block : Z) (p : Proposal) : bool :=
  let base_is_valid :=
    negb (bool_decide (title p = [])) && negb (external_ref p =? 0) &&
    (saturated_into 32 min_voting_period <=? vote_duration p) && (threshold p <=? 10 ^ 9) &&
    (created_at p <=? current_block) in
  let payload_valid :=
    match payload p with
    | Inline data => negb (bool_decide (data = [])) && match source p with Internal _ => true | External => false end
    | Uri data => negb (bool_decide (data = [])) && match source p with External => true | Internal _ => false end
    end in
  base_is_valid && payload_valid.

Definition to_proposal (min_voting_period : Z) (request : ProposalRequest)
    (proposer : option AccountId) (current_block : Z) : Res Proposal :=
  let min_vote_duration := saturated_into 32 min_voting_period in
  let vote_duration := default min_vote_duration (req_vote_duration request) in
  if vote_duration <? min_vote_duration then Err (wt_error VotingPeriodTooShort) else
  ensure (Z.of_nat (length (req_title request)) <=? MaxTitleLen) (wt_error InvalidTitle) ;;
  payload ← to_payload (req_payload request);
  let proposal := mkProposal (req_title request) payload (req_threshold request) (req_source request)
    (req_decision_rule request) (req_external_ref request) proposer (req_created_at request)
    vote_duration None in
  ensure (is_valid min_voting_period current_block proposal) (wt_error InvalidProposal) ;;
  Ok proposal.

Definition generate_id (p : Proposal) : Z :=
  proposal_hash (external_ref p) (created_at p) (vote_duration p).

(** ** queue.rs: the ring queue *)

Definition cap : Z := MaxInternalProposalLen.
Definition len (s : WtState) : Z := saturating_sub (Tail s) (Head s).
Definition is_empty (s : WtState) : bool := len s =? 0.
Definition is_full (s : WtState) : bool := cap <=? len s.

(** The slot of the default queue; [(n % cap) as u32]. *)
Definition slot (n : Z) : Z * Z := (0, (n mod cap) mod 2 ^ 32).

Definition enqueue (proposal_id : Z) : WtM unit :=
  s ← get;
  lift (ensure (negb (is_full s)) (wt_error InnerProposalQueueFull)) ;;
  let tail := Tail s in
  lift (ensure (negb (bool_decide (is_Some (InternalProposalQueue s !! slot tail))))
          (wt_error QueueCorruptState)) ;;
  modify (fun s => set_InternalProposalQueue (<[slot tail := proposal_id]> (InternalProposalQueue s)) s) ;;
  modify (set_Tail (wrapping_add 64 tail 1)).

Definition dequeue : WtM Z :=
  s ← get;
  lift (ensure (negb (is_empty s)) (wt_error QueueEmpty)) ;;
  let head := Head s in
  proposal_id ← lift (ok_or (InternalProposalQueue s !! slot head) (wt_error QueueCorruptState));
  modify (fun s => set_InternalProposalQueue (delete (slot head) (InternalProposalQueue s)) s) ;;
  modify (set_Head (wrapping_add 64 head 1)) ;;
  mret proposal_id.

Definition peek_front (s : WtState) : Res (option (Z * Proposal)) :=
  if is_empty s then Ok None else
  proposal_id ← ok_or (InternalProposalQueue s !! slot (Head s)) (wt_error QueueCorruptState);
  item ← ok_or (Proposals s !! proposal_id) (wt_error QueueCorruptState);
  Ok (Some (proposal_id, item)).

(** ** vote.rs *)

Definition threshold_achieved (s : WtState) (proposal_id thr : Z) : option bool :=
  let vote := votes_of s proposal_id in
  let total_voters := get_authorized_watchtowers_count (nodes s) in
  if total_voters =? 0 then None else
  let min_votes := perbill_mul_ceil thr total_voters in
  if min_votes <=? in_favors vote then Some true
  else if min_votes <=? againsts vote then Some false
  else None.

Definition get_proposal_status (result : bool) : ProposalStatusEnum :=
  if result then Resolved true else Resolved false.

Definition get_vote_result_on_expiry (s : WtState) (proposal_id : Z) (p : Proposal) :
    ProposalStatusEnum :=
  match source p with
  | Internal _ => Expired
  | External =>
      let votes := votes_of s proposal_id in
      if bool_decide (decision_rule p = SimpleMajority) && (againsts votes <? in_favors votes)
      then Resolved true else Resolved false
  end.

(** Make the next queued internal proposal the active one. *)
Definition activate_next : WtM unit :=
  modify (set_ActiveInternalProposal None) ;;
  r ← attempt dequeue;
  match r with
  | Ok next_proposal_id =>
      modify (set_ActiveInternalProposal (Some next_proposal_id)) ;;
      put_status next_proposal_id Active ;;
      s ← get;
      p ← lift (ok_or (Proposals s !! next_proposal_id) (wt_error ProposalNotFound));
      let updated := set_end_at (Some (wrapping_add 32 (block_number s) (vote_duration p))) p in
      modify (fun s => set_Proposals (<[next_proposal_id := updated]> (Proposals s)) s) ;;
      run_submitted_hook next_proposal_id updated
  | Err _ => mret tt
  end.

Definition finalise_voting (proposal_id : Z) (p : Proposal) (consensus_result : ProposalStatusEnum) :
    WtM unit :=
  put_status proposal_id consensus_result ;;
  run_completed_hook proposal_id (external_ref p) consensus_result ;;
  deposit_event (VotingEnded proposal_id (external_ref p) consensus_result) ;;
  match source p with Internal _ => activate_next | External => mret tt end ;;
  modify (fun s => set_ProposalsToRemove ({[proposal_id]} ∪ ProposalsToRemove s) s).

Definition finalise_expired_voting (proposal_id : Z) (p : Proposal) : WtM unit :=
  s ← get;
  finalise_voting proposal_id p (get_vote_result_on_expiry s proposal_id p).

Definition proposal_expired (current_block : Z) (p : Proposal) : bool :=
  default 0 (end_at p) <=? current_block.

Definition get_finalised_consensus_result (s : WtState) (proposal_id : Z) (p : Proposal)
    (current_block : Z) : option ProposalStatusEnum :=
  match threshold_achieved s proposal_id (threshold p) with
  | Some result => Some (get_proposal_status result)
  | None =>
      if proposal_expired current_block p then Some (get_vote_result_on_expiry s proposal_id p)
      else None
  end.

Definition active_proposal_expiry_status (s : WtState) (now : Z) : option (Z * Proposal * bool) :=
  proposal_id ← ActiveInternalProposal s;
  active_proposal ← Proposals s !! proposal_id;
  Some (proposal_id, active_proposal, proposal_expired now active_proposal).

(** ** lib.rs *)

(** The part of [add_proposal] that decides between active and queued. *)
Definition place_proposal (proposal_id : Z) (proposal : Proposal) : WtM (Proposal * ProposalStatusEnum) :=
  s ← get;
  let ends :=
    set_end_at (Some (saturating_add 32 (block_number s) (vote_duration proposal))) proposal in
  match source proposal with
  | Internal _ =>
      match ActiveInternalProposal s with
      | None =>
          modify (set_ActiveInternalProposal (Some proposal_id)) ;;
          mret (ends, Active)
      | Some _ => enqueue proposal_id ;; mret (proposal, Queued)
      end
  | External => mret (ends, Active)
  end.

(** The part that stores it. *)
Definition store_proposal (proposal_id : Z) (proposal : Proposal) (status : ProposalStatusEnum) : WtM unit :=
  put_status proposal_id status ;;
  modify (fun s => set_Proposals (<[proposal_id := proposal]> (Proposals s)) s) ;;
  modify (fun s => set_ExternalRef (<[external_ref proposal := proposal_id]> (ExternalRef s)) s) ;;
  (if decide (status = Active) then run_submitted_hook proposal_id proposal else mret tt) ;;
  deposit_event (ProposalSubmitted proposal_id (external_ref proposal) status).

Definition add_proposal (proposer : option AccountId) (request : ProposalRequest) : WtM unit :=
  s ← get;
  proposal ← lift (to_proposal (MinVotingPeriod s) request proposer (block_number s));
  lift (ensure (negb (bool_decide (is_Some (ExternalRef s !! external_ref proposal))))
          (wt_error DuplicateExternalRef)) ;;
  let proposal_id := generate_id proposal in
  lift (ensure (negb (bool_decide (is_Some (Proposals s !! proposal_id))))
          (wt_error DuplicateProposal)) ;;
  '(proposal, status) ← place_proposal proposal_id proposal;
  store_proposal proposal_id proposal status.

Definition add_vote (in_favor : bool) (vote_weight : Z) (v : Vote) : Vote :=
  if in_favor then mkVote (saturating_add 32 (in_favors v) vote_weight) (againsts v)
  else mkVote (in_favors v) (saturating_add 32 (againsts v) vote_weight).

(** The part of [process_vote] that checks the voter and weighs the vote. *)
Definition weigh_vote (s : WtState) (proposal_id : Z) (proposal : Proposal) (voter : AccountId) : Res Z :=
  match source proposal with
  | Internal _ =>
      ensure (is_authorized_watchtower (nodes s) voter) (wt_error UnauthorizedVoter) ;;
      ensure (bool_decide (ActiveInternalProposal s = Some proposal_id)) (wt_error CorruptedState) ;;
      Ok 1
  | External =>
      ensure (is_watchtower_owner (nodes s) voter) (wt_error UnauthorizedVoter) ;;
      let vote_weight := get_watchtower_voting_weight (nodes s) voter in
      ensure (0 <? vote_weight) (wt_error UnauthorizedVoter) ;;
      Ok vote_weight
  end.

Definition process_vote (voter : AccountId) (proposal_id : Z) (in_favor : bool) : WtM bool :=
  s ← get;
  proposal ← lift (ok_or (Proposals s !! proposal_id) (wt_error ProposalNotFound));
  lift (ensure (bool_decide (status_of s proposal_id = Active)) (wt_error ProposalNotActive)) ;;
  let current_block := block_number s in
  if proposal_expired current_block proposal then
    finalise_expired_voting proposal_id proposal ;; mret true
  else
  lift (ensure (negb (bool_decide (is_Some (voters_of s proposal_id !! voter)))) (wt_error AlreadyVoted)) ;;
  vote_weight ← lift (weigh_vote s proposal_id proposal voter);
  modify (fun s => set_Voters (<[proposal_id := <[voter := in_favor]> (voters_of s proposal_id)]> (Voters s)) s) ;;
  modify (fun s => set_Votes (<[proposal_id := add_vote in_favor vote_weight (votes_of s proposal_id)]>
                    (Votes s)) s) ;;
  deposit_event (VoteSubmitted voter proposal_id in_favor vote_weight) ;;
  s ← get;
  match get_finalised_consensus_result s proposal_id proposal current_block with
  | Some result => finalise_voting proposal_id proposal result ;; mret true
  | None => mret false
  end.

(** ** proxy.rs *)

Definition encode_signed_submit_external_proposal_params (relayer : AccountId)
    (proposal : ProposalRequest) (block_number : Z) : list Z :=
  encode (SignedSubmitExternalProposal relayer proposal block_number).

Definition encode_signed_submit_vote_params (relayer : AccountId) (proposal_id : Z)
    (in_favor : bool) (block_number : Z) : list Z :=
  encode (SignedSubmitVote relayer proposal_id in_favor block_number).

Definition offchain_signature_is_valid (data : SignedPayload) (signer signature : Z) : bool :=
  verify_session_signature signer (encode data) signature.

(** ** The calls *)

Inductive Call :=
| submit_external_proposal_call (proposal : ProposalRequest)
| signed_submit_external_proposal_call (proof : Proof_) (proposal : ProposalRequest) (block_number : Z)
| vote_call (proposal_id : Z) (in_favor : bool)
| signed_vote_call (proof : Proof_) (proposal_id : Z) (in_favor : bool) (block_number : Z)
| unsigned_vote_call (proposal_id : Z) (in_favor : bool) (watchtower : AccountId) (signature : Z)
| finalise_proposal_call (proposal_id : Z)
| set_admin_config_call (config : AdminConfig).

Definition is_external (x : ProposalSource) : bool :=
  match x with External => true | Internal _ => false end.

Definition submit_external_proposal (origin : Origin) (proposal : ProposalRequest) : WtM unit :=
  s ← get;
  proposer ← lift (ExternalProposerOrigin (AdminAccount s) origin);
  lift (ensure (is_external (req_source proposal)) (wt_error InvalidProposalSource)) ;;
  add_proposal proposer proposal.

Definition signed_submit_external_proposal (origin : Origin) (proof : Proof_)
    (proposal : ProposalRequest) (signed_at : Z) : WtM unit :=
  s ← get;
  proposer ← lift (ExternalProposerOrigin (AdminAccount s) origin);
  lift (ensure (is_external (req_source proposal)) (wt_error InvalidProposalSource)) ;;
  lift (ensure (bool_decide (proposer = Some (signer proof))) (wt_error SenderIsNotSigner)) ;;
  s ← get;
  lift (ensure (block_number s <? saturating_add 32 signed_at SignedTxLifetime)
          (wt_error SignedTransactionExpired)) ;;
  let signed_payload :=
    encode_signed_submit_external_proposal_params (relayer proof) proposal signed_at in
  lift (ensure (verify_signature proof signed_payload) (wt_error UnauthorizedSignedTransaction)) ;;
  add_proposal proposer proposal.

Definition vote (origin : Origin) (proposal_id : Z) (in_favor : bool) : WtM bool :=
  owner ← lift (ensure_signed origin);
  process_vote owner proposal_id in_favor.

Definition signed_vote (origin : Origin) (proof : Proof_) (proposal_id : Z) (in_favor : bool)
    (signed_at : Z) : WtM bool :=
  owner ← lift (ensure_signed origin);
  lift (ensure (bool_decide (owner = signer proof)) (wt_error SenderIsNotSigner)) ;;
  s ← get;
  lift (ensure (block_number s <? saturating_add 32 signed_at SignedTxLifetime)
          (wt_error SignedTransactionExpired)) ;;
  let signed_payload :=
    encode_signed_submit_vote_params (relayer proof) proposal_id in_favor signed_at in
  lift (ensure (verify_signature proof signed_payload) (wt_error UnauthorizedSignedTransaction)) ;;
  process_vote owner proposal_id in_favor.

Definition unsigned_vote (origin : Origin) (proposal_id : Z) (in_favor : bool)
    (watchtower : AccountId) (signature : Z) : WtM bool :=
  lift (ensure_none origin) ;;
  s ← get;
  lift (ensure (bool_decide (ActiveInternalProposal s = Some proposal_id))
          (wt_error InvalidProposalForUnsignedVote)) ;;
  voter_signing_key ← lift (ok_or (get_node_signing_key (nodes s) watchtower)
                              (wt_error VoterSigningKeyNotFound));
  lift (ensure (offchain_signature_is_valid (UnsignedVote proposal_id in_favor watchtower)
                  voter_signing_key signature) (wt_error UnauthorizedUnsignedTransaction)) ;;
  process_vote watchtower proposal_id in_favor.

Definition finalise_proposal (origin : Origin) (proposal_id : Z) : WtM unit :=
  lift (ensure_signed origin) ;;
  s ← get;
  proposal ← lift (ok_or (Proposals s !! proposal_id) (wt_error ProposalNotFound));
  lift (ensure (bool_decide (status_of s proposal_id = Active)) (wt_error ProposalNotActive)) ;;
  lift (ensure (proposal_expired (block_number s) proposal) (wt_error ProposalVotingPeriodNotEnded)) ;;
  finalise_expired_voting proposal_id proposal.

Definition set_admin_config (origin : Origin) (config : AdminConfig) : WtM unit :=
  lift (ensure_root origin) ;;
  match config with
  | ConfigMinVotingPeriod period =>
      modify (set_MinVotingPeriod period) ;; deposit_event (MinVotingPeriodSet period)
  | ConfigAdminAccount admin_account =>
      modify (set_AdminAccount admin_account) ;; deposit_event (AdminAccountSet admin_account)
  end.

(** A dispatched call runs in a transactional layer; its weight is dropped. *)
Definition dispatch (origin : Origin) (call : Call) : WtM unit :=
  transactional
    match call with
    | submit_external_proposal_call p => submit_external_proposal origin p
    | signed_submit_external_proposal_call proof p b => signed_submit_external_proposal origin proof p b
    | vote_call i v => vote origin i v ;; mret tt
    | signed_vote_call proof i v b => signed_vote origin proof i v b ;; mret tt
    | unsigned_vote_call i v w sig => unsigned_vote origin i v w sig ;; mret tt
    | finalise_proposal_call i => finalise_proposal origin i
    | set_admin_config_call c => set_admin_config origin c
    end.

Definition get_encoded_call_param (call : Call) : option (Proof_ * list Z) :=
  match call with
  | signed_submit_external_proposal_call proof proposal b =>
      Some (proof, encode_signed_submit_external_proposal_params (relayer proof) proposal b)
  | signed_vote_call proof proposal_id in_favor b =>
      Some (proof, encode_signed_submit_vote_params (relayer proof) proposal_id in_favor b)
  | _ => None
  end.

(** [InnerCallValidator::signature_is_valid]. *)
Definition signature_is_valid (call : Call) : bool :=
  match get_encoded_call_param call with
  | Some (proof, signed_payload) => verify_signature proof signed_payload
  | None => false
  end.

(** What the pool says of an unsigned call; the tags, the priority and the
    longevity of a valid one are left out. *)
Inductive PoolValidity := Valid (provides : AccountId * Z) | InvalidCustom (code : Z) | InvalidCall.
Definition INVALID_WATCHTOWER : Z := 2.

Definition validate_unsigned (s : WtState) (call : Call) : PoolValidity :=
  match call with
  | unsigned_vote_call proposal_id _ watchtower _ =>
      if negb (is_authorized_watchtower (nodes s) watchtower) then InvalidCustom INVALID_WATCHTOWER
      else Valid (watchtower, proposal_id)
  | _ => InvalidCall
  end.

(** [WatchtowerInterface], for the other pallets. *)
Definition proposal_admin (s : WtState) : Res AccountId :=
  ok_or (AdminAccount s) (wt_error AdminAccountNotSet).
Definition get_proposer (s : WtState) (proposal_id : Z) : option AccountId :=
  p ← Proposals s !! proposal_id; proposer p.
Definition submit_proposal (proposer : option AccountId) (proposal : ProposalRequest) : WtM unit :=
  add_proposal proposer proposal.

(** ** Clean-up when a block has weight left *)

Definition MAX_VOTERS : nat := 250.

(** The voters whose entries there is weight to read, and what is left. *)
Fixpoint collect_voters (m : Meter) (l : list AccountId) : list AccountId * Meter :=
  match l with
  | [] => ([], m)
  | who :: l =>
      match consume_reads 1 m with
      | None => ([], m)
      | Some m1 => let '(to_delete, m2) := collect_voters m1 l in (who :: to_delete, m2)
      end
  end.

Definition remove_voter (proposal_id : Z) (who : AccountId) (s : WtState) : WtState :=
  set_Voters (<[proposal_id := delete who (voters_of s proposal_id)]> (Voters s)) s.

Fixpoint delete_voters (proposal_id : Z) (m : Meter) (l : list AccountId) (s : WtState) :
    Meter * WtState :=
  match l with
  | [] => (m, s)
  | who :: l =>
      match consume_writes 1 m with
      | None => (m, s)
      | Some m1 => delete_voters proposal_id m1 l (remove_voter proposal_id who s)
      end
  end.

Definition voters_iter (s : WtState) (proposal_id : Z) : list AccountId :=
  voter_order (map_to_list (voters_of s proposal_id)).*1.

(** The second half of [cleanup_proposals]: one finished proposal. *)
Definition remove_completed (m : Meter) (s : WtState) : WtState :=
  match consume_reads 1 m with
  | None => s
  | Some m =>
      match head (id_order (elements (ProposalsToRemove s))) with
      | None => s
      | Some proposal_id =>
          let '(to_delete, m) := collect_voters m (take MAX_VOTERS (voters_iter s proposal_id)) in
          let '(m, s) := delete_voters proposal_id m to_delete s in
          match consume_reads 1 m with
          | None => s
          | Some m =>
              if bool_decide (voters_iter s proposal_id = []) then
                match consume_writes 4 m with
                | None => s
                | Some _ =>
                    let s := set_Proposals (delete proposal_id (Proposals s)) s in
                    let s := set_Votes (delete proposal_id (Votes s)) s in
                    let s := set_ProposalsToRemove (ProposalsToRemove s ∖ {[proposal_id]}) s in
                    exec (deposit_event (ProposalCleaned proposal_id)) s
                end
              else s
          end
      end
  end.

Definition cleanup_proposals (now : Z) (m : Meter) (s : WtState) : WtState :=
  match consume_expiry_status m with
  | None => s
  | Some m =>
      match active_proposal_expiry_status s now with
      | Some (proposal_id, active_proposal, true) =>
          match consume_finalise m with
          | None => s
          (* an error is logged; what was written before it stays *)
          | Some m => remove_completed m (exec (finalise_expired_voting proposal_id active_proposal) s)
          end
      | Some (_, _, false) => s
      | None => remove_completed m s
      end
  end.

Definition on_idle (n : Z) (m : Meter) (s : WtState) : WtState := cleanup_proposals n m s.
End Watchtower.
