(* ===== verification/WatchtowerQueue.v ===== *)
(** * The ring queue of internal proposals is a FIFO list

    [pallets/watchtower/src/queue.rs] keeps the queue in a map from slot
    numbers below [cap] to proposal ids, between two counters that only grow.
    [ring s q] says that the storage [s] holds the list [q]; [enqueue] then
    appends to it and [dequeue] takes its head, as long as the counter of
    enqueued items stays below [2 ^ 64]. *)

From S2P Require Import Prelude Errors Collections Interfaces Watchtower.

(** The capacity is a [u32]; storage iteration visits every key once. *)
Class WatchtowerLaws `{WatchtowerConfig} : Prop := {
  cap_range : 0 <= MaxInternalProposalLen <= umax 32;
  id_order_perm : forall l, id_order l ≡ₚ l;
  voter_order_perm : forall l, voter_order l ≡ₚ l }.

Section Ring.
Context `{WatchtowerLaws}.

Record ring (s : WtState) (q : list Z) : Prop := {
  ring_head : 0 <= Head s;
  ring_tail : Tail s = Head s + Z.of_nat (length q);
  ring_cap : Z.of_nat (length q) <= cap;
  ring_lookup : forall n, (n < length q)%nat ->
    InternalProposalQueue s !! slot (Head s + Z.of_nat n) = q !! n;
  ring_used : forall k x, InternalProposalQueue s !! k = Some x ->
    exists n, (n < length q)%nat /\ k = slot (Head s + Z.of_nat n) }.

Lemma ring_len s q : ring s q -> len s = Z.of_nat (length q).
Proof. intros [? ? ? ? ?]. unfold len, saturating_sub. lia. Qed.

(** Within a window of [cap] counters no two share a slot. *)
Lemma slot_inj a b : a <= b < a + cap -> slot a = slot b -> a = b.
Proof.
  intros Hab [= Heq]. pose proof cap_range as Hc. rewrite umax_32 in Hc.
  change MaxInternalProposalLen with cap in Hc. assert (Hp : 0 < cap) by lia.
  pose proof (Z.mod_pos_bound a cap Hp). pose proof (Z.mod_pos_bound b cap Hp).
  rewrite (Z.mod_small (a mod cap)), (Z.mod_small (b mod cap)) in Heq by (cbn; lia).
  assert (Hnz : cap <> 0) by lia.
  pose proof (Z.div_mod a cap Hnz). pose proof (Z.div_mod b cap Hnz).
  assert (Hd : b - a = cap * (b / cap - a / cap)) by lia.
  remember (b / cap - a / cap) as d eqn:Ed. clear - Hd Hab Hp.
  destruct (Z.lt_trichotomy d 0) as [|[->|]]; nia.
Qed.

Lemma slot_window h i j : 0 <= i < cap -> 0 <= j < cap -> slot (h + i) = slot (h + j) -> i = j.
Proof.
  intros Hi Hj Hs. destruct (decide (i <= j)).
  - pose proof (slot_inj (h + i) (h + j) ltac:(lia) Hs). lia.
  - pose proof (slot_inj (h + j) (h + i) ltac:(lia) (eq_sym Hs)). lia.
Qed.

(** The queue reads only these three entries of the storage. *)
Lemma ring_frame s s' q :
  InternalProposalQueue s' = InternalProposalQueue s -> Head s' = Head s -> Tail s' = Tail s ->
  ring s q -> ring s' q.
Proof. intros Hi Hh Ht [? ? ? ? ?]. split; rewrite ?Hi, ?Hh, ?Ht; done. Qed.

Lemma ring_push s q id :
  ring s q -> Z.of_nat (length q) < cap ->
  ring (set_Tail (Tail s + 1)
         (set_InternalProposalQueue (<[slot (Tail s) := id]> (InternalProposalQueue s)) s)) (q ++ [id]).
Proof.
  intros [Hh Ht Hc Hl Hu] Hlt. split; cbn.
  - done.
  - rewrite length_app. cbn. lia.
  - rewrite length_app. cbn. lia.
  - intros n Hn. rewrite length_app in Hn. cbn in Hn. destruct (decide (n = length q)) as [->|Hne].
    + rewrite Ht, lookup_insert_eq. by rewrite lookup_app_r, Nat.sub_diag by lia.
    + rewrite lookup_insert_ne, Hl, lookup_app_l by first
        [lia | intros Hs; rewrite Ht in Hs; apply slot_window in Hs; lia]. done.
  - intros k x Hk. rewrite length_app. cbn. destruct (decide (slot (Tail s) = k)) as [<-|Hne].
    + exists (length q). rewrite Ht. split; [lia|done].
    + rewrite lookup_insert_ne in Hk by done. destruct (Hu k x Hk) as (n & Hn & ->).
      exists n. split; [lia|done].
Qed.

Lemma ring_pop s q id :
  ring s (id :: q) ->
  ring (set_Head (Head s + 1)
         (set_InternalProposalQueue (delete (slot (Head s)) (InternalProposalQueue s)) s)) q.
Proof.
  intros [Hh Ht Hc Hl Hu]. cbn in *. split; cbn.
  - lia.
  - lia.
  - lia.
  - intros n Hn. rewrite lookup_delete_ne.
    + specialize (Hl (S n) ltac:(lia)). rewrite Nat2Z.inj_succ in Hl.
      change (q !! n) with ((id :: q) !! S n). rewrite <- Hl. do 2 f_equal. lia.
    + intros Hs. rewrite <- Z.add_assoc in Hs. rewrite <- (Z.add_0_r (Head s)) in Hs at 1.
      apply slot_window in Hs; lia.
  - intros k x Hk. destruct (decide (slot (Head s) = k)) as [<-|Hne].
    + by rewrite lookup_delete_eq in Hk.
    + rewrite lookup_delete_ne in Hk by done. destruct (Hu k x Hk) as (n & Hn & ->).
      destruct n as [|n]; [by rewrite Z.add_0_r in Hne|]. exists n. split; [lia|]. f_equal. lia.
Qed.

(** [slot tail] is free unless the queue is full: [QueueCorruptState] does not
    occur. *)
Lemma ring_tail_free s q :
  ring s q -> Z.of_nat (length q) < cap -> InternalProposalQueue s !! slot (Tail s) = None.
Proof.
  intros [Hh Ht Hc Hl Hu] Hlt. apply eq_None_not_Some. intros [x Hx].
  destruct (Hu _ _ Hx) as (n & Hn & Hs). rewrite Ht in Hs. apply slot_window in Hs; lia.
Qed.

Lemma wrapping_succ n : 0 <= n -> n + 1 < 2 ^ 64 -> wrapping_add 64 n 1 = n + 1.
Proof. intros. unfold wrapping_add. rewrite Z.mod_small; lia. Qed.

Lemma enqueue_run s q id :
  ring s q -> Tail s + 1 < 2 ^ 64 ->
  enqueue id s =
    if decide (Z.of_nat (length q) < cap) then
      (Ok tt, set_Tail (Tail s + 1)
         (set_InternalProposalQueue (<[slot (Tail s) := id]> (InternalProposalQueue s)) s))
    else (Err (wt_error InnerProposalQueueFull), s).
Proof.
  intros Hr Hb. pose proof (ring_len s q Hr) as Hlen. pose proof (ring_head s q Hr).
  pose proof (ring_tail s q Hr). unfold enqueue.
  unfold mbind, st_bind, get, lift, ensure, is_full. rewrite Hlen. case_decide as Hd.
  - rewrite (proj2 (Z.leb_gt _ _)) by lia. cbn. rewrite (ring_tail_free s q Hr Hd). cbn.
    by rewrite wrapping_succ by lia.
  - by rewrite (proj2 (Z.leb_le _ _)) by lia.
Qed.

Lemma dequeue_run s q :
  ring s q -> Tail s < 2 ^ 64 ->
  dequeue s =
    match q with
    | [] => (Err (wt_error QueueEmpty), s)
    | id :: _ => (Ok id, set_Head (Head s + 1)
         (set_InternalProposalQueue (delete (slot (Head s)) (InternalProposalQueue s)) s))
    end.
Proof.
  intros Hr Hb. pose proof (ring_len s q Hr) as Hlen. pose proof (ring_head s q Hr) as Hh.
  pose proof (ring_tail s q Hr) as Ht. unfold dequeue.
  unfold mbind, st_bind, get, lift, ensure, is_empty. rewrite Hlen. destruct q as [|id q]; cbn; [done|].
  pose proof (ring_lookup _ _ Hr 0%nat ltac:(cbn; lia)) as Hx. cbn in Hx. rewrite Z.add_0_r in Hx.
  rewrite Hx. cbn in *. by rewrite wrapping_succ by lia.
Qed.

Lemma peek_front_run s q :
  ring s q ->
  peek_front s =
    match q with
    | [] => Ok None
    | id :: _ => match Proposals s !! id with
                 | Some p => Ok (Some (id, p))
                 | None => Err (wt_error QueueCorruptState)
                 end
    end.
Proof.
  intros Hr. unfold peek_front, is_empty. rewrite (ring_len s q Hr). destruct q as [|id q]; cbn; [done|].
  pose proof (ring_lookup _ _ Hr 0%nat ltac:(cbn; lia)) as Hx. cbn in Hx. rewrite Z.add_0_r in Hx.
  rewrite Hx. cbn. by destruct (Proposals s !! id).
Qed.

(** C25. The ring buffer implements a bounded FIFO queue: on a storage that
    holds the list [q], [enqueue] appends to [q] or says it is full exactly
    when [q] has [cap] elements, [dequeue] returns and removes the first
    element or says it is empty, [peek_front] reads it, and
    [QueueCorruptState] is never raised by the first two. *)
Theorem queue_fifo s q id :
  ring s q -> Tail s + 1 < 2 ^ 64 ->
  (if decide (Z.of_nat (length q) < cap)
   then exists s', enqueue id s = (Ok tt, s') /\ ring s' (q ++ [id])
   else enqueue id s = (Err (wt_error InnerProposalQueueFull), s)) /\
  match q with
  | [] => dequeue s = (Err (wt_error QueueEmpty), s) /\ peek_front s = Ok None
  | x :: q' => exists s', dequeue s = (Ok x, s') /\ ring s' q' /\
      forall p, Proposals s !! x = Some p -> peek_front s = Ok (Some (x, p))
  end.
Proof.
  intros Hr Hb. rewrite (enqueue_run s q id Hr Hb), (dequeue_run s q Hr), (peek_front_run s q Hr) by lia.
  split.
  - case_decide; [|done]. eexists. split; [done|]. by apply ring_push.
  - destruct q as [|x q]; [done|]. eexists. split; [done|]. split; [by eapply ring_pop|].
    by intros p ->.
Qed.
End Ring.
