(* ===== verification/WatchtowerInv.v ===== *)
(** * The watchtower's invariant

    Every proposal in storage is queued, active or finished; the queued ones
    are exactly the ring queue's elements, at most one internal proposal is
    active and it is the one [ActiveInternalProposal] names, none waits while
    none is active, and the tally of an active internal proposal counts the
    voters recorded for it.  The invariant is proved for every call, for the
    interface other pallets use, for [on_idle] and for whatever an error leaves
    behind. *)

From S2P Require Import Prelude Errors Collections Interfaces Watchtower WatchtowerQueue.

Section Inv.
Context `{WatchtowerLaws}.
Abbreviation WtM := (ST DispatchError WtState).

(** ** Well-formed storage *)

Definition finished (x : ProposalStatusEnum) : Prop :=
  match x with Resolved _ | Expired => True | _ => False end.

Definition count_votes (b : bool) (m : gmap AccountId bool) : Z :=
  Z.of_nat (size (filter (fun kv => kv.2 = b) m)).

(** The votes the recorded voters add up to, of weight one each. *)
Definition tally (m : gmap AccountId bool) : Vote :=
  mkVote (Z.min (count_votes true m) (umax 32)) (Z.min (count_votes false m) (umax 32)).

Definition nobody_voted (s : WtState) (i : Z) : Prop :=
  votes_of s i = Vote_default /\ voters_of s i = ∅.

(** What the status of the proposal [p] with id [i] means. *)
Definition entry_ok (q : list Z) (s : WtState) (i : Z) (p : Proposal) : Prop :=
  match ProposalStatus s !! i with
  | Some Queued =>
      is_external (source p) = false /\ i ∈ q /\ ActiveInternalProposal s <> Some i /\
      end_at p = None /\ nobody_voted s i
  | Some Active =>
      i ∉ q /\ is_Some (end_at p) /\
      (is_external (source p) = true -> ActiveInternalProposal s <> Some i) /\
      (is_external (source p) = false ->
         ActiveInternalProposal s = Some i /\ votes_of s i = tally (voters_of s i))
  | Some x => finished x /\ i ∉ q /\ ActiveInternalProposal s <> Some i /\ is_Some (end_at p)
  | None => False
  end.

Record WtInv (q : list Z) (s : WtState) : Prop := {
  inv_ring : ring s q;
  inv_nodup : NoDup q;
  inv_entry : forall i p, Proposals s !! i = Some p -> entry_ok q s i p;
  inv_queued : forall i, i ∈ q -> is_Some (Proposals s !! i);
  inv_active : forall i, ActiveInternalProposal s = Some i -> is_Some (Proposals s !! i);
  inv_idle : ActiveInternalProposal s = None -> q = [];
  inv_remove : forall i, i ∈ ProposalsToRemove s ->
    exists p x, Proposals s !! i = Some p /\ ProposalStatus s !! i = Some x /\ finished x;
  inv_fresh : forall i, Proposals s !! i = None -> nobody_voted s i }.

(** ** Storages that agree on what the invariant reads *)

Definition core (s : WtState) :=
  (Proposals s, ProposalStatus s, Votes s, Voters s, ActiveInternalProposal s,
   InternalProposalQueue s, Head s, Tail s, ProposalsToRemove s).

Definition core_eq (s s' : WtState) : Prop := core s = core s'.

#[global] Instance core_eq_equiv : Equivalence core_eq.
Proof. split; repeat intro; unfold core_eq in *; congruence. Qed.

Lemma inv_core q s s' : core_eq s s' -> WtInv q s -> WtInv q s'.
Proof.
  intros Hc HI. injection Hc as HP HS HV HR HA HQ Hh Ht HT.
  destruct HI as [I1 I2 I3 I4 I5 I6 I7 I8].
  split; unfold entry_ok, nobody_voted, votes_of, voters_of in *;
    rewrite <- ?HP, <- ?HS, <- ?HV, <- ?HR, <- ?HA, <- ?HT; try done.
  eapply ring_frame; [..|exact I1]; congruence.
Qed.

#[global] Instance inv_proper : Proper (eq ==> core_eq ==> iff) WtInv.
Proof. intros q ? <- s s' Hs. split; apply inv_core; [done|by symmetry]. Qed.

(** ** Lookups after a write *)

Lemma votes_of_insert s i v j :
  votes_of (set_Votes (<[i := v]> (Votes s)) s) j = if decide (i = j) then v else votes_of s j.
Proof. unfold votes_of. cbn. rewrite lookup_insert. by case_decide. Qed.
Lemma voters_of_insert s i m j :
  voters_of (set_Voters (<[i := m]> (Voters s)) s) j = if decide (i = j) then m else voters_of s j.
Proof. unfold voters_of. cbn. rewrite lookup_insert. by case_decide. Qed.

Lemma tally_empty : tally ∅ = Vote_default.
Proof. unfold tally, count_votes. by rewrite !map_filter_empty. Qed.

Lemma count_votes_insert b m v b' :
  m !! v = None ->
  count_votes b (<[v := b']> m) = count_votes b m + if decide (b' = b) then 1 else 0.
Proof.
  intros Hv. unfold count_votes. case_decide as Hb.
  - rewrite map_filter_insert_True by done. rewrite map_size_insert_None; [lia|].
    apply map_lookup_filter_None. by left.
  - rewrite map_filter_insert_False by done. rewrite delete_id by done. lia.
Qed.

(** Recording a vote of weight one keeps the tally. *)
Lemma tally_vote m v b : m !! v = None -> tally (<[v := b]> m) = add_vote b 1 (tally m).
Proof.
  intros Hv. unfold tally, add_vote, saturating_add. rewrite !count_votes_insert by done.
  pose proof umax_32. destruct b; repeat case_decide; try done; cbn [in_favors againsts]; f_equal; lia.
Qed.

(** ** The writes of the operations, and that they keep the invariant *)

Definition record_vote (v : AccountId) (i : Z) (b : bool) (w : Z) (s : WtState) : WtState :=
  set_Votes (<[i := add_vote b w (votes_of s i)]> (Votes s))
    (set_Voters (<[i := <[v := b]> (voters_of s i)]> (Voters s)) s).

Lemma record_vote_votes v i b w s j :
  votes_of (record_vote v i b w s) j =
    if decide (i = j) then add_vote b w (votes_of s i) else votes_of s j.
Proof. apply (votes_of_insert (set_Voters _ s)). Qed.
Lemma record_vote_voters v i b w s j :
  voters_of (record_vote v i b w s) j =
    if decide (i = j) then <[v := b]> (voters_of s i) else voters_of s j.
Proof. apply voters_of_insert. Qed.

(** A finished, queued or unknown proposal gets no vote; an internal one only
    votes of weight one. *)
Lemma record_vote_inv q s v i b w p :
  WtInv q s -> Proposals s !! i = Some p -> ProposalStatus s !! i = Some Active ->
  voters_of s i !! v = None -> (is_external (source p) = false -> w = 1) ->
  WtInv q (record_vote v i b w s).
Proof.
  intros [I1 I2 I3 I4 I5 I6 I7 I8] Hp Hst Hv Hw.
  split; try done; [by eapply ring_frame; [..|exact I1]| |].
  - intros j p' Hp'. specialize (I3 j p' Hp'). unfold entry_ok, nobody_voted in *.
    rewrite record_vote_votes, record_vote_voters. cbn in *. case_decide as Hij; [|done].
    subst j. rewrite Hst in *. simplify_eq. destruct I3 as (? & ? & ? & Hint). split_and!; [done..|].
    intros Hx. destruct (Hint Hx) as [? ->]. split; [done|]. rewrite (Hw Hx). by rewrite tally_vote.
  - intros j Hj. specialize (I8 j Hj). unfold nobody_voted in *.
    rewrite record_vote_votes, record_vote_voters. case_decide as Hij; [|done]. subst j. cbn in Hj. congruence.
Qed.

(** Submissions: a new proposal is active or queued. *)
Definition new_entry (i : Z) (p : Proposal) (x : ProposalStatusEnum) (s : WtState) : WtState :=
  set_Proposals (<[i := p]> (Proposals s)) (set_ProposalStatus (<[i := x]> (ProposalStatus s)) s).

Lemma not_queued q s i : WtInv q s -> Proposals s !! i = None -> i ∉ q.
Proof. intros HI Hi Hq. destruct (inv_queued _ _ HI i Hq) as [? ?]. congruence. Qed.
Lemma not_active q s i : WtInv q s -> Proposals s !! i = None -> ActiveInternalProposal s <> Some i.
Proof. intros HI Hi Ha. destruct (inv_active _ _ HI i Ha) as [? ?]. congruence. Qed.

Lemma new_entry_lookup s i p x j :
  is_Some (Proposals s !! j) -> is_Some (Proposals (new_entry i p x s) !! j).
Proof. intros Hj. cbn. rewrite lookup_insert. by case_decide. Qed.

Lemma new_remove q s i p x :
  WtInv q s -> Proposals s !! i = None -> forall j, j ∈ ProposalsToRemove s ->
  exists p' y, Proposals (new_entry i p x s) !! j = Some p' /\
    ProposalStatus (new_entry i p x s) !! j = Some y /\ finished y.
Proof.
  intros HI Hi j Hj. destruct (inv_remove _ _ HI j Hj) as (p' & y & ? & ? & ?).
  exists p', y. cbn. by rewrite !lookup_insert_ne by congruence.
Qed.

Lemma new_fresh q s i p x :
  WtInv q s -> forall j, Proposals (new_entry i p x s) !! j = None -> nobody_voted s j.
Proof.
  intros HI j Hj. cbn in Hj. rewrite lookup_insert in Hj. case_decide; [done|].
  by apply (inv_fresh _ _ HI).
Qed.

Lemma new_external_inv q s i p :
  WtInv q s -> Proposals s !! i = None -> is_external (source p) = true -> is_Some (end_at p) ->
  WtInv q (new_entry i p Active s).
Proof.
  intros HI Hi Hx He. pose proof (not_queued _ _ _ HI Hi) as Hq. pose proof (not_active _ _ _ HI Hi) as Ha.
  split.
  - apply (ring_frame s); [done..|apply HI].
  - apply HI.
  - intros j p' Hp'. cbn in Hp'. unfold entry_ok. cbn. rewrite lookup_insert in Hp'. rewrite lookup_insert.
    case_decide as Hij; [|exact (inv_entry _ _ HI j p' Hp')]. subst j. simplify_eq.
    split_and!; [done..|]. congruence.
  - intros j Hj. by apply new_entry_lookup, (inv_queued _ _ HI).
  - intros j Hj. by apply new_entry_lookup, (inv_active _ _ HI).
  - apply HI.
  - exact (new_remove q s i p Active HI Hi).
  - exact (new_fresh q s i p Active HI).
Qed.

Lemma new_active_inv q s i p :
  WtInv q s -> Proposals s !! i = None -> ActiveInternalProposal s = None ->
  is_external (source p) = false -> is_Some (end_at p) ->
  WtInv [] (new_entry i p Active (set_ActiveInternalProposal (Some i) s)).
Proof.
  intros HI Hi Ha Hx He. pose proof (inv_idle _ _ HI Ha) as ->. split.
  - apply (ring_frame s); [done..|apply HI].
  - constructor.
  - intros j p' Hp'. cbn in Hp'. unfold entry_ok. cbn. rewrite lookup_insert in Hp'. rewrite lookup_insert.
    case_decide as Hij.
    + subst j. simplify_eq. split_and!; [apply not_elem_of_nil|done|congruence|].
      intros _. split; [done|]. destruct (inv_fresh _ _ HI i Hi) as [Hv Hr].
      change (votes_of s i = tally (voters_of s i)). by rewrite Hv, Hr, tally_empty.
    + pose proof (inv_entry _ _ HI j p' Hp') as Hj. unfold entry_ok in Hj. rewrite Ha in Hj.
      assert (Hne : Some i <> Some j) by congruence.
      destruct (ProposalStatus s !! j) as [[]|]; try done; destruct_and?; split_and?; try done.
      intros Hf. naive_solver.
  - intros j Hj. by apply elem_of_nil in Hj.
  - intros j Hj. cbn in *. simplify_eq. rewrite lookup_insert_eq. by eexists.
  - done.
  - exact (new_remove [] s i p Active HI Hi).
  - exact (new_fresh [] s i p Active HI).
Qed.

Definition push (i : Z) (s : WtState) : WtState :=
  set_Tail (Tail s + 1)
    (set_InternalProposalQueue (<[slot (Tail s) := i]> (InternalProposalQueue s)) s).

Lemma new_queued_inv q s i p :
  WtInv q s -> Proposals s !! i = None -> ActiveInternalProposal s <> None ->
  is_external (source p) = false -> end_at p = None -> Z.of_nat (length q) < cap ->
  WtInv (q ++ [i]) (new_entry i p Queued (push i s)).
Proof.
  intros HI Hi Ha Hx He Hc. pose proof (not_queued _ _ _ HI Hi) as Hq.
  pose proof (not_active _ _ _ HI Hi) as Hna. split.
  - eapply (ring_frame (push i s)); [done..|]. apply ring_push; [apply HI|done].
  - apply NoDup_app. split_and!; [apply HI| |apply NoDup_singleton]. set_solver.
  - intros j p' Hp'. cbn in Hp'. unfold entry_ok. cbn. rewrite lookup_insert in Hp'. rewrite lookup_insert.
    case_decide as Hij.
    + subst j. simplify_eq. split_and!; [done|set_solver|done..|].
      exact (inv_fresh _ _ HI i Hi).
    + pose proof (inv_entry _ _ HI j p' Hp') as Hj. unfold entry_ok in Hj.
      destruct (ProposalStatus s !! j) as [[]|]; try done; destruct_and?; split_and!; try done; set_solver.
  - intros j [Hj|Hj%list_elem_of_singleton]%elem_of_app.
    + by apply new_entry_lookup, (inv_queued _ _ HI).
    + subst j. cbn. by rewrite lookup_insert_eq.
  - intros j Hj. by apply new_entry_lookup, (inv_active _ _ HI).
  - done.
  - exact (new_remove q s i p Queued HI Hi).
  - exact (new_fresh q s i p Queued HI).
Qed.

(** Finishing a proposal. *)
Definition finish (i : Z) (x : ProposalStatusEnum) (s : WtState) : WtState :=
  set_ProposalStatus (<[i := x]> (ProposalStatus s)) s.

Lemma finish_remove q s i x :
  WtInv q s -> finished x -> forall j, j ∈ ProposalsToRemove s ->
  exists p y, Proposals s !! j = Some p /\ ProposalStatus (finish i x s) !! j = Some y /\ finished y.
Proof.
  intros HI Hx j Hj. destruct (inv_remove _ _ HI j Hj) as (p' & y & ? & ? & ?). cbn.
  destruct (decide (i = j)) as [->|Hij].
  - exists p', x. by rewrite lookup_insert_eq.
  - exists p', y. by rewrite lookup_insert_ne by done.
Qed.

(** The entry of a finished proposal, whatever the queue and the active one. *)
Lemma finished_entry q s i p x :
  ProposalStatus s !! i = Some x -> finished x -> i ∉ q -> ActiveInternalProposal s <> Some i ->
  is_Some (end_at p) -> entry_ok q s i p.
Proof. intros Hs Hx Hq Ha He. unfold entry_ok. rewrite Hs. by destruct x. Qed.

Lemma active_entry q s i p :
  WtInv q s -> Proposals s !! i = Some p -> ProposalStatus s !! i = Some Active ->
  i ∉ q /\ is_Some (end_at p) /\ (is_external (source p) = true -> ActiveInternalProposal s <> Some i) /\
  (is_external (source p) = false -> ActiveInternalProposal s = Some i).
Proof.
  intros HI Hp Hs. pose proof (inv_entry _ _ HI i p Hp) as He. unfold entry_ok in He. rewrite Hs in He.
  naive_solver.
Qed.

Lemma finish_external_inv q s i p x :
  WtInv q s -> Proposals s !! i = Some p -> ProposalStatus s !! i = Some Active ->
  is_external (source p) = true -> finished x -> WtInv q (finish i x s).
Proof.
  intros HI Hp Hs Hx Hf. destruct (active_entry _ _ _ _ HI Hp Hs) as (Hq & He & Ha & _).
  split; try apply HI; [apply (ring_frame s); [done..|apply HI]| |].
  - intros j p' Hp'. destruct (decide (i = j)) as [<-|Hij].
    + cbn in Hp'. simplify_eq. eapply finished_entry; [apply lookup_insert_eq|naive_solver..].
    + unfold entry_ok. cbn. rewrite lookup_insert_ne by done. exact (inv_entry _ _ HI j p' Hp').
  - exact (finish_remove q s i x HI Hf).
Qed.

(** The last internal proposal ends: none is active. *)
Lemma finish_last_inv s i p x :
  WtInv [] s -> Proposals s !! i = Some p -> ProposalStatus s !! i = Some Active ->
  is_external (source p) = false -> finished x ->
  WtInv [] (set_ActiveInternalProposal None (finish i x s)).
Proof.
  intros HI Hp Hs Hx Hf. destruct (active_entry _ _ _ _ HI Hp Hs) as (Hq & He & _ & Ha).
  split; try apply HI; try done; [apply (ring_frame s); [done..|apply HI]| |].
  - intros j p' Hp'. destruct (decide (i = j)) as [<-|Hij].
    + cbn in Hp'. simplify_eq. eapply finished_entry; [apply lookup_insert_eq|naive_solver..].
    + pose proof (inv_entry _ _ HI j p' Hp') as Hj. unfold entry_ok in *. cbn.
      rewrite lookup_insert_ne by done. rewrite (Ha Hx) in Hj.
      destruct (ProposalStatus s !! j) as [[]|]; naive_solver.
  - exact (finish_remove [] s i x HI Hf).
Qed.

(** The first queued proposal [j] takes over. *)
Definition pop (s : WtState) : WtState :=
  set_Head (Head s + 1)
    (set_InternalProposalQueue (delete (slot (Head s)) (InternalProposalQueue s)) s).
Definition started (s : WtState) (p : Proposal) : Proposal :=
  set_end_at (Some (wrapping_add 32 (block_number s) (vote_duration p))) p.
Definition activate (j : Z) (p : Proposal) (s : WtState) : WtState :=
  new_entry j (started s p) Active (set_ActiveInternalProposal (Some j) s).

Lemma finish_next_inv s i p x j q pj :
  WtInv (j :: q) s -> Proposals s !! i = Some p -> ProposalStatus s !! i = Some Active ->
  is_external (source p) = false -> finished x -> Proposals s !! j = Some pj ->
  WtInv q (activate j pj (pop (finish i x s))).
Proof.
  intros HI Hp Hs Hx Hf Hpj. destruct (active_entry _ _ _ _ HI Hp Hs) as (Hq & He & _ & Ha).
  pose proof (inv_entry _ _ HI j pj Hpj) as Hej. unfold entry_ok in Hej.
  pose proof (inv_nodup _ _ HI) as [Hnj Hnd]%NoDup_cons.
  assert (Hij : i <> j) by set_solver.
  destruct (ProposalStatus s !! j) as [[]|] eqn:Hsj; try done; try set_solver.
  destruct Hej as (Hsrc & _ & _ & _ & Hv & Hr).
  split.
  - apply (ring_frame (pop s)); [done..|]. eapply ring_pop, HI.
  - done.
  - intros k p' Hp'. cbn in Hp'. rewrite lookup_insert in Hp'. case_decide as Hjk.
    { subst k. simplify_eq. unfold entry_ok. cbn. rewrite lookup_insert_eq.
      split_and!; [done..|intros Hc; cbn in Hc; congruence|]. intros _. split; [done|].
      change (votes_of s j = tally (voters_of s j)).
      rewrite Hv, Hr. by rewrite tally_empty. }
    destruct (decide (i = k)) as [<-|Hik].
    { simplify_eq. eapply finished_entry; [|exact Hf|set_solver|cbn; congruence|done].
      cbn. by rewrite lookup_insert_ne, lookup_insert_eq by done. }
    pose proof (inv_entry _ _ HI k p' Hp') as Hk. unfold entry_ok in *. cbn.
    rewrite !lookup_insert_ne by done. rewrite (Ha Hx) in Hk.
    assert (Some j <> Some k) by congruence.
    destruct (ProposalStatus s !! k) as [[]|]; try done; destruct_and?; split_and!; try done; try set_solver.
  - intros k Hk. cbn. rewrite lookup_insert. case_decide; [done|]. apply (inv_queued _ _ HI). by right.
  - intros k Hk. cbn in *. simplify_eq. by rewrite lookup_insert_eq.
  - done.
  - intros k Hk. destruct (inv_remove _ _ HI k Hk) as (p' & y & Hpk & Hyk & Hfy).
    assert (k <> j) by (intros ->; simplify_eq; done). cbn.
    rewrite lookup_insert_ne by done. exists p'. destruct (decide (i = k)) as [->|].
    + exists x. rewrite lookup_insert_ne by done. by rewrite lookup_insert_eq.
    + exists y. by rewrite !lookup_insert_ne by done.
  - intros k Hk. cbn in Hk. rewrite lookup_insert in Hk. case_decide; [done|].
    exact (inv_fresh _ _ HI k Hk).
Qed.

(** Clean-up. *)
Definition mark_removed (i : Z) (s : WtState) : WtState :=
  set_ProposalsToRemove ({[i]} ∪ ProposalsToRemove s) s.

Lemma mark_removed_inv q s i p x :
  WtInv q s -> Proposals s !! i = Some p -> ProposalStatus s !! i = Some x -> finished x ->
  WtInv q (mark_removed i s).
Proof.
  intros HI Hp Hs Hx. split; try apply HI; [apply (ring_frame s); [done..|apply HI]|].
  intros j Hj. cbn in Hj. apply elem_of_union in Hj as [->%elem_of_singleton|Hj]; [by exists p, x|by apply (inv_remove _ _ HI)].
Qed.

Lemma remove_voter_voters i who s j :
  voters_of (remove_voter i who s) j = if decide (i = j) then delete who (voters_of s i) else voters_of s j.
Proof. apply voters_of_insert. Qed.

Lemma remove_voter_inv q s i who :
  WtInv q s -> i ∈ ProposalsToRemove s -> WtInv q (remove_voter i who s).
Proof.
  intros HI Hi. destruct (inv_remove _ _ HI i Hi) as (p & x & Hp & Hs & Hx).
  split; try apply HI; [apply (ring_frame s); [done..|apply HI]| |].
  - intros j p' Hp'. pose proof (inv_entry _ _ HI j p' Hp') as Hj.
    unfold entry_ok, nobody_voted in *. rewrite remove_voter_voters. cbn.
    case_decide as Hij; [subst j|done]. rewrite Hs in *. by destruct x.
  - intros j Hj. unfold nobody_voted. rewrite remove_voter_voters. cbn in Hj. rewrite decide_False by congruence.
    exact (inv_fresh _ _ HI j Hj).
Qed.

Definition drop_proposal (i : Z) (s : WtState) : WtState :=
  set_ProposalsToRemove (ProposalsToRemove s ∖ {[i]})
    (set_Votes (delete i (Votes s)) (set_Proposals (delete i (Proposals s)) s)).

Lemma drop_proposal_votes i s j :
  votes_of (drop_proposal i s) j = if decide (i = j) then Vote_default else votes_of s j.
Proof. unfold votes_of. cbn. rewrite lookup_delete. by case_decide. Qed.

Lemma drop_proposal_inv q s i :
  WtInv q s -> i ∈ ProposalsToRemove s -> voters_of s i = ∅ -> WtInv q (drop_proposal i s).
Proof.
  intros HI Hi Hv. destruct (inv_remove _ _ HI i Hi) as (p & x & Hp & Hs & Hx).
  assert (He : i ∉ q /\ ActiveInternalProposal s <> Some i).
  { pose proof (inv_entry _ _ HI i p Hp) as He. unfold entry_ok in He. rewrite Hs in He. destruct x; naive_solver. }
  destruct He as [Hq Ha]. split; try apply HI.
  - apply (ring_frame s); [done..|apply HI].
  - intros j p' Hp'. cbn in Hp'. apply lookup_delete_Some in Hp' as [Hij Hp'].
    pose proof (inv_entry _ _ HI j p' Hp') as Hj. unfold entry_ok, nobody_voted in *.
    rewrite drop_proposal_votes, decide_False by done. exact Hj.
  - intros j Hj. cbn. rewrite lookup_delete_ne by set_solver. by apply (inv_queued _ _ HI).
  - intros j Hj. cbn in *. rewrite lookup_delete_ne by congruence. by apply (inv_active _ _ HI).
  - intros j Hj. cbn in Hj. apply elem_of_difference in Hj as [Hj Hij]. cbn. rewrite lookup_delete_ne by set_solver.
    by apply (inv_remove _ _ HI).
  - intros j Hj. unfold nobody_voted. rewrite drop_proposal_votes.
    change (voters_of (drop_proposal i s) j) with (voters_of s j). case_decide as Hij; [by subst j|].
    cbn in Hj. rewrite lookup_delete_ne in Hj by done. exact (inv_fresh _ _ HI j Hj).
Qed.

(** ** Finalisation *)

(** What [finalise_voting] leaves of the proposal, the queue and the next one. *)
Definition settle (q : list Z) (i : Z) (p : Proposal) (x : ProposalStatusEnum) (s : WtState) : WtState :=
  if is_external (source p) then finish i x s
  else match q with
       | [] => set_ActiveInternalProposal None (finish i x s)
       | j :: _ => activate j (default p (Proposals s !! j)) (pop (finish i x s))
       end.
Definition next_queue (q : list Z) (p : Proposal) : list Z :=
  if is_external (source p) then q else tail q.

Lemma settle_inv q i p x s :
  WtInv q s -> Proposals s !! i = Some p -> ProposalStatus s !! i = Some Active -> finished x ->
  WtInv (next_queue q p) (settle q i p x s).
Proof.
  intros HI Hp Hs Hx. unfold settle, next_queue. destruct (is_external (source p)) eqn:Hsrc.
  - by eapply finish_external_inv.
  - destruct q as [|j q]; [by eapply finish_last_inv|].
    destruct (inv_queued _ _ HI j ltac:(by left)) as [pj Hpj]. rewrite Hpj. cbn.
    by eapply finish_next_inv.
Qed.

Lemma settle_finished q i p x s :
  WtInv q s -> Proposals s !! i = Some p -> ProposalStatus s !! i = Some Active -> finished x ->
  is_Some (Proposals (settle q i p x s) !! i) /\ ProposalStatus (settle q i p x s) !! i = Some x.
Proof.
  intros HI Hp Hs Hx. destruct (active_entry _ _ _ _ HI Hp Hs) as (Hq & _).
  unfold settle. destruct (is_external (source p)); [|destruct q as [|j q]]; cbn;
    rewrite ?(lookup_insert_ne _ j) by set_solver; rewrite ?lookup_insert_eq, ?Hp; done.
Qed.

Lemma activate_next_nil s :
  ring s [] -> Tail s < 2 ^ 64 -> activate_next s = (Ok tt, set_ActiveInternalProposal None s).
Proof.
  intros Hr Ht.
  assert (Hd : ring (set_ActiveInternalProposal None s) []) by (apply (ring_frame s); done).
  apply dequeue_run in Hd; [|done].
  unfold activate_next, mbind, st_bind, modify, attempt; cbn. by rewrite Hd.
Qed.

Lemma activate_next_cons j q p s :
  ring s (j :: q) -> Tail s < 2 ^ 64 -> Proposals s !! j = Some p ->
  activate_next s = run_submitted_hook j (started s p) (activate j p (pop s)).
Proof.
  intros Hr Ht Hp.
  assert (Hd : ring (set_ActiveInternalProposal None s) (j :: q)) by (apply (ring_frame s); done).
  apply dequeue_run in Hd; [|done].
  unfold activate_next, mbind, st_bind, modify, attempt; cbn. rewrite Hd. cbn.
  unfold put_status, modify, get, lift; cbn. by rewrite Hp.
Qed.

(** A hook changes the state of the pallets behind it only. *)
Lemma hook_core i p s r s' :
  run_submitted_hook i p s = (r, s') -> core_eq s s' /\ ExternalRef s' = ExternalRef s /\
  hooks s' = (on_proposal_submitted (block_number s) i p (hooks s)).2.
Proof. unfold run_submitted_hook. destruct (on_proposal_submitted _ _ _ _). intros [= <- <-]. done. Qed.

(** What the hooks see of a finalisation. *)
Definition settle_hooks (q : list Z) (i : Z) (p : Proposal) (x : ProposalStatusEnum) (s : WtState) :=
  let h := on_voting_completed i (external_ref p) x (hooks s) in
  if is_external (source p) then h
  else match q with
       | [] => h
       | j :: _ => (on_proposal_submitted (block_number s) j (started s (default p (Proposals s !! j))) h).2
       end.

Lemma finalise_voting_run q i p x s r s' :
  WtInv q s -> Proposals s !! i = Some p -> ProposalStatus s !! i = Some Active -> finished x ->
  Tail s < 2 ^ 64 -> finalise_voting i p x s = (r, s') ->
  core_eq s' (if is_ok r then mark_removed i (settle q i p x s) else settle q i p x s) /\
  ExternalRef s' = ExternalRef s /\ hooks s' = settle_hooks q i p x s.
Proof.
  intros HI Hp Hs Hx Ht. unfold finalise_voting, put_status, run_completed_hook, deposit_event.
  unfold mbind, st_bind, modify; cbn. unfold settle, settle_hooks.
  destruct (source p) as [t|]; cbn; [|by intros [= <- <-]].
  set (s1 := set_events _ _). assert (Hr : ring s1 q) by (apply (ring_frame s); [done..|apply HI]).
  destruct q as [|j q]; [rewrite (activate_next_nil s1 Hr Ht); by intros [= <- <-]|].
  destruct (inv_queued _ _ HI j ltac:(by left)) as [pj Hpj].
  rewrite (activate_next_cons j q pj s1 Hr Ht Hpj), Hpj.
  destruct (run_submitted_hook _ _ _) as [[[]|e] s2] eqn:Hh; apply hook_core in Hh as (Hc & Hb & Hk);
    intros [= <- <-]; cbn; (split; [|done]).
  - injection Hc as H1 H2 H3 H4 H5 H6 H7 H8 H9. unfold core_eq, core. cbn.
    by rewrite <- H1, <- H2, <- H3, <- H4, <- H5, <- H6, <- H7, <- H8, <- H9.
  - unfold core_eq in *. by rewrite <- Hc.
Qed.

(** ** The operations keep the invariant *)

(** [n] bounds the number of proposals ever queued. *)
Definition wt_ok (n : Z) (s : WtState) : Prop := exists q, WtInv q s /\ Tail s <= n.

(** [m] relates the storage before and after by [R], whatever it returns. *)
Definition respects (R : Z -> WtState -> WtState -> Prop) {A} (m : WtM A) : Prop := forall n s r s',
  n + 1 < 2 ^ 64 -> wt_ok n s -> m s = (r, s') -> R n s s'.
Definition keeps {A} : WtM A -> Prop := respects (fun n _ s' => wt_ok (n + 1) s').

Lemma wt_ok_core n s s' : core_eq s' s -> wt_ok n s -> wt_ok n s'.
Proof.
  intros Hc (q & HI & Ht). exists q. split; [by rewrite Hc|]. injection Hc. congruence.
Qed.
Lemma wt_ok_le n n' s : n <= n' -> wt_ok n s -> wt_ok n' s.
Proof. intros Hn (q & HI & Ht). exists q. split; [done|lia]. Qed.
Lemma wt_ok_tail n s : wt_ok n s -> Tail s <= n.
Proof. by intros (q & _ & ?). Qed.

(** Combinators, for a relation that lets the storage be. *)
Section Respects.
Context (R : Z -> WtState -> WtState -> Prop).
Hypothesis R_refl : forall n s, wt_ok n s -> R n s s.

Lemma respects_get {A} (m : WtState -> WtM A) :
  (forall s, respects R (m s)) -> respects R (s ← get; m s).
Proof. intros Hm n s r s' Hn Hs. unfold mbind, st_bind, get. by apply Hm. Qed.
Lemma respects_lift {A B} (c : Res A) (m : A -> WtM B) :
  (forall a, respects R (m a)) -> respects R (a ← lift c; m a).
Proof.
  intros Hm n s r s' Hn Hs. unfold mbind, st_bind, lift. destruct c as [a|e]; [by apply Hm|].
  intros [= <- <-]. by apply R_refl.
Qed.
Lemma respects_transactional {A} (m : WtM A) : respects R m -> respects R (transactional m).
Proof.
  intros Hm n s r s' Hn Hs. unfold transactional. destruct (m s) as [[a|e] s1] eqn:Em; intros [= <- <-].
  - by eapply Hm.
  - by apply R_refl.
Qed.
Lemma respects_drop {A B} (m : WtM A) (b : B) : respects R m -> respects R (m ;; mret b).
Proof.
  intros Hm n s r s' Hn Hs. unfold mbind, st_bind.
  destruct (m s) as [[a|e] s1] eqn:Em; intros [= <- <-]; by eapply Hm.
Qed.

(** Every call is made of checks and of these three operations. *)
Hypothesis R_add : forall who req, respects R (add_proposal who req).
Hypothesis R_vote : forall who i b, respects R (process_vote who i b).
Hypothesis R_finalise : forall n s i p r s', n + 1 < 2 ^ 64 -> wt_ok n s ->
  Proposals s !! i = Some p -> status_of s i = Active ->
  finalise_expired_voting i p s = (r, s') -> R n s s'.
Hypothesis R_config : forall n s s', wt_ok n s -> core_eq s' s -> ExternalRef s' = ExternalRef s ->
  hooks s' = hooks s -> R n s s'.

Lemma respects_finalise o i : respects R (finalise_proposal o i).
Proof.
  apply respects_lift. intros _ n s r s' Hn Hs.
  unfold mbind, st_bind, get, lift. destruct (Proposals s !! i) as [p|] eqn:Hp; cbn.
  2:{ intros [= <- <-]. by apply R_refl. }
  case_bool_decide as Hst; cbn; [|intros [= <- <-]; by apply R_refl].
  unfold ensure. case_match; [|intros [= <- <-]; by apply R_refl]. by apply R_finalise.
Qed.

Lemma respects_dispatch o c : respects R (dispatch o c).
Proof.
  apply respects_transactional. destruct c as [p|proof p b|i v|proof i v b|i v w sg|i|c].
  - apply respects_get. intros s. repeat (apply respects_lift; intros ?). apply R_add.
  - apply respects_get. intros s0. do 3 (apply respects_lift; intros ?). apply respects_get. intros s.
    do 2 (apply respects_lift; intros ?). apply R_add.
  - apply respects_drop, respects_lift. intros ?. apply R_vote.
  - apply respects_drop. do 2 (apply respects_lift; intros ?). apply respects_get. intros s.
    do 2 (apply respects_lift; intros ?). apply R_vote.
  - apply respects_drop, respects_lift. intros _. apply respects_get. intros s.
    do 3 (apply respects_lift; intros ?). apply R_vote.
  - apply respects_finalise.
  - apply respects_lift. intros _ n s r s' _ Hs. destruct c; intros [= <- <-]; by apply R_config.
Qed.
End Respects.

Lemma to_proposal_end min r who b p :
  to_proposal min r who b = Ok p -> end_at p = None.
Proof. unfold to_proposal. case_match; [done|]. intros Hr. run_step Hr. done. Qed.

Lemma store_core i p x s r s' :
  store_proposal i p x s = (r, s') -> core_eq s' (new_entry i p x s).
Proof.
  unfold store_proposal, put_status, deposit_event, mbind, st_bind, modify; cbn.
  case_decide; [|by intros [= <- <-]].
  destruct (run_submitted_hook _ _ _) as [[[]|e] s2] eqn:Hh; apply hook_core in Hh as (Hc & _);
    intros [= <- <-]; symmetry; exact Hc.
Qed.

Lemma place_run q i p s res s1 :
  WtInv q s -> Tail s + 1 < 2 ^ 64 -> Proposals s !! i = None -> end_at p = None ->
  place_proposal i p s = (res, s1) ->
  match res with
  | Err _ => s1 = s
  | Ok (p', x) => exists q', WtInv q' (new_entry i p' x s1) /\ Tail s1 <= Tail s + 1
  end.
Proof.
  intros HI Ht Hi He. unfold place_proposal, mbind, st_bind, get.
  destruct (source p) as [t|] eqn:Hsrc.
  - assert (Hx : is_external (source p) = false) by (by rewrite Hsrc).
    destruct (ActiveInternalProposal s) as [a|] eqn:Ha.
    + rewrite (enqueue_run s q i (inv_ring _ _ HI) Ht). case_decide as Hd; intros [= <- <-]; [|done].
      exists (q ++ [i]). split; [|cbn; lia]. apply (new_queued_inv q s i p); [done..| |done|done|done].
      by rewrite Ha.
    + intros [= <- <-]. exists []. split; [|cbn; lia]. by apply (new_active_inv q).
  - intros [= <- <-]. exists q. split; [|lia]. apply new_external_inv; [done..| |done]. cbn. by rewrite Hsrc.
Qed.

Lemma add_proposal_keeps who req : keeps (add_proposal who req).
Proof.
  intros n s r s' Hn Hs. assert (Hs1 : wt_ok (n + 1) s) by (eapply wt_ok_le, Hs; lia).
  destruct Hs as (q & HI & Ht). unfold add_proposal, mbind, st_bind, get, lift.
  destruct (to_proposal _ _ _ _) as [p|e] eqn:Hp; [apply to_proposal_end in Hp|by intros [= <- <-]].
  destruct (ExternalRef s !! external_ref p); cbn; [by intros [= <- <-]|].
  destruct (Proposals s !! generate_id p) eqn:Hi; cbn; [by intros [= <- <-]|].
  destruct (place_proposal _ _ _) as [[[p' x]|e] s1] eqn:Hpl; apply (place_run q) in Hpl; try done; try lia.
  - destruct Hpl as (q' & HI' & Ht'). intros Hst%store_core. eapply wt_ok_core; [exact Hst|].
    exists q'. split; [done|]. cbn. lia.
  - intros [= <- <-]. by subst s1.
Qed.

(** A finalisation started on an active proposal. *)
Lemma finalise_keeps i p x s r s' n :
  n + 1 < 2 ^ 64 -> wt_ok n s -> Proposals s !! i = Some p -> ProposalStatus s !! i = Some Active ->
  finished x -> finalise_voting i p x s = (r, s') -> wt_ok n s'.
Proof.
  intros Hn (q & HI & Ht) Hp Hs Hx Hr.
  destruct (finalise_voting_run q i p x s r s' HI Hp Hs Hx ltac:(lia) Hr) as [Hc _].
  eapply wt_ok_core; [exact Hc|]. exists (next_queue q p).
  pose proof (settle_inv q i p x s HI Hp Hs Hx) as HI'.
  destruct (settle_finished q i p x s HI Hp Hs Hx) as [[p' Hp'] Hs'].
  assert (Htl : Tail (settle q i p x s) = Tail s) by (unfold settle; repeat case_match; done).
  destruct (is_ok r); (split; [|cbn; lia]); [|done]. by eapply mark_removed_inv.
Qed.

Lemma expiry_finished i p s : finished (get_vote_result_on_expiry s i p).
Proof. unfold get_vote_result_on_expiry. repeat case_match; done. Qed.
Lemma consensus_finished i p s b x : get_finalised_consensus_result s i p b = Some x -> finished x.
Proof.
  unfold get_finalised_consensus_result, get_proposal_status.
  repeat case_match; intros [= <-]; try done; apply expiry_finished.
Qed.

(** A status read through its default is [Active] only for a stored proposal
    that is. *)
Lemma status_active q s i p :
  WtInv q s -> Proposals s !! i = Some p -> status_of s i = Active ->
  ProposalStatus s !! i = Some Active.
Proof.
  intros HI Hp Hs. pose proof (inv_entry _ _ HI i p Hp) as He. unfold entry_ok, status_of in *.
  destruct (ProposalStatus s !! i); [|done]. cbn in Hs. by subst.
Qed.

(** Who may vote, and with which weight. *)
Definition vote_weight (s : WtState) (p : Proposal) (who : AccountId) : Z :=
  if is_external (source p) then get_watchtower_voting_weight (nodes s) who else 1.
Definition may_vote (s : WtState) (p : Proposal) (who : AccountId) : Prop :=
  if is_external (source p)
  then is_watchtower_owner (nodes s) who = true /\ 0 < get_watchtower_voting_weight (nodes s) who
  else is_authorized_watchtower (nodes s) who = true.

Lemma weigh_ok s i p who w :
  weigh_vote s i p who = Ok w -> may_vote s p who /\ w = vote_weight s p who.
Proof.
  unfold weigh_vote, may_vote, vote_weight. destruct (source p); cbn; intros Hw; run_step Hw.
  - done.
  - split; [split; [done|lia]|done].
Qed.
Lemma internal_weight s p who : is_external (source p) = false -> vote_weight s p who = 1.
Proof. unfold vote_weight. by intros ->. Qed.

Lemma record_vote_ok n s who i b p :
  wt_ok n s -> Proposals s !! i = Some p -> ProposalStatus s !! i = Some Active ->
  voters_of s i !! who = None -> wt_ok n (record_vote who i b (vote_weight s p who) s).
Proof.
  intros (q & HI & Ht) Hp Hs Hv. exists q. split; [|done].
  eapply record_vote_inv; [done..|apply internal_weight].
Qed.

(** The three ways a vote can go: nothing happens; an expired proposal is
    finished; the vote is recorded in [s2], and may finish the proposal. *)
Lemma process_vote_cases n who i b s r s' :
  wt_ok n s -> process_vote who i b s = (r, s') ->
  s' = s \/
  exists p, Proposals s !! i = Some p /\ ProposalStatus s !! i = Some Active /\
    ((exists x r', finished x /\ finalise_voting i p x s = (r', s')) \/
     exists s2, core_eq s2 (record_vote who i b (vote_weight s p who) s) /\ voters_of s i !! who = None /\
       ExternalRef s2 = ExternalRef s /\ hooks s2 = hooks s /\
       (s' = s2 \/ exists x r', finished x /\ finalise_voting i p x s2 = (r', s'))).
Proof.
  intros Hs. unfold process_vote, mbind, st_bind, get, lift.
  destruct (Proposals s !! i) as [p|] eqn:Hp; cbn; [|intros [= <- <-]; by left].
  case_bool_decide as Hst; cbn; [|intros [= <- <-]; by left].
  assert (Hact : ProposalStatus s !! i = Some Active) by (destruct Hs as (q & HI & _); by eapply status_active).
  case_match.
  { unfold finalise_expired_voting, mbind, st_bind, get. intros Hf. right. exists p. split_and!; [done..|left].
    exists (get_vote_result_on_expiry s i p). revert Hf.
    destruct (finalise_voting _ _ _ s) as [[[]|e] s1]; intros [= <- <-];
      (eexists; split; [apply expiry_finished|done]). }
  destruct (voters_of s i !! who) eqn:Hv; cbn; [intros [= <- <-]; by left|].
  destruct (weigh_vote s i p who) as [w|e] eqn:Hw; [|intros [= <- <-]; by left]. apply weigh_ok in Hw as [_ ->].
  cbn. set (s2 := set_events _ _). intros Hr. right. exists p. split_and!; [done..|right].
  exists s2. split_and!; [done..|].
  destruct (get_finalised_consensus_result _ _ _ _) as [x|] eqn:Hx; [right|left; by injection Hr as _ <-].
  apply consensus_finished in Hx. exists x. revert Hr.
  destruct (finalise_voting _ _ _ s2) as [[[]|e] s3]; intros [= <- <-];
    (eexists; split; [exact Hx|done]).
Qed.

Lemma process_vote_keeps who i b : keeps (process_vote who i b).
Proof.
  intros n s r s' Hn Hs Hr. apply (wt_ok_le n); [lia|].
  destruct (process_vote_cases n who i b s r s' Hs Hr)
    as [->|(p & Hp & Ha & [(x & r' & Hx & Hf)|(s2 & Hc & Hv & _ & _ & Hor)])]; [done|by eapply finalise_keeps|].
  assert (Hs2 : wt_ok n s2) by (eapply wt_ok_core; [exact Hc|by apply record_vote_ok]).
  destruct Hor as [->|(x & r' & Hx & Hf)]; [done|]. injection Hc as H1 H2 _ _ _ _ _ _ _.
  eapply finalise_keeps; [done..| | |exact Hx|exact Hf]; [by rewrite H1|by rewrite H2].
Qed.

Lemma dispatch_keeps o c : keeps (dispatch o c).
Proof.
  apply respects_dispatch.
  - intros n s. apply wt_ok_le. lia.
  - apply add_proposal_keeps.
  - apply process_vote_keeps.
  - intros n s i p r s' Hn Hs Hp Hst Hf. apply (wt_ok_le n); [lia|].
    eapply finalise_keeps; [done..| |apply expiry_finished|exact Hf].
    destruct Hs as (q & HI & _). by eapply status_active.
  - intros n s s' Hs Hc _ _. apply (wt_ok_le n); [lia|]. by apply (wt_ok_core _ s).
Qed.

(** ** Idle blocks *)

Lemma delete_voters_inv q i l m s m' s' :
  WtInv q s -> i ∈ ProposalsToRemove s -> delete_voters i m l s = (m', s') ->
  WtInv q s' /\ Tail s' = Tail s /\ ProposalsToRemove s' = ProposalsToRemove s.
Proof.
  revert m s. induction l as [|who l IH]; intros m s HI Hi; cbn; [by intros [= <- <-]|].
  destruct (consume_writes 1 m); [|by intros [= <- <-]]. intros Hr.
  destruct (IH _ _ (remove_voter_inv _ _ _ who HI Hi) Hi Hr) as (? & -> & ->). done.
Qed.

Lemma first_to_remove s i :
  head (id_order (elements (ProposalsToRemove s))) = Some i -> i ∈ ProposalsToRemove s.
Proof.
  intros Hi. apply elem_of_elements. rewrite <- id_order_perm. by apply head_Some_elem_of.
Qed.

Lemma no_voters s i : voters_iter s i = [] <-> voters_of s i = ∅.
Proof.
  unfold voters_iter. rewrite <- map_to_list_empty_iff. split.
  - intros Hl. pose proof (voter_order_perm (map_to_list (voters_of s i)).*1) as Hp. rewrite Hl in Hp.
    apply Permutation_nil_r in Hp || apply Permutation_nil in Hp. by destruct (map_to_list _).
  - intros ->. pose proof (voter_order_perm []) as Hp. cbn. by apply Permutation_nil_r in Hp.
Qed.

Lemma remove_completed_ok n m s : wt_ok n s -> wt_ok n (remove_completed m s).
Proof.
  intros Hs. unfold remove_completed. destruct (consume_reads 1 m) as [m1|]; [|done].
  destruct (head _) as [i|] eqn:Hi; [|done]. apply first_to_remove in Hi.
  destruct (collect_voters _ _) as [l m2]. destruct (delete_voters _ _ _ _) as [m3 s1] eqn:Hd.
  destruct Hs as (q & HI & Ht). destruct (delete_voters_inv _ _ _ _ _ _ _ HI Hi Hd) as (HI1 & Ht1 & Hr1).
  assert (Hs1 : wt_ok n s1) by (exists q; split; [done|lia]).
  destruct (consume_reads 1 m3) as [m4|]; [|done]. case_bool_decide as Hv; [|done].
  destruct (consume_writes 4 m4); [|done].
  apply (wt_ok_core _ (drop_proposal i s1)); [done|]. exists q. split; [|cbn; lia].
  apply drop_proposal_inv; [done|by rewrite Hr1|by apply no_voters].
Qed.

Lemma on_idle_ok n now m s : n + 1 < 2 ^ 64 -> wt_ok n s -> wt_ok n (on_idle now m s).
Proof.
  intros Hn Hs. unfold on_idle, cleanup_proposals. destruct (consume_expiry_status m) as [m1|]; [|done].
  destruct (active_proposal_expiry_status s now) as [[[i p] []]|] eqn:Hx; [|done|by apply remove_completed_ok].
  destruct (consume_finalise m1) as [m2|]; [|done]. apply remove_completed_ok.
  unfold active_proposal_expiry_status, mbind, option_bind in Hx.
  destruct (ActiveInternalProposal s) as [a|] eqn:Ha; [|done].
  destruct (Proposals s !! a) as [p'|] eqn:Hp; simplify_eq.
  destruct (finalise_expired_voting i p s) as [r s1] eqn:Hf. unfold exec. rewrite Hf.
  eapply finalise_keeps; [done..| |apply expiry_finished|exact Hf].
  destruct Hs as (q & HI & _). pose proof (inv_entry _ _ HI i p Hp) as He. unfold entry_ok in He.
  destruct (ProposalStatus s !! i) as [[]|]; naive_solver.
Qed.

(** ** Runs of the chain *)

(** One thing that happens to the pallet: a dispatched call, a submission by
    another pallet, the end of a block, and changes of the block number and of
    the node registry. *)
Inductive wt_step : WtState -> WtState -> Prop :=
| step_dispatch s origin call : wt_step s (exec (dispatch origin call) s)
| step_submit s who request : wt_step s (exec (submit_proposal who request) s)
| step_idle s now meter : wt_step s (on_idle now meter s)
| step_block s n : wt_step s (set_block_number n s)
| step_nodes s x : wt_step s (set_nodes x s).

Definition wt_initial (s : WtState) : Prop :=
  ExternalRef s = ∅ /\ Proposals s = ∅ /\ ProposalStatus s = ∅ /\ Votes s = ∅ /\ Voters s = ∅ /\
  ActiveInternalProposal s = None /\ InternalProposalQueue s = ∅ /\ Head s = 0 /\ Tail s = 0 /\
  ProposalsToRemove s = ∅.

(** A run of [n] steps. *)
Inductive wt_run (s0 : WtState) : nat -> WtState -> Prop :=
| run_nil : wt_run s0 0 s0
| run_snoc n s s' : wt_run s0 n s -> wt_step s s' -> wt_run s0 (S n) s'.

Definition wt_reach (n : nat) (s : WtState) : Prop := exists s0, wt_initial s0 /\ wt_run s0 n s.

Lemma wt_initial_ok s : wt_initial s -> wt_ok 0 s.
Proof.
  intros (_ & HP & HS & HV & HR & HA & HQ & Hh & Ht & HT). exists []. split; [|lia].
  split; unfold nobody_voted, votes_of, voters_of; rewrite ?HP, ?HV, ?HR, ?HA, ?HT; try done; try set_solver.
  - split; rewrite ?HQ, ?Hh, ?Ht; try done; try (cbn; lia).
    apply cap_range.
  - constructor.
Qed.

Lemma wt_step_ok n s s' : n + 1 < 2 ^ 64 -> wt_ok n s -> wt_step s s' -> wt_ok (n + 1) s'.
Proof.
  intros Hn Hs Hst. destruct Hst as [s o c|s who req|s now m|s b|s x].
  - unfold exec. destruct (dispatch o c s) as [r s'] eqn:Hr. by eapply dispatch_keeps.
  - unfold exec. destruct (submit_proposal who req s) as [r s'] eqn:Hr. by eapply add_proposal_keeps.
  - apply (wt_ok_le n); [lia|]. by apply on_idle_ok.
  - apply (wt_ok_le n); [lia|]. by apply (wt_ok_core _ s).
  - apply (wt_ok_le n); [lia|]. by apply (wt_ok_core _ s).
Qed.

Lemma wt_reach_ok n s : wt_reach n s -> Z.of_nat n < 2 ^ 64 -> wt_ok (Z.of_nat n) s.
Proof.
  intros (s0 & Hinit & Hr). induction Hr as [|n s s' Hs IH Hst]; intros Hn; [by apply wt_initial_ok|].
  rewrite Nat2Z.inj_succ. apply (wt_step_ok _ s); [lia|apply IH; lia|done].
Qed.

(** C22. After any run of fewer than [2 ^ 64] steps (calls by any origin that
    succeed or fail, submissions by other pallets whether or not an error rolls
    them back, idle blocks with any weight), the storage is well-formed: the
    ring queue holds a duplicate-free list of exactly the queued proposals;
    every stored proposal is queued, active or finished; an internal proposal
    is active if and only if it is [ActiveInternalProposal]; none waits while
    none is active; proposals marked for removal exist and are finished; and
    the tally of an active internal proposal is the number of voters recorded
    for and against it. *)
Theorem watchtower_invariant n s :
  wt_reach n s -> Z.of_nat n < 2 ^ 64 -> exists q, WtInv q s.
Proof. intros Hs Hn. destruct (wt_reach_ok n s Hs Hn) as (q & HI & _). by exists q. Qed.
End Inv.
