(* ===== verification/WatchtowerLife.v ===== *)
(** * The life of a proposal

    Statuses move along [Queued], [Active], finished and nowhere else, provided
    that ids do not collide; what a vote does; when a proposal is finished by
    its votes or by its end; and that clean-up empties the storage of finished
    proposals. *)

From S2P Require Import Prelude Errors Collections Interfaces Watchtower WatchtowerQueue WatchtowerInv.

Section Life.
Context `{WatchtowerLaws}.
Abbreviation WtM := (ST DispatchError WtState).

(** ** The state machine *)

(** A step of the status machine at [i]; a new proposal's reference was free. *)
Definition move (s s' : WtState) (i : Z) : Prop :=
  ProposalStatus s' !! i = ProposalStatus s !! i \/
  (exists p x, i = generate_id p /\ ExternalRef s !! external_ref p = None /\
     ExternalRef s' !! external_ref p = Some i /\ ProposalStatus s' !! i = Some x /\
     (x = Queued \/ x = Active)) \/
  (ProposalStatus s !! i = Some Queued /\ ProposalStatus s' !! i = Some Active) \/
  (exists x, ProposalStatus s !! i = Some Active /\ ProposalStatus s' !! i = Some x /\ finished x).

Definition moves (s s' : WtState) : Prop :=
  ExternalRef s ⊆ ExternalRef s' /\ forall i, move s s' i.

Lemma moves_same s s' :
  ExternalRef s' = ExternalRef s -> ProposalStatus s' = ProposalStatus s -> moves s s'.
Proof. intros He Hs. split; [by rewrite He|]. intros i. left. by rewrite Hs. Qed.

(** Writes elsewhere do not matter. *)
Lemma moves_frame_r s s1 s' :
  moves s s1 -> ExternalRef s' = ExternalRef s1 -> ProposalStatus s' = ProposalStatus s1 -> moves s s'.
Proof. intros [He Hm] H1 H2. split; [by rewrite H1|]. intros i. unfold move. rewrite H1, H2. apply Hm. Qed.
Lemma moves_frame_l s s1 s' :
  moves s1 s' -> ExternalRef s1 = ExternalRef s -> ProposalStatus s1 = ProposalStatus s -> moves s s'.
Proof.
  intros [He Hm] H1 H2. split; [by rewrite <- H1|]. intros i. unfold move. rewrite <- H1, <- H2. apply Hm.
Qed.

Lemma core_status s s' : core_eq s s' -> ProposalStatus s = ProposalStatus s'.
Proof. by injection 1. Qed.

Lemma store_refs i p x s r s' :
  store_proposal i p x s = (r, s') -> ExternalRef s' = <[external_ref p := i]> (ExternalRef s).
Proof.
  unfold store_proposal, put_status, deposit_event, mbind, st_bind, modify; cbn.
  case_decide; [|by intros [= <- <-]].
  destruct (run_submitted_hook _ _ _) as [[[]|e] s2] eqn:Hh; apply hook_core in Hh as (_ & Hr & _);
    intros [= <- <-]; exact Hr.
Qed.

Lemma place_status i p s p' x s1 :
  place_proposal i p s = (Ok (p', x), s1) ->
  (x = Queued \/ x = Active) /\ ProposalStatus s1 = ProposalStatus s /\ ExternalRef s1 = ExternalRef s /\
  external_ref p' = external_ref p.
Proof.
  unfold place_proposal. intros (a & s2 & [-> ->]%get_ok & Hr)%bind_ok.
  destruct (source p); [destruct (ActiveInternalProposal s)|].
  - apply bind_ok in Hr as (u & s3 & He & [[= -> ->] ->]%mret_ok). unfold enqueue in He. run_step He.
    split_and!; auto.
  - apply bind_ok in Hr as (u & s3 & [_ ->]%modify_ok & [[= -> ->] ->]%mret_ok). split_and!; auto.
  - apply mret_ok in Hr as [[= -> ->] ->]. split_and!; auto.
Qed.

Lemma place_err i p s e s1 :
  place_proposal i p s = (Err e, s1) -> s1 = s.
Proof.
  unfold place_proposal, mbind, st_bind, get. destruct (source p); [destruct (ActiveInternalProposal s)|]; [|done..].
  unfold enqueue, mbind, st_bind, get, lift, ensure.
  destruct (negb (is_full s)); cbn; [|by intros [= _ ->]]. destruct (negb _); cbn; [done|by intros [= _ ->]].
Qed.

Lemma add_proposal_moves who req : respects (fun _ => moves) (add_proposal who req).
Proof.
  intros n s r s' _ _. unfold add_proposal, mbind, st_bind, get, lift.
  destruct (to_proposal _ _ _ _) as [p|e] eqn:Hp; [|intros [= <- <-]; by apply moves_same].
  destruct (ExternalRef s !! external_ref p) eqn:Hf; cbn; [intros [= <- <-]; by apply moves_same|].
  destruct (Proposals s !! generate_id p) eqn:Hi; cbn; [intros [= <- <-]; by apply moves_same|].
  destruct (place_proposal _ _ _) as [[[p' x]|e] s1] eqn:Hpl.
  2:{ apply place_err in Hpl as ->. intros [= <- <-]. by apply moves_same. }
  apply place_status in Hpl as (Hx & Hs1 & He1 & Hr). intros Hst.
  pose proof (store_refs _ _ _ _ _ _ Hst) as He. apply store_core, core_status in Hst.
  rewrite Hr, He1 in He. cbn in Hst. rewrite Hs1 in Hst. split.
  - rewrite He. by apply insert_subseteq.
  - intros i. unfold move. rewrite Hst, He, lookup_insert. case_decide as Hid; [|by left].
    right. left. exists p, x. rewrite lookup_insert_eq. by subst i.
Qed.

Lemma settle_status q i p x s k :
  WtInv q s -> Proposals s !! i = Some p -> ProposalStatus s !! i = Some Active -> finished x ->
  ProposalStatus (settle q i p x s) !! k = ProposalStatus s !! k \/
  (ProposalStatus s !! k = Some Queued /\ ProposalStatus (settle q i p x s) !! k = Some Active) \/
  (exists y, ProposalStatus s !! k = Some Active /\ ProposalStatus (settle q i p x s) !! k = Some y /\ finished y).
Proof.
  intros HI Hp Hs Hx. destruct (decide (i = k)) as [<-|Hik].
  { right. right. exists x. split; [done|]. by destruct (settle_finished q i p x s HI Hp Hs Hx). }
  unfold settle. destruct (is_external (source p)); [|destruct q as [|j q]]; cbn;
    rewrite ?lookup_insert_ne by done; [by left..|].
  destruct (decide (j = k)) as [<-|Hjk]; [|rewrite !lookup_insert_ne by done; by left].
  right. left. rewrite lookup_insert_eq. split; [|done].
  destruct (inv_queued _ _ HI j ltac:(by left)) as [pj Hpj].
  pose proof (inv_entry _ _ HI j pj Hpj) as He. unfold entry_ok in He.
  destruct (ProposalStatus s !! j) as [[]|]; try done; set_solver.
Qed.

Lemma finalise_moves n i p x s r s' :
  n + 1 < 2 ^ 64 -> wt_ok n s -> Proposals s !! i = Some p -> ProposalStatus s !! i = Some Active ->
  finished x -> finalise_voting i p x s = (r, s') -> moves s s'.
Proof.
  intros Hn (q & HI & Ht) Hp Hs Hx Hr.
  destruct (finalise_voting_run q i p x s r s' HI Hp Hs Hx ltac:(lia) Hr) as (Hc%core_status & He & _).
  assert (Hst : ProposalStatus s' = ProposalStatus (settle q i p x s)) by (by destruct (is_ok r)).
  split; [by rewrite He|]. intros k. unfold move. rewrite Hst.
  destruct (settle_status q i p x s k HI Hp Hs Hx) as [?|[?|?]]; eauto.
Qed.

Lemma process_vote_moves who i b : respects (fun _ => moves) (process_vote who i b).
Proof.
  intros n s r s' Hn Hs Hr.
  destruct (process_vote_cases n who i b s r s' Hs Hr)
    as [->|(p & Hp & Ha & [(x & r' & Hx & Hf)|(s2 & Hc & Hv & He & _ & Hor)])];
    [by apply moves_same|by eapply finalise_moves|].
  assert (Hs2 : wt_ok n s2) by (eapply wt_ok_core; [exact Hc|by apply record_vote_ok]).
  injection Hc as H1 H2 _ _ _ _ _ _ _. cbn in H1, H2.
  destruct Hor as [->|(x & r' & Hx & Hf)]; [by apply moves_same|].
  apply (moves_frame_l s s2); [|done..].
  eapply finalise_moves; [done..| | |exact Hx|exact Hf]; [by rewrite H1|by rewrite H2].
Qed.

Lemma dispatch_moves o c : respects (fun _ => moves) (dispatch o c).
Proof.
  apply respects_dispatch.
  - intros n s _. by apply moves_same.
  - apply add_proposal_moves.
  - apply process_vote_moves.
  - intros n s i p r s' Hn Hs Hp Hst Hf. eapply finalise_moves; [done..| |apply expiry_finished|exact Hf].
    destruct Hs as (q & HI & _). by eapply status_active.
  - intros n s s' _ Hc He _. apply moves_same; [done|by apply core_status].
Qed.

Lemma delete_voters_frame i l m s m' s' :
  delete_voters i m l s = (m', s') ->
  ProposalStatus s' = ProposalStatus s /\ ExternalRef s' = ExternalRef s /\ hooks s' = hooks s /\
  ActiveInternalProposal s' = ActiveInternalProposal s /\ Proposals s' = Proposals s.
Proof.
  revert m s. induction l as [|who l IH]; intros m s; cbn; [by intros [= <- <-]|].
  destruct (consume_writes 1 m); [|by intros [= <- <-]]. intros Hr. by apply IH in Hr.
Qed.

Lemma remove_completed_frame m s :
  ProposalStatus (remove_completed m s) = ProposalStatus s /\ ExternalRef (remove_completed m s) = ExternalRef s /\
  hooks (remove_completed m s) = hooks s /\
  ActiveInternalProposal (remove_completed m s) = ActiveInternalProposal s.
Proof.
  unfold remove_completed. destruct (consume_reads 1 m); [|done]. destruct (head _) as [i|]; [|done].
  destruct (collect_voters _ _). destruct (delete_voters _ _ _ _) eqn:Hd.
  apply delete_voters_frame in Hd as (? & ? & ? & ? & ?).
  destruct (consume_reads 1 _); [|done]. case_bool_decide; [|done]. by destruct (consume_writes 4 _).
Qed.

(** Clean-up leaves the active proposal alone. *)
Lemma remove_completed_active n m s i p :
  wt_ok n s -> Proposals s !! i = Some p -> ActiveInternalProposal s = Some i ->
  Proposals (remove_completed m s) !! i = Some p.
Proof.
  intros (q & HI & _) Hp Ha. unfold remove_completed. destruct (consume_reads 1 m); [|done].
  destruct (head _) as [k|] eqn:Hk; [|done]. apply first_to_remove in Hk.
  destruct (collect_voters _ _). destruct (delete_voters _ _ _ _) eqn:Hd.
  apply delete_voters_frame in Hd as (_ & _ & _ & _ & Hs1).
  destruct (consume_reads 1 _); [|by rewrite Hs1]. case_bool_decide; [|by rewrite Hs1].
  destruct (consume_writes 4 _); [|by rewrite Hs1]. cbn. rewrite Hs1, lookup_delete_ne; [done|].
  intros ->. destruct (inv_remove _ _ HI i Hk) as (p1 & x & Hp1 & Hx & Hfx).
  pose proof (inv_entry _ _ HI i p1 Hp1) as He. unfold entry_ok in He. rewrite Hx in He. destruct x; naive_solver.
Qed.

(** The expired active proposal [on_idle] finds is active. *)
Lemma expiry_status_active n s now i p b :
  wt_ok n s -> active_proposal_expiry_status s now = Some (i, p, b) ->
  Proposals s !! i = Some p /\ ProposalStatus s !! i = Some Active /\
  ActiveInternalProposal s = Some i /\ b = proposal_expired now p.
Proof.
  intros (q & HI & _). unfold active_proposal_expiry_status, mbind, option_bind.
  destruct (ActiveInternalProposal s) as [a|] eqn:Ha; [|done].
  destruct (Proposals s !! a) as [p'|] eqn:Hp; [|done]. intros [= <- <- <-]. split_and!; [done| |done..].
  pose proof (inv_entry _ _ HI a p' Hp) as He. unfold entry_ok in He.
  destruct (ProposalStatus s !! a) as [[]|]; naive_solver.
Qed.

Lemma on_idle_moves n now m s : n + 1 < 2 ^ 64 -> wt_ok n s -> moves s (on_idle now m s).
Proof.
  intros Hn Hs. unfold on_idle, cleanup_proposals.
  destruct (consume_expiry_status m) as [m1|]; [|by apply moves_same].
  destruct (active_proposal_expiry_status s now) as [[[i p] []]|] eqn:Hx; [|by apply moves_same|].
  - destruct (consume_finalise m1) as [m2|]; [|by apply moves_same].
    destruct (expiry_status_active _ _ _ _ _ _ Hs Hx) as (Hp & Hst & _).
    destruct (finalise_expired_voting i p s) as [r s1] eqn:Hf. unfold exec. rewrite Hf. cbn.
    destruct (remove_completed_frame m2 s1) as (? & ? & _). apply (moves_frame_r s s1); [|done..].
    eapply finalise_moves; [done..|apply expiry_finished|exact Hf].
  - destruct (remove_completed_frame m1 s) as (? & ? & _). by apply moves_same.
Qed.

Lemma step_moves n s s' : n + 1 < 2 ^ 64 -> wt_ok n s -> wt_step s s' -> moves s s'.
Proof.
  intros Hn Hs Hst. destruct Hst as [s o c|s who req|s now m|s b|s x]; [..|by apply moves_same|by apply moves_same].
  - unfold exec. destruct (dispatch o c s) as [r s'] eqn:Hr. by eapply dispatch_moves.
  - unfold exec. destruct (submit_proposal who req s) as [r s'] eqn:Hr. by eapply add_proposal_moves.
  - by eapply on_idle_moves.
Qed.

(** Every id with a status was made from a registered reference. *)
Definition registered (s : WtState) : Prop := forall i x, ProposalStatus s !! i = Some x ->
  exists p, i = generate_id p /\ is_Some (ExternalRef s !! external_ref p).

Lemma moves_registered s s' : registered s -> moves s s' -> registered s'.
Proof.
  intros Hr [He Hm] i x Hx.
  assert (Hold : is_Some (ProposalStatus s !! i) ->
    exists p, i = generate_id p /\ is_Some (ExternalRef s' !! external_ref p)).
  { intros [y Hy]. destruct (Hr i y Hy) as (p & Hp & [k Hk]). exists p. split; [done|].
    exists k. by eapply lookup_weaken. }
  destruct (Hm i) as [Heq|[(p & y & Hi & _ & Hn & _)|[[Hq _]|(y & Ha & _)]]].
  - apply Hold. rewrite <- Heq, Hx. done.
  - exists p. by rewrite Hn.
  - apply Hold. by rewrite Hq.
  - apply Hold. by rewrite Ha.
Qed.

Lemma reach_registered n s : wt_reach n s -> Z.of_nat n < 2 ^ 64 -> registered s.
Proof.
  intros (s0 & Hinit & Hr). induction Hr as [|n s s' Hs IH Hst]; intros Hn.
  - destruct Hinit as (_ & _ & Hs & _). intros i x. by rewrite Hs, lookup_empty.
  - eapply moves_registered; [apply IH; lia|].
    eapply (step_moves (Z.of_nat n)); [lia|apply wt_reach_ok; [by exists s0|lia]|done].
Qed.

(** The status graph. *)
Inductive status_edge : option ProposalStatusEnum -> option ProposalStatusEnum -> Prop :=
| edge_stay x : status_edge x x
| edge_queue : status_edge None (Some Queued)
| edge_open : status_edge None (Some Active)
| edge_activate : status_edge (Some Queued) (Some Active)
| edge_finish x : finished x -> status_edge (Some Active) (Some x).

(** C24. If the hash never maps two external references to one id, then in every
    run each step moves the status of each proposal along the edges absent to
    queued or active, queued to active, active to resolved or expired, and no
    others: a finished proposal keeps its result for ever, even after its data
    is cleaned up, and a resolved id cannot be opened again. *)
Theorem status_lifecycle n s s' i :
  (forall r c d r' c' d', proposal_hash r c d = proposal_hash r' c' d' -> r = r') ->
  wt_reach n s -> Z.of_nat n + 1 < 2 ^ 64 -> wt_step s s' ->
  status_edge (ProposalStatus s !! i) (ProposalStatus s' !! i).
Proof.
  intros Hinj Hs Hn Hst. pose proof (reach_registered n s Hs ltac:(lia)) as Hreg.
  destruct (step_moves (Z.of_nat n) s s' Hn (wt_reach_ok n s Hs ltac:(lia)) Hst) as [_ Hm].
  destruct (Hm i) as [->|[(p & x & Hi & Hf & _ & Hx & Hor)|[[-> ->]|(x & -> & -> & Hx)]]];
    [constructor| |by constructor..].
  destruct (ProposalStatus s !! i) as [y|] eqn:Hy.
  - destruct (Hreg i y Hy) as (p' & Hi' & [k Hk]). subst i. apply Hinj in Hi'. congruence.
  - rewrite Hx. destruct Hor as [->| ->]; constructor.
Qed.
End Life.
