(* ===== verification/WatchtowerVotes.v ===== *)
(** * What a vote does, and what idle blocks clean up

    The branch of [process_vote] that records a vote, with the verdict stated
    on the numbers of votes instead of the rounded quota; and the progress of
    [on_idle]: with enough weight, finitely many idle blocks remove every
    finished proposal. *)

From S2P Require Import Prelude Errors Collections Interfaces Watchtower WatchtowerQueue WatchtowerInv WatchtowerLife.

Section Votes.
Context `{WatchtowerLaws} `{!PerThingsLaws}.

(** ** The verdict *)

(** Of [n] watchtowers, the share [thr] (in parts per billion) has to agree. *)
Definition verdict (thr n : Z) (v : Vote) : option bool :=
  if decide (0 < n /\ thr * n <= in_favors v * 10 ^ 9) then Some true
  else if decide (0 < n /\ thr * n <= againsts v * 10 ^ 9) then Some false
  else None.

Lemma quota_le thr n v : 0 <= thr <= 10 ^ 9 -> 0 <= n ->
  perbill_mul_ceil thr n <= v <-> thr * n <= v * 10 ^ 9.
Proof.
  intros Ht Hn. rewrite perbill_mul_ceil_spec by done.
  pose proof (Z.div_mod (thr * n + (10 ^ 9 - 1)) (10 ^ 9) ltac:(lia)).
  pose proof (Z.mod_pos_bound (thr * n + (10 ^ 9 - 1)) (10 ^ 9) ltac:(lia)). lia.
Qed.

Lemma threshold_achieved_verdict s i thr :
  0 <= thr <= 10 ^ 9 -> 0 <= get_authorized_watchtowers_count (nodes s) ->
  threshold_achieved s i thr = verdict thr (get_authorized_watchtowers_count (nodes s)) (votes_of s i).
Proof.
  intros Ht Hn. unfold threshold_achieved, verdict.
  set (n := get_authorized_watchtowers_count (nodes s)) in *.
  destruct (Z.eqb_spec n 0) as [->|Hnz]; [by rewrite !decide_False by lia|].
  destruct (Z.leb_spec (perbill_mul_ceil thr n) (in_favors (votes_of s i))) as [Hf|Hf].
  - rewrite decide_True; [done|]. apply quota_le in Hf; [lia|done..].
  - rewrite decide_False.
    2:{ intros [_ Hx]. apply quota_le in Hx; [lia|done..]. }
    destruct (Z.leb_spec (perbill_mul_ceil thr n) (againsts (votes_of s i))) as [Ha|Ha].
    + rewrite decide_True; [done|]. apply quota_le in Ha; [lia|done..].
    + rewrite decide_False; [done|]. intros [_ Hx]. apply quota_le in Hx; [lia|done..].
Qed.

Lemma settle_votes q i p x s :
  Votes (settle q i p x s) = Votes s /\ Voters (settle q i p x s) = Voters s.
Proof. unfold settle. repeat case_match; done. Qed.

Lemma finalise_votes q i p x s r s' :
  WtInv q s -> Proposals s !! i = Some p -> ProposalStatus s !! i = Some Active -> finished x ->
  Tail s < 2 ^ 64 -> finalise_voting i p x s = (r, s') ->
  Votes s' = Votes s /\ Voters s' = Voters s /\ ProposalStatus s' !! i = Some x.
Proof.
  intros HI Hp Hs Hx Ht Hr. destruct (finalise_voting_run q i p x s r s' HI Hp Hs Hx Ht Hr) as [Hc _].
  destruct (settle_votes q i p x s) as [HV HR]. destruct (settle_finished q i p x s HI Hp Hs Hx) as [_ Hst].
  injection Hc as _ H2 H3 H4 _ _ _ _ _. rewrite H2, H3, H4. by destruct (is_ok r).
Qed.

(** A vote that succeeds before the end of the voting period is by an
    eligible account that had not voted; it is recorded once, adds the
    account's weight (one watchtower, or the owner's weight on external
    proposals) to one side of the tally of this proposal and of no other, and
    decides the proposal exactly when the votes of that side reach the
    proposal's share of the registered watchtowers. *)
Theorem vote_counts q s who i p b fin s' :
  WtInv q s -> Tail s < 2 ^ 64 -> Proposals s !! i = Some p -> 0 <= threshold p <= 10 ^ 9 ->
  0 <= get_authorized_watchtowers_count (nodes s) ->
  proposal_expired (block_number s) p = false -> process_vote who i b s = (Ok fin, s') ->
  let v := add_vote b (vote_weight s p who) (votes_of s i) in
  may_vote s p who /\ voters_of s i !! who = None /\
  (forall j, voters_of s' j = if decide (i = j) then <[who := b]> (voters_of s i) else voters_of s j) /\
  (forall j, votes_of s' j = if decide (i = j) then v else votes_of s j) /\
  match verdict (threshold p) (get_authorized_watchtowers_count (nodes s)) v with
  | Some passed => fin = true /\ ProposalStatus s' !! i = Some (Resolved passed)
  | None => fin = false /\ ProposalStatus s' !! i = Some Active
  end.
Proof.
  intros HI Ht Hp Hthr Hcnt Hexp. unfold process_vote, mbind, st_bind, get, lift. rewrite Hp. cbn.
  case_bool_decide as Hst; [|done]. cbn. rewrite Hexp.
  pose proof (status_active _ _ _ _ HI Hp Hst) as Hact.
  destruct (voters_of s i !! who) eqn:Hv; cbn; [done|].
  destruct (weigh_vote s i p who) as [w|e] eqn:Hw; [|done]. apply weigh_ok in Hw as [Hmay ->].
  cbn. set (s2 := set_events _ _).
  assert (Hs2 : core_eq s2 (record_vote who i b (vote_weight s p who) s)) by done.
  assert (HI2 : WtInv q s2).
  { rewrite Hs2. eapply record_vote_inv; [done..|apply internal_weight]. }
  assert (Hvote : forall j, votes_of s2 j =
    if decide (i = j) then add_vote b (vote_weight s p who) (votes_of s i) else votes_of s j)
    by (intros j; exact (record_vote_votes who i b (vote_weight s p who) s j)).
  assert (Hvoter : forall j, voters_of s2 j =
    if decide (i = j) then <[who := b]> (voters_of s i) else voters_of s j)
    by (intros j; exact (record_vote_voters who i b (vote_weight s p who) s j)).
  pose proof (threshold_achieved_verdict s2 i (threshold p) Hthr Hcnt) as Hver.
  rewrite Hvote, decide_True in Hver by done.
  unfold get_finalised_consensus_result. rewrite Hver, Hexp. change (nodes s2) with (nodes s).
  destruct (verdict _ _ _) as [passed|].
  - set (x := get_proposal_status passed).
    assert (Hfx : finished x) by (by unfold x; destruct passed).
    destruct (finalise_voting i p x s2) as [[[]|e] s3] eqn:Hf; intros [= <- <-].
    destruct (finalise_votes q i p x s2 _ _ HI2 Hp Hact Hfx Ht Hf) as (HV & HR & Hst').
    unfold votes_of, voters_of in *. rewrite HV, HR. split_and!; try done.
    rewrite Hst'. unfold x. by destruct passed.
  - intros [= <- <-]. done.
Qed.
End Votes.

(** ** Progress of the clean-up *)

Section Cleanup.
Context `{WatchtowerLaws}.

(** Blocks whose remaining weight covers whatever is asked. *)
Hypothesis ample : forall m, is_Some (consume_expiry_status m) /\ is_Some (consume_finalise m) /\
  (forall k, is_Some (consume_reads k m)) /\ (forall k, is_Some (consume_writes k m)).

Lemma ample_reads k m : exists m', consume_reads k m = Some m'.
Proof. destruct (ample m) as (_ & _ & Hr & _). apply Hr. Qed.
Lemma ample_writes k m : exists m', consume_writes k m = Some m'.
Proof. destruct (ample m) as (_ & _ & _ & Hw). apply Hw. Qed.

Lemma collect_all m l : exists m', collect_voters m l = (l, m').
Proof.
  revert m. induction l as [|who l IH]; intros m; cbn; [by exists m|].
  destruct (ample_reads 1 m) as [m1 ->]. destruct (IH m1) as [m2 ->]. by exists m2.
Qed.

Definition remove_voters (i : Z) (l : list AccountId) (s : WtState) : WtState :=
  foldl (fun s who => remove_voter i who s) s l.

Lemma delete_all i m l s : exists m', delete_voters i m l s = (m', remove_voters i l s).
Proof.
  revert m s. induction l as [|who l IH]; intros m s; cbn; [by exists m|].
  destruct (ample_writes 1 m) as [m1 ->]. apply IH.
Qed.

Lemma remove_voters_of i l s j :
  voters_of (remove_voters i l s) j =
    if decide (i = j) then foldl (fun m who => delete who m) (voters_of s i) l else voters_of s j.
Proof.
  revert s. induction l as [|who l IH]; intros s; [by cbn; case_decide; subst|].
  change (remove_voters i (who :: l) s) with (remove_voters i l (remove_voter i who s)).
  rewrite IH, !remove_voter_voters. by case_decide; [rewrite decide_True|].
Qed.

Lemma remove_voters_frame i l s :
  Proposals (remove_voters i l s) = Proposals s /\ ProposalsToRemove (remove_voters i l s) = ProposalsToRemove s /\
  ActiveInternalProposal (remove_voters i l s) = ActiveInternalProposal s.
Proof.
  revert s. induction l as [|who l IH]; intros s; [done|].
  change (remove_voters i (who :: l) s) with (remove_voters i l (remove_voter i who s)).
  destruct (IH (remove_voter i who s)) as (-> & -> & ->). done.
Qed.

Lemma delete_size (m : gmap AccountId bool) who : (size (delete who m) <= size m)%nat.
Proof.
  destruct (m !! who) as [b|] eqn:Hw; [rewrite map_size_delete_Some by done; lia|by rewrite delete_id].
Qed.
Lemma foldl_delete_size (m : gmap AccountId bool) l :
  (size (foldl (fun m who => delete who m) m l) <= size m)%nat.
Proof.
  revert m. induction l as [|who l IH]; intros m; cbn; [done|]. etransitivity; [apply IH|apply delete_size].
Qed.

(** An idle block deletes at least one voter of a proposal that has some. *)
Lemma voters_decrease s i :
  voters_of s i <> ∅ ->
  (size (voters_of (remove_voters i (take MAX_VOTERS (voters_iter s i)) s) i) < size (voters_of s i))%nat.
Proof.
  intros Hne. rewrite remove_voters_of, decide_True by done.
  destruct (voters_iter s i) as [|who l] eqn:Hl; [by apply no_voters in Hl|].
  assert (Hin : who ∈ (map_to_list (voters_of s i)).*1).
  { rewrite <- voter_order_perm. fold (voters_iter s i). rewrite Hl. by left. }
  apply list_elem_of_fmap in Hin as ([w b] & -> & Hin%elem_of_map_to_list). cbn.
  eapply Nat.le_lt_trans; [apply foldl_delete_size|]. rewrite map_size_delete_Some by done.
  enough (size (voters_of s i) <> 0)%nat by lia. by rewrite map_size_ne_0_lookup; eauto.
Qed.

(** What is left to delete. *)
Definition work (s : WtState) : Z :=
  zsum (fun i => 1 + Z.of_nat (size (voters_of s i))) (elements (ProposalsToRemove s)).

Lemma work_split s i :
  i ∈ ProposalsToRemove s ->
  work s = 1 + Z.of_nat (size (voters_of s i)) +
    zsum (fun j => 1 + Z.of_nat (size (voters_of s j))) (elements (ProposalsToRemove s ∖ {[i]})).
Proof.
  intros Hi. unfold work.
  rewrite (zsum_perm _ _ (i :: elements (ProposalsToRemove s ∖ {[i]}))); [done|].
  rewrite <- elements_union_singleton by set_solver. by rewrite <- union_difference_singleton_L.
Qed.

Lemma work_nonneg s : 0 <= work s.
Proof. apply zsum_nonneg, Forall_forall. intros i _. lia. Qed.

(** One idle block with a finished proposal in store. *)
Lemma idle_progress now m s :
  ActiveInternalProposal s = None -> ProposalsToRemove s <> ∅ ->
  exists i, i ∈ ProposalsToRemove s /\
  let s' := on_idle now m s in
  ActiveInternalProposal s' = None /\ work s' < work s /\
  ((Proposals s' = Proposals s /\ ProposalsToRemove s' = ProposalsToRemove s) \/
   (Proposals s' = delete i (Proposals s) /\ ProposalsToRemove s' = ProposalsToRemove s ∖ {[i]})).
Proof.
  intros Ha Hne. destruct (ample m) as ([m1 Hm1] & _).
  assert (Hidle : on_idle now m s = remove_completed m1 s).
  { unfold on_idle, cleanup_proposals, active_proposal_expiry_status. by rewrite Hm1, Ha. }
  destruct (head (id_order (elements (ProposalsToRemove s)))) as [i|] eqn:Hi.
  2:{ exfalso. apply Hne. apply leibniz_equiv, elements_empty_inv. pose proof (id_order_perm (elements (ProposalsToRemove s))) as Hp.
      destruct (id_order _); [|done]. by apply Permutation_nil_l in Hp. }
  pose proof (first_to_remove s i Hi) as Hin. exists i. split; [done|]. rewrite Hidle.
  unfold remove_completed. destruct (ample_reads 1 m1) as [m2 ->]. rewrite Hi.
  destruct (collect_all m2 (take MAX_VOTERS (voters_iter s i))) as [m3 ->].
  destruct (delete_all i m3 (take MAX_VOTERS (voters_iter s i)) s) as [m4 ->].
  destruct (ample_reads 1 m4) as [m5 ->]. destruct (ample_writes 4 m5) as [m6 ->].
  destruct (remove_voters_frame i (take MAX_VOTERS (voters_iter s i)) s) as (HP & HT & HA).
  remember (remove_voters i (take MAX_VOTERS (voters_iter s i)) s) as s1 eqn:Es1.
  assert (Hrest : zsum (fun j => 1 + Z.of_nat (size (voters_of s1 j))) (elements (ProposalsToRemove s ∖ {[i]})) =
    zsum (fun j => 1 + Z.of_nat (size (voters_of s j))) (elements (ProposalsToRemove s ∖ {[i]}))).
  { apply zsum_ext. intros j Hj%elem_of_elements. rewrite Es1, remove_voters_of, decide_False; [done|set_solver]. }
  case_bool_decide as Hv; cbn zeta.
  - split; [exact (eq_trans HA Ha)|]. split; [|right; cbn; by rewrite HP, HT].
    rewrite (work_split s i Hin). unfold work. cbn. rewrite HT.
    match goal with |- ?x < _ => change x with
      (zsum (fun j => 1 + Z.of_nat (size (voters_of s1 j))) (elements (ProposalsToRemove s ∖ {[i]}))) end. lia.
  - split; [by rewrite HA|]. split; [|left; by rewrite HP, HT].
    rewrite (work_split s i Hin), (work_split s1 i) by (by rewrite HT). rewrite HT, Hrest.
    enough (size (voters_of s1 i) < size (voters_of s i))%nat by lia. rewrite Es1. apply voters_decrease.
    intros He. apply Hv, no_voters. rewrite Es1, remove_voters_of, decide_True, He by done.
    assert (Hf : forall l, foldl (fun m who => delete who m) (∅ : gmap AccountId bool) l = ∅)
      by (induction l; cbn; [done|by rewrite delete_empty]). apply Hf.
Qed.

(** A run of idle blocks. *)
Definition idle_run (l : list (Z * Meter)) (s : WtState) : WtState :=
  foldl (fun s '(now, m) => on_idle now m s) s l.

Lemma idle_run_done l s :
  ActiveInternalProposal s = None -> work s <= Z.of_nat (length l) ->
  ProposalsToRemove (idle_run l s) = ∅ /\
  (forall i, i ∈ ProposalsToRemove s \/ Proposals s !! i = None -> Proposals (idle_run l s) !! i = None).
Proof.
  revert s. induction l as [|[now m] l IH]; intros s Ha Hw; cbn in Hw.
  - destruct (decide (ProposalsToRemove s = ∅)) as [He|He].
    + split; [done|]. intros i [Hi|Hi]; [set_solver|done].
    + exfalso. apply set_choose_L in He as [i Hi]. rewrite (work_split s i Hi) in Hw.
      assert (0 <= zsum (fun j => 1 + Z.of_nat (size (voters_of s j))) (elements (ProposalsToRemove s ∖ {[i]})))
        by (apply zsum_nonneg, Forall_forall; intros; lia). lia.
  - change (idle_run ((now, m) :: l) s) with (idle_run l (on_idle now m s)).
    destruct (decide (ProposalsToRemove s = ∅)) as [He|He].
    + assert (Hs : on_idle now m s = s).
      { unfold on_idle, cleanup_proposals, active_proposal_expiry_status. rewrite Ha. cbn.
        destruct (consume_expiry_status m) as [m1|]; [|done]. unfold remove_completed.
        destruct (consume_reads 1 m1); [|done]. rewrite He, elements_empty.
        pose proof (id_order_perm []) as Hp. apply Permutation_nil_r in Hp. by rewrite Hp. }
      rewrite Hs. apply IH; [done|]. unfold work. rewrite He, elements_empty. cbn. lia.
    + destruct (idle_progress now m s Ha He) as (i & Hi & Ha' & Hw' & Hor).
      destruct (IH (on_idle now m s) Ha' ltac:(lia)) as [Hd Hn]. split; [done|].
      intros j Hj. apply Hn. destruct Hor as [[-> ->]|[-> ->]]; [done|].
      destruct (decide (i = j)) as [->|Hij]; [right; apply lookup_delete_eq|].
      destruct Hj as [Hj|Hj]; [left; set_solver|right; by rewrite lookup_delete_ne].
Qed.

Lemma idle_run_ok n l s : n + 1 < 2 ^ 64 -> wt_ok n s -> wt_ok n (idle_run l s).
Proof.
  intros Hn. revert s. induction l as [|[now m] l IH]; intros s Hs; cbn; [done|].
  by apply IH, on_idle_ok.
Qed.

(** Clean-up ends: once no internal proposal is active, as many idle blocks
    with enough weight as there are finished proposals and votes on them (plus
    any number more) leave nothing to remove, and of every finished proposal
    that was marked neither its data, its tally nor a single voter. *)
Theorem cleanup_completes n s l i :
  wt_reach n s -> Z.of_nat n + 1 < 2 ^ 64 -> ActiveInternalProposal s = None ->
  work s <= Z.of_nat (length l) -> i ∈ ProposalsToRemove s ->
  ProposalsToRemove (idle_run l s) = ∅ /\ Proposals (idle_run l s) !! i = None /\
  votes_of (idle_run l s) i = Vote_default /\ voters_of (idle_run l s) i = ∅.
Proof.
  intros Hs Hn Ha Hw Hi. destruct (idle_run_done l s Ha Hw) as [Hd Hp].
  destruct (idle_run_ok (Z.of_nat n) l s Hn (wt_reach_ok n s Hs ltac:(lia))) as (q & HI & _).
  specialize (Hp i (or_introl Hi)). split; [done|]. split; [done|]. exact (inv_fresh _ _ HI i Hp).
Qed.
End Cleanup.
