(* ===== verification/SummaryWatchtower.v ===== *)
(** * The summary-watchtower pallet behind the watchtower

    [pallets/summary-watchtower/src/lib.rs]: the hooks that keep the root of
    the active summary proposal for the off-chain workers, the off-chain
    worker's own bookkeeping, and the two pallets together.  SCALE decoding of
    the payload, the session keys, the transaction pool and the services the
    worker asks are parameters. *)

From S2P Require Import Prelude Errors Collections Interfaces Watchtower WatchtowerQueue WatchtowerInv WatchtowerLife.

(** ** State *)

(** [RootId] of [sp_avn_common] with its range, and its SCALE decoding in a
    pair with the hash. *)
Class SummaryCodec := {
  RootId : Type;
  from_block : RootId -> Z;
  to_block : RootId -> Z;
  decode_root : list Z -> option (RootId * Z) }.

Section Summary.
Context `{SummaryCodec}.

Record RootData := mkRoot { root_id : RootId; root_hash : Z }.

Inductive SummaryEvent :=
| SummaryVerificationRequested (proposal_id : Z) (root_data : RootData)
| ProposalValidationReplaced (aborted_proposal_id new_proposal_id : Z).

Record SwState := mkSw { RootInfo : option (Z * RootData); sw_events : list SummaryEvent }.

Definition set_RootInfo x s := mkSw x (sw_events s).
Definition sw_deposit_event (e : SummaryEvent) (s : SwState) : SwState :=
  mkSw (RootInfo s) (sw_events s ++ [e]).

Definition sw_error (e : SummaryWatchtowerError) : DispatchError := Module_ (SummaryWatchtowerErr e).

(** ** The hooks *)

Definition remove_root_if_needed (new_proposal_id : Z) (s : SwState) : SwState :=
  match RootInfo s with
  | Some (id, _) => sw_deposit_event (ProposalValidationReplaced id new_proposal_id) (set_RootInfo None s)
  | None => s
  end.

Definition process_new_proposal (current_block proposal_id : Z) (proposal : Proposal) :
    ST DispatchError SwState unit :=
  '(id, hash) ← lift
    match payload proposal with
    | Inline data => ok_or (decode_root data) (sw_error InvalidSummaryProposal)
    | Uri _ => Err (sw_error ExternalPayloadNotSupported)
    end;
  lift (ensure ((from_block id <=? to_block id) && (to_block id <=? current_block))
          (sw_error InvalidSummaryProposal)) ;;
  modify (remove_root_if_needed proposal_id) ;;
  let root_data := mkRoot id hash in
  modify (set_RootInfo (Some (proposal_id, root_data))) ;;
  modify (sw_deposit_event (SummaryVerificationRequested proposal_id root_data)).

Definition sw_on_proposal_submitted (current_block proposal_id : Z) (proposal : Proposal) :
    ST DispatchError SwState unit :=
  match source proposal with
  | Internal Anchor | Internal Summary => process_new_proposal current_block proposal_id proposal
  | _ => mret tt
  end.

(** Forget the root of the proposal that ended or was cancelled. *)
Definition clear_root (proposal_id : Z) (s : SwState) : SwState :=
  match RootInfo s with
  | Some (stored_proposal_id, _) => if stored_proposal_id =? proposal_id then set_RootInfo None s else s
  | None => s
  end.
Definition sw_on_voting_completed (proposal_id external_ref : Z) (result : ProposalStatusEnum)
    (s : SwState) : SwState := clear_root proposal_id s.
Definition on_cancelled (proposal_id external_ref : Z) (s : SwState) : SwState := clear_root proposal_id s.

#[global] Instance summary_hooks : WatchtowerHooks SwState := {|
  on_proposal_submitted := sw_on_proposal_submitted;
  on_voting_completed := sw_on_voting_completed |}.
End Summary.

(** ** The off-chain worker *)

(** What the worker asks of the node and of the services around it. *)
Class SummaryOffchain `{SummaryCodec} := {
  (** [ocw_lock::record_block_run] with the pallet's caller id *)
  ocw_already_run : Z -> bool;
  node_from_local_signing_keys : option (AccountId * Z);
  (** [None] when the service does not answer *)
  finalised_block : option Z;
  (** [validate_root]: the lock, and the hash the service recomputes *)
  try_lock : Z -> Z -> RootData -> bool;
  calculate_root_hash : Z -> Z -> option Z;
  sign : Z -> SignedPayload -> option Z;
  submit_unsigned_transaction : Call -> bool;
  (** a write to the local database that finds no concurrent one *)
  write_ok : Z -> AccountId -> bool }.

Section Offchain.
Context `{SummaryOffchain}.

(** The worker's persistent storage: the block of the last submission. *)
Abbreviation OffchainDb := (gmap (Z * AccountId) Z).

Definition BLOCK_INCLUSION_PERIOD : Z := 5.

Definition record_vote_submission (block_number proposal_id : Z) (watchtower : AccountId) (db : OffchainDb) :
    option OffchainDb :=
  if write_ok proposal_id watchtower then Some (<[(proposal_id, watchtower) := block_number]> db) else None.

Definition vote_in_progress (proposal_id : Z) (watchtower : AccountId) (block_number : Z) (db : OffchainDb) :
    bool :=
  match db !! (proposal_id, watchtower) with
  | Some last_submission => block_number <=? saturating_add 32 last_submission BLOCK_INCLUSION_PERIOD
  | None => false
  end.

Definition validate_root (now : Z) (root_data : RootData) (proposal_id : Z) : option bool :=
  if try_lock now proposal_id root_data then
    recalculated_hash ← calculate_root_hash (from_block (root_id root_data)) (to_block (root_id root_data));
    Some (recalculated_hash =? root_hash root_data)
  else None.

(** The transactions sent to the pool, and the database. *)
Definition submit_vote (proposal_id : Z) (in_favor : bool) (signing_key : Z) (watchtower : AccountId)
    (block_number : Z) (db : OffchainDb) : list Call * OffchainDb :=
  match sign signing_key (UnsignedVote proposal_id in_favor watchtower) with
  | None => ([], db)
  | Some signature =>
      let call := unsigned_vote_call proposal_id in_favor watchtower signature in
      if submit_unsigned_transaction call
      then ([call], default db (record_vote_submission block_number proposal_id watchtower db))
      else ([], db)
  end.

Definition process_pending_validation (proposal_id : Z) (root_data : RootData) (watchtower : AccountId)
    (signing_key now : Z) (db : OffchainDb) : list Call * OffchainDb :=
  if vote_in_progress proposal_id watchtower now db then ([], db) else
  match validate_root now root_data proposal_id with
  | Some in_favor => submit_vote proposal_id in_favor signing_key watchtower now db
  | None => ([], db)
  end.

Definition offchain_worker (now : Z) (s : SwState) (db : OffchainDb) : list Call * OffchainDb :=
  if ocw_already_run now then ([], db) else
  match node_from_local_signing_keys, RootInfo s with
  | Some (watchtower, signing_key), Some (proposal_id, root_data) =>
      match finalised_block with
      | Some b => if b <? to_block (root_id root_data) then ([], db)
                  else process_pending_validation proposal_id root_data watchtower signing_key now db
      | None => process_pending_validation proposal_id root_data watchtower signing_key now db
      end
  | _, _ => ([], db)
  end.

(** The only call a worker sends, and when. *)
Lemma worker_call now s db calls db' c :
  offchain_worker now s db = (calls, db') -> c ∈ calls ->
  exists proposal_id d watchtower key b sig,
    c = unsigned_vote_call proposal_id b watchtower sig /\ RootInfo s = Some (proposal_id, d) /\
    node_from_local_signing_keys = Some (watchtower, key) /\
    sign key (UnsignedVote proposal_id b watchtower) = Some sig /\
    (exists h, calculate_root_hash (from_block (root_id d)) (to_block (root_id d)) = Some h /\
       b = (h =? root_hash d)) /\
    vote_in_progress proposal_id watchtower now db = false /\
    db' = default db (record_vote_submission now proposal_id watchtower db).
Proof.
  unfold offchain_worker. intros Hr Hc.
  destruct (ocw_already_run now); [injection Hr as <- <-; by apply elem_of_nil in Hc|].
  destruct node_from_local_signing_keys as [[w key]|]; [|injection Hr as <- <-; by apply elem_of_nil in Hc].
  destruct (RootInfo s) as [[i d]|]; [|injection Hr as <- <-; by apply elem_of_nil in Hc].
  assert (Hp : process_pending_validation i d w key now db = (calls, db')).
  { destruct finalised_block as [fb|]; [|done]. destruct (fb <? _); [|done].
    injection Hr as <- <-. by apply elem_of_nil in Hc. }
  clear Hr. unfold process_pending_validation, validate_root, submit_vote in Hp.
  destruct (vote_in_progress i w now db) eqn:Hv; [injection Hp as <- <-; by apply elem_of_nil in Hc|].
  destruct (try_lock _ _ _); [|injection Hp as <- <-; by apply elem_of_nil in Hc].
  destruct (calculate_root_hash _ _) as [h|] eqn:Hh; cbn in Hp; [|injection Hp as <- <-; by apply elem_of_nil in Hc].
  destruct (sign _ _) as [sig|] eqn:Hs; [|injection Hp as <- <-; by apply elem_of_nil in Hc].
  destruct (submit_unsigned_transaction _); injection Hp as <- <-; [|by apply elem_of_nil in Hc].
  apply list_elem_of_singleton in Hc as ->. eauto 20.
Qed.

(** No second vote within the inclusion period of the first. *)
Lemma submission_blocks now later i w db db' :
  record_vote_submission now i w db = Some db' -> later <= saturating_add 32 now BLOCK_INCLUSION_PERIOD ->
  vote_in_progress i w later db' = true.
Proof.
  unfold record_vote_submission, vote_in_progress. destruct (write_ok i w); [|done]. intros [= <-] Hl.
  rewrite lookup_insert_eq. by apply Z.leb_le.
Qed.
End Offchain.

(** ** The two pallets together *)

(** A watchtower configuration with other hooks. *)
Definition with_hooks (c : WatchtowerConfig) {S : Type} (h : WatchtowerHooks S) : WatchtowerConfig := {|
  SignedTxLifetime := SignedTxLifetime;
  MaxTitleLen := MaxTitleLen;
  MaxInlineLen := MaxInlineLen;
  MaxUriLen := MaxUriLen;
  MaxInternalProposalLen := MaxInternalProposalLen;
  wt_per_things := wt_per_things;
  HooksState := S;
  wt_hooks := h;
  ExternalProposerOrigin := ExternalProposerOrigin;
  NodesState := NodesState;
  is_authorized_watchtower := is_authorized_watchtower;
  is_watchtower_owner := is_watchtower_owner;
  get_authorized_watchtowers_count := get_authorized_watchtowers_count;
  get_watchtower_voting_weight := get_watchtower_voting_weight;
  get_node_signing_key := get_node_signing_key;
  encode := encode;
  verify_signature := verify_signature;
  verify_session_signature := verify_session_signature;
  default_status := default_status;
  proposal_hash := proposal_hash;
  Meter := Meter;
  consume_expiry_status := consume_expiry_status;
  consume_finalise := consume_finalise;
  consume_reads := consume_reads;
  consume_writes := consume_writes;
  id_order := id_order;
  voter_order := voter_order |}.

#[global] Instance with_hooks_laws (c : WatchtowerConfig) (S : Type) (h : WatchtowerHooks S) :
  @WatchtowerLaws c -> @WatchtowerLaws (with_hooks c h).
Proof. intros [H1 H2 H3]. by split. Qed.

(** A configuration that is not the one in use. *)
Definition OtherConfig : Type := WatchtowerConfig.

Section Composed.
Context (base : OtherConfig) `{!SummaryCodec} {Laws : @WatchtowerLaws base}.

#[local] Instance composed : WatchtowerConfig := with_hooks base summary_hooks.

Definition replaced (e : SummaryEvent) : Prop :=
  match e with ProposalValidationReplaced _ _ => True | _ => False end.

(** The stored root belongs to the active internal proposal, and none was
    ever replaced. *)
Definition root_ok (s : WtState) : Prop :=
  (forall i d, RootInfo (hooks s) = Some (i, d) ->
     ActiveInternalProposal s = Some i /\
     exists p data, Proposals s !! i = Some p /\ payload p = Inline data /\
       decode_root data = Some (root_id d, root_hash d)) /\
  Forall (fun e => ~ replaced e) (sw_events (hooks s)).

(** A successful hook on a state without a root stores the new one. *)
Lemma submitted_root b i p (h : SwState) :
  RootInfo h = None -> Forall (fun e => ~ replaced e) (sw_events h) ->
  let h' := (sw_on_proposal_submitted b i p h).2 in
  Forall (fun e => ~ replaced e) (sw_events h') /\
  forall j d, RootInfo h' = Some (j, d) ->
    j = i /\ is_external (source p) = false /\
    exists data, payload p = Inline data /\ decode_root data = Some (root_id d, root_hash d).
Proof.
  intros Hn Hf. unfold sw_on_proposal_submitted.
  assert (Hpn : let h' := (process_new_proposal b i p h).2 in
    Forall (fun e => ~ replaced e) (sw_events h') /\
    forall j d, RootInfo h' = Some (j, d) ->
      j = i /\ exists data, payload p = Inline data /\ decode_root data = Some (root_id d, root_hash d)).
  { unfold process_new_proposal, mbind, st_bind, lift. destruct (payload p) as [data|u]; cbn; [|by rewrite Hn].
    destruct (decode_root data) as [[rid hash]|] eqn:Hd; cbn; [|by rewrite Hn].
    unfold ensure. destruct (_ && _); cbn; [|by rewrite Hn]. unfold remove_root_if_needed. rewrite Hn. cbn.
    split; [apply Forall_app; split; [done|by repeat constructor; intros []]|].
    intros j d [= <- <-]. split; [done|]. by exists data. }
  destruct (source p) as [[]|]; cbn; try (by rewrite Hn); naive_solver.
Qed.

(** An external proposal does not reach the pallet. *)
Lemma submitted_external b i p (h : SwState) :
  is_external (source p) = true -> (sw_on_proposal_submitted b i p h).2 = h.
Proof. unfold sw_on_proposal_submitted. by destruct (source p) as [[]|]. Qed.

Lemma completed_root i r x (h : SwState) j d :
  RootInfo (sw_on_voting_completed i r x h) = Some (j, d) -> RootInfo h = Some (j, d) /\ j <> i.
Proof.
  unfold sw_on_voting_completed, clear_root. destruct (RootInfo h) as [[k e]|] eqn:Hk; [|congruence].
  destruct (Z.eqb_spec k i) as [->|Hne]; cbn; [done|]. rewrite Hk. intros [= -> ->]. done.
Qed.
Lemma completed_events i r x (h : SwState) : sw_events (sw_on_voting_completed i r x h) = sw_events h.
Proof. unfold sw_on_voting_completed, clear_root. repeat case_match; done. Qed.

(** The hook of a proposal that has just become the active one. *)
Lemma activated_root b i p (h : SwState) (s' : WtState) :
  RootInfo h = None -> Forall (fun e => ~ replaced e) (sw_events h) ->
  hooks s' = (sw_on_proposal_submitted b i p h).2 ->
  (is_external (source p) = false -> ActiveInternalProposal s' = Some i) -> Proposals s' !! i = Some p -> root_ok s'.
Proof.
  intros Hn Hf Hh Ha Hp. destruct (submitted_root b i p h Hn Hf) as [He Hr]. unfold root_ok. rewrite Hh.
  split; [|done]. intros j d Hj. destruct (Hr j d Hj) as (-> & Hx & data & ? & ?).
  split; [by apply Ha|]. by exists p, data.
Qed.

Lemma finalise_root n i p x s r s' :
  n + 1 < 2 ^ 64 -> wt_ok n s -> Proposals s !! i = Some p -> ProposalStatus s !! i = Some Active ->
  finished x -> finalise_voting i p x s = (r, s') -> root_ok s -> root_ok s'.
Proof.
  intros Hn (q & HI & Ht) Hp Hs Hx Hr [Hok Hev].
  destruct (finalise_voting_run q i p x s r s' HI Hp Hs Hx ltac:(lia) Hr) as (Hc & _ & Hh).
  destruct (active_entry _ _ _ _ HI Hp Hs) as (_ & _ & _ & Ha).
  assert (Hcore : ActiveInternalProposal s' = ActiveInternalProposal (settle q i p x s) /\
    Proposals s' = Proposals (settle q i p x s)) by (injection Hc; by destruct (is_ok r)).
  destruct Hcore as [HA HP]. unfold settle, settle_hooks in *.
  assert (Hev' : Forall (fun e => ~ replaced e) (sw_events (sw_on_voting_completed i (external_ref p) x (hooks s))))
    by (by rewrite completed_events).
  destruct (is_external (source p)) eqn:Hsrc.
  - split; rewrite Hh; [|exact Hev']. intros j d Hj.
    destruct (completed_root i (external_ref p) x (hooks s) j d Hj) as [Hj' _].
    rewrite HA, HP. exact (Hok j d Hj').
  - assert (Hnone : RootInfo (sw_on_voting_completed i (external_ref p) x (hooks s)) = None).
    { destruct (RootInfo (sw_on_voting_completed _ _ _ _)) as [[j d]|] eqn:Hj; [|done].
      apply completed_root in Hj as [Hj Hne]. destruct (Hok j d Hj) as [Hact _]. rewrite (Ha eq_refl) in Hact. congruence. }
    destruct q as [|j q].
    + split; rewrite Hh; [|exact Hev']. intros j d Hj. pose proof (eq_trans (eq_sym Hnone) Hj). done.
    + eapply activated_root; [exact Hnone|exact Hev'|exact Hh|by rewrite HA|].
      rewrite HP. apply lookup_insert_eq.
Qed.

Lemma store_hooks i p x s r s' :
  store_proposal i p x s = (r, s') ->
  hooks s' = if decide (x = Active) then (sw_on_proposal_submitted (block_number s) i p (hooks s)).2 else hooks s.
Proof.
  unfold store_proposal, put_status, deposit_event, mbind, st_bind, modify; cbn.
  case_decide; [|by intros [= <- <-]].
  destruct (run_submitted_hook _ _ _) as [[[]|e] s2] eqn:Hh; apply hook_core in Hh as (_ & _ & Hr);
    intros [= <- <-]; exact Hr.
Qed.

Lemma place_active i p s p' x s1 :
  place_proposal i p s = (Ok (p', x), s1) ->
  hooks s1 = hooks s /\ Proposals s1 = Proposals s /\
  ((x = Queued /\ ActiveInternalProposal s1 = ActiveInternalProposal s) \/
   (x = Active /\ is_external (source p') = true /\ ActiveInternalProposal s1 = ActiveInternalProposal s) \/
   (x = Active /\ is_external (source p') = false /\ ActiveInternalProposal s = None /\
    ActiveInternalProposal s1 = Some i)).
Proof.
  unfold place_proposal. intros (a & s2 & [-> ->]%get_ok & Hr)%bind_ok.
  destruct (source p) eqn:Hsrc; [destruct (ActiveInternalProposal s) eqn:Hact|].
  - apply bind_ok in Hr as (u & s3 & He & [[= -> ->] ->]%mret_ok). unfold enqueue in He. run_step He.
    split_and!; [done..|left; by rewrite <- Hact].
  - apply bind_ok in Hr as (u & s3 & [_ ->]%modify_ok & [[= -> ->] ->]%mret_ok). cbn. rewrite Hsrc.
    naive_solver.
  - apply mret_ok in Hr as [[= -> ->] ->]. cbn. rewrite Hsrc. naive_solver.
Qed.

Lemma add_root who req : respects (fun _ s s' => root_ok s -> root_ok s') (add_proposal who req).
Proof.
  intros n s r s' _ _. unfold add_proposal, mbind, st_bind, get, lift.
  destruct (to_proposal _ _ _ _) as [p|e] eqn:Hp; [|by intros [= <- <-]].
  destruct (ExternalRef s !! external_ref p) eqn:Hf; cbn; [by intros [= <- <-]|].
  destruct (Proposals s !! _) eqn:Hi; cbn; [by intros [= <- <-]|].
  destruct (place_proposal _ _ _) as [[[p' x]|e] s1] eqn:Hpl.
  2:{ apply place_err in Hpl as ->. by intros [= <- <-]. }
  apply place_active in Hpl as (Hh1 & HP1 & Hor). intros Hst [Hok Hev].
  pose proof (store_hooks _ _ _ _ _ _ Hst) as Hh. apply store_core in Hst.
  injection Hst as HP _ _ _ HA _ _ _ _. cbn in HP, HA. rewrite HP1 in HP. rewrite Hh1 in Hh.
  assert (Hkeep : hooks s' = hooks s -> ActiveInternalProposal s1 = ActiveInternalProposal s -> root_ok s').
  { intros Hs Ha. split; rewrite Hs; [|done]. intros j d Hj. destruct (Hok j d Hj) as (? & p1 & data & ? & ?).
    rewrite HA, Ha. split; [done|]. exists p1, data. rewrite HP, lookup_insert_ne; [done|congruence]. }
  destruct Hor as [[-> Ha]|[(-> & Hx & Ha)|(-> & Hx & Hn & Ha)]].
  - by apply Hkeep.
  - rewrite decide_True, submitted_external in Hh by done. by apply Hkeep.
  - rewrite decide_True in Hh by done. eapply activated_root; [|exact Hev|exact Hh|by rewrite HA|].
    + destruct (RootInfo (hooks s)) as [[j d]|] eqn:Hj; [|done]. destruct (Hok j d eq_refl). congruence.
    + rewrite HP. apply lookup_insert_eq.
Qed.

Lemma root_core s s' : core_eq s' s -> hooks s' = hooks s -> root_ok s -> root_ok s'.
Proof.
  intros Hc Hh [Hok Hev]. injection Hc as HP _ _ _ HA _ _ _ _. split; rewrite Hh; [|done].
  intros j d Hj. rewrite HA, HP. by apply Hok.
Qed.

Lemma vote_root who i b : respects (fun _ s s' => root_ok s -> root_ok s') (process_vote who i b).
Proof.
  intros n s r s' Hn Hs Hr Hok.
  destruct (process_vote_cases n who i b s r s' Hs Hr)
    as [->|(p & Hp & Ha & [(x & r' & Hx & Hf)|(s2 & Hc & Hv & He & Hh & Hor)])];
    [done|by eapply finalise_root|].
  assert (Hs2 : wt_ok n s2) by (eapply wt_ok_core; [exact Hc|by apply record_vote_ok]).
  assert (Hok2 : root_ok s2).
  { eapply (root_core (record_vote who i b (vote_weight s p who) s)); [exact Hc|by rewrite Hh|exact Hok]. }
  injection Hc as H1 H2 _ _ _ _ _ _ _. cbn in H1, H2.
  destruct Hor as [->|(x & r' & Hx & Hf)]; [done|].
  eapply finalise_root; [done|exact Hs2| | |exact Hx|exact Hf|done]; [by rewrite H1|by rewrite H2].
Qed.

Lemma dispatch_root o c : respects (fun _ s s' => root_ok s -> root_ok s') (dispatch o c).
Proof.
  apply respects_dispatch; [done|apply add_root|apply vote_root| |].
  - intros n s i p r s' Hn Hs Hp Hst Hf. eapply finalise_root; [done..| |apply expiry_finished|exact Hf].
    destruct Hs as (q & HI & _). by eapply status_active.
  - intros n s s' _ Hc _ Hh. by apply root_core.
Qed.
Lemma remove_completed_root n m s : wt_ok n s -> root_ok s -> root_ok (remove_completed m s).
Proof.
  intros Hs [Hok Hev]. destruct (remove_completed_frame m s) as (_ & _ & Hh & Ha).
  split; rewrite Hh; [|done]. intros j d Hj. destruct (Hok j d Hj) as (Hact & p & data & Hp & ? & ?).
  rewrite Ha. split; [done|]. exists p, data. by rewrite (remove_completed_active n m s j p).
Qed.

Lemma step_root n s s' :
  n + 1 < 2 ^ 64 -> wt_ok n s -> wt_step s s' -> root_ok s -> root_ok s'.
Proof.
  intros Hn Hs Hst Hok. destruct Hst as [s o c|s who req|s now m|s b|s x]; [| | |by apply (root_core s)|by apply (root_core s)].
  - unfold exec. destruct (dispatch o c s) as [r s'] eqn:Hr. by eapply dispatch_root.
  - unfold exec. destruct (submit_proposal who req s) as [r s'] eqn:Hr. by eapply add_root.
  - unfold on_idle, cleanup_proposals. destruct (consume_expiry_status m) as [m1|]; [|done].
    destruct (active_proposal_expiry_status s now) as [[[i p] []]|] eqn:Hx; [|done|by eapply remove_completed_root].
    destruct (consume_finalise m1) as [m2|]; [|done].
    destruct (expiry_status_active _ _ _ _ _ _ Hs Hx) as (Hp & Ha & _).
    destruct (finalise_expired_voting i p s) as [r s1] eqn:Hf. unfold exec. rewrite Hf. cbn.
    eapply remove_completed_root.
    + eapply finalise_keeps; [done..|apply expiry_finished|exact Hf].
    + eapply finalise_root; [done..|apply expiry_finished|exact Hf|done].
Qed.

Lemma run_root s0 n s :
  wt_initial s0 -> hooks s0 = mkSw None [] -> wt_run s0 n s -> Z.of_nat n < 2 ^ 64 -> root_ok s.
Proof.
  intros H0 Hh Hs Hn. induction Hs as [|n s s' Hs IH Hst].
  - unfold root_ok. rewrite Hh. by split; [|constructor].
  - eapply (step_root (Z.of_nat n)); [lia|apply wt_reach_ok; [by exists s0|lia]|done|apply IH; lia].
Qed.

(** The watchtower with the summary pallet behind its hooks: in every run
    from an empty storage the root kept for the off-chain workers is the
    decoded inline payload of the active internal proposal, so workers never
    vote on a finished or queued one, and no stored root is ever replaced by
    another (the event for it is never deposited). *)
Theorem root_is_active s0 n s i d :
  wt_initial s0 -> hooks s0 = mkSw None [] -> wt_run s0 n s -> Z.of_nat n < 2 ^ 64 ->
  Forall (fun e => ~ replaced e) (sw_events (hooks s)) /\
  (RootInfo (hooks s) = Some (i, d) ->
     ActiveInternalProposal s = Some i /\
     exists p data, Proposals s !! i = Some p /\ payload p = Inline data /\
       decode_root data = Some (root_id d, root_hash d)).
Proof.
  intros H0 Hh Hs Hn. destruct (run_root s0 n s H0 Hh Hs Hn) as [Hok Hev]. split; [done|by apply Hok].
Qed.

(** A worker's vote reaches the tally: whatever call the off-chain worker
    of a registered node sends on the stored root is an unsigned vote on the
    active internal proposal, in favour exactly when the recomputed hash is the
    proposed one, and dispatching it passes every check before [process_vote];
    the worker then stays silent about this proposal for the inclusion
    period. *)
Theorem worker_vote_accepted `{!SummaryOffchain} s0 n s now db calls db' c :
  wt_initial s0 -> hooks s0 = mkSw None [] -> wt_run s0 n s -> Z.of_nat n < 2 ^ 64 ->
  (forall key x sig, sign key x = Some sig -> verify_session_signature key (encode x) sig = true) ->
  (forall w key, node_from_local_signing_keys = Some (w, key) -> get_node_signing_key (nodes s) w = Some key) ->
  offchain_worker now (hooks s) db = (calls, db') -> c ∈ calls ->
  exists i d w b,
    ActiveInternalProposal s = Some i /\ RootInfo (hooks s) = Some (i, d) /\
    (exists h, calculate_root_hash (from_block (root_id d)) (to_block (root_id d)) = Some h /\
       b = (h =? root_hash d)) /\
    dispatch NoOrigin c s = transactional (process_vote w i b ;; mret tt) s /\
    forall later db1, record_vote_submission now i w db = Some db1 ->
      later <= saturating_add 32 now BLOCK_INCLUSION_PERIOD -> vote_in_progress i w later db' = true.
Proof.
  intros Hi0 Hh Hrun Hn Hsig Hkey Hw Hc.
  destruct (worker_call _ _ _ _ _ _ Hw Hc) as (i & d & w & key & b & sig & -> & Hroot & Hnode & Hs & Hhash & _ & Hdb).
  destruct (run_root s0 n s Hi0 Hh Hrun Hn) as [Hok _]. destruct (Hok i d Hroot) as [Hact _].
  exists i, d, w, b. split_and!; [done..| |].
  - unfold dispatch, unsigned_vote, transactional, mbind, st_bind, lift, get. cbn.
    pose proof (Hkey w key Hnode) as Hk. pose proof (Hsig _ _ _ Hs) as Hv. cbn in Hk, Hv.
    rewrite (bool_decide_eq_true_2 _ Hact). cbn. rewrite Hk. cbn.
    unfold offchain_signature_is_valid. cbn. by rewrite Hv.
  - intros later db1 Hr Hl. rewrite Hdb, Hr. cbn. by eapply submission_blocks.
Qed.
End Composed.
