(* ===== verification/RuntimeOrigins.v ===== *)
(** * Origins of the runtime

    The guards [src/runtime/src/lib.rs] defines itself and plugs into pallets:
    [EnsureConfigAdmin], [EnsureAdminOrRoot], [EnsureExternalProposerOrRoot], the
    accounts that keep their dust, and the order of origins the scheduler asks
    for; and what the second guard means for the watchtower. *)

From S2P Require Import Prelude Errors Collections Interfaces PalletConfig Watchtower.

(** ** The guards *)

(** [EnsureOrigin::try_origin] hands back the origin it refuses. *)
Definition EnsureConfigAdmin (s : ConfigState) (o : Origin) : Result Origin AccountId :=
  match o with
  | Signed who =>
      match config_admin s with
      | Ok admin => if bool_decide (who = admin) then Ok who else Err o
      | Err _ => Err o
      end
  | _ => Err o
  end.

Definition EnsureRoot (o : Origin) : Result Origin unit :=
  match o with Root => Ok tt | _ => Err o end.

(** [EitherOfDiverse]: the first guard, otherwise the second. *)
Definition EnsureAdminOrRoot (s : ConfigState) (o : Origin) : Result Origin (AccountId + unit) :=
  match EnsureConfigAdmin s o with
  | Ok who => Ok (inl who)
  | Err o => inr <$> EnsureRoot o
  end.

(** [admin] is what [Watchtower::proposal_admin] returns. *)
Definition EnsureExternalProposerOrRoot (admin : Res AccountId) (o : Origin) : Result Origin (option AccountId) :=
  match EnsureRoot o with
  | Ok _ => Ok None
  | Err _ =>
      match o with
      | Signed who =>
          match admin with
          | Ok admin => if bool_decide (who = admin) then Ok (Some who) else Err (Signed who)
          | Err _ => Ok (Some who)
          end
      | o => Err o
      end
  end.

(** [ensure_origin] turns a refusal into [BadOrigin]. *)
Definition external_proposer_origin (admin : option AccountId) (o : Origin) : Res (option AccountId) :=
  map_err (fun _ => BadOrigin) (EnsureExternalProposerOrRoot (ok_or admin (wt_error AdminAccountNotSet)) o).

(** ** Accounts that keep their dust *)

Section Dust.
Context {PalletId : Type} `{EqDecision PalletId}.
(** The accounts of pallets and of their sub-accounts. *)
Context (try_from_sub_account : AccountId -> option PalletId) (into_account_truncating : PalletId -> AccountId).
Context (AuthorizedPalletId CourtPalletId GlobalDisputesPalletId HybridRouterPalletId OrderbookPalletId PmPalletId TreasuryPalletId : PalletId).

Definition dust_pallets : list PalletId :=
  [AuthorizedPalletId; CourtPalletId; GlobalDisputesPalletId; HybridRouterPalletId; OrderbookPalletId; PmPalletId; TreasuryPalletId].

Definition DustRemovalWhitelist_contains (ai : AccountId) : bool :=
  match try_from_sub_account ai with
  | Some pallet_id => bool_decide (pallet_id ∈ dust_pallets)
  | None => existsb (fun pallet_id => bool_decide (into_account_truncating pallet_id = ai)) dust_pallets
  end.
End Dust.

(** ** Privileges *)

(** The origins of the runtime: those of the system and those of other pallets. *)
Inductive OriginCaller := OcSystem (o : Origin) | OcOther (n : Z).
#[global] Instance origin_caller_eq : EqDecision OriginCaller.
Proof. assert (EqDecision Origin) by solve_decision. solve_decision. Defined.

Definition cmp_privilege (left right : OriginCaller) : option comparison :=
  if bool_decide (left = right) then Some Eq
  else match left with OcSystem Root => Some Gt | _ => None end.

(** ** What the watchtower lets in *)

Section Proposals.
Context `{WatchtowerConfig}.
Context (runtime_origin : forall admin o, ExternalProposerOrigin admin o = external_proposer_origin admin o).

Lemma external_proposer_spec admin o p : external_proposer_origin admin o = Ok p <->
  (o = Root /\ p = None) \/ exists who, o = Signed who /\ p = Some who /\ (admin = None \/ admin = Some who).
Proof.
  unfold external_proposer_origin, EnsureExternalProposerOrRoot. destruct o as [|who|]; cbn.
  - split; [intros [= <-]; auto|intros [[_ ->]|(? & [=] & _)]; done].
  - destruct admin as [admin|]; cbn; [case_bool_decide; cbn|]; split; try done; try (intros [= <-]; naive_solver); naive_solver.
  - split; [done|]. naive_solver.
Qed.

(** External proposals come from root or, once an administrator is set, from
    nobody but the administrator; a relayed one never comes from root. *)
Theorem external_proposals_guarded o c s s' : Watchtower.dispatch o c s = (Ok tt, s') ->
  (forall p, c = submit_external_proposal_call p -> o = Root \/ exists who, o = Signed who /\ (AdminAccount s = None \/ AdminAccount s = Some who)) /\
  (forall proof p b, c = signed_submit_external_proposal_call proof p b ->
     o = Signed (signer proof) /\ (AdminAccount s = None \/ AdminAccount s = Some (signer proof)) /\ block_number s < saturating_add 32 b SignedTxLifetime).
Proof using runtime_origin.
  intros Hr%transactional_ok. split.
  - intros p ->. apply bind_ok in Hr as (s0 & s1 & [-> ->]%get_ok & Hr). apply bind_ok in Hr as (who & s1 & [Ho ->]%lift_ok & _).
    rewrite runtime_origin in Ho. apply external_proposer_spec in Ho as [[? _]|(w & ? & _ & ?)]; eauto.
  - intros proof p b ->. apply bind_ok in Hr as (s0 & s1 & [-> ->]%get_ok & Hr). apply bind_ok in Hr as (who & s1 & [Ho ->]%lift_ok & Hr).
    apply bind_ok in Hr as (u & s1 & [_ ->]%lift_ok & Hr). apply bind_ok in Hr as (u1 & s1 & [Hw%ensure_ok%bool_decide_eq_true ->]%lift_ok & Hr). subst who.
    rewrite runtime_origin in Ho. apply external_proposer_spec in Ho as [[_ [=]]|(w & -> & [= ->] & Ha)].
    apply bind_ok in Hr as (s0 & s1 & [-> ->]%get_ok & Hr). apply bind_ok in Hr as (u2 & s1 & [Hb%ensure_ok%Z.ltb_lt ->]%lift_ok & _). done.
Qed.
End Proposals.
