(* ===== verification/WatchtowerDemo.v ===== *)
(** * The watchtower on a concrete configuration

    Three watchtowers, the runtime's constants, an injective id function and
    the summary pallet behind the hooks: the theorems of the watchtower files
    at states reached by real calls. *)

From S2P Require Import Prelude Errors Collections Interfaces ReferenceEnv Watchtower WatchtowerQueue WatchtowerInv WatchtowerLife WatchtowerVotes SummaryWatchtower RuntimeOrigins.

(** ** The configuration *)

#[global] Instance demo_no_hooks : WatchtowerHooks unit := {|
  on_proposal_submitted _ _ _ h := (Ok tt, h);
  on_voting_completed _ _ _ h := h |}.

(** The constants of [runtime/src/lib.rs]; the node registry is the list of its
    watchtowers, a signature is its key, a block has weight for everything. *)
Definition demo_base : WatchtowerConfig := {|
  SignedTxLifetime := 64;
  MaxTitleLen := 512;
  MaxInlineLen := 8192;
  MaxUriLen := 2040;
  MaxInternalProposalLen := 4096;
  wt_per_things := ref_per_things;
  HooksState := unit;
  wt_hooks := demo_no_hooks;
  ExternalProposerOrigin := external_proposer_origin;
  NodesState := list AccountId;
  is_authorized_watchtower l a := bool_decide (a ∈ l);
  is_watchtower_owner l a := bool_decide (a ∈ l);
  get_authorized_watchtowers_count l := Z.of_nat (length l);
  get_watchtower_voting_weight l a := 1;
  get_node_signing_key l a := if bool_decide (a ∈ l) then Some (Z.of_N a) else None;
  encode x := [];
  verify_signature _ _ := true;
  verify_session_signature key _ sig := key =? sig;
  default_status := Unknown;
  proposal_hash r c d := r;
  Meter := unit;
  consume_expiry_status m := Some m;
  consume_finalise m := Some m;
  consume_reads _ m := Some m;
  consume_writes _ m := Some m;
  id_order l := l;
  voter_order l := l |}.

#[global] Instance demo_base_laws : @WatchtowerLaws demo_base.
Proof. split; [by split|done..]. Qed.

#[global] Instance demo_codec : SummaryCodec := {|
  RootId := Z * Z;
  from_block := fst;
  to_block := snd;
  decode_root data := match data with [a; b; h] => Some ((a, b), h) | _ => None end |}.

#[global] Instance demo_offchain : SummaryOffchain := {|
  ocw_already_run _ := false;
  node_from_local_signing_keys := Some (2%N, 2);
  finalised_block := Some 9;
  try_lock _ _ _ := true;
  calculate_root_hash a b := Some 77;
  sign key _ := Some key;
  submit_unsigned_transaction _ := true;
  write_ok _ _ := true |}.

#[global] Instance demo_config : WatchtowerConfig := with_hooks demo_base summary_hooks.

(** ** A run *)

Definition demo_request (ref : Z) : ProposalRequest :=
  mkRequest [65] (RawInline [1; 5; 77]) (5 * 10 ^ 8) (Internal Summary) SimpleMajority ref 1 None.

Definition wt0 : WtState :=
  mkWt 100 ∅ ∅ ∅ ∅ ∅ None ∅ 0 0 ∅ None 10 [1%N; 2%N; 3%N] (mkSw None []) [].
Definition wt1 : WtState := exec (submit_proposal None (demo_request 7)) wt0.
Definition wt2 : WtState := exec (submit_proposal None (demo_request 8)) wt1.
Definition wt3 : WtState := exec (dispatch (Signed 1) (vote_call 7 true)) wt2.
Definition wt4 : WtState := exec (dispatch (Signed 2) (vote_call 7 true)) wt3.

Lemma wt0_initial : wt_initial wt0.
Proof. by repeat split. Qed.
Lemma wt1_run : wt_run wt0 1 wt1.
Proof. eapply run_snoc; [constructor|apply step_submit]. Qed.
Lemma wt2_run : wt_run wt0 2 wt2.
Proof. eapply run_snoc; [apply wt1_run|apply step_submit]. Qed.
Lemma wt3_run : wt_run wt0 3 wt3.
Proof. eapply run_snoc; [apply wt2_run|apply step_dispatch]. Qed.

Example demo_statuses :
  (ProposalStatus wt3 !! 7, ProposalStatus wt3 !! 8, ProposalStatus wt4 !! 7, ProposalStatus wt4 !! 8,
   ActiveInternalProposal wt4) =
  (Some Active, Some Queued, Some (Resolved true), Some Active, Some 8).
Proof. vm_compute. reflexivity. Qed.

(** ** Instances of the theorems *)

Lemma demo_reach n s : wt_run wt0 n s -> wt_reach n s.
Proof. intros Hs. exists wt0. split; [apply wt0_initial|exact Hs]. Qed.

(** The queue of [wt2] holds the second proposal. *)
Lemma wt2_ring : ring wt2 [8].
Proof.
  destruct (wt_reach_ok 2 wt2 (demo_reach _ _ wt2_run) eq_refl) as (q & HI & _).
  pose proof (inv_ring _ _ HI) as Hr. enough (q = [8]) as <- by exact Hr.
  assert (Hl : len wt2 = 1) by (vm_compute; reflexivity). rewrite (ring_len _ _ Hr) in Hl.
  destruct q as [|x [|y q]]; cbn in Hl; [lia| |lia].
  - f_equal. assert (Hx : dequeue wt2 = dequeue wt2) by done. rewrite (dequeue_run wt2 [x] Hr) in Hx at 1 by done.
    apply (f_equal fst) in Hx. vm_compute in Hx. congruence.
Qed.

Lemma queue_fifo_witness : exists s', enqueue 9 wt2 = (Ok tt, s') /\ ring s' [8; 9].
Proof.
  destruct (queue_fifo wt2 [8] 9 wt2_ring ltac:(reflexivity)) as [Hq _].
  rewrite decide_True in Hq by reflexivity. exact Hq.
Defined.

Lemma watchtower_invariant_witness : wt_reach 3 wt3 /\ exists q, WtInv q wt3.
Proof.
  pose proof (demo_reach 3 wt3 wt3_run) as Hr. split; [exact Hr|]. exact (watchtower_invariant 3 wt3 Hr eq_refl).
Defined.

Lemma status_lifecycle_witness :
  ProposalStatus wt3 !! 7 = Some Active /\ ProposalStatus wt4 !! 7 = Some (Resolved true) /\
  status_edge (ProposalStatus wt3 !! 7) (ProposalStatus wt4 !! 7).
Proof.
  split; [vm_compute; reflexivity|]. split; [vm_compute; reflexivity|].
  apply (status_lifecycle 3 wt3 wt4 7); [by intros|exact (demo_reach 3 wt3 wt3_run)|reflexivity|apply step_dispatch].
Defined.

Lemma vote_counts_witness :
  exists s', process_vote 2%N 7 true wt3 = (Ok true, s') /\
    voters_of wt3 7 !! 2%N = None /\ voters_of s' 7 = <[2%N := true]> (voters_of wt3 7).
Proof.
  destruct (wt_reach_ok 3 wt3 (demo_reach 3 wt3 wt3_run) eq_refl) as (q & HI & Ht).
  assert (Hf : (fun p => (threshold p, proposal_expired (block_number wt3) p)) <$> Proposals wt3 !! 7 =
    Some (5 * 10 ^ 8, false)) by (vm_compute; reflexivity).
  apply fmap_Some in Hf as (p & Hp & Hf). apply pair_equal_spec in Hf as [Hthr Hexp]. symmetry in Hthr, Hexp.
  exists (exec (process_vote 2%N 7 true) wt3).
  assert (Hr : process_vote 2%N 7 true wt3 = (Ok true, exec (process_vote 2%N 7 true) wt3))
    by (apply exec_result; vm_compute; reflexivity).
  split; [exact Hr|].
  assert (Ht64 : Tail wt3 < 2 ^ 64) by (vm_compute; reflexivity).
  assert (Hrange : 0 <= threshold p <= 10 ^ 9) by (rewrite Hthr; split; discriminate).
  assert (Hcount : 0 <= get_authorized_watchtowers_count (nodes wt3)) by (vm_compute; discriminate).
  destruct (vote_counts q wt3 2%N 7 p true true _ HI Ht64 Hp Hrange Hcount Hexp Hr) as (_ & Hn & Hv & _).
  split; [exact Hn|]. rewrite (Hv 7). by apply decide_True.
Defined.

(** The only proposal is decided by two votes. *)
Definition wt5 : WtState := exec (dispatch (Signed 1) (vote_call 7 true)) wt1.
Definition wt6 : WtState := exec (dispatch (Signed 2) (vote_call 7 true)) wt5.
Lemma wt6_run : wt_run wt0 3 wt6.
Proof. eapply run_snoc; [eapply run_snoc; [apply wt1_run|apply step_dispatch]|apply step_dispatch]. Qed.

Lemma cleanup_completes_witness :
  ProposalsToRemove wt6 = {[7]} /\
  ProposalsToRemove (idle_run [(11, tt); (12, tt); (13, tt)] wt6) = ∅ /\
  Proposals (idle_run [(11, tt); (12, tt); (13, tt)] wt6) !! 7 = None.
Proof.
  assert (Hrem : ProposalsToRemove wt6 = {[7]}) by (vm_compute; reflexivity).
  assert (Ha : ActiveInternalProposal wt6 = None) by (vm_compute; reflexivity).
  assert (Hw : work wt6 <= 3) by (vm_compute; discriminate).
  assert (Hin : 7 ∈ ProposalsToRemove wt6) by (rewrite Hrem; by apply elem_of_singleton).
  assert (Hample : forall m : Meter, is_Some (consume_expiry_status m) /\ is_Some (consume_finalise m) /\
    (forall k, is_Some (consume_reads k m)) /\ (forall k, is_Some (consume_writes k m)))
    by (intros m; repeat split; by eexists).
  destruct (cleanup_completes Hample 3 wt6 [(11, tt); (12, tt); (13, tt)] 7
    (demo_reach 3 wt6 wt6_run) ltac:(lia) Ha Hw Hin) as (H1 & H2 & _).
  split; [exact Hrem|]. split; [exact H1|exact H2].
Defined.

Lemma wt1_root : RootInfo (hooks wt1) = Some (7, mkRoot (H := demo_codec) (1, 5) 77).
Proof. vm_compute. reflexivity. Qed.

Lemma root_is_active_witness :
  RootInfo (hooks wt1) = Some (7, mkRoot (H := demo_codec) (1, 5) 77) /\ ActiveInternalProposal wt1 = Some 7.
Proof.
  split; [exact wt1_root|].
  destruct (root_is_active demo_base wt0 1 wt1 7 (mkRoot (H := demo_codec) (1, 5) 77) wt0_initial
    eq_refl wt1_run eq_refl) as [_ Hr]. exact (proj1 (Hr wt1_root)).
Defined.

Lemma worker_vote_accepted_witness :
  offchain_worker 20 (hooks wt1) ∅ = ([unsigned_vote_call 7 true 2 2], {[(7, 2%N) := 20]}) /\
  exists i d w b, ActiveInternalProposal wt1 = Some i /\ RootInfo (hooks wt1) = Some (i, d) /\
    dispatch NoOrigin (unsigned_vote_call 7 true 2 2) wt1 = transactional (process_vote w i b ;; mret tt) wt1.
Proof.
  assert (Hw : offchain_worker 20 (hooks wt1) ∅ = ([unsigned_vote_call 7 true 2 2], {[(7, 2%N) := 20]}))
    by (vm_compute; reflexivity).
  split; [exact Hw|].
  assert (Hkey : forall w key, node_from_local_signing_keys = Some (w, key) ->
    get_node_signing_key (nodes wt1) w = Some key).
  { intros w key Hn. change (Some (2%N, 2) = Some (w, key)) in Hn. apply Some_inj, pair_equal_spec in Hn as [<- <-].
    vm_compute. reflexivity. }
  assert (Hsig : forall key x sig, sign key x = Some sig -> verify_session_signature key (encode x) sig = true).
  { intros key x sig Hs. change (Some key = Some sig) in Hs. apply Some_inj in Hs as <-. apply Z.eqb_refl. }
  assert (Hin : unsigned_vote_call 7 true 2 2 ∈ [unsigned_vote_call 7 true 2 2]) by left.
  destruct (worker_vote_accepted demo_base wt0 1 wt1 20 ∅ _ _ (unsigned_vote_call 7 true 2 2) wt0_initial eq_refl
    wt1_run eq_refl Hsig Hkey Hw Hin) as (i & d & w & b & Ha & Hr & _ & Hd & _).
  exists i, d, w, b. split; [exact Ha|]. split; [exact Hr|exact Hd].
Defined.

(** ** When the next proposal in the queue is rejected by its hook

    A queued internal proposal is shown to the hooks only when it is activated,
    inside the finalisation of the one before it. *)

Definition undecodable_request : ProposalRequest :=
  mkRequest [65] (RawInline [9]) (5 * 10 ^ 8) (Internal Summary) SimpleMajority 8 1 None.
Definition wt7 : WtState :=
  exec (dispatch (Signed 1) (vote_call 7 true)) (exec (submit_proposal None undecodable_request) wt1).

(** The deciding vote fails and is rolled back, so the proposal stays active;
    when it has expired, [on_idle] finishes it but does not mark it for
    removal, and the rejected one becomes active without a root. *)
Example rejected_successor :
  (dispatch (Signed 2) (vote_call 7 true) wt7).1 = Err (sw_error InvalidSummaryProposal) /\
  (let s := on_idle 200 tt (set_block_number 200 wt7) in
   (ProposalStatus s !! 7, elements (ProposalsToRemove s), ActiveInternalProposal s, RootInfo (hooks s)) =
   (Some Expired, [], Some 8, None)).
Proof. split; vm_compute; reflexivity. Qed.
