(* ===== verification/ProxyConfig.v ===== *)
(** * The proxy of the runtime

    [AvnProxyConfig] of [src/runtime/src/proxy_config.rs]: a relayer hands in a
    call that somebody else signed; the proxy takes the proof out of the call and
    asks the call's pallet whether the signature is valid.  The three pallets that
    are not in the repository are represented by the calls the configuration
    names, with their validation as a parameter. *)

From S2P Require Import Prelude Errors Interfaces Market MultiCurrency OrderBook HybridRouter NeoSwaps PredictionMarkets PmCalls Watchtower NodeManager.

(** The calls of pallets outside the repository that carry a proof; their other
    arguments are kept as one. *)
Inductive EthereumEventsCall := signed_add_ethereum_log (proof : Proof_) (args : list Z) | ethereum_events_other.
Inductive TokenManagerCall :=
| signed_transfer (proof : Proof_) (args : list Z)
| schedule_signed_lower (proof : Proof_) (args : list Z)
| token_manager_other.
Inductive NftManagerCall :=
| signed_mint_single_nft (proof : Proof_) (args : list Z)
| signed_list_nft_open_for_sale (proof : Proof_) (args : list Z)
| signed_transfer_fiat_nft (proof : Proof_) (args : list Z)
| signed_cancel_list_fiat_nft (proof : Proof_) (args : list Z)
| signed_create_batch (proof : Proof_) (args : list Z)
| signed_mint_batch_nft (proof : Proof_) (args : list Z)
| signed_list_batch_for_sale (proof : Proof_) (args : list Z)
| signed_end_batch_sale (proof : Proof_) (args : list Z)
| nft_manager_other.

Inductive RuntimeCall :=
| RcEthereumEvents (c : EthereumEventsCall)
| RcTokenManager (c : TokenManagerCall)
| RcNftManager (c : NftManagerCall)
| RcPredictionMarkets (c : PmCall)
| RcHybridRouter (c : RouterCall)
| RcNodeManager (c : NmCall)
| RcNeoSwaps (c : NsCall)
| RcWatchtower (c : Watchtower.Call)
| RcOther.

Definition get_proof (call : RuntimeCall) : option Proof_ :=
  match call with
  | RcEthereumEvents (signed_add_ethereum_log proof _) => Some proof
  | RcTokenManager (signed_transfer proof _) => Some proof
  | RcTokenManager (schedule_signed_lower proof _) => Some proof
  | RcNftManager (signed_mint_single_nft proof _) => Some proof
  | RcNftManager (signed_list_nft_open_for_sale proof _) => Some proof
  | RcNftManager (signed_transfer_fiat_nft proof _) => Some proof
  | RcNftManager (signed_cancel_list_fiat_nft proof _) => Some proof
  | RcNftManager (signed_create_batch proof _) => Some proof
  | RcNftManager (signed_mint_batch_nft proof _) => Some proof
  | RcNftManager (signed_list_batch_for_sale proof _) => Some proof
  | RcNftManager (signed_end_batch_sale proof _) => Some proof
  | RcPredictionMarkets (call_create proof _ _ _ _ _ _ _ _ _ _ _) => Some proof
  | RcPredictionMarkets (call_report proof _ _) => Some proof
  | RcPredictionMarkets (call_transfer proof _ _ _) => Some proof
  | RcPredictionMarkets (call_redeem proof _) => Some proof
  | RcPredictionMarkets (call_withdraw proof _ _) => Some proof
  | RcPredictionMarkets (call_buy_set proof _ _) => Some proof
  | RcHybridRouter (signed_buy_call proof _ _ _ _ _ _ _) => Some proof
  | RcHybridRouter (signed_sell_call proof _ _ _ _ _ _ _) => Some proof
  | RcNodeManager (signed_register_node_call proof _ _ _ _) => Some proof
  | RcNeoSwaps (signed_join_call proof _ _ _ _) => Some proof
  | RcNeoSwaps (signed_exit_call proof _ _ _ _) => Some proof
  | RcNeoSwaps (signed_withdraw_fees_call proof _ _) => Some proof
  | RcNodeManager (signed_deregister_nodes_call proof _ _ _) => Some proof
  | RcWatchtower (Watchtower.signed_submit_external_proposal_call proof _ _) => Some proof
  | RcWatchtower (Watchtower.signed_vote_call proof _ _ _) => Some proof
  | _ => None
  end.

Section Proxy.
Context `{PmConfig} `{HybridRouterConfig} `{!NeoSwapsConfig} `{WatchtowerConfig} `{NmConfig}.
Context (ethereum_events_valid : EthereumEventsCall -> bool) (token_manager_valid : TokenManagerCall -> bool)
        (nft_manager_valid : NftManagerCall -> bool).

(** The storage the pallets look at: prediction-markets and the router keep
    nonces. *)
Definition proxy_signature_is_valid (pm : PmState) (hr : HrState) (call : RuntimeCall) : bool :=
  match call with
  | RcEthereumEvents c => ethereum_events_valid c
  | RcTokenManager c => token_manager_valid c
  | RcNftManager c => nft_manager_valid c
  | RcPredictionMarkets c => pm_signature_is_valid c pm
  | RcHybridRouter c => router_signature_is_valid hr c
  | RcNodeManager c => nm_signature_is_valid c
  | RcNeoSwaps c => neo_signature_is_valid c
  | RcWatchtower c => Watchtower.signature_is_valid c
  | RcOther => false
  end.

(** The signer and payload the pallet of a call checks. *)
Definition call_payload (pm : PmState) (hr : HrState) (call : RuntimeCall) : option (Proof_ * list Z) :=
  match call with
  | RcPredictionMarkets c => pm_encoded_call_param c pm
  | RcHybridRouter c => router_encoded_call_param hr c
  | RcNodeManager c => nm_encoded_call_param c
  | RcNeoSwaps c => neo_encoded_call_param c
  | RcWatchtower c => Watchtower.get_encoded_call_param c
  | _ => None
  end.
Definition of_repository (call : RuntimeCall) : bool :=
  match call with RcEthereumEvents _ | RcTokenManager _ | RcNftManager _ => false | _ => true end.

(** The proxy and the pallets of the repository agree on which calls are
    relayed: the proof the proxy extracts is the one the pallet checks, every
    relayed call has one, and a call without a proof is never valid. *)
Theorem proxy_covers_relayed_calls pm hr call : of_repository call = true ->
  get_proof call = fst <$> call_payload pm hr call /\
  (proxy_signature_is_valid pm hr call = true -> is_Some (get_proof call)).
Proof.
  intros Hrep. assert (E : get_proof call = fst <$> call_payload pm hr call) by (destruct call as [c|c|c|c|c|c|c|c|]; try done; by destruct c).
  split; [done|]. rewrite E. destruct call as [c|c|c|c|c|c|c|c|]; try done; cbn [proxy_signature_is_valid call_payload].
  - unfold pm_signature_is_valid. by destruct (pm_encoded_call_param c pm) as [[]|]; [eexists|].
  - unfold router_signature_is_valid. by destruct (router_encoded_call_param hr c) as [[]|]; [eexists|].
  - unfold nm_signature_is_valid. by destruct (nm_encoded_call_param c) as [[]|]; [eexists|].
  - unfold neo_signature_is_valid. by destruct (neo_encoded_call_param c) as [[]|]; [eexists|].
  - unfold Watchtower.signature_is_valid. by destruct (Watchtower.get_encoded_call_param c) as [[]|]; [eexists|].
Qed.
End Proxy.
